(* ===== verification/_CoqProject ===== *)
-Q . S2P
Prelude.v
Crc.v
Vmsa.v
SystemServices.v
Kernel.v
LinkedLists.v
Heap.v
Interfaces.v
Maps.v
Gate.v
Locks.v
SystemRequest.v
Svc.v
MemoryAllocator.v
SystemDriver.v
DriverOnKernel.v
DriverMemory.v
KernelInit.v
RollCall.v
RiscosVm.v
RiscosFacts.v
RiscosOnKernel.v
GpuDevices.v
GpuMailbox.v
MailboxFacts.v
TagRequests.v
PropertyPath.v
SdCard.v
SdFacts.v
InterfaceCompiler.v
CompilerFacts.v
Display.v
DisplayFacts.v
Gpio.v
GpuDriver.v
Aarch64.v
Vectors.v
WorldSwitch.v
WorldSwitchFacts.v
Veneers.v
ClientLocks.v
