(* ===== verification/Prelude.v ===== *)
(** * IsambardOS: a verification library

    IsambardOS is a small capability kernel for the Raspberry Pi 3 (AArch64).  The
    kernel proper runs at secure EL1 and does very little: it switches between
    threads, lets a thread call into another map through an interface, keeps the
    gates and locks that threads wait for, and resolves faults from the blocks
    of memory a map was given.  Everything else is done by drivers at secure EL0: the
    system driver hands out memory, maps, threads, services and interrupts, the
    physical memory allocator keeps the free pages, the drivers of the GPU's devices
    reach its mailboxes, the SD card, the pins and the screen, and the virtual machine
    driver runs a RISC OS guest in non-secure EL1 and EL0 and emulates its devices.  EL3
    code starts the cores, and the kernel reaches the non-secure world through it.  Drivers
    call each other through interfaces, whose C headers a host program prints from
    descriptions.

    This library translates that C code into Rocq functions and proves what the
    parts promise and what they do together.  Each file is one part; its own
    header gives its conventions.

    ** Conventions

    - A C integer is a [Z]; the conversions [u8], [u32], [u64], [s32], [s64] below are
      written where the C type wraps.  A bit-field is [get] or [put] at its position
      in the word ([Vmsa.field]).
    - Code that changes state is a function in the monad [M S A], [S → res S A].
      [Ok a s] is a return.  [Stop r s] is the end of the program, with the reason:
      [Bsod line] for the kernel's failure screen, [Smc n] for a bare call of EL3,
      [Brk line] for a driver that stops itself, [Fault address] for an access
      outside the modelled objects, [Spin line] for an endless loop of the source.
    - Memory is a finite map from addresses.  Pointers are addresses, so two pointers
      to the same object are the same number and aliasing comes out as it does in C.
    - The kernel state ([Kernel.kstate]) has one core, because [el3.c] parks the others
      before they reach the kernel.  The kernel runs with interrupts masked, so its
      exclusive-access loops are atomic, except where a claim is about the loop
      itself ([Locks], where the values that a failing exclusive store meets are
      an argument).
    - What the repository does not define is an argument: the generated table of
      drivers, the linker's addresses ([KernelInit.layout]), the instruction [crc32x]
      ([Crc.crc32x_spec]), which cores are normal ([RollCall]), the devices
      ([SystemDriver.Platform], [RiscosVm.Hypervisor], [GpuDevices.Devices]).

    ** The files

    Shared:
    - [Prelude]: integers and bits, the monad and its laws, relations between a state
      before and after, [keeps], lists, the tactics and the hint databases.
    - [Crc]: [software_crc32] and [hardware_crc32] of [drivers/riscos.c], [name_code] of
      [include/drivers.h].
    - [Vmsa]: [include/aarch64_vmsa.h], the translation table entry.
    - [SystemServices]: [include/system_services.h], [include/isambard_syscalls.h], the
      packed words that kernel and system driver exchange.

    The kernel ([secure_el1.c], [include/svc_handling.h], [include/core_isambard.h]):
    - [Kernel]: threads, the core, the static variables; accessors.
    - [LinkedLists]: [include/doubly_linked_lists.h] for threads, specified by [ring].
    - [Heap]: [allocate_heap], [read_heap], [write_heap], [free_heap].
    - [Interfaces]: the interface table, its free list, and the calls that make and
      give up interfaces.
    - [Maps]: [change_map], [find_and_map_memory], the tables of the core, specified by
      a walk of the tables ([translate]).
    - [Gate]: [handle_svc_gate] and the queue of timeouts, specified in three levels:
      registers in memory, list of differences, list of deadlines.
    - [Locks]: waiting for a lock and releasing it, specified by [lock_rep].
    - [SystemRequest]: [system_driver_request], what the system driver may ask.
    - [Svc]: [handle_svc] and the exception entries, which call all of the above.
    - [KernelInit]: [kernel_translation_tables.c] and the start of [secure_el1.c].
    - [RollCall]: [c_el3_nommu] of [el3.c], a step relation over all interleavings.

    The drivers:
    - [MemoryAllocator]: [drivers/physical_memory_allocator.c].
    - [SystemDriver]: [drivers/system.c], over the classes [KernelHeap] (what it asks of
      the kernel) and [Platform] (devices and other drivers).
    - [RiscosVm]: [drivers/riscos.c], over the classes [Partner] (what it asks of the
      kernel about its guest) and [Hypervisor] (with devices and threads), and the
      relation [vm_step] of everything that can happen to it.  [RiscosFacts] holds
      its theorems.

    The drivers of the GPU's devices ([drivers/pi3gpu], linked into one driver) and the
    screen.  Each file has a class for what it uses of the others:
    - [GpuDevices]: [devices.h], the registers as data and the class [Devices] of their
      reads and writes; a driver's variables beside a world ([sys]); a board for examples.
    - [GpuMailbox]: [mailbox.c], the channels of the mailboxes, and [MailboxFacts], over
      all interleavings of interrupts, rounds of the pump and arriving messages.
    - [TagRequests]: [mailbox_properties.c], the requests that wait for the GPU.
    - [SdCard]: [sd.c], and [SdFacts].
    - [Gpio]: [gpio.c], the pins.
    - [GpuDriver]: [enter.c] and [fb.c], the start, the interrupt and the frame buffer.
    - [Display]: [drivers/show_page.c], and [DisplayFacts], with pictures of the screen.

    The assembly:
    - [Aarch64]: the instructions that the repository's assembly uses, a step function over
      registers, system registers, flag, exclusive monitor and memory, with labels.
    - [Vectors]: [include/aarch64_c_vector_table.h], the exception handlers of EL1 around
      the C code, [el1_enter_thread] and [el1_resume_thread].
    - [WorldSwitch]: the vectors of EL2 and EL3 in [el3_virtual_machines.c] and the layout
      of the tables ([include/aarch64_vector_table.h]), and [WorldSwitchFacts].
    - [Veneers]: [include/isambard_client.h] and [drivers/libdrivers.c], how a thread enters
      and leaves a provider, makes a supervisor call and starts a driver.
    - [ClientLocks]: the lock of a provider as the threads that use it execute it, a step
      relation over all interleavings.

    On the build host:
    - [InterfaceCompiler]: [tools/interfaces.c], and [CompilerFacts], which specifies
      what it prints for a description and has the descriptions of [interfaces].

    Compositions, where one part's class is implemented by another part's code:
    - [DriverOnKernel]: [KernelHeap] by [SystemRequest].
    - [DriverMemory]: [Platform] by [MemoryAllocator].
    - [RiscosOnKernel]: [Partner] by [Svc.handle_svc].
    - [GpuDriver.drivers_interrupts]: [InterruptWorld] by [GpuMailbox] and [SdCard].
    - [PropertyPath]: [TagWorld] by [GpuMailbox], and [MailboxWorld] by [TagRequests].
    - [WorldSwitchFacts] uses that the trap of a guest is the call number [Svc.handle_svc]
      knows; [ClientLocks] has the lock's supervisor calls as [Locks] specifies them.

    ** What the theorems show

    - Isolation.  Whichever exception is taken, the map that is loaded is that of the
      thread that runs next ([Svc.exception_loads_map]), entering a map leaves no entry of
      the map before in any table ([Maps.change_map_isolates]), a fault is resolved only from the map's
      own blocks and with their rights ([Maps.find_and_map_memory_translates],
      [DriverOnKernel.map_at_then_find_vmb]), no call gives a map an interface to which it
      has no right ([Interfaces.interface_calls_authority]), and the tables of the kernel
      and of the guest map what they should and nothing else
      ([KernelInit.kernel_address_space], [RiscosFacts.stage2_maps_guest_memory]).
    - Control.  A call and its return are inverse ([Svc.call_return_roundtrip]), the
      call stack does not overflow, the partner takes the driver's place in the
      ring of threads, an interrupt reaches the handlers that are due
      ([Svc.irq_runs_interrupt_thread], [SystemDriver.interrupt_calls_due_handlers]).
    - Switches.  A thread that an exception interrupts continues with every register as
      it was ([Vectors.thread_switch_round_trip]); so does a guest, with the system registers
      of its world ([WorldSwitchFacts.guest_round_trip]), and its trap reaches the
      kernel as a call with the reason in registers
      ([WorldSwitchFacts.guest_trap_reaches_partner]).  A provider is entered and left with the
      caller's registers and the lock as it should be, except after an exception
      ([Veneers.shared_provider_call]).
    - Waiting.  Each case of the gate does to the list of deadlines what its name says
      ([Gate.gate_tick_expires], [gate_wait_blocks], [gate_wake_releases]); a lock goes to its
      waiters in the order of their arrival, and at most one thread has it in every
      interleaving of the threads' instructions ([ClientLocks.lock_excludes]).
    - Memory.  The heap never hands out a word twice; the allocator tiles a free area
      with aligned chunks and takes the first that fits, soundly when what is left of it
      is at most two powers of two ([MemoryAllocator.allocate_first_fit]); the system driver's
      blocks are the pages the allocator gave.
    - The virtual machine.  Every variable of the driver stays in the range of its type
      and its requests to raise and lower the guest's interrupt line follow its interrupt
      controller ([RiscosFacts.vm_requests_follow_controller]), whatever the guest does; what
      the kernel makes of those requests is [RiscosOnKernel.virtual_irq_stops_kernel].  A register the guest writes is the one it reads, through the
      kernel; mailbox requests and SD commands end.
    - The start.  One core initialises the shared tables and the published set of cores
      is exact, in every interleaving with single loads, and from every reachable point
      the roll call can complete; the core then finds itself in high memory, and
      each driver starts in its own map.

    - The GPU's devices.  Each mailbox channel's client gets its messages in order, none
      lost and none twice; the queue of property requests holds just the requests that
      wait, and an answer wakes the thread that asked, through both drivers
      ([PropertyPath.request_comes_back]); an SD command, an application command and
      a transfer program the controller as they should; the driver's memory of the
      pull resistors is exact; an interrupt runs the handlers that are pending.
    - The screen.  [DisplayFacts.show_page_shows_memory]: a page is drawn word for word
      in its place, with its labels, and no other memory changes.  [GpuDriver.frame_buffer_is_found_once]: the block covers the buffer.
    - Interfaces.  [CompilerFacts.compiler_output]: the client's and the provider's header
      of a description agree; [call_numbers_identify_routines]: over all descriptions of
      the repository no two routines have the same number, and the one the kernel knows
      is right.

    Where the code does not do what it means to, a theorem says what it does.  Among
    these: [RollCall.two_loads_race], [RiscosOnKernel.virtual_irq_stops_kernel] and
    [vm_registers_are_truncated], [MemoryAllocator.allocate_hands_out_twice],
    [DriverOnKernel.unmap_then_find_vmb], [DriverMemory.set_memory_top_double_free],
    [SystemDriver.register_service_overflows], [subblock_escapes] and
    [physical_address_of_block], [Maps.find_and_map_memory_aliases],
    [Interfaces.interface_index_one_past_the_end] and [obtain_last_interface_stops],
    [Locks.wait_lock_spurious_failure_stops], [KernelInit.kernel_data_executable],
    [MailboxFacts.blocked_message_is_stuck] and [early_interrupt_stops_driver],
    [SdFacts.early_data_done_is_lost], [clock_rate_is_set] and [accepted_cards],
    [Gpio.pull_request_is_lost], [GpuDriver.retry_sends_the_answer].

    ** Fuel

    A loop whose end is not structural has fuel; running out of it is a [Stop].  A
    theorem that gives the result of such a loop also shows that it returns.
    - [Gate.queue_fuel] is one more than the number of threads; a queue has no
      thread twice.
    - [Maps.find_vmb_loop] has one unit for each word up to the top of the heap.
    - The loops of [MemoryAllocator] take their fuel as an argument; the theorems ask
      for more than the length of the list that is walked, or more than the number of
      pages of the area that is split.  [DriverMemory.fuel] is 200, the bound on the
      length of the lists in that file.
    - [RiscosVm.tag_loop] has one more than the number of bytes of memory; each tag
      moves the pointer up.
    - [RiscosVm.count_up] has 2^24, after which 24 bits of a counter have come round;
      it is used with the invariants only.
    - [LinkedLists.count_loop] and [foreach_loop] take theirs as an argument.
    - [GpuMailbox.drain] has 18 rounds: each but the last fills one of 16 channels.
    - [TagRequests.find_request] has one unit for each of the 64 entries.
    - [SdCard]'s loops that wait for the hardware, [GpuMailbox.wait_for_room] and
      [GpuDriver.find_screen] take the number of rounds as an argument.
    - [Display.nibble_loop] has 64, one for each bit of the picture of a digit.
    - [InterfaceCompiler]'s loops have the length of the file.
    - [Aarch64.run] takes the number of instructions: [WorldSwitch]'s [vector_fuel] is 160,
      [Veneers.veneer_fuel] 100 and [Vectors] has 40, each more than its code has
      instructions; that code has no backward branch but the retry of a lock, whose theorem
      is over single steps.

    ** Not modelled

    - Reset, and the stacks that the cores start with ([boot.c]), and [memset.c].
    - The providers with a pool of stacks and with a stack for each object
      ([include/isambard_client.h]), which no driver uses, and the loops of
      [include/exclusive.h].  The watchdog core of [el3_virtual_machines.c], whose code only
      shows something.
    - Output when the kernel stops ([el3_bsod.c], [el3_gpio4_debug.c]).
    - The threads of [drivers/pi3gpu/sd.c] that are not started ([timer_thread],
      [show_page_thread] and the tests), and [dma.c], whose routine is empty.
    - [drivers/arm11vm.c], the predecessor of [drivers/riscos.c], which is not built.
    - The routines of [tools/interfaces.c] that only disabled code calls; the unit tests.
    - The variants that a build does not contain: the tick of the gate
      that shortens every timeout, and the loading of the guest from the SD card,
      which only the build without [QEMU] of [drivers/riscos.c] has.
    - Caches, barriers and TLB maintenance, which have no effect on the states here. *)

From stdpp Require Export base list numbers gmap.
From stdpp Require Export fin_maps.

#[global] Set Default Goal Selector "!".
Global Open Scope Z_scope.

(** ** Machine integers

    The C sources use [uint8_t], [uint32_t], [uint64_t] ([integer_register]) and
    signed types.  A value of one of these types is a [Z]; the conversions
    below write out the wrap-around. *)

Definition u8 (z : Z) : Z := z mod 2 ^ 8.
Definition u32 (z : Z) : Z := z mod 2 ^ 32.
Definition u64 (z : Z) : Z := z mod 2 ^ 64.
Definition s32 (z : Z) : Z := (z + 2 ^ 31) mod 2 ^ 32 - 2 ^ 31.
Definition s64 (z : Z) : Z := (z + 2 ^ 63) mod 2 ^ 64 - 2 ^ 63.

#[global] Arguments u8 : simpl never.
#[global] Arguments u32 : simpl never.
#[global] Arguments u64 : simpl never.
#[global] Arguments s32 : simpl never.
#[global] Arguments s64 : simpl never.

(** [x & (1 << n) - 1], the low [n] bits. *)
Definition low_bits (n x : Z) : Z := Z.land x (Z.ones n).

Definition is_u32 (z : Z) : Prop := 0 ≤ z < 2 ^ 32.
Definition is_u64 (z : Z) : Prop := 0 ≤ z < 2 ^ 64.

Lemma u32_id z : is_u32 z → u32 z = z.
Proof. apply Z.mod_small. Qed.

Lemma u64_id z : is_u64 z → u64 z = z.
Proof. apply Z.mod_small. Qed.

Lemma u32_range z : is_u32 (u32 z).
Proof. apply Z.mod_pos_bound. lia. Qed.

Lemma u64_range z : is_u64 (u64 z).
Proof. apply Z.mod_pos_bound. lia. Qed.

Lemma s32_id z : - 2 ^ 31 ≤ z < 2 ^ 31 → s32 z = z.
Proof. intros ?. unfold s32. rewrite Z.mod_small; lia. Qed.

Lemma s64_id z : - 2 ^ 63 ≤ z < 2 ^ 63 → s64 z = z.
Proof. intros ?. unfold s64. rewrite Z.mod_small; lia. Qed.

Create HintDb isambard discriminated.
Create Rewrite HintDb machine_int.
Create Rewrite HintDb bits.
#[export] Hint Resolve u32_range u64_range : isambard.
#[export] Hint Rewrite u32_id u64_id s32_id s64_id using (first [assumption | unfold is_u32, is_u64 in *; lia]) : machine_int.

Ltac simp_int := autorewrite with machine_int.

(** ** Bit fields

    A C bit-field of width [w] starting at bit [lo] of the word [r].
    Assigning to the field keeps the other bits. *)

Definition get_bits (lo w r : Z) : Z := Z.land (Z.shiftr r lo) (Z.ones w).

Definition set_bits (lo w v r : Z) : Z :=
  Z.lor (Z.ldiff r (Z.shiftl (Z.ones w) lo)) (Z.shiftl (Z.land v (Z.ones w)) lo).

#[global] Arguments get_bits : simpl never.
#[global] Arguments set_bits : simpl never.

Lemma ones_testbit w i : 0 ≤ w → 0 ≤ i → Z.testbit (Z.ones w) i = bool_decide (i < w).
Proof.
  intros Hw Hi. case_bool_decide.
  - apply Z.ones_spec_low. lia.
  - apply Z.ones_spec_high. lia.
Qed.

Lemma get_bits_testbit lo w r i :
  0 ≤ lo → 0 ≤ w → 0 ≤ i →
  Z.testbit (get_bits lo w r) i = Z.testbit r (i + lo) && bool_decide (i < w).
Proof.
  intros. unfold get_bits.
  rewrite Z.land_spec, Z.shiftr_spec, ones_testbit by lia. done.
Qed.

Lemma set_bits_testbit lo w v r i :
  0 ≤ lo → 0 ≤ w → 0 ≤ i →
  Z.testbit (set_bits lo w v r) i =
    if bool_decide (lo ≤ i < lo + w) then Z.testbit v (i - lo) else Z.testbit r i.
Proof.
  intros. unfold set_bits.
  rewrite Z.lor_spec, Z.ldiff_spec, !Z.shiftl_spec by lia.
  destruct (decide (i < lo)).
  - rewrite !(Z.testbit_neg_r _ (i - lo)) by lia.
    rewrite bool_decide_eq_false_2 by lia. by rewrite andb_true_r, orb_false_r.
  - rewrite Z.land_spec, !ones_testbit by lia.
    destruct (decide (i < lo + w)).
    + rewrite !bool_decide_eq_true_2 by lia. by destruct (Z.testbit r i), (Z.testbit v (i - lo)).
    + rewrite !bool_decide_eq_false_2 by lia. by destruct (Z.testbit r i), (Z.testbit v (i - lo)).
Qed.

Lemma get_bits_range lo w r : 0 ≤ w → 0 ≤ get_bits lo w r < 2 ^ w.
Proof.
  intros. unfold get_bits. rewrite Z.land_ones by lia.
  apply Z.mod_pos_bound. apply Z.pow_pos_nonneg; lia.
Qed.

Lemma get_bits_alt lo w r : 0 ≤ lo → 0 ≤ w → get_bits lo w r = (r / 2 ^ lo) mod 2 ^ w.
Proof. intros. unfold get_bits. by rewrite Z.land_ones, Z.shiftr_div_pow2 by lia. Qed.

Lemma get_set_bits_same lo w v r :
  0 ≤ lo → 0 ≤ w → 0 ≤ v < 2 ^ w → get_bits lo w (set_bits lo w v r) = v.
Proof.
  intros. apply Z.bits_inj_iff'. intros i Hi.
  rewrite get_bits_testbit, set_bits_testbit by lia.
  replace (i + lo - lo) with i by lia.
  destruct (decide (i < w)).
  - rewrite !bool_decide_eq_true_2 by lia. apply andb_true_r.
  - rewrite (bool_decide_eq_false_2 (i < w)), andb_false_r by lia. symmetry.
    rewrite <- (Z.mod_small v (2 ^ w)) by lia. apply Z.mod_pow2_bits_high. lia.
Qed.

Lemma get_set_bits_trunc lo w v r :
  0 ≤ lo → 0 ≤ w → get_bits lo w (set_bits lo w v r) = v mod 2 ^ w.
Proof.
  intros. rewrite <- (get_set_bits_same lo w (v mod 2 ^ w) r); try lia.
  - f_equal. unfold set_bits. f_equal. f_equal.
    rewrite !Z.land_ones by lia. by rewrite Z.mod_mod by lia.
  - apply Z.mod_pos_bound. apply Z.pow_pos_nonneg; lia.
Qed.

Lemma get_set_bits_other lo w lo' w' v r :
  0 ≤ lo → 0 ≤ w → 0 ≤ lo' → 0 ≤ w' → (lo + w ≤ lo' ∨ lo' + w' ≤ lo) →
  get_bits lo w (set_bits lo' w' v r) = get_bits lo w r.
Proof.
  intros. apply Z.bits_inj_iff'. intros i Hi.
  rewrite !get_bits_testbit, set_bits_testbit by lia.
  destruct (decide (i < w)).
  - by rewrite (bool_decide_eq_false_2 (lo' ≤ _ < _)) by lia.
  - by rewrite (bool_decide_eq_false_2 (i < w)), !andb_false_r by lia.
Qed.

Lemma set_bits_nonneg lo w v r : 0 ≤ lo → 0 ≤ w → 0 ≤ r → 0 ≤ set_bits lo w v r.
Proof.
  intros. unfold set_bits. apply Z.lor_nonneg. split.
  - apply Z.ldiff_nonneg. by left.
  - apply Z.shiftl_nonneg. rewrite Z.land_ones by lia.
    apply Z.mod_pos_bound. apply Z.pow_pos_nonneg; lia.
Qed.

Lemma lt_pow2_testbit a n :
  0 ≤ n → 0 ≤ a → (∀ i, n ≤ i → Z.testbit a i = false) → a < 2 ^ n.
Proof.
  intros Hn Ha Hbits.
  assert (a mod 2 ^ n = a) as <-.
  { apply Z.bits_inj_iff'. intros i Hi. destruct (decide (i < n)).
    - by rewrite Z.mod_pow2_bits_low by lia.
    - rewrite Z.mod_pow2_bits_high by lia. symmetry. apply Hbits. lia. }
  apply Z.mod_pos_bound. apply Z.pow_pos_nonneg; lia.
Qed.

Lemma testbit_above a n i : 0 ≤ a < 2 ^ n → 0 ≤ n ≤ i → Z.testbit a i = false.
Proof. intros. rewrite <- (Z.mod_small a (2 ^ n)) by lia. apply Z.mod_pow2_bits_high. lia. Qed.

Lemma set_bits_range n lo w v r :
  0 ≤ lo → 0 ≤ w → lo + w ≤ n → 0 ≤ r < 2 ^ n → 0 ≤ set_bits lo w v r < 2 ^ n.
Proof.
  intros. split; [by apply set_bits_nonneg; lia |].
  apply lt_pow2_testbit; [lia | by apply set_bits_nonneg; lia |].
  intros i Hi. rewrite set_bits_testbit, bool_decide_eq_false_2 by lia.
  apply (testbit_above _ n); lia.
Qed.

(** The rewrite rules of the packed C structures, whose offsets and widths are
    literals. *)
#[export] Hint Rewrite get_set_bits_same get_set_bits_other using lia : bits.
Ltac simp_bits := autorewrite with bits; try done.

(** ** Outcomes

    Code either returns or leaves the program for good.  [BSOD( n )] is
    ["0: smc n; b 0b"], which never returns; a bare [asm ( "smc n" )] hands the
    core to EL3; [asm ( "brk n" )] is an undefined-instruction stop of an EL0
    driver.  [Fault a] marks an access through a pointer that is outside the
    modelled objects, and [Spin] an endless loop of the source. *)

Inductive stop : Type :=
  | Bsod (line : Z)
  | Smc (n : Z)
  | Brk (n : Z)
  | Fault (address : Z)
  | Spin (line : Z).

Inductive res (S A : Type) : Type :=
  | Ok (a : A) (s : S)
  | Stop (r : stop) (s : S).
Arguments Ok {S A} a s.
Arguments Stop {S A} r s.

Definition M (S A : Type) : Type := S → res S A.

#[global] Instance M_ret S : MRet (M S) := λ A a s, Ok a s.
#[global] Instance M_bind S : MBind (M S) := λ A B f m s,
  match m s with
  | Ok a s' => f a s'
  | Stop r s' => Stop r s'
  end.

Definition halt {S A} (r : stop) : M S A := λ s, Stop r s.
Definition gets {S A} (f : S → A) : M S A := λ s, Ok (f s) s.
Definition modify {S} (f : S → S) : M S unit := λ s, Ok () (f s).
Definition when {S} (b : bool) (m : M S unit) : M S unit :=
  if b then m else mret ().
(** [if (b) stop;] *)
Definition guard_stop {S} (b : bool) (r : stop) : M S unit := when b (halt r).

(** [for (i = from; i < from + n; i++) body( i )] *)
Fixpoint for_range {S} (n : nat) (from : Z) (body : Z → M S unit) : M S unit :=
  match n with
  | O => mret ()
  | Datatypes.S n' => _ ← body from; for_range n' (from + 1) body
  end.

Lemma bind_ok {S A B} (m : M S A) (f : A → M S B) s a s' :
  m s = Ok a s' → (m ≫= f) s = f a s'.
Proof. intros E. unfold mbind, M_bind. by rewrite E. Qed.

Lemma bind_stop {S A B} (m : M S A) (f : A → M S B) s r s' :
  m s = Stop r s' → (m ≫= f) s = Stop r s'.
Proof. intros E. unfold mbind, M_bind. by rewrite E. Qed.

Lemma bind_ok_inv {S A B} (m : M S A) (f : A → M S B) s b s'' :
  (m ≫= f) s = Ok b s'' → ∃ a s', m s = Ok a s' ∧ f a s' = Ok b s''.
Proof. unfold mbind, M_bind. destruct (m s); naive_solver. Qed.

(** A guard that does not fire, and one that does. *)
Lemma guard_pass {S B} (P : Prop) `{Decision P} r (f : unit → M S B) s :
  ¬ P → (guard_stop (bool_decide P) r ≫= f) s = f () s.
Proof. intros HP. by rewrite bool_decide_eq_false_2. Qed.

Lemma guard_stops {S B} (P : Prop) `{Decision P} r (f : unit → M S B) s :
  P → (guard_stop (bool_decide P) r ≫= f) s = Stop r s.
Proof. intros HP. by rewrite bool_decide_eq_true_2. Qed.

Lemma when_skip {S B} (P : Prop) `{Decision P} m (f : unit → M S B) s :
  ¬ P → (when (bool_decide P) m ≫= f) s = f () s.
Proof. intros HP. by rewrite bool_decide_eq_false_2. Qed.

Lemma when_runs {S B} (P : Prop) `{Decision P} m (f : unit → M S B) s s' :
  P → m s = Ok () s' → (when (bool_decide P) m ≫= f) s = f () s'.
Proof. intros HP E. rewrite bool_decide_eq_true_2 by done. by apply bind_ok. Qed.

(** Code that begins with a sequence whose effect is known. *)
Lemma seq2_ok {S B} (m1 m2 : M S unit) (f : M S B) s s' :
  (_ ← m1; m2) s = Ok () s' → (_ ← m1; _ ← m2; f) s = f s'.
Proof. unfold mbind, M_bind. destruct (m1 s) as [a1 s1|]; [|done]. by intros ->. Qed.

Lemma seq3_ok {S B} (m1 m2 m3 : M S unit) (f : M S B) s s' :
  (_ ← m1; _ ← m2; m3) s = Ok () s' → (_ ← m1; _ ← m2; _ ← m3; f) s = f s'.
Proof.
  unfold mbind, M_bind. destruct (m1 s) as [a1 s1|]; [|done].
  destruct (m2 s1) as [a2 s2|]; [|done]. by intros ->.
Qed.

Lemma gets_ok {S A B} (g : S → A) (f : A → M S B) s : (gets g ≫= f) s = f (g s) s.
Proof. done. Qed.

Lemma modify_ok {S B} (g : S → S) (f : unit → M S B) s : (modify g ≫= f) s = f () (g s).
Proof. done. Qed.

Lemma ret_ok {S A} (a : A) (s : S) : (mret a : M S A) s = Ok a s.
Proof. done. Qed.

Lemma for_range_S {S} n from (body : Z → M S unit) s s' :
  body from s = Ok () s' →
  for_range (Datatypes.S n) from body s = for_range n (from + 1) body s'.
Proof. intros E. simpl. by rewrite (bind_ok _ _ _ _ _ E). Qed.

Lemma for_range_ext {S} n from (f g : Z → M S unit) s :
  (∀ i, from ≤ i < from + Z.of_nat n → f i = g i) → for_range n from f s = for_range n from g s.
Proof.
  revert from s. induction n as [|n IH]; intros from s H; [done |]. simpl. rewrite H by lia.
  unfold mbind, M_bind. destruct (g from s); [|done]. apply IH. intros i Hi. apply H. lia.
Qed.

(** An invariant of a counted loop: [P i s] holds before the iteration [i]. *)
Lemma for_range_inv {S} (P : Z → S → Prop) (body : Z → M S unit) n from s :
  P from s →
  (∀ i s, from ≤ i < from + Z.of_nat n → P i s → ∃ s', body i s = Ok () s' ∧ P (i + 1) s') →
  ∃ s', for_range n from body s = Ok () s' ∧ P (from + Z.of_nat n) s'.
Proof.
  revert from s. induction n as [|n IH]; intros from s HP Hstep.
  - exists s. split; [done |]. by replace (from + Z.of_nat 0) with from by lia.
  - destruct (Hstep from s) as (s1 & E1 & HP1); [lia | done |].
    destruct (IH (from + 1) s1) as (s2 & E2 & HP2); [done | |].
    { intros i s' Hi. apply Hstep. lia. }
    exists s2. rewrite (for_range_S _ _ _ _ _ E1). split; [done |].
    by replace (from + Z.of_nat (Datatypes.S n)) with (from + 1 + Z.of_nat n) by lia.
Qed.

(** Step through the monadic code of the goal: reduce the binds whose first
    part computes, rewriting with the hypotheses at hand. *)
Ltac run_unfold :=
  unfold mbind, M_bind, mret, M_ret, gets, modify, guard_stop, when, halt in *.
Ltac run :=
  run_unfold; simpl in *;
  repeat match goal with
  | H : ?x = _ |- context [match ?x with _ => _ end] => rewrite H; simpl
  end; simpl in *.

(** Pass the guard at the front of the goal's code, or be stopped by it. *)
Ltac pass := rewrite guard_pass by (try done; try lia; try tauto).
Ltac stopped := rewrite guard_stops by (try done; try lia; try tauto).

(** Split a hypothesis [(m ≫= f) s = Ok _ _] into its two parts. *)
Ltac inv_bind H :=
  let a := fresh "a" in let s := fresh "s" in let E := fresh "E" in
  apply bind_ok_inv in H; destruct H as (a & s & E & H).

(** ** Relations every successful run respects

    [preserves R m]: whenever [m] returns, its final state is related by [R] to the
    one it began in.  For a preorder this is compositional, and the hint database
    [preserves] follows the structure of the code. *)
Definition preserves {S A} (R : S → S → Prop) (m : M S A) : Prop :=
  ∀ s a s', m s = Ok a s' → R s s'.

Section preserves.
Context {S : Type} (R : S → S → Prop) `{!PreOrder R}.

Lemma preserves_ret {A} (a : A) : preserves R (mret a).
Proof. by intros s a' s' [= <- <-]. Qed.

Lemma preserves_halt {A} r : preserves R (halt r : M S A).
Proof. by intros s a s'. Qed.

Lemma preserves_gets {A} (f : S → A) : preserves R (gets f).
Proof. by intros s a s' [= <- <-]. Qed.

Lemma preserves_bind {A B} (m : M S A) (f : A → M S B) :
  preserves R m → (∀ a, preserves R (f a)) → preserves R (m ≫= f).
Proof.
  intros Hm Hf s b s' H. apply bind_ok_inv in H as (a & s1 & E & H).
  transitivity s1; [by eapply Hm | by eapply Hf].
Qed.

Lemma preserves_modify (f : S → S) : (∀ s, R s (f s)) → preserves R (modify f).
Proof. intros Hf s a s' [= <- <-]. apply Hf. Qed.

Lemma preserves_when b (m : M S unit) : preserves R m → preserves R (when b m).
Proof. destruct b; [done |]. intros _. apply preserves_ret. Qed.

Lemma preserves_guard b r : preserves R (guard_stop b r : M S unit).
Proof. apply preserves_when, preserves_halt. Qed.

Lemma preserves_if {A} (b : bool) (m1 m2 : M S A) :
  preserves R m1 → preserves R m2 → preserves R (if b then m1 else m2).
Proof. by destruct b. Qed.

Lemma preserves_for_range n from (body : Z → M S unit) :
  (∀ i, preserves R (body i)) → preserves R (for_range n from body).
Proof.
  intros Hb. revert from. induction n as [|n IH]; intros from; simpl; [apply preserves_ret |].
  apply preserves_bind; auto.
Qed.
End preserves.

(** The components add what their own operations preserve. *)
Create HintDb preserves discriminated.

(** Follow the structure of the code down to its primitive steps. *)
Ltac preserves_step :=
  intros; cbv zeta;
  match goal with
  | |- preserves _ _ => solve [eauto 2 with preserves nocore]
  | |- preserves _ (_ ≫= _) => apply preserves_bind; [apply _ | |]
  | |- preserves _ (mret _) => apply preserves_ret; apply _
  | |- preserves _ (halt _) => apply preserves_halt
  | |- preserves _ (gets _) => apply preserves_gets; apply _
  | |- preserves _ (guard_stop _ _) => apply preserves_guard; apply _
  | |- preserves _ (when _ _) => apply preserves_when; [apply _ |]
  | |- preserves _ (for_range _ _ _) => apply preserves_for_range; [apply _ |]
  | |- preserves _ (if ?b then _ else _) => destruct b
  | |- preserves _ (match ?x with _ => _ end) => destruct x
  end.
Ltac preserves := repeat preserves_step.

(** [returns P m]: whatever [m] returns satisfies [P]. *)
Definition returns {S A} (P : A → Prop) (m : M S A) : Prop := ∀ s a s', m s = Ok a s' → P a.

Lemma returns_ret {S A} (P : A → Prop) (a : A) : P a → returns P (mret a : M S A).
Proof. by intros Ha s a' s' [= <- <-]. Qed.

Lemma returns_halt {S A} (P : A → Prop) r : returns P (halt r : M S A).
Proof. by intros s a s'. Qed.

Lemma returns_bind {S A B} (P : B → Prop) (m : M S A) (f : A → M S B) :
  (∀ a, returns P (f a)) → returns P (m ≫= f).
Proof. intros Hf s b s' H. apply bind_ok_inv in H as (a & s1 & _ & H). by eapply Hf. Qed.

Ltac returns :=
  repeat (intros; cbv zeta;
    match goal with
    | |- returns _ (mret _) => apply returns_ret; done
    | |- returns _ (halt _) => apply returns_halt
    | |- returns _ (_ ≫= _) => apply returns_bind
    | |- returns _ (if ?b then _ else _) => destruct b
    | |- returns _ (match ?x with _ => _ end) => destruct x
    end).

(** [wp m Q B s]: run from [s], [m] returns and [Q] holds of the result and the final
    state, or it stops for a reason that [B] allows. *)
Definition wp {S A} (m : M S A) (Q : A → S → Prop) (B : stop → Prop) (s : S) : Prop :=
  match m s with Ok a s' => Q a s' | Stop r _ => B r end.

Lemma wp_ok {S A} (m : M S A) Q B s a s' : wp m Q B s → m s = Ok a s' → Q a s'.
Proof. unfold wp. intros H E. by rewrite E in H. Qed.

Lemma wp_stop {S A} (m : M S A) Q B s r s' : wp m Q B s → m s = Stop r s' → B r.
Proof. unfold wp. intros H E. by rewrite E in H. Qed.

Lemma wp_never_stops {S A} (m : M S A) Q s : wp m Q (λ _, False) s → ∃ a s', m s = Ok a s' ∧ Q a s'.
Proof. unfold wp. destruct (m s) as [a s'|]; [by exists a, s' | done]. Qed.

Lemma wp_mono {S A} (m : M S A) (Q Q' : A → S → Prop) (B B' : stop → Prop) s :
  wp m Q B s → (∀ a s', Q a s' → Q' a s') → (∀ r, B r → B' r) → wp m Q' B' s.
Proof. unfold wp. destruct (m s); auto. Qed.

Lemma wp_ret {S A} (a : A) (Q : A → S → Prop) B s : Q a s → wp (mret a) Q B s.
Proof. done. Qed.

Lemma wp_halt {S A} r (Q : A → S → Prop) (B : stop → Prop) s : B r → wp (halt r) Q B s.
Proof. done. Qed.

Lemma wp_bind {S A C} (m : M S A) (f : A → M S C) Q B s :
  wp m (λ a, wp (f a) Q B) B s → wp (m ≫= f) Q B s.
Proof. unfold wp, mbind, M_bind. by destruct (m s). Qed.

(** Continue after a part whose effect is known. *)
Lemma wp_seq {S A C} (m : M S A) (f : A → M S C) (R : A → S → Prop) (B' : stop → Prop) Q B s :
  wp m R B' s → (∀ r, B' r → B r) → (∀ a s', R a s' → wp (f a) Q B s') → wp (m ≫= f) Q B s.
Proof. intros Hm HB Hf. apply wp_bind. by eapply wp_mono. Qed.

Lemma wp_when {S} (b : bool) (m : M S unit) (Q : unit → S → Prop) B s :
  (b = true → wp m Q B s) → (b = false → Q () s) → wp (when b m) Q B s.
Proof. intros H1 H2. destruct b; [by apply H1 | by apply H2]. Qed.

Lemma wp_if {S A} (P : Prop) `{!Decision P} (m1 m2 : M S A) (Q : A → S → Prop) B s :
  (P → wp m1 Q B s) → (¬ P → wp m2 Q B s) → wp (if bool_decide P then m1 else m2) Q B s.
Proof. case_bool_decide; auto. Qed.

(** [halts_with m P s]: run from [s], [m] stops, for a reason and in a state that [P] allows. *)
Definition halts_with {S A} (m : M S A) (P : stop → S → Prop) (s : S) : Prop :=
  match m s with Ok _ _ => False | Stop r s' => P r s' end.

Lemma halts_bind {S A C} (m : M S A) (f : A → M S C) P s :
  wp m (λ a, halts_with (f a) P) (λ _, False) s → halts_with (m ≫= f) P s.
Proof. unfold wp, halts_with, mbind, M_bind. by destruct (m s). Qed.

Lemma halts_first {S A C} (m : M S A) (f : A → M S C) P s : halts_with m P s → halts_with (m ≫= f) P s.
Proof. unfold halts_with, mbind, M_bind. by destruct (m s). Qed.

(** ** Booleans of the C conditions *)
Ltac case_bool :=
  repeat match goal with
  | |- context [bool_decide ?P] => destruct (bool_decide_reflect P)
  | H : context [bool_decide ?P] |- _ => destruct (bool_decide_reflect P)
  end.

(** ** Lists *)
Lemma NoDup_snoc {A} (l : list A) x : NoDup (l ++ [x]) ↔ NoDup l ∧ x ∉ l.
Proof.
  rewrite NoDup_app. pose proof (NoDup_singleton x). set_solver.
Qed.

Lemma filter_all {A} (P : A → Prop) `{!∀ x, Decision (P x)} l : Forall P l → filter P l = l.
Proof. induction 1; [done |]. rewrite filter_cons_True by done. by f_equal. Qed.

Lemma filter_none {A} (P : A → Prop) `{!∀ x, Decision (P x)} l :
  Forall (λ x, ¬ P x) l → filter P l = [].
Proof. induction 1; [done |]. by rewrite filter_cons_False. Qed.

Lemma Forall_filter {A} (P Q : A → Prop) `{!∀ x, Decision (Q x)} l : Forall P l → Forall P (filter Q l).
Proof. rewrite !Forall_forall. intros HP x Hx. apply list_elem_of_filter in Hx. naive_solver. Qed.

(** ** Maps *)
Lemma alter_known {K A} `{Countable K} (f : A → A) (m : gmap K A) i x :
  m !! i = Some x → alter f i m = <[i := f x]> m.
Proof.
  intros Hi. apply map_eq. intros j. destruct (decide (j = i)) as [->|Hj].
  - by rewrite lookup_alter_eq, lookup_insert_eq, Hi.
  - by rewrite lookup_alter_ne, lookup_insert_ne.
Qed.
