(* ===== verification/Crc.v ===== *)
(** * Checksums

    [software_crc32] and [hardware_crc32] of [drivers/riscos.c], which check the guest
    image, and [name_code] of [include/drivers.h], which turns the name of a service or
    of an interface into the number the system driver files it under.

    Memory is the list of its bytes.  The instruction [crc32x] is not C: it is the
    argument [crc32x] of [hardware_crc32], and its documented behaviour is the
    hypothesis [crc32x_spec]. *)

From S2P Require Import Prelude.

Module Crc.

Definition Polynomial : Z := 0xEDB88320.

(** [crc = (crc >> 1) ^ (-(int)(crc & 1) & Polynomial)] *)
Definition crc_round (crc : Z) : Z :=
  Z.lxor (Z.shiftr crc 1) (Z.land (u32 (- Z.land crc 1)) Polynomial).

(** [crc ^= b] and eight rounds. *)
Definition crc_byte (crc b : Z) : Z := Nat.iter 8 crc_round (Z.lxor crc b).

Definition software_crc32 (p : list Z) : Z := u32 (Z.lnot (foldl crc_byte 0xffffffff p)).

(** The characters of a C string end at the first NUL. *)
Fixpoint name_loop (crc : Z) (current : list Z) {struct current} : Z :=
  match current with
  | [] => crc
  | c :: current => if bool_decide (c = 0) then crc else name_loop (crc_byte crc c) current
  end.
Definition name_code (name : list Z) : Z := u32 (Z.lnot (name_loop 0xffffffff name)).

(** A little-endian load. *)
Fixpoint little_endian (bytes : list Z) : Z :=
  match bytes with
  | [] => 0
  | b :: bytes => Z.lor b (Z.shiftl (little_endian bytes) 8)
  end.

Section hardware.
Variable crc32x : Z → Z → Z.

(** [n] rounds of the loop: two 64-bit loads through [crcp], in order. *)
Fixpoint crc_loop (n : nat) (crc : Z) (crcp : list Z) : Z :=
  match n with
  | O => crc
  | S n =>
      let data0 := little_endian (take 8 crcp) in
      let data1 := little_endian (take 8 (drop 8 crcp)) in
      crc_loop n (crc32x (crc32x crc data0) data1) (drop 16 crcp)
  end.

Definition hardware_crc32 (p : list Z) : Z :=
  u32 (Z.lnot (crc_loop (length p / 16) 0xffffffff p)).
End hardware.

(** What the architecture says [crc32x] computes: a 64-bit division, least significant
    bit first. *)
Definition divide_bit (r : Z) : Z :=
  if Z.odd r then Z.lxor (Z.shiftr r 1) Polynomial else Z.shiftr r 1.
Definition crc32x_spec (crc32x : Z → Z → Z) : Prop :=
  ∀ crc data, is_u32 crc → is_u64 data → crc32x crc data = Nat.iter 64 divide_bit (Z.lxor crc data).

Definition is_byte (b : Z) : Prop := 0 ≤ b < 2 ^ 8.

Example crc_check_value : software_crc32 [49; 50; 51; 52; 53; 54; 55; 56; 57] = 0xcbf43926.
Proof. vm_compute. reflexivity. Qed.

(** ** Rounds *)
Lemma crc_round_divide r : crc_round r = divide_bit r.
Proof.
  unfold crc_round, divide_bit. change (Z.land r 1) with (Z.land r (Z.ones 1)).
  rewrite Z.land_ones by lia. change (2 ^ 1) with 2.
  rewrite Zmod_odd. destruct (Z.odd r); [done |]. by rewrite Z.lxor_0_r.
Qed.

(** The bits above the lowest only move down. *)
Lemma divide_bit_above x y : divide_bit (Z.lxor x (Z.shiftl y 1)) = Z.lxor (divide_bit x) y.
Proof.
  assert (Z.odd (Z.lxor x (Z.shiftl y 1)) = Z.odd x) as Hodd.
  { rewrite <- !Z.bit0_odd, Z.lxor_spec, Z.shiftl_spec by lia.
    by rewrite (Z.testbit_neg_r y), xorb_false_r by lia. }
  assert (Z.shiftr (Z.lxor x (Z.shiftl y 1)) 1 = Z.lxor (Z.shiftr x 1) y) as Hshift.
  { by rewrite Z.shiftr_lxor, Z.shiftr_shiftl_l by lia. }
  unfold divide_bit. rewrite Hodd, Hshift. destruct (Z.odd x); [|done].
  rewrite !Z.lxor_assoc. f_equal. apply Z.lxor_comm.
Qed.

Lemma divide_above n x y :
  Nat.iter n divide_bit (Z.lxor x (Z.shiftl y (Z.of_nat n))) = Z.lxor (Nat.iter n divide_bit x) y.
Proof.
  revert y. induction n as [|n IH]; intros y; [by rewrite Z.shiftl_0_r |].
  replace (Z.of_nat (S n)) with (1 + Z.of_nat n) by lia.
  rewrite <- Z.shiftl_shiftl by lia. rewrite !Nat.iter_succ, IH. apply divide_bit_above.
Qed.

Lemma crc_byte_divide crc b : crc_byte crc b = Nat.iter 8 divide_bit (Z.lxor crc b).
Proof. unfold crc_byte. simpl. by rewrite !crc_round_divide. Qed.

(** ** Ranges *)
Lemma lxor_range n a b : 0 ≤ n → 0 ≤ a < 2 ^ n → 0 ≤ b < 2 ^ n → 0 ≤ Z.lxor a b < 2 ^ n.
Proof.
  intros Hn Ha Hb. assert (0 ≤ Z.lxor a b) by (apply Z.lxor_nonneg; lia). split; [done |].
  apply lt_pow2_testbit; [done | done |]. intros i Hi.
  by rewrite Z.lxor_spec, (testbit_above a n), (testbit_above b n) by lia.
Qed.

Lemma shiftr_1_range r : is_u32 r → 0 ≤ Z.shiftr r 1 < 2 ^ 31.
Proof. unfold is_u32. rewrite Z.shiftr_div_pow2 by lia. change (2 ^ 1) with 2. intros ?.
  split; [apply Z.div_pos; lia | apply Z.div_lt_upper_bound; lia].
Qed.

Lemma divide_bit_range r : is_u32 r → is_u32 (divide_bit r).
Proof.
  intros Hr%shiftr_1_range. unfold divide_bit, Polynomial, is_u32. case_match; [|lia].
  apply lxor_range; lia.
Qed.

Lemma divide_range n r : is_u32 r → is_u32 (Nat.iter n divide_bit r).
Proof. intros Hr. induction n as [|n IH]; [done |]. by apply divide_bit_range. Qed.

Lemma crc_byte_range crc b : is_u32 crc → is_byte b → is_u32 (crc_byte crc b).
Proof.
  intros Hc Hb. rewrite crc_byte_divide. apply divide_range, lxor_range; [lia | done |].
  unfold is_byte in Hb. lia.
Qed.

Lemma crc_bytes_range p crc : is_u32 crc → Forall is_byte p → is_u32 (foldl crc_byte crc p).
Proof.
  revert crc. induction p as [|b p IH]; intros crc Hc Hp; [done |]. inversion_clear Hp.
  simpl. apply IH; [by apply crc_byte_range | done].
Qed.

Lemma u32_lnot_inj a b : is_u32 a → is_u32 b → u32 (Z.lnot a) = u32 (Z.lnot b) → a = b.
Proof.
  intros Ha Hb. unfold u32, Z.lnot, Z.pred.
  rewrite <- (Z.mod_add (- a + -1) 1), <- (Z.mod_add (- b + -1) 1) by lia.
  unfold is_u32 in *. rewrite !Z.mod_small by lia. lia.
Qed.

(** ** No information is lost *)

(** The polynomial has its top bit set, so the result tells what the low bit was. *)
Lemma divide_bit_inj a b : is_u32 a → is_u32 b → divide_bit a = divide_bit b → a = b.
Proof.
  intros Ha Hb E.
  assert (∀ r, is_u32 r → Z.testbit (divide_bit r) 31 = Z.odd r) as Htop.
  { intros r Hr%shiftr_1_range. unfold divide_bit. destruct (Z.odd r).
    - by rewrite Z.lxor_spec, (testbit_above _ 31) by lia.
    - by rewrite (testbit_above _ 31) by lia. }
  assert (Z.odd a = Z.odd b) as Hodd by by rewrite <- !Htop, E.
  assert (Z.shiftr a 1 = Z.shiftr b 1) as Hs.
  { unfold divide_bit in E. rewrite Hodd in E. destruct (Z.odd b); [|done].
    apply (f_equal (λ z, Z.lxor z Polynomial)) in E.
    by rewrite !Z.lxor_assoc, !Z.lxor_nilpotent, !Z.lxor_0_r in E. }
  rewrite !Z.shiftr_div_pow2 in Hs by lia. change (2 ^ 1) with 2 in Hs.
  rewrite (Z.div_mod a 2), (Z.div_mod b 2), Hs, !Zmod_odd, Hodd by lia. done.
Qed.

Lemma divide_inj n a b :
  is_u32 a → is_u32 b → Nat.iter n divide_bit a = Nat.iter n divide_bit b → a = b.
Proof.
  intros Ha Hb. induction n as [|n IH]; [done |]. rewrite !Nat.iter_succ. intros E.
  apply IH. by apply divide_bit_inj in E; [|apply divide_range..].
Qed.

Lemma lxor_cancel a b c : Z.lxor a b = Z.lxor a c → b = c.
Proof.
  intros E. apply (f_equal (Z.lxor a)) in E.
  by rewrite <- !Z.lxor_assoc, Z.lxor_nilpotent, !Z.lxor_0_l in E.
Qed.

Lemma crc_byte_inj a b c : is_u32 a → is_u32 b → is_byte c → crc_byte a c = crc_byte b c → a = b.
Proof.
  intros Ha Hb Hc. rewrite !crc_byte_divide. intros E.
  assert (is_u32 c) by (unfold is_u32, is_byte in *; lia).
  apply divide_inj in E; [|by apply lxor_range..].
  rewrite !(Z.lxor_comm _ c) in E. by apply lxor_cancel in E.
Qed.

Lemma crc_bytes_inj p a b :
  is_u32 a → is_u32 b → Forall is_byte p → foldl crc_byte a p = foldl crc_byte b p → a = b.
Proof.
  revert a b. induction p as [|c p IH]; intros a b Ha Hb Hp E; [done |]. inversion_clear Hp.
  apply (crc_byte_inj a b c); [done..|]. apply IH; [by apply crc_byte_range.. | done | done].
Qed.

(** ** Eight bytes at once *)
Lemma little_endian_range p : Forall is_byte p → 0 ≤ little_endian p < 2 ^ (8 * Z.of_nat (length p)).
Proof.
  induction 1 as [|b p Hb Hp IH]; [done |]. cbn [little_endian length].
  assert (0 ≤ Z.lor b (Z.shiftl (little_endian p) 8)).
  { apply Z.lor_nonneg. rewrite Z.shiftl_nonneg. unfold is_byte in Hb. lia. }
  split; [done |]. apply lt_pow2_testbit; [lia | done |]. intros i Hi.
  rewrite Z.lor_spec, Z.shiftl_spec by lia. unfold is_byte in Hb.
  by rewrite (testbit_above b 8), (testbit_above _ (8 * Z.of_nat (length p))) by lia.
Qed.

Lemma little_endian_lxor b bs : is_byte b → little_endian (b :: bs) = Z.lxor b (Z.shiftl (little_endian bs) 8).
Proof.
  intros Hb. cbn [little_endian]. apply Z.bits_inj_iff'. intros i Hi.
  rewrite Z.lor_spec, Z.lxor_spec, Z.shiftl_spec by lia. destruct (decide (i < 8)).
  - rewrite (Z.testbit_neg_r _ (i - 8)) by lia. by rewrite orb_false_r, xorb_false_r.
  - unfold is_byte in Hb. by rewrite (testbit_above b 8) by lia.
Qed.

(** Dividing a whole little-endian word is dividing it byte by byte. *)
Lemma divide_word p crc :
  Forall is_byte p →
  Nat.iter (8 * length p) divide_bit (Z.lxor crc (little_endian p)) = foldl crc_byte crc p.
Proof.
  revert crc. induction p as [|b p IH]; intros crc Hp; [by rewrite Z.lxor_0_r |].
  inversion_clear Hp as [|? ? Hb Hp']. cbn [foldl length].
  replace (8 * S (length p))%nat with (8 * length p + 8)%nat by lia. rewrite Nat.iter_add.
  rewrite little_endian_lxor, <- Z.lxor_assoc by done.
  rewrite (divide_above 8), <- crc_byte_divide. by apply IH.
Qed.

Lemma crc32x_bytes crc32x crc p :
  crc32x_spec crc32x → is_u32 crc → Forall is_byte p → length p = 8%nat →
  crc32x crc (little_endian p) = foldl crc_byte crc p.
Proof.
  intros Hx Hc Hp Hl. pose proof (little_endian_range p Hp) as Hr. rewrite Hl in Hr.
  rewrite Hx; [|done | exact Hr]. rewrite <- (divide_word p) by done. by rewrite Hl.
Qed.

Lemma crc_loop_bytes crc32x n crc p :
  crc32x_spec crc32x → is_u32 crc → Forall is_byte p → length p = (16 * n)%nat →
  crc_loop crc32x n crc p = foldl crc_byte crc p.
Proof.
  intros Hx. revert crc p. induction n as [|n IH]; intros crc p Hc Hp Hl.
  { by destruct p. }
  cbn [crc_loop].
  assert (Forall is_byte (take 8 p)) by by apply Forall_take.
  assert (Forall is_byte (take 8 (drop 8 p))) by by apply Forall_take, Forall_drop.
  rewrite (crc32x_bytes _ crc) by (try done; rewrite length_take; lia).
  assert (is_u32 (foldl crc_byte crc (take 8 p))) by by apply crc_bytes_range.
  rewrite crc32x_bytes by (try done; rewrite length_take, length_drop; lia).
  rewrite IH; [|by apply crc_bytes_range | by apply Forall_drop | rewrite length_drop; lia].
  rewrite <- !foldl_app. f_equal.
  rewrite <- (take_drop 8 p) at 4. f_equal.
  rewrite <- (take_drop 8 (drop 8 p)) at 2. by rewrite drop_drop.
Qed.

Lemma all_bytes p : forallb (λ b, (0 <=? b) && (b <? 256)) p = true → Forall is_byte p.
Proof.
  rewrite List.forallb_forall, Forall_forall. unfold is_byte. intros H x Hx.
  specialize (H x). rewrite list_elem_of_In in Hx. apply H in Hx. lia.
Qed.

(** ** Claims *)

(** Two guest images that differ in exactly one byte, whatever their length, have
    different checksums. *)
Theorem crc_detects_byte_change pre post b b' :
  Forall is_byte pre → Forall is_byte post → is_byte b → is_byte b' → b ≠ b' →
  software_crc32 (pre ++ b :: post) ≠ software_crc32 (pre ++ b' :: post).
Proof.
  intros Hpre Hpost Hb Hb' Hne E. apply Hne. unfold software_crc32 in E.
  rewrite !foldl_app in E. cbn [foldl] in E.
  assert (is_u32 (foldl crc_byte 0xffffffff pre)) as Hc by by apply crc_bytes_range.
  set (c := foldl crc_byte 0xffffffff pre) in *.
  apply u32_lnot_inj in E; [|by apply crc_bytes_range; [apply crc_byte_range|]..].
  apply crc_bytes_inj in E; [|by apply crc_byte_range.. | done].
  rewrite !crc_byte_divide in E.
  assert (is_u32 b ∧ is_u32 b') as [? ?] by (unfold is_u32, is_byte in *; lia).
  apply divide_inj in E; [|by apply lxor_range..]. by apply lxor_cancel in E.
Qed.

Lemma crc_detects_byte_change_witness : software_crc32 [1; 2; 3] ≠ software_crc32 [1; 7; 3].
Proof.
  apply (crc_detects_byte_change [1] [3] 2 7); [by apply all_bytes.. | | |]; unfold is_byte; lia.
Defined.

(** the checksum computed with the [crc32x] instruction, sixteen bytes a round, is the
    one computed bit by bit, for every image of a whole number of rounds. *)
Theorem hardware_crc_is_software_crc crc32x p n :
  crc32x_spec crc32x → Forall is_byte p → length p = (16 * n)%nat →
  hardware_crc32 crc32x p = software_crc32 p.
Proof.
  intros Hx Hp Hl. unfold hardware_crc32, software_crc32.
  rewrite (crc_loop_bytes crc32x _ _ p); [done..| |].
  - done.
  - rewrite Hl. by rewrite (Nat.mul_comm 16 n), Nat.div_mul, Nat.mul_comm.
Qed.

Lemma hardware_crc_is_software_crc_witness :
  hardware_crc32 (λ crc data, Nat.iter 64 divide_bit (Z.lxor crc data)) (replicate 16 90) =
  software_crc32 (replicate 16 90).
Proof. apply (hardware_crc_is_software_crc _ _ 1); [done | by apply all_bytes | done]. Defined.

Lemma name_loop_until_nul p rest crc :
  Forall (λ c, c ≠ 0) p → name_loop crc (p ++ 0 :: rest) = foldl crc_byte crc p.
Proof.
  revert crc. induction p as [|c p IH]; intros crc Hp; [done |]. inversion_clear Hp.
  simpl. rewrite bool_decide_eq_false_2 by done. by apply IH.
Qed.

(** The name code of a string is the checksum of its characters. *)
Lemma name_code_is_crc name rest :
  Forall (λ c, c ≠ 0) name → name_code (name ++ 0 :: rest) = software_crc32 name.
Proof. intros H. unfold name_code, software_crc32. by rewrite name_loop_until_nul. Qed.

End Crc.
