(* ===== verification/SystemServices.v ===== *)
(** * Constants and packed objects shared by the kernel and the system driver

    [include/system_services.h], [include/isambard_syscalls.h] and the
    [Interface] union of [include/core_isambard.h].  The three packed objects are
    64-bit words with bit-fields; an [Interface] has two overlapping views. *)

From S2P Require Import Prelude Vmsa.

(** ** Supervisor call numbers ([isambard_syscalls.h]) *)
Definition ISAMBARD_GATE : Z := 0xf001.
Definition ISAMBARD_DUPLICATE_TO_RETURN : Z := 0xf002.
Definition ISAMBARD_DUPLICATE_TO_PASS : Z := 0xf003.
Definition ISAMBARD_INTERFACE_TO_RETURN : Z := 0xf004.
Definition ISAMBARD_INTERFACE_TO_PASS : Z := 0xf005.
Definition ISAMBARD_LOCK_WAIT : Z := 0xf006.
Definition ISAMBARD_LOCK_RELEASE : Z := 0xf007.
Definition ISAMBARD_YIELD : Z := 0xf008.
Definition ISAMBARD_CALL : Z := 0xf009.
Definition ISAMBARD_RETURN : Z := 0xf00a.
Definition ISAMBARD_EXCEPTION : Z := 0xf00b.
Definition ISAMBARD_SWITCH_TO_PARTNER : Z := 0xf00c.
Definition ISAMBARD_GET_PARTNER_REG : Z := 0xf00d.
Definition ISAMBARD_SET_PARTNER_REG : Z := 0xf00e.
Definition ISAMBARD_CHANGE_VM_SYSTEM_REGISTER : Z := 0xf00f.
Definition ISAMBARD_SYSTEM_REQUEST : Z := 0xf010.

(** ** [enum Isambard_Special_Request] *)
Definition Isambard_System_Service_Set_Interrupt_Thread : Z := 1.
Definition Isambard_System_Service_Add_Device_Page : Z := 2.
Definition Isambard_System_Service_Updated_Map : Z := 3.
Definition Isambard_System_Service_CreateMap : Z := 4.
Definition Isambard_System_Service_ReadInterface : Z := 6.
Definition Isambard_System_Service_ReadHeap : Z := 7.
Definition Isambard_System_Service_WriteHeap : Z := 8.
Definition Isambard_System_Service_AllocateHeap : Z := 9.
Definition Isambard_System_Service_FreeHeap : Z := 10.
Definition Isambard_System_Service_Thread_Make_Partner : Z := 16.
Definition Isambard_System_Service_Create_Thread : Z := 17.

(** Entry points of the system driver. *)
Definition System_Enter_Core0 : Z := 0.
Definition System_Service_ThreadExit : Z := 4.
Definition System_Service_Map : Z := 8.
Definition System_Service_PhysicalMemoryBlock : Z := 12.

Definition DRIVER_SYSTEM_physical_address_of : Z := 0x4a274f85.

(** ** Packed objects *)
(** [ContiguousMemoryBlock] *)
Definition cmb_start_page : field := Field 0 24.
Definition cmb_page_count : field := Field 24 20.
Definition cmb_read_only : field := Field 44 1.
Definition cmb_reserved : field := Field 45 15.
Definition cmb_is_subpage : field := Field 60 1.
Definition cmb_memory_type : field := Field 61 3.
(** [{ .start_page = s, .page_count = c, .memory_type = t }] *)
Definition cmb_make (s c t : Z) : Z :=
  put cmb_memory_type t (put cmb_page_count c (put cmb_start_page s 0)).

(** [VirtualMemoryBlock] *)
Definition vmb_start_page : field := Field 0 24.
Definition vmb_page_count : field := Field 24 20.
Definition vmb_read_only : field := Field 44 1.
Definition vmb_executable : field := Field 45 1.
Definition vmb_memory_block : field := Field 46 18.
(** The five assignments that fill in an element of a map's table. *)
Definition vmb_make (s c ro x block r : Z) : Z :=
  put vmb_memory_block block (put vmb_executable x (put vmb_read_only ro
    (put vmb_page_count c (put vmb_start_page s r)))).

(** [MapValue] *)
Definition mv_heap_offset_lsr4 : field := Field 0 32.
Definition mv_map_object : field := Field 32 20.
Definition mv_number_of_vmbs : field := Field 52 12.
Definition mv_make (offset object vmbs : Z) : Z :=
  put mv_number_of_vmbs vmbs (put mv_map_object object (put mv_heap_offset_lsr4 offset 0)).

(** ** Interfaces

    [union Interface]: [{ user; provider; handler; object }] at byte offsets 0, 4,
    8 and 16, and [free : { next; marker }] at byte offsets 0 and 4.  So
    [free.next] is [user], and [free.marker] is [provider] with the low half of
    [handler]. *)
Record Interface : Type := MkInterface {
  user : Z;      (* uint32_t *)
  provider : Z;  (* uint32_t *)
  handler : Z;   (* uint64_t *)
  object : Z;    (* uint64_t *)
}.

Definition free_marker_value : Z := 0x00746e4965657246.

Definition free_next (i : Interface) : Z := user i.
Definition free_marker (i : Interface) : Z :=
  Z.lor (provider i) (Z.shiftl (get_bits 0 32 (handler i)) 32).
Definition set_free_next (n : Z) (i : Interface) : Interface :=
  MkInterface n (provider i) (handler i) (object i).
Definition set_free_marker (m : Z) (i : Interface) : Interface :=
  MkInterface (user i) (get_bits 0 32 m) (set_bits 0 32 (Z.shiftr m 32) (handler i)) (object i).

(** ** Round trips of the packed objects *)

Lemma cmb_make_fields s c t :
  0 ≤ s < 2 ^ 24 → 0 ≤ c < 2 ^ 20 → 0 ≤ t < 8 →
  get cmb_start_page (cmb_make s c t) = s ∧ get cmb_page_count (cmb_make s c t) = c ∧
  get cmb_memory_type (cmb_make s c t) = t ∧ get cmb_read_only (cmb_make s c t) = 0 ∧
  get cmb_is_subpage (cmb_make s c t) = 0.
Proof. intros. unfold cmb_make. split_and!; simp_vmsa. Qed.

Lemma vmb_make_fields s c ro x block r :
  0 ≤ s < 2 ^ 24 → 0 ≤ c < 2 ^ 20 → 0 ≤ ro < 2 → 0 ≤ x < 2 → 0 ≤ block < 2 ^ 18 →
  let v := vmb_make s c ro x block r in
  get vmb_start_page v = s ∧ get vmb_page_count v = c ∧ get vmb_read_only v = ro ∧
  get vmb_executable v = x ∧ get vmb_memory_block v = block.
Proof. intros. unfold v, vmb_make. split_and!; simp_vmsa. Qed.

Lemma map_value_make_fields offset object vmbs :
  0 ≤ offset < 2 ^ 32 → 0 ≤ object < 2 ^ 20 → 0 ≤ vmbs < 2 ^ 12 →
  let m := mv_make offset object vmbs in
  get mv_heap_offset_lsr4 m = offset ∧ get mv_map_object m = object ∧
  get mv_number_of_vmbs m = vmbs.
Proof. intros. unfold m, mv_make. split_and!; simp_vmsa. Qed.

Lemma free_marker_set m n i :
  is_u64 m → free_marker (set_free_next n (set_free_marker m i)) = m.
Proof.
  intros [Hm0 Hm]. unfold free_marker, set_free_next, set_free_marker. simpl.
  apply Z.bits_inj_iff'. intros b Hb.
  rewrite Z.lor_spec, Z.shiftl_spec, get_bits_testbit by lia.
  replace (b + 0) with b by lia.
  destruct (decide (b < 32)).
  - rewrite (Z.testbit_neg_r _ (b - 32)) by lia.
    rewrite bool_decide_eq_true_2, andb_true_r, orb_false_r by lia. done.
  - rewrite (bool_decide_eq_false_2 (b < 32)), andb_false_r by lia. simpl.
    rewrite get_bits_testbit, set_bits_testbit by lia.
    destruct (decide (b < 64)).
    + rewrite !bool_decide_eq_true_2, andb_true_r, Z.shiftr_spec by lia.
      f_equal. lia.
    + rewrite (bool_decide_eq_false_2 (b - 32 < 32)), andb_false_r by lia.
      symmetry. apply (testbit_above _ 64); lia.
Qed.
