(* ===== verification/Kernel.v ===== *)
(** * Kernel data structures and state

    [include/core_isambard.h], [include/vm_state.h] and the static variables of
    [secure_el1.c] and [include/svc_handling.h].

    A pointer is its 64-bit address.  The kernel runs in high memory, so
    [start_address()] is [himem_offset] (the image is linked at 0) and a thread's
    code is its offset from there.  [thread_context] objects live in a store
    indexed by address; a pointer with no object in the store is outside the
    model and using it is [Fault].  [thread->stack_pointer] is the index into
    [thread->stack] that the pointer stands for.

    Secondary cores are parked by [el3.c], so the state has one [Core]. *)

From S2P Require Import Prelude Vmsa SystemServices.

Definition himem_offset : Z := 0xfffffffffe000000.
Definition start_address : Z := himem_offset.

Definition system_map_index : Z := 1.
Definition memory_allocator_map_index : Z := 2.
Definition illegal_interface_index : Z := 0.

Definition top_of_kernel_working_memory : Z := 2 * 1024 * 1024.
Definition number_of_special_interfaces : Z := 2.

(** [sizeof( thread_context )]; [int32_t] is declared as [long] in [types.h], so
    [gate] takes eight bytes. *)
Definition sizeof_thread_context : Z := 488.
Definition sizeof_vm_state : Z := 144.
(** Offsets of [regs[17]] in a thread and of [blocked_with_timeout] in a core. *)
Definition offset_of_regs17 : Z := 168.
Definition offset_of_blocked_with_timeout : Z := 12448.

(** What [thread->list] can point at. *)
Inductive list_head : Type :=
  | ListNull         (* 0 *)
  | CoreRunnable     (* &core->runnable *)
  | StaticBlocked.   (* &blocked, in svc_handling.h *)

#[global] Instance list_head_eq_dec : EqDecision list_head.
Proof. solve_decision. Defined.

Record inter_map_call_stack_element : Type := StackElement {
  caller_sp : Z;
  caller_return_address : Z;
  caller_map : Z;
}.

Record thread_context : Type := Thread {
  next : Z;
  prev : Z;
  list_of : list_head; (* thread->list *)
  partner : Z;
  regs : list Z; (* integer_register regs[31] *)
  sp : Z;
  pc : Z;
  spsr : Z;
  gate : Z; (* int32_t, a long *)
  current_core : Z;
  current_map : Z;
  fp : Z;
  stack_pointer : Z; (* index into stack *)
  stack_limit : Z; (* index into stack *)
  stack : list inter_map_call_stack_element; (* stack[6] *)
}.

Definition set_next (v : Z) (t : thread_context) : thread_context :=
  Thread v (prev t) (list_of t) (partner t) (regs t) (sp t) (pc t) (spsr t) (gate t)
    (current_core t) (current_map t) (fp t) (stack_pointer t) (stack_limit t) (stack t).
Definition set_prev (v : Z) (t : thread_context) : thread_context :=
  Thread (next t) v (list_of t) (partner t) (regs t) (sp t) (pc t) (spsr t) (gate t)
    (current_core t) (current_map t) (fp t) (stack_pointer t) (stack_limit t) (stack t).
Definition set_list_of (v : list_head) (t : thread_context) : thread_context :=
  Thread (next t) (prev t) v (partner t) (regs t) (sp t) (pc t) (spsr t) (gate t)
    (current_core t) (current_map t) (fp t) (stack_pointer t) (stack_limit t) (stack t).
Definition set_partner (v : Z) (t : thread_context) : thread_context :=
  Thread (next t) (prev t) (list_of t) v (regs t) (sp t) (pc t) (spsr t) (gate t)
    (current_core t) (current_map t) (fp t) (stack_pointer t) (stack_limit t) (stack t).
Definition set_regs (v : list Z) (t : thread_context) : thread_context :=
  Thread (next t) (prev t) (list_of t) (partner t) v (sp t) (pc t) (spsr t) (gate t)
    (current_core t) (current_map t) (fp t) (stack_pointer t) (stack_limit t) (stack t).
Definition set_sp (v : Z) (t : thread_context) : thread_context :=
  Thread (next t) (prev t) (list_of t) (partner t) (regs t) v (pc t) (spsr t) (gate t)
    (current_core t) (current_map t) (fp t) (stack_pointer t) (stack_limit t) (stack t).
Definition set_pc (v : Z) (t : thread_context) : thread_context :=
  Thread (next t) (prev t) (list_of t) (partner t) (regs t) (sp t) v (spsr t) (gate t)
    (current_core t) (current_map t) (fp t) (stack_pointer t) (stack_limit t) (stack t).
Definition set_spsr (v : Z) (t : thread_context) : thread_context :=
  Thread (next t) (prev t) (list_of t) (partner t) (regs t) (sp t) (pc t) v (gate t)
    (current_core t) (current_map t) (fp t) (stack_pointer t) (stack_limit t) (stack t).
Definition set_gate (v : Z) (t : thread_context) : thread_context :=
  Thread (next t) (prev t) (list_of t) (partner t) (regs t) (sp t) (pc t) (spsr t) v
    (current_core t) (current_map t) (fp t) (stack_pointer t) (stack_limit t) (stack t).
Definition set_current_core (v : Z) (t : thread_context) : thread_context :=
  Thread (next t) (prev t) (list_of t) (partner t) (regs t) (sp t) (pc t) (spsr t) (gate t) v
    (current_map t) (fp t) (stack_pointer t) (stack_limit t) (stack t).
Definition set_current_map (v : Z) (t : thread_context) : thread_context :=
  Thread (next t) (prev t) (list_of t) (partner t) (regs t) (sp t) (pc t) (spsr t) (gate t)
    (current_core t) v (fp t) (stack_pointer t) (stack_limit t) (stack t).
Definition set_fp (v : Z) (t : thread_context) : thread_context :=
  Thread (next t) (prev t) (list_of t) (partner t) (regs t) (sp t) (pc t) (spsr t) (gate t)
    (current_core t) (current_map t) v (stack_pointer t) (stack_limit t) (stack t).
Definition set_stack_pointer (v : Z) (t : thread_context) : thread_context :=
  Thread (next t) (prev t) (list_of t) (partner t) (regs t) (sp t) (pc t) (spsr t) (gate t)
    (current_core t) (current_map t) (fp t) v (stack_limit t) (stack t).
Definition set_stack_limit (v : Z) (t : thread_context) : thread_context :=
  Thread (next t) (prev t) (list_of t) (partner t) (regs t) (sp t) (pc t) (spsr t) (gate t)
    (current_core t) (current_map t) (fp t) (stack_pointer t) v (stack t).
Definition set_stack (v : list inter_map_call_stack_element) (t : thread_context) : thread_context :=
  Thread (next t) (prev t) (list_of t) (partner t) (regs t) (sp t) (pc t) (spsr t) (gate t)
    (current_core t) (current_map t) (fp t) (stack_pointer t) (stack_limit t) v.

(** [struct isambard_core], [typedef'd Core]: the members the modelled code uses. *)
Record Core : Type := MkCore {
  core_self : Z; (* core->core, the address of the structure *)
  physical_address : Z;
  core_number : Z;
  loaded_map : Z;
  interrupt_thread : Z;
  blocked_with_timeout : Z;
  runnable : Z;
  core_tt_l1 : list Z; (* 16 entries of 1GB *)
  core_tt_l2 : list Z; (* 512 entries of 2MB *)
  core_tt_l3 : list Z; (* 512 pages *)
  system_thread_stack : list Z;
  ttbr0_el1 : Z; (* the register, set by set_asid *)
}.

Definition set_core_self (v : Z) (c : Core) : Core :=
  MkCore v (physical_address c) (core_number c) (loaded_map c) (interrupt_thread c)
    (blocked_with_timeout c) (runnable c) (core_tt_l1 c) (core_tt_l2 c) (core_tt_l3 c)
    (system_thread_stack c) (ttbr0_el1 c).
Definition set_physical_address (v : Z) (c : Core) : Core :=
  MkCore (core_self c) v (core_number c) (loaded_map c) (interrupt_thread c)
    (blocked_with_timeout c) (runnable c) (core_tt_l1 c) (core_tt_l2 c) (core_tt_l3 c)
    (system_thread_stack c) (ttbr0_el1 c).
Definition set_core_number (v : Z) (c : Core) : Core :=
  MkCore (core_self c) (physical_address c) v (loaded_map c) (interrupt_thread c)
    (blocked_with_timeout c) (runnable c) (core_tt_l1 c) (core_tt_l2 c) (core_tt_l3 c)
    (system_thread_stack c) (ttbr0_el1 c).
Definition set_loaded_map (v : Z) (c : Core) : Core :=
  MkCore (core_self c) (physical_address c) (core_number c) v (interrupt_thread c)
    (blocked_with_timeout c) (runnable c) (core_tt_l1 c) (core_tt_l2 c) (core_tt_l3 c)
    (system_thread_stack c) (ttbr0_el1 c).
Definition set_interrupt_thread (v : Z) (c : Core) : Core :=
  MkCore (core_self c) (physical_address c) (core_number c) (loaded_map c) v
    (blocked_with_timeout c) (runnable c) (core_tt_l1 c) (core_tt_l2 c) (core_tt_l3 c)
    (system_thread_stack c) (ttbr0_el1 c).
Definition set_blocked_with_timeout (v : Z) (c : Core) : Core :=
  MkCore (core_self c) (physical_address c) (core_number c) (loaded_map c) (interrupt_thread c)
    v (runnable c) (core_tt_l1 c) (core_tt_l2 c) (core_tt_l3 c) (system_thread_stack c)
    (ttbr0_el1 c).
Definition set_runnable (v : Z) (c : Core) : Core :=
  MkCore (core_self c) (physical_address c) (core_number c) (loaded_map c) (interrupt_thread c)
    (blocked_with_timeout c) v (core_tt_l1 c) (core_tt_l2 c) (core_tt_l3 c)
    (system_thread_stack c) (ttbr0_el1 c).
Definition set_core_tt_l1 (v : list Z) (c : Core) : Core :=
  MkCore (core_self c) (physical_address c) (core_number c) (loaded_map c) (interrupt_thread c)
    (blocked_with_timeout c) (runnable c) v (core_tt_l2 c) (core_tt_l3 c)
    (system_thread_stack c) (ttbr0_el1 c).
Definition set_core_tt_l2 (v : list Z) (c : Core) : Core :=
  MkCore (core_self c) (physical_address c) (core_number c) (loaded_map c) (interrupt_thread c)
    (blocked_with_timeout c) (runnable c) (core_tt_l1 c) v (core_tt_l3 c)
    (system_thread_stack c) (ttbr0_el1 c).
Definition set_core_tt_l3 (v : list Z) (c : Core) : Core :=
  MkCore (core_self c) (physical_address c) (core_number c) (loaded_map c) (interrupt_thread c)
    (blocked_with_timeout c) (runnable c) (core_tt_l1 c) (core_tt_l2 c) v
    (system_thread_stack c) (ttbr0_el1 c).
Definition set_system_thread_stack (v : list Z) (c : Core) : Core :=
  MkCore (core_self c) (physical_address c) (core_number c) (loaded_map c) (interrupt_thread c)
    (blocked_with_timeout c) (runnable c) (core_tt_l1 c) (core_tt_l2 c) (core_tt_l3 c) v
    (ttbr0_el1 c).
Definition set_ttbr0_el1 (v : Z) (c : Core) : Core :=
  MkCore (core_self c) (physical_address c) (core_number c) (loaded_map c) (interrupt_thread c)
    (blocked_with_timeout c) (runnable c) (core_tt_l1 c) (core_tt_l2 c) (core_tt_l3 c)
    (system_thread_stack c) v.

Record kstate : Type := KState {
  core : Core;
  threads : gmap Z thread_context;
  vm_states : gmap Z (list Z); (* the vm_state after a partner thread *)
  blocked : Z; (* the fake list head of svc_handling.h *)
  kernel_heap_top : Z;
  kernel_heap_bottom : Z;
  heap : gmap Z Z; (* 64-bit words, by address *)
  interfaces : gmap Z Interface; (* by index *)
  kernel_free_interface : Z;
  kernel_last_interface : Z;
  shared_system_map : list Z;
  shared_system_map_core_page : Z;
  shared_system_map_mapped_pages : Z;
  user_memory : gmap (Z * Z) Z; (* 64-bit words of EL0, by map and virtual address *)
  sp_el0 : Z;
}.

Definition set_core (v : Core) (k : kstate) : kstate :=
  KState v (threads k) (vm_states k) (blocked k) (kernel_heap_top k) (kernel_heap_bottom k)
    (heap k) (interfaces k) (kernel_free_interface k) (kernel_last_interface k)
    (shared_system_map k) (shared_system_map_core_page k) (shared_system_map_mapped_pages k)
    (user_memory k) (sp_el0 k).
Definition set_threads (v : gmap Z thread_context) (k : kstate) : kstate :=
  KState (core k) v (vm_states k) (blocked k) (kernel_heap_top k) (kernel_heap_bottom k)
    (heap k) (interfaces k) (kernel_free_interface k) (kernel_last_interface k)
    (shared_system_map k) (shared_system_map_core_page k) (shared_system_map_mapped_pages k)
    (user_memory k) (sp_el0 k).
Definition set_vm_states (v : gmap Z (list Z)) (k : kstate) : kstate :=
  KState (core k) (threads k) v (blocked k) (kernel_heap_top k) (kernel_heap_bottom k) (heap k)
    (interfaces k) (kernel_free_interface k) (kernel_last_interface k) (shared_system_map k)
    (shared_system_map_core_page k) (shared_system_map_mapped_pages k) (user_memory k)
    (sp_el0 k).
Definition set_blocked (v : Z) (k : kstate) : kstate :=
  KState (core k) (threads k) (vm_states k) v (kernel_heap_top k) (kernel_heap_bottom k)
    (heap k) (interfaces k) (kernel_free_interface k) (kernel_last_interface k)
    (shared_system_map k) (shared_system_map_core_page k) (shared_system_map_mapped_pages k)
    (user_memory k) (sp_el0 k).
Definition set_kernel_heap_top (v : Z) (k : kstate) : kstate :=
  KState (core k) (threads k) (vm_states k) (blocked k) v (kernel_heap_bottom k) (heap k)
    (interfaces k) (kernel_free_interface k) (kernel_last_interface k) (shared_system_map k)
    (shared_system_map_core_page k) (shared_system_map_mapped_pages k) (user_memory k)
    (sp_el0 k).
Definition set_kernel_heap_bottom (v : Z) (k : kstate) : kstate :=
  KState (core k) (threads k) (vm_states k) (blocked k) (kernel_heap_top k) v (heap k)
    (interfaces k) (kernel_free_interface k) (kernel_last_interface k) (shared_system_map k)
    (shared_system_map_core_page k) (shared_system_map_mapped_pages k) (user_memory k)
    (sp_el0 k).
Definition set_heap (v : gmap Z Z) (k : kstate) : kstate :=
  KState (core k) (threads k) (vm_states k) (blocked k) (kernel_heap_top k)
    (kernel_heap_bottom k) v (interfaces k) (kernel_free_interface k) (kernel_last_interface k)
    (shared_system_map k) (shared_system_map_core_page k) (shared_system_map_mapped_pages k)
    (user_memory k) (sp_el0 k).
Definition set_interfaces (v : gmap Z Interface) (k : kstate) : kstate :=
  KState (core k) (threads k) (vm_states k) (blocked k) (kernel_heap_top k)
    (kernel_heap_bottom k) (heap k) v (kernel_free_interface k) (kernel_last_interface k)
    (shared_system_map k) (shared_system_map_core_page k) (shared_system_map_mapped_pages k)
    (user_memory k) (sp_el0 k).
Definition set_kernel_free_interface (v : Z) (k : kstate) : kstate :=
  KState (core k) (threads k) (vm_states k) (blocked k) (kernel_heap_top k)
    (kernel_heap_bottom k) (heap k) (interfaces k) v (kernel_last_interface k)
    (shared_system_map k) (shared_system_map_core_page k) (shared_system_map_mapped_pages k)
    (user_memory k) (sp_el0 k).
Definition set_kernel_last_interface (v : Z) (k : kstate) : kstate :=
  KState (core k) (threads k) (vm_states k) (blocked k) (kernel_heap_top k)
    (kernel_heap_bottom k) (heap k) (interfaces k) (kernel_free_interface k) v
    (shared_system_map k) (shared_system_map_core_page k) (shared_system_map_mapped_pages k)
    (user_memory k) (sp_el0 k).
Definition set_shared_system_map (v : list Z) (k : kstate) : kstate :=
  KState (core k) (threads k) (vm_states k) (blocked k) (kernel_heap_top k)
    (kernel_heap_bottom k) (heap k) (interfaces k) (kernel_free_interface k)
    (kernel_last_interface k) v (shared_system_map_core_page k)
    (shared_system_map_mapped_pages k) (user_memory k) (sp_el0 k).
Definition set_shared_system_map_core_page (v : Z) (k : kstate) : kstate :=
  KState (core k) (threads k) (vm_states k) (blocked k) (kernel_heap_top k)
    (kernel_heap_bottom k) (heap k) (interfaces k) (kernel_free_interface k)
    (kernel_last_interface k) (shared_system_map k) v (shared_system_map_mapped_pages k)
    (user_memory k) (sp_el0 k).
Definition set_shared_system_map_mapped_pages (v : Z) (k : kstate) : kstate :=
  KState (core k) (threads k) (vm_states k) (blocked k) (kernel_heap_top k)
    (kernel_heap_bottom k) (heap k) (interfaces k) (kernel_free_interface k)
    (kernel_last_interface k) (shared_system_map k) (shared_system_map_core_page k) v
    (user_memory k) (sp_el0 k).
Definition set_user_memory (v : gmap (Z * Z) Z) (k : kstate) : kstate :=
  KState (core k) (threads k) (vm_states k) (blocked k) (kernel_heap_top k)
    (kernel_heap_bottom k) (heap k) (interfaces k) (kernel_free_interface k)
    (kernel_last_interface k) (shared_system_map k) (shared_system_map_core_page k)
    (shared_system_map_mapped_pages k) v (sp_el0 k).
Definition set_sp_el0 (v : Z) (k : kstate) : kstate :=
  KState (core k) (threads k) (vm_states k) (blocked k) (kernel_heap_top k)
    (kernel_heap_bottom k) (heap k) (interfaces k) (kernel_free_interface k)
    (kernel_last_interface k) (shared_system_map k) (shared_system_map_core_page k)
    (shared_system_map_mapped_pages k) (user_memory k) v.

(** ** The kernel monad and its accessors *)
Abbreviation K := (M kstate).

Definition get_thread (p : Z) : K thread_context := λ k,
  match threads k !! p with
  | Some t => Ok t k
  | None => Stop (Fault p) k
  end.

Definition put_thread (p : Z) (t : thread_context) (k : kstate) : kstate :=
  set_threads (<[p := t]> (threads k)) k.

(** [p->... = ...;] for a member of the thread at [p]. *)
Definition upd_thread (p : Z) (f : thread_context → thread_context) : K unit :=
  t ← get_thread p; modify (put_thread p (f t)).

Definition upd_core (f : Core → Core) : K unit := modify (λ k, set_core (f (core k)) k).
Definition get_core : K Core := gets core.

Definition reg (n : nat) (t : thread_context) : Z := nth n (regs t) 0.
Definition set_reg (n : nat) (v : Z) (t : thread_context) : thread_context :=
  set_regs (<[n := v]> (regs t)) t.

Definition get_user_word (map va : Z) : K Z := λ k,
  match user_memory k !! (map, va) with
  | Some w => Ok w k
  | None => Stop (Fault va) k
  end.
Definition put_user_word (map va w : Z) (k : kstate) : kstate :=
  set_user_memory (<[(map, va) := w]> (user_memory k)) k.
Definition set_user_word (map va w : Z) : K unit :=
  _ ← get_user_word map va; modify (put_user_word map va w).

(** [*head], for the list heads a thread can belong to.  Reading through a null
    [list] reads virtual address 0, in the map that is loaded. *)
Definition load_list (h : list_head) : K Z :=
  match h with
  | ListNull => c ← get_core; get_user_word (loaded_map c) 0
  | CoreRunnable => gets (λ k, runnable (core k))
  | StaticBlocked => gets blocked
  end.

Definition store_list (h : list_head) (v : Z) : K unit :=
  match h with
  | ListNull => halt (Fault 0)
  | CoreRunnable => upd_core (set_runnable v)
  | StaticBlocked => modify (set_blocked v)
  end.

(** [thread_switch]: the thread to run from now on and the one that ran. *)
Record thread_switch : Type := ThreadSwitch { now : Z; then_ : Z }.

(** ** Thread codes *)
Definition thread_code (t : Z) : Z :=
  if bool_decide (t = 0) then 0 else u32 (t - start_address).

Definition thread_from_code (c : Z) : Z :=
  if bool_decide (c = 0) then 0 else u64 (start_address + c).

(** The sub-stack element [thread->stack_pointer[0]]. *)
Definition top_of_stack (p : Z) : K inter_map_call_stack_element :=
  t ← get_thread p;
  match stack t !! Z.to_nat (stack_pointer t) with
  | Some e => if bool_decide (0 ≤ stack_pointer t) then mret e else halt (Fault p)
  | None => halt (Fault p)
  end.

(** ** [initialise_new_thread] *)
Definition initial_reg (thread : Z) (i : nat) : Z :=
  u64 (Z.shiftl (Z.land 0xffffff thread) 8 + Z.of_nat i).

Definition initialise_new_thread (thread : Z) : K unit :=
  upd_thread thread (λ t,
    let t := set_regs (initial_reg thread <$> seq 0 31) t in
    let t := set_next thread t in
    let t := set_prev thread t in
    let t := set_list_of ListNull t in
    let t := set_partner 0 t in
    let t := set_spsr 0 t in
    let t := set_gate 0 t in
    let t := set_fp 0 t in
    let t := set_reg 18 (thread_code thread) t in
    let t := set_stack_pointer (Z.of_nat (length (stack t)) - 1) t in
    let t := set_stack_limit 0 t in
    set_stack (<[Z.to_nat (stack_pointer t) :=
                 StackElement 0 System_Service_ThreadExit system_map_index]> (stack t)) t).

(** ** The static initialisers, with a zeroed [Core] at address [self] *)
Definition zero_core (self physical : Z) : Core :=
  MkCore self physical 0 0 0 0 0 (replicate 16 0) (replicate 512 0) (replicate 512 0)
    (replicate 512 0) 0.

Definition initial_kstate (self physical : Z) : kstate :=
  KState (zero_core self physical) ∅ ∅ 0 top_of_kernel_working_memory
    top_of_kernel_working_memory ∅ ∅ 0 number_of_special_interfaces
    (replicate 32 Vmsa.Aarch64_VMSA_invalid) 0 0 ∅ 0.

(** The heap words a [thread_context] is carved from, before it is initialised. *)
Definition blank_thread : thread_context :=
  Thread 0 0 ListNull 0 (replicate 31 0) 0 0 0 0 0 0 0 0 0 (replicate 6 (StackElement 0 0 0)).

(** ** Lemmas on the accessors *)
Section accessors.
Implicit Types (k : kstate) (p v : Z) (t : thread_context).

Lemma get_thread_ok k p t : threads k !! p = Some t → get_thread p k = Ok t k.
Proof. intros E. unfold get_thread. by rewrite E. Qed.

Lemma get_thread_inv k p t k' : get_thread p k = Ok t k' → k' = k ∧ threads k !! p = Some t.
Proof. unfold get_thread. destruct (threads k !! p); naive_solver. Qed.

Lemma upd_thread_ok k p t f :
  threads k !! p = Some t → upd_thread p f k = Ok () (put_thread p (f t) k).
Proof. intros E. unfold upd_thread. erewrite bind_ok by by apply get_thread_ok. done. Qed.

Lemma threads_put_thread k p t : threads (put_thread p t k) = <[p := t]> (threads k).
Proof. done. Qed.

Lemma reg_set_reg_same n v t : (n < length (regs t))%nat → reg n (set_reg n v t) = v.
Proof.
  intros Hn. unfold reg, set_reg. simpl. rewrite nth_lookup, list_lookup_insert_eq by lia. done.
Qed.

Lemma reg_set_reg_other n m v t : n ≠ m → reg n (set_reg m v t) = reg n t.
Proof. intros Hn. unfold reg, set_reg. simpl. by rewrite !nth_lookup, list_lookup_insert_ne. Qed.

Lemma thread_code_from_code c : 0 < c < 2 ^ 25 → thread_code (thread_from_code c) = c.
Proof.
  intros Hc. unfold thread_from_code. rewrite bool_decide_eq_false_2 by lia.
  unfold thread_code, start_address, himem_offset.
  rewrite u64_id by (unfold is_u64; lia).
  rewrite bool_decide_eq_false_2 by lia.
  rewrite u32_id; unfold is_u32; lia.
Qed.

Lemma thread_from_code_code p :
  p = 0 ∨ start_address < p < 2 ^ 64 → thread_from_code (thread_code p) = p.
Proof.
  unfold start_address, himem_offset. intros [-> | Ht]; [done |].
  unfold thread_code, start_address, himem_offset. rewrite bool_decide_eq_false_2 by lia.
  rewrite u32_id by (unfold is_u32; lia).
  unfold thread_from_code, start_address, himem_offset. rewrite bool_decide_eq_false_2 by lia.
  rewrite u64_id; unfold is_u64; lia.
Qed.
End accessors.

#[export] Hint Resolve get_thread_ok upd_thread_ok : isambard.
