(* ===== verification/LinkedLists.v ===== *)
(** * Owned doubly linked lists

    [include/doubly_linked_lists.h], the macro [DEFINE_DOUBLE_LINKED_LIST] as
    [secure_el1.c] instantiates it for threads.  A list is a ring of threads
    linked through [next] and [prev]; the head is a variable that points at one
    of them.  The operations are modelled store by store, so that the cases in
    which pointers coincide come out as they do in the code.

    The specification side is a list of thread addresses: [ring ts l] says that
    the store [ts] links [l] into a ring, and each operation is shown to do the
    corresponding list operation and to change nothing but link fields. *)

From S2P Require Import Prelude Kernel.

Definition insert_new_thread_after_old (new old : Z) : K unit :=
  o ← get_thread old;
  _ ← upd_thread new (set_next (next o));
  _ ← upd_thread new (set_prev old);
  _ ← upd_thread old (set_next new);
  n ← get_thread new;
  _ ← upd_thread (next n) (set_prev new);
  o ← get_thread old;
  upd_thread new (set_list_of (list_of o)).

Definition insert_new_thread_before_old (new old : Z) : K unit :=
  _ ← upd_thread new (set_next old);
  o ← get_thread old;
  _ ← upd_thread new (set_prev (prev o));
  _ ← upd_thread old (set_prev new);
  n ← get_thread new;
  _ ← upd_thread (prev n) (set_next new);
  o ← get_thread old;
  upd_thread new (set_list_of (list_of o)).

Definition insert_thread_at_tail (list : list_head) (new_tail : Z) : K unit :=
  old_head ← load_list list;
  if bool_decide (old_head = 0) then
    _ ← upd_thread new_tail (set_next new_tail);
    _ ← upd_thread new_tail (set_prev new_tail);
    _ ← upd_thread new_tail (set_list_of list);
    store_list list new_tail
  else insert_new_thread_before_old new_tail old_head.

Definition insert_thread_as_head (list : list_head) (new_head : Z) : K unit :=
  _ ← insert_thread_at_tail list new_head;
  store_list list new_head.

(** [while (list != entry) { entry = entry->next; result++; }], with fuel. *)
Fixpoint count_loop (fuel : nat) (list entry result : Z) : K Z :=
  match fuel with
  | O => halt (Spin 44)
  | S fuel =>
      if bool_decide (list = entry) then mret result
      else e ← get_thread entry; count_loop fuel list (next e) (result + 1)
  end.

Definition count_thread_entries (fuel : nat) (list : Z) : K Z :=
  if bool_decide (list = 0) then mret 0
  else l ← get_thread list; count_loop fuel list (next l) 1.

(** [do { result = func( entry ); entry = entry->next; } while (list != entry && result == 0);] *)
Fixpoint foreach_loop (fuel : nat) (list entry : Z) (func : Z → K Z) : K Z :=
  match fuel with
  | O => halt (Spin 55)
  | S fuel =>
      result ← func entry;
      e ← get_thread entry;
      if bool_decide (list ≠ next e ∧ result = 0) then foreach_loop fuel list (next e) func
      else mret result
  end.

Definition foreach_thread_entry_until (fuel : nat) (list : Z) (func : Z → K Z) : K Z :=
  if bool_decide (list = 0) then mret 0 else foreach_loop fuel list list func.

Definition remove_thread (entry : Z) : K unit :=
  e ← get_thread entry;
  head ← load_list (list_of e);
  _ ← (if bool_decide (head = entry) then
         h ← get_thread head;
         if bool_decide (next h = entry) then store_list (list_of e) 0
         else store_list (list_of e) (next h)
       else mret ());
  e ← get_thread entry;
  _ ← upd_thread (prev e) (set_next (next e));
  e ← get_thread entry;
  _ ← upd_thread (next e) (set_prev (prev e));
  _ ← upd_thread entry (set_prev entry);
  upd_thread entry (set_next entry).

(** ** Rings *)
Definition next_of (ts : gmap Z thread_context) (p : Z) : option Z := next <$> ts !! p.
Definition prev_of (ts : gmap Z thread_context) (p : Z) : option Z := prev <$> ts !! p.
Definition linked (ts : gmap Z thread_context) (a b : Z) : Prop :=
  next_of ts a = Some b ∧ prev_of ts b = Some a.

Fixpoint chain (ts : gmap Z thread_context) (l : list Z) : Prop :=
  match l with
  | [] => True
  | a :: l' => (∀ b, head l' = Some b → linked ts a b) ∧ chain ts l'
  end.

Definition ring (ts : gmap Z thread_context) (l : list Z) : Prop :=
  match l with
  | [] => True
  | h :: _ => NoDup l ∧ chain ts (l ++ [h])
  end.

(** Two stores with the same threads up to the link fields. *)
Definition unlink (t : thread_context) : thread_context :=
  set_next 0 (set_prev 0 (set_list_of ListNull t)).
Definition same_but_links (ts ts' : gmap Z thread_context) : Prop :=
  ∀ p, unlink <$> ts !! p = unlink <$> ts' !! p.

#[global] Instance same_but_links_equiv : Equivalence same_but_links.
Proof.
  unfold same_but_links. split.
  - by intros ??.
  - by intros ?? H p.
  - intros ??? H1 H2 p. by rewrite H1.
Qed.

(** ** Chains *)
Section chains.
Implicit Types (ts : gmap Z thread_context) (l : list Z) (a b p : Z).

Lemma head_snoc l a b : head (l ++ [a]) = Some b → b = a ∨ b ∈ l.
Proof. destruct l; simpl; intros [= ->]; [by left | right; left]. Qed.

Lemma chain_app ts l1 a l2 :
  chain ts (l1 ++ a :: l2) ↔ chain ts (l1 ++ [a]) ∧ chain ts (a :: l2).
Proof.
  induction l1 as [|x l1 IH]; simpl.
  - naive_solver.
  - rewrite IH. simpl. destruct l1; simpl; naive_solver.
Qed.

Lemma chain_cons2 ts a b l : chain ts (a :: b :: l) ↔ linked ts a b ∧ chain ts (b :: l).
Proof. simpl. naive_solver. Qed.

(** A chain only depends on [next] of all but its last element and on [prev] of
    all but its first. *)
Lemma chain_frame ts ts' l a :
  chain ts (l ++ [a]) →
  (∀ p, p ∈ l → next_of ts' p = next_of ts p) →
  (∀ p, p ∈ tail (l ++ [a]) → prev_of ts' p = prev_of ts p) →
  chain ts' (l ++ [a]).
Proof.
  induction l as [|x l IH]; simpl; [done |]. intros [Hx Hl] Hn Hp. split.
  - intros b Hb. destruct (Hx b Hb) as [H1 H2]. split.
    + rewrite Hn by set_solver. done.
    + rewrite Hp; [done |]. apply head_snoc in Hb. set_solver.
  - apply IH; [done | set_solver |]. intros p Hin. apply Hp.
    destruct l; simpl in *; set_solver.
Qed.

Lemma ring_NoDup ts l : ring ts l → NoDup l.
Proof. destruct l; simpl; [constructor | naive_solver]. Qed.

Lemma ring_rotate ts a l : ring ts (a :: l) → ring ts (l ++ [a]).
Proof.
  destruct l as [|b l]; [done |]. simpl. intros [Hnd [Hab Hc]]. split.
  - rewrite (app_comm_cons l [a] b), NoDup_snoc. apply NoDup_cons in Hnd. tauto.
  - rewrite <- app_assoc. simpl. apply (chain_app ts (b :: l) a [b]).
    split; [done |]. rewrite chain_cons2. split; [by apply Hab | simpl; naive_solver].
Qed.

Lemma ring_rotate_n ts l1 l2 : ring ts (l1 ++ l2) → ring ts (l2 ++ l1).
Proof.
  revert l2. induction l1 as [|x l1 IH]; intros l2; simpl.
  - by rewrite app_nil_r.
  - intros H. apply ring_rotate in H. rewrite <- app_assoc in H.
    apply IH in H. by rewrite <- app_assoc in H.
Qed.

Lemma ring_linked_head ts a b l : ring ts (a :: b :: l) → linked ts a b.
Proof. simpl. intros [_ [H _]]. by apply H. Qed.

Lemma ring_single ts a : linked ts a a → ring ts [a].
Proof. intros H. simpl. split; [apply NoDup_singleton |]. naive_solver. Qed.

Lemma ring_next ts a l : ring ts (a :: l) → next_of ts a = Some (default a (head l)).
Proof.
  destruct l as [|b l]; simpl; intros [_ [H _]]; by destruct (H _ eq_refl).
Qed.

Lemma ring_prev ts a l : ring ts (a :: l) → prev_of ts a = Some (default a (last l)).
Proof.
  intros Hr. destruct (decide (l = [])) as [->|Hl].
  - simpl in Hr. destruct Hr as [_ [H _]]. by destruct (H _ eq_refl).
  - destruct (exists_last Hl) as (l' & x & ->). rewrite last_snoc. simpl.
    rewrite app_comm_cons in Hr. apply ring_rotate_n in Hr. simpl in Hr.
    destruct Hr as [_ [H _]]. by destruct (H _ eq_refl).
Qed.

(** Membership and existence. *)
Lemma ring_lookup ts l p : ring ts l → p ∈ l → ∃ t, ts !! p = Some t.
Proof.
  intros Hr Hp. apply list_elem_of_split in Hp as (l1 & l2 & ->).
  apply ring_rotate_n in Hr. simpl in Hr. apply ring_next in Hr.
  unfold next_of in Hr. destruct (ts !! p) eqn:E; [eauto | done].
Qed.
End chains.

(** ** Link updates on the store *)
Section updates.
Implicit Types (ts : gmap Z thread_context) (k : kstate) (p q v : Z).

Lemma upd_thread_alter k p f :
  is_Some (threads k !! p) →
  upd_thread p f k = Ok () (set_threads (alter f p (threads k)) k).
Proof.
  intros [t Ht]. rewrite (upd_thread_ok _ _ _ _ Ht). f_equal. unfold put_thread. f_equal.
  apply map_eq. intros i. rewrite lookup_insert, lookup_alter.
  by case_decide; simplify_eq; rewrite ?Ht.
Qed.

Lemma next_of_set_next ts p v q :
  next_of (alter (set_next v) p ts) q =
    if decide (p = q) then const v <$> ts !! q else next_of ts q.
Proof. unfold next_of. rewrite lookup_alter. by case_decide; subst; destruct (ts !! _). Qed.

Lemma next_of_set_prev ts p v q : next_of (alter (set_prev v) p ts) q = next_of ts q.
Proof. unfold next_of. rewrite lookup_alter. by case_decide; subst; destruct (ts !! _). Qed.

Lemma next_of_set_list ts p (h : list_head) q : next_of (alter (set_list_of h) p ts) q = next_of ts q.
Proof. unfold next_of. rewrite lookup_alter. by case_decide; subst; destruct (ts !! _). Qed.

Lemma prev_of_set_prev ts p v q :
  prev_of (alter (set_prev v) p ts) q =
    if decide (p = q) then const v <$> ts !! q else prev_of ts q.
Proof. unfold prev_of. rewrite lookup_alter. by case_decide; subst; destruct (ts !! _). Qed.

Lemma prev_of_set_next ts p v q : prev_of (alter (set_next v) p ts) q = prev_of ts q.
Proof. unfold prev_of. rewrite lookup_alter. by case_decide; subst; destruct (ts !! _). Qed.

Lemma prev_of_set_list ts p (h : list_head) q : prev_of (alter (set_list_of h) p ts) q = prev_of ts q.
Proof. unfold prev_of. rewrite lookup_alter. by case_decide; subst; destruct (ts !! _). Qed.

Lemma is_Some_alter ts p q (f : thread_context → thread_context) :
  is_Some (ts !! q) → is_Some (alter f p ts !! q).
Proof. intros [t Ht]. rewrite lookup_alter. case_decide; subst; rewrite Ht; by eexists. Qed.

Lemma same_but_links_alter ts p f :
  (∀ t, unlink (f t) = unlink t) → same_but_links ts (alter f p ts).
Proof.
  intros Hf q. rewrite lookup_alter. case_decide; [subst | done].
  destruct (ts !! _); simpl; [by rewrite Hf | done].
Qed.

Lemma const_fmap_is_Some ts p v : is_Some (ts !! p) → const v <$> ts !! p = Some v.
Proof. by intros [t ->]. Qed.
End updates.

Create Rewrite HintDb links.
#[export] Hint Rewrite next_of_set_next next_of_set_prev next_of_set_list prev_of_set_prev
  prev_of_set_next prev_of_set_list : links.
#[export] Hint Resolve is_Some_alter : isambard.

(** Rewrite the links of an altered store, splitting on the aliasing. *)
Ltac simp_links :=
  repeat (autorewrite with links || (rewrite decide_True by done) ||
          (rewrite decide_False by done) ||
          (rewrite const_fmap_is_Some by auto 8 with isambard)).

Ltac step_upd := erewrite bind_ok by (apply upd_thread_alter; simpl; auto 8 with isambard).

(** Reading a thread of which [next] or [prev] is known. *)
Lemma get_thread_next k p v :
  next_of (threads k) p = Some v → ∃ t, threads k !! p = Some t ∧ get_thread p k = Ok t k ∧ next t = v.
Proof.
  unfold next_of. intros H. destruct (threads k !! p) as [t|] eqn:E; [|done].
  exists t. split_and!; [done | by apply get_thread_ok | by injection H].
Qed.

Lemma get_thread_prev k p v :
  prev_of (threads k) p = Some v → ∃ t, threads k !! p = Some t ∧ get_thread p k = Ok t k ∧ prev t = v.
Proof.
  unfold prev_of. intros H. destruct (threads k !! p) as [t|] eqn:E; [|done].
  exists t. split_and!; [done | by apply get_thread_ok | by injection H].
Qed.

Lemma next_of_is_Some ts p v : next_of ts p = Some v → is_Some (ts !! p).
Proof. unfold next_of. destruct (ts !! p); [by eexists | done]. Qed.
Lemma prev_of_is_Some ts p v : prev_of ts p = Some v → is_Some (ts !! p).
Proof. unfold prev_of. destruct (ts !! p); [by eexists | done]. Qed.
#[export] Hint Resolve next_of_is_Some prev_of_is_Some : isambard.

(** The stores of the two insertions. *)
Definition after_insert (ts : gmap Z thread_context) (new a b : Z) (l : list_head) :
    gmap Z thread_context :=
  alter (set_list_of l) new (alter (set_prev new) b (alter (set_next new) a
    (alter (set_prev a) new (alter (set_next b) new ts)))).

Lemma insert_after_store k new old on :
  new ≠ old → is_Some (threads k !! new) → is_Some (threads k !! on) →
  next_of (threads k) old = Some on →
  ∃ l, insert_new_thread_after_old new old k =
         Ok () (set_threads (after_insert (threads k) new old on l) k).
Proof.
  intros Hne Hnew Hon Hold. unfold insert_new_thread_after_old.
  destruct (get_thread_next _ _ _ Hold) as (o & Ho & Eo & <-).
  rewrite (bind_ok _ _ _ _ _ Eo). do 3 step_upd. simpl.
  edestruct (get_thread_next (set_threads (alter (set_next new) old (alter (set_prev old) new
    (alter (set_next (next o)) new (threads k)))) k) new (next o)) as (n & _ & En & Hn).
  { simpl. simp_links. done. }
  erewrite bind_ok by exact En. rewrite Hn. step_upd. simpl.
  edestruct (is_Some_alter (alter (set_next new) old (alter (set_prev old) new
    (alter (set_next (next o)) new (threads k)))) (next o) old (set_prev new)) as [o' Ho'].
  { auto 8 with isambard. }
  erewrite bind_ok by by apply get_thread_ok.
  exists (list_of o'). rewrite upd_thread_alter; [done | simpl; auto 8 with isambard].
Qed.

Lemma alter_next_prev_comm (ts : gmap Z thread_context) p q v w :
  alter (set_next v) p (alter (set_prev w) q ts) = alter (set_prev w) q (alter (set_next v) p ts).
Proof.
  apply map_eq. intros i. rewrite !lookup_alter.
  repeat case_decide; subst; rewrite ?lookup_alter, ?decide_True, ?decide_False by done;
    by destruct (ts !! _).
Qed.

Lemma insert_before_store k new old op :
  new ≠ old → is_Some (threads k !! new) → is_Some (threads k !! op) →
  prev_of (threads k) old = Some op →
  ∃ l, insert_new_thread_before_old new old k =
         Ok () (set_threads (after_insert (threads k) new op old l) k).
Proof.
  intros Hne Hnew Hop Hold. unfold insert_new_thread_before_old. step_upd.
  edestruct (get_thread_prev (set_threads (alter (set_next old) new (threads k)) k) old op)
    as (o & Ho & Eo & <-).
  { simpl. by simp_links. }
  rewrite (bind_ok _ _ _ _ _ Eo). do 2 step_upd. simpl.
  edestruct (get_thread_prev (set_threads (alter (set_prev new) old (alter (set_prev (prev o)) new
    (alter (set_next old) new (threads k)))) k) new (prev o)) as (n & _ & En & Hn).
  { simpl. by simp_links. }
  erewrite bind_ok by exact En. rewrite Hn. step_upd. simpl.
  edestruct (is_Some_alter (alter (set_prev new) old (alter (set_prev (prev o)) new
    (alter (set_next old) new (threads k)))) (prev o) old (set_next new)) as [o' Ho'].
  { auto 8 with isambard. }
  erewrite bind_ok by by apply get_thread_ok.
  exists (list_of o'). rewrite upd_thread_alter by (simpl; auto 8 with isambard).
  simpl. unfold after_insert. by rewrite alter_next_prev_comm.
Qed.

Section insertion.
Context (ts : gmap Z thread_context) (new a : Z) (l : list Z) (h : list_head).
Context (Hring : ring ts (a :: l)) (Hnew : new ∉ a :: l) (Hsome : is_Some (ts !! new)).
#[local] Definition ins_next := default a (head l).
#[local] Definition ins_store := after_insert ts new a ins_next h.

Lemma insertion_exists : is_Some (ts !! a) ∧ is_Some (ts !! ins_next) ∧ ins_next ≠ new ∧ a ≠ new.
Proof using Hring Hnew Hsome.
  assert (ins_next ∈ a :: l) as Hb by (unfold ins_next; destruct l; simpl; set_solver).
  split_and!; [by eapply ring_lookup; [|left] | by eapply ring_lookup | |]; set_solver.
Qed.

Lemma insertion_next p :
  next_of ins_store p = if decide (p = a) then Some new else if decide (p = new) then Some ins_next
                  else next_of ts p.
Proof using Hring Hnew Hsome.
  destruct insertion_exists as (? & ? & ? & ?). unfold ins_store, after_insert. simp_links.
  repeat case_decide; subst; try done; rewrite const_fmap_is_Some; auto with isambard.
Qed.

Lemma insertion_prev p :
  prev_of ins_store p = if decide (p = ins_next) then Some new else if decide (p = new) then Some a
                  else prev_of ts p.
Proof using Hring Hnew Hsome.
  destruct insertion_exists as (? & ? & ? & ?). unfold ins_store, after_insert. simp_links.
  repeat case_decide; subst; try done; rewrite const_fmap_is_Some; auto with isambard.
Qed.

Lemma ring_after_insert : ring ins_store (a :: new :: l).
Proof using Hring Hnew Hsome.
  destruct insertion_exists as (_ & _ & Hbn & Han).
  pose proof Hring as [Hnd [_ Hc]]. simpl. split.
  { apply NoDup_cons in Hnd. rewrite !NoDup_cons. set_solver. }
  assert (head (l ++ [a]) = Some ins_next) as Hb by (unfold ins_next; by destruct l).
  split; [|split].
  - intros ? [= <-]. split; rewrite ?insertion_next, ?insertion_prev, ?decide_True by done; [done|].
    by rewrite decide_False, decide_True by done.
  - intros b' Hb'. assert (b' = ins_next) as -> by congruence.
    split; rewrite ?insertion_next, ?insertion_prev, ?decide_True by done; [|done].
    by rewrite decide_False, decide_True by done.
  - apply (chain_frame ts); [done | |].
    + intros p Hp. apply NoDup_cons in Hnd as [Hal _].
      rewrite insertion_next, !decide_False by set_solver. done.
    + intros p Hp. rewrite insertion_prev.
      rewrite !decide_False; [done | |].
      * intros ->. unfold ins_next in *. destruct l; simpl in *; set_solver.
      * intros ->. unfold ins_next in *. destruct l; simpl in *; [set_solver |].
        apply NoDup_cons in Hnd as [Hal Hnd]. apply NoDup_cons in Hnd as [? _]. set_solver.
Qed.

Lemma insertion_same_but_links : same_but_links ts ins_store.
Proof.
  unfold ins_store, after_insert. repeat (etransitivity; [|by apply same_but_links_alter]). done.
Qed.

(** Threads outside the list keep their links. *)
Lemma insertion_outside p : p ∉ a :: new :: l → next_of ins_store p = next_of ts p ∧ prev_of ins_store p = prev_of ts p.
Proof using Hring Hnew Hsome.
  intros Hp. assert (p ≠ ins_next) by (unfold ins_next; destruct l; simpl; set_solver).
  rewrite insertion_next, insertion_prev, !decide_False by set_solver. done.
Qed.
End insertion.

(** ** The operations on the kernel state

    [relinks l k k']: [k'] is [k] with the links of the threads [l] changed and
    nothing else. *)
Definition relinks (l : list Z) (k k' : kstate) : Prop :=
  k' = set_threads (threads k') k ∧ same_but_links (threads k) (threads k') ∧
  ∀ p, p ∉ l → next_of (threads k') p = next_of (threads k) p ∧
               prev_of (threads k') p = prev_of (threads k) p.

Lemma set_threads_relinks l k ts :
  same_but_links (threads k) ts →
  (∀ p, p ∉ l → next_of ts p = next_of (threads k) p ∧ prev_of ts p = prev_of (threads k) p) →
  relinks l k (set_threads ts k).
Proof. intros H1 H2. split_and!; [done | done | exact H2]. Qed.

Lemma relinks_lookup l k k' p t :
  relinks l k k' → threads k !! p = Some t →
  ∃ t', threads k' !! p = Some t' ∧ unlink t' = unlink t.
Proof.
  intros (_ & Hs & _) Ht. specialize (Hs p). rewrite Ht in Hs.
  destruct (threads k' !! p) as [t'|]; [|done]. exists t'. simpl in Hs. split; [done | congruence].
Qed.

Lemma insert_new_thread_after_old_ring k new old l :
  ring (threads k) (old :: l) → new ∉ old :: l → is_Some (threads k !! new) →
  ∃ k', insert_new_thread_after_old new old k = Ok () k' ∧
        ring (threads k') (old :: new :: l) ∧ relinks (old :: new :: l) k k'.
Proof.
  intros Hr Hn Hs. pose proof (insertion_exists (threads k) new old l Hr Hn Hs) as (? & ? & ? & ?).
  destruct (insert_after_store k new old (default old (head l))) as [h Eh];
    [done | done | done | by apply ring_next |].
  eexists. split; [exact Eh |]. split; [by apply ring_after_insert |].
  apply set_threads_relinks; [apply insertion_same_but_links |].
  intros p Hp. by apply insertion_outside.
Qed.

Lemma insert_new_thread_before_old_ring k new old l :
  ring (threads k) (old :: l) → new ∉ old :: l → is_Some (threads k !! new) →
  ∃ k', insert_new_thread_before_old new old k = Ok () k' ∧
        ring (threads k') (old :: l ++ [new]) ∧ relinks (old :: l ++ [new]) k k'.
Proof.
  intros Hr Hn Hs.
  (* Rotate the ring so that the element before [old] comes first. *)
  assert (∃ op l', old :: l = l' ++ [op] ∧ op = default old (last l)) as (op & l' & El & Hop).
  { destruct (decide (l = [])) as [->|Hl]; [by exists old, [] |].
    destruct (exists_last Hl) as (l' & x & ->). exists x, (old :: l').
    split; [done |]. by rewrite last_snoc. }
  assert (ring (threads k) (op :: l')) as Hr' by (rewrite El in Hr; by apply ring_rotate_n in Hr).
  assert (new ∉ op :: l') as Hn' by (rewrite El in Hn; set_solver).
  assert (default op (head l') = old) as Hh by (destruct l'; simpl in *; congruence).
  pose proof (insertion_exists (threads k) new op l' Hr' Hn' Hs) as (? & ? & ? & ?).
  destruct (insert_before_store k new old op) as [h Eh];
    [set_solver | done | done | by rewrite Hop; apply ring_prev |].
  eexists. split; [exact Eh |]. rewrite app_comm_cons, El, <- app_assoc.
  pose proof (ring_after_insert (threads k) new op l' h Hr' Hn' Hs) as Hring.
  unfold ins_store, ins_next in Hring. rewrite Hh in Hring. split.
  - apply (ring_rotate_n _ [op; new] l'). done.
  - apply set_threads_relinks.
    + rewrite <- Hh. apply insertion_same_but_links.
    + intros p Hp. rewrite <- Hh. apply (insertion_outside _ _ _ _ _ Hr' Hn' Hs). set_solver.
Qed.

Lemma load_list_inv h k v k' : load_list h k = Ok v k' → k' = k.
Proof. destruct h; unfold load_list, get_user_word; run; repeat case_match; naive_solver. Qed.

(** ** Removal *)
Definition after_remove (ts : gmap Z thread_context) (p pr nx : Z) : gmap Z thread_context :=
  alter (set_next p) p (alter (set_prev p) p (alter (set_prev pr) nx (alter (set_next nx) pr ts))).

Section removal.
Context (ts : gmap Z thread_context) (p : Z) (l : list Z).
Context (Hring : ring ts (p :: l)).
#[local] Definition rem_prev := default p (last l).
#[local] Definition rem_next := default p (head l).
#[local] Definition rem_store := after_remove ts p rem_prev rem_next.

Lemma removal_exists : is_Some (ts !! p) ∧ is_Some (ts !! rem_prev) ∧ is_Some (ts !! rem_next).
Proof using Hring.
  assert (rem_prev ∈ p :: l).
  { unfold rem_prev. destruct (last l) eqn:E; [|set_solver]. apply last_Some_elem_of in E. set_solver. }
  assert (rem_next ∈ p :: l) by (unfold rem_next; destruct l; simpl; set_solver).
  split_and!; eapply ring_lookup; set_solver.
Qed.

Lemma removal_next q :
  next_of rem_store q = if decide (q = p) then Some p else if decide (q = rem_prev) then Some rem_next
                        else next_of ts q.
Proof using Hring.
  destruct removal_exists as (? & ? & ?). unfold rem_store, after_remove. simp_links.
  repeat case_decide; subst; try done; rewrite const_fmap_is_Some; auto with isambard.
Qed.

Lemma removal_prev q :
  prev_of rem_store q = if decide (q = p) then Some p else if decide (q = rem_next) then Some rem_prev
                        else prev_of ts q.
Proof using Hring.
  destruct removal_exists as (? & ? & ?). unfold rem_store, after_remove. simp_links.
  repeat case_decide; subst; try done; rewrite const_fmap_is_Some; auto with isambard.
Qed.

Lemma ring_removed : ring rem_store [p].
Proof using Hring.
  apply ring_single. split; [rewrite removal_next | rewrite removal_prev]; by rewrite decide_True.
Qed.

Lemma ring_after_remove : ring rem_store l.
Proof using Hring.
  destruct (decide (l = [])) as [Hl|Hl]; [by rewrite Hl |].
  destruct (exists_last Hl) as (l' & x & El).
  assert (rem_prev = x) as Hx by (unfold rem_prev; rewrite El, last_snoc; done).
  pose proof Hring as [Hnd Hc]. apply NoDup_cons in Hnd as [Hpl Hnd].
  assert (x ≠ p) by (intros ->; rewrite El in Hpl; set_solver).
  assert (∃ y l2, l = y :: l2) as (y & l2 & Ey) by (destruct l; [done | eauto]).
  rewrite Ey. split; [by rewrite <- Ey |]. rewrite <- Ey.
  assert (rem_next = y) as Hy by (unfold rem_next; by rewrite Ey).
  (* the old ring is p :: y :: l2 ++ [p]; the chain y :: l2 = l' ++ [x] survives *)
  rewrite El, <- app_assoc. simpl. apply (chain_app _ l' x [y]). split.
  - apply (chain_frame ts).
    + assert (chain ts ((l' ++ [x]) ++ [p])) as Hc' by (rewrite <- El; simpl in Hc |- *; tauto).
      rewrite <- app_assoc in Hc'. apply (chain_app ts l' x [p]) in Hc' as [? _]. done.
    + intros q Hq. rewrite removal_next, !decide_False; [done | |].
      * rewrite Hx. intros ->. rewrite El in Hnd. apply NoDup_snoc in Hnd. tauto.
      * intros ->. rewrite El in Hpl. set_solver.
    + intros q Hq. rewrite <- El, Ey in Hq. simpl in Hq.
      rewrite removal_prev, !decide_False; [done | |].
      * rewrite Hy. intros ->. rewrite Ey in Hnd. apply NoDup_cons in Hnd. tauto.
      * intros ->. rewrite Ey in Hpl. apply Hpl. by right.
  - rewrite chain_cons2. split; [|simpl; naive_solver]. split.
    + rewrite removal_next, decide_False, decide_True by done. by rewrite Hy.
    + rewrite removal_prev, decide_False, decide_True; [by rewrite Hx | done |].
      intros ->. apply Hpl. rewrite Ey. by left.
Qed.

Lemma removal_same_but_links : same_but_links ts rem_store.
Proof.
  unfold rem_store, after_remove. repeat (etransitivity; [|by apply same_but_links_alter]). done.
Qed.

Lemma removal_outside q : q ∉ p :: l → next_of rem_store q = next_of ts q ∧ prev_of rem_store q = prev_of ts q.
Proof using Hring.
  intros Hq.
  assert (q ≠ rem_next) by (unfold rem_next; destruct l; simpl; set_solver).
  assert (q ≠ rem_prev).
  { unfold rem_prev. destruct (last l) eqn:E; [apply last_Some_elem_of in E; set_solver | set_solver]. }
  rewrite removal_next, removal_prev, !decide_False by set_solver. done.
Qed.
End removal.

(** The four link stores at the end of [remove_thread]. *)
Lemma remove_links k p l :
  ring (threads k) (p :: l) →
  (e ← get_thread p;
   _ ← upd_thread (prev e) (set_next (next e));
   e ← get_thread p;
   _ ← upd_thread (next e) (set_prev (prev e));
   _ ← upd_thread p (set_prev p);
   upd_thread p (set_next p)) k =
  Ok () (set_threads (rem_store (threads k) p l) k).
Proof.
  intros Hr. destruct (removal_exists _ _ _ Hr) as (Hp & Hpr & Hnx).
  pose proof (ring_next _ _ _ Hr) as Hn. pose proof (ring_prev _ _ _ Hr) as Hv.
  destruct Hp as [e He]. unfold next_of, prev_of in Hn, Hv. rewrite He in Hn, Hv.
  injection Hn as Hn. injection Hv as Hv.
  erewrite bind_ok by by apply get_thread_ok.
  rewrite Hn, Hv. step_upd. simpl.
  change (default p (last l)) with (rem_prev p l). change (default p (head l)) with (rem_next p l).
  set (e' := if decide (rem_prev p l = p) then set_next (rem_next p l) e else e).
  assert (alter (set_next (rem_next p l)) (rem_prev p l) (threads k) !! p = Some e') as He'.
  { rewrite lookup_alter. unfold e'. case_decide as Hd; [rewrite Hd, He | rewrite He]; done. }
  erewrite bind_ok by by apply get_thread_ok.
  assert (next e' = rem_next p l ∧ prev e' = rem_prev p l) as [-> ->].
  { unfold e'. case_decide; done. }
  do 2 step_upd. by rewrite upd_thread_alter by (simpl; auto 8 with isambard).
Qed.

(** What [*entry->list] becomes when the entry was the head. *)
Definition new_head (p : Z) (l : list Z) : Z := if decide (l = []) then 0 else default p (head l).

Definition with_head (h : list_head) (v : Z) (k : kstate) : kstate :=
  match h with
  | ListNull => k
  | CoreRunnable => set_core (set_runnable v (core k)) k
  | StaticBlocked => set_blocked v k
  end.

Lemma store_list_ok h v k : h ≠ ListNull → store_list h v k = Ok () (with_head h v k).
Proof. by destruct h. Qed.

Lemma with_head_threads h v k : threads (with_head h v k) = threads k.
Proof. by destruct h. Qed.

(** [remove_thread] when the head of the thread's list is another thread. *)
Lemma remove_thread_not_head k p l t h :
  ring (threads k) (p :: l) → threads k !! p = Some t →
  load_list (list_of t) k = Ok h k → h ≠ p →
  ∃ k', remove_thread p k = Ok () k' ∧ relinks (p :: l) k k' ∧
        ring (threads k') l ∧ ring (threads k') [p].
Proof.
  intros Hr Ht Hh Hne. eexists. split.
  - unfold remove_thread. erewrite bind_ok by by apply get_thread_ok.
    erewrite bind_ok by exact Hh. rewrite bool_decide_eq_false_2 by done.
    erewrite bind_ok by done. by apply remove_links.
  - split_and!.
    + apply set_threads_relinks; [apply removal_same_but_links |].
      intros q Hq. by apply removal_outside.
    + by apply ring_after_remove.
    + by apply ring_removed.
Qed.

(** [remove_thread] of the head moves the head to the next thread, or empties the
    list. *)
Lemma remove_thread_head k p l t :
  ring (threads k) (p :: l) → threads k !! p = Some t → list_of t ≠ ListNull →
  load_list (list_of t) k = Ok p k →
  ∃ k', remove_thread p k = Ok () k' ∧
        relinks (p :: l) (with_head (list_of t) (new_head p l) k) k' ∧
        ring (threads k') l ∧ ring (threads k') [p].
Proof.
  intros Hr Ht Hnull Hh. eexists. split.
  - unfold remove_thread. erewrite bind_ok by by apply get_thread_ok.
    erewrite bind_ok by exact Hh. rewrite bool_decide_eq_true_2 by done.
    erewrite (bind_ok (_ ≫= _)); [apply (remove_links (with_head (list_of t) (new_head p l) k) p l);
      by rewrite with_head_threads |].
    erewrite bind_ok by by apply get_thread_ok.
    pose proof (ring_next _ _ _ Hr) as Hn. unfold next_of in Hn. rewrite Ht in Hn.
    injection Hn as Hn. rewrite Hn. unfold new_head. pose proof Hr as [Hnd _].
    destruct l as [|x l]; simpl.
    + rewrite bool_decide_eq_true_2 by done. by apply store_list_ok.
    + rewrite bool_decide_eq_false_2; [by apply store_list_ok |].
      intros ->. apply NoDup_cons in Hnd. set_solver.
  - rewrite with_head_threads. split_and!.
    + apply set_threads_relinks; rewrite with_head_threads; [apply removal_same_but_links |].
      intros q Hq. by apply removal_outside.
    + by apply ring_after_remove.
    + by apply ring_removed.
Qed.

Lemma load_list_set_threads h k v ts :
  load_list h k = Ok v k → load_list h (set_threads ts k) = Ok v (set_threads ts k).
Proof.
  destruct h; unfold load_list, get_user_word; run.
  - destruct (user_memory k !! _); naive_solver.
  - by injection 1 as ->.
  - by injection 1 as ->.
Qed.

(** ** Head, tail and counting *)
Lemma insert_thread_at_tail_nonempty k h new old l :
  load_list h k = Ok old k → old ≠ 0 →
  ring (threads k) (old :: l) → new ∉ old :: l → is_Some (threads k !! new) →
  ∃ k', insert_thread_at_tail h new k = Ok () k' ∧
        ring (threads k') (old :: l ++ [new]) ∧ relinks (old :: l ++ [new]) k k'.
Proof.
  intros Hh H0 Hr Hn Hs. unfold insert_thread_at_tail. erewrite bind_ok by exact Hh.
  rewrite bool_decide_eq_false_2 by done. by apply insert_new_thread_before_old_ring.
Qed.

Definition singleton_store (ts : gmap Z thread_context) (p : Z) (h : list_head) :
    gmap Z thread_context :=
  alter (set_list_of h) p (alter (set_prev p) p (alter (set_next p) p ts)).

Lemma insert_thread_at_tail_empty k h new :
  load_list h k = Ok 0 k → h ≠ ListNull → is_Some (threads k !! new) →
  ∃ k', insert_thread_at_tail h new k = Ok () k' ∧
        ring (threads k') [new] ∧ relinks [new] (with_head h new k) k'.
Proof.
  intros Hh Hnull Hs. exists (with_head h new (set_threads (singleton_store (threads k) new h) k)).
  split; [|split].
  - unfold insert_thread_at_tail. erewrite bind_ok by exact Hh.
    rewrite bool_decide_eq_true_2 by done. do 3 step_upd. by rewrite store_list_ok.
  - rewrite with_head_threads. simpl. apply ring_single.
    unfold linked, singleton_store. simp_links. done.
  - assert (with_head h new (set_threads (singleton_store (threads k) new h) k)
            = set_threads (singleton_store (threads k) new h) (with_head h new k)) as ->
      by by destruct h.
    apply set_threads_relinks; rewrite with_head_threads.
    + unfold singleton_store. repeat (etransitivity; [|by apply same_but_links_alter]). done.
    + intros p Hp. unfold singleton_store. simp_links.
      rewrite !decide_False by set_solver. done.
Qed.

(** [insert_thread_as_head] puts the thread before the old head, which is the
    same place in the ring as the tail, and moves the head there. *)
Lemma insert_thread_as_head_nonempty k h new old l :
  load_list h k = Ok old k → old ≠ 0 → h ≠ ListNull →
  ring (threads k) (old :: l) → new ∉ old :: l → is_Some (threads k !! new) →
  ∃ k', insert_thread_as_head h new k = Ok () k' ∧
        ring (threads k') (new :: old :: l) ∧
        relinks (new :: old :: l) (with_head h new k) k'.
Proof.
  intros Hh H0 Hnull Hr Hn Hs.
  destruct (insert_thread_at_tail_nonempty k h new old l) as (k1 & E1 & Hr1 & Hk1 & Hs1 & Ho1);
    try done.
  exists (with_head h new k1). unfold insert_thread_as_head.
  erewrite bind_ok by exact E1. split; [by apply store_list_ok |]. split.
  - rewrite with_head_threads. by apply (ring_rotate_n _ (old :: l) [new]).
  - rewrite Hk1. assert (with_head h new (set_threads (threads k1) k) =
      set_threads (threads k1) (with_head h new k)) as -> by by destruct h.
    apply set_threads_relinks; rewrite with_head_threads; [done |].
    intros p Hp. apply Ho1. set_solver.
Qed.

(** Walking round the ring: [n] counts the elements already passed. *)
Lemma count_loop_ring k fuel h l1 e l2 n :
  chain (threads k) (l1 ++ e :: l2 ++ [h]) → h ∉ e :: l2 →
  (length l2 + 1 < fuel)%nat →
  count_loop fuel h e n k = Ok (n + Z.of_nat (length l2) + 1) k.
Proof.
  revert l1 e n fuel. induction l2 as [|x l2 IH]; intros l1 e n fuel Hc Hh Hf;
    (destruct fuel as [|fuel]; [simpl in Hf; lia |]); simpl;
    rewrite bool_decide_eq_false_2 by set_solver;
    apply chain_app in Hc as [_ Hc]; simpl in Hc; destruct Hc as [He Hc];
    destruct (He _ eq_refl) as [Hn _];
    destruct (get_thread_next _ _ _ Hn) as (t & _ & Et & Hnext);
    rewrite (bind_ok _ _ _ _ _ Et), Hnext.
  - destruct fuel as [|fuel]; [simpl in Hf; lia |]. simpl.
    rewrite bool_decide_eq_true_2 by done. simpl. by rewrite Z.add_0_r.
  - rewrite (IH [] x); [f_equal; simpl; lia | done | set_solver | simpl in Hf; lia].
Qed.

Lemma count_thread_entries_ring k fuel h l :
  ring (threads k) (h :: l) → h ≠ 0 → (length l + 1 < fuel)%nat →
  count_thread_entries fuel h k = Ok (Z.of_nat (length (h :: l))) k.
Proof.
  intros Hr H0 Hf. unfold count_thread_entries. rewrite bool_decide_eq_false_2 by done.
  pose proof (ring_next _ _ _ Hr) as Hn.
  destruct (get_thread_next _ _ _ Hn) as (t & _ & Et & Hnext).
  rewrite (bind_ok _ _ _ _ _ Et), Hnext. pose proof Hr as [Hnd Hc].
  apply NoDup_cons in Hnd as [Hh _]. destruct l as [|x l]; simpl in Hf |- *.
  - destruct fuel; [lia |]. simpl. by rewrite bool_decide_eq_true_2.
  - rewrite (count_loop_ring k fuel h [h] x l 1); [f_equal; lia | done | done | lia].
Qed.

(** Decide a concrete ring. *)
Ltac solve_ring :=
  split; [apply (bool_decide_unpack _); by vm_compute |
          repeat (split; [let b := fresh in let H := fresh in
                          intros b H; injection H as <-; split; by vm_compute |]); try done].

(** A small system: three runnable threads and one that is not in a list. *)
Definition sample_thread (n p : Z) : thread_context :=
  set_next n (set_prev p blank_thread).
Definition sample_store : gmap Z thread_context :=
  <[1000 := sample_thread 2000 3000]> (<[2000 := sample_thread 3000 1000]>
    (<[3000 := sample_thread 1000 2000]> (<[4000 := sample_thread 4000 4000]> ∅))).
Definition sample_state : kstate :=
  set_core (set_runnable 1000 (zero_core 0 0))
    (set_threads sample_store (set_user_memory (<[(0, 0) := 0x1234]> ∅) (initial_kstate 0 0))).

Lemma sample_ring : ring sample_store [1000; 2000; 3000].
Proof. solve_ring. Qed.

(** ** Properties *)

(** [insert_thread_at_tail] appends: a list [old :: l] becomes
    [old :: l ++ [new]], the head stays, an empty list becomes the one thread, and
    no thread changes otherwise. *)
Theorem insert_thread_at_tail_appends k h new l :
  is_Some (threads k !! new) → new ∉ l → h ≠ ListNull →
  load_list h k = Ok (default 0 (head l)) k → 0 ∉ l → ring (threads k) l →
  ∃ k', insert_thread_at_tail h new k = Ok () k' ∧ ring (threads k') (l ++ [new]) ∧
        load_list h k' = Ok (default new (head l)) k' ∧ same_but_links (threads k) (threads k').
Proof.
  intros Hs Hn Hnull Hh H0 Hr. destruct l as [|old l]; simpl in *.
  - destruct (insert_thread_at_tail_empty k h new) as (k' & E & Hr' & Hk & Hsb & _); try done.
    exists k'. rewrite with_head_threads in Hsb. split; [done |]. split; [done |]. split; [|done].
    rewrite Hk. by destruct h.
  - assert (old ≠ 0) as Hold by set_solver.
    destruct (insert_thread_at_tail_nonempty k h new old l Hh Hold Hr Hn Hs)
      as (k' & E & Hr' & Hk & Hsb & _).
    exists k'. split; [done |]. split; [done |]. split; [|done]. rewrite Hk.
    by apply load_list_set_threads.
Qed.

Lemma insert_thread_at_tail_appends_witness :
  ∃ k', insert_thread_at_tail CoreRunnable 4000 sample_state = Ok () k' ∧
    ring (threads k') ([1000; 2000; 3000] ++ [4000]) ∧
    load_list CoreRunnable k' = Ok 1000 k' ∧ same_but_links sample_store (threads k').
Proof.
  apply (insert_thread_at_tail_appends sample_state CoreRunnable 4000 [1000; 2000; 3000]);
    [by eexists | set_solver | done | done | set_solver | exact sample_ring].
Defined.

(** [insert_thread_as_head] makes the new thread the head and keeps the order
    of the others behind it. *)
Theorem insert_thread_as_head_prepends k h new old l :
  is_Some (threads k !! new) → new ∉ old :: l → h ≠ ListNull → old ≠ 0 →
  load_list h k = Ok old k → ring (threads k) (old :: l) →
  ∃ k', insert_thread_as_head h new k = Ok () k' ∧ ring (threads k') (new :: old :: l) ∧
        load_list h k' = Ok new k' ∧ same_but_links (threads k) (threads k').
Proof.
  intros Hs Hn Hnull H0 Hh Hr.
  destruct (insert_thread_as_head_nonempty k h new old l) as (k' & E & Hr' & Hk & Hsb & _); try done.
  exists k'. rewrite with_head_threads in Hsb. split; [done |]. split; [done |].
  split; [|done]. rewrite Hk. by destruct h.
Qed.

Lemma insert_thread_as_head_prepends_witness :
  ∃ k', insert_thread_as_head CoreRunnable 4000 sample_state = Ok () k' ∧
    ring (threads k') [4000; 1000; 2000; 3000] ∧
    load_list CoreRunnable k' = Ok 4000 k' ∧ same_but_links sample_store (threads k').
Proof.
  apply (insert_thread_as_head_prepends sample_state CoreRunnable 4000 1000 [2000; 3000]);
    [by eexists | set_solver | done | done | done | exact sample_ring].
Defined.

(** [remove_thread] takes a thread out of the ring wherever it is: the others
    stay linked in their order, the thread is left linked to itself, and when it was
    the head its list's head moves to the thread after it (or becomes 0). *)
Theorem remove_thread_removes k p t l1 l2 h :
  ring (threads k) (l1 ++ p :: l2) → threads k !! p = Some t →
  load_list (list_of t) k = Ok h k → (h = p → list_of t ≠ ListNull) →
  ∃ k', remove_thread p k = Ok () k' ∧ ring (threads k') (l2 ++ l1) ∧ ring (threads k') [p] ∧
        same_but_links (threads k) (threads k') ∧
        (list_of t ≠ ListNull → load_list (list_of t) k' =
           Ok (if decide (h = p) then new_head p (l2 ++ l1) else h) k').
Proof.
  intros Hr Ht Hh Hnull. apply ring_rotate_n in Hr. rewrite <- app_comm_cons in Hr.
  destruct (decide (h = p)) as [->|Hne].
  - destruct (remove_thread_head k p (l2 ++ l1) t) as (k' & E & (Hk & Hsb & _) & R1 & R2); auto.
    exists k'. rewrite with_head_threads in Hsb. do 4 (split; [done |]).
    intros Hn. rewrite Hk. by destruct (list_of t).
  - destruct (remove_thread_not_head k p (l2 ++ l1) t h) as (k' & E & (Hk & Hsb & _) & R1 & R2); auto.
    exists k'. do 4 (split; [done |]). intros Hn. rewrite Hk.
    by apply load_list_set_threads.
Qed.

Lemma remove_thread_removes_witness :
  ∃ k', remove_thread 2000 sample_state = Ok () k' ∧ ring (threads k') [3000; 1000] ∧
    ring (threads k') [2000] ∧ same_but_links sample_store (threads k') ∧
    (ListNull ≠ ListNull → load_list ListNull k' =
       Ok (if decide (0x1234 = 2000) then new_head 2000 [3000; 1000] else 0x1234) k').
Proof.
  apply (remove_thread_removes sample_state 2000 (sample_thread 3000 1000) [1000] [3000] 0x1234);
    [exact sample_ring | done | done | done].
Defined.

(** [count_thread_entries] terminates on every ring and returns its length. *)
Theorem count_thread_entries_length k h l :
  ring (threads k) (h :: l) → h ≠ 0 →
  count_thread_entries (length l + 2) h k = Ok (Z.of_nat (length (h :: l))) k.
Proof. intros Hr H0. apply count_thread_entries_ring; [done | done | lia]. Qed.

Lemma count_thread_entries_length_witness :
  count_thread_entries 4 1000 sample_state = Ok 3 sample_state.
Proof. apply (count_thread_entries_length sample_state 1000 [2000; 3000]); [exact sample_ring | done]. Defined.
