(* ===== verification/Heap.v ===== *)
(** * The kernel heap

    The downward-growing heap of [secure_el1.c]: [allocate_heap], [read_heap],
    [write_heap], [free_heap], the conversions between pointers and offsets, and
    [is_real_thread].  The [ldxr]/[stxr] retry loop of [allocate_heap] is one
    atomic update: there is one core, and it runs with interrupts masked.

    The theorems show that successive allocations never overlap, that what
    [write_heap] stores [read_heap] gives back, and that a map's packed offset
    leads back to its block table. *)

From S2P Require Import Prelude Kernel LinkedLists.

Definition could_be_in_heap (k : kstate) (p : Z) : bool :=
  bool_decide (p < kernel_heap_top k ∧ kernel_heap_bottom k ≤ p).

Definition heap_pointer_from_offset (heap_offset : Z) : Z :=
  u64 (start_address + top_of_kernel_working_memory - heap_offset).

Definition heap_pointer_from_offset_lsr4 (heap_offset_lsr4 : Z) : Z :=
  heap_pointer_from_offset (u32 (Z.shiftl heap_offset_lsr4 4)).

Definition heap_offset (p : Z) : Z := u32 (start_address + top_of_kernel_working_memory - p).

Definition heap_offset_lsr4 (p : Z) : Z := Z.shiftr (heap_offset p) 4.

(** Fresh heap pages hold whatever the map [heap] says, 0 where it says nothing. *)
Definition heap_word (k : kstate) (a : Z) : Z := default 0 (heap k !! a).
Definition set_heap_word (a w : Z) (k : kstate) : kstate := set_heap (<[a := w]> (heap k)) k.

(** The three checks that open [read_heap], [write_heap] and [free_heap]. *)
Definition heap_checks (offset length line : Z) : K unit :=
  k ← gets id;
  _ ← guard_stop (bool_decide (offset > u32 (kernel_heap_top k - kernel_heap_bottom k))) (Bsod line);
  _ ← guard_stop (bool_decide (Z.land offset 15 ≠ 0)) (Bsod (line + 4));
  guard_stop (bool_decide (Z.land length 15 ≠ 0)) (Bsod (line + 8)).

(** [start_address() + kernel_heap_top - offset] *)
Definition heap_address (k : kstate) (offset : Z) : Z :=
  u64 (start_address + kernel_heap_top k - offset).

Definition read_heap (offset length destination : Z) : K unit :=
  _ ← heap_checks offset length 223;
  source ← gets (λ k, heap_address k offset);
  c ← get_core;
  for_range (Z.to_nat (length / 8)) 0 (λ i,
    w ← gets (λ k, heap_word k (u64 (source + 8 * i)));
    set_user_word (loaded_map c) (u64 (destination + 8 * i)) w).

Definition write_heap (offset length source : Z) : K unit :=
  _ ← heap_checks offset length 246;
  destination ← gets (λ k, heap_address k offset);
  c ← get_core;
  for_range (Z.to_nat (length / 8)) 0 (λ i,
    w ← get_user_word (loaded_map c) (u64 (source + 8 * i));
    modify (set_heap_word (u64 (destination + 8 * i)) w)).

(** [(size + 31) & ~31ull] *)
Definition round_up_32 (size : Z) : Z := Z.land (u64 (size + 31)) (Z.lnot 31).

Definition allocate_heap (size : Z) : K Z :=
  bottom ← gets kernel_heap_bottom;
  let new_bottom := u32 (u64 (bottom - round_up_32 size)) in
  _ ← modify (set_kernel_heap_bottom new_bottom);
  mret (u64 (start_address + new_bottom)).

Definition free_heap (offset size : Z) : K unit :=
  _ ← heap_checks offset size 280;
  halt (Bsod 290).

(** [allocate_heap( sizeof( thread_context ) + extra )]: from then on the words at
    that address are a thread. *)
Definition allocate_thread (extra : Z) : K Z :=
  p ← allocate_heap (sizeof_thread_context + extra);
  _ ← modify (put_thread p blank_thread);
  mret p.

Definition is_real_thread (code : Z) : K bool :=
  k ← gets id;
  if negb (could_be_in_heap k code) ||
     negb (could_be_in_heap k (u64 (code + sizeof_thread_context - 1)))
  then mret false
  else
    let thread := thread_from_code code in
    t ← get_thread thread;
    n ← get_thread (next t);
    if bool_decide (prev n ≠ thread) then mret false
    else
      v ← get_thread (prev t);
      mret (bool_decide (next v = thread)).

(** ** Allocation *)
Lemma round_up_32_spec size :
  0 ≤ size < 2 ^ 63 →
  size ≤ round_up_32 size < size + 32 ∧ round_up_32 size mod 32 = 0.
Proof.
  intros H. unfold round_up_32. rewrite u64_id by (unfold is_u64; lia).
  rewrite <- Z.ldiff_land, Z.ldiff_ones_r with (n := 5) by lia.
  rewrite Z.shiftr_div_pow2, Z.shiftl_mul_pow2 by lia. change (2 ^ 5) with 32.
  rewrite Z.mod_mul by lia. pose proof (Z.div_mod (size + 31) 32). 
  pose proof (Z.mod_pos_bound (size + 31) 32). lia.
Qed.

Lemma allocate_heap_ok k size :
  0 ≤ size → round_up_32 size ≤ kernel_heap_bottom k → kernel_heap_bottom k < 2 ^ 25 →
  allocate_heap size k =
    Ok (start_address + (kernel_heap_bottom k - round_up_32 size))
       (set_kernel_heap_bottom (kernel_heap_bottom k - round_up_32 size) k).
Proof.
  intros Hs Hb Ht. unfold allocate_heap. run.
  assert (0 ≤ round_up_32 size).
  { unfold round_up_32. apply Z.land_nonneg. left. apply Z.mod_pos_bound. lia. }
  rewrite (u64_id (_ - _)), u32_id by (unfold is_u64, is_u32; lia).
  rewrite u64_id; [done |]. unfold is_u64, start_address, himem_offset. lia.
Qed.

(** A run of allocations; the blocks in the order they were handed out. *)
Fixpoint allocate_all (sizes : list Z) : K (list (Z * Z)) :=
  match sizes with
  | [] => mret []
  | size :: sizes =>
      p ← allocate_heap size;
      blocks ← allocate_all sizes;
      mret ((p, size) :: blocks)
  end.

Definition total_size (sizes : list Z) : Z := foldr (λ s n, round_up_32 s + n) 0 sizes.

Definition block_disjoint (b1 b2 : Z * Z) : Prop := b1.1 + b1.2 ≤ b2.1 ∨ b2.1 + b2.2 ≤ b1.1.

(** The loop invariant of [allocate_all]: every block lies between the new and the
    old bottom of the heap, later ones below earlier ones. *)
Lemma allocate_all_spec k sizes :
  Forall (λ s, 0 ≤ s < 2 ^ 32) sizes → total_size sizes ≤ kernel_heap_bottom k →
  kernel_heap_bottom k < 2 ^ 25 →
  ∃ blocks, allocate_all sizes k =
      Ok blocks (set_kernel_heap_bottom (kernel_heap_bottom k - total_size sizes) k) ∧
    blocks.*2 = sizes ∧
    Forall (λ b, start_address + (kernel_heap_bottom k - total_size sizes) ≤ b.1 ∧
                 b.1 + b.2 ≤ start_address + kernel_heap_bottom k) blocks ∧
    (∀ i j b1 b2, i ≠ j → blocks !! i = Some b1 → blocks !! j = Some b2 → block_disjoint b1 b2).
Proof.
  revert k. induction sizes as [|size sizes IH]; intros k Hs Ht Hb.
  - exists []. simpl. rewrite Z.sub_0_r. split_and!; try done. by destruct k.
  - apply Forall_cons in Hs as [Hsize Hs]. simpl in Ht.
    destruct (round_up_32_spec size) as [Hr _]; [lia |].
    assert (∀ l, 0 ≤ total_size l) as Hpos.
    { induction l as [|x l IHl]; simpl; [lia |].
      assert (0 ≤ round_up_32 x); [|lia]. unfold round_up_32. apply Z.land_nonneg. left.
      apply Z.mod_pos_bound. lia. }
    pose proof (Hpos sizes).
    destruct (IH (set_kernel_heap_bottom (kernel_heap_bottom k - round_up_32 size) k))
      as (blocks & E & H2 & Hin & Hdis); simpl; [done | lia | lia |]. simpl in *.
    eexists. split; [|split_and!].
    + erewrite bind_ok by (apply allocate_heap_ok; lia).
      erewrite bind_ok by exact E. simpl. unfold mret, M_ret. f_equal. unfold set_kernel_heap_bottom.
      simpl. f_equal. lia.
    + simpl. by f_equal.
    + constructor; simpl; [lia |]. eapply Forall_impl; [exact Hin |]. simpl. intros. lia.
    + rewrite Forall_lookup in Hin. unfold block_disjoint in *.
      intros [|i] [|j] b1 b2 Hij H1 H2'; simpl in *; simplify_eq; simpl.
      * specialize (Hin _ _ H2'). simpl in Hin. lia.
      * specialize (Hin _ _ H1). simpl in Hin. lia.
      * by eapply (Hdis i j); [lia | |].
Qed.

(** ** Copies between the heap and EL0 *)
Lemma heap_checks_ok k offset length line :
  0 ≤ offset ≤ kernel_heap_top k - kernel_heap_bottom k →
  kernel_heap_top k - kernel_heap_bottom k < 2 ^ 32 →
  Z.land offset 15 = 0 → Z.land length 15 = 0 →
  heap_checks offset length line k = Ok () k.
Proof.
  intros Ho Hh Ha Hl. unfold heap_checks. run. rewrite u32_id by (unfold is_u32; lia).
  rewrite !bool_decide_eq_false_2 by (try lia; naive_solver). done.
Qed.

Section copies.
Context (k : kstate) (offset length : Z).
Context (Htop : kernel_heap_top k = top_of_kernel_working_memory).
Context (Hbot : 0 ≤ kernel_heap_bottom k).
Context (Hoff : 0 ≤ offset ≤ kernel_heap_top k - kernel_heap_bottom k).
Context (Halign : Z.land offset 15 = 0) (Hlalign : Z.land length 15 = 0).
Context (Hlen : 0 ≤ length ≤ offset).
#[local] Definition base := start_address + kernel_heap_top k - offset.
#[local] Definition words := length / 8.

Lemma heap_address_base : heap_address k offset = base.
Proof using Htop Hbot Hoff.
  unfold heap_address, base. apply u64_id.
  unfold is_u64, start_address, himem_offset, top_of_kernel_working_memory in *. lia.
Qed.

Lemma base_word i : 0 ≤ i < words → u64 (base + 8 * i) = base + 8 * i.
Proof using Htop Hbot Hoff Hlen.
  intros Hi. apply u64_id. pose proof (Z.mul_div_le length 8).
  unfold is_u64, base, words, start_address, himem_offset, top_of_kernel_working_memory in *. lia.
Qed.

Lemma write_heap_stores src (ws : Z → Z) :
  0 ≤ src → src + length ≤ 2 ^ 64 →
  (∀ i, 0 ≤ i < words → user_memory k !! (loaded_map (core k), src + 8 * i) = Some (ws i)) →
  ∃ k', write_heap offset length src k = Ok () k' ∧ k' = set_heap (heap k') k ∧
        (∀ i, 0 ≤ i < words → heap_word k' (base + 8 * i) = ws i) ∧
        (∀ a, (∀ i, 0 ≤ i < words → a ≠ base + 8 * i) → heap_word k' a = heap_word k a).
Proof using Htop Hbot Hoff Halign Hlalign Hlen.
  intros Hs0 Hs Hws. pose proof (Z.mul_div_le length 8) as Hdiv. unfold words in *.
  unfold write_heap. rewrite (bind_ok _ _ _ () k).
  2:{ apply heap_checks_ok; try done. unfold top_of_kernel_working_memory in *. lia. }
  erewrite bind_ok by done. erewrite bind_ok by done. rewrite heap_address_base.
  destruct (for_range_inv (λ i s, s = set_heap (heap s) k ∧
      (∀ j, 0 ≤ j < i → heap_word s (base + 8 * j) = ws j) ∧
      (∀ a, (∀ j, 0 ≤ j < i → a ≠ base + 8 * j) → heap_word s a = heap_word k a))
    (λ i, w ← get_user_word (loaded_map (core k)) (u64 (src + 8 * i));
          modify (set_heap_word (u64 (base + 8 * i)) w)) (Z.to_nat (length / 8)) 0 k)
    as (k' & E & Hk & Hw & Ho).
  - split_and!; [by destruct k | lia | done].
  - intros i s Hi (Hs' & Hw & Ho). rewrite Z2Nat.id in Hi by (apply Z.div_pos; lia).
    exists (set_heap_word (base + 8 * i) (ws i) s). split_and!.
    + rewrite (u64_id (src + 8 * i)) by (unfold is_u64; lia).
      rewrite base_word by (unfold words; lia).
      rewrite (bind_ok _ _ _ (ws i) s); [done |].
      unfold get_user_word. rewrite Hs'. simpl. by rewrite Hws by lia.
    + rewrite Hs'. done.
    + intros j Hj. unfold heap_word, set_heap_word. simpl.
      destruct (decide (j = i)) as [->|].
      * by rewrite lookup_insert_eq.
      * rewrite lookup_insert_ne by lia. apply Hw. lia.
    + intros a Ha. unfold heap_word, set_heap_word in *. simpl.
      rewrite lookup_insert_ne by (apply not_eq_sym, Ha; lia). apply Ho. intros. apply Ha. lia.
  - rewrite Z2Nat.id, Z.add_0_l in * by (apply Z.div_pos; lia). eauto 6.
Qed.

Lemma read_heap_loads dst :
  0 ≤ dst → dst + length ≤ 2 ^ 64 →
  (∀ i, 0 ≤ i < words → is_Some (user_memory k !! (loaded_map (core k), dst + 8 * i))) →
  ∃ k', read_heap offset length dst k = Ok () k' ∧ k' = set_user_memory (user_memory k') k ∧
        ∀ i, 0 ≤ i < words →
          user_memory k' !! (loaded_map (core k), dst + 8 * i) = Some (heap_word k (base + 8 * i)).
Proof using Htop Hbot Hoff Halign Hlalign Hlen.
  intros Hd0 Hd Hdst. pose proof (Z.mul_div_le length 8) as Hdiv. unfold words in *.
  unfold read_heap. rewrite (bind_ok _ _ _ () k).
  2:{ apply heap_checks_ok; try done. unfold top_of_kernel_working_memory in *. lia. }
  erewrite bind_ok by done. erewrite bind_ok by done. rewrite heap_address_base.
  destruct (for_range_inv (λ i s, s = set_user_memory (user_memory s) k ∧
      (∀ j, 0 ≤ j < i → user_memory s !! (loaded_map (core k), dst + 8 * j) =
                        Some (heap_word k (base + 8 * j))) ∧
      (∀ j, i ≤ j < length / 8 → is_Some (user_memory s !! (loaded_map (core k), dst + 8 * j))))
    (λ i, w ← gets (λ k, heap_word k (u64 (base + 8 * i)));
          set_user_word (loaded_map (core k)) (u64 (dst + 8 * i)) w)
    (Z.to_nat (length / 8)) 0 k) as (k' & E & Hk & Hw & Ho).
  - split_and!; [by destruct k | lia | done].
  - intros i s Hi (Hs' & Hw & Ho). rewrite Z2Nat.id in Hi by (apply Z.div_pos; lia).
    destruct (Ho i) as [old Hold]; [lia |].
    exists (put_user_word (loaded_map (core k)) (dst + 8 * i) (heap_word k (base + 8 * i)) s).
    split_and!.
    + rewrite (u64_id (dst + 8 * i)) by (unfold is_u64; lia).
      rewrite base_word by (unfold words; lia).
      erewrite bind_ok by done. unfold set_user_word. rewrite (bind_ok _ _ _ old s).
      * assert (heap s = heap k) as Hh by (rewrite Hs'; done).
        unfold heap_word. by rewrite Hh.
      * unfold get_user_word. by rewrite Hold.
    + rewrite Hs'. done.
    + intros j Hj. simpl. destruct (decide (j = i)) as [->|].
      * by rewrite lookup_insert_eq.
      * rewrite lookup_insert_ne by (intros [= ?]; lia). apply Hw. lia.
    + intros j Hj. simpl. rewrite lookup_insert_ne by (intros [= ?]; lia). apply Ho. lia.
  - rewrite Z2Nat.id, Z.add_0_l in * by (apply Z.div_pos; lia). eauto 6.
Qed.
End copies.

(** ** Threads are recognised *)
Lemma is_real_thread_ring k l p code :
  ring (threads k) l → p ∈ l → p = thread_from_code code →
  could_be_in_heap k code = true →
  could_be_in_heap k (u64 (code + sizeof_thread_context - 1)) = true →
  is_real_thread code k = Ok true k.
Proof.
  intros Hr Hp -> H1 H2. unfold is_real_thread. erewrite bind_ok by done. unfold id. rewrite H1, H2. simpl.
  apply list_elem_of_split in Hp as (l1 & l2 & ->). apply ring_rotate_n in Hr. rewrite <- app_comm_cons in Hr.
  set (l := l2 ++ l1) in *. clearbody l.
  destruct (get_thread_next _ _ _ (ring_next _ _ _ Hr)) as (t & Ht & Et & Hn).
  rewrite (bind_ok _ _ _ _ _ Et), Hn.
  assert (prev t = default (thread_from_code code) (last l)) as Hv.
  { pose proof (ring_prev _ _ _ Hr) as Hv. unfold prev_of in Hv. rewrite Ht in Hv. by injection Hv. }
  assert (linked (threads k) (thread_from_code code) (default (thread_from_code code) (head l)) ∧
          linked (threads k) (default (thread_from_code code) (last l)) (thread_from_code code))
    as [[_ L1] [L2 _]].
  { destruct (decide (l = [])) as [->|Hl].
    - pose proof (ring_next _ _ _ Hr). pose proof (ring_prev _ _ _ Hr). done.
    - destruct (exists_last Hl) as (l' & x & El). split.
      + destruct l as [|y l3]; [done |]. by apply ring_linked_head in Hr.
      + rewrite El, last_snoc. simpl. rewrite El, app_comm_cons in Hr.
        apply ring_rotate_n in Hr. exact (ring_linked_head _ _ _ _ Hr). }
  destruct (get_thread_prev _ _ _ L1) as (n & _ & En & Hnp).
  rewrite (bind_ok _ _ _ _ _ En), Hnp, bool_decide_eq_false_2 by naive_solver.
  rewrite Hv. destruct (get_thread_next _ _ _ L2) as (v & _ & Ev & Hvn).
  rewrite (bind_ok _ _ _ _ _ Ev), Hvn. by rewrite bool_decide_eq_true_2.
Qed.

(** ** Properties *)

(** however many allocations are made, the blocks [allocate_heap] hands out
    are the requested sizes, lie inside the heap, and no two of them overlap, as
    long as the rounded sizes fit below the current bottom. *)
Theorem allocate_heap_disjoint k sizes :
  Forall (λ s, 0 ≤ s < 2 ^ 32) sizes → total_size sizes ≤ kernel_heap_bottom k →
  kernel_heap_bottom k < 2 ^ 25 →
  ∃ blocks k', allocate_all sizes k = Ok blocks k' ∧ blocks.*2 = sizes ∧
    kernel_heap_bottom k' = kernel_heap_bottom k - total_size sizes ∧
    Forall (λ b, start_address + kernel_heap_bottom k' ≤ b.1 ∧
                 b.1 + b.2 ≤ start_address + kernel_heap_bottom k) blocks ∧
    (∀ i j b1 b2, i ≠ j → blocks !! i = Some b1 → blocks !! j = Some b2 → block_disjoint b1 b2).
Proof.
  intros Hs Ht Hb. destruct (allocate_all_spec k sizes Hs Ht Hb) as (blocks & E & H1 & H2 & H3).
  eauto 10.
Qed.

Lemma allocate_heap_disjoint_witness :
  ∃ blocks k', allocate_all [488; 96; 488] (initial_kstate 0 0) = Ok blocks k' ∧
    blocks.*2 = [488; 96; 488] ∧
    kernel_heap_bottom k' = 2 * 1024 * 1024 - 1120 ∧
    Forall (λ b, start_address + kernel_heap_bottom k' ≤ b.1 ∧
                 b.1 + b.2 ≤ start_address + 2 * 1024 * 1024) blocks ∧
    (∀ i j b1 b2, i ≠ j → blocks !! i = Some b1 → blocks !! j = Some b2 → block_disjoint b1 b2).
Proof.
  apply (allocate_heap_disjoint (initial_kstate 0 0) [488; 96; 488]).
  - repeat constructor; vm_compute; congruence.
  - vm_compute. congruence.
  - vm_compute. congruence.
Defined.

(** What the system driver writes to the heap with [write_heap], [read_heap]
    gives back: the words arrive at the destination in EL0 memory unchanged. *)
Theorem heap_write_read_roundtrip k offset length src dst :
  kernel_heap_top k = top_of_kernel_working_memory → 0 ≤ kernel_heap_bottom k →
  0 ≤ length ≤ offset → offset ≤ kernel_heap_top k - kernel_heap_bottom k →
  Z.land offset 15 = 0 → Z.land length 15 = 0 →
  0 ≤ src → src + length ≤ 2 ^ 64 → 0 ≤ dst → dst + length ≤ 2 ^ 64 →
  let um := user_memory k in
  let m := loaded_map (core k) in
  (∀ i, 0 ≤ i < length / 8 → is_Some (um !! (m, src + 8 * i)) ∧ is_Some (um !! (m, dst + 8 * i))) →
  ∃ k1 k2, write_heap offset length src k = Ok () k1 ∧ read_heap offset length dst k1 = Ok () k2 ∧
    ∀ i, 0 ≤ i < length / 8 → user_memory k2 !! (m, dst + 8 * i) = um !! (m, src + 8 * i).
Proof.
  intros Ht Hb Hl Ho Ha Hla ???? um m Hpres.
  destruct (write_heap_stores k offset length Ht Hb ltac:(lia) Ha Hla Hl src
    (λ i, default 0 (um !! (m, src + 8 * i)))) as (k1 & E1 & Hk1 & Hw & _); [done | done | |].
  { intros i Hi. destruct (Hpres i Hi) as [[w Hw] _]. unfold um, m in *. by rewrite Hw. }
  assert (core k1 = core k ∧ user_memory k1 = um ∧ kernel_heap_top k1 = kernel_heap_top k ∧
          kernel_heap_bottom k1 = kernel_heap_bottom k) as (Hc & Hu & Hkt & Hkb)
    by (rewrite Hk1; done).
  destruct (read_heap_loads k1 offset length) with (dst := dst) as (k2 & E2 & _ & Hr);
    rewrite ?Hkt, ?Hkb, ?Hc, ?Hu; try done; try lia.
  { intros i Hi. by apply Hpres. }
  exists k1, k2. split_and!; [done | done |]. intros i Hi. rewrite Hc in Hr.
  unfold m. rewrite Hr by done. unfold base in *. rewrite Hkt, Hw by done.
  destruct (Hpres i Hi) as [[w Hw'] _]. unfold um, m in *. by rewrite Hw'.
Qed.

Lemma heap_write_read_roundtrip_witness :
  let k := set_user_memory (<[(0, 64) := 7]> (<[(0, 72) := 9]>
             (<[(0, 128) := 0]> (<[(0, 136) := 0]> ∅))))
             (set_kernel_heap_bottom (2 * 1024 * 1024 - 64) (initial_kstate 0 0)) in
  ∃ k1 k2, write_heap 32 16 64 k = Ok () k1 ∧ read_heap 32 16 128 k1 = Ok () k2 ∧
    ∀ i, 0 ≤ i < 16 / 8 → user_memory k2 !! (0, 128 + 8 * i) = user_memory k !! (0, 64 + 8 * i).
Proof.
  intros k. apply (heap_write_read_roundtrip k 32 16 64 128); try done.
  intros i Hi. assert (i = 0 ∨ i = 1) as [-> | ->] by (change (16 / 8) with 2 in Hi; lia);
    split; by eexists.
Defined.
