(* ===== verification/Interfaces.v ===== *)
(** * Interfaces

    The interface table of [secure_el1.c] with its free list, and the four
    supervisor calls of [include/svc_handling.h] that create interfaces.  An
    interface is the capability by which one map may call another: [user] is the
    map that may call it, [provider] the map that runs [handler] with [object].

    The free list is threaded through [free.next], which overlaps [user].  The
    [ldxr]/[stxr] loops are atomic updates (one core, interrupts masked); a loop
    that waits for another core to refill the list never ends, and is [Spin]. *)

From S2P Require Import Prelude SystemServices Kernel.

Definition interface_from_index (k : kstate) (index : Z) : option Z :=
  if bool_decide (u32 index > kernel_last_interface k) then None else Some (u32 index).

Definition get_interface (i : Z) : K Interface := λ k,
  match interfaces k !! i with
  | Some e => Ok e k
  | None => Stop (Fault i) k
  end.

Definition put_interface (i : Z) (e : Interface) (k : kstate) : kstate :=
  set_interfaces (<[i := e]> (interfaces k)) k.

Definition upd_interface (i : Z) (f : Interface → Interface) : K unit :=
  e ← get_interface i; modify (put_interface i (f e)).

Definition free_interface (i : Z) : K unit :=
  _ ← upd_interface i (set_free_marker free_marker_value);
  head ← gets kernel_free_interface;
  _ ← upd_interface i (set_free_next head);
  _ ← guard_stop (bool_decide (head = 0)) (Spin 319);
  modify (set_kernel_free_interface i).

Definition new_memory_for_interfaces (new_last : Z) : K unit :=
  last ← gets kernel_last_interface;
  let first_new := last + 1 in
  _ ← for_range (Z.to_nat (new_last - first_new)) first_new (λ i,
        _ ← upd_interface i (set_free_marker free_marker_value);
        upd_interface i (set_free_next (u32 (i + 1))));
  _ ← upd_interface (new_last - 1) (set_free_next 0);
  _ ← modify (set_kernel_last_interface (u32 new_last));
  modify (set_kernel_free_interface (u32 first_new)).

Definition obtain_interface : K Z :=
  head ← gets kernel_free_interface;
  _ ← guard_stop (bool_decide (head = 0)) (Spin 344);
  k ← gets id;
  match interface_from_index k head with
  | None => halt (Fault 0)
  | Some result =>
      e ← get_interface result;
      _ ← modify (set_kernel_free_interface (free_next e));
      _ ← guard_stop (bool_decide (free_marker e ≠ free_marker_value)) (Bsod 350);
      _ ← guard_stop (bool_decide (free_next e = 0)) (Bsod 354);
      mret result
  end.

(** ** The supervisor calls *)
Definition new_interface (thread user_ provider_ handler_ value : Z) : K thread_switch :=
  e ← obtain_interface;
  _ ← upd_interface e (λ i, MkInterface (user i) provider_ (handler i) (object i));
  _ ← upd_interface e (λ i, MkInterface user_ (provider i) (handler i) (object i));
  _ ← upd_interface e (λ i, MkInterface (user i) (provider i) handler_ (object i));
  _ ← upd_interface e (λ i, MkInterface (user i) (provider i) (handler i) value);
  _ ← upd_thread thread (set_reg 0 e);
  mret (ThreadSwitch thread thread).

(** [interface_from_index( n )], [if (0 == interface) BSOD], and the check that the
    calling map is the interface's user. *)
Definition usable_interface (thread index line_null line_user : Z) : K Interface :=
  k ← gets id;
  match interface_from_index k index with
  | None => halt (Bsod line_null)
  | Some i =>
      e ← get_interface i;
      t ← get_thread thread;
      _ ← guard_stop (bool_decide (user e ≠ current_map t)) (Bsod line_user);
      mret e
  end.

Definition handle_svc_duplicate_to_return (thread : Z) : K thread_switch :=
  t ← get_thread thread;
  e ← usable_interface thread (reg 0 t) 163 167;
  s ← top_of_stack thread;
  new_interface thread (caller_map s) (provider e) (handler e) (object e).

Definition handle_svc_duplicate_to_pass_to (thread : Z) : K thread_switch :=
  t ← get_thread thread;
  e ← usable_interface thread (reg 1 t) 179 183;
  target ← usable_interface thread (reg 0 t) 188 192;
  new_interface thread (provider target) (provider e) (handler e) (object e).

Definition handle_svc_interface_to_pass_to (thread : Z) : K thread_switch :=
  t ← get_thread thread;
  _ ← guard_stop (bool_decide (Z.land (reg 1 t) 3 ≠ 0)) (Smc 13);
  e ← usable_interface thread (reg 0 t) 206 209;
  new_interface thread (provider e) (current_map t) (reg 1 t) (reg 2 t).

Definition handle_svc_interface_to_return (thread : Z) : K thread_switch :=
  t ← get_thread thread;
  _ ← guard_stop (bool_decide (Z.land (reg 0 t) 3 ≠ 0)) (Smc 13);
  s ← top_of_stack thread;
  new_interface thread (caller_map s) (current_map t) (reg 0 t) (reg 1 t).

(** ** The free list *)

(** [free_chain ifs l h]: starting at index [h] the table links the free
    interfaces [l], and then ends. *)
Fixpoint free_chain (ifs : gmap Z Interface) (l : list Z) (h : Z) : Prop :=
  match l with
  | [] => h = 0
  | x :: l' => h = x ∧ 0 < x < 2 ^ 32 ∧
      ∃ e, ifs !! x = Some e ∧ free_marker e = free_marker_value ∧ free_chain ifs l' (free_next e)
  end.

(** The free list of a state: distinct indexes, all within the table. *)
Definition free_list (k : kstate) (l : list Z) : Prop :=
  NoDup l ∧ Forall (λ x, x ≤ kernel_last_interface k) l ∧
  free_chain (interfaces k) l (kernel_free_interface k).

Section lemmas.
Implicit Types (k : kstate) (e : Interface) (i : Z).

Lemma get_interface_ok k i e : interfaces k !! i = Some e → get_interface i k = Ok e k.
Proof. intros E. unfold get_interface. by rewrite E. Qed.

Lemma get_interface_inv k i e k' :
  get_interface i k = Ok e k' → k' = k ∧ interfaces k !! i = Some e.
Proof. unfold get_interface. destruct (interfaces k !! i); naive_solver. Qed.

Lemma upd_interface_ok k i e f :
  interfaces k !! i = Some e → upd_interface i f k = Ok () (put_interface i (f e) k).
Proof. intros E. unfold upd_interface. by erewrite bind_ok by by apply get_interface_ok. Qed.

Lemma interfaces_put k i e : interfaces (put_interface i e k) = <[i := e]> (interfaces k).
Proof. done. Qed.

Lemma free_chain_frame (ifs : gmap Z Interface) l h x e :
  x ∉ l → free_chain ifs l h → free_chain (<[x := e]> ifs) l h.
Proof.
  revert h. induction l as [|y l IH]; intros h Hx; simpl; [done |].
  intros (-> & Hy & e' & He & Hm & Hl). split_and!; [done | lia | lia |].
  exists e'. rewrite lookup_insert_ne by set_solver. split_and!; [done | done |].
  apply IH; [set_solver | done].
Qed.

Lemma free_chain_seq (ifs : gmap Z Interface) (n : nat) a :
  0 < a → a + Z.of_nat n < 2 ^ 32 →
  (∀ j, a ≤ j < a + Z.of_nat n → ∃ e, ifs !! j = Some e ∧ free_marker e = free_marker_value ∧
     free_next e = if decide (j = a + Z.of_nat n - 1) then 0 else j + 1) →
  free_chain ifs (seqZ a (Z.of_nat n)) (if decide (n = 0%nat) then 0 else a).
Proof.
  revert a. induction n as [|n IH]; intros a Ha Hn Hj; [done |].
  rewrite seqZ_cons by lia. simpl. split; [done |]. split; [lia |].
  destruct (Hj a) as (e & He & Hm & Hnext); [lia |]. exists e. split_and!; [done | done |].
  replace (Z.pred (Z.of_nat (S n))) with (Z.of_nat n) by lia.
  replace (Z.succ a) with (a + 1) by lia. rewrite Hnext.
  replace (if decide (a = a + Z.of_nat (S n) - 1) then 0 else a + 1)
    with (if decide (n = 0%nat) then 0 else a + 1) by (repeat case_decide; lia).
  apply IH; [lia | lia |]. intros j Hj'. destruct (Hj j) as (e' & He' & Hm' & Hn'); [lia |].
  exists e'. split_and!; [done | done |]. rewrite Hn'. repeat case_decide; lia.
Qed.

(** What [new_memory_for_interfaces] leaves in the table. *)
Lemma new_memory_for_interfaces_spec k new_last :
  0 < kernel_last_interface k + 1 < new_last → new_last < 2 ^ 32 →
  (∀ j, kernel_last_interface k < j < new_last → is_Some (interfaces k !! j)) →
  ∃ k', new_memory_for_interfaces new_last k = Ok () k' ∧
    free_list k' (seqZ (kernel_last_interface k + 1) (new_last - (kernel_last_interface k + 1))) ∧
    kernel_last_interface k' = new_last ∧ threads k' = threads k ∧ core k' = core k ∧
    (∀ j, j ≤ kernel_last_interface k → interfaces k' !! j = interfaces k !! j).
Proof.
  intros Hl Hnl Hsome. unfold new_memory_for_interfaces. erewrite bind_ok by done.
  set (a := kernel_last_interface k + 1) in *.
  destruct (for_range_inv (λ i s, s = set_interfaces (interfaces s) k ∧
      (∀ j, j < a → interfaces s !! j = interfaces k !! j) ∧
      (∀ j, a ≤ j < i → ∃ e, interfaces s !! j = Some e ∧ free_marker e = free_marker_value ∧
                              free_next e = j + 1) ∧
      (∀ j, i ≤ j < new_last → is_Some (interfaces s !! j)))
    (λ i, _ ← upd_interface i (set_free_marker free_marker_value);
          upd_interface i (set_free_next (u32 (i + 1)))) (Z.to_nat (new_last - a)) a k)
    as (s & E & Hs & Hlow & Hdone & _).
  - split_and!; [by destruct k | done | lia |]. intros. apply Hsome. lia.
  - intros i s Hi (Hs & Hlow & Hdone & Hmore). destruct (Hmore i) as [e He]; [lia |].
    eexists. split; [|split_and!].
    + erewrite bind_ok by by apply upd_interface_ok.
      apply upd_interface_ok. rewrite interfaces_put. apply lookup_insert_eq.
    + by rewrite Hs.
    + intros j Hj. simpl. rewrite !lookup_insert_ne by lia. by apply Hlow.
    + intros j Hj. simpl. destruct (decide (j = i)) as [->|].
      * rewrite lookup_insert_eq. eexists. split_and!; [done | by apply free_marker_set |].
        simpl. apply u32_id. unfold is_u32. lia.
      * rewrite !lookup_insert_ne by lia. apply Hdone. lia.
    + intros j Hj. simpl. rewrite !lookup_insert_ne by lia. apply Hmore. lia.
  - rewrite (bind_ok _ _ _ _ _ E).
    replace (a + Z.of_nat (Z.to_nat (new_last - a))) with new_last in * by lia.
    destruct (Hdone (new_last - 1)) as (e & He & Hm & Hn); [lia |].
    erewrite bind_ok by by apply upd_interface_ok.
    erewrite bind_ok by done. eexists. split; [done |]. simpl.
    rewrite !u32_id by (unfold is_u32; lia). split_and!.
    + split_and!; simpl.
      * apply NoDup_seqZ.
      * apply Forall_forall. intros x Hx%elem_of_seqZ. lia.
      * pose proof (free_chain_seq (<[new_last - 1 := set_free_next 0 e]> (interfaces s))
          (Z.to_nat (new_last - a)) a) as Hc.
        rewrite Z2Nat.id in Hc by lia. rewrite decide_False in Hc by lia. apply Hc; [lia | lia |].
        intros j Hj. destruct (decide (j = new_last - 1)) as [->|].
        -- rewrite lookup_insert_eq, decide_True by lia. eexists. split_and!; done.
        -- rewrite lookup_insert_ne, decide_False by lia. apply Hdone. lia.
    + done.
    + by rewrite Hs.
    + by rewrite Hs.
    + intros j Hj. rewrite lookup_insert_ne by lia. apply Hlow. lia.
Qed.
End lemmas.

Lemma free_list_head k x l :
  free_list k (x :: l) →
  kernel_free_interface k = x ∧ 0 < x < 2 ^ 32 ∧ x ≤ kernel_last_interface k ∧ (x ∉ l) ∧
  ∃ e, interfaces k !! x = Some e ∧ free_marker e = free_marker_value ∧
       free_chain (interfaces k) l (free_next e).
Proof.
  intros (Hnd & Hlast & Hc). apply NoDup_cons in Hnd as [? _]. apply Forall_cons in Hlast as [? _].
  simpl in Hc. naive_solver.
Qed.

Lemma interface_from_index_ok k x :
  0 ≤ x < 2 ^ 32 → x ≤ kernel_last_interface k → interface_from_index k x = Some x.
Proof.
  intros Hx Hl. unfold interface_from_index. rewrite u32_id by (unfold is_u32; lia).
  by rewrite bool_decide_eq_false_2 by lia.
Qed.

Lemma obtain_interface_ok k x y l :
  free_list k (x :: y :: l) →
  obtain_interface k = Ok x (set_kernel_free_interface y k) ∧
  free_list (set_kernel_free_interface y k) (y :: l).
Proof.
  intros Hf. pose proof (free_list_head _ _ _ Hf) as (Hh & Hx & Hlx & _ & e & He & Hm & Hc).
  simpl in Hc. destruct Hc as (Hy & Hy' & Hc). split.
  - unfold obtain_interface. erewrite bind_ok by done. rewrite Hh.
    unfold guard_stop. rewrite (bool_decide_eq_false_2 (x = 0)) by lia.
    erewrite bind_ok by done. erewrite bind_ok by done. unfold id.
    rewrite interface_from_index_ok by lia.
    erewrite bind_ok by by apply get_interface_ok. erewrite bind_ok by done.
    rewrite (bool_decide_eq_false_2 (_ ≠ _)) by (intros H; by apply H).
    erewrite bind_ok by done.
    rewrite bool_decide_eq_false_2 by lia. simpl. by rewrite <- Hy.
  - destruct Hf as (Hnd & Hlast & _). apply NoDup_cons in Hnd as [_ Hnd].
    apply Forall_cons in Hlast as [_ Hlast]. by split_and!.
Qed.

(** Filling in the interface that was just obtained does not disturb the list. *)
Lemma free_list_put k l x e : x ∉ l → free_list k l → free_list (put_interface x e k) l.
Proof. intros Hx (Hnd & Hlast & Hc). split_and!; [done | done |]. by apply free_chain_frame. Qed.

Lemma free_list_threads k l ts : free_list k l → free_list (set_threads ts k) l.
Proof. done. Qed.

(** [new_interface], when at least two interfaces are free. *)
Lemma new_interface_ok k thread t u p h v x y l :
  free_list k (x :: y :: l) → threads k !! thread = Some t →
  new_interface thread u p h v k =
    Ok (ThreadSwitch thread thread)
       (put_thread thread (set_reg 0 x t)
         (put_interface x (MkInterface u p h v) (set_kernel_free_interface y k))).
Proof.
  intros Hf Ht. pose proof (free_list_head _ _ _ Hf) as (_ & _ & _ & _ & e & He & _).
  destruct (obtain_interface_ok _ _ _ _ Hf) as [Eo _].
  unfold new_interface. rewrite (bind_ok _ _ _ _ _ Eo).
  do 4 (erewrite bind_ok by (apply upd_interface_ok; simpl; rewrite ?lookup_insert_eq; done)).
  erewrite bind_ok by by apply upd_thread_ok. simpl.
  unfold put_interface. simpl. by rewrite !insert_insert_eq.
Qed.

(** The table entries other than the new one are as they were. *)
Lemma new_interface_others k x e y i :
  i ≠ x → interfaces (put_interface x e (set_kernel_free_interface y k)) !! i = interfaces k !! i.
Proof. intros. simpl. by rewrite lookup_insert_ne. Qed.

Lemma usable_interface_inv k thread index l1 l2 e k' :
  usable_interface thread index l1 l2 k = Ok e k' →
  k' = k ∧ ∃ t, threads k !! thread = Some t ∧ interfaces k !! u32 index = Some e ∧
    u32 index ≤ kernel_last_interface k ∧ user e = current_map t.
Proof.
  intros H. unfold usable_interface in H. inv_bind H. injection E as <- <-. unfold id in H.
  unfold interface_from_index in H. case_bool_decide; [done |].
  inv_bind H. apply get_interface_inv in E as [-> He].
  inv_bind H. apply get_thread_inv in E as [-> Ht].
  inv_bind H. unfold guard_stop, when in E. case_bool_decide as Hu; [done |].
  injection E as _ <-. injection H as <- <-. split; [done |].
  eexists. split_and!; [done | done | lia | lia].
Qed.

Lemma usable_interface_ok k thread index l1 l2 e t :
  threads k !! thread = Some t → interfaces k !! u32 index = Some e →
  u32 index ≤ kernel_last_interface k → user e = current_map t →
  usable_interface thread index l1 l2 k = Ok e k.
Proof.
  intros Ht He Hl Hu. unfold usable_interface. erewrite bind_ok by done. unfold id.
  unfold interface_from_index. rewrite bool_decide_eq_false_2 by lia.
  erewrite bind_ok by by apply get_interface_ok. erewrite bind_ok by by apply get_thread_ok.
  unfold guard_stop. rewrite bool_decide_eq_false_2 by naive_solver. done.
Qed.

Lemma free_interface_ok k x e y l :
  free_list k (y :: l) → x ∉ y :: l → 0 < x < 2 ^ 32 → x ≤ kernel_last_interface k →
  interfaces k !! x = Some e →
  ∃ k', free_interface x k = Ok () k' ∧ free_list k' (x :: y :: l).
Proof.
  intros Hf Hx H0 Hl He. pose proof (free_list_head _ _ _ Hf) as (Hh & Hy & _).
  eexists. split.
  - unfold free_interface. erewrite bind_ok by by apply upd_interface_ok.
    erewrite bind_ok by done. simpl. rewrite Hh.
    erewrite bind_ok by (apply upd_interface_ok; simpl; apply lookup_insert_eq).
    unfold guard_stop. rewrite bool_decide_eq_false_2 by lia. by erewrite bind_ok by done.
  - destruct Hf as (Hnd & Hlast & Hc). split; [by constructor |]. split; [by constructor |].
    + simpl. split; [done |]. split; [lia |]. rewrite lookup_insert_eq. eexists. split; [done |]. split.
      * by apply free_marker_set.
      * apply (free_chain_frame _ (y :: l)); [done |].
        apply (free_chain_frame _ (y :: l)); [done |]. simpl. by rewrite <- Hh at 1.
Qed.

(** [n] calls of [obtain_interface]. *)
Fixpoint obtain_many (n : nat) : K (list Z) :=
  match n with
  | O => mret []
  | S n => x ← obtain_interface; l ← obtain_many n; mret (x :: l)
  end.

Inductive interface_call : Type :=
  | Duplicate_to_return | Duplicate_to_pass_to | Interface_to_pass_to | Interface_to_return.

Definition run_interface_call (c : interface_call) : Z → K thread_switch :=
  match c with
  | Duplicate_to_return => handle_svc_duplicate_to_return
  | Duplicate_to_pass_to => handle_svc_duplicate_to_pass_to
  | Interface_to_pass_to => handle_svc_interface_to_pass_to
  | Interface_to_return => handle_svc_interface_to_return
  end.

Lemma top_of_stack_inv k thread s k' : top_of_stack thread k = Ok s k' → k' = k.
Proof.
  intros H. unfold top_of_stack in H. inv_bind H. apply get_thread_inv in E as [-> _].
  repeat case_match; try done. by injection H.
Qed.

Lemma guard_stop_inv {S} b r (s s' : S) u : guard_stop b r s = Ok u s' → b = false ∧ s' = s.
Proof. unfold guard_stop, when. destruct b; [done |]. by injection 1. Qed.

(** ** Properties *)

(** [new_memory_for_interfaces( new_last )] turns the part of the table above
    [kernel_last_interface] into a free list of all its indexes, in ascending
    order, and leaves the special interfaces below it alone. *)
Theorem new_memory_frees_all k new_last :
  0 < kernel_last_interface k + 1 < new_last → new_last < 2 ^ 32 →
  (∀ j, kernel_last_interface k < j < new_last → is_Some (interfaces k !! j)) →
  ∃ k', new_memory_for_interfaces new_last k = Ok () k' ∧
    free_list k' (seqZ (kernel_last_interface k + 1) (new_last - (kernel_last_interface k + 1))) ∧
    (∀ j, j ≤ kernel_last_interface k → interfaces k' !! j = interfaces k !! j).
Proof.
  intros H1 H2 H3. destruct (new_memory_for_interfaces_spec k new_last H1 H2 H3)
    as (k' & ? & ? & _ & _ & _ & ?). eauto.
Qed.

(** A table of [n] mapped, zeroed interfaces. *)
Definition zero_interfaces (n : nat) : gmap Z Interface :=
  list_to_map ((λ i, (Z.of_nat i, MkInterface 0 0 0 0)) <$> seq 0 n).

Lemma new_memory_frees_all_witness :
  let k := set_interfaces (zero_interfaces 8) (initial_kstate 0 0) in
  ∃ k', new_memory_for_interfaces 8 k = Ok () k' ∧ free_list k' [3; 4; 5; 6; 7] ∧
    (∀ j, j ≤ 2 → interfaces k' !! j = interfaces k !! j).
Proof.
  intros k. apply (new_memory_frees_all k 8); [vm_compute; split; congruence | done |].
  intros j Hj. change (kernel_last_interface k) with 2 in Hj.
  assert (j = 3 ∨ j = 4 ∨ j = 5 ∨ j = 6 ∨ j = 7) as Hc by lia.
  destruct_or! Hc; subst j; by eexists.
Defined.

(** [obtain_interface] hands out free interfaces one after the other: as many
    calls as there are free interfaces but one return exactly the front of the
    free list, so no interface is handed out twice. *)
Theorem obtain_many_in_order k l1 y l2 :
  free_list k (l1 ++ y :: l2) →
  ∃ k', obtain_many (length l1) k = Ok l1 k' ∧ free_list k' (y :: l2) ∧ NoDup (l1 ++ y :: l2).
Proof.
  revert k. induction l1 as [|x l1 IH]; intros k Hf; simpl.
  - exists k. split_and!; [done | done | apply Hf].
  - assert (∃ z l, l1 ++ y :: l2 = z :: l) as (z & l & E) by (destruct l1; simpl; eauto).
    pose proof Hf as Hf'. rewrite <- app_comm_cons, E in Hf'.
    apply obtain_interface_ok in Hf' as [Eo Hf']. rewrite <- E in Hf'.
    destruct (IH _ Hf') as (k' & Em & Hl & _). exists k'.
    erewrite bind_ok by exact Eo. erewrite bind_ok by exact Em. split_and!; [done | done | apply Hf].
Qed.

Lemma obtain_many_in_order_witness :
  let e n := set_free_next n (set_free_marker free_marker_value (MkInterface 0 0 0 0)) in
  let k := set_kernel_last_interface 512 (set_kernel_free_interface 3
             (set_interfaces (<[3 := e 4]> (<[4 := e 5]> (<[5 := e 0]> ∅))) (initial_kstate 0 0))) in
  ∃ k', obtain_many 2 k = Ok [3; 4] k' ∧ free_list k' [5] ∧ NoDup [3; 4; 5].
Proof.
  intros e k. apply (obtain_many_in_order k [3; 4] 5 []).
  split_and!; [apply (bool_decide_unpack _); by vm_compute | by repeat constructor |].
  repeat (split; [done |]; split; [done |]; eexists; split; [done |]; split; [done |]). done.
Defined.

(** The last interface of the free list is never handed out: taking it empties
    the list and stops the kernel at the check for an emptied list. *)
Theorem obtain_last_interface_stops k x :
  free_list k [x] → obtain_interface k = Stop (Bsod 354) (set_kernel_free_interface 0 k).
Proof.
  intros Hf. pose proof (free_list_head _ _ _ Hf) as (Hh & Hx & Hlx & _ & e & He & Hm & Hc).
  simpl in Hc. unfold obtain_interface. erewrite bind_ok by done. rewrite Hh.
  unfold guard_stop. rewrite (bool_decide_eq_false_2 (x = 0)) by lia.
  do 2 erewrite bind_ok by done. unfold id. rewrite interface_from_index_ok by lia.
  erewrite bind_ok by by apply get_interface_ok. erewrite bind_ok by done.
  rewrite (bool_decide_eq_false_2 (_ ≠ _)) by naive_solver.
  erewrite bind_ok by done. rewrite Hc. by rewrite (bind_stop _ _ _ (Bsod 354) (set_kernel_free_interface 0 k)).
Qed.

Lemma obtain_last_interface_stops_witness :
  let e := set_free_next 0 (set_free_marker free_marker_value (MkInterface 0 0 0 0)) in
  let k := set_kernel_last_interface 512 (set_kernel_free_interface 5
             (set_interfaces (<[5 := e]> ∅) (initial_kstate 0 0))) in
  obtain_interface k = Stop (Bsod 354) (set_kernel_free_interface 0 k).
Proof.
  intros e k. apply (obtain_last_interface_stops k 5).
  split_and!; [apply NoDup_singleton | by repeat constructor |].
  split; [done |]; split; [done |]; eexists; split; [done |]; split; done.
Defined.

(** An interface that is freed is the next one to be obtained, and the rest of
    the free list is as before (as long as the list was not empty). *)
Theorem free_then_obtain k x e y l :
  free_list k (y :: l) → x ∉ y :: l → 0 < x < 2 ^ 32 → x ≤ kernel_last_interface k →
  interfaces k !! x = Some e →
  ∃ k1 k2, free_interface x k = Ok () k1 ∧ obtain_interface k1 = Ok x k2 ∧ free_list k2 (y :: l).
Proof.
  intros Hf Hx H0 Hl He. destruct (free_interface_ok _ _ _ _ _ Hf Hx H0 Hl He) as (k1 & E1 & Hf1).
  apply obtain_interface_ok in Hf1 as [E2 Hf2]. eauto.
Qed.

Lemma free_then_obtain_witness :
  let e n := set_free_next n (set_free_marker free_marker_value (MkInterface 0 0 0 0)) in
  let k := set_kernel_last_interface 512 (set_kernel_free_interface 4
             (set_interfaces (<[3 := MkInterface 7 8 9 10]> (<[4 := e 0]> ∅)) (initial_kstate 0 0))) in
  ∃ k1 k2, free_interface 3 k = Ok () k1 ∧ obtain_interface k1 = Ok 3 k2 ∧ free_list k2 [4].
Proof.
  intros e k. apply (free_then_obtain k 3 (MkInterface 7 8 9 10) 4 []); try done.
  - split_and!; [apply NoDup_singleton | by repeat constructor |].
    split; [done |]; split; [done |]; eexists; split; [done |]; split; done.
  - set_solver.
Defined.

(** C3: no map can make an interface to somebody else's code out of nothing.
    Whichever of the four calls a thread makes, if it succeeds the only table entry
    that changes is the new one, and that either is provided by the calling map or
    copies provider, handler and object of an interface the calling map may use. *)
Theorem interface_calls_authority c k thread t x y l r k' :
  free_list k (x :: y :: l) → threads k !! thread = Some t →
  run_interface_call c thread k = Ok r k' →
  ∃ n, interfaces k' = <[x := n]> (interfaces k) ∧ r = ThreadSwitch thread thread ∧
    (provider n = current_map t ∨
     ∃ i e, interfaces k !! i = Some e ∧ user e = current_map t ∧
       provider n = provider e ∧ handler n = handler e ∧ object n = object e).
Proof.
  intros Hf Ht H. destruct c; simpl in H;
    unfold handle_svc_duplicate_to_return, handle_svc_duplicate_to_pass_to,
      handle_svc_interface_to_pass_to, handle_svc_interface_to_return in H;
    inv_bind H; apply get_thread_inv in E as [-> Ht']; simplify_eq; inv_bind H.
  - apply usable_interface_inv in E as (-> & t' & ? & He & _ & Hu). simplify_eq.
    inv_bind H. apply top_of_stack_inv in E as ->.
    erewrite new_interface_ok in H by done. simplify_eq. eexists. split_and!; [done | done |].
    right. eauto 8.
  - apply usable_interface_inv in E as (-> & t' & ? & He & _ & Hu). simplify_eq.
    inv_bind H. apply usable_interface_inv in E as (-> & t'' & ? & _). simplify_eq.
    erewrite new_interface_ok in H by done. simplify_eq. eexists. split_and!; [done | done |].
    right. eauto 8.
  - apply guard_stop_inv in E as [_ ->]. inv_bind H.
    apply usable_interface_inv in E as (-> & t' & ? & _). simplify_eq.
    erewrite new_interface_ok in H by done. simplify_eq. eexists. split_and!; [done | done |].
    by left.
  - apply guard_stop_inv in E as [_ ->]. inv_bind H. apply top_of_stack_inv in E as ->.
    erewrite new_interface_ok in H by done. simplify_eq. eexists. split_and!; [done | done |].
    by left.
Qed.

Lemma interface_calls_authority_witness :
  let e n := set_free_next n (set_free_marker free_marker_value (MkInterface 0 0 0 0)) in
  let t := set_current_map 6 (set_reg 0 3 blank_thread) in
  let k := put_thread 100 t (set_kernel_last_interface 512 (set_kernel_free_interface 4
             (set_interfaces (<[3 := MkInterface 6 8 64 10]> (<[4 := e 5]> (<[5 := e 0]> ∅)))
                (initial_kstate 0 0)))) in
  ∃ r k', run_interface_call Duplicate_to_return 100 k = Ok r k' ∧
  ∃ n, interfaces k' = <[4 := n]> (interfaces k) ∧ r = ThreadSwitch 100 100 ∧
    (provider n = current_map t ∨
     ∃ i e, interfaces k !! i = Some e ∧ user e = current_map t ∧
       provider n = provider e ∧ handler n = handler e ∧ object n = object e).
Proof.
  intros e t k. do 2 eexists. split; [by vm_compute |].
  eapply (interface_calls_authority Duplicate_to_return k 100 t 4 5 []); [|done |by vm_compute].
  split_and!; [apply (bool_decide_unpack _); by vm_compute | by repeat constructor |].
  repeat (split; [done |]; split; [done |]; eexists; split; [done |]; split; [done |]). done.
Defined.

(** With the table of 512 interfaces that the kernel sets up at boot,
    [interface_from_index] accepts the index 512, one past the last entry, and
    looking at it leaves the table. *)
Theorem interface_index_one_past_the_end :
  let k := set_interfaces (zero_interfaces 512) (initial_kstate 0 0) in
  match new_memory_for_interfaces 512 k with
  | Ok _ k' => interface_from_index k' 512 = Some 512 ∧ interfaces k' !! 512 = None
  | Stop _ _ => False
  end.
Proof. vm_compute. done. Qed.
