(* ===== verification/Maps.v ===== *)
(** * Maps and translation tables

    The part of [secure_el1.c] that loads a map into the core's translation
    tables ([load_system_map], [load_memory_allocator_map], [load_this_map],
    [change_map]) and the one that resolves a fault from the virtual memory blocks
    of the current map ([find_vmb], [find_and_map_memory]); [set_asid] of
    [kernel_translation_tables.c].

    [drivers] is the table of [drivers_info.h], which the build generates; it is a
    parameter.  Writing past the end of a table is [Fault].

    The specification side is a walk of the tables: with [t0sz = 30] a virtual
    address has 34 bits, the level 1 table has 16 entries of 1GB, level 2 entries
    cover 2MB and level 3 entries 4kB. *)

From S2P Require Import Prelude Vmsa SystemServices Kernel Heap Interfaces.
Import Vmsa.

(** One element of the generated table [drivers]. *)
Record driver_info : Type := Driver {
  driver_start : Z; driver_end : Z; code_pages : Z; data_pages : Z }.

Definition offset_of_core_tt_l3 : Z := 4096.
Definition offset_of_core_tt_l2 : Z := 8192.
Definition offset_of_core_tt_l1 : Z := 12288.

Definition max_physical_memory_gb : Z := 8.
Definition max_physical_memory : Z := max_physical_memory_gb * 2 ^ 30.

(** [table[i] = v], or a write outside the table. *)
Definition store_entry (table : Core → list Z) (set : list Z → Core → Core) (i v : Z) : K unit :=
  c ← get_core;
  if bool_decide (0 ≤ i < Z.of_nat (length (table c)))
  then upd_core (set (<[Z.to_nat i := v]> (table c)))
  else halt (Fault i).

Definition set_l1 (i v : Z) : K unit := store_entry core_tt_l1 set_core_tt_l1 i v.
Definition set_l2 (i v : Z) : K unit := store_entry core_tt_l2 set_core_tt_l2 i v.
Definition set_l3 (i v : Z) : K unit := store_entry core_tt_l3 set_core_tt_l3 i v.

Definition l2_table (c : Core) : Z := physical_address c + offset_of_core_tt_l2.
Definition l3_table (c : Core) : Z := physical_address c + offset_of_core_tt_l3.

(** The attribute assignments that follow the permissions of most entries. *)
Definition finish_entry (share entry : Z) : Z :=
  put access_flag 1 (put not_global 1 (put shareability share entry)).

(** ** The system map *)
Definition set_shared_entry (i entry : Z) : K unit :=
  m ← gets shared_system_map;
  if bool_decide (0 ≤ i < Z.of_nat (length m))
  then modify (set_shared_system_map (<[Z.to_nat i := entry]> m))
  else halt (Fault i).

Definition initialise_system_map (driver : driver_info) : K unit :=
  let system_code_start := driver_start driver in
  let system_data_start := system_code_start + Z.shiftl (code_pages driver) 12 in
  _ ← for_range (Z.to_nat (code_pages driver)) 0 (λ i,
        let entry := Aarch64_VMSA_page_at (system_code_start + Z.shiftl i 12) in
        let entry := Aarch64_VMSA_el0_r_x entry in
        let entry := Aarch64_VMSA_write_back_memory entry in
        set_shared_entry i (finish_entry 0 entry));
  _ ← for_range (Z.to_nat (data_pages driver)) 0 (λ i,
        let entry := Aarch64_VMSA_page_at (system_data_start + Z.shiftl i 12) in
        let entry := Aarch64_VMSA_el0_rw_ entry in
        let entry := Aarch64_VMSA_write_back_memory entry in
        set_shared_entry (code_pages driver + i) (finish_entry 3 entry));
  let index := code_pages driver + data_pages driver in
  _ ← modify (set_shared_system_map_core_page index);
  modify (set_shared_system_map_mapped_pages (index + 1)).

Definition load_system_map : K unit :=
  c ← get_core;
  _ ← set_l1 0 (Aarch64_VMSA_subtable_at (l2_table c));
  _ ← set_l2 0 (Aarch64_VMSA_subtable_at (l3_table c));
  mapped ← gets shared_system_map_mapped_pages;
  _ ← for_range (Z.to_nat mapped) 0 (λ i,
        m ← gets shared_system_map;
        match m !! Z.to_nat i with
        | Some entry => set_l3 i entry
        | None => halt (Fault i)
        end);
  let entry := Aarch64_VMSA_page_at (physical_address c) in
  let entry := Aarch64_VMSA_el0_rw_ entry in
  let entry := Aarch64_VMSA_write_back_memory entry in
  core_page ← gets shared_system_map_core_page;
  _ ← set_l3 core_page (finish_entry 0 entry);
  upd_core (set_loaded_map system_map_index).

(** ** The physical memory allocator's map *)
Definition allocator_block (i : Z) : Z :=
  let entry := Aarch64_VMSA_block_at (Z.shiftl i 30) in
  let entry := Aarch64_VMSA_el0_rw_ entry in
  let entry := Aarch64_VMSA_uncached_memory entry in
  finish_entry 0 entry.

Definition allocator_code_page (start i : Z) : Z :=
  let entry := Aarch64_VMSA_page_at (start + Z.shiftl i 12) in
  let entry := Aarch64_VMSA_el0_r_x entry in
  let entry := Aarch64_VMSA_write_back_memory entry in
  finish_entry 1 entry.

Definition allocator_data_page (start i : Z) : Z :=
  let entry := Aarch64_VMSA_page_at (start + Z.shiftl i 12) in
  let entry := Aarch64_VMSA_el0_rw_ entry in
  let entry := Aarch64_VMSA_write_back_memory entry in
  finish_entry 1 entry.

Definition load_memory_allocator_map (driver : driver_info) : K unit :=
  _ ← for_range (Z.to_nat max_physical_memory_gb) 0 (λ i, set_l1 i (allocator_block i));
  c ← get_core;
  _ ← set_l1 max_physical_memory_gb (Aarch64_VMSA_subtable_at (l2_table c));
  _ ← set_l2 0 (Aarch64_VMSA_subtable_at (l3_table c));
  let code_start := driver_start driver in
  let data_start := code_start + Z.shiftl (code_pages driver) 12 in
  _ ← for_range (Z.to_nat (code_pages driver)) 0 (λ i,
        set_l3 i (allocator_code_page code_start i));
  _ ← for_range (Z.to_nat (data_pages driver)) 0 (λ i,
        set_l3 (i + code_pages driver) (allocator_data_page data_start i));
  upd_core (set_loaded_map memory_allocator_map_index).

(** ** Changing map *)
Definition clear_core_translation_tables : K unit :=
  upd_core (λ c,
    let c := set_core_tt_l3 (replicate (length (core_tt_l3 c)) Aarch64_VMSA_invalid) c in
    let c := set_core_tt_l2 (replicate (length (core_tt_l2 c)) Aarch64_VMSA_invalid) c in
    set_core_tt_l1 (replicate (length (core_tt_l1 c)) Aarch64_VMSA_invalid) c).

Definition asid_of (map : Z) : Z := map.

(** [asm ( "svc 0x1" )] at EL1 is an exception the kernel does not expect. *)
Definition set_asid (asid : Z) : K unit :=
  _ ← guard_stop (bool_decide (0x10000 ≤ asid)) (Bsod 542);
  upd_core (λ c, set_ttbr0_el1
    (Z.lor (u64 (Z.shiftl asid 48)) (physical_address c + offset_of_core_tt_l1)) c).

Section with_drivers.
(** [drivers[0]] is the system driver, [drivers[1]] the memory allocator. *)
Context (drivers : list driver_info).

Definition driver_at (n : nat) : driver_info :=
  nth n drivers (Driver 0 0 0 0).

Definition load_this_map (new_map : Z) : K unit :=
  c ← get_core;
  when (bool_decide (loaded_map c ≠ new_map)) (
    _ ← clear_core_translation_tables;
    _ ← when (bool_decide (new_map = memory_allocator_map_index))
          (load_memory_allocator_map (driver_at 1));
    _ ← when (bool_decide (new_map = system_map_index)) load_system_map;
    _ ← upd_core (set_loaded_map new_map);
    set_asid (asid_of new_map)).

Definition change_map (thread new_map : Z) : K unit :=
  t ← get_thread thread;
  last ← gets kernel_last_interface;
  _ ← guard_stop (bool_decide (current_map t > last)) (Bsod 523);
  _ ← guard_stop (bool_decide (new_map > last)) (Bsod 526);
  c ← get_core;
  _ ← when (bool_decide (loaded_map c ≠ new_map)) (load_this_map new_map);
  c ← get_core;
  _ ← guard_stop (bool_decide (loaded_map c ≠ new_map)) (Bsod 534);
  upd_thread thread (set_current_map new_map).
End with_drivers.

(** ** Resolving a fault *)
Definition level1_lsb : Z := 12 + 9 + 9.
Definition level2_lsb : Z := 12 + 9.
Definition level3_lsb : Z := 12.

Definition with_virtual_memory_attrs (entry vmb : Z) : Z :=
  let entry := put shareability 3 entry in
  let entry := put not_global 1 entry in
  let entry := put access_flag 1 entry in
  if bool_decide (get vmb_read_only vmb ≠ 0) then
    if bool_decide (get vmb_executable vmb ≠ 0) then Aarch64_VMSA_el0_r_x entry
    else Aarch64_VMSA_el0_ro_ entry
  else
    if bool_decide (get vmb_executable vmb ≠ 0) then Aarch64_VMSA_el0_rwx entry
    else Aarch64_VMSA_el0_rw_ entry.

Definition with_physical_memory_attrs (entry cmb : Z) : Z :=
  put memory_type (get cmb_memory_type cmb) entry.

(** [while (vmb->page_count > 0) { ...; vmb++; }].  The heap ends at
    [top_of_heap]; the fuel is the number of words up to there. *)
Definition top_of_heap : Z := start_address + top_of_kernel_working_memory.

Fixpoint find_vmb_loop (fuel : nat) (vmb fa_page : Z) : K (option Z) :=
  match fuel with
  | O => halt (Fault vmb)
  | S fuel =>
      v ← gets (λ k, heap_word k vmb);
      if bool_decide (get vmb_page_count v > 0) then
        let page_offset := s64 (fa_page - get vmb_start_page v) in
        if bool_decide (0 ≤ page_offset ∧ page_offset < get vmb_page_count v)
        then mret (Some v)
        else find_vmb_loop fuel (vmb + 8) fa_page
      else mret None
  end.

Definition find_vmb (thread fa : Z) : K (option Z) :=
  let fa_page := Z.shiftr fa level3_lsb in
  t ← get_thread thread;
  map ← get_interface (current_map t);
  let mv := object map in
  let vmb := heap_pointer_from_offset_lsr4 (get mv_heap_offset_lsr4 mv) in
  k ← gets id;
  _ ← guard_stop (bool_decide (get mv_heap_offset_lsr4 mv >
        Z.shiftr (u32 (kernel_heap_top k - kernel_heap_bottom k)) 4)) (Bsod 598);
  find_vmb_loop (Z.to_nat ((top_of_heap - vmb) / 8)) vmb fa_page.

Definition is_l1_aligned (start_page page_count : Z) : bool :=
  bool_decide (0 = Z.land start_page (Z.shiftl 1 18 - 1)) &&
  bool_decide (0 = Z.land page_count (Z.shiftl 1 18 - 1)).

Definition is_l2_aligned (start_page page_count : Z) : bool :=
  bool_decide (0 = Z.land start_page (Z.shiftl 1 9 - 1)) &&
  bool_decide (0 = Z.land page_count (Z.shiftl 1 9 - 1)).

(** [field << 12] of a 24-bit bit-field, which C computes as an [int]. *)
Definition int_shl_12 (x : Z) : Z := u64 (s32 (Z.shiftl x 12)).

(** [(fa - virtual_memory_start) & (-1ull << lsb)] *)
Definition masked_offset (fa virtual_memory_start lsb : Z) : Z :=
  Z.land (u64 (fa - virtual_memory_start)) (u64 (Z.shiftl (-1) lsb)).

Definition table_index (fa lsb : Z) : Z := Z.land (Z.shiftr fa lsb) 511.

Definition find_and_map_memory (thread fa : Z) : K bool :=
  t ← get_thread thread;
  _ ← guard_stop (bool_decide (current_map t = system_map_index)) (Bsod 627);
  _ ← guard_stop (bool_decide (current_map t = memory_allocator_map_index)) (Bsod 630);
  found ← find_vmb thread fa;
  match found with
  | None => halt (Smc 3)
  | Some vmb =>
      k ← gets id;
      match interface_from_index k (get vmb_memory_block vmb) with
      | None => halt (Bsod 643)
      | Some i =>
          memory_provider ← get_interface i;
          if bool_decide (provider memory_provider = system_map_index ∧
                          handler memory_provider = System_Service_PhysicalMemoryBlock) then
            let cmb := object memory_provider in
            let physical_memory_start := int_shl_12 (get cmb_start_page cmb) in
            let virtual_memory_start := int_shl_12 (get vmb_start_page vmb) in
            let attrs entry :=
              with_virtual_memory_attrs (with_physical_memory_attrs entry cmb) vmb in
            let address lsb :=
              u64 (physical_memory_start + masked_offset fa virtual_memory_start lsb) in
            c ← get_core;
            _ ← (if is_l1_aligned (get vmb_start_page vmb) (get vmb_page_count vmb) &&
                    is_l1_aligned (get cmb_start_page cmb) (get cmb_page_count cmb) then
                   set_l1 (table_index fa level1_lsb)
                     (attrs (Aarch64_VMSA_block_at (address level1_lsb)))
                 else
                   _ ← set_l1 (table_index fa level1_lsb) (Aarch64_VMSA_subtable_at (l2_table c));
                   if is_l2_aligned (get vmb_start_page vmb) (get vmb_page_count vmb) &&
                      is_l2_aligned (get cmb_start_page cmb) (get cmb_page_count cmb) then
                     set_l2 (table_index fa level2_lsb)
                       (attrs (Aarch64_VMSA_block_at (address level2_lsb)))
                   else
                     _ ← set_l2 (table_index fa level2_lsb)
                           (Aarch64_VMSA_subtable_at (l3_table c));
                     set_l3 (table_index fa level3_lsb)
                       (attrs (Aarch64_VMSA_page_at (address level3_lsb))));
            mret true
          else halt (Bsod 691)
      end
  end.

(** ** The walk the MMU makes *)
Definition in_tables (c : Core) (address : Z) : option (list Z) :=
  if bool_decide (address = l2_table c) then Some (core_tt_l2 c)
  else if bool_decide (address = l3_table c) then Some (core_tt_l3 c)
  else None.

Definition leaf (lsb entry va : Z) : option (Z * Z) :=
  if bool_decide (get access_flag entry = 1)
  then Some (output_address entry - output_address entry mod 2 ^ lsb + va mod 2 ^ lsb, entry)
  else None.

(** The physical address of [va] and the descriptor that gave it. *)
Definition walk (c : Core) (va : Z) : option (Z * Z) :=
  if bool_decide (0 ≤ va < 2 ^ 34) then
    e1 ← core_tt_l1 c !! Z.to_nat (table_index va level1_lsb);
    if bool_decide (get type e1 = 1) then leaf level1_lsb e1 va
    else if bool_decide (get type e1 = 3) then
      t2 ← in_tables c (output_address e1);
      e2 ← t2 !! Z.to_nat (table_index va level2_lsb);
      if bool_decide (get type e2 = 1) then leaf level2_lsb e2 va
      else if bool_decide (get type e2 = 3) then
        t3 ← in_tables c (output_address e2);
        e3 ← t3 !! Z.to_nat (table_index va level3_lsb);
        if bool_decide (get type e3 = 3) then leaf level3_lsb e3 va else None
      else None
    else None
  else None.

(** [AT S1E0W] followed by a read of [PAR_EL1]: the physical page when EL0 may write
    to the address, and bit 0 when it may not. *)
Definition at_s1e0w (c : Core) (va : Z) : Z :=
  match walk c va with
  | Some (pa, e) => if el0_write (rights_of e) then Z.land pa 0x000ffffffffff000 else 1
  | None => 1
  end.

(** The shape of a core's tables, which no operation changes. *)
Definition core_ok (c : Core) : Prop :=
  length (core_tt_l1 c) = 16%nat ∧ length (core_tt_l2 c) = 512%nat ∧
  length (core_tt_l3 c) = 512%nat ∧
  0 ≤ physical_address c < 2 ^ 48 ∧ physical_address c mod 4096 = 0.

(** The virtual memory block [v] covers the address [va]. *)
Definition covers (v va : Z) : Prop :=
  get vmb_start_page v ≤ va / 4096 < get vmb_start_page v + get vmb_page_count v.

(** The size of the translation that [find_and_map_memory] chooses. *)
Definition granule (vmb cmb : Z) : Z :=
  if is_l1_aligned (get vmb_start_page vmb) (get vmb_page_count vmb) &&
     is_l1_aligned (get cmb_start_page cmb) (get cmb_page_count cmb) then level1_lsb
  else if is_l2_aligned (get vmb_start_page vmb) (get vmb_page_count vmb) &&
          is_l2_aligned (get cmb_start_page cmb) (get cmb_page_count cmb) then level2_lsb
  else level3_lsb.

(** The access a virtual memory block promises to EL0. *)
Definition vmb_rights (v entry : Z) : Prop :=
  el0_read (rights_of entry) = true ∧
  el0_write (rights_of entry) = bool_decide (get vmb_read_only v = 0) ∧
  el0_execute entry = bool_decide (get vmb_executable v = 1).

(** ** User addresses *)
Definition address_is_user_writable (thread address : Z) : K bool :=
  c ← get_core;
  if bool_decide (0 = Z.land (at_s1e0w c address) 1) then mret true
  else
    mapped ← find_and_map_memory thread address;
    if (mapped : bool) then
      c ← get_core;
      mret (bool_decide (0 = Z.land (at_s1e0w c address) 1))
    else mret false.

(** *** Arithmetic of the masks *)
Lemma high_mask x n : is_u64 x → 0 ≤ n < 64 → Z.land x (u64 (Z.shiftl (-1) n)) = x - x mod 2 ^ n.
Proof.
  intros Hx Hn. rewrite <- (Z.land_ones x n) by lia.
  assert (Z.land x (u64 (Z.shiftl (-1) n)) = Z.ldiff x (Z.ones n)) as ->.
  { apply Z.bits_inj_iff'. intros i Hi. unfold u64.
    rewrite Z.land_spec, Z.ldiff_spec, ones_testbit by lia.
    destruct (decide (i < 64)).
    - rewrite Z.mod_pow2_bits_low, Z.shiftl_spec by lia. f_equal. case_bool_decide.
      + by rewrite Z.testbit_neg_r by lia.
      + by rewrite Z.bits_m1 by lia.
    - rewrite (testbit_above x 64) by (unfold is_u64 in *; lia). done. }
  rewrite Z.ldiff_ones_r, Z.land_ones, Z.shiftr_div_pow2, Z.shiftl_mul_pow2 by lia.
  pose proof (Z.div_mod x (2 ^ n)). lia.
Qed.

Lemma land_ones_511 x : Z.land x 511 = x mod 512.
Proof. change 511 with (Z.ones 9). by rewrite Z.land_ones by lia. Qed.

Lemma table_index_range va lsb : 0 ≤ table_index va lsb < 512.
Proof. unfold table_index. rewrite land_ones_511. by apply Z.mod_pos_bound. Qed.

Lemma aligned_iff (n start count : Z) :
  0 ≤ n →
  (bool_decide (0 = Z.land start (Z.shiftl 1 n - 1)) &&
   bool_decide (0 = Z.land count (Z.shiftl 1 n - 1)) = true) ↔
  start mod 2 ^ n = 0 ∧ count mod 2 ^ n = 0.
Proof.
  intros Hn. rewrite Z.shiftl_1_l.
  replace (2 ^ n - 1) with (Z.ones n) by (rewrite Z.ones_equiv; lia).
  rewrite !Z.land_ones by lia. rewrite andb_true_iff, !bool_decide_eq_true. lia.
Qed.

(** ** The block table of a map *)
#[global] Instance covers_dec v va : Decision (covers v va).
Proof. unfold covers. apply _. Defined.

(** The words from [p] on are the blocks [vs] and a terminator. *)
Fixpoint vmb_table (k : kstate) (p : Z) (vs : list Z) : Prop :=
  match vs with
  | [] => p + 8 ≤ top_of_heap ∧ get vmb_page_count (heap_word k p) = 0
  | v :: vs => heap_word k p = v ∧ 0 < get vmb_page_count v ∧ vmb_table k (p + 8) vs
  end.

(** The thread runs in a map whose blocks are [vs]. *)
Definition has_map (k : kstate) (thread : Z) (vs : list Z) : Prop :=
  ∃ t e, threads k !! thread = Some t ∧ interfaces k !! current_map t = Some e ∧
    current_map t ≠ system_map_index ∧ current_map t ≠ memory_allocator_map_index ∧
    get mv_heap_offset_lsr4 (object e) ≤ Z.shiftr (u32 (kernel_heap_top k - kernel_heap_bottom k)) 4 ∧
    vmb_table k (heap_pointer_from_offset_lsr4 (get mv_heap_offset_lsr4 (object e))) vs.

Lemma vmb_table_bound k p vs : vmb_table k p vs → p + 8 * (Z.of_nat (length vs) + 1) ≤ top_of_heap.
Proof.
  revert p. induction vs as [|v vs IH]; intros p; simpl; [lia |].
  intros (_ & _ & H). apply IH in H. lia.
Qed.

Lemma find_vmb_loop_first k fuel p vs fa :
  vmb_table k p vs → is_u64 fa → (length vs < fuel)%nat →
  find_vmb_loop fuel p (Z.shiftr fa level3_lsb) k = Ok (head (filter (λ v, covers v fa) vs)) k.
Proof.
  intros Ht Hfa. revert fuel p Ht.
  induction vs as [|v vs IH]; intros fuel p Ht Hfuel;
    (destruct fuel as [|fuel]; [simpl in Hfuel; lia |]); cbn [find_vmb_loop].
  - destruct Ht as [_ Ht]. unfold mbind, M_bind, gets. rewrite Ht. done.
  - destruct Ht as (Hv & Hc & Ht). unfold mbind, M_bind, gets. rewrite Hv.
    rewrite bool_decide_eq_true_2 by lia.
    rewrite Z.shiftr_div_pow2 by (unfold level3_lsb; lia). change (2 ^ level3_lsb) with 4096.
    pose proof (get_bits_range 0 24 v). 
    assert (0 ≤ fa / 4096 < 2 ^ 52).
    { unfold is_u64 in Hfa. split; [apply Z.div_pos; lia | apply Z.div_lt_upper_bound; lia]. }
    rewrite s64_id by (unfold get, vmb_start_page; simpl; lia).
    rewrite filter_cons. case_decide as Hcov.
    + rewrite bool_decide_eq_true_2; [done |]. unfold covers in Hcov. lia.
    + rewrite bool_decide_eq_false_2 by (unfold covers in Hcov; lia).
      specialize (IH fuel (p + 8) Ht). rewrite Z.shiftr_div_pow2 in IH by (unfold level3_lsb; lia).
      apply IH. simpl in Hfuel. lia.
Qed.

Lemma find_vmb_spec k thread vs fa :
  has_map k thread vs → is_u64 fa →
  find_vmb thread fa k = Ok (head (filter (λ v, covers v fa) vs)) k.
Proof.
  intros (t & e & Ht & He & _ & _ & Hoff & Htab) Hfa. unfold find_vmb.
  erewrite bind_ok by by apply get_thread_ok.
  erewrite bind_ok by by apply get_interface_ok.
  run. rewrite bool_decide_eq_false_2 by lia.
  apply find_vmb_loop_first; [done | done |].
  apply vmb_table_bound in Htab.
  set (p := heap_pointer_from_offset_lsr4 _) in *.
  assert (Z.of_nat (length vs) + 1 ≤ (top_of_heap - p) / 8); [|lia].
  apply Z.div_le_lower_bound; lia.
Qed.

(** ** The entries that are installed *)
(** Whatever the block's flags are, four attribute bits are written last. *)
Lemma virtual_attrs_permissions entry v :
  with_virtual_memory_attrs entry v =
    let ro := if bool_decide (get vmb_read_only v ≠ 0) then 1 else 0 in
    let xn := if bool_decide (get vmb_executable v ≠ 0) then 0 else 1 in
    put_permissions (Some xn) xn ro 1
      (put access_flag 1 (put not_global 1 (put shareability 3 entry))).
Proof. unfold with_virtual_memory_attrs. by do 2 destruct (bool_decide _). Qed.

Lemma get_virtual_attrs f entry v :
  (0 ≤ field_lo f ∧ 0 ≤ field_width f) →
  (field_lo f + field_width f ≤ 6 ∨ (12 ≤ field_lo f ∧ field_lo f + field_width f ≤ 53)) →
  get f (with_virtual_memory_attrs entry v) = get f entry.
Proof.
  intros Hf0 Hf. rewrite virtual_attrs_permissions. destruct Hf0.
  rewrite get_put_permissions by lia. by simp_vmsa.
Qed.

Lemma one_bit f r : field_width f = 1 → get f r = 0 ∨ get f r = 1.
Proof. intros E. pose proof (get_bits_range (field_lo f) (field_width f) r). unfold get. rewrite E in *. lia. Qed.

Lemma virtual_attrs_rights entry v :
  vmb_rights v (with_virtual_memory_attrs entry v) ∧
  get access_flag (with_virtual_memory_attrs entry v) = 1.
Proof.
  rewrite virtual_attrs_permissions. cbv zeta.
  split; [|rewrite get_put_permissions by (simpl; lia); by simp_vmsa].
  set (e := put access_flag 1 _).
  unfold vmb_rights, rights_of, el0_execute. cbn [el0_read el0_write].
  destruct (one_bit vmb_read_only v eq_refl) as [-> | ->];
  destruct (one_bit vmb_executable v eq_refl) as [-> | ->];
  cbn [bool_decide decide_rel];
  match goal with |- context [put_permissions (Some ?p) ?u ?r ?a e] =>
    destruct (put_permissions_rights (Some p) u r a e) as (-> & -> & -> & _);
      [by vm_compute | by vm_compute | by vm_compute | by intros ? [= <-] |]
  end; done.
Qed.

(** A leaf made from the physical address [a] by [find_and_map_memory]. *)
Definition leaf_entry (ty a cmb vmb : Z) : Z :=
  with_virtual_memory_attrs (with_physical_memory_attrs (put type ty a) cmb) vmb.

Lemma leaf_entry_spec ty a cmb vmb :
  0 ≤ ty < 4 → 0 ≤ a < 2 ^ 51 → a mod 4096 = 0 →
  let e := leaf_entry ty a cmb vmb in
  get type e = ty ∧ get access_flag e = 1 ∧ output_address e = a ∧
  vmb_rights vmb e ∧ get memory_type e = get cmb_memory_type cmb.
Proof.
  intros Hty Ha Hal e. unfold e, leaf_entry.
  destruct (virtual_attrs_rights (with_physical_memory_attrs (put type ty a) cmb) vmb) as [Hr Hf].
  pose proof (get_bits_range 61 3 cmb).
  assert (0 ≤ get cmb_memory_type cmb < 8) by (unfold get, cmb_memory_type; simpl; lia).
  split_and!; try done.
  - rewrite get_virtual_attrs by (simpl; lia). unfold with_physical_memory_attrs. by simp_vmsa.
  - unfold output_address. rewrite get_virtual_attrs by (simpl; lia).
    unfold with_physical_memory_attrs. simp_vmsa. by apply page_number_of.
  - rewrite get_virtual_attrs by (simpl; lia). unfold with_physical_memory_attrs. by simp_vmsa.
Qed.

(** A leaf whose address is aligned to its size translates by adding the offset. *)
Lemma leaf_aligned lsb ty a cmb vmb va :
  0 ≤ ty < 4 → 12 ≤ lsb → 0 ≤ a < 2 ^ 51 → a mod 2 ^ lsb = 0 →
  leaf lsb (leaf_entry ty a cmb vmb) va = Some (a + va mod 2 ^ lsb, leaf_entry ty a cmb vmb).
Proof.
  intros Hty Hlsb Ha Hal.
  assert (a mod 4096 = 0).
  { apply Z.mod_divide in Hal as [q ->]; [|lia]. change 4096 with (2 ^ 12).
    replace lsb with (lsb - 12 + 12) by lia. rewrite Z.pow_add_r, Z.mul_assoc by lia.
    apply Z.mod_mul. lia. }
  destruct (leaf_entry_spec ty a cmb vmb) as (_ & Hf & Ho & _); [done..|].
  unfold leaf. rewrite bool_decide_eq_true_2 by done. rewrite Ho. do 3 f_equal. lia.
Qed.

(** ** Storing entries *)
Lemma store_entry_ok k table set i v :
  0 ≤ i < Z.of_nat (length (table (core k))) →
  store_entry table set i v k =
    Ok () (set_core (set (<[Z.to_nat i := v]> (table (core k))) (core k)) k).
Proof.
  intros Hi. unfold store_entry, get_core. run. by rewrite bool_decide_eq_true_2.
Qed.

(** Storing entries keeps the shape of the tables. *)
Lemma core_ok_set_l1 c i e : core_ok c → core_ok (set_core_tt_l1 (<[i := e]> (core_tt_l1 c)) c).
Proof. unfold core_ok. cbn [set_core_tt_l1 set_core_tt_l2 set_core_tt_l3 core_tt_l1 core_tt_l2 core_tt_l3 physical_address]. by rewrite length_insert. Qed.
Lemma core_ok_set_l2 c i e : core_ok c → core_ok (set_core_tt_l2 (<[i := e]> (core_tt_l2 c)) c).
Proof. unfold core_ok. cbn [set_core_tt_l1 set_core_tt_l2 set_core_tt_l3 core_tt_l1 core_tt_l2 core_tt_l3 physical_address]. by rewrite length_insert. Qed.
Lemma core_ok_set_l3 c i e : core_ok c → core_ok (set_core_tt_l3 (<[i := e]> (core_tt_l3 c)) c).
Proof. unfold core_ok. cbn [set_core_tt_l1 set_core_tt_l2 set_core_tt_l3 core_tt_l1 core_tt_l2 core_tt_l3 physical_address]. by rewrite length_insert. Qed.

Lemma table_index_div va lsb : 0 ≤ lsb → table_index va lsb = (va / 2 ^ lsb) mod 512.
Proof. intros. unfold table_index. by rewrite land_ones_511, Z.shiftr_div_pow2. Qed.

Lemma subtable_entry a :
  0 ≤ a < 2 ^ 51 → a mod 4096 = 0 →
  get type (Aarch64_VMSA_subtable_at a) = 3 ∧ output_address (Aarch64_VMSA_subtable_at a) = a.
Proof.
  intros. unfold Aarch64_VMSA_subtable_at. split; [by simp_vmsa | by apply put_type_address].
Qed.

Lemma tables_aligned c : core_ok c →
  (0 ≤ l2_table c < 2 ^ 51 ∧ l2_table c mod 4096 = 0) ∧
  (0 ≤ l3_table c < 2 ^ 51 ∧ l3_table c mod 4096 = 0).
Proof.
  intros (_ & _ & _ & Hp & Ha).
  unfold l2_table, l3_table, offset_of_core_tt_l2, offset_of_core_tt_l3.
  split; (split; [lia |]).
  - replace 8192 with (2 * 4096) by lia. by rewrite Z.mod_add by lia.
  - replace (physical_address c + 4096) with (physical_address c + 1 * 4096) by lia.
    by rewrite Z.mod_add by lia.
Qed.

Lemma in_tables_l2 c : in_tables c (l2_table c) = Some (core_tt_l2 c).
Proof. unfold in_tables. by rewrite bool_decide_eq_true_2. Qed.

Lemma in_tables_l3 c : in_tables c (l3_table c) = Some (core_tt_l3 c).
Proof.
  unfold in_tables. rewrite bool_decide_eq_false_2.
  - by rewrite bool_decide_eq_true_2.
  - unfold l3_table, l2_table, offset_of_core_tt_l2, offset_of_core_tt_l3. lia.
Qed.

(** The three kinds of walk. *)
Section walks.
Context (c : Core) (Hc : core_ok c) (va : Z) (Hva : 0 ≤ va < 2 ^ 34).

Lemma walk_l1 e :
  core_tt_l1 c !! Z.to_nat (table_index va level1_lsb) = Some e → get type e = 1 →
  walk c va = leaf level1_lsb e va.
Proof.
  intros H1 Ht. unfold walk. rewrite bool_decide_eq_true_2 by done. rewrite H1.
  cbn [mbind option_bind]. by rewrite bool_decide_eq_true_2.
Qed.

Lemma walk_sub1 :
  core_tt_l1 c !! Z.to_nat (table_index va level1_lsb) =
    Some (Aarch64_VMSA_subtable_at (l2_table c)) →
  walk c va =
    e2 ← core_tt_l2 c !! Z.to_nat (table_index va level2_lsb);
    if bool_decide (get type e2 = 1) then leaf level2_lsb e2 va
    else if bool_decide (get type e2 = 3) then
      t3 ← in_tables c (output_address e2);
      e3 ← t3 !! Z.to_nat (table_index va level3_lsb);
      if bool_decide (get type e3 = 3) then leaf level3_lsb e3 va else None
    else None.
Proof.
  intros H1. destruct (tables_aligned c Hc) as [[Hr Ha] _].
  destruct (subtable_entry (l2_table c)) as [Ht Ho]; [done..|].
  unfold walk. rewrite bool_decide_eq_true_2 by done. rewrite H1. cbn [mbind option_bind].
  rewrite Ht, Ho, in_tables_l2. done.
Qed.

Lemma walk_l2 e :
  core_tt_l1 c !! Z.to_nat (table_index va level1_lsb) =
    Some (Aarch64_VMSA_subtable_at (l2_table c)) →
  core_tt_l2 c !! Z.to_nat (table_index va level2_lsb) = Some e → get type e = 1 →
  walk c va = leaf level2_lsb e va.
Proof.
  intros H1 H2 Ht. rewrite walk_sub1 by done. rewrite H2. cbn [mbind option_bind].
  by rewrite bool_decide_eq_true_2.
Qed.

Lemma walk_l3 e :
  core_tt_l1 c !! Z.to_nat (table_index va level1_lsb) =
    Some (Aarch64_VMSA_subtable_at (l2_table c)) →
  core_tt_l2 c !! Z.to_nat (table_index va level2_lsb) =
    Some (Aarch64_VMSA_subtable_at (l3_table c)) →
  core_tt_l3 c !! Z.to_nat (table_index va level3_lsb) = Some e → get type e = 3 →
  walk c va = leaf level3_lsb e va.
Proof.
  intros H1 H2 H3 Ht. rewrite walk_sub1 by done. rewrite H2. cbn [mbind option_bind].
  destruct (tables_aligned c Hc) as [_ [Hr Ha]].
  destruct (subtable_entry (l3_table c)) as [Ht' Ho]; [done..|].
  rewrite Ht', Ho, in_tables_l3. cbn [mbind option_bind bool_decide decide_rel]. rewrite H3.
  cbn [mbind option_bind]. rewrite Ht. done.
Qed.
End walks.

(** ** [find_and_map_memory] *)
Section mapping.
Context (k : kstate) (thread : Z) (vs : list Z) (fa v : Z) (mp : Interface).
Let cmb := object mp.
Let vstart := get vmb_start_page v.
Let cstart := get cmb_start_page cmb.
Context (Hmap : has_map k thread vs) (Hcore : core_ok (core k)) (Hfa : 0 ≤ fa < 2 ^ 34).
Context (Hv : head (filter (λ v, covers v fa) vs) = Some v).
Context (Hlast : get vmb_memory_block v ≤ kernel_last_interface k).
Context (Hmp : interfaces k !! get vmb_memory_block v = Some mp).
Context (Hprov : provider mp = system_map_index).
Context (Hhand : handler mp = System_Service_PhysicalMemoryBlock).
Context (Hvs : vstart < 2 ^ 19) (Hcs : cstart < 2 ^ 19).

Lemma found_covers : covers v fa.
Proof.
  apply head_Some_elem_of in Hv. apply list_elem_of_filter in Hv. tauto.
Qed.

Lemma start_ranges : 0 ≤ vstart ∧ 0 ≤ cstart.
Proof.
  pose proof (get_bits_range 0 24 v). pose proof (get_bits_range 0 24 cmb).
  unfold vstart, cstart, get. simpl. lia.
Qed.

Definition leaf_address (lsb : Z) : Z :=
  u64 (int_shl_12 cstart + masked_offset fa (int_shl_12 vstart) lsb).

Lemma int_shl_12_small x : 0 ≤ x < 2 ^ 19 → int_shl_12 x = x * 4096.
Proof.
  intros. unfold int_shl_12. rewrite Z.shiftl_mul_pow2 by lia. change (2 ^ 12) with 4096.
  rewrite s32_id, u64_id; unfold is_u64; lia.
Qed.

Lemma leaf_address_eq lsb :
  12 ≤ lsb < 34 → (vstart * 4096) mod 2 ^ lsb = 0 → (cstart * 4096) mod 2 ^ lsb = 0 →
  leaf_address lsb = cstart * 4096 + (fa / 2 ^ lsb * 2 ^ lsb - vstart * 4096) ∧
  0 ≤ leaf_address lsb < 2 ^ 51 ∧ leaf_address lsb mod 2 ^ lsb = 0.
Proof.
  intros Hlsb Hvm Hcm. pose proof start_ranges. pose proof found_covers as Hcov.
  assert (vstart * 4096 ≤ fa).
  { unfold covers in Hcov. fold vstart in Hcov. pose proof (Z.mul_div_le fa 4096). lia. }
  unfold leaf_address. rewrite !int_shl_12_small by lia. unfold masked_offset.
  rewrite (u64_id (fa - _)) by (unfold is_u64; lia).
  rewrite high_mask by (unfold is_u64; lia).
  set (p := 2 ^ lsb) in *. assert (0 < p) by (apply Z.pow_pos_nonneg; lia).
  assert ((fa - vstart * 4096) mod p = fa mod p) as ->.
  { apply Z.mod_divide in Hvm as [q ->]; [|lia].
    replace (fa - q * p) with (fa + (- q) * p) by lia. by rewrite Z.mod_add by lia. }
  pose proof (Z.div_mod fa p). pose proof (Z.mod_pos_bound fa p).
  apply Z.mod_divide in Hvm as [q Hq]; [|lia]. apply Z.mod_divide in Hcm as [r Hr]; [|lia].
  assert (0 ≤ fa - vstart * 4096 - fa mod p).
  { rewrite Hq in *. replace (fa - q * p - fa mod p) with ((fa / p - q) * p) by lia.
    assert (q ≤ fa / p) by (apply Z.div_le_lower_bound; lia). nia. }
  rewrite u64_id by (unfold is_u64; lia). split_and!; try lia.
  rewrite Hq, Hr. replace (r * p + (fa - q * p - fa mod p)) with ((r + fa / p - q) * p) by lia.
  apply Z.mod_mul. lia.
Qed.

(** The code down to the choice of the granule. *)
Definition install : K unit :=
  if is_l1_aligned vstart (get vmb_page_count v) && is_l1_aligned cstart (get cmb_page_count cmb)
  then set_l1 (table_index fa level1_lsb) (leaf_entry 1 (leaf_address level1_lsb) cmb v)
  else
    _ ← set_l1 (table_index fa level1_lsb) (Aarch64_VMSA_subtable_at (l2_table (core k)));
    if is_l2_aligned vstart (get vmb_page_count v) && is_l2_aligned cstart (get cmb_page_count cmb)
    then set_l2 (table_index fa level2_lsb) (leaf_entry 1 (leaf_address level2_lsb) cmb v)
    else
      _ ← set_l2 (table_index fa level2_lsb) (Aarch64_VMSA_subtable_at (l3_table (core k)));
      set_l3 (table_index fa level3_lsb) (leaf_entry 3 (leaf_address level3_lsb) cmb v).

Lemma find_and_map_memory_install k' :
  install k = Ok () k' → find_and_map_memory thread fa k = Ok true k'.
Proof.
  intros Hi. destruct Hmap as (t & e & Ht & _ & Hs & Hm & _).
  unfold find_and_map_memory. erewrite bind_ok by by apply get_thread_ok.
  rewrite (bool_decide_eq_false_2 _ Hs), (bool_decide_eq_false_2 _ Hm).
  do 2 (erewrite bind_ok by done).
  erewrite bind_ok by (apply (find_vmb_spec _ _ vs); [done | unfold is_u64; lia]).
  rewrite Hv. erewrite bind_ok by done.
  assert (interface_from_index (id k) (get vmb_memory_block v) = Some (get vmb_memory_block v)) as ->.
  { unfold interface_from_index, id. pose proof (get_bits_range 46 18 v).
    rewrite u32_id by (unfold is_u32, get; simpl; lia). by rewrite bool_decide_eq_false_2 by lia. }
  erewrite bind_ok by by apply get_interface_ok.
  rewrite bool_decide_eq_true_2 by done. cbv zeta.
  erewrite bind_ok by done. erewrite bind_ok by exact Hi. done.
Qed.

Lemma index_l1 : 0 ≤ table_index fa level1_lsb < 16.
Proof.
  rewrite table_index_div by (unfold level1_lsb; lia). change (2 ^ level1_lsb) with (2 ^ 30).
  assert (0 ≤ fa / 2 ^ 30 < 16); [|rewrite Z.mod_small; lia].
  split; [apply Z.div_pos; lia | apply Z.div_lt_upper_bound; lia].
Qed.

Lemma same_index va lsb lsb' :
  12 ≤ lsb → lsb ≤ lsb' → va / 2 ^ lsb = fa / 2 ^ lsb → table_index va lsb' = table_index fa lsb'.
Proof.
  intros Hl Hll E. rewrite !table_index_div by lia.
  replace (2 ^ lsb') with (2 ^ lsb * 2 ^ (lsb' - lsb)) by (rewrite <- Z.pow_add_r by lia; f_equal; lia).
  rewrite <- !Z.div_div by lia. by rewrite E.
Qed.

(** Every address of the granule is in the block, and its physical address is the
    one at the same distance from the start. *)
Lemma granule_covers lsb va :
  12 ≤ lsb < 34 → vstart mod 2 ^ (lsb - 12) = 0 → get vmb_page_count v mod 2 ^ (lsb - 12) = 0 →
  va / 2 ^ lsb = fa / 2 ^ lsb → covers v va.
Proof.
  intros Hl Hs Hn E. pose proof found_covers as Hcov. unfold covers in *. fold vstart in Hcov |- *.
  set (G := 2 ^ (lsb - 12)) in *. assert (0 < G) by (apply Z.pow_pos_nonneg; lia).
  assert (2 ^ lsb = 4096 * G) as HG.
  { unfold G. change 4096 with (2 ^ 12). rewrite <- Z.pow_add_r by lia. f_equal. lia. }
  rewrite HG, <- !Z.div_div in E by lia.
  apply Z.mod_divide in Hs as [s Hs]; [|lia]. apply Z.mod_divide in Hn as [n Hn]; [|lia].
  rewrite Hs, Hn in *.
  assert (s ≤ fa / 4096 / G < s + n) as Hq.
  { split; [apply Z.div_le_lower_bound; lia | apply Z.div_lt_upper_bound; lia]. }
  rewrite <- E in Hq. pose proof (Z.div_mod (va / 4096) G). pose proof (Z.mod_pos_bound (va / 4096) G).
  nia.
Qed.

Lemma granule_range lsb va : 12 ≤ lsb < 34 → va / 2 ^ lsb = fa / 2 ^ lsb → 0 ≤ va < 2 ^ 34.
Proof.
  intros Hl E. pose proof (Z.div_mod va (2 ^ lsb)). pose proof (Z.mod_pos_bound va (2 ^ lsb)).
  assert (2 ^ 34 = 2 ^ lsb * 2 ^ (34 - lsb)) as H34 by (rewrite <- Z.pow_add_r by lia; f_equal; lia).
  assert (0 < 2 ^ lsb) by (apply Z.pow_pos_nonneg; lia).
  assert (0 ≤ fa / 2 ^ lsb < 2 ^ (34 - lsb)).
  { split; [apply Z.div_pos; lia | apply Z.div_lt_upper_bound; lia]. }
  rewrite E in *. nia.
Qed.

(** A granule whose leaf is the one made by [install] translates as promised. *)
Definition translated (c : Core) (lsb : Z) : Prop :=
  ∀ va, va / 2 ^ lsb = fa / 2 ^ lsb →
    covers v va ∧
    ∃ e, walk c va = Some (cstart * 4096 + (va - vstart * 4096), e) ∧
      vmb_rights v e ∧ get memory_type e = get cmb_memory_type cmb.

Lemma leaf_translates c lsb ty :
  0 ≤ ty < 4 → 12 ≤ lsb < 34 →
  vstart mod 2 ^ (lsb - 12) = 0 → cstart mod 2 ^ (lsb - 12) = 0 →
  get vmb_page_count v mod 2 ^ (lsb - 12) = 0 →
  (∀ va, 0 ≤ va < 2 ^ 34 → va / 2 ^ lsb = fa / 2 ^ lsb →
     walk c va = leaf lsb (leaf_entry ty (leaf_address lsb) cmb v) va) →
  translated c lsb.
Proof.
  intros Hty Hl Hvm Hcm Hnm Hw va E.
  assert (∀ x, x mod 2 ^ (lsb - 12) = 0 → (x * 4096) mod 2 ^ lsb = 0) as Hmul.
  { intros x Hx. replace lsb with (lsb - 12 + 12) at 1 by lia.
    rewrite Z.pow_add_r by lia. change (2 ^ 12) with 4096.
    rewrite Z.mul_mod_distr_r by lia. by rewrite Hx. }
  destruct (leaf_address_eq lsb) as (Ha & Hr & Hal); [done | auto..|].
  split; [by eapply granule_covers |]. eexists. rewrite Hw; [|by eapply granule_range | done].
  rewrite leaf_aligned by (try done; lia). split.
  - do 2 f_equal. rewrite Ha, <- E. pose proof (Z.div_mod va (2 ^ lsb)). lia.
  - destruct (leaf_entry_spec ty (leaf_address lsb) cmb v) as (_ & _ & _ & H1 & H2); try done.
    apply Z.mod_divide in Hal as [q ->]; [|lia].
    replace (2 ^ lsb) with (2 ^ (lsb - 12) * 4096)
      by (change 4096 with (2 ^ 12); rewrite <- Z.pow_add_r by lia; f_equal; lia).
    rewrite Z.mul_assoc. apply Z.mod_mul. lia.
Qed.

Lemma leaf_type lsb ty : 0 ≤ ty < 4 → get type (leaf_entry ty (leaf_address lsb) cmb v) = ty.
Proof.
  intros. unfold leaf_entry. rewrite get_virtual_attrs by (simpl; lia).
  unfold with_physical_memory_attrs. by simp_vmsa.
Qed.

Lemma lookup_index (table : list Z) i e n :
  length table = n → 0 ≤ i < Z.of_nat n → <[Z.to_nat i := e]> table !! Z.to_nat i = Some e.
Proof. intros. apply list_lookup_insert_eq. lia. Qed.

Lemma install_translates :
  ∃ k', install k = Ok () k' ∧ translated (core k') (granule v cmb) ∧
    threads k' = threads k ∧ interfaces k' = interfaces k.
Proof.
  pose proof Hcore as (Hl1 & Hl2 & Hl3 & Hp & Ha). pose proof index_l1 as Hi1.
  pose proof (table_index_range fa level2_lsb) as Hi2.
  pose proof (table_index_range fa level3_lsb) as Hi3.
  unfold install, granule. fold vstart cstart. unfold set_l1, set_l2, set_l3.
  destruct (is_l1_aligned vstart _ && is_l1_aligned cstart _) eqn:A1.
  - rewrite store_entry_ok by (rewrite Hl1; lia). eexists. split; [done |]. split; [|done].
    apply andb_true_iff in A1 as [Av Ac].
    apply aligned_iff in Av as [??]; [|lia]. apply aligned_iff in Ac as [??]; [|lia].
    apply (leaf_translates _ _ 1); try done. intros va Hva E.
    apply walk_l1; [done | | by apply leaf_type].
    rewrite (same_index va level1_lsb level1_lsb) by (unfold level1_lsb; lia || done).
    by eapply lookup_index.
  - erewrite bind_ok by (apply store_entry_ok; rewrite Hl1; lia).
    destruct (is_l2_aligned vstart _ && is_l2_aligned cstart _) eqn:A2.
    + rewrite store_entry_ok by (simpl; rewrite Hl2; lia). eexists. split; [done |]. split; [|done].
      apply andb_true_iff in A2 as [Av Ac].
      apply aligned_iff in Av as [??]; [|lia]. apply aligned_iff in Ac as [??]; [|lia].
      apply (leaf_translates _ _ 1); try done. intros va Hva E.
      apply walk_l2; [by apply core_ok_set_l2, core_ok_set_l1 | done | | | by apply leaf_type].
      * rewrite (same_index va level2_lsb level1_lsb) by (unfold level1_lsb, level2_lsb; lia || done).
        by eapply lookup_index.
      * rewrite (same_index va level2_lsb level2_lsb) by (unfold level2_lsb; lia || done).
        by eapply lookup_index.
    + erewrite bind_ok by (apply store_entry_ok; simpl; rewrite Hl2; lia).
      rewrite store_entry_ok by (simpl; rewrite Hl3; lia). eexists. split; [done |]. split; [|done].
      apply (leaf_translates _ _ 3); try (done || (change (2 ^ (level3_lsb - 12)) with 1; apply Z.mod_1_r)).
      intros va Hva E.
      apply walk_l3; [by apply core_ok_set_l3, core_ok_set_l2, core_ok_set_l1 | done | | | | by apply leaf_type].
      * rewrite (same_index va level3_lsb level1_lsb) by (unfold level1_lsb, level3_lsb; lia || done).
        by eapply lookup_index.
      * rewrite (same_index va level3_lsb level2_lsb) by (unfold level2_lsb, level3_lsb; lia || done).
        by eapply lookup_index.
      * rewrite (same_index va level3_lsb level3_lsb) by (unfold level3_lsb; lia || done).
        by eapply lookup_index.
Qed.
End mapping.

(** ** Switching maps *)
Lemma clear_tables_ok k :
  clear_core_translation_tables k =
    Ok () (set_core (set_core_tt_l1 (replicate (length (core_tt_l1 (core k))) 0)
      (set_core_tt_l2 (replicate (length (core_tt_l2 (core k))) 0)
      (set_core_tt_l3 (replicate (length (core_tt_l3 (core k))) 0) (core k)))) k).
Proof. done. Qed.

Lemma walk_empty_l1 c va n : core_tt_l1 c = replicate n 0 → walk c va = None.
Proof.
  intros E. unfold walk. case_bool_decide; [|done]. rewrite E.
  destruct (replicate n 0 !! _) as [e|] eqn:Ee; [|done].
  apply lookup_replicate in Ee as [-> _]. done.
Qed.

(** No entry of the tables of [c] is left in those of [c']. *)
Record cleared (c c' : Core) : Prop := {
  cleared_l1 : core_tt_l1 c' = replicate (length (core_tt_l1 c)) Aarch64_VMSA_invalid;
  cleared_l2 : core_tt_l2 c' = replicate (length (core_tt_l2 c)) Aarch64_VMSA_invalid;
  cleared_l3 : core_tt_l3 c' = replicate (length (core_tt_l3 c)) Aarch64_VMSA_invalid;
}.

(** Loading tables only ever changes the core. *)
Definition only_core (k k' : kstate) : Prop := k' = set_core (core k') k.

#[global] Instance only_core_preorder : PreOrder only_core.
Proof.
  split; unfold only_core; [by intros [] |]. intros k1 k2 k3 -> ->. done.
Qed.

Lemma ttbr0_asid asid base :
  0 ≤ asid < 0x10000 → 0 ≤ base < 2 ^ 48 →
  get_bits 48 16 (Z.lor (u64 (Z.shiftl asid 48)) base) = asid ∧
  get_bits 0 48 (Z.lor (u64 (Z.shiftl asid 48)) base) = base.
Proof.
  intros Ha Hb. rewrite u64_id by (rewrite Z.shiftl_mul_pow2 by lia; unfold is_u64; lia).
  split; apply Z.bits_inj_iff'; intros i Hi; rewrite get_bits_testbit, Z.lor_spec, Z.shiftl_spec by lia;
    case_bool_decide.
  - replace (i + 48 - 48) with i by lia. rewrite (testbit_above base 48) by lia.
    by rewrite orb_false_r, andb_true_r.
  - rewrite andb_false_r. symmetry. apply (testbit_above _ 16); lia.
  - rewrite Z.testbit_neg_r by lia. rewrite Z.add_0_r. by rewrite andb_true_r.
  - rewrite andb_false_r. symmetry. apply (testbit_above _ 48); lia.
Qed.

Lemma set_asid_ok k asid :
  asid < 0x10000 →
  set_asid asid k = Ok () (set_core (set_ttbr0_el1
    (Z.lor (u64 (Z.shiftl asid 48)) (physical_address (core k) + offset_of_core_tt_l1)) (core k)) k).
Proof. intros H. unfold set_asid. run. by rewrite bool_decide_eq_false_2 by lia. Qed.

(** [change_map] to a map that is not loaded, in terms of [load_this_map]. *)
Lemma change_map_loads drivers k thread t m k' :
  threads k !! thread = Some t → current_map t ≤ kernel_last_interface k →
  m ≤ kernel_last_interface k → loaded_map (core k) ≠ m →
  load_this_map drivers m k = Ok () k' → only_core k k' → loaded_map (core k') = m →
  change_map drivers thread m k = Ok () (put_thread thread (set_current_map m t) k').
Proof.
  intros Ht Hc Hm Hl Hload Honly Hk'. unfold change_map.
  erewrite bind_ok by by apply get_thread_ok. rewrite gets_ok. do 2 pass.
  unfold get_core. rewrite gets_ok. erewrite when_runs by done. rewrite gets_ok.
  rewrite Hk'. pass. apply upd_thread_ok. by rewrite Honly.
Qed.

Lemma load_ordinary_map drivers k m :
  m ≠ memory_allocator_map_index → m ≠ system_map_index → m < 0x10000 →
  loaded_map (core k) ≠ m →
  ∃ k', load_this_map drivers m k = Ok () k' ∧ only_core k k' ∧ loaded_map (core k') = m ∧
    (∀ va, walk (core k') va = None) ∧ cleared (core k) (core k') ∧
    ttbr0_el1 (core k') =
      Z.lor (u64 (Z.shiftl m 48)) (physical_address (core k) + offset_of_core_tt_l1).
Proof.
  intros Hm1 Hm2 Hm Hl. unfold load_this_map, get_core. rewrite gets_ok.
  rewrite bool_decide_eq_true_2 by done. unfold when at 1.
  erewrite bind_ok by apply clear_tables_ok. do 2 (rewrite when_skip by done).
  erewrite bind_ok by done. rewrite set_asid_ok by (unfold asid_of; done).
  eexists. split; [done |]. split_and!; try done.
  intros va. by eapply walk_empty_l1.
Qed.

(** A loop that fills consecutive entries of one table. *)
Section fill.
Context (table : Core → list Z) (set : list Z → Core → Core).
Context (table_set : ∀ l c, table (set l c) = l) (set_set : ∀ l l' c, set l (set l' c) = set l c).
Context (set_table : ∀ c, set (table c) c = c).

Lemma fill_table k n f (g : Z → Z) (body : Z → K unit) :
  (∀ i, body i = store_entry table set (i + f) (g i)) → 0 ≤ f → f + Z.of_nat n ≤ Z.of_nat (length (table (core k))) →
  ∃ l, for_range n 0 body k =
         Ok () (set_core (set l (core k)) k) ∧
    length l = length (table (core k)) ∧
    (∀ j, 0 ≤ j < Z.of_nat n → l !! Z.to_nat (j + f) = Some (g j)) ∧
    (∀ j, 0 ≤ j < f → l !! Z.to_nat j = table (core k) !! Z.to_nat j).
Proof.
  intros Hbody Hf Hn.
  edestruct (for_range_inv (λ i k', ∃ l, k' = set_core (set l (core k)) k ∧
    length l = length (table (core k)) ∧
    (∀ j, 0 ≤ j < i → l !! Z.to_nat (j + f) = Some (g j)) ∧
    (∀ j, 0 ≤ j < f → l !! Z.to_nat j = table (core k) !! Z.to_nat j))
    body n 0 k) as (k' & E & l & -> & Hl).
  - exists (table (core k)). rewrite set_table. split_and!; try done; [by destruct k | lia].
  - intros i k' Hi (l & -> & Hlen & Hdone & Hrest).
    rewrite Hbody, store_entry_ok by (simpl; rewrite table_set; lia). simpl.
    eexists. split; [done |]. rewrite table_set, set_set. eexists. split; [done |].
    rewrite length_insert. split_and!; [done | |].
    + intros j Hj. destruct (decide (j = i)) as [->|].
      * apply list_lookup_insert_eq. lia.
      * rewrite list_lookup_insert_ne by lia. apply Hdone. lia.
    + intros j Hj. rewrite list_lookup_insert_ne by lia. by apply Hrest.
  - exists l. rewrite Z.add_0_l in Hl. done.
Qed.
End fill.

(** ** The allocator's map *)
Lemma attrs_entry share pxn uxn ro el0 mem ty a :
  0 ≤ ty < 4 → 0 ≤ a < 2 ^ 51 → a mod 4096 = 0 →
  0 ≤ uxn < 2 → 0 ≤ ro < 2 → 0 ≤ el0 < 2 → 0 ≤ pxn < 2 →
  let e := finish_entry share (put memory_type mem (put_permissions (Some pxn) uxn ro el0 (put type ty a))) in
  get type e = ty ∧ get access_flag e = 1 ∧ output_address e = a ∧
  get read_only e = ro ∧ get el0_accessible e = el0 ∧ get unprivileged_execute_never e = uxn.
Proof.
  intros Hty Ha Hal Hu Hr Hel Hp e. unfold e, finish_entry, output_address.
  edestruct (put_permissions_rights (Some pxn) uxn ro el0 (put type ty a)) as (H1 & H2 & H3 & _);
    [done..| by intros ? [= <-] |].
  split_and!; simp_vmsa.
  - rewrite get_put_permissions by (simpl; lia). by simp_vmsa.
  - rewrite get_put_permissions by (simpl; lia). simp_vmsa. by apply page_number_of.
Qed.

(** What EL0 may do with a page or block. *)
Definition el0_rights (e : Z) (writable executable : bool) : Prop :=
  el0_read (rights_of e) = true ∧ el0_write (rights_of e) = writable ∧ el0_execute e = executable.

Lemma allocator_leaf e ty lsb a va ro uxn :
  get type e = ty → get access_flag e = 1 → output_address e = a → get read_only e = ro →
  get el0_accessible e = 1 → get unprivileged_execute_never e = uxn → a mod 2 ^ lsb = 0 →
  leaf lsb e va = Some (a + va mod 2 ^ lsb, e) ∧
  el0_rights e (negb (bool_decide (ro = 1))) (bool_decide (uxn = 0)).
Proof.
  intros Ht Hf Ho Hr Ha Hu Hal. unfold leaf, el0_rights, rights_of, el0_execute.
  cbn [el0_read el0_write]. rewrite Hf, Ho, Hr, Ha, Hu, Hal. split; [|done].
  rewrite bool_decide_eq_true_2 by done. do 3 f_equal. lia.
Qed.

Lemma load_allocator_tables driver k :
  core_ok (core k) → 0 ≤ code_pages driver → 0 ≤ data_pages driver →
  code_pages driver + data_pages driver ≤ 512 →
  ∃ k' l1 l2 l3, load_memory_allocator_map driver k = Ok () k' ∧
    k' = set_core (set_loaded_map memory_allocator_map_index (set_core_tt_l3 l3
           (set_core_tt_l2 l2 (set_core_tt_l1 l1 (core k))))) k ∧
    core_ok (core k') ∧
    (∀ i, 0 ≤ i < 8 → l1 !! Z.to_nat i = Some (allocator_block i)) ∧
    l1 !! 8%nat = Some (Aarch64_VMSA_subtable_at (l2_table (core k))) ∧
    l2 !! 0%nat = Some (Aarch64_VMSA_subtable_at (l3_table (core k))) ∧
    (∀ i, 0 ≤ i < code_pages driver →
       l3 !! Z.to_nat i = Some (allocator_code_page (driver_start driver) i)) ∧
    (∀ i, 0 ≤ i < data_pages driver → l3 !! Z.to_nat (i + code_pages driver) = Some
       (allocator_data_page (driver_start driver + Z.shiftl (code_pages driver) 12) i)).
Proof.
  intros (Hl1 & Hl2 & Hl3 & Hp) Hc Hd Hcd. unfold load_memory_allocator_map.
  destruct (fill_table core_tt_l1 set_core_tt_l1 ltac:(done) ltac:(done) ltac:(by intros []) k 8 0
    allocator_block (λ i, set_l1 i (allocator_block i))) as (l1 & E1 & Hlen1 & H1 & _);
    [by intros i; rewrite Z.add_0_r | done | rewrite Hl1; lia |].
  erewrite bind_ok by exact E1. unfold get_core. rewrite gets_ok. unfold set_l1, set_l2.
  erewrite bind_ok by (apply store_entry_ok; simpl; rewrite Hlen1, Hl1; done).
  erewrite bind_ok by (apply store_entry_ok; simpl; rewrite Hl2; done). cbv zeta.
  match goal with |- context [(_ ≫= _) ?k0] => set (k1 := k0) end.
  destruct (fill_table core_tt_l3 set_core_tt_l3 ltac:(done) ltac:(done) ltac:(by intros []) k1
    (Z.to_nat (code_pages driver)) 0 (allocator_code_page (driver_start driver))
    (λ i, set_l3 i (allocator_code_page (driver_start driver) i))) as (l3 & E3 & Hlen3 & H3 & _);
    [by intros i; rewrite Z.add_0_r | done | simpl; rewrite Hl3; lia |].
  erewrite bind_ok by exact E3. simpl in Hlen3.
  match goal with |- context [(_ ≫= _) ?k0] => set (k2 := k0) end.
  destruct (fill_table core_tt_l3 set_core_tt_l3 ltac:(done) ltac:(done) ltac:(by intros []) k2
    (Z.to_nat (data_pages driver)) (code_pages driver)
    (allocator_data_page (driver_start driver + Z.shiftl (code_pages driver) 12))
    (λ i, set_l3 (i + code_pages driver) (allocator_data_page
       (driver_start driver + Z.shiftl (code_pages driver) 12) i)))
    as (l3' & E3' & Hlen3' & H3' & H3''); [done | done | simpl; rewrite Hlen3, Hl3; lia |].
  erewrite bind_ok by exact E3'. simpl in Hlen3', H3''.
  eexists _, _, _, _. split; [done |]. split; [done |]. split; [|split_and!].
  - split_and!; simpl; rewrite ?length_insert, ?Hlen1, ?Hlen3', ?Hlen3; try done; apply Hp.
  - intros i Hi. simpl. rewrite list_lookup_insert_ne; [|change (Z.to_nat max_physical_memory_gb) with 8%nat; lia].
    rewrite <- (Z.add_0_r i) at 1. apply H1. lia.
  - apply (list_lookup_insert_eq _ 8%nat). simpl. rewrite Hlen1, Hl1. lia.
  - apply (list_lookup_insert_eq _ 0%nat). simpl. rewrite Hl2. lia.
  - intros i Hi. rewrite H3'' by lia. rewrite <- (Z.add_0_r i) at 1. apply H3. lia.
  - intros i Hi. apply H3'. lia.
Qed.

(** Which entry the address of a page of the allocator's own map uses. *)
Lemma allocator_index va :
  8 * 2 ^ 30 ≤ va < 8 * 2 ^ 30 + 512 * 4096 →
  table_index va level1_lsb = 8 ∧ table_index va level2_lsb = 0 ∧
  table_index va level3_lsb = (va - 8 * 2 ^ 30) / 4096.
Proof.
  intros Hva. rewrite !table_index_div by (unfold level1_lsb, level2_lsb, level3_lsb; lia).
  change (2 ^ level1_lsb) with 1073741824. change (2 ^ level2_lsb) with 2097152.
  change (2 ^ level3_lsb) with 4096. change (2 ^ 30) with 1073741824 in *.
  split_and!; Z.to_euclidean_division_equations; lia.
Qed.

(** The allocator sees physical memory where it is, and its own code and data
    from 8GB on. *)
Definition allocator_view (c : Core) (driver : driver_info) : Prop :=
  (∀ va, 0 ≤ va < max_physical_memory → ∃ e, walk c va = Some (va, e) ∧ el0_rights e true false) ∧
  (∀ va, 0 ≤ va - max_physical_memory < code_pages driver * 4096 →
     ∃ e, walk c va = Some (driver_start driver + (va - max_physical_memory), e) ∧
       el0_rights e false true) ∧
  (∀ va, code_pages driver * 4096 ≤ va - max_physical_memory <
           (code_pages driver + data_pages driver) * 4096 →
     ∃ e, walk c va = Some (driver_start driver + (va - max_physical_memory), e) ∧
       el0_rights e true false).

Definition driver_ok (driver : driver_info) : Prop :=
  0 ≤ driver_start driver < 2 ^ 48 ∧ driver_start driver mod 4096 = 0 ∧
  0 ≤ code_pages driver ∧ 0 ≤ data_pages driver ∧ code_pages driver + data_pages driver ≤ 512.

Lemma aligned_add a n : a mod 4096 = 0 → (a + n * 4096) mod 4096 = 0.
Proof. intros. by rewrite Z.mod_add by lia. Qed.

(** The table descriptors at the top of the allocator's own 2MB. *)
Definition allocator_subtables (c : Core) : Prop :=
  core_tt_l1 c !! 8%nat = Some (Aarch64_VMSA_subtable_at (l2_table c)) ∧
  core_tt_l2 c !! 0%nat = Some (Aarch64_VMSA_subtable_at (l3_table c)).

Lemma allocator_block_walk c va :
  0 ≤ va < 8 * 2 ^ 30 →
  core_tt_l1 c !! Z.to_nat (va / 2 ^ 30) = Some (allocator_block (va / 2 ^ 30)) →
  ∃ e, walk c va = Some (va, e) ∧ el0_rights e true false.
Proof.
  intros Hva Hl. set (i := va / 2 ^ 30) in *. pose proof (Z.div_mod va (2 ^ 30)) as Hdm.
  assert (0 ≤ i < 8) by (split; [apply Z.div_pos; lia | apply Z.div_lt_upper_bound; lia]).
  assert ((i * 2 ^ 30) mod 2 ^ 30 = 0) by (apply Z.mod_mul; lia).
  assert ((i * 2 ^ 30) mod 4096 = 0).
  { change (2 ^ 30) with (262144 * 4096). rewrite Z.mul_assoc. apply Z.mod_mul. lia. }
  destruct (attrs_entry 0 1 1 0 1 Non_cacheable 1 (i * 2 ^ 30)) as (Ht & Hf & Ho & Hr & He & Hu); try lia.
  destruct (allocator_leaf _ 1 level1_lsb _ va _ _ Ht Hf Ho Hr He Hu) as [Hleaf Hrights]; [done |].
  unfold allocator_block, Aarch64_VMSA_uncached_memory, Aarch64_VMSA_el0_rw_,
    Aarch64_VMSA_block_at in Hl. rewrite Z.shiftl_mul_pow2 in Hl by lia.
  eexists. split; [|exact Hrights].
  erewrite walk_l1; [| lia | |exact Ht].
  - rewrite Hleaf. do 2 f_equal. change (2 ^ level1_lsb) with (2 ^ 30). lia.
  - rewrite table_index_div by (unfold level1_lsb; lia). change (2 ^ level1_lsb) with (2 ^ 30).
    fold i. rewrite Z.mod_small by lia. done.
Qed.

Lemma allocator_page_walk c va pxn uxn ro a :
  core_ok c → allocator_subtables c → 8 * 2 ^ 30 ≤ va < 8 * 2 ^ 30 + 512 * 4096 →
  0 ≤ a < 2 ^ 51 → a mod 4096 = 0 → 0 ≤ pxn < 2 → 0 ≤ uxn < 2 → 0 ≤ ro < 2 →
  core_tt_l3 c !! Z.to_nat ((va - 8 * 2 ^ 30) / 4096) = Some (finish_entry 1
    (put memory_type Fully_Cacheable (put_permissions (Some pxn) uxn ro 1 (put type 3 a)))) →
  ∃ e, walk c va = Some (a + va mod 4096, e) ∧
    el0_rights e (negb (bool_decide (ro = 1))) (bool_decide (uxn = 0)).
Proof.
  intros Hc [H1 H2] Hva Ha Hal Hp Hu' Hr' H3.
  destruct (allocator_index va Hva) as (I1 & I2 & I3).
  destruct (attrs_entry 1 pxn uxn ro 1 Fully_Cacheable 3 a) as (Ht & Hf & Ho & Hr & He & Hu); try lia.
  destruct (allocator_leaf _ 3 level3_lsb _ va _ _ Ht Hf Ho Hr He Hu Hal) as [Hleaf Hrights].
  eexists. split; [|exact Hrights].
  erewrite (walk_l3 _ Hc); [exact Hleaf | lia | by rewrite I1 | by rewrite I2 | by rewrite I3 | exact Ht].
Qed.

Lemma allocator_view_tables c driver :
  core_ok c → driver_ok driver → allocator_subtables c →
  (∀ i, 0 ≤ i < 8 → core_tt_l1 c !! Z.to_nat i = Some (allocator_block i)) →
  (∀ i, 0 ≤ i < code_pages driver →
     core_tt_l3 c !! Z.to_nat i = Some (allocator_code_page (driver_start driver) i)) →
  (∀ i, 0 ≤ i < data_pages driver → core_tt_l3 c !! Z.to_nat (i + code_pages driver) = Some
     (allocator_data_page (driver_start driver + Z.shiftl (code_pages driver) 12) i)) →
  allocator_view c driver.
Proof.
  intros Hc (Hs & Hal & Hcp & Hdp & Hcd) Hsub H1 Hcode Hdata.
  unfold allocator_view, max_physical_memory, max_physical_memory_gb. split; [|split]; intros va Hva.
  - apply allocator_block_walk; [done |]. apply H1.
    split; [apply Z.div_pos; lia | apply Z.div_lt_upper_bound; lia].
  - set (i := (va - 8 * 2 ^ 30) / 4096) in *.
    assert (0 ≤ i < code_pages driver) by
      (split; [apply Z.div_pos; lia | apply Z.div_lt_upper_bound; lia]).
    replace (driver_start driver + (va - 8 * 2 ^ 30)) with
      (driver_start driver + i * 4096 + va mod 4096)
      by (unfold i; change (2 ^ 30) with 1073741824; Z.to_euclidean_division_equations; lia).
    apply (allocator_page_walk c va 0 0 1); try (done || lia || by apply aligned_add).
    fold i. rewrite Hcode by done. unfold allocator_code_page. by rewrite Z.shiftl_mul_pow2 by lia.
  - set (i := (va - 8 * 2 ^ 30) / 4096 - code_pages driver).
    assert (0 ≤ i < data_pages driver) as Hi.
    { unfold i. change (2 ^ 30) with 1073741824 in *. Z.to_euclidean_division_equations. lia. }
    replace (driver_start driver + (va - 8 * 2 ^ 30)) with
      (driver_start driver + code_pages driver * 4096 + i * 4096 + va mod 4096)
      by (unfold i; change (2 ^ 30) with 1073741824; Z.to_euclidean_division_equations; lia).
    apply (allocator_page_walk c va 1 1 0); try (done || lia || by do 2 apply aligned_add).
    replace ((va - 8 * 2 ^ 30) / 4096) with (i + code_pages driver) by (unfold i; lia).
    rewrite Hdata by done. unfold allocator_data_page. by rewrite !Z.shiftl_mul_pow2 by lia.
Qed.

Lemma load_allocator_map drivers k :
  core_ok (core k) → driver_ok (driver_at drivers 1) → loaded_map (core k) ≠ memory_allocator_map_index →
  ∃ k', load_this_map drivers memory_allocator_map_index k = Ok () k' ∧ only_core k k' ∧
    loaded_map (core k') = memory_allocator_map_index ∧ allocator_view (core k') (driver_at drivers 1).
Proof.
  intros Hc Hd Hl. unfold load_this_map, get_core. rewrite gets_ok.
  rewrite bool_decide_eq_true_2 by done. unfold when at 1.
  erewrite bind_ok by apply clear_tables_ok.
  match goal with |- context [(_ ≫= _) ?k0] => set (k1 := k0) end.
  assert (core_ok (core k1)) as Hc1.
  { destruct Hc as (? & ? & ? & Hp). split_and!; try (simpl; by rewrite length_replicate); apply Hp. }
  destruct (load_allocator_tables (driver_at drivers 1) k1) as
    (k' & l1 & l2 & l3 & E & -> & Hok & H1 & H8 & H2 & Hcode & Hdata); [done | apply Hd..|].
  erewrite when_runs by done. rewrite when_skip by done. erewrite bind_ok by done.
  rewrite set_asid_ok by done. eexists. split; [done |]. split; [done |]. split; [done |].
  by apply allocator_view_tables.
Qed.

(** ** Loading succeeds

    What the maps need: well-formed tables, and system and allocator drivers that fit
    into their tables. *)
Record maps_ok (drivers : list driver_info) (k : kstate) : Prop := {
  mo_core : core_ok (core k);
  mo_allocator : driver_ok (driver_at drivers 1);
  mo_shared : length (shared_system_map k) = 32%nat;
  mo_mapped : 0 ≤ shared_system_map_mapped_pages k ≤ 32;
  mo_core_page : 0 ≤ shared_system_map_core_page k < 512;
}.

(** The core changes in its tables, its loaded map and [TTBR0] only, and the tables
    keep their shape. *)
Definition only_tables (c c' : Core) : Prop :=
  core_self c' = core_self c ∧ physical_address c' = physical_address c ∧
  core_number c' = core_number c ∧ interrupt_thread c' = interrupt_thread c ∧
  blocked_with_timeout c' = blocked_with_timeout c ∧ runnable c' = runnable c ∧
  system_thread_stack c' = system_thread_stack c ∧
  length (core_tt_l1 c') = length (core_tt_l1 c) ∧ length (core_tt_l2 c') = length (core_tt_l2 c) ∧
  length (core_tt_l3 c') = length (core_tt_l3 c).
Definition loads (k k' : kstate) : Prop := only_core k k' ∧ only_tables (core k) (core k').

#[global] Instance loads_preorder : PreOrder loads.
Proof.
  split.
  - intros k. split; [done | repeat split].
  - intros k1 k2 k3 [H1 T1] [H2 T2]. split; [by transitivity k2 |].
    unfold only_tables in *. destruct_and!. split_and!; congruence.
Qed.

Section loading.
Lemma loads_upd_core f : (∀ c, only_tables c (f c)) → preserves loads (upd_core f).
Proof. intros Hf k a k' [= <- <-]. split; [done | apply Hf]. Qed.

Lemma loads_set_l1 i v : preserves loads (set_l1 i v).
Proof.
  unfold set_l1, store_entry, get_core. intros k a k' H. rewrite gets_ok in H. case_bool_decide; [|done].
  injection H as _ <-. split; [done |]. repeat split. simpl. apply length_insert.
Qed.
Lemma loads_set_l2 i v : preserves loads (set_l2 i v).
Proof.
  unfold set_l2, store_entry, get_core. intros k a k' H. rewrite gets_ok in H. case_bool_decide; [|done].
  injection H as _ <-. split; [done |]. repeat split. simpl. apply length_insert.
Qed.
Lemma loads_set_l3 i v : preserves loads (set_l3 i v).
Proof.
  unfold set_l3, store_entry, get_core. intros k a k' H. rewrite gets_ok in H. case_bool_decide; [|done].
  injection H as _ <-. split; [done |]. repeat split. simpl. apply length_insert.
Qed.
Hint Resolve loads_set_l1 loads_set_l2 loads_set_l3 : preserves.
Hint Extern 1 (preserves loads (upd_core _)) =>
  (apply loads_upd_core; intros; repeat split; simpl; by rewrite ?length_replicate) : preserves.

Lemma load_system_map_loads : preserves loads load_system_map.
Proof. unfold load_system_map, get_core. preserves. Qed.
Lemma load_memory_allocator_map_loads d : preserves loads (load_memory_allocator_map d).
Proof. unfold load_memory_allocator_map, get_core. preserves. Qed.
Lemma clear_core_translation_tables_loads : preserves loads clear_core_translation_tables.
Proof. unfold clear_core_translation_tables. preserves. Qed.
Hint Resolve load_system_map_loads load_memory_allocator_map_loads clear_core_translation_tables_loads : preserves.

Lemma load_this_map_loads drivers m : preserves loads (load_this_map drivers m).
Proof. unfold load_this_map, get_core, set_asid. preserves. Qed.
End loading.

Lemma core_ok_tables c c' : only_tables c c' → core_ok c → core_ok c'.
Proof.
  unfold only_tables, core_ok. intros (_ & -> & _ & _ & _ & _ & _ & -> & -> & ->). done.
Qed.

Lemma maps_ok_loads drivers k k' : loads k k' → maps_ok drivers k → maps_ok drivers k'.
Proof.
  intros [E T] [H1 H2 H3 H4 H5]. split; try (rewrite E; done); [|done]. by eapply core_ok_tables.
Qed.

Lemma load_system_map_succeeds drivers k : maps_ok drivers k → ∃ k', load_system_map k = Ok () k'.
Proof.
  intros Hk. pose proof Hk as [(Hl1 & Hl2 & Hl3 & _) _ Hs Hm Hc]. unfold load_system_map, get_core.
  rewrite gets_ok. unfold set_l1, set_l2.
  erewrite bind_ok by (apply store_entry_ok; rewrite Hl1; done).
  erewrite bind_ok by (apply store_entry_ok; simpl; rewrite Hl2; done).
  rewrite gets_ok. match goal with |- context [(_ ≫= _) ?k0] => set (k1 := k0) end.
  destruct (for_range_inv (λ i k', length (core_tt_l3 (core k')) = 512%nat ∧
      shared_system_map k' = shared_system_map k ∧ shared_system_map_core_page k' = shared_system_map_core_page k)
    (λ i, m ← gets shared_system_map;
          match m !! Z.to_nat i with Some entry => set_l3 i entry | None => halt (Fault i) end)
    (Z.to_nat (shared_system_map_mapped_pages k1)) 0 k1) as (k2 & E2 & Hl3' & Hs2 & Hc2).
  - done.
  - intros i k' Hi (Hl & Hsh & Hcp). rewrite gets_ok, Hsh. simpl in Hi.
    destruct (lookup_lt_is_Some_2 (shared_system_map k) (Z.to_nat i)) as [e ->]; [rewrite Hs; lia |].
    unfold set_l3. rewrite store_entry_ok by (rewrite Hl; lia). eexists. split; [done |].
    simpl. by rewrite length_insert.
  - erewrite bind_ok by exact E2. cbv zeta. rewrite gets_ok, Hc2. unfold set_l3.
    erewrite bind_ok by (apply store_entry_ok; rewrite Hl3'; lia). by eexists.
Qed.

Lemma load_this_map_succeeds drivers k m :
  maps_ok drivers k → m < 0x10000 → loaded_map (core k) ≠ m →
  ∃ k', load_this_map drivers m k = Ok () k' ∧ loaded_map (core k') = m.
Proof.
  intros Hk Hm Hl. unfold load_this_map, get_core. rewrite gets_ok.
  rewrite bool_decide_eq_true_2 by done. unfold when at 1.
  erewrite bind_ok by apply clear_tables_ok.
  match goal with |- context [(_ ≫= _) ?k0] => set (k1 := k0) end.
  assert (maps_ok drivers k1) as Hk1.
  { eapply maps_ok_loads; [|exact Hk]. eapply clear_core_translation_tables_loads. apply clear_tables_ok. }
  destruct (decide (m = memory_allocator_map_index)) as [-> | Ha].
  - destruct (load_allocator_tables (driver_at drivers 1) k1) as (k' & l1 & l2 & l3 & E & _);
      [apply Hk1 | apply (mo_allocator _ _ Hk1)..|].
    erewrite when_runs by done. rewrite when_skip by done. erewrite bind_ok by done.
    rewrite set_asid_ok by done. by eexists.
  - rewrite when_skip by done. destruct (decide (m = system_map_index)) as [-> | Hs].
    + destruct (load_system_map_succeeds drivers k1 Hk1) as (k' & E).
      erewrite when_runs by done. erewrite bind_ok by done. rewrite set_asid_ok by done. by eexists.
    + rewrite when_skip by done. erewrite bind_ok by done. rewrite set_asid_ok by done. by eexists.
Qed.

(** Any map with a valid index can be entered; only the core's tables and the
    thread's map change. *)
Lemma change_map_ok drivers k p t m :
  maps_ok drivers k → threads k !! p = Some t → current_map t ≤ kernel_last_interface k →
  m ≤ kernel_last_interface k → m < 0x10000 →
  ∃ c, change_map drivers p m k = Ok () (put_thread p (set_current_map m t) (set_core c k)) ∧
    only_tables (core k) c ∧ loaded_map c = m.
Proof.
  intros Hk Ht Hc Hm Hm16. destruct (decide (loaded_map (core k) = m)) as [Hl | Hl].
  - exists (core k). split; [|repeat split; done]. unfold change_map.
    erewrite bind_ok by by apply get_thread_ok. rewrite gets_ok. do 2 pass.
    unfold get_core. rewrite gets_ok, when_skip by tauto. rewrite gets_ok. pass.
    rewrite (upd_thread_ok _ _ t) by done. by destruct k.
  - destruct (load_this_map_succeeds drivers k m) as (k' & E & Hl'); try done.
    destruct (load_this_map_loads drivers m _ _ _ E) as [Honly Htab].
    exists (core k'). rewrite (change_map_loads drivers k p t m k') by done. rewrite <- Honly. done.
Qed.

(** ** A small system for the examples

    One thread in map 3, whose table (1kB below the top of the heap) has one block
    of four pages at page 0x100, backed by the physical pages from 0x5000 on. *)
Definition demo_thread : Z := start_address + 0x1ff000.
Definition demo_map : Interface :=
  MkInterface 1 system_map_index System_Service_Map (mv_make 0x40 7 4).
Definition demo_block : Interface :=
  MkInterface 1 system_map_index System_Service_PhysicalMemoryBlock (cmb_make 0x5000 16 Fully_Cacheable).
Definition demo_vmb : Z := vmb_make 0x100 4 0 0 4 0.

Definition demo_state : kstate :=
  let k := initial_kstate (start_address + 0x10000) 0x10000 in
  let k := put_thread demo_thread (set_current_map 3 blank_thread) k in
  let k := set_kernel_heap_bottom (top_of_kernel_working_memory - 0x1000) k in
  let k := set_kernel_last_interface 512 k in
  let k := set_heap_word (top_of_heap - 0x400) demo_vmb k in
  put_interface 3 demo_map (put_interface 4 demo_block k).

Lemma demo_has_map : has_map demo_state demo_thread [demo_vmb].
Proof.
  exists (set_current_map 3 blank_thread), demo_map. split_and!; try (vm_compute; done).
Qed.

Lemma demo_core_ok : core_ok (core demo_state).
Proof. vm_compute. done. Qed.

(** ** Theorems *)

(** [find_vmb] searches the table of the faulting thread's map from the start:
    it returns the first block that covers the fault address and no block when none
    does, it never changes the state, and it always ends. *)
Theorem find_vmb_first_cover k thread vs fa :
  has_map k thread vs → is_u64 fa →
  find_vmb thread fa k = Ok (head (filter (λ v, covers v fa) vs)) k.
Proof. apply find_vmb_spec. Qed.

Lemma find_vmb_first_cover_witness :
  find_vmb demo_thread 0x101234 demo_state = Ok (Some demo_vmb) demo_state ∧
  find_vmb demo_thread 0x104000 demo_state = Ok None demo_state.
Proof.
  split.
  - rewrite (find_vmb_first_cover _ _ [demo_vmb]); [done | apply demo_has_map | done].
  - rewrite (find_vmb_first_cover _ _ [demo_vmb]); [done | apply demo_has_map | done].
Defined.

(** C17: Resolving a fault at [fa], covered by the block [v] of a physical memory
    block, installs a translation for the whole granule around [fa] (4kB, 2MB or
    1GB, as the alignment allows).  Every address of the granule is inside [v], it
    translates to the physical address at the same distance from the start of the
    physical block, EL0 gets exactly the access that [v] grants, with the memory
    type of the physical block, and neither threads nor interfaces change.  The
    blocks start below 2GB, where the 32-bit shift of the page number is exact. *)
Theorem find_and_map_memory_translates k thread vs fa v mp :
  has_map k thread vs → core_ok (core k) → 0 ≤ fa < 2 ^ 34 →
  head (filter (λ v, covers v fa) vs) = Some v →
  get vmb_memory_block v ≤ kernel_last_interface k →
  interfaces k !! get vmb_memory_block v = Some mp →
  provider mp = system_map_index → handler mp = System_Service_PhysicalMemoryBlock →
  get vmb_start_page v < 2 ^ 19 → get cmb_start_page (object mp) < 2 ^ 19 →
  ∃ k', find_and_map_memory thread fa k = Ok true k' ∧
    threads k' = threads k ∧ interfaces k' = interfaces k ∧
    ∀ va, va / 2 ^ granule v (object mp) = fa / 2 ^ granule v (object mp) →
      covers v va ∧
      ∃ e, walk (core k') va =
             Some (get cmb_start_page (object mp) * 4096 + (va - get vmb_start_page v * 4096), e) ∧
        vmb_rights v e ∧ get memory_type e = get cmb_memory_type (object mp).
Proof.
  intros Hmap Hc Hfa Hv Hlast Hmp Hp Hh Hvs Hcs.
  destruct (install_translates k vs fa v mp) as (k' & E & Htr & Ht & Hi); try done.
  exists k'. split; [by eapply find_and_map_memory_install |]. done.
Qed.

Lemma find_and_map_memory_translates_witness :
  ∃ k', find_and_map_memory demo_thread 0x101234 demo_state = Ok true k' ∧
    ∃ e, walk (core k') 0x101234 = Some (0x5001234, e).
Proof.
  destruct (find_and_map_memory_translates demo_state demo_thread [demo_vmb] 0x101234 demo_vmb demo_block)
    as (k' & E & _ & _ & Htr); [apply demo_has_map | apply demo_core_ok | lia | vm_compute; done.. |].
  exists k'. split; [done |]. destruct (Htr 0x101234 eq_refl) as (_ & e & He & _). by exists e.
Defined.

(** C2: Switching a thread to an ordinary map that is not loaded clears the tables of all
    three levels, so that no address is translated, and no entry of the previous map
    is left for a later fault to link in again.  The map becomes the loaded one and the
    thread's, and its index is the address space identifier in [TTBR0_EL1]. *)
Theorem change_map_isolates drivers k thread t m :
  threads k !! thread = Some t → current_map t ≤ kernel_last_interface k →
  0 ≤ m ≤ kernel_last_interface k → m < 0x10000 → loaded_map (core k) ≠ m →
  m ≠ system_map_index → m ≠ memory_allocator_map_index →
  0 ≤ physical_address (core k) < 2 ^ 47 →
  ∃ k', change_map drivers thread m k = Ok () k' ∧
    core_tt_l1 (core k') = replicate (length (core_tt_l1 (core k))) Aarch64_VMSA_invalid ∧
    core_tt_l2 (core k') = replicate (length (core_tt_l2 (core k))) Aarch64_VMSA_invalid ∧
    core_tt_l3 (core k') = replicate (length (core_tt_l3 (core k))) Aarch64_VMSA_invalid ∧
    (∀ va, walk (core k') va = None) ∧ loaded_map (core k') = m ∧
    threads k' !! thread = Some (set_current_map m t) ∧
    get_bits 48 16 (ttbr0_el1 (core k')) = m ∧
    get_bits 0 48 (ttbr0_el1 (core k')) = physical_address (core k) + offset_of_core_tt_l1.
Proof.
  intros Ht Hcur [Hm0 Hm] Hm16 Hl Hs Ha Hp.
  destruct (load_ordinary_map drivers k m) as (k' & E & Honly & Hlm & Hw & [H1 H2 H3] & Htt); try done.
  eexists. split; [by eapply change_map_loads |]. simpl.
  rewrite Htt, lookup_insert_eq. do 6 (split; [done |]).
  apply ttbr0_asid; unfold offset_of_core_tt_l1; lia.
Qed.

Lemma change_map_isolates_witness :
  ∃ k', change_map [] demo_thread 3 demo_state = Ok () k' ∧ walk (core k') 0x101234 = None ∧
    get_bits 48 16 (ttbr0_el1 (core k')) = 3.
Proof.
  destruct (change_map_isolates [] demo_state demo_thread (set_current_map 3 blank_thread) 3)
    as (k' & E & _ & _ & _ & Hw & _ & _ & Ha & _); [vm_compute; done.. |].
  by exists k'.
Defined.

(** Switching to the memory allocator's map gives the allocator the first 8GB of
    physical memory at its own addresses, readable and writable but not executable,
    and from 8GB on its code (executable, not writable) followed by its data. *)
Theorem change_map_to_allocator drivers k thread t :
  threads k !! thread = Some t → current_map t ≤ kernel_last_interface k →
  memory_allocator_map_index ≤ kernel_last_interface k →
  core_ok (core k) → driver_ok (driver_at drivers 1) →
  loaded_map (core k) ≠ memory_allocator_map_index →
  ∃ k', change_map drivers thread memory_allocator_map_index k = Ok () k' ∧
    allocator_view (core k') (driver_at drivers 1) ∧
    loaded_map (core k') = memory_allocator_map_index ∧
    threads k' !! thread = Some (set_current_map memory_allocator_map_index t).
Proof.
  intros Ht Hcur Hm Hc Hd Hl.
  destruct (load_allocator_map drivers k) as (k' & E & Honly & Hlm & Hw); try done.
  eexists. split; [by eapply change_map_loads |]. simpl. by rewrite lookup_insert_eq.
Qed.

Definition demo_drivers : list driver_info :=
  [Driver 0x80000 0x84000 3 1; Driver 0x84000 0x87000 2 1].

Lemma change_map_to_allocator_witness :
  ∃ k', change_map demo_drivers demo_thread memory_allocator_map_index demo_state = Ok () k' ∧
    ∃ e, walk (core k') 0x12345678 = Some (0x12345678, e) ∧ el0_rights e true false.
Proof.
  destruct (change_map_to_allocator demo_drivers demo_state demo_thread (set_current_map 3 blank_thread))
    as (k' & E & (Hid & _) & _);
    [vm_compute; done | vm_compute; done | vm_compute; done | apply demo_core_ok | vm_compute; done.. |].
  exists k'. split; [done |]. by apply (Hid 0x12345678).
Defined.

Definition alias_vmbs : list Z := [demo_vmb; vmb_make 0x400 4 1 0 4 0].
Definition alias_state : kstate :=
  set_heap_word (top_of_heap - 0x400 + 8) (vmb_make 0x400 4 1 0 4 0) demo_state.

(** All pages of one core share a single level 3 table, and resolving a fault
    does not clear what is there: once page 0x100 of a map is mapped, resolving a
    fault in another 2MB region of the same map makes the page appear there too, at
    an address that no block of the map covers. *)
Theorem find_and_map_memory_aliases :
  Forall (λ v, ¬ covers v 0x500000) alias_vmbs ∧ has_map alias_state demo_thread alias_vmbs ∧
  match (_ ← find_and_map_memory demo_thread 0x100000; find_and_map_memory demo_thread 0x400000) alias_state with
  | Ok _ k => fst <$> walk (core k) 0x500000 = Some 0x5000000
  | Stop _ _ => False
  end.
Proof.
  split; [repeat constructor; vm_compute; intros []; done |].
  split; [|vm_compute; done].
  exists (set_current_map 3 blank_thread), demo_map. split_and!; try (vm_compute; done).
Qed.
