(* ===== verification/Gate.v ===== *)
(** * The gate

    [handle_svc_gate] of [include/svc_handling.h]: a thread waits until it is woken
    or until a number of timer ticks has passed, wakes another thread of its map,
    or, being the interrupt thread, reports a timer tick.

    Threads that wait with a timeout are in a singly linked queue that starts at
    [core->blocked_with_timeout] and runs through [regs[17]]; [regs[16]] is the
    address of the pointer that points at the thread (the head variable or the
    [regs[17]] of the thread before) and [regs[1]] is the number of ticks after
    the thread before times out.  So the queue is a list of differences.

    The specification has three levels: the registers in memory ([segment]), the
    list of differences ([delta_insert], [delta_remove], [delta_tick]) and the list
    of waiting threads with the ticks each has left ([expiry]).  The theorems relate
    the code to the last one.

    The [QEMU] variant of the tick, which shortens every timeout, is not
    modelled. *)

From S2P Require Import Prelude SystemServices Kernel LinkedLists Heap.

Definition THREAD_WAITING : Z := -1.

(** [&core->blocked_with_timeout] and [&thread->regs[17]] *)
Definition head_link (k : kstate) : Z := core_self (core k) + offset_of_blocked_with_timeout.
Definition link_of (thread : Z) : Z := thread + offset_of_regs17.

(** [*prev] and [*prev = v] for a [thread_context **prev]. *)
Definition load_link (prev : Z) : K Z :=
  k ← gets id;
  if bool_decide (prev = head_link k) then mret (blocked_with_timeout (core k))
  else t ← get_thread (prev - offset_of_regs17); mret (reg 17 t).

Definition store_link (prev v : Z) : K unit :=
  k ← gets id;
  if bool_decide (prev = head_link k) then upd_core (set_blocked_with_timeout v)
  else upd_thread (prev - offset_of_regs17) (set_reg 17 v).

(** A queue has no more members than there are threads; a longer walk has gone
    round a loop. *)
Definition queue_fuel (k : kstate) : nat := S (size (threads k)).

(** The [do ... while] loop of the timer tick. *)
Fixpoint wake_expired (fuel : nat) (thread blocked_list_head : Z) : K Z :=
  match fuel with
  | O => halt (Spin 49)
  | S fuel =>
      _ ← upd_thread blocked_list_head (set_reg 0 (u64 (-1)));
      _ ← upd_thread blocked_list_head (set_gate 0);
      _ ← insert_new_thread_after_old blocked_list_head thread;
      b ← get_thread blocked_list_head;
      let blocked_list_head := reg 17 b in
      if bool_decide (blocked_list_head ≠ 0) then
        b ← get_thread blocked_list_head;
        if bool_decide (reg 1 b = 0) then wake_expired fuel thread blocked_list_head
        else mret blocked_list_head
      else mret blocked_list_head
  end.

Definition gate_tick (thread : Z) : K unit :=
  c ← get_core;
  let blocked_list_head := blocked_with_timeout c in
  when (bool_decide (blocked_list_head ≠ 0)) (
    b ← get_thread blocked_list_head;
    let left := u64 (reg 1 b - 1) in
    _ ← upd_thread blocked_list_head (set_reg 1 left);
    when (bool_decide (left = 0)) (
      k ← gets id;
      blocked_list_head ← wake_expired (queue_fuel k) thread blocked_list_head;
      _ ← upd_core (set_blocked_with_timeout blocked_list_head);
      when (bool_decide (blocked_list_head ≠ 0))
        (upd_thread blocked_list_head (set_reg 16 (head_link k))))).

(** The loop that finds the place in the queue: [prev], [blocked_thread] and
    [remaining] when it ends. *)
Fixpoint timeout_position (fuel : nat) (prev blocked_thread remaining : Z) : K (Z * Z * Z) :=
  match fuel with
  | O => halt (Spin 82)
  | S fuel =>
      if bool_decide (blocked_thread ≠ 0) then
        b ← get_thread blocked_thread;
        if bool_decide (remaining > reg 1 b) then
          let prev := link_of blocked_thread in
          next ← load_link prev;
          timeout_position fuel prev next (u64 (remaining - reg 1 b))
        else mret (prev, blocked_thread, remaining)
      else mret (prev, blocked_thread, remaining)
  end.

Definition enter_timeout_queue (thread : Z) : K unit :=
  k ← gets id;
  blocked_thread ← load_link (head_link k);
  t ← get_thread thread;
  '(prev, blocked_thread, remaining) ←
    timeout_position (queue_fuel k) (head_link k) blocked_thread (reg 1 t);
  _ ← upd_thread thread (set_reg 1 remaining);
  _ ← upd_thread thread (set_reg 17 blocked_thread);
  _ ← upd_thread thread (set_reg 16 prev);
  _ ← store_link prev thread;
  when (bool_decide (blocked_thread ≠ 0)) (
    _ ← upd_thread blocked_thread (λ b, set_reg 1 (u64 (reg 1 b - remaining)) b);
    upd_thread blocked_thread (set_reg 16 (link_of thread))).

(** The thread has to wait; the result is the thread to run. *)
Definition gate_block (thread : Z) : K Z :=
  t ← get_thread thread;
  let now := next t in
  _ ← upd_core (set_runnable (next t));
  _ ← remove_thread thread;
  _ ← upd_thread thread (set_gate THREAD_WAITING);
  _ ← upd_thread thread (set_reg 0 0);
  t ← get_thread thread;
  _ ← (if bool_decide (reg 1 t > 0) then enter_timeout_queue thread
       else
         _ ← upd_thread thread (set_reg 16 0);
         upd_thread thread (set_reg 17 0));
  mret now.

(** [thread] wakes the thread whose code is in its register 0. *)
Definition leave_timeout_queue (release_thread : Z) : K unit :=
  r ← get_thread release_thread;
  when (bool_decide (reg 16 r ≠ 0)) (
    let prevp := reg 16 r in
    let next := reg 17 r in
    _ ← store_link prevp next;
    when (bool_decide (next ≠ 0)) (
      _ ← upd_thread next (λ n, set_reg 1 (u64 (reg 1 n + reg 1 r)) n);
      upd_thread next (set_reg 16 (reg 16 r)))).

Definition gate_wake (thread release_thread : Z) : K unit :=
  t ← get_thread thread;
  r ← get_thread release_thread;
  if bool_decide (gate r = THREAD_WAITING) then
    if bool_decide (current_map t = current_map r) then
      _ ← insert_new_thread_after_old release_thread thread;
      _ ← upd_thread release_thread (set_gate 0);
      leave_timeout_queue release_thread
    else halt (Bsod 124)
  else when (bool_decide (gate r < 0x7fffffff))
    (upd_thread release_thread (λ r, set_gate (gate r + 1) r)).

Definition handle_svc_gate (thread : Z) : K thread_switch :=
  t ← get_thread thread;
  c ← get_core;
  _ ← guard_stop (bool_decide (partner t = 0 ∧
        (Z.land (spsr t) 0x1e = 8 ∨ 0 ≠ Z.land (spsr t) 0x10))) (Smc 5);
  if bool_decide (reg 0 t = 0) then
    if bool_decide (thread = interrupt_thread c) then
      _ ← guard_stop (bool_decide (current_map t ≠ system_map_index)) (Bsod 40);
      _ ← gate_tick thread;
      mret (ThreadSwitch thread thread)
    else if bool_decide (gate t > 0) then
      _ ← upd_thread thread (set_reg 0 (u64 (gate t)));
      _ ← upd_thread thread (set_gate 0);
      mret (ThreadSwitch thread thread)
    else
      now ← gate_block thread;
      mret (ThreadSwitch now thread)
  else
    real ← is_real_thread (u32 (reg 0 t));
    if (real : bool) then
      _ ← gate_wake thread (thread_from_code (u32 (reg 0 t)));
      mret (ThreadSwitch thread thread)
    else halt (Bsod 132).

(** ** Lists of differences *)
Fixpoint delta_insert (p n : Z) (q : list (Z * Z)) : list (Z * Z) :=
  match q with
  | [] => [(p, n)]
  | (x, d) :: q' =>
      if bool_decide (n > d) then (x, d) :: delta_insert p (n - d) q'
      else (p, n) :: (x, d - n) :: q'
  end.

Definition delta_add (d : Z) (q : list (Z * Z)) : list (Z * Z) :=
  match q with [] => [] | (x, e) :: q' => (x, e + d) :: q' end.

Fixpoint delta_remove (p : Z) (q : list (Z * Z)) : list (Z * Z) :=
  match q with
  | [] => []
  | (x, d) :: q' => if bool_decide (x = p) then delta_add d q' else (x, d) :: delta_remove p q'
  end.

(** The threads at the front whose difference is 0, and the rest. *)
Fixpoint expired (q : list (Z * Z)) : list Z * list (Z * Z) :=
  match q with
  | (x, d) :: q' => if bool_decide (d = 0) then let (w, r) := expired q' in (x :: w, r) else ([], q)
  | [] => ([], [])
  end.

Definition delta_tick (q : list (Z * Z)) : list Z * list (Z * Z) := expired (delta_add (-1) q).

(** ** Ticks left *)
Fixpoint expiry (acc : Z) (q : list (Z * Z)) : list (Z * Z) :=
  match q with
  | [] => []
  | (x, d) :: q' => (x, acc + d) :: expiry (acc + d) q'
  end.

(** Insertion in front of the first thread that does not time out earlier. *)
Fixpoint deadline_insert (p n : Z) (l : list (Z * Z)) : list (Z * Z) :=
  match l with
  | [] => [(p, n)]
  | (x, m) :: l' => if bool_decide (n > m) then (x, m) :: deadline_insert p n l' else (p, n) :: l
  end.

(** All differences are non-negative and the first is positive. *)
Definition deltas_ok (q : list (Z * Z)) : Prop :=
  Forall (λ e, 0 ≤ e.2) q ∧ (∀ e, head q = Some e → 0 < e.2).

Lemma expiry_insert acc p n q :
  expiry acc (delta_insert p n q) = deadline_insert p (acc + n) (expiry acc q).
Proof.
  revert acc n. induction q as [|[x d] q IH]; intros acc n; simpl; [done |].
  destruct (decide (n > d)).
  - rewrite !bool_decide_eq_true_2 by lia. simpl. rewrite IH. do 2 f_equal. lia.
  - rewrite !bool_decide_eq_false_2 by lia. simpl.
    by replace (acc + n + (d - n)) with (acc + d) by lia.
Qed.

Lemma expiry_add acc d q : expiry acc (delta_add d q) = expiry (acc + d) q.
Proof. destruct q as [|[x e] q]; simpl; [done |]. by replace (acc + (e + d)) with (acc + d + e) by lia. Qed.

Lemma expiry_fst acc q : (expiry acc q).*1 = q.*1.
Proof. revert acc. induction q as [|[x d] q IH]; intros acc; simpl; [done |]. by rewrite IH. Qed.

Lemma expiry_remove acc p q :
  NoDup q.*1 → expiry acc (delta_remove p q) = filter (λ e, e.1 ≠ p) (expiry acc q).
Proof.
  revert acc. induction q as [|[x d] q IH]; intros acc Hnd; simpl; [done |].
  apply NoDup_cons in Hnd as [Hx Hnd]. rewrite filter_cons. simpl.
  case_bool_decide; subst.
  - rewrite decide_False by tauto. rewrite expiry_add. symmetry. apply filter_all.
    apply Forall_forall. intros [y m] Hy Heq. simpl in Heq. subst. apply Hx.
    rewrite <- (expiry_fst (acc + d)). by apply (list_elem_of_fmap_2 fst _ (p, m)).
  - rewrite decide_True by done. simpl. by rewrite IH.
Qed.

Lemma expiry_ge acc q : Forall (λ e, 0 ≤ e.2) q → Forall (λ e, acc ≤ e.2) (expiry acc q).
Proof.
  revert acc. induction q as [|[x d] q IH]; intros acc Hq; simpl; [constructor |].
  apply Forall_cons in Hq as [Hd Hq]. simpl in Hd. constructor; [simpl; lia |].
  eapply Forall_impl; [by apply IH |]. intros ? ?; simpl in *; lia.
Qed.

Lemma expiry_pred acc q : expiry (acc - 1) q = prod_map id Z.pred <$> expiry acc q.
Proof.
  revert acc. induction q as [|[x d] q IH]; intros acc; simpl; [done |].
  replace (acc - 1 + d) with (acc + d - 1) by lia. rewrite IH. by rewrite <- Z.sub_1_r.
Qed.

Lemma expired_spec q :
  Forall (λ e, 0 ≤ e.2) q →
  (expired q).1 = (filter (λ e, e.2 = 0) (expiry 0 q)).*1 ∧
  expiry 0 (expired q).2 = filter (λ e, 0 < e.2) (expiry 0 q) ∧ deltas_ok (expired q).2.
Proof.
  induction q as [|[x d] q IH]; intros Hq; simpl.
  - split_and!; [done | done |]. split; [constructor | done].
  - pose proof Hq as Hq0. apply Forall_cons in Hq as [Hd Hq]. simpl in Hd. rewrite !filter_cons. simpl.
    case_bool_decide as H0.
    + subst. rewrite (decide_True (P := 0 + 0 = 0)), (decide_False (P := 0 < 0 + 0)) by lia.
      destruct (expired q) as [w r]. simpl in *.
      destruct (IH Hq) as (-> & -> & Hok). done.
    + assert (Forall (λ e : Z * Z, d ≤ e.2) (expiry d q)) as Hge by by apply expiry_ge.
      rewrite (decide_True (P := 0 < d)) by lia. rewrite (decide_False (P := d = 0)) by lia. simpl.
      rewrite (filter_none (λ e : Z * Z, e.2 = 0)), (filter_all (λ e : Z * Z, 0 < e.2)).
      * split_and!; [done | done |]. split; [done |]. intros e [= <-]. simpl. lia.
      * eapply Forall_impl; [exact Hge |]. intros ? ?; simpl in *; lia.
      * eapply Forall_impl; [exact Hge |]. intros ? ?; simpl in *; lia.
Qed.

(** A tick: every thread has one tick less, those that have none left are the
    ones that are woken. *)
Lemma delta_tick_spec q :
  deltas_ok q →
  (delta_tick q).1 = (filter (λ e, e.2 = 1) (expiry 0 q)).*1 ∧
  expiry 0 (delta_tick q).2 = filter (λ e, 0 < e.2) (prod_map id Z.pred <$> expiry 0 q) ∧
  deltas_ok (delta_tick q).2.
Proof.
  intros [Hq Hh]. unfold delta_tick. destruct (expired_spec (delta_add (-1) q)) as (H1 & H2 & H3).
  { destruct q as [|[x d] q]; simpl; [done |]. specialize (Hh _ eq_refl). simpl in Hh.
    apply Forall_cons in Hq as [_ Hq]. constructor; [simpl; lia | done]. }
  rewrite H1, H2, expiry_add. change (0 + -1) with (0 - 1). rewrite expiry_pred.
  split_and!; [|done | done]. generalize (expiry 0 q). intros l.
  induction l as [|[x d] l IHl]; [done |]. cbn [fmap list_fmap]. rewrite !filter_cons. simpl.
  repeat case_decide; simpl; try (exfalso; lia); try (f_equal; exact IHl).
  exact IHl.
Qed.

Lemma delta_insert_nonneg p n q :
  0 ≤ n → Forall (λ e, 0 ≤ e.2) q → Forall (λ e, 0 ≤ e.2) (delta_insert p n q).
Proof.
  revert n. induction q as [|[x d] q IH]; intros n Hn Hq; simpl; [by repeat constructor |].
  apply Forall_cons in Hq as [Hd Hq]. simpl in Hd. case_bool_decide.
  - constructor; [done |]. apply IH; [lia | done].
  - repeat constructor; simpl; [done | lia | done].
Qed.

Lemma delta_insert_ok p n q : 0 < n → deltas_ok q → deltas_ok (delta_insert p n q).
Proof.
  intros Hn [Hq Hh]. split; [apply delta_insert_nonneg; [lia | done] |].
  destruct q as [|[x d] q]; simpl; [by intros e [= <-] |].
  case_bool_decide; intros e [= <-]; simpl; [|done]. by apply (Hh (x, d)).
Qed.

Lemma delta_remove_nonneg p q : Forall (λ e, 0 ≤ e.2) q → Forall (λ e, 0 ≤ e.2) (delta_remove p q).
Proof.
  induction q as [|[x d] q IH]; intros Hq; simpl; [done |].
  apply Forall_cons in Hq as [Hd Hq]. simpl in Hd. case_bool_decide; [|constructor; auto].
  destruct q as [|[y e] q]; simpl; [constructor |].
  apply Forall_cons in Hq as [He Hq]. constructor; [simpl in *; lia | done].
Qed.

Lemma delta_remove_ok p q : deltas_ok q → deltas_ok (delta_remove p q).
Proof.
  intros [Hq Hh]. split; [by apply delta_remove_nonneg |].
  destruct q as [|[x d] q]; simpl; [done |]. specialize (Hh _ eq_refl). simpl in Hh.
  apply Forall_cons in Hq as [_ Hq].
  case_bool_decide; [|by intros e [= <-]].
  destruct q as [|[y e] q]; simpl; [done |]. intros ? [= <-]. simpl.
  apply Forall_cons in Hq as [He _]. simpl in He. lia.
Qed.

(** ** The queue in memory *)

(** Registers 1, 16 and 17 of a thread. *)
Definition queue_regs (t : thread_context) : option (Z * Z * Z) :=
  if bool_decide (length (regs t) = 31%nat) then Some (reg 1 t, reg 16 t, reg 17 t) else None.
Definition queue_view (ts : gmap Z thread_context) (p : Z) : option (Z * Z * Z) :=
  t ← ts !! p; queue_regs t.

(** From the pointer at address [a], which holds [h], the queue runs through [q] to
    the pointer at address [a'], which holds [h']. *)
Fixpoint segment (ts : gmap Z thread_context) (a h : Z) (q : list (Z * Z)) (a' h' : Z) : Prop :=
  match q with
  | [] => a = a' ∧ h = h'
  | (p, d) :: q' =>
      h = p ∧ 0 < p ∧ ∃ n, queue_view ts p = Some (d, a, n) ∧ segment ts (link_of p) n q' a' h'
  end.

Definition last_link (a : Z) (q : list (Z * Z)) : Z :=
  match last q with Some (p, _) => link_of p | None => a end.

(** The timeout queue of the core is [q]; no thread is laid out over the core's own
    pointer. *)
Record timeout_queue (k : kstate) (q : list (Z * Z)) : Prop := {
  tq_segment : segment (threads k) (head_link k) (blocked_with_timeout (core k)) q
                 (last_link (head_link k) q) 0;
  tq_nodup : NoDup q.*1;
  tq_deltas : deltas_ok q;
  tq_bound : Forall (λ e, e.2 < 2 ^ 64) (expiry 0 q);
  tq_core : 0 < head_link k;
  tq_apart : threads k !! (head_link k - offset_of_regs17) = None;
}.

Section segments.
Implicit Types (ts : gmap Z thread_context) (q : list (Z * Z)).

Lemma last_link_app a q x d q' : last_link a (q ++ (x, d) :: q') = last_link (link_of x) q'.
Proof.
  unfold last_link. rewrite last_app_cons. destruct q' as [|e q'']; [done |].
  rewrite last_cons_cons. destruct (last (e :: q'')) eqn:E; [done |]. by apply last_None in E.
Qed.

Lemma last_link_cons a x d q : last_link a ((x, d) :: q) = last_link (link_of x) q.
Proof. apply (last_link_app a []). Qed.

Lemma segment_app ts a h q1 q2 a' h' :
  segment ts a h (q1 ++ q2) a' h' ↔ ∃ b g, segment ts a h q1 b g ∧ segment ts b g q2 a' h'.
Proof.
  revert a h. induction q1 as [|[p d] q1 IH]; intros a h; simpl.
  - split; [intros ?; by exists a, h | by intros (b & g & [-> ->] & ?)].
  - setoid_rewrite IH. split.
    + intros (-> & H0 & n & Hv & b & g & H1 & H2). exists b, g. eauto 7.
    + intros (b & g & (-> & H0 & n & Hv & H1) & H2). eauto 8.
Qed.

Lemma segment_end ts a h q a' h' : segment ts a h q a' h' → a' = last_link a q.
Proof.
  revert a h. induction q as [|[p d] q IH]; intros a h; simpl.
  - by intros [-> ->].
  - intros (-> & _ & n & _ & H). apply IH in H. rewrite H.
    by rewrite last_link_cons.
Qed.

Lemma segment_frame ts ts' a h q a' h' :
  (∀ p, p ∈ q.*1 → queue_view ts' p = queue_view ts p) →
  segment ts a h q a' h' → segment ts' a h q a' h'.
Proof.
  revert a h. induction q as [|[p d] q IH]; intros a h Hf; simpl; [done |].
  intros (-> & H0 & n & Hv & H). split; [done |]. split; [done |]. exists n. split.
  - by rewrite Hf by set_solver.
  - apply IH; [|done]. intros p' Hp. apply Hf. set_solver.
Qed.

Lemma segment_lookup ts a h q a' h' p :
  segment ts a h q a' h' → p ∈ q.*1 → is_Some (queue_view ts p).
Proof.
  revert a h. induction q as [|[x d] q IH]; intros a h; simpl; [set_solver |].
  intros (-> & _ & n & Hv & H) [-> | Hp]%elem_of_cons; [by eexists | by eapply IH].
Qed.

Lemma queue_view_is_Some ts p v : queue_view ts p = Some v → is_Some (ts !! p).
Proof. unfold queue_view. destruct (ts !! p); [by eexists | done]. Qed.

End segments.

(** Updates of the three registers. *)
Section views.
Implicit Types (ts : gmap Z thread_context) (p q : Z).

Lemma queue_view_alter ts p q (f : thread_context → thread_context) g :
  (∀ t, queue_regs (f t) = g <$> queue_regs t) →
  queue_view (alter f p ts) q = if decide (p = q) then g <$> queue_view ts q else queue_view ts q.
Proof.
  intros Hf. unfold queue_view. rewrite lookup_alter. case_decide; [subst | done].
  destruct (ts !! q); simpl; [apply Hf | done].
Qed.

Lemma queue_regs_set_reg n v t :
  queue_regs (set_reg n v t) =
    (λ '(a, b, c), (if decide (n = 1%nat) then v else a, if decide (n = 16%nat) then v else b,
                    if decide (n = 17%nat) then v else c)) <$> queue_regs t.
Proof.
  unfold queue_regs. simpl. rewrite length_insert. case_bool_decide; [|done]. simpl.
  repeat case_decide; subst; rewrite ?reg_set_reg_same, ?reg_set_reg_other by (done || lia); done.
Qed.

Lemma queue_view_set_reg ts n v p q :
  queue_view (alter (set_reg n v) p ts) q =
    if decide (p = q) then
      (λ '(a, b, c), (if decide (n = 1%nat) then v else a, if decide (n = 16%nat) then v else b,
                      if decide (n = 17%nat) then v else c)) <$> queue_view ts q
    else queue_view ts q.
Proof. apply queue_view_alter. intros t. apply queue_regs_set_reg. Qed.

Lemma queue_view_set_gate ts v p q : queue_view (alter (set_gate v) p ts) q = queue_view ts q.
Proof.
  rewrite (queue_view_alter _ _ _ _ id);
    [|intros t; change (queue_regs (set_gate v t)) with (queue_regs t); by destruct (queue_regs t)].
  case_decide; [|done]. by destruct (queue_view ts q).
Qed.

Lemma queue_view_links ts ts' p : same_but_links ts ts' → queue_view ts' p = queue_view ts p.
Proof.
  intros H. specialize (H p). unfold queue_view.
  destruct (ts !! p) as [t|], (ts' !! p) as [t'|]; simpl in *; try done.
  apply (f_equal (fmap regs)) in H. simpl in H. unfold queue_regs, reg.
  by replace (regs t') with (regs t) by congruence.
Qed.
End views.

(** ** Changes to queue registers only *)
Definition forget_queue (t : thread_context) : thread_context :=
  set_reg 1 0 (set_reg 16 0 (set_reg 17 0 t)).
Definition same_but_queue (ts ts' : gmap Z thread_context) : Prop :=
  ∀ p, forget_queue <$> ts !! p = forget_queue <$> ts' !! p.

#[global] Instance same_but_queue_equiv : Equivalence same_but_queue.
Proof.
  unfold same_but_queue. split.
  - by intros ??.
  - by intros ?? H p.
  - intros ??? H1 H2 p. by rewrite H1.
Qed.

(** [k'] is [k] but for queue registers and the head of the queue. *)
Definition requeues (k k' : kstate) : Prop :=
  k' = set_core (set_blocked_with_timeout (blocked_with_timeout (core k')) (core k))
         (set_threads (threads k') k) ∧
  same_but_queue (threads k) (threads k').

#[global] Instance requeues_preorder : PreOrder requeues.
Proof.
  split.
  - intros k. split; [by destruct k as [[]] | done].
  - intros k1 k2 k3 [E1 H1] [E2 H2]. split; [|by transitivity (threads k2)].
    rewrite E2 at 1. rewrite E1. done.
Qed.

Section forgetting.
Implicit Types (k : kstate) (p v : Z) (n : nat).

Lemma set_reg_comm n m v w t : n ≠ m → set_reg n v (set_reg m w t) = set_reg m w (set_reg n v t).
Proof. intros H. unfold set_reg. simpl. unfold set_regs. simpl. f_equal. by apply list_insert_insert_ne. Qed.

Lemma set_reg_twice n v w t : set_reg n v (set_reg n w t) = set_reg n v t.
Proof. unfold set_reg. simpl. unfold set_regs. simpl. f_equal. by apply list_insert_insert_eq. Qed.

Lemma forget_set_reg n v t : n ∈ [1; 16; 17]%nat → forget_queue (set_reg n v t) = forget_queue t.
Proof.
  intros H. unfold forget_queue. rewrite !elem_of_cons, elem_of_nil in H.
  destruct H as [-> | [-> | [-> |[]]]].
  - rewrite (set_reg_comm 17 1), (set_reg_comm 16 1), set_reg_twice by done. done.
  - rewrite (set_reg_comm 17 16), set_reg_twice by done. done.
  - by rewrite set_reg_twice.
Qed.

Lemma same_but_queue_alter ts p f :
  (∀ t, forget_queue (f t) = forget_queue t) → same_but_queue ts (alter f p ts).
Proof.
  intros Hf q. rewrite lookup_alter. case_decide; [subst | done].
  destruct (ts !! q); simpl; [by rewrite Hf | done].
Qed.

Lemma requeues_upd k p f :
  (∀ t, forget_queue (f t) = forget_queue t) → requeues k (set_threads (alter f p (threads k)) k).
Proof. intros Hf. split; [by destruct k as [[]] | by apply same_but_queue_alter]. Qed.

Lemma requeues_observe k k' p {A} (f : thread_context → A) :
  (∀ t, f (forget_queue t) = f t) → requeues k k' → f <$> threads k' !! p = f <$> threads k !! p.
Proof.
  intros Hf [_ H]. specialize (H p).
  destruct (threads k !! p) as [t|], (threads k' !! p) as [t'|]; simpl in *; try done.
  injection H as H. f_equal. rewrite <- (Hf t'), <- (Hf t). f_equal.
  unfold forget_queue, set_reg, set_regs. simpl. f_equal; congruence.
Qed.

Lemma requeues_head_link k k' : requeues k k' → head_link k' = head_link k.
Proof. intros [-> _]. done. Qed.
End forgetting.

Definition head_thread (q : list (Z * Z)) : Z :=
  match q with [] => 0 | (x, _) :: _ => x end.

#[export] Hint Extern 1 (_ ∈ [1; 16; 17]%nat) => (rewrite !elem_of_cons; tauto) : isambard.

Section links.
Implicit Types (k : kstate) (p x a : Z) (q : list (Z * Z)).

Lemma link_of_not_head k p :
  threads k !! (head_link k - offset_of_regs17) = None → is_Some (threads k !! p) → link_of p ≠ head_link k.
Proof.
  intros Hap [t Ht] E. rewrite <- E in Hap. unfold link_of in Hap.
  replace (p + offset_of_regs17 - offset_of_regs17) with p in Hap by lia. congruence.
Qed.

Lemma link_of_thread p : link_of p - offset_of_regs17 = p.
Proof. unfold link_of. lia. Qed.

Lemma load_link_of k p t :
  threads k !! (head_link k - offset_of_regs17) = None → threads k !! p = Some t →
  load_link (link_of p) k = Ok (reg 17 t) k.
Proof.
  intros Hap Ht. unfold load_link. rewrite gets_ok. unfold id.
  rewrite bool_decide_eq_false_2 by (apply link_of_not_head; [done | by eexists]).
  rewrite link_of_thread. by erewrite bind_ok by by apply get_thread_ok.
Qed.

(** Storing through the pointer at the end of [q] makes the queue go on to [v]. *)
Lemma store_link_retarget k q g v :
  threads k !! (head_link k - offset_of_regs17) = None → NoDup q.*1 →
  segment (threads k) (head_link k) (blocked_with_timeout (core k)) q (last_link (head_link k) q) g →
  ∃ k', store_link (last_link (head_link k) q) v k = Ok () k' ∧ requeues k k' ∧
    segment (threads k') (head_link k) (blocked_with_timeout (core k')) q (last_link (head_link k) q) v ∧
    (∀ p, p ∉ q.*1 → threads k' !! p = threads k !! p).
Proof.
  intros Hap Hnd Hs. unfold store_link. rewrite gets_ok. unfold id.
  destruct (decide (q = [])) as [-> | Hq].
  - simpl. rewrite bool_decide_eq_true_2 by done. eexists. split; [done |].
    split; [split; [by destruct k as [[]] | done] |]. done.
  - destruct (exists_last Hq) as (q1 & [x d] & ->). clear Hq.
    rewrite last_link_app in *. change (last_link (link_of x) []) with (link_of x) in *.
    apply segment_app in Hs as (b & h & H1 & H2). simpl in H2.
    destruct H2 as (-> & Hx0 & n & Hv & _ & _).
    pose proof (queue_view_is_Some _ _ _ Hv) as Hx.
    rewrite bool_decide_eq_false_2 by by apply link_of_not_head. rewrite link_of_thread.
    rewrite upd_thread_alter by done. eexists. split; [done |].
    assert (x ∉ q1.*1).
    { rewrite fmap_app, NoDup_app in Hnd. simpl in Hnd. set_solver. }
    split; [apply requeues_upd; intros; apply forget_set_reg; auto with isambard |]. split.
    + simpl. apply segment_app. exists b, x. split.
      * eapply segment_frame; [|exact H1]. intros p Hp.
        rewrite queue_view_set_reg, decide_False by set_solver. done.
      * simpl. split; [done |]. split; [done |]. exists v. split; [|done].
        rewrite queue_view_set_reg, decide_True by done. by rewrite Hv.
    + intros p Hp. simpl. rewrite lookup_alter_ne; [done |].
      rewrite fmap_app in Hp. set_solver.
Qed.

(** Adjusting the difference and the back pointer of the first thread of [q]. *)
Definition adjust_first (h : Z) (f : Z → Z) (a : Z) : K unit :=
  when (bool_decide (h ≠ 0)) (
    _ ← upd_thread h (λ b, set_reg 1 (f (reg 1 b)) b);
    upd_thread h (set_reg 16 a)).

Lemma adjust_first_ok k q a0 a e δ (f : Z → Z) :
  segment (threads k) a0 (head_thread q) q e 0 → NoDup q.*1 →
  (∀ x d, head q = Some (x, d) → f d = d + δ) → 
  ∃ k', adjust_first (head_thread q) f a k = Ok () k' ∧ requeues k k' ∧
    (q ≠ [] → segment (threads k') a (head_thread q) (delta_add δ q) e 0) ∧
    blocked_with_timeout (core k') = blocked_with_timeout (core k) ∧
    (∀ p, p ≠ head_thread q → threads k' !! p = threads k !! p).
Proof.
  intros Hs Hnd Hf. unfold adjust_first. destruct q as [|[x d] q]; simpl in *.
  - exists k. split; [done |]. split; [done |]. done.
  - destruct Hs as (_ & Hx0 & n & Hv & Hs). apply NoDup_cons in Hnd as [Hx Hnd].
    pose proof (queue_view_is_Some _ _ _ Hv) as [t Ht].
    rewrite bool_decide_eq_true_2 by lia. unfold when.
    erewrite bind_ok by by apply upd_thread_alter.
    rewrite upd_thread_alter by (simpl; auto with isambard).
    eexists. split; [done |]. simpl. split_and!.
    + etransitivity; [apply requeues_upd; intros; apply forget_set_reg; auto with isambard |].
      apply (requeues_upd (set_threads _ k)). intros; apply forget_set_reg; auto with isambard.
    + intros _. split; [done |]. split; [done |]. exists n. split.
      * rewrite queue_view_set_reg, decide_True by done. unfold queue_view in *.
        rewrite lookup_alter_eq, Ht in *. simpl in *. rewrite queue_regs_set_reg, Hv. simpl.
        do 3 f_equal. assert (reg 1 t = d) as ->; [|by apply (Hf x d)].
        unfold queue_regs in Hv. case_bool_decide; naive_solver.
      * eapply segment_frame; [|exact Hs]. intros p Hp.
        rewrite queue_view_set_reg, decide_False by set_solver.
        unfold queue_view. by rewrite lookup_alter_ne by set_solver.
    + done.
    + intros p Hp. by rewrite !lookup_alter_ne by done.
Qed.

Lemma delta_add_nil δ q : q = [] → delta_add δ q = [].
Proof. by intros ->. Qed.

Lemma segment_head_thread ts a h q e : segment ts a h q e 0 → h = head_thread q.
Proof. destruct q as [|[x d] q]; simpl; naive_solver. Qed.

(** Where a thread with [n] ticks to wait goes. *)
Lemma timeout_position_ok k fuel a h q e p n :
  threads k !! (head_link k - offset_of_regs17) = None →
  segment (threads k) a h q e 0 → (length q < fuel)%nat →
  Forall (λ e, 0 ≤ e.2) q → 0 < n < 2 ^ 64 →
  ∃ q1 q2 r, timeout_position fuel a h n k = Ok (last_link a q1, head_thread q2, r) k ∧
    q = q1 ++ q2 ∧ 0 < r < 2 ^ 64 ∧ (∀ x d, head q2 = Some (x, d) → r ≤ d) ∧
    delta_insert p n q = q1 ++ (p, r) :: delta_add (-r) q2.
Proof.
  intros Hap. revert fuel a h n. induction q as [|[x d] q IH]; intros fuel a h n Hs Hf Hq Hn;
    (destruct fuel as [|fuel]; [simpl in Hf; lia |]); simpl in Hs |- *.
  - destruct Hs as [_ ->]. exists [], [], n. done.
  - destruct Hs as (-> & Hx0 & nx & Hv & Hs). apply Forall_cons in Hq as [Hd Hq]. simpl in Hd.
    pose proof (queue_view_is_Some _ _ _ Hv) as [t Ht].
    assert (reg 1 t = d ∧ reg 17 t = nx) as [Hd1 Hn17].
    { unfold queue_view in Hv. rewrite Ht in Hv. simpl in Hv. unfold queue_regs in Hv.
      case_bool_decide; naive_solver. }
    rewrite bool_decide_eq_true_2 by lia. erewrite bind_ok by by apply get_thread_ok.
    rewrite Hd1. case_bool_decide as Hgt.
    + erewrite bind_ok by by apply load_link_of. rewrite Hn17, u64_id by (unfold is_u64; lia).
      destruct (IH fuel (link_of x) nx (n - d) Hs) as (q1 & q2 & r & E & -> & Hr & Hh & Hi);
        [simpl in Hf; lia | done | lia |].
      exists ((x, d) :: q1), q2, r. rewrite E. split_and!; try done; try lia.
      * by rewrite last_link_cons.
      * by rewrite Hi.
    + exists [], ((x, d) :: q), n. simpl. split_and!; try done; try lia.
      intros x' d' [= <- <-]. lia.
Qed.
End links.

(** ** Entering and leaving the queue *)
Lemma NoDup_size {A} (m : gmap Z A) (l : list Z) :
  NoDup l → (∀ p, p ∈ l → is_Some (m !! p)) → (length l ≤ size m)%nat.
Proof.
  intros Hnd Hin. rewrite <- size_dom, <- (size_list_to_set (C := gset Z) l Hnd).
  apply subseteq_size. intros p Hp. apply elem_of_dom, Hin. set_solver.
Qed.

Lemma delta_add_fst δ q : (delta_add δ q).*1 = q.*1.
Proof. by destruct q as [|[x d] q]. Qed.

Lemma delta_add_head δ q : head_thread (delta_add δ q) = head_thread q.
Proof. by destruct q as [|[x d] q]. Qed.

Lemma expiry_bound acc B q :
  Forall (λ e, 0 ≤ e.2) q → 0 ≤ acc → Forall (λ e, e.2 < B) (expiry acc q) → Forall (λ e, e.2 < B) q.
Proof.
  revert acc. induction q as [|[x d] q IH]; intros acc Hq Ha Hb; simpl in *; [done |].
  apply Forall_cons in Hq as [Hd Hq]. apply Forall_cons in Hb as [Hb1 Hb]. simpl in *.
  constructor; [simpl; lia |]. apply (IH (acc + d)); [done | lia | done].
Qed.

Lemma deadline_insert_Forall (P : Z * Z → Prop) p n l :
  P (p, n) → Forall P l → Forall P (deadline_insert p n l).
Proof.
  intros Hn. induction 1 as [|[x m] l H Hl IH]; simpl; [by repeat constructor |].
  case_bool_decide; repeat constructor; done.
Qed.

Lemma requeues_None k k' p : requeues k k' → threads k !! p = None → threads k' !! p = None.
Proof.
  intros [_ H] Hp. specialize (H p). rewrite Hp in H. by destruct (threads k' !! p).
Qed.

Lemma last_link_last a q1 q2 : last_link a (q1 ++ q2) = last_link (last_link a q1) q2.
Proof.
  destruct (decide (q2 = [])) as [-> | H]; [by rewrite app_nil_r |].
  destruct q2 as [|[x d] q2]; [done |]. rewrite last_link_app.
  by rewrite last_link_cons.
Qed.

Lemma timeout_queue_length k q : timeout_queue k q → (length q < queue_fuel k)%nat.
Proof.
  intros [Hs Hnd _ _ _ _]. unfold queue_fuel. rewrite <- (length_fmap fst).
  apply Nat.lt_succ_r, NoDup_size; [done |].
  intros p Hp. destruct (segment_lookup _ _ _ _ _ _ _ Hs Hp) as [v Hv].
  by eapply queue_view_is_Some.
Qed.

Lemma timeout_queue_in k q p : timeout_queue k q → p ∈ q.*1 → is_Some (threads k !! p) ∧ 0 < p.
Proof.
  intros [Hs _ _ _ _ _] Hp. split.
  - destruct (segment_lookup _ _ _ _ _ _ _ Hs Hp) as [v Hv]. by eapply queue_view_is_Some.
  - clear -Hs Hp. revert Hs. generalize (head_link k) at 1. generalize (blocked_with_timeout (core k)).
    generalize (last_link (head_link k) q).
    induction q as [|[x d] q IH]; intros e h a; simpl; [set_solver |].
    intros (-> & H0 & n & _ & Hs). apply elem_of_cons in Hp as [-> | Hp]; [done |]. by eapply IH.
Qed.

Lemma queue_view_reg k p a b c t :
  queue_view (threads k) p = Some (a, b, c) → threads k !! p = Some t →
  reg 1 t = a ∧ reg 16 t = b ∧ reg 17 t = c.
Proof.
  unfold queue_view. intros Hv Ht. rewrite Ht in Hv. simpl in Hv. unfold queue_regs in Hv.
  case_bool_decide; naive_solver.
Qed.

(** Both operations redirect the pointer at the end of the front part [q1] and
    adjust the first thread of the back part [q2]. *)
Lemma splice_ok k q1 q2 g a0 e v (f : Z → Z) a δ :
  threads k !! (head_link k - offset_of_regs17) = None → NoDup (q1 ++ q2).*1 → 0 ∉ q1.*1 →
  segment (threads k) (head_link k) (blocked_with_timeout (core k)) q1 (last_link (head_link k) q1) g →
  segment (threads k) a0 (head_thread q2) q2 e 0 →
  (∀ x d, head q2 = Some (x, d) → f d = d + δ) →
  ∃ k', (_ ← store_link (last_link (head_link k) q1) v; adjust_first (head_thread q2) f a) k = Ok () k' ∧
    requeues k k' ∧
    segment (threads k') (head_link k) (blocked_with_timeout (core k')) q1 (last_link (head_link k) q1) v ∧
    (q2 ≠ [] → segment (threads k') a (head_thread q2) (delta_add δ q2) e 0) ∧
    (∀ p, p ∉ q1.*1 → p ≠ head_thread q2 → threads k' !! p = threads k !! p).
Proof.
  intros Hap Hnd H0 Hs1 Hs2 Hf. rewrite fmap_app in Hnd. apply NoDup_app in Hnd as (Hnd1 & Hdis & Hnd2).
  destruct (store_link_retarget k q1 g v) as (k2 & E2 & Hrq2 & Hs1' & Hf2); try done.
  destruct (adjust_first_ok k2 q2 a0 a e δ f) as (k3 & E3 & Hrq3 & Hs2' & Hbw & Hf3); try done.
  { eapply segment_frame; [|exact Hs2]. intros p Hp. unfold queue_view. rewrite Hf2; [done | set_solver]. }
  exists k3. erewrite bind_ok by exact E2. split; [exact E3 |]. split; [by etransitivity |]. split; [|split].
  - rewrite Hbw. eapply segment_frame; [|exact Hs1']. intros p Hp. unfold queue_view.
    rewrite Hf3; [done |]. intros ->. destruct q2 as [|[x' d'] q2]; simpl in *; set_solver.
  - exact Hs2'.
  - intros p Hp Hp'. by rewrite Hf3, Hf2.
Qed.

(** The rest of the queue, re-attached behind a new pointer. *)
Lemma segment_tail ts a b q q1 δ :
  (q ≠ [] → segment ts b (head_thread q) (delta_add δ q) (last_link a (q1 ++ q)) 0) →
  segment ts b (head_thread q) (delta_add δ q) (last_link b (delta_add δ q)) 0.
Proof.
  intros H. destruct q as [|[x d] q]; [done |]. specialize (H ltac:(done)).
  rewrite last_link_app in H.
  simpl delta_add in *. by rewrite last_link_cons.
Qed.

(** The three registers [enter_timeout_queue] sets first. *)
Definition with_queue_regs (thread a b c : Z) (ts : gmap Z thread_context) : gmap Z thread_context :=
  alter (set_reg 16 b) thread (alter (set_reg 17 c) thread (alter (set_reg 1 a) thread ts)).

Lemma with_queue_regs_view ts thread a b c v p :
  queue_view ts thread = Some v →
  queue_view (with_queue_regs thread a b c ts) p =
    if decide (thread = p) then Some (a, b, c) else queue_view ts p.
Proof.
  intros Hv. unfold with_queue_regs. rewrite !queue_view_set_reg. case_decide; [subst | done].
  rewrite Hv. by destruct v as [[??]?].
Qed.

Lemma with_queue_regs_requeues k thread a b c :
  requeues k (set_threads (with_queue_regs thread a b c (threads k)) k).
Proof.
  split; [by destruct k as [[]] |]. simpl. unfold with_queue_regs.
  repeat (etransitivity; [|apply same_but_queue_alter; intros; apply forget_set_reg; auto with isambard]).
  done.
Qed.

(** A queue with [thread] spliced in is the queue [delta_insert] makes. *)
Lemma spliced_queue k k2 q1 q2 thread n r :
  timeout_queue k (q1 ++ q2) → requeues k k2 → thread ∉ (q1 ++ q2).*1 → 0 < thread → 0 < n < 2 ^ 64 →
  delta_insert thread n (q1 ++ q2) = q1 ++ (thread, r) :: delta_add (-r) q2 →
  segment (threads k2) (head_link k) (blocked_with_timeout (core k2)) q1 (last_link (head_link k) q1) thread →
  queue_view (threads k2) thread = Some (r, last_link (head_link k) q1, head_thread q2) →
  (q2 ≠ [] → segment (threads k2) (link_of thread) (head_thread q2) (delta_add (-r) q2)
               (last_link (head_link k) (q1 ++ q2)) 0) →
  timeout_queue k2 (delta_insert thread n (q1 ++ q2)).
Proof.
  intros [_ Hnd Hok Hb Hcore Hap] Hrq Hnot Ht0 Hn Hins Hs1 Hv Hs2.
  split; rewrite ?(requeues_head_link k k2 Hrq).
  - rewrite Hins. apply segment_app. exists (last_link (head_link k) q1), thread. split; [exact Hs1 |].
    simpl. split; [done |]. split; [done |]. exists (head_thread q2). split; [done |].
    rewrite last_link_last, last_link_cons. by eapply segment_tail.
  - rewrite Hins. rewrite fmap_app in Hnd, Hnot |- *. simpl. rewrite delta_add_fst.
    apply NoDup_app in Hnd as (? & ? & ?).
    apply NoDup_app. split; [done |]. split; [set_solver |]. apply NoDup_cons. set_solver.
  - apply delta_insert_ok; [lia | done].
  - rewrite expiry_insert. apply deadline_insert_Forall; [simpl; lia | done].
  - done.
  - by apply (requeues_None k k2).
Qed.

Lemma enter_timeout_queue_ok k q thread n x y :
  timeout_queue k q → thread ∉ q.*1 → 0 < thread →
  queue_view (threads k) thread = Some (n, x, y) → 0 < n < 2 ^ 64 →
  ∃ k', enter_timeout_queue thread k = Ok () k' ∧ requeues k k' ∧
    timeout_queue k' (delta_insert thread n q).
Proof.
  intros Htq Hnot Ht0 Hview Hn. pose proof (timeout_queue_length _ _ Htq) as Hfuel.
  assert (0 ∉ q.*1) as H0 by (intros H; destruct (timeout_queue_in k q 0 Htq H); lia).
  pose proof Htq as [Hs Hnd Hok Hb Hcore Hap].
  pose proof (queue_view_is_Some _ _ _ Hview) as [t Ht].
  destruct (queue_view_reg _ _ _ _ _ _ Hview Ht) as (Hn1 & _ & _).
  unfold enter_timeout_queue. rewrite gets_ok. unfold id.
  erewrite bind_ok by (unfold load_link; rewrite gets_ok; unfold id; by rewrite bool_decide_eq_true_2).
  erewrite bind_ok by by apply get_thread_ok. rewrite Hn1.
  destruct (timeout_position_ok k (queue_fuel k) _ _ q _ thread n Hap Hs Hfuel (proj1 Hok) Hn)
    as (q1 & q2 & r & E & -> & Hr & Hle & Hins).
  erewrite bind_ok by exact E. cbv beta iota. do 3 step_upd. cbn [threads set_threads].
  change (set_threads _ _) with (set_threads
    (with_queue_regs thread r (last_link (head_link k) q1) (head_thread q2) (threads k)) k).
  set (k1 := set_threads _ k).
  assert (requeues k k1) as Hrq1 by apply with_queue_regs_requeues.
  assert (∀ p, p ≠ thread → queue_view (threads k1) p = queue_view (threads k) p) as Hframe.
  { intros p Hp. etransitivity; [by eapply with_queue_regs_view |]. by rewrite decide_False. }
  apply segment_app in Hs as (b & g & Hs1 & Hs2).
  pose proof (segment_end _ _ _ _ _ _ Hs1). subst b.
  pose proof (segment_head_thread _ _ _ _ _ Hs2). subst g.
  rewrite fmap_app in Hnot, H0.
  destruct (splice_ok k1 q1 q2 (head_thread q2) (last_link (head_link k) q1)
    (last_link (head_link k) (q1 ++ q2)) thread (λ d, u64 (d - r)) (link_of thread) (-r))
    as (k2 & E2 & Hrq2 & Hs1' & Hs2' & Hf2).
  { by apply (requeues_None k k1). } { done. } { set_solver. }
  { eapply segment_frame; [|exact Hs1]. intros p Hp. apply Hframe. set_solver. }
  { eapply segment_frame; [|exact Hs2]. intros p Hp. apply Hframe. set_solver. }
  { intros x' d' Hx. rewrite u64_id; [lia |]. unfold is_u64. specialize (Hle _ _ Hx).
    apply expiry_bound in Hb; [|apply Hok | done].
    apply Forall_app in Hb as [_ Hb]. destruct q2; [done |]. simplify_eq/=.
    apply Forall_cons in Hb as [Hb _]. simpl in Hb. lia. }
  exists k2. assert (requeues k k2) as Hrq by by etransitivity. split; [exact E2 |]. split; [done |].
  eapply spliced_queue; try done; [rewrite fmap_app; set_solver |].
  unfold queue_view. rewrite Hf2; [|set_solver |destruct q2 as [|[]]; set_solver by lia].
  etransitivity; [by eapply with_queue_regs_view |]. by rewrite decide_True.
Qed.

Lemma delta_remove_split p d q1 q2 :
  p ∉ q1.*1 → delta_remove p (q1 ++ (p, d) :: q2) = q1 ++ delta_add d q2.
Proof.
  induction q1 as [|[x e] q1 IH]; simpl; intros Hp.
  - by rewrite bool_decide_eq_true_2.
  - rewrite bool_decide_eq_false_2 by set_solver. rewrite IH by set_solver. done.
Qed.

Lemma leave_timeout_queue_ok k q p :
  timeout_queue k q → p ∈ q.*1 →
  ∃ k', leave_timeout_queue p k = Ok () k' ∧ requeues k k' ∧ timeout_queue k' (delta_remove p q).
Proof.
  intros Htq Hp.
  assert (0 ∉ q.*1) as H0 by (intros H; destruct (timeout_queue_in k q 0 Htq H); lia).
  pose proof Htq as [Hs Hnd Hok Hb Hcore Hap].
  pose proof (expiry_remove 0 p q Hnd) as Hexp. pose proof (delta_remove_ok p q Hok) as Hok'.
  assert (Forall (λ e, e.2 < 2 ^ 64) (expiry 0 (delta_remove p q))) as Hb'.
  { rewrite Hexp. by apply Forall_filter. }
  apply list_elem_of_fmap in Hp as ([p' d] & -> & Hp). cbn [fst] in *.
  apply list_elem_of_split in Hp as (q1 & q2 & ->).
  rewrite fmap_app in Hnd, H0. simpl in Hnd, H0. apply NoDup_app in Hnd as (Hnd1 & Hdis & Hnd2).
  apply NoDup_cons in Hnd2 as [Hp2 Hnd2].
  rewrite delta_remove_split in * by set_solver.
  apply segment_app in Hs as (b & g & Hs1 & Hs2).
  pose proof (segment_end _ _ _ _ _ _ Hs1). subst b. simpl in Hs2.
  destruct Hs2 as (-> & Hp0 & n & Hv & Hs2). rewrite last_link_app in Hs2.
  pose proof (segment_head_thread _ _ _ _ _ Hs2). subst n.
  pose proof (queue_view_is_Some _ _ _ Hv) as [t Ht].
  destruct (queue_view_reg _ _ _ _ _ _ Hv Ht) as (R1 & R16 & R17).
  unfold leave_timeout_queue. erewrite bind_ok by by apply get_thread_ok.
  rewrite R1, R16, R17. cbv zeta. rewrite bool_decide_eq_true_2; [|assert (0 < last_link (head_link k) q1); [|lia]].
  2: { destruct (decide (q1 = [])) as [-> | Hne]; [done |].
       destruct (exists_last Hne) as (q1' & [x e] & ->). rewrite last_link_app.
       destruct (timeout_queue_in _ _ x Htq) as [_ Hx]; [rewrite !fmap_app; set_solver |].
       change (0 < link_of x). unfold link_of, offset_of_regs17. lia. }
  destruct (splice_ok k q1 q2 p' (link_of p') (last_link (link_of p') q2) (head_thread q2)
    (λ e, u64 (e + d)) (last_link (head_link k) q1) d) as (k2 & E2 & Hrq & Hs1' & Hs2' & Hf2); try done.
  { rewrite fmap_app. apply NoDup_app. set_solver. } { set_solver. }
  { intros x' e Hx. apply u64_id. destruct q2; [done |]. simplify_eq/=.
    apply expiry_bound in Hb'; [|apply Hok' | done]. apply Forall_app in Hb' as [_ Hb'].
    apply Forall_cons in Hb' as [Hb' _]. destruct Hok' as [Hok' _].
    apply Forall_app in Hok' as [_ Hok']. apply Forall_cons in Hok' as [Hok' _].
    unfold is_u64. simpl in *. lia. }
  exists k2. split; [exact E2 |]. split; [done |].
  split; rewrite ?(requeues_head_link k k2 Hrq); try done.
  - apply segment_app. exists (last_link (head_link k) q1), (head_thread q2). split; [exact Hs1' |].
    rewrite last_link_last. apply (segment_tail _ (link_of p') _ _ [(p', d)]).
    intros Hq2. change ([(p', d)] ++ q2) with ((p', d) :: q2). rewrite last_link_cons. auto.
  - rewrite fmap_app, delta_add_fst. apply NoDup_app. set_solver.
  - by apply (requeues_None k k2).
Qed.

(** ** The three uses of the gate *)
Lemma ring_ext ts ts' l :
  (∀ p, p ∈ l → next_of ts' p = next_of ts p) → (∀ p, p ∈ l → prev_of ts' p = prev_of ts p) →
  ring ts l → ring ts' l.
Proof.
  intros Hn Hp. destruct l as [|h l]; [done |]. intros [Hnd Hc]. split; [done |].
  apply (chain_frame ts); [done | done |].
  intros p Hin. apply Hp. simpl in Hin. set_solver.
Qed.

Lemma requeues_ring k k' l : requeues k k' → ring (threads k) l → ring (threads k') l.
Proof.
  intros H. apply ring_ext; intros p _; unfold next_of, prev_of; by apply requeues_observe.
Qed.

(** What a change of links or of fields outside the queue leaves alone. *)
Lemma timeout_queue_frame k k' q :
  timeout_queue k q → core_self (core k') = core_self (core k) →
  blocked_with_timeout (core k') = blocked_with_timeout (core k) →
  (∀ p, p ∈ q.*1 → queue_view (threads k') p = queue_view (threads k) p) →
  (∀ p, threads k !! p = None → threads k' !! p = None) → timeout_queue k' q.
Proof.
  intros [Hs Hnd Hok Hb Hcore Hap] Hself Hbw Hview Hnone.
  assert (head_link k' = head_link k) as Hl by (unfold head_link; by rewrite Hself).
  split; rewrite ?Hl, ?Hbw; auto. by eapply segment_frame.
Qed.

Lemma relinks_queue l k k' q : relinks l k k' → timeout_queue k q → timeout_queue k' q.
Proof.
  intros (E & Hs & _) Htq. eapply timeout_queue_frame; [exact Htq | by rewrite E.. | |].
  - intros p _. by apply queue_view_links.
  - intros p Hp. specialize (Hs p). rewrite Hp in Hs. by destruct (threads k' !! p).
Qed.

(** Fields outside links and queue registers, as a thread keeps them. *)
Definition outside (t : thread_context) : Z * Z * Z * Z * Z := (pc t, sp t, spsr t, current_map t, partner t).

(** The thread has left the ring and is marked as waiting. *)
Definition waiting (k : kstate) (thread : Z) (t : thread_context) (l : list Z) : Prop :=
  ring (threads k) l ∧ ring (threads k) [thread] ∧ runnable (core k) = default thread (head l) ∧
  ∃ t', threads k !! thread = Some t' ∧ gate t' = THREAD_WAITING ∧ reg 0 t' = 0 ∧ outside t' = outside t.

(** The second half of [gate_block]. *)
Definition gate_block_queue (thread : Z) : K unit :=
  t ← get_thread thread;
  if bool_decide (reg 1 t > 0) then enter_timeout_queue thread
  else
    _ ← upd_thread thread (set_reg 16 0);
    upd_thread thread (set_reg 17 0).

Lemma gate_block_leaves k thread t l q :
  ring (threads k) (thread :: l) → l ≠ [] → threads k !! thread = Some t →
  list_of t = CoreRunnable → length (regs t) = 31%nat →
  timeout_queue k q → thread ∉ q.*1 →
  ∃ k' x y, gate_block thread k = (_ ← gate_block_queue thread; mret (default thread (head l))) k' ∧
    waiting k' thread t l ∧ timeout_queue k' q ∧ queue_view (threads k') thread = Some (reg 1 t, x, y).
Proof.
  intros Hr Hl Ht Hlist Hlen Htq Hq. unfold gate_block.
  erewrite bind_ok by by apply get_thread_ok.
  pose proof (ring_next _ _ _ Hr) as Hnext. unfold next_of in Hnext. rewrite Ht in Hnext.
  injection Hnext as Hnext. cbv zeta. rewrite Hnext.
  set (k1 := set_core (set_runnable (default thread (head l)) (core k)) k).
  rewrite (bind_ok _ _ _ () k1) by done.
  destruct (remove_thread_not_head k1 thread l t (default thread (head l))) as (k2 & E2 & Hrel & Hrl & Hrt).
  { done. } { done. } { by rewrite Hlist. }
  { destruct l as [|x l]; [done |]. apply ring_NoDup, NoDup_cons in Hr as [Hr _]. simpl. set_solver. }
  erewrite bind_ok by exact E2.
  assert (timeout_queue k2 q) as Htq2.
  { eapply relinks_queue; [exact Hrel |]. by eapply timeout_queue_frame. }
  destruct (relinks_lookup _ _ _ thread t Hrel Ht) as (t2 & Ht2 & Hu).
  assert (regs t2 = regs t) as Hregs by (apply (f_equal regs) in Hu; exact Hu).
  assert (outside t2 = outside t) as Hout.
  { change (outside (unlink t2) = outside (unlink t)). by rewrite Hu. }
  erewrite bind_ok by by apply upd_thread_ok.
  erewrite bind_ok by (apply upd_thread_ok; simpl; apply lookup_insert_eq).
  set (t3 := set_reg 0 0 _). set (k3 := put_thread _ t3 _).
  assert (threads k3 = <[thread := t3]> (threads k2)) as Hts3 by (simpl; by rewrite insert_insert_eq).
  assert (runnable (core k3) = default thread (head l)) as Hrun by (destruct Hrel as (Ek2 & _); simpl; by rewrite Ek2).
  assert (∀ m, ring (threads k2) m → ring (threads k3) m) as Hring3.
  { intros m. apply ring_ext; intros p _; rewrite Hts3; unfold next_of, prev_of, t3;
      destruct (decide (p = thread)) as [-> |]; rewrite ?lookup_insert_eq, ?Ht2, ?lookup_insert_ne by done; done. }
  exists k3, (reg 16 t3), (reg 17 t3). split; [|split; [|split]].
  - assert (get_thread thread k3 = Ok t3 k3) as Eg
      by (apply get_thread_ok; rewrite Hts3; apply lookup_insert_eq).
    unfold gate_block_queue, mbind, M_bind. rewrite Eg. done.
  - split; [auto |]. split; [auto |]. split; [done |]. exists t3. rewrite Hts3, lookup_insert_eq.
    split; [done |]. split; [done |]. split; [|done].
    apply reg_set_reg_same. simpl. rewrite Hregs, Hlen. lia.
  - eapply timeout_queue_frame; [exact Htq2 | done | done | |]; rewrite Hts3.
    + intros p Hp. unfold queue_view. rewrite lookup_insert_ne; [done | set_solver].
    + intros p Hp. rewrite lookup_insert_ne; congruence.
  - unfold queue_view. rewrite Hts3, lookup_insert_eq. simpl. unfold queue_regs.
    rewrite bool_decide_eq_true_2 by (simpl; rewrite length_insert; congruence).
    unfold t3 at 1. rewrite reg_set_reg_other by done. unfold reg at 1. simpl. by rewrite Hregs.
Qed.

Lemma gate_block_queue_ok k thread q n x y :
  timeout_queue k q → thread ∉ q.*1 → 0 < thread → is_u64 n →
  queue_view (threads k) thread = Some (n, x, y) →
  ∃ k' q', gate_block_queue thread k = Ok () k' ∧ requeues k k' ∧ timeout_queue k' q' ∧
    expiry 0 q' = if decide (n = 0) then expiry 0 q else deadline_insert thread n (expiry 0 q).
Proof.
  intros Htq Hq H0 [Hn0 Hn] Hv. pose proof (queue_view_is_Some _ _ _ Hv) as [t Ht].
  destruct (queue_view_reg _ _ _ _ _ _ Hv Ht) as (R1 & _ & _).
  unfold gate_block_queue. erewrite bind_ok by by apply get_thread_ok. rewrite R1.
  case_decide as Hz.
  - rewrite Hz. rewrite bool_decide_eq_false_2 by lia. step_upd.
    rewrite upd_thread_alter by (simpl; auto with isambard).
    eexists _, q. split; [done |]. split; [|split; [|done]].
    + etransitivity; [apply requeues_upd | apply (requeues_upd (set_threads _ k))];
        intros; apply forget_set_reg; auto with isambard.
    + eapply timeout_queue_frame; [exact Htq | done | done | |]; cbn [threads set_threads].
      * intros p Hp. rewrite !queue_view_set_reg, !decide_False by set_solver. done.
      * intros p Hp. rewrite !lookup_alter. by repeat case_decide; subst; rewrite Hp.
  - rewrite bool_decide_eq_true_2 by lia.
    destruct (enter_timeout_queue_ok k q thread n x y) as (k' & E & Hrq & Htq'); try done; [lia |].
    exists k', (delta_insert thread n q). split_and!; try done. apply expiry_insert.
Qed.

Lemma waiting_requeues k k' thread t l : requeues k k' → waiting k thread t l → waiting k' thread t l.
Proof.
  intros Hrq (H1 & H2 & H3 & t' & Ht & Hg & Hr & Ho).
  split; [by eapply requeues_ring |]. split; [by eapply requeues_ring |].
  split; [by destruct Hrq as [-> _] |].
  pose proof (requeues_observe k k' thread gate ltac:(done) Hrq) as G.
  pose proof (requeues_observe k k' thread outside ltac:(done) Hrq) as O.
  pose proof (requeues_observe k k' thread (reg 0)
    ltac:(by intros; unfold forget_queue; rewrite !reg_set_reg_other) Hrq) as R.
  rewrite Ht in G, O, R. destruct (threads k' !! thread) as [t2|]; [|done]. exists t2.
  simpl in *. split; [done |]. split_and!; congruence.
Qed.

Lemma gate_block_ok k thread t l q :
  ring (threads k) (thread :: l) → l ≠ [] → threads k !! thread = Some t →
  list_of t = CoreRunnable → length (regs t) = 31%nat → is_u64 (reg 1 t) → 0 < thread →
  timeout_queue k q → thread ∉ q.*1 →
  ∃ k' q', gate_block thread k = Ok (default thread (head l)) k' ∧ waiting k' thread t l ∧
    timeout_queue k' q' ∧
    expiry 0 q' = if decide (reg 1 t = 0) then expiry 0 q else deadline_insert thread (reg 1 t) (expiry 0 q).
Proof.
  intros Hr Hl Ht Hlist Hlen Hn H0 Htq Hq.
  destruct (gate_block_leaves k thread t l q) as (k3 & x & y & E3 & Hw & Htq3 & Hv3); try done.
  destruct (gate_block_queue_ok k3 thread q (reg 1 t) x y) as (k4 & q' & E4 & Hrq & Htq4 & Hexp); try done.
  exists k4, q'. rewrite E3. erewrite bind_ok by exact E4. split; [done |].
  split; [by eapply waiting_requeues |]. done.
Qed.

(** What the other threads see of a thread: its gate and its result register. *)
Definition gate_view (ts : gmap Z thread_context) (p : Z) : option (Z * Z) :=
  (λ t, (gate t, reg 0 t)) <$> ts !! p.

Lemma gate_view_links ts ts' p : same_but_links ts ts' → gate_view ts' p = gate_view ts p.
Proof.
  intros H. specialize (H p). unfold gate_view.
  destruct (ts !! p) as [t|], (ts' !! p) as [t'|]; simpl in *; try done.
  injection H as H. unfold reg. congruence.
Qed.

Lemma gate_view_requeues k k' p : requeues k k' → gate_view (threads k') p = gate_view (threads k) p.
Proof.
  intros H. unfold gate_view. apply requeues_observe; [|done].
  intros t. unfold forget_queue. by rewrite !reg_set_reg_other.
Qed.

Lemma gate_view_insert ts x t p :
  gate_view (<[x := t]> ts) p = if decide (x = p) then Some (gate t, reg 0 t) else gate_view ts p.
Proof. unfold gate_view. rewrite lookup_insert. by case_decide. Qed.

Lemma relinks_None l k k' p : relinks l k k' → threads k !! p = None → threads k' !! p = None.
Proof. intros (_ & Hs & _) Hp. specialize (Hs p). rewrite Hp in Hs. by destruct (threads k' !! p). Qed.

Lemma gate_wake_ok k thread t p r l q :
  ring (threads k) (thread :: l) → threads k !! thread = Some t → threads k !! p = Some r →
  gate r = THREAD_WAITING → current_map t = current_map r → p ∉ thread :: l →
  timeout_queue k q → (if decide (p ∈ q.*1) then True else reg 16 r = 0) →
  ∃ k' q', gate_wake thread p k = Ok () k' ∧ ring (threads k') (thread :: p :: l) ∧
    gate_view (threads k') p = Some (0, reg 0 r) ∧
    timeout_queue k' q' ∧ expiry 0 q' = filter (λ e, e.1 ≠ p) (expiry 0 q).
Proof.
  intros Hr Ht Hp Hg Hm Hnot Htq Hin. unfold gate_wake.
  do 2 (erewrite bind_ok by by apply get_thread_ok).
  rewrite !bool_decide_eq_true_2 by done.
  destruct (insert_new_thread_after_old_ring k p thread l) as (k1 & E1 & Hr1 & Hrel); [done | done | by eexists |].
  erewrite bind_ok by exact E1.
  destruct (relinks_lookup _ _ _ p r Hrel Hp) as (r1 & Hr1' & Hu).
  assert (regs r1 = regs r) as Hregs by (apply (f_equal regs) in Hu; exact Hu).
  erewrite bind_ok by by apply upd_thread_ok.
  set (k2 := put_thread p (set_gate 0 r1) k1).
  assert (timeout_queue k2 q) as Htq2.
  { eapply timeout_queue_frame; [by eapply relinks_queue | done | done | |]; cbn [threads k2 put_thread set_threads].
    - intros x Hx. unfold queue_view. destruct (decide (x = p)) as [-> |].
      + by rewrite lookup_insert_eq, Hr1'.
      + by rewrite lookup_insert_ne.
    - intros x Hx. rewrite lookup_insert_ne; congruence. }
  assert (ring (threads k2) (thread :: p :: l)) as Hr2.
  { eapply ring_ext; [| |exact Hr1]; intros x _; cbn [threads k2 put_thread set_threads]; unfold next_of, prev_of;
      destruct (decide (x = p)) as [-> |]; rewrite ?lookup_insert_eq, ?Hr1', ?lookup_insert_ne by done; done. }
  assert (gate_view (threads k2) p = Some (0, reg 0 r)) as Hv2.
  { cbn [threads k2 put_thread set_threads]. rewrite gate_view_insert, decide_True by done.
    unfold reg. simpl. by rewrite Hregs. }
  case_decide as Hq.
  - destruct (leave_timeout_queue_ok k2 q p Htq2 Hq) as (k3 & E3 & Hrq & Htq3).
    exists k3, (delta_remove p q). split; [done |]. split; [by eapply requeues_ring |].
    split; [by rewrite (gate_view_requeues k2 k3) |]. split; [done |].
    apply expiry_remove. apply Htq.
  - exists k2, q. split; [|split; [done |]; split; [done |]; split; [done |]].
    + unfold leave_timeout_queue. erewrite bind_ok by (apply get_thread_ok, lookup_insert_eq).
      unfold when. rewrite bool_decide_eq_false_2; [done |].
      unfold reg in *. simpl. rewrite Hregs, Hin. tauto.
    + symmetry. apply filter_all. apply Forall_forall. intros [x d] Hx Heq. simpl in Heq. subst.
      apply Hq. rewrite <- (expiry_fst 0). by apply (list_elem_of_fmap_2 fst _ (p, d)).
Qed.

(** ** The timer tick *)
Lemma expired_app q : ∃ z, q = z ++ (expired q).2 ∧ z.*1 = (expired q).1.
Proof.
  induction q as [|[x d] q IH]; simpl; [by exists [] |]. case_bool_decide.
  - destruct IH as (z & E & Hz). destruct (expired q) as [w r]. simpl in *.
    exists ((x, d) :: z). simpl. split; [by f_equal | by f_equal].
  - by exists [].
Qed.

(** Only links, gates and result registers changed, the latter two of [w] only. *)
Definition woken (k k' : kstate) (w : list Z) : Prop :=
  k' = set_threads (threads k') k ∧
  (∀ p, queue_view (threads k') p = queue_view (threads k) p) ∧
  (∀ p, threads k !! p = None → threads k' !! p = None) ∧
  (∀ p, p ∈ w → gate_view (threads k') p = Some (0, u64 (-1))) ∧
  (∀ p, p ∉ w → gate_view (threads k') p = gate_view (threads k) p).

(** One turn of the loop. *)
Lemma wake_one k thread p a d n l :
  ring (threads k) (thread :: l) → p ∉ thread :: l → queue_view (threads k) p = Some (d, a, n) →
  ∃ k', (_ ← upd_thread p (set_reg 0 (u64 (-1))); _ ← upd_thread p (set_gate 0);
         insert_new_thread_after_old p thread) k = Ok () k' ∧
    ring (threads k') (thread :: p :: l) ∧ woken k k' [p].
Proof.
  intros Hr Hp Hv. pose proof (queue_view_is_Some _ _ _ Hv) as [t Ht].
  erewrite bind_ok by by apply upd_thread_ok.
  erewrite bind_ok by (apply upd_thread_ok; simpl; apply lookup_insert_eq).
  set (t1 := set_gate 0 _). set (k1 := put_thread _ t1 _).
  assert (threads k1 = <[p := t1]> (threads k)) as Hts by (simpl; by rewrite insert_insert_eq).
  assert (length (regs t) = 31%nat) as Hlen.
  { unfold queue_view in Hv. rewrite Ht in Hv. simpl in Hv. unfold queue_regs in Hv. by case_bool_decide. }
  destruct (insert_new_thread_after_old_ring k1 p thread l) as (k2 & E2 & Hr2 & Hrel).
  { eapply ring_ext; [| |exact Hr]; intros x _; rewrite Hts; unfold next_of, prev_of;
      destruct (decide (x = p)) as [-> |]; rewrite ?lookup_insert_eq, ?Ht, ?lookup_insert_ne by done; done. }
  { done. } { rewrite Hts, lookup_insert_eq. by eexists. }
  exists k2. split; [done |]. split; [done |]. pose proof Hrel as (Ek2 & Hs & _).
  split; [by rewrite Ek2 |]. split_and!.
  - intros x. rewrite (queue_view_links _ _ _ Hs), Hts. unfold queue_view.
    destruct (decide (x = p)) as [-> |]; [|by rewrite lookup_insert_ne].
    rewrite lookup_insert_eq, Ht. simpl. unfold t1.
    change (queue_regs (set_gate 0 (set_reg 0 (u64 (-1)) t))) with (queue_regs (set_reg 0 (u64 (-1)) t)).
    rewrite queue_regs_set_reg. by destruct (queue_regs t) as [[[]]|].
  - intros x Hx. eapply relinks_None; [exact Hrel |]. rewrite Hts, lookup_insert_ne; congruence.
  - intros x ->%list_elem_of_singleton. rewrite (gate_view_links _ _ _ Hs), Hts, gate_view_insert, decide_True by done.
    unfold t1. do 2 f_equal. apply (reg_set_reg_same 0 _ t). lia.
  - intros x Hx. rewrite (gate_view_links _ _ _ Hs), Hts, gate_view_insert, decide_False by set_solver. done.
Qed.

Lemma expired_in q x : x ∈ (expired q).1 → x ∈ q.*1.
Proof.
  destruct (expired_app q) as (z & E & Hz). rewrite <- Hz. intros Hx. rewrite E, fmap_app. set_solver.
Qed.

Lemma woken_trans k1 k2 k3 w1 w2 :
  woken k1 k2 w1 → woken k2 k3 w2 → (∀ p, p ∈ w1 → p ∉ w2) → woken k1 k3 (w1 ++ w2).
Proof.
  intros (E1 & V1 & N1 & G1 & O1) (E2 & V2 & N2 & G2 & O2) Hd. split_and!.
  - rewrite E2 at 1. rewrite E1. done.
  - intros p. by rewrite V2.
  - auto.
  - intros p [Hp | Hp]%elem_of_app; [|auto]. rewrite O2 by auto. auto.
  - intros p Hp. rewrite O2, O1 by set_solver. done.
Qed.

Lemma wake_expired_ok q fuel k thread p d a e l :
  segment (threads k) a p ((p, d) :: q) e 0 → ring (threads k) (thread :: l) →
  NoDup (p :: q.*1) → (∀ x, x ∈ p :: q.*1 → x ∉ thread :: l) → (length q < fuel)%nat →
  ∃ k', wake_expired fuel thread p k = Ok (head_thread (expired q).2) k' ∧
    ring (threads k') (thread :: reverse (p :: (expired q).1) ++ l) ∧ woken k k' (p :: (expired q).1).
Proof.
  revert fuel k p d a l. induction q as [|[y c] q IH]; intros fuel k p d a l Hs Hr Hnd Hdis Hf;
    (destruct fuel as [|fuel]; [simpl in Hf; lia |]); cbn [wake_expired];
    simpl in Hs; destruct Hs as (_ & Hp0 & n & Hv & Hs);
    (destruct (wake_one k thread p a d n l) as (k1 & E1 & Hr1 & Hw1); [done | apply Hdis; set_solver | done |]);
    pose proof Hw1 as (_ & V1 & _); rewrite <- V1 in Hv;
    pose proof (queue_view_is_Some _ _ _ Hv) as [t Ht];
    destruct (queue_view_reg _ _ _ _ _ _ Hv Ht) as (_ & _ & R17).
  - destruct Hs as [_ ->]. exists k1. split; [|done].
    rewrite (seq3_ok _ _ _ _ _ _ E1). erewrite bind_ok by by apply get_thread_ok. by rewrite R17.
  - destruct Hs as (Hny & Hy0 & n' & Hv' & Hs). subst n.
    pose proof Hv' as Hv2. rewrite <- V1 in Hv2.
    pose proof (queue_view_is_Some _ _ _ Hv2) as [ty Hty].
    destruct (queue_view_reg _ _ _ _ _ _ Hv2 Hty) as (Y1 & _ & _).
    rewrite (seq3_ok _ _ _ _ _ _ E1). erewrite bind_ok by by apply get_thread_ok. rewrite R17. cbv zeta.
    rewrite bool_decide_eq_true_2 by lia. erewrite bind_ok by by apply get_thread_ok. rewrite Y1.
    cbn [expired]. case_bool_decide as Hc.
    + cbn [fmap list_fmap fst] in Hnd, Hdis. apply NoDup_cons in Hnd as [Hpn Hnd].
      destruct (IH fuel k1 y c (link_of p) (p :: l)) as (k2 & E2 & Hr2 & Hw2).
      { simpl. split; [done |]. split; [done |]. exists n'. split; [by rewrite V1 |].
        eapply segment_frame; [|exact Hs]. auto. }
      { done. } { done. } { set_solver. } { simpl in Hf. lia. }
      pose proof (expired_in q) as Hin. destruct (expired q) as [w r]. cbn [fst snd] in *. exists k2. split; [done |]. split.
      * rewrite reverse_cons, <- app_assoc. exact Hr2.
      * apply (woken_trans k k1 k2 [p] (y :: w)); [done | done |].
        intros x ->%list_elem_of_singleton Hx. set_solver.
    + exists k1. split; [done |]. done.
Qed.

(** Making [a] the back pointer of the first thread of [q]. *)
Lemma set_back_pointer k q a0 a e :
  segment (threads k) a0 (head_thread q) q e 0 → NoDup q.*1 →
  ∃ k', when (bool_decide (head_thread q ≠ 0)) (upd_thread (head_thread q) (set_reg 16 a)) k = Ok () k' ∧
    requeues k k' ∧ core k' = core k ∧
    segment (threads k') a (head_thread q) q (last_link a q) 0.
Proof.
  intros Hs Hnd. destruct q as [|[x d] q]; [by exists k |].
  cbn [head_thread fmap list_fmap fst segment] in *.
  destruct Hs as (_ & Hx0 & n & Hv & Hs). apply NoDup_cons in Hnd as [Hx Hnd].
  pose proof (segment_end _ _ _ _ _ _ Hs) as ->.
  rewrite bool_decide_eq_true_2 by lia. unfold when.
  rewrite upd_thread_alter by by eapply queue_view_is_Some.
  eexists. split; [done |]. split; [apply requeues_upd; intros; apply forget_set_reg; auto with isambard |].
  split; [done |]. split; [done |]. split; [done |]. exists n. cbn [threads set_threads]. split.
  - rewrite queue_view_set_reg, decide_True by done. by rewrite Hv.
  - rewrite last_link_cons. eapply segment_frame; [|exact Hs]. intros p Hp.
    rewrite queue_view_set_reg, decide_False by set_solver. done.
Qed.

(** The part of the tick that runs when the first thread has no tick left. *)
Lemma tick_wakes k thread p l q :
  segment (threads k) (head_link k) p ((p, 0) :: q) (last_link (head_link k) ((p, 0) :: q)) 0 →
  ring (threads k) (thread :: l) → NoDup (p :: q.*1) → (∀ x, x ∈ p :: q.*1 → x ∉ thread :: l) →
  (length q < queue_fuel k)%nat →
  threads k !! (head_link k - offset_of_regs17) = None →
  let (w, r) := expired q in
  ∃ k', (k ← gets id;
         blocked_list_head ← wake_expired (queue_fuel k) thread p;
         _ ← upd_core (set_blocked_with_timeout blocked_list_head);
         when (bool_decide (blocked_list_head ≠ 0))
           (upd_thread blocked_list_head (set_reg 16 (head_link k)))) k = Ok () k' ∧
    ring (threads k') (thread :: reverse (p :: w) ++ l) ∧
    head_link k' = head_link k ∧ threads k' !! (head_link k - offset_of_regs17) = None ∧
    segment (threads k') (head_link k) (blocked_with_timeout (core k')) r (last_link (head_link k) r) 0 ∧
    NoDup r.*1 ∧
    (∀ x, x ∈ p :: w → gate_view (threads k') x = Some (0, u64 (-1))) ∧
    (∀ x, x ∉ p :: w → gate_view (threads k') x = gate_view (threads k) x).
Proof.
  intros Hs Hr Hnd Hdis Hf Hap.
  destruct (wake_expired_ok q (queue_fuel k) k thread p 0 _ _ l Hs Hr Hnd Hdis Hf) as (k1 & E1 & Hr1 & Hw).
  destruct (expired_app q) as (z & Eq & _). destruct (expired q) as [w r]. cbn [fst snd] in *. subst q.
  rewrite gets_ok. unfold id. erewrite bind_ok by exact E1. erewrite bind_ok by done.
  destruct Hw as (Ek1 & V1 & N1 & G1 & O1).
  apply NoDup_cons in Hnd as [_ Hnd]. rewrite fmap_app in Hnd. apply NoDup_app in Hnd as (_ & _ & Hnd).
  rewrite app_comm_cons in Hs. apply segment_app in Hs as (b & g & _ & Hs).
  pose proof (segment_head_thread _ _ _ _ _ Hs) as ->.
  set (k2 := set_core _ k1).
  destruct (set_back_pointer k2 r b (head_link k) (last_link (head_link k) (((p, 0) :: z) ++ r)))
    as (k3 & E3 & Hrq & Hcore & Hs3); [eapply segment_frame; [|exact Hs]; auto | done |].
  exists k3. split; [exact E3 |]. split; [by eapply requeues_ring |].
  split; [unfold head_link; rewrite Hcore; simpl; by rewrite Ek1 |].
  split; [apply (requeues_None k2 k3); [done | by apply N1] |].
  split; [rewrite Hcore; exact Hs3 |]. split; [done |].
  split; intros x Hx; rewrite (gate_view_requeues k2 k3 x Hrq); auto.
Qed.

(** The first thread of the queue has one tick less to wait. *)
Lemma head_ticks k p d q :
  timeout_queue k ((p, d) :: q) →
  let k1 := set_threads (alter (set_reg 1 (d - 1)) p (threads k)) k in
  0 < d < 2 ^ 64 ∧ 0 < p ∧ blocked_with_timeout (core k) = p ∧ (∃ t, threads k !! p = Some t ∧ reg 1 t = d) ∧
  requeues k k1 ∧
  segment (threads k1) (head_link k) p ((p, d - 1) :: q) (last_link (head_link k) ((p, d) :: q)) 0.
Proof.
  intros [Hs Hnd Hok Hb _ _] k1. cbn [segment] in Hs. destruct Hs as (Hh & Hp0 & n & Hv & Hs).
  apply NoDup_cons in Hnd as [Hpq _].
  assert (0 < d < 2 ^ 64) as Hd.
  { split; [by apply (proj2 Hok (p, d)) |]. apply expiry_bound in Hb; [|apply Hok | done].
    apply Forall_cons in Hb. simpl in Hb. tauto. }
  pose proof (queue_view_is_Some _ _ _ Hv) as [t Ht].
  destruct (queue_view_reg _ _ _ _ _ _ Hv Ht) as (R1 & _ & _).
  split; [done |]. split; [done |]. split; [done |]. split; [by exists t |].
  split; [apply requeues_upd; intros; apply forget_set_reg; auto with isambard |].
  simpl. split; [done |]. split; [done |]. exists n. rewrite queue_view_set_reg, decide_True, Hv by done.
  split; [done |]. eapply segment_frame; [|exact Hs]. intros x Hx.
  rewrite queue_view_set_reg, decide_False by set_solver. done.
Qed.

Lemma gate_tick_ok k thread l q :
  timeout_queue k q → ring (threads k) (thread :: l) → (∀ x, x ∈ q.*1 → x ∉ thread :: l) →
  ∃ k', gate_tick thread k = Ok () k' ∧
    ring (threads k') (thread :: reverse (delta_tick q).1 ++ l) ∧
    timeout_queue k' (delta_tick q).2 ∧
    (∀ p, p ∈ (delta_tick q).1 → gate_view (threads k') p = Some (0, u64 (-1))) ∧
    (∀ p, p ∉ (delta_tick q).1 → gate_view (threads k') p = gate_view (threads k) p).
Proof.
  intros Htq Hr Hdis. pose proof (timeout_queue_length _ _ Htq) as Hfuel.
  pose proof Htq as [Hs Hnd Hok Hb Hcore Hap].
  destruct (delta_tick_spec q Hok) as (_ & Hexp & Hok').
  assert (Forall (λ e, e.2 < 2 ^ 64) (expiry 0 (delta_tick q).2)) as Hb'.
  { rewrite Hexp. apply Forall_filter, Forall_fmap. eapply Forall_impl; [exact Hb |].
    intros [x d] Hd. simpl in *. lia. }
  unfold gate_tick, get_core. rewrite gets_ok. cbv zeta.
  destruct q as [|[p d] q].
  { simpl in Hs. destruct Hs as [_ ->]. exists k.
    split; [done |]. split; [done |]. split; [done |]. split; [set_solver | done]. }
  destruct (head_ticks k p d q Htq) as (Hd & Hp0 & Hh & (t & Ht & R1) & Hrq1 & Hs1). rewrite Hh.
  cbn [fmap list_fmap fst] in Hnd, Hdis. apply NoDup_cons in Hnd as [Hpq Hnd].
  rewrite bool_decide_eq_true_2 by lia. unfold when at 1.
  erewrite bind_ok by by apply get_thread_ok. rewrite R1, u64_id by (unfold is_u64; lia).
  step_upd. set (k1 := set_threads _ k) in *.
  unfold delta_tick in *. cbn [delta_add expired] in *. change (d + -1) with (d - 1) in *.
  destruct (decide (d - 1 = 0)) as [Hz | Hz];
    [rewrite !bool_decide_eq_true_2 in * by done | rewrite !bool_decide_eq_false_2 in * by done];
    unfold when at 1.
  - assert (d = 1) as -> by lia. change (1 - 1) with 0 in *.
    pose proof (tick_wakes k1 thread p l q) as Hw.
    destruct (expired q) as [w r]. cbn [fst snd] in *.
    destruct Hw as (k' & E & Hr' & Hl & Hap' & Hs' & Hnd' & Hw & Ho).
    { rewrite last_link_cons in Hs1 |- *. exact Hs1. }
    { by eapply requeues_ring. } { by apply NoDup_cons. } { done. }
    { unfold queue_fuel in *. cbn [threads k1 set_threads]. rewrite <- size_dom, dom_alter_L, size_dom.
      simpl in Hfuel. lia. }
    { by apply (requeues_None k k1). }
    exists k'. split; [exact E |]. split; [done |]. split.
    { split; rewrite ?Hl; done. }
    split; [done |]. intros x Hx. rewrite Ho by done. by apply gate_view_requeues.
  - exists k1. split; [done |]. split; [by eapply requeues_ring |]. split.
    { split; rewrite ?(requeues_head_link k k1 Hrq1); try done.
      - cbn [core k1 set_threads]. rewrite Hh. cbn [snd]. rewrite last_link_cons in Hs1 |- *. exact Hs1.
      - simpl. by apply NoDup_cons.
      - by apply (requeues_None k k1). }
    split; [set_solver |]. intros x _. by apply gate_view_requeues.
Qed.

(** ** The supervisor call *)

(** The check at the top: a thread without a partner is at EL0. *)
Definition at_el0 (t : thread_context) : Prop :=
  ¬ (partner t = 0 ∧ (Z.land (spsr t) 0x1e = 8 ∨ 0 ≠ Z.land (spsr t) 0x10)).

(** The code [c] names the thread [p], which is in the ring [m]. *)
Definition names_thread (k : kstate) (c p : Z) (m : list Z) : Prop :=
  ring (threads k) m ∧ p ∈ m ∧ p = thread_from_code (u32 c) ∧
  could_be_in_heap k (u32 c) = true ∧
  could_be_in_heap k (u64 (u32 c + sizeof_thread_context - 1)) = true.

Lemma names_thread_real k c p m : names_thread k c p m → is_real_thread (u32 c) k = Ok true k.
Proof. intros (Hr & Hp & E & H1 & H2). by eapply is_real_thread_ring. Qed.

Section svc.
Context (k : kstate) (thread : Z) (t : thread_context).
Context (Ht : threads k !! thread = Some t) (Hel : at_el0 t).

Lemma svc_gate_wait :
  reg 0 t = 0 → thread ≠ interrupt_thread (core k) → gate t ≤ 0 →
  handle_svc_gate thread k = (now ← gate_block thread; mret (ThreadSwitch now thread)) k.
Proof.
  intros Hr Hi Hg. unfold handle_svc_gate. erewrite bind_ok by by apply get_thread_ok.
  unfold get_core. rewrite gets_ok. pass. rewrite bool_decide_eq_true_2 by done.
  rewrite bool_decide_eq_false_2 by done. by rewrite bool_decide_eq_false_2 by lia.
Qed.

Lemma svc_gate_pending :
  reg 0 t = 0 → thread ≠ interrupt_thread (core k) → 0 < gate t →
  ∃ k', handle_svc_gate thread k = Ok (ThreadSwitch thread thread) k' ∧
    threads k' = <[thread := set_gate 0 (set_reg 0 (u64 (gate t)) t)]> (threads k).
Proof.
  intros Hr Hi Hg. unfold handle_svc_gate. erewrite bind_ok by by apply get_thread_ok.
  unfold get_core. rewrite gets_ok. pass. rewrite bool_decide_eq_true_2 by done.
  rewrite bool_decide_eq_false_2 by done. rewrite bool_decide_eq_true_2 by lia.
  erewrite bind_ok by by apply upd_thread_ok.
  erewrite bind_ok by (apply upd_thread_ok; simpl; apply lookup_insert_eq).
  eexists. split; [done |]. simpl. by rewrite insert_insert_eq.
Qed.

Lemma svc_gate_tick :
  reg 0 t = 0 → thread = interrupt_thread (core k) → current_map t = system_map_index →
  handle_svc_gate thread k = (_ ← gate_tick thread; mret (ThreadSwitch thread thread)) k.
Proof.
  intros Hr Hi Hm. unfold handle_svc_gate. erewrite bind_ok by by apply get_thread_ok.
  unfold get_core. rewrite gets_ok. pass. rewrite bool_decide_eq_true_2 by done.
  rewrite bool_decide_eq_true_2 by done. by pass.
Qed.

Lemma svc_gate_wake p m :
  names_thread k (reg 0 t) p m → reg 0 t ≠ 0 →
  handle_svc_gate thread k = (_ ← gate_wake thread p; mret (ThreadSwitch thread thread)) k.
Proof.
  intros Hn Hr. unfold handle_svc_gate. erewrite bind_ok by by apply get_thread_ok.
  unfold get_core. rewrite gets_ok. pass. rewrite bool_decide_eq_false_2 by done.
  erewrite bind_ok by by eapply names_thread_real. by destruct Hn as (_ & _ & -> & _).
Qed.
End svc.

(** ** Pending wakes *)
Fixpoint wake_times (n : nat) (thread : Z) : K unit :=
  match n with
  | O => mret ()
  | S n => _ ← handle_svc_gate thread; wake_times n thread
  end.

(** The most that is counted. *)
Definition gate_limit : Z := 0x7fffffff.

(** Nothing but the gate of [p] changes. *)
Definition with_gate (k : kstate) (p : Z) (r : thread_context) (g : Z) : kstate :=
  put_thread p (set_gate g r) k.

Lemma ring_with_gate k p r g m :
  threads k !! p = Some r → ring (threads k) m → ring (threads (with_gate k p r g)) m.
Proof.
  intros Hp. apply ring_ext; intros x _; cbn [with_gate put_thread threads set_threads]; unfold next_of, prev_of;
    destruct (decide (x = p)) as [-> |]; rewrite ?lookup_insert_eq, ?Hp, ?lookup_insert_ne by done; done.
Qed.

Lemma wake_times_ok n k thread t p r m :
  threads k !! thread = Some t → at_el0 t → threads k !! p = Some r → p ≠ thread →
  names_thread k (reg 0 t) p m → reg 0 t ≠ 0 → 0 ≤ gate r ≤ gate_limit →
  wake_times n thread k = Ok () (with_gate k p r (Z.min (gate r + Z.of_nat n) gate_limit)).
Proof.
  intros Ht Hel Hp Hne Hn Hr0. revert k r Ht Hp Hn.
  induction n as [|n IH]; intros k r Ht Hp Hn Hg; cbn [wake_times].
  - rewrite Z.add_0_r, Z.min_l by lia. unfold with_gate, put_thread. rewrite insert_id; [by destruct k |].
    rewrite Hp. by destruct r.
  - erewrite (bind_ok _ _ _ _ (with_gate k p r (Z.min (gate r + 1) gate_limit))).
    2: { erewrite (svc_gate_wake k thread t) by done. erewrite bind_ok; [done |]. unfold gate_wake.
         do 2 (erewrite bind_ok by by apply get_thread_ok).
         rewrite bool_decide_eq_false_2 by (unfold THREAD_WAITING; lia).
         destruct (decide (gate r < 0x7fffffff)).
         - rewrite bool_decide_eq_true_2 by done. unfold when. rewrite (upd_thread_ok _ _ r) by done.
           unfold with_gate. rewrite Z.min_l by (unfold gate_limit; lia). done.
         - rewrite bool_decide_eq_false_2 by done. unfold when, with_gate, put_thread.
           rewrite insert_id; [by destruct k |]. rewrite Hp. f_equal. rewrite Z.min_r by (unfold gate_limit in *; lia).
           assert (gate r = gate_limit) as <- by (unfold gate_limit in *; lia). by destruct r. }
    rewrite (IH _ (set_gate (Z.min (gate r + 1) gate_limit) r)).
    + unfold with_gate, put_thread. cbn [threads set_threads gate]. rewrite insert_insert_eq.
      change (gate (set_gate ?g r)) with g.
      replace (Z.min (Z.min (gate r + 1) gate_limit + Z.of_nat n) gate_limit)
        with (Z.min (gate r + Z.of_nat (S n)) gate_limit) by lia. done.
    + cbn [with_gate put_thread threads set_threads]. by rewrite lookup_insert_ne.
    + apply lookup_insert_eq.
    + destruct Hn as (Hr & Hin & E & H1 & H2). split; [by apply ring_with_gate |]. done.
    + simpl. unfold gate_limit in *. lia.
Qed.

(** ** A small system for the examples

    Two runnable threads [ta] and [tb], and two threads [tw] and [tx] that wait with
    one and three ticks left. *)
Definition ta : Z := start_address + 0x1f0000.
Definition tb : Z := start_address + 0x1f0200.
Definition tw : Z := start_address + 0x1f0400.
Definition tx : Z := start_address + 0x1f0600.

Definition demo_regs (r0 r1 r16 r17 : Z) (t : thread_context) : thread_context :=
  set_reg 0 r0 (set_reg 1 r1 (set_reg 16 r16 (set_reg 17 r17 t))).

Definition demo_head : Z := start_address + 0x10000 + offset_of_blocked_with_timeout.

(** [ta] makes the call, with registers 0 and 1 given. *)
Definition gate_demo (r0 r1 : Z) : kstate :=
  let runs n p t := set_current_map system_map_index (set_list_of CoreRunnable (set_next n (set_prev p t))) in
  let waits t := set_current_map system_map_index (set_gate THREAD_WAITING t) in
  let k := initial_kstate (start_address + 0x10000) 0x10000 in
  let k := set_kernel_heap_bottom 0x1f0000 k in
  let k := put_thread ta (demo_regs r0 r1 0 0 (runs tb tb blank_thread)) k in
  let k := put_thread tb (demo_regs 0 0 0 0 (runs ta ta blank_thread)) k in
  let k := put_thread tw (demo_regs 0 1 demo_head tx (waits (set_next tw (set_prev tw blank_thread)))) k in
  let k := put_thread tx (demo_regs 0 2 (link_of tw) 0 (waits (set_next tx (set_prev tx blank_thread)))) k in
  set_core (set_blocked_with_timeout tw (set_runnable ta (core k))) k.

Definition demo_queue : list (Z * Z) := [(tw, 1); (tx, 2)].

Lemma gate_demo_queue r0 r1 : timeout_queue (gate_demo r0 r1) demo_queue.
Proof.
  split.
  - simpl. split; [done |]. split; [done |]. exists tx. split; [done |].
    split; [done |]. split; [done |]. exists 0. done.
  - apply (bool_decide_unpack _). by vm_compute.
  - split; [repeat constructor; done |]. by intros e [= <-].
  - repeat constructor.
  - done.
  - done.
Qed.

Lemma gate_demo_ring r0 r1 : ring (threads (gate_demo r0 r1)) [ta; tb].
Proof.
  split; [apply (bool_decide_unpack _); by vm_compute |].
  simpl. split; [intros b [= <-]; done |]. split; [intros b [= <-]; done |]. done.
Qed.

Lemma not_in_decide (x : Z) (l : list Z) : bool_decide (x ∈ l) = false → x ∉ l.
Proof. apply bool_decide_eq_false_1. Qed.

(** ** Theorems *)

(** C8: A thread that waits at its gate, with no pending wake, leaves the ring of
    runnable threads and the next one runs; it is marked as waiting and will see
    the result 0 unless it times out.  A timeout of [n] ticks puts it into the
    queue with [n] ticks left, before the first thread that times out no earlier,
    and leaves every other thread's time alone; without a timeout the queue does
    not change. *)
Theorem gate_wait_blocks k thread t l q :
  threads k !! thread = Some t → at_el0 t → reg 0 t = 0 → gate t ≤ 0 →
  thread ≠ interrupt_thread (core k) → list_of t = CoreRunnable →
  length (regs t) = 31%nat → is_u64 (reg 1 t) → 0 < thread →
  ring (threads k) (thread :: l) → l ≠ [] → timeout_queue k q → thread ∉ q.*1 →
  ∃ k' q', handle_svc_gate thread k = Ok (ThreadSwitch (default thread (head l)) thread) k' ∧
    waiting k' thread t l ∧ timeout_queue k' q' ∧
    expiry 0 q' = if decide (reg 1 t = 0) then expiry 0 q else deadline_insert thread (reg 1 t) (expiry 0 q).
Proof.
  intros Ht Hel Hr0 Hg Hi Hlist Hlen Hn H0 Hr Hl Htq Hq.
  destruct (gate_block_ok k thread t l q) as (k' & q' & E & Hw & Htq' & Hexp); try done.
  exists k', q'. rewrite (svc_gate_wait k thread t) by done. by erewrite bind_ok by exact E.
Qed.

Lemma gate_wait_blocks_witness :
  ∃ k' q', handle_svc_gate ta (gate_demo 0 3) = Ok (ThreadSwitch tb ta) k' ∧
    timeout_queue k' q' ∧ expiry 0 q' = [(tw, 1); (ta, 3); (tx, 3)].
Proof.
  destruct (gate_wait_blocks (gate_demo 0 3) ta
    (demo_regs 0 3 0 0 (set_current_map system_map_index (set_list_of CoreRunnable
      (set_next tb (set_prev tb blank_thread))))) [tb] demo_queue) as (k' & q' & E & _ & Htq & Hexp).
  { by vm_compute. } { unfold at_el0; vm_compute; intuition discriminate. } { done. } { done. } { done. } { done. } { done. } { done. } { done. }
  { apply gate_demo_ring. } { done. } { apply gate_demo_queue. }
  { apply not_in_decide. by vm_compute. }
  exists k', q'. split; [exact E |]. split; [exact Htq |]. rewrite Hexp. done.
Defined.

(** C9: Waking a waiting thread of the same map puts it into the ring right behind
    the thread that woke it, opens its gate and takes it out of the timeout queue;
    all other waiting threads keep the time they have left. *)
Theorem gate_wake_releases k thread t p r l m q :
  threads k !! thread = Some t → at_el0 t → threads k !! p = Some r →
  names_thread k (reg 0 t) p m → reg 0 t ≠ 0 →
  gate r = THREAD_WAITING → current_map t = current_map r →
  ring (threads k) (thread :: l) → p ∉ thread :: l →
  timeout_queue k q → (if decide (p ∈ q.*1) then True else reg 16 r = 0) →
  ∃ k' q', handle_svc_gate thread k = Ok (ThreadSwitch thread thread) k' ∧
    ring (threads k') (thread :: p :: l) ∧ gate_view (threads k') p = Some (0, reg 0 r) ∧
    timeout_queue k' q' ∧ expiry 0 q' = filter (λ e, e.1 ≠ p) (expiry 0 q).
Proof.
  intros Ht Hel Hp Hn Hr0 Hg Hm Hr Hnot Htq Hin.
  destruct (gate_wake_ok k thread t p r l q) as (k' & q' & E & H); try done.
  exists k', q'. erewrite svc_gate_wake by done. by erewrite bind_ok by exact E.
Qed.

Lemma gate_wake_releases_witness :
  ∃ k' q', handle_svc_gate ta (gate_demo 0x1f0400 0) = Ok (ThreadSwitch ta ta) k' ∧
    ring (threads k') [ta; tw; tb] ∧ timeout_queue k' q' ∧ expiry 0 q' = [(tx, 3)].
Proof.
  destruct (gate_wake_releases (gate_demo 0x1f0400 0) ta
    (demo_regs 0x1f0400 0 0 0 (set_current_map system_map_index (set_list_of CoreRunnable
      (set_next tb (set_prev tb blank_thread))))) tw
    (demo_regs 0 1 demo_head tx (set_current_map system_map_index (set_gate THREAD_WAITING
      (set_next tw (set_prev tw blank_thread))))) [tb] [tw] demo_queue)
    as (k' & q' & E & Hr & _ & Htq & Hexp).
  { by vm_compute. } { unfold at_el0; vm_compute; intuition discriminate. } { by vm_compute. }
  { split; [|split; [by left |]; split_and!; by vm_compute].
    split; [apply NoDup_singleton |]. simpl. split; [intros b [= <-]; done |]. done. }
  { by vm_compute. } { done. } { done. } { apply gate_demo_ring. }
  { apply not_in_decide. by vm_compute. } { apply gate_demo_queue. } { by vm_compute. }
  exists k', q'. split; [exact E |]. split; [exact Hr |]. split; [exact Htq |]. rewrite Hexp. done.
Defined.

(** C7: A timer tick takes one tick from every waiting thread.  Exactly the threads
    that had one tick left are woken: they leave the queue, see the result -1, and
    enter the ring behind the interrupt thread; nobody else's gate or result
    changes. *)
Theorem gate_tick_expires k thread t l q :
  threads k !! thread = Some t → at_el0 t → reg 0 t = 0 →
  thread = interrupt_thread (core k) → current_map t = system_map_index →
  timeout_queue k q → ring (threads k) (thread :: l) → (∀ x, x ∈ q.*1 → x ∉ thread :: l) →
  let out := (filter (λ e, e.2 = 1) (expiry 0 q)).*1 in
  ∃ k' q', handle_svc_gate thread k = Ok (ThreadSwitch thread thread) k' ∧
    ring (threads k') (thread :: reverse out ++ l) ∧ timeout_queue k' q' ∧
    expiry 0 q' = filter (λ e, 0 < e.2) (prod_map id Z.pred <$> expiry 0 q) ∧
    (∀ p, p ∈ out → gate_view (threads k') p = Some (0, u64 (-1))) ∧
    (∀ p, p ∉ out → gate_view (threads k') p = gate_view (threads k) p).
Proof.
  intros Ht Hel Hr0 Hi Hm Htq Hr Hdis out.
  destruct (delta_tick_spec q (tq_deltas _ _ Htq)) as (Hout & Hexp & _). fold out in Hout.
  destruct (gate_tick_ok k thread l q Htq Hr Hdis) as (k' & E & Hr' & Htq' & Hw & Ho).
  rewrite Hout in *. exists k', (delta_tick q).2.
  rewrite (svc_gate_tick k thread t) by done. by erewrite bind_ok by exact E.
Qed.

(** The same system, with [ta] the interrupt thread. *)
Definition tick_demo : kstate :=
  set_core (set_interrupt_thread ta (core (gate_demo 0 0))) (gate_demo 0 0).

Lemma gate_tick_expires_witness :
  ∃ k' q', handle_svc_gate ta tick_demo = Ok (ThreadSwitch ta ta) k' ∧
    ring (threads k') [ta; tw; tb] ∧ timeout_queue k' q' ∧ expiry 0 q' = [(tx, 2)].
Proof.
  destruct (gate_tick_expires tick_demo ta
    (demo_regs 0 0 0 0 (set_current_map system_map_index (set_list_of CoreRunnable
      (set_next tb (set_prev tb blank_thread))))) [tb] demo_queue) as (k' & q' & E & Hr & Htq & Hexp & _).
  { by vm_compute. } { unfold at_el0; vm_compute; intuition discriminate. } { done. } { done. } { done. }
  { eapply timeout_queue_frame; [apply (gate_demo_queue 0 0) | done..]. } { apply (gate_demo_ring 0 0). }
  { intros x Hx. apply not_in_decide.
    apply elem_of_cons in Hx as [-> | ->%list_elem_of_singleton]; by vm_compute. }
  exists k', q'. split; [exact E |]. split; [exact Hr |]. split; [exact Htq |]. rewrite Hexp. done.
Defined.

(** Wakes of a thread that is not waiting are not lost: after [n] of them its
    next wait returns at once, without blocking, and reports how many there were
    (up to 0x7fffffff), and the count starts again from 0. *)
Theorem gate_wakes_are_counted n k thread t p r m :
  threads k !! thread = Some t → at_el0 t → threads k !! p = Some r → p ≠ thread → at_el0 r →
  names_thread k (reg 0 t) p m → reg 0 t ≠ 0 → 0 ≤ gate r ≤ gate_limit → 0 < gate r + Z.of_nat n →
  reg 0 r = 0 → p ≠ interrupt_thread (core k) → (0 < length (regs r))%nat →
  ∃ k', (_ ← wake_times n thread; handle_svc_gate p) k = Ok (ThreadSwitch p p) k' ∧
    gate_view (threads k') p = Some (0, Z.min (gate r + Z.of_nat n) gate_limit).
Proof.
  intros Ht Hel Hp Hne Help Hn Hr0 Hg Hpos Hr Hi Hlen.
  erewrite bind_ok by (eapply (wake_times_ok n k thread t); done).
  destruct (svc_gate_pending (with_gate k p r (Z.min (gate r + Z.of_nat n) gate_limit)) p
    (set_gate (Z.min (gate r + Z.of_nat n) gate_limit) r)) as (k' & E & Hts); try done.
  { apply lookup_insert_eq. } { simpl. unfold gate_limit in *. lia. }
  exists k'. split; [done |]. rewrite Hts, gate_view_insert, decide_True by done. cbn [gate set_gate].
  do 2 f_equal. change (reg 0 (set_gate 0 ?x)) with (reg 0 x). rewrite reg_set_reg_same by done.
  apply u64_id. unfold is_u64, gate_limit in *. lia.
Qed.

Lemma gate_wakes_are_counted_witness :
  ∃ k', (_ ← wake_times 5 ta; handle_svc_gate tb) (gate_demo 0x1f0200 0) = Ok (ThreadSwitch tb tb) k' ∧
    gate_view (threads k') tb = Some (0, 5).
Proof.
  destruct (gate_wakes_are_counted 5 (gate_demo 0x1f0200 0) ta
    (demo_regs 0x1f0200 0 0 0 (set_current_map system_map_index (set_list_of CoreRunnable
      (set_next tb (set_prev tb blank_thread))))) tb
    (demo_regs 0 0 0 0 (set_current_map system_map_index (set_list_of CoreRunnable
      (set_next ta (set_prev ta blank_thread))))) [ta; tb]) as (k' & E & Hv).
  { by vm_compute. } { unfold at_el0; vm_compute; intuition discriminate. } { by vm_compute. } { by vm_compute. } { unfold at_el0; vm_compute; intuition discriminate. }
  { split; [apply gate_demo_ring |]. split; [by right; left |]. split_and!; by vm_compute. }
  { by vm_compute. } { by vm_compute. } { done. } { done. } { done. } { vm_compute. lia. }
  exists k'. split; [exact E | exact Hv].
Defined.
