(* ===== verification/Locks.v ===== *)
(** * Locks

    [handle_svc_wait_for_lock] and [handle_svc_release_lock] of
    [include/svc_handling.h].  A lock is a 64-bit word of user memory at the
    address in register 17: 0 when it is free, otherwise the code of the thread that
    holds it in the low half and the code of the first blocked thread in the high
    half.  Blocked threads are in a ring; the static variable [blocked] stands in
    for the head of whichever ring is being worked on.

    [handle_svc_wait_for_lock] repeats when its exclusive store fails.  [env] is what
    the code is up against: for each store that fails, the value the lock has
    after the failure (the same as before when the failure was spurious).  The
    stores after the end of [env] succeed.

    The specification of a lock is the thread that holds it and the list of threads
    that wait, in the order in which they will get it ([lock_rep]). *)

From S2P Require Import Prelude SystemServices Kernel LinkedLists Heap Interfaces Maps Gate.

(** The code that runs when the exclusive store of [lock_value == 0] succeeded. *)
Definition lock_acquired (thread now : Z) : K Z :=
  if bool_decide (now ≠ thread) then
    b ← gets blocked;
    _ ← guard_stop (bool_decide (b ≠ thread)) (Bsod 269);
    _ ← remove_thread thread;
    _ ← insert_thread_as_head CoreRunnable thread;
    mret thread
  else mret now.

(** The checks on the lock's value and the thread's departure from the runnable
    ring; the result is the thread to run. *)
Definition lock_block (thread blocked_thread_code locking_thread_code : Z) : K Z :=
  real ← is_real_thread locking_thread_code;
  _ ← guard_stop (negb real) (Bsod 291);
  _ ← when (bool_decide (blocked_thread_code ≠ 0)) (
        real ← is_real_thread blocked_thread_code;
        guard_stop (negb real) (Bsod 295));
  t ← get_thread thread;
  let now := next t in
  _ ← upd_core (set_runnable now);
  _ ← guard_stop (bool_decide (now = thread)) (Bsod 301);
  _ ← remove_thread thread;
  mret now.

Fixpoint lock_loop (env : list Z) (thread x17 x18 now : Z) : K Z :=
  c ← get_core;
  lock_value ← get_user_word (loaded_map c) x17;
  if bool_decide (lock_value = 0) then
    match env with
    | v :: env => _ ← set_user_word (loaded_map c) x17 v; lock_loop env thread x17 x18 now
    | [] => _ ← set_user_word (loaded_map c) x17 x18; lock_acquired thread now
    end
  else if bool_decide (lock_value = x18) then mret now
  else
    _ ← guard_stop (bool_decide (now ≠ thread)) (Bsod 4);
    let blocked_thread_code := u32 (Z.shiftr lock_value 32) in
    let locking_thread_code := Z.land 0xffffffff lock_value in
    now ← lock_block thread blocked_thread_code locking_thread_code;
    if bool_decide (blocked_thread_code = 0) then
      _ ← modify (set_blocked 0);
      _ ← insert_thread_as_head StaticBlocked thread;
      match env with
      | v :: env => _ ← set_user_word (loaded_map c) x17 v; lock_loop env thread x17 x18 now
      | [] =>
          _ ← set_user_word (loaded_map c) x17 (Z.lor lock_value (u64 (Z.shiftl x18 32)));
          mret now
      end
    else
      let first_blocked_thread := thread_from_code blocked_thread_code in
      _ ← modify (set_blocked first_blocked_thread);
      _ ← when (bool_decide (first_blocked_thread ≠ 0)) (
            f ← get_thread first_blocked_thread;
            guard_stop (bool_decide (reg 17 f ≠ x17)) (Bsod 328));
      _ ← insert_thread_at_tail StaticBlocked thread;
      mret now.

(** The two checks both calls begin with. *)
Definition lock_checks (thread x17 x18 line : Z) : K unit :=
  writable ← address_is_user_writable thread x17;
  _ ← guard_stop (negb writable) (Bsod line);
  guard_stop (bool_decide (thread_from_code (u32 x18) ≠ thread)) (Bsod (line + 3)).

Definition handle_svc_wait_for_lock (env : list Z) (thread : Z) : K thread_switch :=
  t ← get_thread thread;
  let x17 := reg 17 t in
  let x18 := reg 18 t in
  _ ← lock_checks thread x17 x18 234;
  now ← lock_loop env thread x17 x18 thread;
  mret (ThreadSwitch now thread).

Definition handle_svc_release_lock (thread : Z) : K thread_switch :=
  t ← get_thread thread;
  let x17 := reg 17 t in
  let x18 := reg 18 t in
  _ ← lock_checks thread x17 x18 350;
  c ← get_core;
  lock_value ← get_user_word (loaded_map c) x17;
  _ ← guard_stop (bool_decide (lock_value = 0)) (Bsod 364);
  let blocked_thread_code := u32 (Z.shiftr lock_value 32) in
  let locking_thread_code := Z.land 0xffffffff lock_value in
  _ ← guard_stop (bool_decide (locking_thread_code ≠ x18)) (Bsod 369);
  if bool_decide (blocked_thread_code ≠ 0) then
    real ← is_real_thread blocked_thread_code;
    _ ← guard_stop (negb real) (Bsod 378);
    let first_blocked_thread := thread_from_code blocked_thread_code in
    f ← get_thread first_blocked_thread;
    new_value ← (if bool_decide (first_blocked_thread = next f) then mret blocked_thread_code
                 else
                   _ ← modify (set_blocked (next f));
                   _ ← remove_thread first_blocked_thread;
                   b ← gets blocked;
                   mret (Z.lor blocked_thread_code (Z.shiftl (thread_code b) 32)));
    _ ← insert_thread_as_head CoreRunnable first_blocked_thread;
    _ ← set_user_word (loaded_map c) x17 new_value;
    mret (ThreadSwitch first_blocked_thread thread)
  else
    _ ← set_user_word (loaded_map c) x17 blocked_thread_code;
    mret (ThreadSwitch thread thread).

(** ** Which list a thread belongs to *)
Definition owner (ts : gmap Z thread_context) (p : Z) : option list_head := list_of <$> ts !! p.

Section owners.
Implicit Types (k : kstate) (p q : Z).

Lemma get_thread_state k p t k' : get_thread p k = Ok t k' → k' = k.
Proof. intros H. by apply get_thread_inv in H as [-> _]. Qed.

Lemma upd_thread_owner k p f k' q :
  upd_thread p f k = Ok () k' → (∀ t, list_of (f t) = list_of t) →
  owner (threads k') q = owner (threads k) q.
Proof.
  intros H Hf. unfold upd_thread in H. inv_bind H. apply get_thread_inv in E as [-> Ht].
  injection H as <-. unfold owner. simpl. destruct (decide (q = p)) as [-> |].
  - rewrite lookup_insert_eq, Ht. simpl. by rewrite Hf.
  - by rewrite lookup_insert_ne.
Qed.

Lemma set_owner k p (h : list_head) k' q :
  upd_thread p (set_list_of h) k = Ok () k' →
  owner (threads k') q = if decide (q = p) then Some h else owner (threads k) q.
Proof.
  intros H. unfold upd_thread in H. inv_bind H. apply get_thread_inv in E as [-> Ht].
  injection H as <-. unfold owner. simpl. case_decide.
  - subst. by rewrite lookup_insert_eq.
  - by rewrite lookup_insert_ne.
Qed.

Lemma insert_before_owner k new old k' q :
  insert_new_thread_before_old new old k = Ok () k' → new ≠ old →
  owner (threads k') q = if decide (q = new) then owner (threads k) old else owner (threads k) q.
Proof.
  intros H Hne. unfold insert_new_thread_before_old in H.
  apply bind_ok_inv in H as ([] & k1 & E1 & H).
  apply bind_ok_inv in H as (o1 & k1' & Eo1 & H). apply get_thread_state in Eo1 as ->.
  apply bind_ok_inv in H as ([] & k2 & E2 & H). apply bind_ok_inv in H as ([] & k3 & E3 & H).
  apply bind_ok_inv in H as (n & k3' & En & H). apply get_thread_state in En as ->.
  apply bind_ok_inv in H as ([] & k4 & E4 & H).
  apply bind_ok_inv in H as (o & k4' & Eo & H). apply get_thread_inv in Eo as [-> Ho].
  rewrite (set_owner _ _ _ _ _ H).
  assert (∀ x, owner (threads k4) x = owner (threads k) x) as Hsame.
  { intros x. rewrite (upd_thread_owner _ _ _ _ x E4 ltac:(done)), (upd_thread_owner _ _ _ _ x E3 ltac:(done)),
      (upd_thread_owner _ _ _ _ x E2 ltac:(done)). by apply (upd_thread_owner _ _ _ _ x E1 ltac:(done)). }
  case_decide; [|done]. rewrite <- Hsame. unfold owner. by rewrite Ho.
Qed.

Lemma store_list_threads h v k k' : store_list h v k = Ok () k' → threads k' = threads k.
Proof. destruct h; [done | | ]; by intros [= <-]. Qed.

Lemma remove_owner k p k' q : remove_thread p k = Ok () k' → owner (threads k') q = owner (threads k) q.
Proof.
  intros H. unfold remove_thread in H.
  apply bind_ok_inv in H as (e & k0 & Ee & H). apply get_thread_state in Ee as ->.
  apply bind_ok_inv in H as (h & k0 & Eh & H). apply load_list_inv in Eh as ->.
  apply bind_ok_inv in H as ([] & k1 & E1 & H).
  assert (threads k1 = threads k) as Hk1.
  { case_bool_decide; [|by injection E1 as <-].
    apply bind_ok_inv in E1 as (x & k0 & Ex & E1). apply get_thread_state in Ex as ->.
    case_bool_decide; by apply store_list_threads in E1. }
  apply bind_ok_inv in H as (e1 & k0 & Ee & H). apply get_thread_state in Ee as ->.
  apply bind_ok_inv in H as ([] & k2 & E2 & H).
  apply bind_ok_inv in H as (e2 & k0 & Ee & H). apply get_thread_state in Ee as ->.
  apply bind_ok_inv in H as ([] & k3 & E3 & H). apply bind_ok_inv in H as ([] & k4 & E4 & H).
  rewrite (upd_thread_owner _ _ _ _ q H ltac:(done)), (upd_thread_owner _ _ _ _ q E4 ltac:(done)),
    (upd_thread_owner _ _ _ _ q E3 ltac:(done)), (upd_thread_owner _ _ _ _ q E2 ltac:(done)).
  by rewrite Hk1.
Qed.

(** A new tail belongs to the list of the head, or to the list that was empty. *)
Lemma insert_at_tail_owner k h old new k' q :
  load_list h k = Ok old k → insert_thread_at_tail h new k = Ok () k' → new ≠ old →
  owner (threads k') q =
    if decide (q = new) then (if decide (old = 0) then Some h else owner (threads k) old)
    else owner (threads k) q.
Proof.
  intros Hl H Hne. unfold insert_thread_at_tail in H. erewrite bind_ok in H by exact Hl.
  case_bool_decide as H0; [|by rewrite (decide_False (P := old = 0)), (insert_before_owner _ _ _ _ _ H Hne)].
  rewrite (decide_True (P := old = 0)) by done.
  apply bind_ok_inv in H as ([] & k1 & E1 & H). apply bind_ok_inv in H as ([] & k2 & E2 & H).
  apply bind_ok_inv in H as ([] & k3 & E3 & H). rewrite (store_list_threads _ _ _ _ H).
  rewrite (set_owner _ _ _ _ _ E3). case_decide; [done |].
  rewrite (upd_thread_owner _ _ _ _ q E2 ltac:(done)). by apply (upd_thread_owner _ _ _ _ q E1 ltac:(done)).
Qed.

Lemma insert_as_head_owner k h old new k' q :
  load_list h k = Ok old k → insert_thread_as_head h new k = Ok () k' → new ≠ old →
  owner (threads k') q =
    if decide (q = new) then (if decide (old = 0) then Some h else owner (threads k) old)
    else owner (threads k) q.
Proof.
  intros Hl H Hne. unfold insert_thread_as_head in H. apply bind_ok_inv in H as ([] & k1 & E1 & H).
  rewrite (store_list_threads _ _ _ _ H). by eapply insert_at_tail_owner.
Qed.
End owners.

(** ** What a lock represents *)

(** A thread that can be named by its code: it lies in the kernel heap. *)
Definition thread_ok (k : kstate) (p : Z) : Prop :=
  start_address < p < 2 ^ 64 ∧ could_be_in_heap k (thread_code p) = true ∧
  could_be_in_heap k (u64 (thread_code p + sizeof_thread_context - 1)) = true.

(** The value of a lock held by [h] for which [ws] wait. *)
Definition lock_word (h : Z) (ws : list Z) : Z :=
  Z.lor (thread_code h) (Z.shiftl (thread_code (default 0 (head ws))) 32).

(** The lock at [va] in the loaded map is held by [h], and [ws] are blocked on it, in
    this order. *)
Record lock_rep (k : kstate) (va h : Z) (ws : list Z) : Prop := {
  lr_word : user_memory k !! (loaded_map (core k), va) = Some (lock_word h ws);
  lr_holder : thread_ok k h;
  lr_ring : ring (threads k) ws;
  lr_waiters : ∀ w, w ∈ ws → thread_ok k w ∧ owner (threads k) w = Some StaticBlocked ∧
                 reg 17 <$> threads k !! w = Some va;
}.

(** The running threads: [thread] is the first of the ring [thread :: l]. *)
Record running (k : kstate) (thread : Z) (l : list Z) : Prop := {
  rn_ring : ring (threads k) (thread :: l);
  rn_head : runnable (core k) = thread;
  rn_owner : ∀ p, p ∈ thread :: l → owner (threads k) p = Some CoreRunnable;
}.

Section codes.
Implicit Types (p h : Z) (ws : list Z).

Lemma thread_code_range p : start_address < p < 2 ^ 64 → thread_code p = p - start_address ∧ 0 < thread_code p < 2 ^ 32.
Proof.
  unfold thread_code, start_address, himem_offset. intros Hp.
  rewrite bool_decide_eq_false_2 by lia. rewrite u32_id by (unfold is_u32; lia). lia.
Qed.

Lemma thread_code_inj p h :
  start_address < p < 2 ^ 64 → start_address < h < 2 ^ 64 → thread_code p = thread_code h → p = h.
Proof. intros Hp Hh. destruct (thread_code_range p Hp), (thread_code_range h Hh). lia. Qed.

Lemma thread_code_lt p : p = 0 ∨ start_address < p < 2 ^ 64 → 0 ≤ thread_code p < 2 ^ 32.
Proof. intros [-> | Hp]; [done |]. destruct (thread_code_range p Hp). lia. Qed.

Lemma from_code p : start_address < p < 2 ^ 64 → thread_from_code (u32 (thread_code p)) = p.
Proof.
  intros Hp. destruct (thread_code_range p Hp). rewrite u32_id by (unfold is_u32; lia).
  apply thread_from_code_code. tauto.
Qed.

Lemma pack_low a b : 0 ≤ a < 2 ^ 32 → 0 ≤ b → Z.land 0xffffffff (Z.lor a (Z.shiftl b 32)) = a.
Proof.
  intros Ha Hb. rewrite Z.land_comm. change 0xffffffff with (Z.ones 32). rewrite Z.land_lor_distr_l.
  rewrite !Z.land_ones, (Z.mod_small a), Z.shiftl_mul_pow2, Z.mod_mul by lia. apply Z.lor_0_r.
Qed.

Lemma pack_high a b : 0 ≤ a < 2 ^ 32 → 0 ≤ b < 2 ^ 32 → u32 (Z.shiftr (Z.lor a (Z.shiftl b 32)) 32) = b.
Proof.
  intros Ha Hb. rewrite Z.shiftr_lor, Z.shiftr_shiftl_l, Z.sub_diag, Z.shiftl_0_r by lia.
  rewrite (Z.shiftr_div_pow2 a), Z.div_small, Z.lor_0_l by lia. apply u32_id. done.
Qed.
End codes.

Section lock_words.
Context (k : kstate) (va h : Z) (ws : list Z) (Hrep : lock_rep k va h ws).

Lemma first_waiter_ok : default 0 (head ws) = 0 ∨ start_address < default 0 (head ws) < 2 ^ 64.
Proof.
  destruct ws as [|w ws']; [by left |]. right. simpl.
  destruct (lr_waiters _ _ _ _ Hrep w) as [[H _] _]; [by left | done].
Qed.

Lemma lock_word_low : Z.land 0xffffffff (lock_word h ws) = thread_code h.
Proof.
  destruct (lr_holder _ _ _ _ Hrep) as [Hh _]. destruct (thread_code_range h Hh).
  apply pack_low; [lia |]. pose proof (thread_code_lt _ first_waiter_ok). lia.
Qed.

Lemma lock_word_high : u32 (Z.shiftr (lock_word h ws) 32) = thread_code (default 0 (head ws)).
Proof.
  destruct (lr_holder _ _ _ _ Hrep) as [Hh _]. destruct (thread_code_range h Hh).
  apply pack_high; [lia |]. apply thread_code_lt, first_waiter_ok.
Qed.

Lemma lock_word_nonzero : lock_word h ws ≠ 0.
Proof.
  intros E. pose proof lock_word_low as L. rewrite E, Z.land_0_r in L.
  destruct (lr_holder _ _ _ _ Hrep) as [Hh _]. destruct (thread_code_range h Hh). lia.
Qed.

Lemma lock_word_other p : start_address < p < 2 ^ 64 → p ≠ h → lock_word h ws ≠ thread_code p.
Proof.
  intros Hp Hne E. apply Hne. pose proof lock_word_low as L. rewrite E in L.
  destruct (thread_code_range p Hp). rewrite Z.land_comm in L. change 0xffffffff with (Z.ones 32) in L.
  rewrite Z.land_ones, Z.mod_small in L by lia.
  destruct (lr_holder _ _ _ _ Hrep) as [Hh _]. by apply thread_code_inj.
Qed.
End lock_words.

(** A thread in a ring passes [is_real_thread]. *)
Lemma thread_ok_real k p m :
  thread_ok k p → ring (threads k) m → p ∈ m → is_real_thread (thread_code p) k = Ok true k.
Proof.
  intros (Hp & H1 & H2) Hr Hin. eapply is_real_thread_ring; [exact Hr | exact Hin | | done | done].
  symmetry. apply thread_from_code_code. tauto.
Qed.

(** Fields other than the links survive relinking. *)
Lemma relinks_observe l k k' p {A} (f : thread_context → A) :
  (∀ t, f (unlink t) = f t) → relinks l k k' → f <$> threads k' !! p = f <$> threads k !! p.
Proof.
  intros Hf (_ & H & _). specialize (H p).
  destruct (threads k !! p) as [t|], (threads k' !! p) as [t'|]; simpl in *; try done.
  apply (f_equal (fmap f)) in H. simpl in H. rewrite !Hf in H. done.
Qed.

Lemma relinks_thread_ok l k k' p : relinks l k k' → thread_ok k p → thread_ok k' p.
Proof. intros (E & _) H. unfold thread_ok, could_be_in_heap in *. by rewrite E. Qed.

Lemma relinks_ring l k k' m :
  relinks l k k' → (∀ p, p ∈ m → p ∉ l) → ring (threads k) m → ring (threads k') m.
Proof. intros (_ & _ & H) Hd. apply ring_ext; intros p Hp; by apply H, Hd. Qed.

(** ** Waiting *)
Lemma lock_checks_ok k thread va line :
  Z.land (at_s1e0w (core k) va) 1 = 0 → start_address < thread < 2 ^ 64 →
  lock_checks thread va (thread_code thread) line k = Ok () k.
Proof.
  intros Hw Ht. unfold lock_checks, address_is_user_writable, get_core.
  erewrite bind_ok by (rewrite gets_ok; by rewrite bool_decide_eq_true_2).
  erewrite bind_ok by done. rewrite from_code by done. by rewrite bool_decide_eq_false_2 by tauto.
Qed.

Lemma lock_block_ok k thread l va h ws m :
  running k thread l → l ≠ [] → lock_rep k va h ws → ring (threads k) m → h ∈ m →
  ∃ k', lock_block thread (thread_code (default 0 (head ws))) (thread_code h) k =
          Ok (default thread (head l)) k' ∧
    ring (threads k') l ∧ ring (threads k') [thread] ∧
    relinks (thread :: l) (set_core (set_runnable (default thread (head l)) (core k)) k) k' ∧
    (∀ p, owner (threads k') p = owner (threads k) p).
Proof.
  intros [Hr Hh Ho] Hl Hrep Hm Hhm. unfold lock_block.
  erewrite bind_ok by (eapply thread_ok_real; [apply Hrep | exact Hm | done]). erewrite bind_ok by done.
  erewrite (bind_ok (when _ _) _ k () k).
  2: { destruct ws as [|w ws]; [done |]. simpl. unfold when. case_bool_decide; [|done].
       erewrite bind_ok by (eapply thread_ok_real; [|apply Hrep | by left];
         apply (lr_waiters _ _ _ _ Hrep w); by left). done. }
  assert (is_Some (threads k !! thread)) as [t Ht] by (eapply ring_lookup; [exact Hr | by left]).
  erewrite bind_ok by by apply get_thread_ok.
  pose proof (ring_next _ _ _ Hr) as Hnext. unfold next_of in Hnext. rewrite Ht in Hnext.
  injection Hnext as Hnext. cbv zeta. rewrite Hnext.
  set (k1 := set_core _ k). rewrite (bind_ok _ _ _ () k1) by done.
  assert (default thread (head l) ≠ thread) as Hne.
  { destruct l as [|x l]; [done |]. apply ring_NoDup, NoDup_cons in Hr as [Hr _]. simpl. set_solver. }
  pass.
  assert (list_of t = CoreRunnable) as Hlist.
  { specialize (Ho thread ltac:(by left)). unfold owner in Ho. rewrite Ht in Ho. by injection Ho. }
  destruct (remove_thread_not_head k1 thread l t (default thread (head l))) as (k2 & E2 & Hrel & Hrl & Hrt);
    [done | done | by rewrite Hlist | done |].
  exists k2. erewrite bind_ok by exact E2. split; [done |]. split; [done |]. split; [done |].
  split; [done |]. intros p. by rewrite (remove_owner k1 thread k2).
Qed.

(** A lock is not affected by what happens to other threads. *)
Lemma lock_rep_frame k k' va h ws l :
  lock_rep k va h ws → relinks l k k' → (∀ w, w ∈ ws → w ∉ l) →
  (∀ w, w ∈ ws → owner (threads k') w = owner (threads k) w) → lock_rep k' va h ws.
Proof.
  intros [Hw Hh Hr Hws] Hrel Hd Ho. pose proof Hrel as (E & _). split.
  - by rewrite E.
  - by eapply relinks_thread_ok.
  - by eapply relinks_ring.
  - intros w Hin. destruct (Hws w Hin) as (H1 & H2 & H3).
    split; [by eapply relinks_thread_ok |]. rewrite Ho by done. split; [done |].
    by rewrite (relinks_observe l k k').
Qed.

(** [set_user_word] and the fields a lock depends on. *)
Lemma get_user_word_ok k map va w :
  user_memory k !! (map, va) = Some w → get_user_word map va k = Ok w k.
Proof. intros H. unfold get_user_word. by rewrite H. Qed.

Lemma set_user_word_ok k map va w v :
  user_memory k !! (map, va) = Some w → set_user_word map va v k = Ok () (put_user_word map va v k).
Proof. intros H. unfold set_user_word. by erewrite bind_ok by by apply get_user_word_ok. Qed.

(** Joining the ring of blocked threads, once off the runnable ring. *)
Lemma join_waiters k ws thread :
  ring (threads k) ws → ring (threads k) [thread] → thread ∉ ws → 0 ∉ thread :: ws →
  (∀ w, w ∈ ws → owner (threads k) w = Some StaticBlocked) →
  ∃ k', (if bool_decide (ws = []) then _ ← modify (set_blocked 0); insert_thread_as_head StaticBlocked thread
         else _ ← modify (set_blocked (default 0 (head ws))); insert_thread_at_tail StaticBlocked thread) k =
          Ok () k' ∧
    ring (threads k') (ws ++ [thread]) ∧
    relinks (ws ++ [thread]) (set_blocked (default thread (head ws)) k) k' ∧
    (∀ p, owner (threads k') p = if decide (p = thread) then Some StaticBlocked else owner (threads k) p).
Proof.
  intros Hws Ht1 Hnot H0 Hown. assert (is_Some (threads k !! thread)) as Hs.
  { by eapply ring_lookup; [exact Ht1 | left]. }
  destruct ws as [|w ws'].
  - rewrite bool_decide_eq_true_2 by done. rewrite modify_ok.
    destruct (insert_thread_at_tail_empty (set_blocked 0 k) StaticBlocked thread) as (k2 & E2 & Hr2 & Hrel2); try done.
    assert (with_head StaticBlocked thread k2 = k2) as Hwh.
    { pose proof Hrel2 as (E & _). by rewrite E. }
    exists k2. unfold insert_thread_as_head. erewrite bind_ok by exact E2.
    split; [by rewrite store_list_ok, Hwh |]. split; [done |]. split; [done |].
    intros p. apply (insert_at_tail_owner (set_blocked 0 k) StaticBlocked 0 thread); [done | done | set_solver].
  - rewrite bool_decide_eq_false_2 by done. rewrite modify_ok. simpl head. simpl default.
    destruct (insert_thread_at_tail_nonempty (set_blocked w k) StaticBlocked thread w ws')
      as (k2 & E2 & Hr2 & Hrel2); [done | set_solver | done | done | done |].
    exists k2. split; [done |]. split; [done |]. split; [done |].
    intros p. rewrite (insert_at_tail_owner (set_blocked w k) StaticBlocked w thread k2 p); [|done | done | set_solver].
    rewrite (decide_False (P := w = 0)) by set_solver. case_decide; [|done]. apply Hown. by left.
Qed.

Lemma relinks_blocked l k k' b : relinks l (set_blocked b k) k' →
  user_memory k' = user_memory k ∧ core k' = core k ∧ (∀ p, thread_ok k p → thread_ok k' p) ∧
  (∀ p, reg 17 <$> threads k' !! p = reg 17 <$> threads k !! p) ∧
  (∀ m, (∀ p, p ∈ m → p ∉ l) → ring (threads k) m → ring (threads k') m).
Proof.
  intros Hrel. pose proof Hrel as (E & _). split; [by rewrite E |]. split; [by rewrite E |]. split_and!.
  - intros p. by apply (relinks_thread_ok l (set_blocked b k)).
  - intros p. by apply (relinks_observe l (set_blocked b k) k' p (reg 17)).
  - intros m. by apply (relinks_ring l (set_blocked b k)).
Qed.

Section waiting.
Context (k : kstate) (thread : Z) (l : list Z) (va h : Z) (ws m : list Z) (t : thread_context).
Context (Hrun : running k thread l) (Hl : l ≠ []) (Hrep : lock_rep k va h ws).
Context (Hm : ring (threads k) m) (Hhm : h ∈ m) (Hok : thread_ok k thread) (Hne : thread ≠ h).
Context (Ht : threads k !! thread = Some t) (H17 : reg 17 t = va).
Context (Hdis : ∀ w, w ∈ ws → w ∉ thread :: l).

(** Leaving the runnable ring and joining the waiters. *)
Lemma block_and_join :
  ∃ k1 k2, lock_block thread (thread_code (default 0 (head ws))) (thread_code h) k =
      Ok (default thread (head l)) k1 ∧
    (if bool_decide (ws = []) then _ ← modify (set_blocked 0); insert_thread_as_head StaticBlocked thread
     else _ ← modify (set_blocked (default 0 (head ws))); insert_thread_at_tail StaticBlocked thread) k1 =
      Ok () k2 ∧
    user_memory k2 = user_memory k ∧ loaded_map (core k2) = loaded_map (core k) ∧
    (∀ v, v = lock_word h (ws ++ [thread]) →
       lock_rep (put_user_word (loaded_map (core k)) va v k2) va h (ws ++ [thread])) ∧
    ring (threads k2) l ∧ runnable (core k2) = default thread (head l) ∧
    (∀ w, w ∈ ws → reg 17 <$> threads k1 !! w = Some va) ∧
    blocked k2 = default thread (head ws) ∧
    (∀ p, p ∈ l → owner (threads k2) p = Some CoreRunnable).
Proof.
  destruct (lock_block_ok k thread l va h ws m) as (k1 & E1 & Hrl & Hrt & Hrel1 & Ho1); try done.
  set (k0 := set_core _ k) in *.
  assert (lock_rep k0 va h ws) as Hrep0 by (destruct Hrep; by split).
  assert (lock_rep k1 va h ws) as Hrep1 by (eapply lock_rep_frame; [exact Hrep0 | exact Hrel1 | done | auto]).
  assert (thread ∉ ws) as Hnot by (intros H; apply (Hdis _ H); by left).
  assert (0 ∉ thread :: ws) as H0.
  { intros H. assert (start_address < 0) as Hneg; [|done].
    apply elem_of_cons in H as [-> | H]; [by destruct Hok as [[] _] |].
    by destruct (lr_waiters _ _ _ _ Hrep 0 H) as [[[] _] _]. }
  destruct (join_waiters k1 ws thread) as (k2 & E2 & Hr2 & Hrel2 & Ho2);
    [apply Hrep1 | done | done | done | intros w Hw; by apply Hrep1 |].
  exists k1, k2. split; [done |]. split; [done |].
  destruct (relinks_blocked _ _ _ _ Hrel2) as (Hum & Hcore & Hthok & H17' & Hring').
  destruct Hrel1 as (Ek1 & Hsame1 & Hout1).
  split; [rewrite Hum; by rewrite Ek1 |]. split; [rewrite Hcore; by rewrite Ek1 |].
  split; [|split; [|split; [|split; [|split]]]].
  - intros v ->. split.
    + simpl. rewrite Hcore. rewrite Ek1. simpl. apply lookup_insert_eq.
    + apply Hthok, Hrep1.
    + done.
    + intros w [Hw | ->%list_elem_of_singleton]%elem_of_app; cbn [threads put_user_word set_user_memory].
      * destruct (lr_waiters _ _ _ _ Hrep1 w Hw) as (W1 & W2 & W3).
        split; [by apply Hthok |]. rewrite Ho2, decide_False by (intros ->; by apply Hnot). by rewrite H17'.
      * split; [apply Hthok; unfold thread_ok, could_be_in_heap in *; by rewrite Ek1 |].
        rewrite Ho2, decide_True by done. split; [done |]. rewrite H17'.
        pose proof (relinks_observe (thread :: l) k0 k1 thread (reg 17) ltac:(done) (conj Ek1 (conj Hsame1 Hout1))) as ->.
        simpl. by rewrite Ht, <- H17.
  - apply Hring'; [|done]. intros p Hp [Hp' | ->%list_elem_of_singleton]%elem_of_app.
    + apply (Hdis _ Hp'). by right.
    + destruct Hrun as [Hr _ _]. apply ring_NoDup, NoDup_cons in Hr as [Hr _]. done.
  - rewrite Hcore. by rewrite Ek1.
  - intros w Hw. by apply (lr_waiters _ _ _ _ Hrep1).
  - destruct Hrel2 as (Ek2 & _). by rewrite Ek2.
  - intros p Hp. destruct Hrun as [Hr _ Ho]. rewrite Ho2, decide_False.
    + rewrite Ho1. apply Ho. by right.
    + intros ->. by apply ring_NoDup, NoDup_cons in Hr as [Hr _].
Qed.
End waiting.

Lemma lock_loop_step env thread x17 x18 now :
  lock_loop env thread x17 x18 now =
    c ← get_core;
    lock_value ← get_user_word (loaded_map c) x17;
    if bool_decide (lock_value = 0) then
      match env with
      | v :: env => _ ← set_user_word (loaded_map c) x17 v; lock_loop env thread x17 x18 now
      | [] => _ ← set_user_word (loaded_map c) x17 x18; lock_acquired thread now
      end
    else if bool_decide (lock_value = x18) then mret now
    else
      _ ← guard_stop (bool_decide (now ≠ thread)) (Bsod 4);
      let blocked_thread_code := u32 (Z.shiftr lock_value 32) in
      let locking_thread_code := Z.land 0xffffffff lock_value in
      now ← lock_block thread blocked_thread_code locking_thread_code;
      if bool_decide (blocked_thread_code = 0) then
        _ ← modify (set_blocked 0);
        _ ← insert_thread_as_head StaticBlocked thread;
        match env with
        | v :: env => _ ← set_user_word (loaded_map c) x17 v; lock_loop env thread x17 x18 now
        | [] =>
            _ ← set_user_word (loaded_map c) x17 (Z.lor lock_value (u64 (Z.shiftl x18 32)));
            mret now
        end
      else
        let first_blocked_thread := thread_from_code blocked_thread_code in
        _ ← modify (set_blocked first_blocked_thread);
        _ ← when (bool_decide (first_blocked_thread ≠ 0)) (
              f ← get_thread first_blocked_thread;
              guard_stop (bool_decide (reg 17 f ≠ x17)) (Bsod 328));
        _ ← insert_thread_at_tail StaticBlocked thread;
        mret now.
Proof. by destruct env. Qed.

Lemma put_same_word map va w k : user_memory k !! (map, va) = Some w → put_user_word map va w k = k.
Proof. intros H. unfold put_user_word, set_user_memory. rewrite insert_id by done. by destruct k. Qed.

Lemma wait_queue_ok env k thread l va h ws m t :
  running k thread l → l ≠ [] → lock_rep k va h ws → ring (threads k) m → h ∈ m → thread_ok k thread →
  thread ≠ h → threads k !! thread = Some t → reg 17 t = va → (∀ w, w ∈ ws → w ∉ thread :: l) →
  env = [] ∨ ws ≠ [] →
  ∃ k', lock_loop env thread va (thread_code thread) thread k = Ok (default thread (head l)) k' ∧
    lock_rep k' va h (ws ++ [thread]) ∧ running k' (default thread (head l)) (tail l).
Proof.
  intros Hrun Hl Hrep Hm Hhm Hok Hne Ht H17 Hdis Henv.
  destruct (block_and_join k thread l va h ws m t) as (k1 & k2 & E1 & E2 & Hum & Hlm & Hrep2 & Hrl & Hrn & H17' & _ & Ho2); try done.
  pose proof (lr_word _ _ _ _ Hrep) as Hword. pose proof Hok as [Hrange _].
  rewrite lock_loop_step. unfold get_core. rewrite gets_ok.
  erewrite bind_ok by by apply get_user_word_ok.
  rewrite bool_decide_eq_false_2 by by eapply lock_word_nonzero.
  rewrite bool_decide_eq_false_2 by (eapply lock_word_other; done).
  pass. cbv zeta. rewrite (lock_word_high _ _ _ _ Hrep), (lock_word_low _ _ _ _ Hrep).
  erewrite bind_ok by exact E1.
  destruct ws as [|w ws'].
  - destruct Henv as [-> | []]; [|done]. rewrite bool_decide_eq_true_2 in E2 by done.
    rewrite bool_decide_eq_true_2 by done. rewrite (seq2_ok _ _ _ _ _ E2).
    erewrite bind_ok by (apply (set_user_word_ok _ _ _ (lock_word h [])); by rewrite Hum).
    eexists. split; [done |]. split; [|destruct l; [done |]; by split]. apply Hrep2. simpl. unfold lock_word at 1. simpl.
    rewrite Z.shiftl_0_l, Z.lor_0_r. unfold lock_word. cbn [head app default]. f_equal. apply u64_id.
    change (id thread) with thread. destruct (thread_code_range thread Hrange). rewrite Z.shiftl_mul_pow2 by lia. unfold is_u64. lia.
  - rewrite bool_decide_eq_false_2 in E2 by done. change (default 0 (head (w :: ws'))) with w in *.
    destruct (lr_waiters _ _ _ _ Hrep w ltac:(by left)) as ([Hw _] & _).
    destruct (thread_code_range w Hw) as [_ Hcw]. rewrite bool_decide_eq_false_2 by lia.
    rewrite thread_from_code_code by tauto. rewrite modify_ok.
    change (insert_thread_at_tail StaticBlocked thread (set_blocked w k1) = Ok () k2) in E2.
    specialize (H17' w ltac:(by left)). destruct (threads k1 !! w) as [tw|] eqn:Etw; [|done]. injection H17' as H17'.
    erewrite (bind_ok (when _ _) _ _ () (set_blocked w k1)).
    2: { unfold when. case_bool_decide; [|done]. erewrite bind_ok by by apply get_thread_ok.
         by rewrite bool_decide_eq_false_2 by tauto. }
    erewrite bind_ok by exact E2. exists k2. split; [done |]. split; [|destruct l; [done |]; by split].
    rewrite <- (put_same_word (loaded_map (core k)) va (lock_word h ((w :: ws') ++ [thread])) k2); [by apply Hrep2 |].
    rewrite Hum. exact Hword.
Qed.

(** ** Releasing *)
(** [w], the first of the waiters, leaves their ring. *)
Lemma waiter_leaves k w ws t :
  ring (threads k) (w :: ws) → threads k !! w = Some t → owner (threads k) w = Some StaticBlocked →
  ∃ k1 b, (if bool_decide (w = default w (head ws)) then mret (thread_code w)
     else _ ← modify (set_blocked (default w (head ws))); _ ← remove_thread w; b ← gets blocked;
       mret (Z.lor (thread_code w) (Z.shiftl (thread_code b) 32))) k = Ok (lock_word w ws) k1 ∧
    relinks (w :: ws) (set_blocked b k) k1 ∧ ring (threads k1) ws ∧ ring (threads k1) [w] ∧
    (∀ p, owner (threads k1) p = owner (threads k) p).
Proof.
  intros Hrw Ht Hwo.
  destruct ws as [|x ws'].
  - rewrite bool_decide_eq_true_2 by done. exists k, (blocked k). split.
    + unfold lock_word. simpl. rewrite Z.shiftl_0_l, Z.lor_0_r. done.
    + split; [split; [by destruct k |]; split; [done |]; done |]. done.
  - change (default w (head (x :: ws'))) with x.
    assert (w ≠ x) by (apply ring_NoDup, NoDup_cons in Hrw; set_solver).
    rewrite bool_decide_eq_false_2 by done. rewrite modify_ok.
    unfold owner in Hwo. rewrite Ht in Hwo. injection Hwo as Hwo.
    destruct (remove_thread_not_head (set_blocked x k) w (x :: ws') t x) as (k1 & E1 & Hrel & Hrl & Hrt);
      [done | done | by rewrite Hwo | done |].
    exists k1, x. erewrite bind_ok by exact E1. split.
    + rewrite gets_ok. pose proof Hrel as (E & _). by rewrite E.
    + split; [done |]. split; [done |]. split; [done |].
      intros p. by rewrite (remove_owner (set_blocked x k) w k1).
Qed.

Lemma hand_over k thread l va ws w :
  running k thread l → lock_rep k va thread (w :: ws) → (∀ x, x ∈ w :: ws → x ∉ thread :: l) → thread ≠ 0 →
  ∃ k1 k2, (t ← get_thread w;
     if bool_decide (w = next t) then mret (thread_code w)
     else
       _ ← modify (set_blocked (next t));
       _ ← remove_thread w;
       b ← gets blocked;
       mret (Z.lor (thread_code w) (Z.shiftl (thread_code b) 32))) k = Ok (lock_word w ws) k1 ∧
    insert_thread_as_head CoreRunnable w k1 = Ok () k2 ∧
    ring (threads k2) (w :: thread :: l) ∧ ring (threads k2) ws ∧ runnable (core k2) = w ∧
    user_memory k2 = user_memory k ∧ loaded_map (core k2) = loaded_map (core k) ∧
    (∀ p, thread_ok k p → thread_ok k2 p) ∧
    (∀ p, reg 17 <$> threads k2 !! p = reg 17 <$> threads k !! p) ∧
    (∀ p, owner (threads k2) p = if decide (p = w) then Some CoreRunnable else owner (threads k) p).
Proof.
  intros [Hr Hh Ho] Hrep Hdis H0.
  assert (w ∈ w :: ws) as Hw by by left.
  destruct (lr_waiters _ _ _ _ Hrep w Hw) as ([Hwr _] & Hwo & _).
  pose proof (lr_ring _ _ _ _ Hrep) as Hrw.
  assert (is_Some (threads k !! w)) as [t Ht] by by eapply ring_lookup.
  pose proof (ring_next _ _ _ Hrw) as Hnext. unfold next_of in Hnext. rewrite Ht in Hnext. injection Hnext as Hnext.
  erewrite bind_ok by by apply get_thread_ok. rewrite Hnext.
  destruct (waiter_leaves k w ws t Hrw Ht Hwo) as (k1 & b & E1 & Hrel1 & Hr1 & Hw1 & Ho1).
  destruct (relinks_blocked _ _ _ _ Hrel1) as (Hum & Hcore & Hthok & H17 & Hring).
  destruct (insert_thread_as_head_nonempty k1 CoreRunnable w thread l) as (k2 & E2 & Hr2 & Hrel2).
  { unfold load_list, gets. by rewrite Hcore, Hh. } { done. } { done. }
  { apply Hring; [|done]. intros p Hp Hp'. by apply (Hdis p). } { by apply Hdis. }
  { eapply ring_lookup; [exact Hw1 | by left]. }
  pose proof Hrel2 as (Ek2 & _).
  exists k1, k2. split; [done |]. split; [done |]. split; [done |]. split_and!.
  - eapply (relinks_ring _ (with_head CoreRunnable w k1)); [exact Hrel2 | | done].
    intros p Hp Hp'. apply elem_of_cons in Hp' as [-> | Hp'].
    + apply ring_NoDup, NoDup_cons in Hrw as [Hrw _]. done.
    + apply (Hdis p); [by right | done].
  - by rewrite Ek2.
  - rewrite Ek2. simpl. done.
  - rewrite Ek2. simpl. by rewrite Hcore.
  - intros p Hp. unfold thread_ok, could_be_in_heap in *. rewrite Ek2. simpl.
    apply Hthok in Hp. done.
  - intros p. rewrite (relinks_observe _ (with_head CoreRunnable w k1) k2 p (reg 17) ltac:(done) Hrel2). apply H17.
  - intros p. rewrite (insert_as_head_owner k1 CoreRunnable thread w k2 p).
    + rewrite (decide_False (P := thread = 0)) by done. destruct (decide (p = w)); rewrite Ho1; [|done].
      apply Ho. by left.
    + unfold load_list, gets. by rewrite Hcore, Hh.
    + done.
    + intros ->. apply (Hdis thread); [done | by left].
Qed.

(** ** A free lock, and a lock that becomes free in the middle *)
Lemma free_lock_loop env k thread va code :
  user_memory k !! (loaded_map (core k), va) = Some 0 → Forall (λ v, v = 0) env →
  lock_loop env thread va code thread k = Ok thread (put_user_word (loaded_map (core k)) va code k).
Proof.
  intros Hw Henv. revert k Hw. induction Henv as [|v env -> Henv IH]; intros k Hw;
    rewrite lock_loop_step; unfold get_core; rewrite gets_ok;
    (erewrite bind_ok by (by apply get_user_word_ok)); (rewrite bool_decide_eq_true_2 by done);
    (erewrite bind_ok by (by eapply set_user_word_ok)).
  - unfold lock_acquired. by rewrite bool_decide_eq_false_2 by tauto.
  - rewrite (put_same_word _ _ _ _ Hw). by apply IH.
Qed.

(** The thread takes itself back from the ring of blocked threads. *)
Lemma lock_acquired_back k thread now l :
  now ≠ thread → blocked k = thread → ring (threads k) [thread] → owner (threads k) thread = Some StaticBlocked →
  running k (default thread (head l)) (tail l) → l ≠ [] → thread ∉ l → 0 ∉ l →
  ∃ k', lock_acquired thread now k = Ok thread k' ∧ ring (threads k') (thread :: l) ∧
    runnable (core k') = thread ∧ user_memory k' = user_memory k ∧ loaded_map (core k') = loaded_map (core k).
Proof.
  intros Hnow Hb Hr Ho [Hrl Hh _] Hl Hnot H0. unfold lock_acquired.
  rewrite bool_decide_eq_true_2 by done. rewrite gets_ok. pass.
  assert (is_Some (threads k !! thread)) as [t Ht] by (eapply ring_lookup; [exact Hr | by left]).
  unfold owner in Ho. rewrite Ht in Ho. injection Ho as Ho.
  destruct (remove_thread_head k thread [] t) as (k1 & E1 & Hrel & _ & Hr1);
    [done | done | by rewrite Ho | rewrite Ho; unfold load_list, gets; by rewrite Hb |].
  erewrite bind_ok by exact E1. rewrite Ho in Hrel. pose proof Hrel as (Ek1 & _).
  destruct l as [|x l]; [done |]. change (default thread (head (x :: l))) with x in *. simpl tail in *.
  assert (ring (threads k1) (x :: l)) as Hrl1.
  { eapply relinks_ring; [exact Hrel | | done]. set_solver. }
  destruct (insert_thread_as_head_nonempty k1 CoreRunnable thread x l) as (k2 & E2 & Hr2 & Hrel2).
  { unfold load_list, gets. rewrite Ek1. simpl. by rewrite Hh. }
  { set_solver. } { done. } { done. } { done. } { eapply ring_lookup; [exact Hr1 | by left]. }
  erewrite bind_ok by exact E2. exists k2. pose proof Hrel2 as (Ek2 & _).
  split; [done |]. split; [done |]. rewrite Ek2. simpl. rewrite Ek1. done.
Qed.

(** The second turn of the loop after the store failed with the lock at [v]. *)
Lemma lock_race k thread l va h m t v :
  running k thread l → l ≠ [] → lock_rep k va h [] → ring (threads k) m → h ∈ m → thread_ok k thread →
  thread ≠ h → threads k !! thread = Some t → reg 17 t = va →
  ∃ k', lock_loop [v] thread va (thread_code thread) thread k =
          lock_loop [] thread va (thread_code thread) (default thread (head l)) k' ∧
    user_memory k' = <[(loaded_map (core k), va) := v]> (user_memory k) ∧
    loaded_map (core k') = loaded_map (core k) ∧
    blocked k' = thread ∧ ring (threads k') [thread] ∧ owner (threads k') thread = Some StaticBlocked ∧
    running k' (default thread (head l)) (tail l).
Proof.
  intros Hrun Hl Hrep Hm Hhm Hok Hne Ht H17.
  destruct (block_and_join k thread l va h [] m t) as
    (k1 & k2 & E1 & E2 & Hum & Hlm & Hrep2 & Hrl & Hrn & _ & Hb & Ho2); try done; [set_solver |].
  pose proof (lr_word _ _ _ _ Hrep) as Hword. pose proof Hok as [Hrange _].
  specialize (Hrep2 _ eq_refl).
  exists (put_user_word (loaded_map (core k)) va v k2). split.
  - rewrite lock_loop_step. unfold get_core. rewrite gets_ok.
    erewrite bind_ok by by apply get_user_word_ok.
    rewrite bool_decide_eq_false_2 by by eapply lock_word_nonzero.
    rewrite bool_decide_eq_false_2 by (eapply lock_word_other; done).
    pass. cbv zeta. rewrite (lock_word_high _ _ _ _ Hrep), (lock_word_low _ _ _ _ Hrep).
    erewrite bind_ok by exact E1. rewrite bool_decide_eq_true_2 in E2 by done.
    rewrite bool_decide_eq_true_2 by done. rewrite (seq2_ok _ _ _ _ _ E2).
    by erewrite bind_ok by (apply (set_user_word_ok _ _ _ (lock_word h [])); by rewrite Hum).
  - split; [simpl; by rewrite Hum |]. split; [done |]. split; [done |].
    split; [apply Hrep2 |]. split; [apply Hrep2; by left |]. destruct l; [done |]. by split.
Qed.

(** The thread makes a lock call: its registers name the lock and itself, and it may
    write to the lock. *)
Record lock_caller (k : kstate) (thread va : Z) (l : list Z) : Prop := {
  lc_running : running k thread l;
  lc_ok : thread_ok k thread;
  lc_regs : ∃ t, threads k !! thread = Some t ∧ reg 17 t = va ∧ reg 18 t = thread_code thread;
  lc_writable : Z.land (at_s1e0w (core k) va) 1 = 0;
}.

Lemma wait_for_lock_loop env k thread va l :
  lock_caller k thread va l →
  handle_svc_wait_for_lock env thread k =
    (now ← lock_loop env thread va (thread_code thread) thread; mret (ThreadSwitch now thread)) k.
Proof.
  intros [_ [Hr _] (t & Ht & H17 & H18) Hw]. unfold handle_svc_wait_for_lock.
  erewrite bind_ok by by apply get_thread_ok. cbv zeta. rewrite H17, H18.
  by erewrite bind_ok by by apply lock_checks_ok.
Qed.

(** ** A small system for the examples

    Threads [ta] and [tb] are runnable and [ta] makes the call; [tw] and [tx] are
    blocked in a ring.  The lock is the word at 0x8000, whose value is given. *)
Definition lock_demo (w : Z) : kstate :=
  let runs n p t := set_list_of CoreRunnable (set_next n (set_prev p t)) in
  let waits n p t := set_list_of StaticBlocked (set_next n (set_prev p (set_reg 17 0x8000 t))) in
  let k := initial_kstate (start_address + 0x10000) 0x10000 in
  let k := set_kernel_heap_bottom 0x1f0000 k in
  let k := put_thread ta (set_reg 17 0x8000 (set_reg 18 0x1f0000 (runs tb tb blank_thread))) k in
  let k := put_thread tb (runs ta ta blank_thread) k in
  let k := put_thread tw (waits tx tx blank_thread) k in
  let k := put_thread tx (waits tw tw blank_thread) k in
  let k := set_core (set_core_tt_l1 (<[0%nat := allocator_block 0]> (core_tt_l1 (core k)))
             (set_runnable ta (set_loaded_map 5 (core k)))) k in
  put_user_word 5 0x8000 w k.

Ltac small_ring := split; [apply (bool_decide_unpack _); by vm_compute |
  simpl; repeat (split; [let b := fresh in intros b [= <-]; by vm_compute |]); try done].

Lemma lock_demo_caller w : lock_caller (lock_demo w) ta 0x8000 [tb].
Proof.
  split; [split | | |].
  - small_ring.
  - done.
  - intros p Hp. apply elem_of_cons in Hp as [-> | ->%list_elem_of_singleton]; by vm_compute.
  - by vm_compute.
  - eexists. split; [by vm_compute |]. by vm_compute.
  - by vm_compute.
Qed.

Lemma lock_demo_held h : thread_ok (lock_demo (lock_word h [])) h → lock_rep (lock_demo (lock_word h [])) 0x8000 h [].
Proof. intros Hh. split; [done | done | done |]. intros w Hw. by apply not_elem_of_nil in Hw. Qed.

Lemma lock_demo_waiters h :
  thread_ok (lock_demo (lock_word h [tw; tx])) h → lock_rep (lock_demo (lock_word h [tw; tx])) 0x8000 h [tw; tx].
Proof.
  intros Hh. split; [done | done | small_ring |].
  intros w Hw. apply elem_of_cons in Hw as [-> | ->%list_elem_of_singleton]; by vm_compute.
Qed.

(** ** Theorems *)

(** Waiting for a free lock gets it at once: the lock's value becomes the
    thread's code, nothing else changes and the thread goes on running, however
    often the exclusive store fails without the lock being taken. *)
Theorem wait_for_free_lock env k thread va l :
  lock_caller k thread va l → user_memory k !! (loaded_map (core k), va) = Some 0 → Forall (λ v, v = 0) env →
  ∃ k', handle_svc_wait_for_lock env thread k = Ok (ThreadSwitch thread thread) k' ∧
    lock_rep k' va thread [] ∧ k' = put_user_word (loaded_map (core k)) va (thread_code thread) k.
Proof.
  intros Hc Hw Henv. rewrite (wait_for_lock_loop env k thread va l) by done.
  erewrite bind_ok by by apply free_lock_loop. eexists. split; [done |]. split; [|done]. split.
  - cbn [user_memory put_user_word set_user_memory core]. unfold lock_word. simpl.
    rewrite lookup_insert_eq, Z.shiftl_0_l, Z.lor_0_r. done.
  - apply Hc.
  - done.
  - intros w Hin. by apply not_elem_of_nil in Hin.
Qed.

Lemma wait_for_free_lock_witness :
  ∃ k', handle_svc_wait_for_lock [0; 0] ta (lock_demo 0) = Ok (ThreadSwitch ta ta) k' ∧
    lock_rep k' 0x8000 ta [].
Proof.
  destruct (wait_for_free_lock [0; 0] (lock_demo 0) ta 0x8000 [tb]) as (k' & E & Hr & _).
  { apply lock_demo_caller. } { by vm_compute. } { by repeat constructor. }
  exists k'. split; [exact E | exact Hr].
Defined.

(** Waiting for a lock that another thread holds blocks the caller behind all
    threads that wait already: it leaves the runnable ring, the next thread runs,
    and the lock stays with its holder. *)
Theorem wait_for_held_lock env k thread va l h ws m :
  lock_caller k thread va l → l ≠ [] → lock_rep k va h ws → thread ≠ h →
  ring (threads k) m → h ∈ m → (∀ w, w ∈ ws → w ∉ thread :: l) → env = [] ∨ ws ≠ [] →
  ∃ k', handle_svc_wait_for_lock env thread k = Ok (ThreadSwitch (default thread (head l)) thread) k' ∧
    lock_rep k' va h (ws ++ [thread]) ∧ running k' (default thread (head l)) (tail l).
Proof.
  intros Hc Hl Hrep Hne Hm Hhm Hdis Henv. pose proof Hc as [Hrun Hok (t & Ht & H17 & _) _].
  destruct (wait_queue_ok env k thread l va h ws m t) as (k' & E & H); try done.
  exists k'. rewrite (wait_for_lock_loop env k thread va l) by done. by erewrite bind_ok by exact E.
Qed.

Lemma wait_for_held_lock_witness :
  ∃ k', handle_svc_wait_for_lock [] ta (lock_demo (lock_word tb [tw; tx])) = Ok (ThreadSwitch tb ta) k' ∧
    lock_rep k' 0x8000 tb [tw; tx; ta] ∧ running k' tb [].
Proof.
  destruct (wait_for_held_lock [] (lock_demo (lock_word tb [tw; tx])) ta 0x8000 [tb] tb [tw; tx] [ta; tb])
    as (k' & E & Hr & Hrun).
  { apply lock_demo_caller. } { done. } { apply lock_demo_waiters. by vm_compute. } { by vm_compute. }
  { apply lock_demo_caller. } { by right; left. }
  { intros w Hw. apply not_in_decide. apply elem_of_cons in Hw as [-> | ->%list_elem_of_singleton]; by vm_compute. }
  { by left. }
  exists k'. split; [exact E |]. split; [exact Hr | exact Hrun].
Defined.

(** C39: Releasing a lock for which threads wait hands it to the one that has waited
    longest: that thread holds the lock, runs at once in front of the thread that
    released it, and the others keep waiting in their order. *)
Theorem release_lock_hands_over k thread va l w ws :
  lock_caller k thread va l → lock_rep k va thread (w :: ws) → (∀ x, x ∈ w :: ws → x ∉ thread :: l) →
  ∃ k', handle_svc_release_lock thread k = Ok (ThreadSwitch w thread) k' ∧
    lock_rep k' va w ws ∧ running k' w (thread :: l).
Proof.
  intros [Hrun Hok (t & Ht & H17 & H18) Hw] Hrep Hdis. pose proof Hok as [Hrange _].
  assert (thread ≠ 0) as H0 by (intros ->; by destruct Hrange).
  destruct (hand_over k thread l va ws w) as (k1 & k2 & E1 & E2 & Hr2 & Hrw & Hrn & Hum & Hlm & Hthok & H17' & Ho2); try done.
  destruct (lr_waiters _ _ _ _ Hrep w ltac:(by left)) as (Hwok & _). pose proof Hwok as [Hwr _].
  destruct (thread_code_range w Hwr) as [_ Hcw].
  exists (put_user_word (loaded_map (core k)) va (lock_word w ws) k2). split; [|split].
  - unfold handle_svc_release_lock. erewrite bind_ok by by apply get_thread_ok. cbv zeta.
    rewrite H17, H18. erewrite bind_ok by by apply lock_checks_ok. unfold get_core. rewrite gets_ok.
    erewrite bind_ok by (apply get_user_word_ok, Hrep).
    rewrite guard_pass by by eapply lock_word_nonzero.
    rewrite (lock_word_low _ _ _ _ Hrep), (lock_word_high _ _ _ _ Hrep). pass.
    change (default 0 (head (w :: ws))) with w. rewrite bool_decide_eq_true_2 by lia.
    erewrite bind_ok by (eapply thread_ok_real; [exact Hwok | apply Hrep | by left]).
    erewrite bind_ok by done. rewrite thread_from_code_code by tauto.
    assert (is_Some (threads k !! w)) as [tw' Htw] by (eapply ring_lookup; [apply Hrep | by left]).
    erewrite bind_ok in E1 by by apply get_thread_ok. erewrite bind_ok by by apply get_thread_ok.
    erewrite bind_ok by exact E1. erewrite bind_ok by exact E2.
    by erewrite bind_ok by (apply (set_user_word_ok _ _ _ (lock_word thread (w :: ws))); rewrite Hum; apply Hrep).
  - split.
    + cbn [user_memory put_user_word set_user_memory core]. rewrite Hlm. apply lookup_insert_eq.
    + by apply (Hthok w).
    + done.
    + intros x Hx. destruct (lr_waiters _ _ _ _ Hrep x ltac:(by right)) as (X1 & X2 & X3).
      split; [by apply (Hthok x) |]. cbn [threads put_user_word set_user_memory]. rewrite Ho2, H17'.
      rewrite decide_False; [done |]. intros ->. pose proof (lr_ring _ _ _ _ Hrep) as Hr.
      by apply ring_NoDup, NoDup_cons in Hr as [Hr _].
  - split; [done | done |]. intros p Hp. cbn [threads put_user_word set_user_memory]. rewrite Ho2.
    apply elem_of_cons in Hp as [-> | Hp]; [by rewrite decide_True |].
    rewrite decide_False by (intros ->; by apply (Hdis w); [left |]). by apply Hrun.
Qed.

Lemma release_lock_hands_over_witness :
  ∃ k', handle_svc_release_lock ta (lock_demo (lock_word ta [tw; tx])) = Ok (ThreadSwitch tw ta) k' ∧
    lock_rep k' 0x8000 tw [tx] ∧ running k' tw [ta; tb].
Proof.
  destruct (release_lock_hands_over (lock_demo (lock_word ta [tw; tx])) ta 0x8000 [tb] tw [tx])
    as (k' & E & Hr & Hrun).
  { apply lock_demo_caller. } { apply lock_demo_waiters. by vm_compute. }
  { intros w Hw. apply not_in_decide. apply elem_of_cons in Hw as [-> | ->%list_elem_of_singleton]; by vm_compute. }
  exists k'. split; [exact E |]. split; [exact Hr | exact Hrun].
Defined.

(** Releasing a lock for which nobody waits frees it, and the thread goes on. *)
Lemma release_lock_alone k thread va l :
  lock_caller k thread va l → lock_rep k va thread [] →
  handle_svc_release_lock thread k = Ok (ThreadSwitch thread thread) (put_user_word (loaded_map (core k)) va 0 k).
Proof.
  intros [Hrun Hok (t & Ht & H17 & H18) Hw] Hrep. pose proof Hok as [Hrange _].
  unfold handle_svc_release_lock. erewrite bind_ok by by apply get_thread_ok. cbv zeta.
  rewrite H17, H18. erewrite bind_ok by by apply lock_checks_ok. unfold get_core. rewrite gets_ok.
  erewrite bind_ok by (apply get_user_word_ok, Hrep).
  rewrite guard_pass by by eapply lock_word_nonzero.
  rewrite (lock_word_low _ _ _ _ Hrep), (lock_word_high _ _ _ _ Hrep). pass.
  change (thread_code (default 0 (head []))) with 0. 
  rewrite bool_decide_eq_false_2 by tauto. cbv iota.
  by erewrite bind_ok by (eapply set_user_word_ok; apply Hrep).
Qed.

(** When the holder releases the lock between the read and the exclusive store
    of a thread that is about to block, the thread notices on its second attempt:
    it takes the lock, takes itself off the blocked list again and goes on running
    in front of the others. *)
Theorem wait_lock_released_meanwhile k thread va l h m :
  lock_caller k thread va l → l ≠ [] → 0 ∉ l → lock_rep k va h [] → thread ≠ h → ring (threads k) m → h ∈ m →
  ∃ k', handle_svc_wait_for_lock [0] thread k = Ok (ThreadSwitch thread thread) k' ∧
    user_memory k' !! (loaded_map (core k), va) = Some (thread_code thread) ∧
    ring (threads k') (thread :: l) ∧ runnable (core k') = thread.
Proof.
  intros Hc Hl H0 Hrep Hne Hm Hhm. pose proof Hc as [Hrun Hok (t & Ht & H17 & _) _].
  destruct (lock_race k thread l va h m t 0) as (k1 & E1 & Hum & Hlm & Hb & Hr1 & Ho1 & Hrun1); try done.
  pose proof Hrun as [Hr _ _]. apply ring_NoDup, NoDup_cons in Hr as [Hnot _].
  destruct (lock_acquired_back (put_user_word (loaded_map (core k1)) va (thread_code thread) k1) thread
    (default thread (head l)) l) as (k2 & E2 & Hr2 & Hrn2 & Hum2 & Hlm2); try done.
  { destruct l as [|x l']; [done |]. simpl. intros E. apply Hnot. rewrite <- E. by left. }
  { by destruct Hrun1; split. }
  exists k2. rewrite (wait_for_lock_loop [0] k thread va l) by done.
  erewrite (bind_ok _ _ k thread k2).
  - split; [done |]. rewrite Hum2. cbn [user_memory put_user_word set_user_memory]. rewrite Hlm.
    by rewrite lookup_insert_eq.
  - rewrite E1, lock_loop_step. unfold get_core. rewrite gets_ok.
    erewrite bind_ok by (apply (get_user_word_ok _ _ _ 0); rewrite Hum, Hlm; apply lookup_insert_eq).
    rewrite bool_decide_eq_true_2 by done.
    by erewrite bind_ok by (apply (set_user_word_ok _ _ _ 0); rewrite Hum, Hlm; apply lookup_insert_eq).
Qed.

Lemma wait_lock_released_meanwhile_witness :
  ∃ k', handle_svc_wait_for_lock [0] ta (lock_demo (lock_word tb [])) = Ok (ThreadSwitch ta ta) k' ∧
    ring (threads k') [ta; tb].
Proof.
  destruct (wait_lock_released_meanwhile (lock_demo (lock_word tb [])) ta 0x8000 [tb] tb [ta; tb])
    as (k' & E & _ & Hr & _).
  { apply lock_demo_caller. } { done. } { apply not_in_decide. by vm_compute. }
  { apply lock_demo_held. by vm_compute. } { by vm_compute. } { apply lock_demo_caller. } { by right; left. }
  exists k'. split; [exact E | exact Hr].
Defined.

(** The exclusive store may also fail with the lock unchanged; then the second
    attempt finds the lock held while the thread is on the blocked list already, and
    the kernel stops. *)
Theorem wait_lock_spurious_failure_stops k thread va l h m :
  lock_caller k thread va l → l ≠ [] → lock_rep k va h [] → thread ≠ h → ring (threads k) m → h ∈ m →
  ∃ k', handle_svc_wait_for_lock [lock_word h []] thread k = Stop (Bsod 4) k'.
Proof.
  intros Hc Hl Hrep Hne Hm Hhm. pose proof Hc as [Hrun Hok (t & Ht & H17 & _) _]. pose proof Hok as [Hrange _].
  destruct (lock_race k thread l va h m t (lock_word h [])) as (k1 & E1 & Hum & Hlm & _); try done.
  pose proof Hrun as [Hr _ _]. apply ring_NoDup, NoDup_cons in Hr as [Hnot _].
  exists k1. rewrite (wait_for_lock_loop _ k thread va l) by done. apply bind_stop.
  rewrite E1, lock_loop_step. unfold get_core. rewrite gets_ok.
  erewrite bind_ok by (apply get_user_word_ok; rewrite Hum, Hlm; apply lookup_insert_eq).
  rewrite bool_decide_eq_false_2 by by eapply lock_word_nonzero.
  rewrite bool_decide_eq_false_2 by (eapply lock_word_other; done).
  rewrite guard_stops; [done |]. destruct l as [|x l']; [done |]. simpl.
  intros E. apply Hnot. rewrite <- E. by left.
Qed.

Lemma wait_lock_spurious_failure_stops_witness :
  ∃ k', handle_svc_wait_for_lock [lock_word tb []] ta (lock_demo (lock_word tb [])) = Stop (Bsod 4) k'.
Proof.
  apply (wait_lock_spurious_failure_stops (lock_demo (lock_word tb [])) ta 0x8000 [tb] tb [ta; tb]).
  { apply lock_demo_caller. } { done. }
  { apply lock_demo_held. by vm_compute. } { by vm_compute. } { apply lock_demo_caller. } { by right; left. }
Defined.
