(* ===== verification/SystemRequest.v ===== *)
(** * Requests of the system driver

    [system_driver_request] of [secure_el1.c], one definition per request.  The
    system driver calls it (through [ISAMBARD_SYSTEM_REQUEST]) on behalf of the
    map that called the driver, which is the [caller_map] on top of the thread's
    call stack. *)

From S2P Require Import Prelude Vmsa SystemServices Kernel LinkedLists Heap Interfaces Maps.
Import Vmsa.

(** [core->system_thread_stack.entry[i] = v] *)
Definition set_stack_entry (i : nat) (v : Z) : K unit :=
  upd_core (λ c, set_system_thread_stack (<[i := v]> (system_thread_stack c)) c).

Definition device_page_entry (address : Z) : Z :=
  let entry := Aarch64_VMSA_page_at address in
  let entry := Aarch64_VMSA_device_memory entry in
  let entry := Aarch64_VMSA_el0_rw_ entry in
  finish_entry 3 entry.

Definition add_device_page (thread : Z) : K unit :=
  t ← get_thread thread;
  let entry := device_page_entry (reg 1 t) in
  let page := u32 (Z.shiftr (reg 2 t) 12) in
  m ← gets shared_system_map;
  _ ← guard_stop (bool_decide (Z.of_nat (length m) ≤ page)) (Bsod 970);
  _ ← guard_stop (bool_decide (nth (Z.to_nat page) m 0 ≠ Aarch64_VMSA_invalid)) (Bsod 974);
  _ ← set_stack_entry 4 (reg 2 t);
  _ ← set_shared_entry page entry;
  _ ← set_l3 page entry;
  mapped ← gets shared_system_map_mapped_pages;
  _ ← when (bool_decide (mapped ≤ page)) (modify (set_shared_system_map_mapped_pages (page + 1)));
  upd_thread thread (set_reg 0 (u32 (Z.shiftl page 12))).

Definition updated_map : K unit :=
  core_page ← gets shared_system_map_core_page;
  mapped ← gets shared_system_map_mapped_pages;
  for_range (Z.to_nat (mapped - (core_page + 1))) (core_page + 1) (λ i,
    m ← gets shared_system_map;
    match m !! Z.to_nat i with
    | Some entry => set_l3 i entry
    | None => halt (Fault i)
    end).

(** What follows the [return] of this case is never reached. *)
Definition create_map (thread : Z) : K unit :=
  e ← obtain_interface;
  s ← top_of_stack thread;
  t ← get_thread thread;
  _ ← upd_interface e (λ i, MkInterface (caller_map s) (provider i) (handler i) (object i));
  _ ← upd_interface e (λ i, MkInterface (user i) (current_map t) (handler i) (object i));
  _ ← upd_interface e (λ i, MkInterface (user i) (provider i) (reg 0 t) (object i));
  _ ← upd_interface e (λ i, MkInterface (user i) (provider i) (handler i) (reg 1 t));
  upd_thread thread (set_reg 0 e).

Definition read_interface (thread : Z) : K unit :=
  t ← get_thread thread;
  k ← gets id;
  match interface_from_index k (reg 1 t) with
  | Some i =>
      e ← get_interface i;
      upd_thread thread (set_reg 0 (object e))
  | None => halt (Bsod 1040)
  end.

Definition create_thread (thread : Z) : K Z :=
  t ← get_thread thread;
  _ ← guard_stop (bool_decide (0 ≠ Z.land (reg 2 t) 0xf)) (Bsod 1060);
  new_thread ← allocate_thread 0;
  _ ← initialise_new_thread new_thread;
  s ← top_of_stack thread;
  _ ← upd_thread new_thread (set_current_map (caller_map s));
  _ ← upd_thread new_thread (set_pc (reg 1 t));
  _ ← upd_thread new_thread (set_sp (reg 2 t));
  _ ← upd_thread new_thread (set_spsr 0);
  _ ← upd_thread thread (set_reg 0 (thread_code new_thread));
  _ ← insert_thread_as_head CoreRunnable new_thread;
  mret new_thread.

Definition set_interrupt_thread_request (thread : Z) : K Z :=
  c ← get_core;
  _ ← (if bool_decide (interrupt_thread c ≠ 0) then
         guard_stop (bool_decide (interrupt_thread c ≠ thread)) (Bsod 1077)
       else
         _ ← upd_core (set_interrupt_thread thread);
         upd_thread thread (set_spsr 0x80));
  t ← get_thread thread;
  let now := next t in
  _ ← remove_thread thread;
  _ ← upd_core (set_runnable now);
  mret now.

Definition make_partner (thread : Z) : K unit :=
  t ← get_thread thread;
  _ ← guard_stop (bool_decide (partner t ≠ 0)) (Bsod 1090);
  p ← allocate_thread sizeof_vm_state;
  _ ← modify (λ k, set_vm_states (<[p := replicate 18 0]> (vm_states k)) k);
  _ ← upd_thread thread (set_partner p);
  _ ← initialise_new_thread p;
  _ ← upd_thread p (set_partner thread);
  s ← top_of_stack thread;
  _ ← upd_thread p (set_current_map (caller_map s));
  _ ← upd_thread p (set_pc 0);
  upd_thread p (set_spsr 0x1d3).

Section with_drivers.
Context (drivers : list driver_info).

(** The request in register 0; the result is [result.now]. *)
Definition system_request (thread : Z) : K Z :=
  t ← get_thread thread;
  let r := reg 0 t in
  if bool_decide (r = Isambard_System_Service_Add_Device_Page) then
    _ ← add_device_page thread; mret thread
  else if bool_decide (r = Isambard_System_Service_Updated_Map) then
    _ ← updated_map; mret thread
  else if bool_decide (r = Isambard_System_Service_CreateMap) then
    _ ← create_map thread; mret thread
  else if bool_decide (r = Isambard_System_Service_ReadInterface) then
    _ ← read_interface thread; mret thread
  else if bool_decide (r = Isambard_System_Service_ReadHeap) then
    _ ← read_heap (reg 1 t) (reg 2 t) (reg 3 t); mret thread
  else if bool_decide (r = Isambard_System_Service_WriteHeap) then
    _ ← write_heap (reg 1 t) (reg 2 t) (reg 3 t);
    _ ← top_of_stack thread;
    mret thread
  else if bool_decide (r = Isambard_System_Service_AllocateHeap) then
    p ← allocate_heap (reg 1 t);
    _ ← upd_thread thread (set_reg 0 p);
    mret thread
  else if bool_decide (r = Isambard_System_Service_FreeHeap) then
    _ ← free_heap (reg 1 t) (reg 2 t); mret thread
  else if bool_decide (r = Isambard_System_Service_Create_Thread) then create_thread thread
  else if bool_decide (r = Isambard_System_Service_Set_Interrupt_Thread) then
    set_interrupt_thread_request thread
  else if bool_decide (r = Isambard_System_Service_Thread_Make_Partner) then
    _ ← make_partner thread; mret thread
  else
    _ ← set_stack_entry 3 r;
    halt (Bsod 1111).

Definition system_driver_request (thread : Z) : K thread_switch :=
  now ← system_request thread;
  n ← get_thread now;
  t ← get_thread thread;
  _ ← when (bool_decide (now ≠ thread ∧ current_map n ≠ current_map t))
        (change_map drivers now (current_map n));
  mret (ThreadSwitch now thread).
End with_drivers.
