(* ===== verification/Svc.v ===== *)
(** * Supervisor calls and exceptions

    The rest of [include/svc_handling.h] ([handle_svc] and its cases) and the entry
    points from EL0 in [secure_el1.c] ([SEL1_LOWER_AARCH64_SYNC_CODE] and
    [SEL1_LOWER_AARCH64_IRQ_CODE]).

    [esr] and [far] are the values of the exception registers.  Cache maintenance
    and the [wfi] before a suspicious call have no effect on the state.  [sp_el0]
    is the stack pointer of the thread that runs. *)

From S2P Require Import Prelude Vmsa SystemServices Kernel LinkedLists Heap Interfaces Maps Gate Locks.
From S2P Require Import SystemRequest.

Definition svc_yield (thread : Z) : K thread_switch :=
  t ← get_thread thread;
  if bool_decide (next t ≠ thread) then
    _ ← upd_thread thread (set_reg 0 1);
    _ ← upd_core (set_runnable (next t));
    mret (ThreadSwitch (next t) thread)
  else
    _ ← upd_thread thread (set_reg 0 0);
    mret (ThreadSwitch thread thread).

(** Bit 28 of [spsr], the V flag. *)
Definition v_flag : Z := Z.shiftl 1 28.

Section with_drivers.
Context (drivers : list driver_info).

(** The common part of a return and an exception: back to the caller's map, code and
    stack, one element up the call stack. *)
Definition pop_call (thread : Z) : K unit :=
  s ← top_of_stack thread;
  _ ← upd_thread thread (set_pc (caller_return_address s));
  _ ← modify (set_sp_el0 (caller_sp s));
  t ← get_thread thread;
  _ ← when (bool_decide (current_map t ≠ caller_map s)) (change_map drivers thread (caller_map s));
  upd_thread thread (λ t, set_stack_pointer (stack_pointer t + 1) t).

Definition svc_exception (thread : Z) : K thread_switch :=
  _ ← pop_call thread;
  _ ← upd_thread thread (λ t, set_spsr (Z.lor (spsr t) v_flag) t);
  halt (Smc 4).

Definition svc_return (thread : Z) : K thread_switch :=
  _ ← pop_call thread;
  _ ← upd_thread thread (λ t, set_spsr (Z.ldiff (spsr t) v_flag) t);
  mret (ThreadSwitch thread thread).

(** The system service that the kernel answers itself. *)
Definition physical_address_of (thread : Z) : K unit :=
  t ← get_thread thread;
  c ← get_core;
  _ ← when (bool_decide (0 ≠ Z.land (at_s1e0w c (reg 2 t)) 1)) (
        mapped ← find_and_map_memory thread (reg 2 t);
        if (mapped : bool) then
          c ← get_core;
          guard_stop (bool_decide (0 ≠ Z.land (at_s1e0w c (reg 2 t)) 1)) (Bsod 507)
        else halt (Bsod 509));
  c ← get_core;
  upd_thread thread (set_reg 0
    (Z.lor (Z.land (at_s1e0w c (reg 2 t)) 0x000ffffffffff000) (Z.land (reg 2 t) 0xfff))).

(** [thread->stack_pointer->... = ...] *)
Definition set_top_of_stack (thread : Z) (e : inter_map_call_stack_element) : K unit :=
  t ← get_thread thread;
  if bool_decide (0 ≤ stack_pointer t < Z.of_nat (length (stack t)))
  then upd_thread thread (set_stack (<[Z.to_nat (stack_pointer t) := e]> (stack t)))
  else halt (Fault thread).

Definition thread_stack_is_full (thread : Z) : K Z := halt (Bsod 1126).

Definition svc_call (thread : Z) : K thread_switch :=
  t ← get_thread thread;
  _ ← guard_stop (bool_decide (reg 18 t ≠ thread_code thread)) (Bsod 482);
  k ← gets id;
  match interface_from_index k (reg 0 t) with
  | None => halt (Bsod 487)
  | Some i =>
      interface ← get_interface i;
      if bool_decide (provider interface = system_map_index ∧ handler interface = System_Service_Map ∧
                      reg 1 t = DRIVER_SYSTEM_physical_address_of) then
        _ ← physical_address_of thread;
        mret (ThreadSwitch thread thread)
      else
        _ ← guard_stop (bool_decide (user interface ≠ current_map t)) (Bsod 518);
        _ ← upd_thread thread (set_reg 0 (object interface));
        _ ← upd_thread thread (λ t, set_stack_pointer (stack_pointer t - 1) t);
        sp ← gets sp_el0;
        _ ← set_top_of_stack thread (StackElement sp (pc t) (current_map t));
        t ← get_thread thread;
        if bool_decide (stack_pointer t - 1 ≤ stack_limit t) then
          now ← thread_stack_is_full thread;
          mret (ThreadSwitch now thread)
        else
          _ ← when (bool_decide (provider interface ≠ current_map t))
                (change_map drivers thread (provider interface));
          _ ← upd_thread thread (set_pc (handler interface));
          mret (ThreadSwitch thread thread)
  end.

(** ** Partner threads *)

(** AArch32 state, or AArch64 at EL2. *)
Definition runs_guest (spsr : Z) : bool :=
  bool_decide (0 ≠ Z.land spsr 0x10 ∨ Z.land spsr 0x1e = 8).

Definition svc_switch_to_partner (thread : Z) : K thread_switch :=
  t ← get_thread thread;
  let p := partner t in
  _ ← guard_stop (bool_decide (p = 0)) (Bsod 543);
  pt ← get_thread p;
  _ ← guard_stop (bool_decide (current_map t ≠ current_map pt)) (Bsod 544);
  _ ← upd_thread p (set_next (next t));
  _ ← upd_thread p (set_prev (prev t));
  t ← get_thread thread;
  _ ← upd_thread (next t) (set_prev p);
  t ← get_thread thread;
  _ ← upd_thread (prev t) (set_next p);
  _ ← upd_thread thread (set_next thread);
  _ ← upd_thread thread (set_prev thread);
  _ ← upd_core (set_runnable p);
  pt ← get_thread p;
  _ ← when (runs_guest (spsr pt)) (
        t ← get_thread thread;
        upd_thread p (set_pc (reg 1 t)));
  mret (ThreadSwitch p thread).

(** [partner->regs[i]]: index 31 is the member after the array, [sp]. *)
Definition partner_reg (i : Z) (t : thread_context) : Z :=
  if bool_decide (i = 31) then sp t else reg (Z.to_nat i) t.
Definition set_partner_reg_value (i v : Z) (t : thread_context) : thread_context :=
  if bool_decide (i = 31) then set_sp v t else set_reg (Z.to_nat i) v t.

(** The checks both partner register calls make; the partner and the index. *)
Definition partner_checks (thread line last_line : Z) : K (Z * Z) :=
  t ← get_thread thread;
  let p := partner t in
  let register_index := u32 (reg 0 t) in
  _ ← guard_stop (bool_decide (p = 0)) (Bsod line);
  pt ← get_thread p;
  _ ← guard_stop (bool_decide (current_map t ≠ current_map pt)) (Bsod (line + 1));
  _ ← guard_stop (bool_decide (register_index > 31)) (Bsod (line + 2));
  _ ← guard_stop (negb (runs_guest (spsr pt))) (Bsod last_line);
  mret (p, register_index).

Definition svc_get_partner_reg (thread : Z) : K thread_switch :=
  '(p, i) ← partner_checks thread 578 591;
  pt ← get_thread p;
  _ ← upd_thread thread (set_reg 0 (partner_reg i pt));
  mret (ThreadSwitch thread thread).

Definition svc_set_partner_reg (thread : Z) : K thread_switch :=
  '(p, i) ← partner_checks thread 600 614;
  t ← get_thread thread;
  _ ← upd_thread p (set_partner_reg_value i (reg 1 t));
  mret (ThreadSwitch thread thread).

Definition VM_REGISTER_OUT_OF_RANGE : Z := 20.

Definition svc_change_vm_system_register (thread : Z) : K thread_switch :=
  t ← get_thread thread;
  real ← is_real_thread (u32 (reg 0 t));
  _ ← guard_stop (negb real) (Bsod 622);
  vm ← get_thread (thread_from_code (u32 (reg 0 t)));
  _ ← guard_stop (bool_decide (partner vm = 0)) (Bsod 625);
  let p := partner vm in
  _ ← guard_stop (bool_decide (p = 0)) (Bsod 629);
  pt ← get_thread p;
  _ ← guard_stop (bool_decide (current_map t ≠ current_map pt)) (Bsod 634);
  let register_index := u32 (reg 1 t) in
  _ ← guard_stop (bool_decide (VM_REGISTER_OUT_OF_RANGE ≤ register_index)) (Bsod 637);
  k ← gets id;
  match vm_states k !! p ≫= (λ s, s !! Z.to_nat register_index) with
  | None => halt (Fault (p + sizeof_thread_context + 8 * register_index))
  | Some word =>
      let old_value := u32 word in
      let new_value := u32 (reg 2 t) in
      let new_value := if bool_decide (reg 3 t ≠ 0)
                       then u32 (Z.lxor new_value (Z.land old_value (reg 3 t))) else new_value in
      _ ← when (bool_decide (reg 2 t ≠ 0 ∨ reg 3 t ≠ u64 (-1)))
            (modify (λ k, set_vm_states
               (alter (λ s, <[Z.to_nat register_index := new_value]> s) p (vm_states k)) k));
      _ ← upd_thread thread (set_reg 0 old_value);
      mret (ThreadSwitch thread thread)
  end.

(** ** The dispatcher *)
Definition handle_svc (env : list Z) (thread number : Z) : K thread_switch :=
  if bool_decide (number = 0) then mret (ThreadSwitch thread thread)
  else if bool_decide (number = ISAMBARD_GATE) then handle_svc_gate thread
  else if bool_decide (number = ISAMBARD_DUPLICATE_TO_RETURN) then handle_svc_duplicate_to_return thread
  else if bool_decide (number = ISAMBARD_DUPLICATE_TO_PASS) then handle_svc_duplicate_to_pass_to thread
  else if bool_decide (number = ISAMBARD_INTERFACE_TO_PASS) then handle_svc_interface_to_pass_to thread
  else if bool_decide (number = ISAMBARD_INTERFACE_TO_RETURN) then handle_svc_interface_to_return thread
  else if bool_decide (number = ISAMBARD_LOCK_WAIT) then handle_svc_wait_for_lock env thread
  else if bool_decide (number = ISAMBARD_LOCK_RELEASE) then handle_svc_release_lock thread
  else if bool_decide (number = ISAMBARD_YIELD) then svc_yield thread
  else if bool_decide (number = ISAMBARD_EXCEPTION) then svc_exception thread
  else if bool_decide (number = ISAMBARD_RETURN) then svc_return thread
  else if bool_decide (number = ISAMBARD_CALL) then svc_call thread
  else if bool_decide (number = ISAMBARD_SWITCH_TO_PARTNER) then svc_switch_to_partner thread
  else if bool_decide (number = ISAMBARD_GET_PARTNER_REG) then svc_get_partner_reg thread
  else if bool_decide (number = ISAMBARD_SET_PARTNER_REG) then svc_set_partner_reg thread
  else if bool_decide (number = ISAMBARD_CHANGE_VM_SYSTEM_REGISTER) then
    svc_change_vm_system_register thread
  else if bool_decide (number = ISAMBARD_SYSTEM_REQUEST) then system_driver_request drivers thread
  else halt (Bsod 656).

(** ** Exceptions from EL0 *)
Definition resolve_fault (thread far line : Z) : K thread_switch :=
  mapped ← find_and_map_memory thread far;
  if (mapped : bool) then mret (ThreadSwitch thread thread) else halt (Bsod line).

Definition SEL1_LOWER_AARCH64_SYNC_CODE_may_change_map (env : list Z) (esr far thread : Z) : K thread_switch :=
  if bool_decide (0x5600 = Z.shiftr esr 16) then handle_svc env thread (Z.land esr 0xffff)
  else
    let class := Z.shiftr esr 26 in
    if bool_decide (class = 32) then resolve_fault thread far 1230
    else if bool_decide (class = 36) then resolve_fault thread far 1242
    else if bool_decide (class = 38) then halt (Bsod 3)
    else if bool_decide (class = 24) then halt (Bsod 1255)
    else if bool_decide (class = 34) then halt (Bsod 1267)
    else if bool_decide (class = 60) then halt (Bsod (5 + Z.land esr 7))
    else halt (Bsod (5 + Z.land class 7)).

Definition SEL1_LOWER_AARCH64_SYNC_CODE (env : list Z) (esr far thread : Z) : K thread_switch :=
  result ← SEL1_LOWER_AARCH64_SYNC_CODE_may_change_map env esr far thread;
  n ← get_thread (now result);
  t ← get_thread (then_ result);
  _ ← when (bool_decide (current_map n ≠ current_map t))
        (change_map drivers (now result) (current_map n));
  c ← get_core;
  _ ← guard_stop (bool_decide (runnable c ≠ now result)) (Smc 0x7777);
  mret result.

Definition SEL1_LOWER_AARCH64_IRQ_CODE (thread : Z) : K thread_switch :=
  c ← get_core;
  let now := interrupt_thread c in
  _ ← guard_stop (bool_decide (0 = now)) (Bsod 1327);
  _ ← insert_thread_as_head CoreRunnable now;
  n ← get_thread now;
  t ← get_thread thread;
  _ ← when (bool_decide (current_map n ≠ current_map t)) (change_map drivers now (current_map n));
  c ← get_core;
  _ ← guard_stop (bool_decide (runnable c ≠ now)) (Smc 0x3333);
  mret (ThreadSwitch now thread).

(** The other exceptions that a thread can cause end in [incompatible_event]. *)
Definition incompatible_event : K unit := halt (Bsod 542).
Definition SEL1_LOWER_AARCH64_SERROR_CODE (thread : Z) : K thread_switch :=
  _ ← incompatible_event; mret (ThreadSwitch thread thread).
Definition SEL1_LOWER_AARCH32_SYNC_CODE (thread : Z) : K thread_switch :=
  _ ← incompatible_event; mret (ThreadSwitch thread thread).
Definition SEL1_LOWER_AARCH32_IRQ_CODE (thread : Z) : K thread_switch :=
  _ ← incompatible_event; mret (ThreadSwitch thread thread).
Definition SEL1_LOWER_AARCH32_SERROR_CODE (thread : Z) : K thread_switch :=
  _ ← incompatible_event; mret (ThreadSwitch thread thread).

(** The exceptions of a thread, and what each of the eight vectors runs: the C function of
    its name, and [INCOMPATIBLE_EVENT] for an FIQ. *)
Inductive el0_exception : Type :=
  | LowerAarch64Sync (env : list Z) (esr far : Z) | LowerAarch64Irq | LowerAarch64Fiq | LowerAarch64Serror
  | LowerAarch32Sync | LowerAarch32Irq | LowerAarch32Fiq | LowerAarch32Serror.

Definition el0_handler (e : el0_exception) (thread : Z) : K thread_switch :=
  match e with
  | LowerAarch64Sync env esr far => SEL1_LOWER_AARCH64_SYNC_CODE env esr far thread
  | LowerAarch64Irq => SEL1_LOWER_AARCH64_IRQ_CODE thread
  | LowerAarch64Fiq | LowerAarch32Fiq => _ ← incompatible_event; mret (ThreadSwitch thread thread)
  | LowerAarch64Serror => SEL1_LOWER_AARCH64_SERROR_CODE thread
  | LowerAarch32Sync => SEL1_LOWER_AARCH32_SYNC_CODE thread
  | LowerAarch32Irq => SEL1_LOWER_AARCH32_IRQ_CODE thread
  | LowerAarch32Serror => SEL1_LOWER_AARCH32_SERROR_CODE thread
  end.
End with_drivers.

(** ** Which map is loaded

    [same_maps]: the loaded map and every thread's map stay what they were. *)
Definition same_maps (k k' : kstate) : Prop :=
  loaded_map (core k') = loaded_map (core k) ∧
  ∀ p t, threads k !! p = Some t → ∃ t', threads k' !! p = Some t' ∧ current_map t' = current_map t.

#[global] Instance same_maps_preorder : PreOrder same_maps.
Proof.
  split.
  - intros k. split; [done |]. eauto.
  - intros k1 k2 k3 [L1 T1] [L2 T2]. split; [congruence |]. intros p t Ht.
    destruct (T1 p t Ht) as (t2 & Ht2 & E2). destruct (T2 p t2 Ht2) as (t3 & Ht3 & E3).
    exists t3. split; [done | congruence].
Qed.

(** Steps that change neither the threads nor the core. *)
Definition same_threads_core (k k' : kstate) : Prop := threads k' = threads k ∧ core k' = core k.

Section keep.
Lemma same_maps_refl_threads k k' : same_threads_core k k' → same_maps k k'.
Proof. intros [Ht Hc]. split; [by rewrite Hc |]. rewrite Ht. eauto. Qed.

Lemma keep_get_thread p : preserves same_maps (get_thread p).
Proof. intros k t k' H. by apply get_thread_inv in H as [-> _]. Qed.

Lemma keep_upd_thread p f : (∀ t, current_map (f t) = current_map t) → preserves same_maps (upd_thread p f).
Proof.
  intros Hf k a k' H. unfold upd_thread in H. apply bind_ok_inv in H as (t & k0 & E & H).
  apply get_thread_inv in E as [-> Ht]. injection H as _ <-. split; [done |]. intros q u Hu. simpl.
  destruct (decide (q = p)) as [-> |].
  - rewrite lookup_insert_eq. eexists. split; [done |]. rewrite Hf. congruence.
  - rewrite lookup_insert_ne by done. eauto.
Qed.

Lemma keep_upd_core f : (∀ c, loaded_map (f c) = loaded_map c) → preserves same_maps (upd_core f).
Proof. intros Hf k a k' [= <- <-]. split; [apply Hf | eauto]. Qed.

Lemma keep_get_core : preserves same_maps get_core.
Proof. apply preserves_gets. apply _. Qed.

Lemma keep_modify f : (∀ k, same_threads_core k (f k)) → preserves same_maps (modify f).
Proof. intros Hf. apply preserves_modify. intros k. by apply same_maps_refl_threads. Qed.

Lemma keep_get_interface i : preserves same_maps (get_interface i).
Proof. intros k e k' H. by apply get_interface_inv in H as [-> _]. Qed.

Lemma keep_get_user_word m va : preserves same_maps (get_user_word m va).
Proof. intros k w k' H. unfold get_user_word in H. case_match; [|done]. by injection H as _ <-. Qed.
End keep.

#[export] Hint Resolve keep_get_thread keep_get_core keep_get_interface keep_get_user_word : preserves.
#[export] Hint Extern 1 (preserves same_maps (upd_thread _ _)) => (apply keep_upd_thread; done) : preserves.
#[export] Hint Extern 1 (preserves same_maps (upd_core _)) => (apply keep_upd_core; done) : preserves.
#[export] Hint Extern 1 (preserves same_maps (modify _)) => (apply keep_modify; done) : preserves.

Section keep_components.
Lemma keep_upd_interface i f : preserves same_maps (upd_interface i f).
Proof. unfold upd_interface. preserves. Qed.
Hint Resolve keep_upd_interface : preserves.

Lemma keep_set_user_word m va w : preserves same_maps (set_user_word m va w).
Proof. unfold set_user_word. preserves. Qed.
Hint Resolve keep_set_user_word : preserves.

Lemma keep_load_list h : preserves same_maps (load_list h).
Proof. unfold load_list. preserves. Qed.
Lemma keep_store_list h v : preserves same_maps (store_list h v).
Proof. unfold store_list. preserves. Qed.
Hint Resolve keep_load_list keep_store_list : preserves.

Lemma keep_insert_before new old : preserves same_maps (insert_new_thread_before_old new old).
Proof. unfold insert_new_thread_before_old. preserves. Qed.
Lemma keep_insert_after new old : preserves same_maps (insert_new_thread_after_old new old).
Proof. unfold insert_new_thread_after_old. preserves. Qed.
Hint Resolve keep_insert_before keep_insert_after : preserves.
Lemma keep_insert_tail h new : preserves same_maps (insert_thread_at_tail h new).
Proof. unfold insert_thread_at_tail. preserves. Qed.
Hint Resolve keep_insert_tail : preserves.
Lemma keep_insert_head h new : preserves same_maps (insert_thread_as_head h new).
Proof. unfold insert_thread_as_head. preserves. Qed.
Lemma keep_remove p : preserves same_maps (remove_thread p).
Proof. unfold remove_thread. preserves. Qed.
Hint Resolve keep_insert_head keep_remove : preserves.

Lemma keep_is_real_thread c : preserves same_maps (is_real_thread c).
Proof. unfold is_real_thread. preserves. Qed.
Lemma keep_top_of_stack p : preserves same_maps (top_of_stack p).
Proof. unfold top_of_stack. preserves. Qed.
Hint Resolve keep_is_real_thread keep_top_of_stack : preserves.

Lemma keep_obtain : preserves same_maps obtain_interface.
Proof. unfold obtain_interface. preserves. Qed.
Hint Resolve keep_obtain : preserves.
Lemma keep_new_interface t u p h v : preserves same_maps (new_interface t u p h v).
Proof. unfold new_interface. preserves. Qed.
Lemma keep_usable t i a b : preserves same_maps (usable_interface t i a b).
Proof. unfold usable_interface. preserves. Qed.
Hint Resolve keep_new_interface keep_usable : preserves.
Lemma keep_duplicate_to_return t : preserves same_maps (handle_svc_duplicate_to_return t).
Proof. unfold handle_svc_duplicate_to_return. preserves. Qed.
Lemma keep_duplicate_to_pass t : preserves same_maps (handle_svc_duplicate_to_pass_to t).
Proof. unfold handle_svc_duplicate_to_pass_to. preserves. Qed.
Lemma keep_interface_to_pass t : preserves same_maps (handle_svc_interface_to_pass_to t).
Proof. unfold handle_svc_interface_to_pass_to. preserves. Qed.
Lemma keep_interface_to_return t : preserves same_maps (handle_svc_interface_to_return t).
Proof. unfold handle_svc_interface_to_return. preserves. Qed.

Lemma keep_load_link p : preserves same_maps (load_link p).
Proof. unfold load_link. preserves. Qed.
Lemma keep_store_link p v : preserves same_maps (store_link p v).
Proof. unfold store_link. preserves. Qed.
Hint Resolve keep_load_link keep_store_link : preserves.
Lemma keep_wake_expired fuel t h : preserves same_maps (wake_expired fuel t h).
Proof. revert h. induction fuel as [|fuel IH]; intros h; cbn [wake_expired]; preserves. Qed.
Lemma keep_position fuel p b r : preserves same_maps (timeout_position fuel p b r).
Proof. revert p b r. induction fuel as [|fuel IH]; intros; cbn [timeout_position]; preserves. Qed.
Hint Resolve keep_wake_expired keep_position : preserves.
Lemma keep_gate_tick t : preserves same_maps (gate_tick t).
Proof. unfold gate_tick. preserves. Qed.
Lemma keep_enter_queue t : preserves same_maps (enter_timeout_queue t).
Proof. unfold enter_timeout_queue. preserves. Qed.
Lemma keep_leave_queue t : preserves same_maps (leave_timeout_queue t).
Proof. unfold leave_timeout_queue. preserves. Qed.
Hint Resolve keep_gate_tick keep_enter_queue keep_leave_queue : preserves.
Lemma keep_gate_block t : preserves same_maps (gate_block t).
Proof. unfold gate_block. preserves. Qed.
Lemma keep_gate_wake t r : preserves same_maps (gate_wake t r).
Proof. unfold gate_wake. preserves. Qed.
Hint Resolve keep_gate_block keep_gate_wake : preserves.
Lemma keep_gate t : preserves same_maps (handle_svc_gate t).
Proof. unfold handle_svc_gate. preserves. Qed.

Lemma keep_store_entry table set i v :
  (∀ l c, loaded_map (set l c) = loaded_map c) → preserves same_maps (store_entry table set i v).
Proof. intros Hs. unfold store_entry. preserves. Qed.
Lemma keep_set_l1 i v : preserves same_maps (set_l1 i v).
Proof. by apply keep_store_entry. Qed.
Lemma keep_set_l2 i v : preserves same_maps (set_l2 i v).
Proof. by apply keep_store_entry. Qed.
Lemma keep_set_l3 i v : preserves same_maps (set_l3 i v).
Proof. by apply keep_store_entry. Qed.
Hint Resolve keep_set_l1 keep_set_l2 keep_set_l3 : preserves.
Lemma keep_find_vmb_loop fuel v fa : preserves same_maps (find_vmb_loop fuel v fa).
Proof. revert v. induction fuel as [|fuel IH]; intros v; cbn [find_vmb_loop]; preserves. Qed.
Hint Resolve keep_find_vmb_loop : preserves.
Lemma keep_find_vmb t fa : preserves same_maps (find_vmb t fa).
Proof. unfold find_vmb. preserves. Qed.
Hint Resolve keep_find_vmb : preserves.
Lemma keep_find_and_map t fa : preserves same_maps (find_and_map_memory t fa).
Proof. unfold find_and_map_memory. preserves. Qed.
Hint Resolve keep_find_and_map : preserves.
Lemma keep_user_writable t a : preserves same_maps (address_is_user_writable t a).
Proof. unfold address_is_user_writable. preserves. Qed.
Hint Resolve keep_user_writable : preserves.

Lemma keep_lock_checks t a b n : preserves same_maps (lock_checks t a b n).
Proof. unfold lock_checks. preserves. Qed.
Lemma keep_lock_block t a b : preserves same_maps (lock_block t a b).
Proof. unfold lock_block. preserves. Qed.
Lemma keep_lock_acquired t n : preserves same_maps (lock_acquired t n).
Proof. unfold lock_acquired. preserves. Qed.
Hint Resolve keep_lock_checks keep_lock_block keep_lock_acquired : preserves.
Lemma keep_lock_loop env t a b n : preserves same_maps (lock_loop env t a b n).
Proof. revert n. induction env as [|v env IH]; intros n; cbn [lock_loop]; preserves. Qed.
Hint Resolve keep_lock_loop : preserves.
Lemma keep_wait_for_lock env t : preserves same_maps (handle_svc_wait_for_lock env t).
Proof. unfold handle_svc_wait_for_lock. preserves. Qed.
Lemma keep_release_lock t : preserves same_maps (handle_svc_release_lock t).
Proof. unfold handle_svc_release_lock. preserves. Qed.

Lemma keep_yield t : preserves same_maps (svc_yield t).
Proof. unfold svc_yield. preserves. Qed.
Lemma keep_physical_address t : preserves same_maps (physical_address_of t).
Proof. unfold physical_address_of. preserves. Qed.
Lemma keep_switch t : preserves same_maps (svc_switch_to_partner t).
Proof. unfold svc_switch_to_partner. preserves. Qed.
Lemma keep_partner_checks t a b : preserves same_maps (partner_checks t a b).
Proof. unfold partner_checks. preserves. Qed.
Hint Resolve keep_partner_checks : preserves.
Lemma keep_get_partner t : preserves same_maps (svc_get_partner_reg t).
Proof. unfold svc_get_partner_reg. preserves. Qed.
Lemma keep_set_partner t : preserves same_maps (svc_set_partner_reg t).
Proof.
  unfold svc_set_partner_reg. preserves. apply keep_upd_thread. intros t'.
  unfold set_partner_reg_value. by case_bool_decide.
Qed.
Lemma keep_vm_register t : preserves same_maps (svc_change_vm_system_register t).
Proof. unfold svc_change_vm_system_register. preserves. Qed.
End keep_components.

#[export] Hint Resolve keep_upd_interface keep_set_user_word keep_insert_head keep_remove keep_top_of_stack
  keep_obtain keep_set_l3 keep_find_and_map keep_physical_address
  keep_duplicate_to_return keep_duplicate_to_pass keep_interface_to_pass keep_interface_to_return
  keep_gate keep_wait_for_lock keep_release_lock keep_yield keep_switch keep_get_partner keep_set_partner
  keep_vm_register : preserves.

(** ** Loading a map only touches the core *)
Definition same_threads (k k' : kstate) : Prop := threads k' = threads k.
#[global] Instance same_threads_preorder : PreOrder same_threads.
Proof. split; [done |]. unfold same_threads. intros ??? -> ->. done. Qed.

Section loading.
Lemma threads_upd_core f : preserves same_threads (upd_core f).
Proof. by intros k a k' [= <- <-]. Qed.
Hint Resolve threads_upd_core : preserves.

Lemma threads_store_entry table set i v : preserves same_threads (store_entry table set i v).
Proof. unfold store_entry, get_core. preserves. Qed.
Hint Resolve threads_store_entry : preserves.

Lemma load_this_map_threads drivers m : preserves same_threads (load_this_map drivers m).
Proof.
  unfold load_this_map, get_core, clear_core_translation_tables, load_memory_allocator_map, load_system_map,
    set_asid, set_l1, set_l2, set_l3. preserves.
  all: unfold get_core; preserves.
Qed.
End loading.

Lemma change_map_inv drivers p m k k' :
  change_map drivers p m k = Ok () k' →
  loaded_map (core k') = m ∧
  ∃ t, threads k !! p = Some t ∧ threads k' = <[p := set_current_map m t]> (threads k).
Proof.
  intros H. unfold change_map in H.
  apply bind_ok_inv in H as (t & k0 & E & H). apply get_thread_inv in E as [-> Ht]. rewrite gets_ok in H.
  apply bind_ok_inv in H as (u & k0 & E & H). apply guard_stop_inv in E as [_ ->].
  apply bind_ok_inv in H as (u1 & k0 & E & H). apply guard_stop_inv in E as [_ ->].
  unfold get_core in H. rewrite gets_ok in H.
  apply bind_ok_inv in H as (u2 & k1 & E1 & H). rewrite gets_ok in H.
  apply bind_ok_inv in H as (u3 & k0 & E & H). apply guard_stop_inv in E as [Hl ->].
  apply bool_decide_eq_false in Hl. apply dec_stable in Hl.
  assert (threads k1 = threads k) as Hk1.
  { unfold when in E1. case_bool_decide; [by apply load_this_map_threads in E1 | by injection E1 as _ <-]. }
  rewrite (upd_thread_ok _ _ t) in H by (by rewrite Hk1). injection H as <-. simpl.
  split; [done |]. exists t. by rewrite Hk1.
Qed.

(** ** Requests that make a thread *)

(** The next block of the heap is not a thread that is in use. *)
Definition room_for_thread (k : kstate) : Prop :=
  ∀ size p k', size = sizeof_thread_context ∨ size = sizeof_thread_context + sizeof_vm_state →
    allocate_heap size k = Ok p k' → threads k !! p = None.

Definition same_maps_off (x : Z) (k k' : kstate) : Prop :=
  loaded_map (core k') = loaded_map (core k) ∧
  ∀ p t, p ≠ x → threads k !! p = Some t → ∃ t', threads k' !! p = Some t' ∧ current_map t' = current_map t.

#[global] Instance same_maps_off_preorder x : PreOrder (same_maps_off x).
Proof.
  split.
  - intros k. split; [done |]. eauto.
  - intros k1 k2 k3 [L1 T1] [L2 T2]. split; [congruence |]. intros p t Hp Ht.
    destruct (T1 p t Hp Ht) as (t2 & Ht2 & E2). destruct (T2 p t2 Hp Ht2) as (t3 & Ht3 & E3).
    exists t3. split; [done | congruence].
Qed.

Section fresh.
Context (x : Z).

Lemma keep_off {A} (m : K A) : preserves same_maps m → preserves (same_maps_off x) m.
Proof. intros Hm k a k' H. destruct (Hm _ _ _ H) as [HL HT]. split; [done |]. eauto. Qed.

Lemma off_upd_thread f : preserves (same_maps_off x) (upd_thread x f).
Proof.
  intros k a k' H. unfold upd_thread in H. apply bind_ok_inv in H as (t & k0 & E & H).
  apply get_thread_inv in E as [-> Ht]. injection H as _ <-. split; [done |]. intros p u Hp Hu. simpl.
  rewrite lookup_insert_ne by done. eauto.
Qed.

Lemma same_maps_fresh k k' : threads k !! x = None → same_maps_off x k k' → same_maps k k'.
Proof. intros Hx [HL HT]. split; [done |]. intros p t Ht. apply HT; [congruence | done]. Qed.

Lemma off_allocate extra k k' : allocate_thread extra k = Ok x k' → same_maps_off x k k'.
Proof.
  intros H. unfold allocate_thread in H. apply bind_ok_inv in H as (p & k1 & E & H).
  rewrite modify_ok in H. injection H as -> <-.
  assert (core k1 = core k ∧ threads k1 = threads k) as [Hc Ht].
  { unfold allocate_heap in E. rewrite gets_ok, modify_ok in E. by injection E as _ <-. }
  split; [simpl; by rewrite Hc |]. intros p t Hp Hl. simpl. rewrite Ht, lookup_insert_ne by done. eauto.
Qed.
End fresh.

#[export] Hint Resolve off_upd_thread : preserves.
#[export] Hint Extern 5 (preserves (same_maps_off _) _) => (apply keep_off; solve [eauto 2 with preserves nocore]) : preserves.

Lemma allocate_thread_heap extra k p k' :
  allocate_thread extra k = Ok p k' → ∃ k1, allocate_heap (sizeof_thread_context + extra) k = Ok p k1.
Proof.
  intros H. unfold allocate_thread in H. apply bind_ok_inv in H as (q & k1 & E & H).
  rewrite modify_ok in H. injection H as -> _. eauto.
Qed.

Lemma create_thread_maps thread k n k' : room_for_thread k → create_thread thread k = Ok n k' → same_maps k k'.
Proof.
  intros Hroom H. unfold create_thread in H.
  apply bind_ok_inv in H as (t & k0 & E & H). apply get_thread_inv in E as [-> _].
  apply bind_ok_inv in H as (u & k0 & E & H). apply guard_stop_inv in E as [_ ->].
  apply bind_ok_inv in H as (x & k1 & E & H).
  assert (threads k !! x = None) as Hx.
  { apply allocate_thread_heap in E as [k2 E]. by eapply Hroom; [left |]. }
  apply (same_maps_fresh x); [done |]. transitivity k1; [by eapply off_allocate |].
  revert H. generalize n, k'. assert (preserves (same_maps_off x) (
    _ ← initialise_new_thread x; s ← top_of_stack thread; _ ← upd_thread x (set_current_map (caller_map s));
    _ ← upd_thread x (set_pc (reg 1 t)); _ ← upd_thread x (set_sp (reg 2 t)); _ ← upd_thread x (set_spsr 0);
    _ ← upd_thread thread (set_reg 0 (thread_code x)); _ ← insert_thread_as_head CoreRunnable x; mret x)) as Hp;
    [|intros a k'' H; by eapply Hp].
  unfold initialise_new_thread. preserves.
Qed.

Lemma make_partner_maps thread k n k' : room_for_thread k → make_partner thread k = Ok n k' → same_maps k k'.
Proof.
  intros Hroom H. unfold make_partner in H.
  apply bind_ok_inv in H as (t & k0 & E & H). apply get_thread_inv in E as [-> _].
  apply bind_ok_inv in H as (u & k0 & E & H). apply guard_stop_inv in E as [_ ->].
  apply bind_ok_inv in H as (x & k1 & E & H).
  assert (threads k !! x = None) as Hx.
  { apply allocate_thread_heap in E as [k2 E]. by eapply Hroom; [right |]. }
  apply (same_maps_fresh x); [done |]. transitivity k1; [by eapply off_allocate |].
  revert H. generalize n, k'. assert (preserves (same_maps_off x) (
    _ ← modify (λ k, set_vm_states (<[x := replicate 18 0]> (vm_states k)) k);
    _ ← upd_thread thread (set_partner x); _ ← initialise_new_thread x; _ ← upd_thread x (set_partner thread);
    s ← top_of_stack thread; _ ← upd_thread x (set_current_map (caller_map s)); _ ← upd_thread x (set_pc 0);
    upd_thread x (set_spsr 0x1d3))) as Hp; [|intros a k'' H; by eapply Hp].
  unfold initialise_new_thread. preserves.
Qed.

Section requests.
Lemma keep_for_heap a b n : preserves same_maps (heap_checks a b n).
Proof. unfold heap_checks. preserves. Qed.
Hint Resolve keep_for_heap : preserves.

Lemma keep_set_shared i e : preserves same_maps (set_shared_entry i e).
Proof. unfold set_shared_entry. preserves. Qed.
Lemma keep_set_stack_entry i v : preserves same_maps (set_stack_entry i v).
Proof. unfold set_stack_entry. preserves. Qed.
Hint Resolve keep_set_shared keep_set_stack_entry : preserves.

Lemma keep_add_device t : preserves same_maps (add_device_page t).
Proof. unfold add_device_page. preserves. Qed.
Lemma keep_updated_map : preserves same_maps updated_map.
Proof. unfold updated_map. preserves. Qed.
Lemma keep_create_map t : preserves same_maps (create_map t).
Proof. unfold create_map. preserves. Qed.
Lemma keep_read_interface t : preserves same_maps (read_interface t).
Proof. unfold read_interface. preserves. Qed.
Lemma keep_read_heap a b d : preserves same_maps (read_heap a b d).
Proof. unfold read_heap. preserves. Qed.
Lemma keep_write_heap a b d : preserves same_maps (write_heap a b d).
Proof. unfold write_heap. preserves. Qed.
Lemma keep_free_heap a b : preserves same_maps (free_heap a b).
Proof. unfold free_heap. preserves. Qed.
Lemma keep_allocate_heap n : preserves same_maps (allocate_heap n).
Proof. unfold allocate_heap. preserves. Qed.
Lemma keep_set_interrupt t : preserves same_maps (set_interrupt_thread_request t).
Proof. unfold set_interrupt_thread_request. preserves. Qed.
Hint Resolve keep_add_device keep_updated_map keep_create_map keep_read_interface keep_read_heap
  keep_write_heap keep_free_heap keep_allocate_heap keep_set_interrupt : preserves.

Lemma system_request_maps thread k n k' :
  room_for_thread k → system_request thread k = Ok n k' → same_maps k k'.
Proof.
  intros Hroom H. unfold system_request in H.
  apply bind_ok_inv in H as (t & k0 & E & H). apply get_thread_inv in E as [-> Ht]. cbv zeta in H.
  repeat match type of H with
  | (if bool_decide (reg 0 t = Isambard_System_Service_Create_Thread) then _ else _) _ = _ =>
      case_bool_decide; [by eapply create_thread_maps |]
  | (if bool_decide (reg 0 t = Isambard_System_Service_Thread_Make_Partner) then _ else _) _ = _ =>
      case_bool_decide;
      [apply bind_ok_inv in H as ([] & k1 & E & H); injection H as _ <-; by eapply make_partner_maps |]
  | (if bool_decide ?P then ?m else _) _ = _ =>
      case_bool_decide; [revert H; apply (λ Hp : preserves same_maps m, Hp k n k'); preserves |]
  end.
  apply bind_ok_inv in H as (u & k1 & _ & H). done.
Qed.
End requests.

(** ** The loaded map after an exception *)

(** The loaded map is that of the thread that runs. *)
Definition map_is_loaded (k : kstate) (thread : Z) : Prop :=
  ∃ t, threads k !! thread = Some t ∧ current_map t = loaded_map (core k).

Lemma same_maps_loaded k k' thread : same_maps k k' → map_is_loaded k thread → map_is_loaded k' thread.
Proof.
  intros [HL HT] (t & Ht & E). destruct (HT _ _ Ht) as (t' & Ht' & E').
  exists t'. split; [done | congruence].
Qed.

(** What the handlers leave behind for [SEL1_LOWER_AARCH64_SYNC_CODE]. *)
Definition switch_ok (k : kstate) (thread : Z) (r : thread_switch) : Prop :=
  then_ r = thread ∧ (map_is_loaded k thread ∨ map_is_loaded k (now r)).

Section handlers.
Context (drivers : list driver_info) (k : kstate) (thread : Z) (Hload : map_is_loaded k thread).

Lemma keep_switch_ok m r k' :
  preserves same_maps m → returns (λ r, then_ r = thread) m →
  m k = Ok r k' → switch_ok k' thread r.
Proof.
  intros Hm Hthen H. split; [by eapply Hthen |]. left. eapply same_maps_loaded; [|done]. by eapply Hm.
Qed.

Lemma change_map_loaded p m k1 k2 : change_map drivers p m k1 = Ok () k2 → map_is_loaded k2 p.
Proof.
  intros H. apply change_map_inv in H as (HL & t & Ht & E).
  exists (set_current_map m t). rewrite E, lookup_insert_eq. done.
Qed.

Lemma system_driver_request_ok r k' :
  room_for_thread k → system_driver_request drivers thread k = Ok r k' → switch_ok k' thread r.
Proof.
  intros Hroom H. unfold system_driver_request in H.
  apply bind_ok_inv in H as (n & k1 & E1 & H). apply system_request_maps in E1; [|done].
  apply bind_ok_inv in H as (tn & k0 & E & H). apply get_thread_inv in E as [-> Htn].
  apply bind_ok_inv in H as (t & k0 & E & H). apply get_thread_inv in E as [-> Ht].
  apply bind_ok_inv in H as ([] & k2 & E2 & H). injection H as <- <-. split; [done |]. simpl.
  unfold when in E2. case_bool_decide.
  - right. by eapply change_map_loaded.
  - injection E2 as <-. left. by eapply same_maps_loaded.
Qed.

Lemma pop_call_loaded k' : pop_call drivers thread k = Ok () k' → map_is_loaded k' thread.
Proof.
  intros H. unfold pop_call in H.
  apply bind_ok_inv in H as (s & k0 & E & H). apply top_of_stack_inv in E as ->.
  apply bind_ok_inv in H as ([] & k1 & E1 & H). rewrite modify_ok in H.
  apply bind_ok_inv in H as (t & k0 & E & H). apply get_thread_inv in E as [-> Ht].
  apply bind_ok_inv in H as ([] & k2 & E2 & H).
  assert (map_is_loaded k2 thread) as Hl2.
  { unfold when in E2. case_bool_decide; [by eapply change_map_loaded |]. injection E2 as <-.
    eapply same_maps_loaded; [|exact Hload].
    assert (same_maps k k1) as [HL HT]; [|by split].
    eapply keep_upd_thread; [|exact E1]. done. }
  eapply same_maps_loaded; [|exact Hl2]. eapply keep_upd_thread; [|exact H]. done.
Qed.

Lemma svc_return_ok r k' : svc_return drivers thread k = Ok r k' → switch_ok k' thread r.
Proof.
  intros H. unfold svc_return in H. apply bind_ok_inv in H as ([] & k1 & E1 & H).
  apply bind_ok_inv in H as ([] & k2 & E2 & H). injection H as <- <-. split; [done |]. left.
  apply pop_call_loaded in E1. eapply same_maps_loaded; [|exact E1]. eapply keep_upd_thread; [|exact E2]. done.
Qed.

Lemma svc_call_ok r k' : svc_call drivers thread k = Ok r k' → switch_ok k' thread r.
Proof.
  intros H. unfold svc_call in H.
  apply bind_ok_inv in H as (t & k0 & E & H). apply get_thread_inv in E as [-> Ht].
  apply bind_ok_inv in H as ([] & k0 & E & H). apply guard_stop_inv in E as [_ ->]. rewrite gets_ok in H.
  destruct (interface_from_index (id k) (reg 0 t)) as [i|]; [|done].
  apply bind_ok_inv in H as (e & k0 & E & H). apply get_interface_inv in E as [-> _].
  case_bool_decide.
  - apply bind_ok_inv in H as ([] & k1 & E1 & H). injection H as <- <-. split; [done |]. left.
    eapply same_maps_loaded; [|done]. by eapply keep_physical_address.
  - apply bind_ok_inv in H as ([] & k0 & E & H). apply guard_stop_inv in E as [_ ->].
    apply bind_ok_inv in H as ([] & k1 & E1 & H). apply keep_upd_thread in E1; [|done].
    apply bind_ok_inv in H as ([] & k2 & E2 & H). apply keep_upd_thread in E2; [|done]. rewrite gets_ok in H.
    apply bind_ok_inv in H as ([] & k3 & E3 & H).
    assert (same_maps k2 k3) as S3.
    { revert E3. apply (λ Hp : preserves same_maps _, Hp k2 () k3). unfold set_top_of_stack. preserves. }
    apply bind_ok_inv in H as (t3 & k0 & E & H). apply get_thread_inv in E as [-> Ht3].
    case_bool_decide; [done |].
    assert (map_is_loaded k3 thread) as Hl3.
    { eapply same_maps_loaded; [|done]. by repeat (etransitivity; [eassumption |]). }
    apply bind_ok_inv in H as ([] & k4 & E4 & H).
    apply bind_ok_inv in H as ([] & k5 & E5 & H). injection H as <- <-. apply keep_upd_thread in E5; [|done].
    split; [done |]. left. eapply same_maps_loaded; [exact E5 |].
    unfold when in E4. case_bool_decide; [by eapply change_map_loaded | by injection E4 as <-].
Qed.

(** Peel the dispatcher: each case is a handler that keeps the maps, or one of the
    four that change them. *)
Lemma handle_svc_ok env number r k' :
  room_for_thread k → handle_svc drivers env thread number k = Ok r k' → switch_ok k' thread r.
Proof.
  intros Hroom H. unfold handle_svc in H.
  case_bool_decide; [injection H as <- <-; by split; [|left] |].
  do 7 (case_bool_decide; [eapply keep_switch_ok; [| |exact H]; [solve [eauto 2 with preserves nocore] |];
    unfold handle_svc_gate, handle_svc_duplicate_to_return, handle_svc_duplicate_to_pass_to,
      handle_svc_interface_to_pass_to, handle_svc_interface_to_return, new_interface,
      handle_svc_wait_for_lock, handle_svc_release_lock; returns |]).
  case_bool_decide; [eapply keep_switch_ok; [| |exact H]; [solve [eauto 2 with preserves nocore] |];
    unfold svc_yield; returns |].
  case_bool_decide.
  { unfold svc_exception in H. apply bind_ok_inv in H as (u & k1 & _ & H).
    by apply bind_ok_inv in H as (u1 & k2 & _ & H). }
  case_bool_decide; [by eapply svc_return_ok |]. case_bool_decide; [by eapply svc_call_ok |].
  do 4 (case_bool_decide; [eapply keep_switch_ok; [| |exact H]; [solve [eauto 2 with preserves nocore] |];
    unfold svc_switch_to_partner, svc_get_partner_reg, svc_set_partner_reg,
      svc_change_vm_system_register; returns |]).
  case_bool_decide; [by eapply system_driver_request_ok |]. done.
Qed.

Lemma sync_may_change_map_ok env esr far r k' :
  room_for_thread k → SEL1_LOWER_AARCH64_SYNC_CODE_may_change_map drivers env esr far thread k = Ok r k' →
  switch_ok k' thread r.
Proof.
  intros Hroom H. unfold SEL1_LOWER_AARCH64_SYNC_CODE_may_change_map in H.
  case_bool_decide; [by eapply handle_svc_ok |]. cbv zeta in H.
  do 2 (case_bool_decide; [eapply keep_switch_ok; [| |exact H]; unfold resolve_fault; [preserves | returns] |]).
  by do 4 (case_bool_decide; [done |]).
Qed.
End handlers.

(** ** Calls and returns *)
Section calls.
Context (drivers : list driver_info) (k : kstate) (thread : Z) (t : thread_context).

(** A thread of [k] that may call interface [i], described by [e], and whose call
    stack has room. *)
Record may_call (i : Z) (e : Interface) : Prop := {
  call_thread : threads k !! thread = Some t;
  call_own_code : reg 18 t = thread_code thread;
  call_index : interface_from_index k (reg 0 t) = Some i;
  call_interface : interfaces k !! i = Some e;
  call_not_kernel : ¬ (provider e = system_map_index ∧ handler e = System_Service_Map ∧
                       reg 1 t = DRIVER_SYSTEM_physical_address_of);
  call_user : user e = current_map t;
  call_stack : 0 < stack_pointer t ≤ Z.of_nat (length (stack t));
}.

(** The thread as it enters the provider's code. *)
Definition called (e : Interface) : thread_context :=
  let t1 := set_stack_pointer (stack_pointer t - 1) (set_reg 0 (object e) t) in
  set_stack (<[Z.to_nat (stack_pointer t - 1) := StackElement (sp_el0 k) (pc t) (current_map t)]> (stack t)) t1.

(** The part of a call before the provider's map is entered. *)
Lemma svc_call_pushes i e :
  may_call i e →
  svc_call drivers thread k =
    (if bool_decide (stack_pointer t - 2 ≤ stack_limit t) then
       now ← thread_stack_is_full thread; mret (ThreadSwitch now thread)
     else
       _ ← when (bool_decide (provider e ≠ current_map t)) (change_map drivers thread (provider e));
       _ ← upd_thread thread (set_pc (handler e));
       mret (ThreadSwitch thread thread)) (put_thread thread (called e) k).
Proof.
  intros [Ht H18 Hi He Hn Hu Hs]. unfold svc_call.
  erewrite bind_ok by by apply get_thread_ok. pass. rewrite gets_ok. unfold id. rewrite Hi.
  erewrite bind_ok by by apply get_interface_ok. rewrite bool_decide_eq_false_2 by done. pass.
  erewrite bind_ok by by apply upd_thread_ok.
  erewrite bind_ok by (apply upd_thread_ok; rewrite threads_put_thread; by apply lookup_insert_eq).
  rewrite gets_ok.
  assert (∀ a b e', put_thread a b (put_thread a e' k) = put_thread a b k) as Hput.
  { intros. unfold put_thread, set_threads. simpl. by rewrite insert_insert_eq. }
  rewrite !Hput.
  erewrite bind_ok; [|unfold set_top_of_stack;
    erewrite bind_ok by (apply get_thread_ok; rewrite threads_put_thread; by apply lookup_insert_eq);
    simpl; rewrite bool_decide_eq_true_2 by lia;
    apply upd_thread_ok; by apply lookup_insert_eq].
  rewrite Hput.
  erewrite bind_ok by (apply get_thread_ok; rewrite threads_put_thread; by apply lookup_insert_eq).
  cbn [stack_pointer stack_limit current_map set_stack set_stack_pointer set_reg set_regs].
  replace (stack_pointer t - 1 - 1) with (stack_pointer t - 2) by lia. done.
Qed.
End calls.

Lemma top_of_stack_ok k p t s :
  threads k !! p = Some t → 0 ≤ stack_pointer t → stack t !! Z.to_nat (stack_pointer t) = Some s →
  top_of_stack p k = Ok s k.
Proof.
  intros Ht Hp Hs. unfold top_of_stack. rewrite (bind_ok _ _ _ t k) by by apply get_thread_ok.
  rewrite Hs. by rewrite bool_decide_eq_true_2.
Qed.

Lemma v_flag_cleared x : Z.testbit (Z.ldiff x v_flag) 28 = false.
Proof. rewrite Z.ldiff_spec. unfold v_flag. rewrite Z.shiftl_spec by lia. by rewrite andb_false_r. Qed.

(** What is left of a return once the top of the call stack is known. *)
Lemma svc_return_pops drivers k thread t s :
  threads k !! thread = Some t → 0 ≤ stack_pointer t → stack t !! Z.to_nat (stack_pointer t) = Some s →
  maps_ok drivers k → current_map t ≤ kernel_last_interface k →
  caller_map s ≤ kernel_last_interface k → caller_map s < 0x10000 →
  ∃ k' t', svc_return drivers thread k = Ok (ThreadSwitch thread thread) k' ∧
    threads k' !! thread = Some t' ∧ pc t' = caller_return_address s ∧ sp_el0 k' = caller_sp s ∧
    current_map t' = caller_map s ∧ stack_pointer t' = stack_pointer t + 1 ∧ stack t' = stack t ∧
    regs t' = regs t ∧ Z.testbit (spsr t') 28 = false ∧
    (current_map t = loaded_map (core k) → loaded_map (core k') = caller_map s).
Proof.
  intros Ht Hsp Hs Hk Hc Hm Hm16. unfold svc_return, pop_call.
  set (t1 := set_pc (caller_return_address s) t).
  set (k1 := set_sp_el0 (caller_sp s) (put_thread thread t1 k)).
  assert (threads k1 !! thread = Some t1) as Ht1 by apply lookup_insert_eq.
  assert (∃ k2, when (bool_decide (current_map t1 ≠ caller_map s)) (change_map drivers thread (caller_map s)) k1
                = Ok () k2 ∧ threads k2 !! thread = Some (set_current_map (caller_map s) t1) ∧
                sp_el0 k2 = caller_sp s ∧
                (current_map t = loaded_map (core k) → loaded_map (core k2) = caller_map s))
    as (k2 & E2 & Ht2 & Hsp2 & Hl2).
  { unfold when. case_bool_decide as Hd.
    - destruct (change_map_ok drivers k1 thread t1 (caller_map s)) as (c & E & Htab & Hl); try done.
      { by destruct Hk; split. }
      eexists. split; [exact E |]. split; [apply lookup_insert_eq |]. done.
    - exists k1. split; [done |]. rewrite <- Hd. split; [by destruct t |].
      split; [done |]. intros E. symmetry. exact E. }
  eexists _, _. split.
  { erewrite bind_ok.
    2:{ erewrite bind_ok by by eapply top_of_stack_ok.
      erewrite bind_ok by by apply upd_thread_ok. rewrite modify_ok.
      erewrite bind_ok by by apply get_thread_ok.
      erewrite bind_ok by exact E2.
      by apply upd_thread_ok. }
    erewrite bind_ok by (apply upd_thread_ok; by apply lookup_insert_eq). done. }
  split; [by apply lookup_insert_eq |]. split_and!; try done. apply v_flag_cleared.
Qed.

(** ** Partners *)

(** Registers of the partner: what is written is what is read, for every index the
    calls accept. *)
Lemma partner_reg_same i v t :
  0 ≤ i ≤ 31 → length (regs t) = 31%nat → partner_reg i (set_partner_reg_value i v t) = v.
Proof.
  intros Hi Hl. unfold partner_reg, set_partner_reg_value. case_bool_decide; [done |].
  rewrite reg_set_reg_same by (rewrite Hl; lia). done.
Qed.

Lemma partner_reg_other i j v t :
  0 ≤ i ≤ 31 → 0 ≤ j ≤ 31 → i ≠ j → partner_reg j (set_partner_reg_value i v t) = partner_reg j t.
Proof.
  intros Hi Hj Hij. unfold partner_reg, set_partner_reg_value. repeat case_bool_decide; try done; try lia.
  by rewrite reg_set_reg_other by lia.
Qed.

(** [thread] and [p] are partners: [p] runs a guest in the same map. *)
Record has_partner (k : kstate) (thread p : Z) (t pt : thread_context) : Prop := {
  hp_thread : threads k !! thread = Some t;
  hp_partner : threads k !! p = Some pt;
  hp_link : partner t = p;
  hp_not_null : p ≠ 0;
  hp_distinct : p ≠ thread;
  hp_map : current_map pt = current_map t;
  hp_guest : runs_guest (spsr pt) = true;
}.

Lemma partner_checks_ok k thread p t pt a b :
  has_partner k thread p t pt → u32 (reg 0 t) ≤ 31 →
  partner_checks thread a b k = Ok (p, u32 (reg 0 t)) k.
Proof.
  intros [Ht Hp Hl Hz Hd Hm Hg] Hi. unfold partner_checks.
  erewrite bind_ok by by apply get_thread_ok. cbv zeta. rewrite Hl. pass.
  erewrite bind_ok by by apply get_thread_ok. pass. pass. rewrite Hg. done.
Qed.

(** The link stores of [svc_switch_to_partner]: [p] takes the place of [h] between
    [pv] and [nx], and [h] is left linked to itself. *)
Definition after_swap (ts : gmap Z thread_context) (h p nx pv : Z) : gmap Z thread_context :=
  alter (set_prev h) h (alter (set_next h) h (alter (set_next p) pv (alter (set_prev p) nx
    (alter (set_prev pv) p (alter (set_next nx) p ts))))).

Section swap.
Context (ts : gmap Z thread_context) (h p y x : Z) (l l1 l2 : list Z).
Context (Hring : ring ts (h :: l)) (Hp : is_Some (ts !! p)) (Hout : p ∉ h :: l).
Context (Hy : l = y :: l1) (Hx : l = l2 ++ [x]).

Lemma swap_members : h ≠ p ∧ y ≠ h ∧ y ≠ p ∧ x ≠ h ∧ x ≠ p ∧ NoDup l ∧
  is_Some (ts !! h) ∧ is_Some (ts !! x) ∧ is_Some (ts !! y).
Proof using Hring Hout Hy Hx.
  clear Hp. pose proof (ring_NoDup _ _ Hring) as [Hhl Hnd]%NoDup_cons.
  apply not_elem_of_cons in Hout as [Hph Hpl].
  assert (y ∈ l) by (rewrite Hy; by left).
  assert (x ∈ l) by (rewrite Hx; apply elem_of_app; right; by apply list_elem_of_singleton).
  split_and!; try congruence; try done; eapply (ring_lookup ts (h :: l)); try done; first [by left | by right].
Qed.

Lemma swap_next q :
  next_of (after_swap ts h p y x) q =
    if decide (q = h) then Some h else if decide (q = x) then Some p
    else if decide (q = p) then Some y else next_of ts q.
Proof using Hring Hp Hout Hy Hx.
  destruct swap_members as (? & ? & ? & ? & ? & _ & ? & ? & ?).
  unfold after_swap. autorewrite with links. repeat (case_decide; subst; try done).
  all: rewrite const_fmap_is_Some; auto with isambard.
Qed.

Lemma swap_prev q :
  prev_of (after_swap ts h p y x) q =
    if decide (q = h) then Some h else if decide (q = y) then Some p
    else if decide (q = p) then Some x else prev_of ts q.
Proof using Hring Hp Hout Hy Hx.
  destruct swap_members as (? & ? & ? & ? & ? & _ & ? & ? & ?).
  unfold after_swap. autorewrite with links. repeat (case_decide; subst; try done).
  all: rewrite const_fmap_is_Some; auto 10 with isambard.
Qed.

Lemma ring_swapped : ring (after_swap ts h p y x) (p :: l).
Proof using Hring Hp Hout Hy Hx.
  destruct swap_members as (? & ? & ? & ? & ? & Hnd & _).
  assert ((h ∉ l) ∧ (p ∉ l)) as [Hhl Hpl] by (pose proof (ring_NoDup _ _ Hring) as [??]%NoDup_cons; apply not_elem_of_cons in Hout; tauto).
  split; [by apply NoDup_cons |].
  change ((p :: l) ++ [p]) with (p :: (l ++ [p])).
  enough (linked (after_swap ts h p y x) p y ∧ chain (after_swap ts h p y x) (l ++ [p])) as [HL HC].
  { rewrite Hy in *. apply chain_cons2. done. }
  split.
  - split; [rewrite swap_next | rewrite swap_prev]; rewrite ?decide_False by done; by rewrite decide_True.
  - rewrite Hx, <- app_assoc. apply (chain_app _ l2 x [p]). split.
    + apply (chain_frame ts).
      * pose proof Hring as [_ Hc]. simpl in Hc. destruct Hc as [_ Hc]. rewrite Hx, <- app_assoc in Hc.
        by apply (chain_app ts l2 x [h]) in Hc as [? _].
      * intros q Hq. rewrite swap_next, !decide_False; [done | | |]; intros ->.
        -- apply Hpl. rewrite Hx. apply elem_of_app. by left.
        -- rewrite Hx in Hnd. apply NoDup_snoc in Hnd. tauto.
        -- apply Hhl. rewrite Hx. apply elem_of_app. by left.
      * intros q Hq. rewrite <- Hx, Hy in Hq. simpl in Hq.
        rewrite swap_prev, !decide_False; [done | | |]; intros ->.
        -- apply Hpl. rewrite Hy. by right.
        -- rewrite Hy in Hnd. apply NoDup_cons in Hnd. tauto.
        -- apply Hhl. rewrite Hy. by right.
    + rewrite chain_cons2. split; [|simpl; naive_solver].
      split; [rewrite swap_next | rewrite swap_prev]; rewrite ?decide_False by done; by rewrite decide_True.
Qed.

Lemma ring_swapped_out : ring (after_swap ts h p y x) [h].
Proof using Hring Hp Hout Hy Hx.
  apply ring_single. split; [rewrite swap_next | rewrite swap_prev]; by rewrite decide_True.
Qed.
End swap.

(** The link stores happen as written. *)
Lemma switch_links {B} k h p t y x l1 l2 (f : K B) :
  ring (threads k) (h :: y :: l1) → y :: l1 = l2 ++ [x] → is_Some (threads k !! p) → p ∉ h :: y :: l1 →
  threads k !! h = Some t →
  (_ ← upd_thread p (set_next (next t)); _ ← upd_thread p (set_prev (prev t));
   t ← get_thread h; _ ← upd_thread (next t) (set_prev p);
   t ← get_thread h; _ ← upd_thread (prev t) (set_next p);
   _ ← upd_thread h (set_next h); _ ← upd_thread h (set_prev h); f) k =
  f (set_threads (after_swap (threads k) h p y x) k).
Proof.
  intros Hr Hl Hp Hout Ht.
  destruct (swap_members (threads k) h p y x (y :: l1) l1 l2) as (? & ? & ? & ? & ? & _ & Hh & Hsx & Hsy); try done.
  assert (next t = y ∧ prev t = x) as [Hn Hv].
  { pose proof (ring_next _ _ _ Hr) as E1. pose proof (ring_prev _ _ _ Hr) as E2.
    rewrite Hl, last_snoc in E2. unfold next_of, prev_of in *. rewrite Ht in *. simpl in *. by simplify_eq. }
  rewrite Hn, Hv.
  erewrite bind_ok by (by apply upd_thread_alter).
  erewrite bind_ok by (apply upd_thread_alter; simpl; auto with isambard).
  erewrite bind_ok by (apply get_thread_ok; simpl; by rewrite !lookup_alter_ne by done).
  rewrite Hn. erewrite bind_ok by (apply upd_thread_alter; simpl; auto with isambard).
  erewrite bind_ok by (apply get_thread_ok; simpl; by rewrite !lookup_alter_ne by done).
  rewrite Hv. erewrite bind_ok by (apply upd_thread_alter; simpl; auto 6 with isambard).
  erewrite bind_ok by (apply upd_thread_alter; simpl; auto 7 with isambard).
  erewrite bind_ok by (apply upd_thread_alter; simpl; auto 8 with isambard).
  done.
Qed.

Lemma same_but_links_lookup ts ts' p t :
  same_but_links ts ts' → ts !! p = Some t → ∃ t', ts' !! p = Some t' ∧ unlink t' = unlink t.
Proof.
  intros Hs Ht. specialize (Hs p). rewrite Ht in Hs.
  destruct (ts' !! p) as [t'|]; [|done]. exists t'. simpl in Hs. split; [done | congruence].
Qed.

(** A ring survives a store that keeps the links of the thread. *)
Lemma ring_insert_links ts p t t' l :
  ts !! p = Some t → next t' = next t → prev t' = prev t → ring ts l → ring (<[p := t']> ts) l.
Proof.
  intros Ht Hn Hp Hr. destruct l as [|h l]; [done |]. destruct Hr as [Hnd Hc]. split; [done |].
  apply (chain_frame ts); [done | |]; intros q _; unfold next_of, prev_of.
  - destruct (decide (p = q)) as [<- |]; [by rewrite lookup_insert_eq, Ht; simpl; rewrite Hn | by rewrite lookup_insert_ne].
  - destruct (decide (p = q)) as [<- |]; [by rewrite lookup_insert_eq, Ht; simpl; rewrite Hp | by rewrite lookup_insert_ne].
Qed.

(** Entering another map, or staying in the loaded one. *)
Lemma enter_map drivers k p t m :
  threads k !! p = Some t → maps_ok drivers k → current_map t ≤ kernel_last_interface k →
  m ≤ kernel_last_interface k → m < 0x10000 → current_map t = loaded_map (core k) →
  ∃ k', when (bool_decide (m ≠ current_map t)) (change_map drivers p m) k = Ok () k' ∧
    threads k' !! p = Some (set_current_map m t) ∧ loaded_map (core k') = m.
Proof.
  intros Ht Hk Hc Hm Hm16 Hl. unfold when. case_bool_decide as Hd.
  - destruct (change_map_ok drivers k p t m) as (c & E & Htab & Hlc); try done.
    eexists. split; [exact E |]. split; [apply lookup_insert_eq | done].
  - exists k. rewrite Hd. split; [done |]. split; [by destruct t | done].
Qed.

(** Entering the map a thread already has changes the core only. *)
Lemma change_to_own_map drivers k p t other :
  threads k !! p = Some t → maps_ok drivers k → current_map t ≤ kernel_last_interface k →
  current_map t < 0x10000 → other = loaded_map (core k) →
  ∃ c, when (bool_decide (current_map t ≠ other)) (change_map drivers p (current_map t)) k =
      Ok () (set_core c k) ∧ loaded_map c = current_map t ∧ runnable c = runnable (core k).
Proof.
  intros Ht Hk Hl H16 ->. unfold when. case_bool_decide as Hd.
  - destruct (change_map_ok drivers k p t (current_map t)) as (c & E & Htab & Hlc); try done.
    exists c. split; [|split; [done | apply Htab]]. rewrite E. f_equal. unfold put_thread.
    replace (set_current_map (current_map t) t) with t by by destruct t.
    cbn [threads set_core]. by rewrite insert_id.
  - exists (core k). split; [by destruct k | done].
Qed.

(** ** A small system for the examples

    Thread [ta] runs in map 3 and may call interface 5, which map 4 provides; [tb] is
    runnable too, in map 4; [tw] is [ta]'s partner, stopped in AArch32 state, and [tx]
    waits for interrupts, in map 4. *)
Definition demo_interface : Interface := MkInterface 3 4 0x1000 77.

Definition svc_demo (r0 r1 : Z) : kstate :=
  let runs n p t := set_list_of CoreRunnable (set_next n (set_prev p t)) in
  let k := initial_kstate (start_address + 0x10000) 0x10000 in
  let k := set_kernel_heap_bottom 0x1f0000 (set_kernel_last_interface 512 k) in
  let k := put_thread ta (set_reg 0 r0 (set_reg 1 r1 (set_reg 18 0x1f0000 (set_stack_pointer 5 (set_pc 0x8000
             (set_current_map 3 (set_partner tw (runs tb tb blank_thread)))))))) k in
  let k := put_thread tb (set_current_map 4 (runs ta ta blank_thread)) k in
  let k := put_thread tw (set_current_map 3 (set_spsr 0x1d3 (set_partner ta
             (set_next tw (set_prev tw blank_thread))))) k in
  let k := put_thread tx (set_current_map 4 (set_next tx (set_prev tx blank_thread))) k in
  let k := set_core (set_interrupt_thread tx (set_runnable ta (set_loaded_map 3 (core k)))) k in
  put_interface 5 demo_interface (set_sp_el0 0x4000 k).

Lemma svc_demo_maps r0 r1 : maps_ok demo_drivers (svc_demo r0 r1).
Proof. split; [vm_compute; done | vm_compute; done | done | done | done]. Qed.

Lemma svc_demo_ring r0 r1 : ring (threads (svc_demo r0 r1)) [ta; tb].
Proof. small_ring. Qed.

(** No thread of the example is where the next one would be allocated. *)
Lemma svc_demo_room r0 r1 : room_for_thread (svc_demo r0 r1).
Proof. intros size p k' Hs E. destruct Hs as [-> | ->]; vm_compute in E; injection E as <- _; by vm_compute. Qed.

(** ** Theorems *)

(** The tail of both handlers: the map of the next thread is loaded unless it is the map of
    the thread that took the exception, which is loaded then. *)
Lemma own_map_loaded drivers k thread t n nt line r k' :
  threads k !! n = Some nt → threads k !! thread = Some t →
  map_is_loaded k thread ∨ map_is_loaded k n →
  (_ ← when (bool_decide (current_map nt ≠ current_map t)) (change_map drivers n (current_map nt));
   c ← get_core;
   _ ← guard_stop (bool_decide (runnable c ≠ n)) line;
   mret (ThreadSwitch n thread)) k = Ok r k' →
  now r = n ∧ map_is_loaded k' n ∧ runnable (core k') = n.
Proof.
  intros Hn Ht Hload H. apply bind_ok_inv in H as ([] & k2 & E2 & H). unfold get_core in H. rewrite gets_ok in H.
  apply bind_ok_inv in H as ([] & k0 & E & H). apply guard_stop_inv in E as [Hr ->].
  injection H as <- <-. apply bool_decide_eq_false in Hr. split; [done |]. split; [|by apply dec_stable in Hr].
  unfold when in E2. case_bool_decide as Hm; [by eapply change_map_loaded |]. injection E2 as <-.
  destruct Hload as [(t' & Ht' & El) | Hload]; [|done]. exists nt. split; [done |].
  simplify_eq. congruence.
Qed.

Lemma sync_loads_map drivers env esr far thread k r k' :
  map_is_loaded k thread → room_for_thread k →
  SEL1_LOWER_AARCH64_SYNC_CODE drivers env esr far thread k = Ok r k' →
  map_is_loaded k' (now r) ∧ runnable (core k') = now r.
Proof.
  intros Hl Hroom H. unfold SEL1_LOWER_AARCH64_SYNC_CODE in H.
  apply bind_ok_inv in H as ([n th] & k1 & E1 & H). apply sync_may_change_map_ok in E1 as [Hthen Hload]; try done.
  simpl in Hthen. subst th.
  apply bind_ok_inv in H as (nt & k0 & E & H). apply get_thread_inv in E as [-> Hn].
  apply bind_ok_inv in H as (t & k0 & E & H). apply get_thread_inv in E as [-> Ht].
  by destruct (own_map_loaded drivers k1 thread t n nt (Smc 0x7777) r k' Hn Ht Hload H) as (-> & ? & ?).
Qed.

Lemma irq_loads_map drivers thread k r k' :
  map_is_loaded k thread → SEL1_LOWER_AARCH64_IRQ_CODE drivers thread k = Ok r k' →
  map_is_loaded k' (now r) ∧ runnable (core k') = now r.
Proof.
  intros Hl H. unfold SEL1_LOWER_AARCH64_IRQ_CODE, get_core in H. rewrite gets_ok in H. cbv zeta in H.
  apply bind_ok_inv in H as ([] & k0 & E & H). apply guard_stop_inv in E as [_ ->].
  apply bind_ok_inv in H as ([] & k1 & E1 & H). apply keep_insert_head in E1.
  apply bind_ok_inv in H as (nt & k0 & E & H). apply get_thread_inv in E as [-> Hn].
  apply bind_ok_inv in H as (t & k0 & E & H). apply get_thread_inv in E as [-> Ht].
  destruct (own_map_loaded drivers k1 thread t _ nt (Smc 0x3333) r k' Hn Ht) as (-> & ? & ?); [| exact H | done].
  left. by eapply same_maps_loaded.
Qed.

(** C1: Whatever exception a thread takes, a synchronous one, an interrupt or any other, if the
    kernel returns to EL0 the loaded map is the map of the thread that runs next,
    provided that it was the running thread's before and that memory the heap hands out
    for a new thread holds no other thread: no thread ever runs with another map's
    translation tables. *)
Theorem exception_loads_map drivers e thread k r k' :
  map_is_loaded k thread → room_for_thread k → el0_handler drivers e thread k = Ok r k' →
  map_is_loaded k' (now r) ∧ runnable (core k') = now r.
Proof.
  intros Hl Hroom H. destruct e as [env esr far | | | | | | |]; try discriminate H.
  - exact (sync_loads_map drivers env esr far thread k r k' Hl Hroom H).
  - exact (irq_loads_map drivers thread k r k' Hl H).
Qed.

Lemma exception_loads_map_witness :
  (∃ r k', el0_handler demo_drivers (LowerAarch64Sync [] (0x56000000 + ISAMBARD_YIELD) 0) ta (svc_demo 0 0) = Ok r k' ∧
    now r = tb ∧ map_is_loaded k' tb) ∧
  (∃ r k', el0_handler demo_drivers LowerAarch64Irq ta (svc_demo 0 0) = Ok r k' ∧
    now r = tx ∧ map_is_loaded k' tx).
Proof.
  split.
  1: destruct (el0_handler demo_drivers (LowerAarch64Sync [] (0x56000000 + ISAMBARD_YIELD) 0) ta (svc_demo 0 0))
    as [r k'|r k'] eqn:E; [|exfalso; vm_compute in E; done];
    assert (now r = tb) as Hr by (vm_compute in E; by injection E as <- _).
  2: destruct (el0_handler demo_drivers LowerAarch64Irq ta (svc_demo 0 0)) as [r k'|r k'] eqn:E;
    [|exfalso; vm_compute in E; done]; assert (now r = tx) as Hr by (vm_compute in E; by injection E as <- _).
  all: exists r, k'; split; [done |]; split; [done |]; rewrite <- Hr;
    eapply exception_loads_map; [| apply svc_demo_room | exact E]; eexists; by split; [vm_compute |].
Defined.

(** An interrupt makes the waiting interrupt thread the head of the runnable
    threads and the next to run, in its own map; the interrupted thread stays
    runnable, behind it. *)
Theorem irq_runs_interrupt_thread drivers thread k t n nt l :
  interrupt_thread (core k) = n → n ≠ 0 → threads k !! n = Some nt → n ∉ thread :: l →
  threads k !! thread = Some t → runnable (core k) = thread → thread ≠ 0 → ring (threads k) (thread :: l) →
  maps_ok drivers k → current_map t = loaded_map (core k) →
  current_map nt ≤ kernel_last_interface k → current_map nt < 0x10000 →
  ∃ k', SEL1_LOWER_AARCH64_IRQ_CODE drivers thread k = Ok (ThreadSwitch n thread) k' ∧
    ring (threads k') (n :: thread :: l) ∧ runnable (core k') = n ∧ map_is_loaded k' n ∧
    same_but_links (threads k) (threads k').
Proof.
  intros Hi Hn0 Hn Hnl Ht Hr Ht0 Hring Hk Hload Hm Hm16. unfold SEL1_LOWER_AARCH64_IRQ_CODE.
  unfold get_core. rewrite gets_ok. cbv zeta. rewrite Hi. pass.
  destruct (insert_thread_as_head_nonempty k CoreRunnable n thread l) as (k1 & E1 & Hr1 & Hrel); try done.
  { by rewrite <- Hr. }
  erewrite bind_ok by exact E1.
  pose proof (relinks_lookup _ _ _ n nt Hrel Hn) as (n1 & Hn1 & En).
  pose proof (relinks_lookup _ _ _ thread t Hrel Ht) as (t1 & Ht1 & Et).
  apply (f_equal current_map) in En, Et. cbn [current_map unlink set_next set_prev set_list_of] in En, Et.
  rewrite (bind_ok _ _ _ n1 k1) by by apply get_thread_ok.
  rewrite (bind_ok _ _ _ t1 k1) by by apply get_thread_ok.
  destruct Hrel as (Hk1 & Hsb & _).
  destruct (change_to_own_map drivers k1 n n1 (current_map t1)) as (c & E & Hlc & Hrc).
  { done. }
  { rewrite Hk1. by destruct Hk; split. }
  { rewrite En, Hk1. done. }
  { by rewrite En. }
  { rewrite Et, Hk1. done. }
  erewrite bind_ok by exact E. rewrite gets_ok.
  assert (runnable c = n) as Hcn by by rewrite Hrc, Hk1.
  cbn [core set_core]. pass. eexists. split; [done |]. split_and!; try done.
  exists n1. by split.
Qed.

Lemma irq_runs_interrupt_thread_witness :
  ∃ k', SEL1_LOWER_AARCH64_IRQ_CODE demo_drivers ta (svc_demo 0 0) = Ok (ThreadSwitch tx ta) k' ∧
    ring (threads k') [tx; ta; tb] ∧ map_is_loaded k' tx.
Proof.
  edestruct irq_runs_interrupt_thread with (drivers := demo_drivers) (thread := ta) (k := svc_demo 0 0)
    (n := tx) (l := [tb]) as (k' & E & Hr & _ & Hl & _).
  { done. }
  { by vm_compute. }
  { by vm_compute. }
  { apply not_in_decide. by vm_compute. }
  { by vm_compute. }
  { done. }
  { done. }
  { apply svc_demo_ring. }
  { apply svc_demo_maps. }
  { by vm_compute. }
  { by vm_compute. }
  { by vm_compute. }
  by exists k'.
Defined.

(** C6: A call through an interface enters its provider: the thread is in the
    provider's map, at the handler, with the interface's object in register 0.  A
    return from any later state with the same call stack puts the thread back in the
    caller's map, after the call, with the caller's stack pointer, its V flag clear
    and the registers the provider left. *)
Theorem call_return_roundtrip drivers k thread t i e :
  may_call k thread t i e → stack_limit t < stack_pointer t - 2 →
  maps_ok drivers k → current_map t ≤ kernel_last_interface k → current_map t < 0x10000 →
  provider e ≤ kernel_last_interface k → provider e < 0x10000 → current_map t = loaded_map (core k) →
  length (regs t) = 31%nat →
  ∃ k1 t1, svc_call drivers thread k = Ok (ThreadSwitch thread thread) k1 ∧
    threads k1 !! thread = Some t1 ∧ current_map t1 = provider e ∧ loaded_map (core k1) = provider e ∧
    pc t1 = handler e ∧ reg 0 t1 = object e ∧ (∀ n, n ≠ 0%nat → reg n t1 = reg n t) ∧
  ∀ k2 t2, threads k2 !! thread = Some t2 → stack t2 = stack t1 → stack_pointer t2 = stack_pointer t1 →
    maps_ok drivers k2 → kernel_last_interface k2 = kernel_last_interface k →
    current_map t2 = provider e → loaded_map (core k2) = provider e →
  ∃ k3 t3, svc_return drivers thread k2 = Ok (ThreadSwitch thread thread) k3 ∧
    threads k3 !! thread = Some t3 ∧ current_map t3 = current_map t ∧ loaded_map (core k3) = current_map t ∧
    pc t3 = pc t ∧ sp_el0 k3 = sp_el0 k ∧ stack_pointer t3 = stack_pointer t ∧ regs t3 = regs t2 ∧
    Z.testbit (spsr t3) 28 = false.
Proof.
  intros Hcall Hroom Hk Hm Hm16 Hp Hp16 Hl Hregs. pose proof (call_stack _ _ _ _ _ Hcall) as Hs.
  rewrite (svc_call_pushes drivers k thread t i e) by done. rewrite bool_decide_eq_false_2 by lia.
  set (k0 := put_thread thread (called k t e) k).
  assert (threads k0 !! thread = Some (called k t e)) as Ht0 by apply lookup_insert_eq.
  destruct (enter_map drivers k0 thread (called k t e) (provider e)) as (k1 & E1 & Ht1 & Hl1); try done.
  { by destruct Hk; split. }
  eexists _, _. erewrite bind_ok by exact E1. erewrite bind_ok by by apply upd_thread_ok.
  split; [done |]. split; [apply lookup_insert_eq |]. split_and!; try done.
  { apply reg_set_reg_same. simpl. lia. }
  { intros n Hn. by apply reg_set_reg_other. }
  intros k2 t2 Ht2 Hst Hsp Hk2 Hlast Hm2 Hl2.
  cbn [stack stack_pointer set_pc set_current_map called set_stack set_stack_pointer set_reg set_regs] in Hst, Hsp.
  destruct (svc_return_pops drivers k2 thread t2 (StackElement (sp_el0 k) (pc t) (current_map t)))
    as (k3 & t3 & E3 & Ht3 & Hpc & Hsp3 & Hm3 & Hsp' & _ & Hr & Hv & Hl3); try done; try lia.
  { rewrite Hst, Hsp. apply list_lookup_insert_eq. lia. }
  { simpl. lia. }
  exists k3, t3. split_and!; try done; [apply Hl3; congruence | lia].
Qed.

Lemma call_return_roundtrip_witness :
  ∃ k1 t1, svc_call demo_drivers ta (svc_demo 5 0) = Ok (ThreadSwitch ta ta) k1 ∧
    threads k1 !! ta = Some t1 ∧ current_map t1 = 4 ∧ pc t1 = 0x1000 ∧ reg 0 t1 = 77.
Proof.
  edestruct call_return_roundtrip with (drivers := demo_drivers) (k := svc_demo 5 0) (thread := ta) (i := 5)
    (e := demo_interface) as (k1 & t1 & E & Ht & Hm & _ & Hpc & Hr & _).
  { split; [by vm_compute | by vm_compute | by vm_compute | by vm_compute | by vm_compute; intros [? _] |
      by vm_compute | by vm_compute]. }
  { by vm_compute. }
  { apply svc_demo_maps. }
  { by vm_compute. }
  { by vm_compute. }
  { by vm_compute. }
  { by vm_compute. }
  { by vm_compute. }
  { by vm_compute. }
  exists k1, t1. by split_and!.
Defined.

(** The call stack of a thread never overflows: a call that would leave fewer
    than two elements above the limit stops the kernel, so a new thread, with six
    elements, can make three nested calls and not four. *)
Theorem call_stack_overflow_stops drivers k thread t i e :
  may_call k thread t i e → stack_pointer t - 2 ≤ stack_limit t →
  ∃ k', svc_call drivers thread k = Stop (Bsod 1126) k'.
Proof.
  intros Hcall Hfull. rewrite (svc_call_pushes drivers k thread t i e) by done.
  rewrite bool_decide_eq_true_2 by done. by eexists.
Qed.

Lemma call_stack_overflow_stops_witness :
  ∃ k', svc_call demo_drivers ta
          (put_thread ta (set_reg 0 5 (set_reg 18 0x1f0000 (set_stack_pointer 2 (set_current_map 3 blank_thread))))
             (svc_demo 5 0)) = Stop (Bsod 1126) k'.
Proof.
  eapply call_stack_overflow_stops with (i := 5) (e := demo_interface).
  - split; [by apply lookup_insert_eq | by vm_compute | by vm_compute | by vm_compute |
      by vm_compute; intros [? _] | by vm_compute | by vm_compute].
  - by vm_compute.
Defined.

(** Switching to the partner hands the thread's place among the runnable threads
    to the partner: the partner is the head, the others keep their order behind it,
    the thread is left on its own, and a guest continues at the address in the
    thread's register 1. *)
Theorem switch_to_partner_swaps k thread p t pt l :
  has_partner k thread p t pt → ring (threads k) (thread :: l) → l ≠ [] → p ∉ thread :: l →
  ∃ k' pt', svc_switch_to_partner thread k = Ok (ThreadSwitch p thread) k' ∧
    ring (threads k') (p :: l) ∧ ring (threads k') [thread] ∧ runnable (core k') = p ∧
    threads k' !! p = Some pt' ∧ pc pt' = reg 1 t ∧ regs pt' = regs pt ∧
    (∀ q, q ≠ p → unlink <$> threads k' !! q = unlink <$> threads k !! q).
Proof.
  intros [Ht Hp Hlink Hz Hd Hm Hg] Hring Hl Hout. unfold svc_switch_to_partner.
  rewrite (bind_ok _ _ _ t k) by by apply get_thread_ok. cbv zeta. rewrite Hlink. pass.
  rewrite (bind_ok _ _ _ pt k) by by apply get_thread_ok. pass.
  destruct l as [|y l1]; [done |]. destruct (exists_last Hl) as (l2 & x & El).
  erewrite switch_links by done.
  set (ts := after_swap (threads k) thread p y x).
  assert (ring ts (p :: y :: l1)) as Hring' by by eapply ring_swapped.
  assert (ring ts [thread]) as Hself by by eapply ring_swapped_out.
  assert (same_but_links (threads k) ts) as Hsb.
  { unfold ts, after_swap. repeat (etransitivity; [|by apply same_but_links_alter]). done. }
  destruct (same_but_links_lookup _ _ p pt Hsb Hp) as (p1 & Hp1 & Ep).
  destruct (same_but_links_lookup _ _ thread t Hsb Ht) as (t1 & Ht1 & Et).
  unfold upd_core. rewrite modify_ok. cbn [core threads set_core set_threads].
  rewrite (bind_ok _ _ _ p1 _) by by apply get_thread_ok.
  assert (spsr p1 = spsr pt) as -> by apply (f_equal spsr Ep). rewrite Hg.
  assert (reg 1 t1 = reg 1 t) as Hr1 by (unfold reg; f_equal; apply (f_equal regs Et)).
  unfold when. erewrite bind_ok.
  2:{ rewrite (bind_ok _ _ _ t1 _) by (by apply get_thread_ok). by apply upd_thread_ok. }
  eexists _, _. split; [done |]. rewrite threads_put_thread. cbn [threads set_core set_threads].
  split; [by eapply ring_insert_links |]. split; [by eapply ring_insert_links |]. split; [done |].
  split; [apply lookup_insert_eq |]. split; [by rewrite <- Hr1 |]. split; [apply (f_equal regs Ep) |].
  intros q Hq. rewrite lookup_insert_ne by done. symmetry. apply Hsb.
Qed.

Lemma switch_to_partner_swaps_witness :
  ∃ k' pt', svc_switch_to_partner ta (svc_demo 0 0x9000) = Ok (ThreadSwitch tw ta) k' ∧
    ring (threads k') [tw; tb] ∧ threads k' !! tw = Some pt' ∧ pc pt' = 0x9000.
Proof.
  edestruct switch_to_partner_swaps with (k := svc_demo 0 0x9000) (thread := ta) (p := tw) (l := [tb])
    as (k' & pt' & E & Hr & _ & _ & Hp & Hpc & _).
  { split; [by vm_compute | by vm_compute | by vm_compute | by vm_compute | by vm_compute | by vm_compute | by vm_compute]. }
  { apply svc_demo_ring. }
  { done. }
  { apply not_in_decide. by vm_compute. }
  exists k', pt'. by split_and!.
Defined.

(** What a thread stores in a register of its partner is what it reads back, and
    no other register of the partner changes; index 31 is the stack pointer. *)
Theorem partner_reg_roundtrip k thread p t pt :
  has_partner k thread p t pt → u32 (reg 0 t) ≤ 31 →
  length (regs t) = 31%nat → length (regs pt) = 31%nat →
  ∃ k1 pt1, svc_set_partner_reg thread k = Ok (ThreadSwitch thread thread) k1 ∧
    threads k1 !! p = Some pt1 ∧ (∀ j, 0 ≤ j ≤ 31 → j ≠ u32 (reg 0 t) → partner_reg j pt1 = partner_reg j pt) ∧
  ∃ k2 t2, svc_get_partner_reg thread k1 = Ok (ThreadSwitch thread thread) k2 ∧
    threads k2 !! thread = Some t2 ∧ reg 0 t2 = reg 1 t.
Proof.
  intros Hp Hi Hl Hlp. pose proof Hp as [Ht Hpt Hlink Hz Hd Hm Hg]. unfold svc_set_partner_reg.
  erewrite bind_ok by by eapply partner_checks_ok. cbv beta iota. rewrite (bind_ok _ _ _ t k) by by apply get_thread_ok.
  set (v := set_partner_reg_value (u32 (reg 0 t)) (reg 1 t) pt).
  erewrite bind_ok by by apply upd_thread_ok.
  assert (current_map v = current_map pt ∧ spsr v = spsr pt) as [Hvm Hvs].
  { unfold v, set_partner_reg_value. by case_bool_decide. }
  pose proof (u32_range (reg 0 t)) as Hu. unfold is_u32 in Hu.
  eexists _, v. split; [done |]. split; [apply lookup_insert_eq |].
  split; [intros j Hj Hne; apply partner_reg_other; lia |].
  unfold svc_get_partner_reg.
  assert (has_partner (put_thread p v k) thread p t v) as Hp1.
  { split; try done.
    - rewrite threads_put_thread. by rewrite lookup_insert_ne.
    - apply lookup_insert_eq.
    - by rewrite Hvm.
    - by rewrite Hvs. }
  erewrite bind_ok by by eapply partner_checks_ok. cbv beta iota. rewrite (bind_ok _ _ _ v (put_thread p v k)) by (apply get_thread_ok; by apply lookup_insert_eq).
  erewrite bind_ok by (apply upd_thread_ok; apply Hp1). eexists _, _. split; [done |].
  split; [apply lookup_insert_eq |]. rewrite reg_set_reg_same by lia. apply partner_reg_same; [lia | done].
Qed.

Lemma partner_reg_roundtrip_witness :
  ∃ k1, svc_set_partner_reg ta (svc_demo 31 99) = Ok (ThreadSwitch ta ta) k1 ∧
    ∃ k2 t2, svc_get_partner_reg ta k1 = Ok (ThreadSwitch ta ta) k2 ∧ threads k2 !! ta = Some t2 ∧ reg 0 t2 = 99.
Proof.
  edestruct partner_reg_roundtrip with (k := svc_demo 31 99) (thread := ta) (p := tw)
    as (k1 & pt1 & E & _ & _ & H).
  { split; [by vm_compute | by vm_compute | by vm_compute | by vm_compute | by vm_compute | by vm_compute | by vm_compute]. }
  { by vm_compute. }
  { by vm_compute. }
  { by vm_compute. }
  by exists k1.
Defined.

(** The value that a change to [v] under the mask [m] leaves in a register that
    holds [w]: 32 bits of it. *)
Definition changed_register (w v m : Z) : Z :=
  if bool_decide (m = 0) then u32 v else u32 (Z.lxor (u32 v) (Z.land (u32 w) m)).

(** A thread that may change the system registers of the guest [p]. *)
Record may_change_register (k : kstate) (thread vm p : Z) (t vt pt : thread_context) : Prop := {
  mc_thread : threads k !! thread = Some t;
  mc_real : is_real_thread (u32 (reg 0 t)) k = Ok true k;
  mc_code : thread_from_code (u32 (reg 0 t)) = vm;
  mc_vm : threads k !! vm = Some vt;
  mc_link : partner vt = p;
  mc_not_null : p ≠ 0;
  mc_partner : threads k !! p = Some pt;
  mc_map : current_map pt = current_map t;
}.

Definition vm_demo : kstate :=
  set_vm_states {[ tw := replicate 18 0 ]}
    (put_thread ta (set_reg 2 (2 ^ 34 + 5) (set_reg 1 3 (set_reg 0 0x1f0000 (set_next ta (set_prev ta
        (set_partner tw (set_current_map 3 blank_thread)))))))
       (svc_demo 0 0)).

Lemma svc_change_vm_system_register_ok k thread vm p t vt pt s w :
  may_change_register k thread vm p t vt pt →
  vm_states k !! p = Some s → s !! Z.to_nat (u32 (reg 1 t)) = Some w → u32 (reg 1 t) < 18 →
  svc_change_vm_system_register thread k = Ok (ThreadSwitch thread thread)
    (put_thread thread (set_reg 0 (u32 w) t)
      (set_vm_states (if bool_decide (reg 2 t ≠ 0 ∨ reg 3 t ≠ u64 (-1))
         then <[p := <[Z.to_nat (u32 (reg 1 t)) := changed_register w (reg 2 t) (reg 3 t)]> s]> (vm_states k)
         else vm_states k) k)).
Proof.
  intros [Ht Hreal Hcode Hvm Hlink Hz Hp Hm] Hs Hw Hi. unfold svc_change_vm_system_register.
  rewrite (bind_ok _ _ _ t k) by by apply get_thread_ok. erewrite bind_ok by exact Hreal.
  rewrite (bind_ok (guard_stop (negb true) (Bsod 622)) _ k () k) by done.
  rewrite Hcode, (bind_ok _ _ _ vt k) by by apply get_thread_ok. rewrite Hlink. pass. cbv zeta. pass.
  rewrite (bind_ok _ _ _ pt k) by by apply get_thread_ok. pass.
  rewrite guard_pass by (unfold VM_REGISTER_OUT_OF_RANGE; lia). rewrite gets_ok.
  unfold id. rewrite Hs. cbn [mbind option_bind]. rewrite Hw.
  assert ((if bool_decide (reg 3 t ≠ 0) then u32 (Z.lxor (u32 (reg 2 t)) (Z.land (u32 w) (reg 3 t)))
           else u32 (reg 2 t)) = changed_register w (reg 2 t) (reg 3 t)) as ->.
  { unfold changed_register. by repeat case_bool_decide. }
  unfold when. case_bool_decide.
  - rewrite modify_ok. erewrite bind_ok by by apply upd_thread_ok.
    by rewrite (alter_known _ _ _ s).
  - rewrite (bind_ok (mret ()) _ k () k) by done.
    erewrite bind_ok by by apply upd_thread_ok. by destruct k.
Qed.

(** A change of a virtual machine's system register returns the low 32 bits of
    its old value.  It writes nothing when register 2 is 0 and register 3 all ones;
    otherwise the register becomes the new value, or the old one masked and
    exclusive-ored with it, cut to 32 bits: no bit above 31 can be set or kept. *)
Theorem change_vm_system_register_effect k thread vm p t vt pt s w :
  may_change_register k thread vm p t vt pt → length (regs t) = 31%nat →
  vm_states k !! p = Some s → s !! Z.to_nat (u32 (reg 1 t)) = Some w → u32 (reg 1 t) < 18 →
  ∃ k', svc_change_vm_system_register thread k = Ok (ThreadSwitch thread thread) k' ∧
    vm_states k' !! p = Some (if bool_decide (reg 2 t ≠ 0 ∨ reg 3 t ≠ u64 (-1))
                              then <[Z.to_nat (u32 (reg 1 t)) := changed_register w (reg 2 t) (reg 3 t)]> s else s) ∧
    threads k' !! thread = Some (set_reg 0 (u32 w) t) ∧
    is_u32 (changed_register w (reg 2 t) (reg 3 t)).
Proof.
  intros Hmay Hlen Hs Hw Hi. eexists. split; [by eapply svc_change_vm_system_register_ok |].
  split; [|split; [apply lookup_insert_eq |]].
  - cbn [vm_states put_thread set_threads set_vm_states]. case_bool_decide; [apply lookup_insert_eq | done].
  - unfold changed_register. case_bool_decide; apply u32_range.
Qed.

Lemma change_vm_system_register_effect_witness :
  ∃ k', svc_change_vm_system_register ta vm_demo = Ok (ThreadSwitch ta ta) k' ∧
    vm_states k' !! tw ≫= (λ s, s !! 3%nat) = Some 5.
Proof.
  edestruct change_vm_system_register_effect with (k := vm_demo) (thread := ta) (vm := ta) (p := tw)
    as (k' & E & Hs & _).
  { split; [by vm_compute | by vm_compute | by vm_compute | by vm_compute | by vm_compute | by vm_compute |
      by vm_compute | by vm_compute]. }
  { by vm_compute. }
  { by vm_compute. }
  { by vm_compute. }
  { by vm_compute. }
  exists k'. split; [done |]. rewrite Hs. by vm_compute.
Defined.
