(* ===== verification/MemoryAllocator.v ===== *)
(** * The physical memory allocator

    [drivers/physical_memory_allocator.c] with the macros of
    [include/aligned_blocks.h].  The driver is the only code that can reach all of
    memory; it keeps its free chunks in the memory they describe, linked into a list
    that is sorted by address.

    A chunk is two words of that memory, its [log2size] and the address of the
    [next] one; every address is accessible.  [chunk **] is the address of the
    variable [available_chunks] or of a chunk's [next].  Where C leaves [1u << n]
    undefined ([n] at least 32) the model does what the AArch64 instruction does, it
    shifts by [n] modulo 32.

    The theorems show that a free area becomes a sorted list of aligned
    power-of-two chunks that tile it exactly, that releasing a chunk keeps the list
    sorted, what [allocate] returns and leaves, and that the remainder of a chunk is
    split wrongly when it needs three pieces. *)

From S2P Require Import Prelude.
From stdpp Require Import sorting.
Open Scope Z_scope.

(** ** State *)
Record allocator : Type := Allocator {
  memory : gmap Z Z; (* 64-bit words *)
  freed_chunks : Z;
  available_chunks : Z;
}.

Definition set_memory (v : gmap Z Z) (s : allocator) : allocator :=
  Allocator v (freed_chunks s) (available_chunks s).
Definition set_freed_chunks (v : Z) (s : allocator) : allocator :=
  Allocator (memory s) v (available_chunks s).
Definition set_available_chunks (v : Z) (s : allocator) : allocator :=
  Allocator (memory s) (freed_chunks s) v.

Abbreviation A := (M allocator).

Definition word (m : gmap Z Z) (a : Z) : Z := default 0 (m !! a).
Definition load (a : Z) : A Z := gets (λ s, word (memory s) a).
Definition store (a v : Z) : A unit := modify (λ s, set_memory (<[a := v]> (memory s)) s).

(** The members of a [chunk]. *)
Definition log2size (c : Z) : Z := c.
Definition next (c : Z) : Z := c + 8.

Inductive chunk_ref : Type :=
  | AvailableChunks
  | NextOf (c : Z).

Definition load_ref (r : chunk_ref) : A Z :=
  match r with
  | AvailableChunks => gets available_chunks
  | NextOf c => load (next c)
  end.
Definition store_ref (r : chunk_ref) (v : Z) : A unit :=
  match r with
  | AvailableChunks => modify (set_available_chunks v)
  | NextOf c => store (next c) v
  end.

(** ** Releasing chunks *)

(** [while ( *list != 0 && ( *list ) < p) list = &( *list )->next;] *)
Fixpoint find_place (fuel : nat) (list : chunk_ref) (p : Z) : A chunk_ref :=
  match fuel with
  | O => halt (Spin 36)
  | S fuel =>
      c ← load_ref list;
      if bool_decide (c ≠ 0 ∧ c < p) then find_place fuel (NextOf c) p else mret list
  end.

Definition inter_map_exception {B} : A B := halt (Spin 28).

(** The body of the second [if] is a comment. *)
Definition release_free_chunk (fuel : nat) (p : Z) : A unit :=
  list ← find_place fuel AvailableChunks p;
  c ← load_ref list;
  _ ← when (bool_decide (c = p)) inter_map_exception;
  _ ← store (next p) c;
  store_ref list p.

Definition release_first_free_chunk (fuel : nat) : A unit :=
  p ← gets freed_chunks;
  when (bool_decide (p ≠ 0)) (
    n ← load (next p);
    _ ← modify (set_freed_chunks n);
    release_free_chunk fuel p).

Fixpoint make_available_loop (n fuel : nat) : A unit :=
  match n with
  | O => halt (Spin 112)
  | S n =>
      p ← gets freed_chunks;
      if bool_decide (p ≠ 0) then
        _ ← release_first_free_chunk fuel;
        make_available_loop n fuel
      else mret ()
  end.

Definition make_available_all_freed_chunks (fuel : nat) : A unit := make_available_loop fuel fuel.

(** ** Splitting an area into blocks *)

(** [assert( x )], with [x] negated. *)
Definition assert_not (b : bool) : A unit := guard_stop b (Brk 1).
Definition misaligned (p min : Z) : bool := bool_decide (0 ≠ Z.land p (Z.shiftl 1 min - 1)).

(** The action of [initialise_block]. *)
Definition initialise_chunk (min p : Z) : A Z :=
  f ← gets freed_chunks;
  _ ← store (next p) f;
  _ ← store (log2size p) min;
  _ ← modify (set_freed_chunks p);
  mret (u64 (p + Z.shiftl 1 min)).

(** The loop of the [blocks] macro; [bigger] is [max] and [maxaction], when [max] is
    not 0. *)
Fixpoint blocks_loop (fuel : nat) (min end_ : Z) (bigger : option (Z → A Z)) (p : Z) : A Z :=
  match fuel with
  | O => halt (Spin 10)
  | S fuel =>
      if bool_decide (Z.shiftl 1 min ≤ u64 (end_ - p)) then
        p' ← match bigger with
             | Some maxaction =>
                 if bool_decide (Z.shiftl 1 (min + 1) ≤ u64 (end_ - p)) && negb (misaligned p (min + 1)) then
                   p' ← maxaction p;
                   _ ← assert_not (bool_decide (end_ < p'));
                   mret p'
                 else initialise_chunk min p
             | None => initialise_chunk min p
             end;
        _ ← assert_not (misaligned p' min);
        blocks_loop fuel min end_ bigger p'
      else mret p
  end.

(** [initialise_block( 34 - n, 34 - n + 1, ... initialise_block( 34, 0, ) )] *)
Fixpoint initialise_block (n fuel : nat) (end_ p : Z) : A Z :=
  let min := 34 - Z.of_nat n in
  _ ← assert_not (misaligned p min);
  blocks_loop fuel min end_
    match n with
    | O => None
    | S n' => Some (λ p, initialise_block n' fuel end_ p)
    end p.

Definition make_list_of_freed_chunks (fuel : nat) (p end_ : Z) : A unit :=
  _ ← initialise_block 22 fuel end_ p;
  mret ().

(** ** Allocating *)

(** [1u << n], by a 32-bit register shift. *)
Definition shl_1u (n : Z) : Z := u32 (Z.shiftl 1 (n mod 32)).

Fixpoint first_fit (fuel : nat) (ref : chunk_ref) (p size : Z) : A (chunk_ref * Z) :=
  match fuel with
  | O => halt (Spin 125)
  | S fuel =>
      if bool_decide (p ≠ 0) then
        l ← load (log2size p);
        if bool_decide (shl_1u l < size) then
          n ← load (next p);
          first_fit fuel (NextOf p) n size
        else mret (ref, p)
      else mret (ref, p)
  end.

(** The [for] loop, from [l] down to 12: [n] is the number of iterations left. *)
Fixpoint split_remainder (n : nat) (c p l remainder : Z) : A unit :=
  match n with
  | O => mret ()
  | S n =>
      if bool_decide (remainder ≠ 0 ∧ 12 ≤ l) then
        if bool_decide (shl_1u l ≤ remainder) then
          _ ← store (log2size p) l;
          let remainder := u64 (remainder - shl_1u l) in
          if bool_decide (remainder ≠ 0) then
            let new_chunk := u64 (c + shl_1u l) in
            f ← load (next p);
            _ ← store (next new_chunk) f;
            _ ← store (next p) new_chunk;
            split_remainder n c new_chunk (l - 1) remainder
          else split_remainder n c p (l - 1) remainder
        else split_remainder n c p (l - 1) remainder
      else mret ()
  end.

Definition allocate (fuel : nat) (size : Z) : A Z :=
  p ← gets available_chunks;
  '(ref, p) ← first_fit fuel AvailableChunks p size;
  if bool_decide (p ≠ 0) then
    l ← load (log2size p);
    if bool_decide (shl_1u l = size) then
      n ← load (next p);
      _ ← store_ref ref n;
      mret p
    else
      let remainder := u32 (shl_1u l - size) in
      _ ← split_remainder (Z.to_nat (s32 l)) p p (s32 l - 1) remainder;
      mret (u64 (p + remainder))
  else mret 0.

Definition entry (fuel : nat) (zero call p1 p2 : Z) : A Z :=
  if bool_decide (call = 0) then
    _ ← make_list_of_freed_chunks fuel p1 p2;
    _ ← make_available_all_freed_chunks fuel;
    mret 0
  else if bool_decide (call = 1) then allocate fuel (u32 (Z.land (u64 (p1 + 4095)) (u64 (Z.lnot 0xfff))))
  else halt (Brk 1).

(** ** What the lists of chunks represent *)

(** The chunks from [head] on, as addresses and [log2size]. *)
Fixpoint chunks (m : gmap Z Z) (head : Z) (l : list (Z * Z)) : Prop :=
  match l with
  | [] => head = 0
  | (a, s) :: l => head = a ∧ a ≠ 0 ∧ word m (log2size a) = s ∧ chunks m (word m (next a)) l
  end.

(** A chunk is aligned to its size, which is at least a page. *)
Definition good_chunk (c : Z * Z) : Prop :=
  0 < c.1 < 2 ^ 63 ∧ 12 ≤ c.2 ≤ 34 ∧ c.1 mod 2 ^ c.2 = 0.

(** [l] is a run of good chunks from [p] to [e] without gaps. *)
Fixpoint tiles (p e : Z) (l : list (Z * Z)) : Prop :=
  match l with
  | [] => p = e
  | (a, s) :: l => a = p ∧ good_chunk (a, s) ∧ tiles (p + 2 ^ s) e l
  end.

(** Chunks in order of address, none inside another. *)
Definition before (c d : Z * Z) : Prop := c.1 + 2 ^ c.2 ≤ d.1.

(** The area of a chunk. *)
Definition within (a : Z) (c : Z * Z) : Prop := c.1 ≤ a < c.1 + 2 ^ c.2.

Lemma page_multiple s : 12 ≤ s → 2 ^ s = 2 ^ (s - 12) * 4096.
Proof. intros Hs. change 4096 with (2 ^ 12). rewrite <- Z.pow_add_r by lia. f_equal. lia. Qed.

Lemma page_size s : 12 ≤ s → 4096 ≤ 2 ^ s.
Proof. intros Hs. apply (Z.pow_le_mono_r 2 12 s); lia. Qed.

Lemma good_page c : good_chunk c → c.1 mod 4096 = 0.
Proof.
  intros (_ & Hs & Ha). rewrite (page_multiple c.2) in Ha by lia.
  apply Z.mod_divide in Ha as [q Hq]; [|pose proof (Z.pow_pos_nonneg 2 (c.2 - 12)); lia].
  apply Z.mod_divide; [lia |]. exists (q * 2 ^ (c.2 - 12)). lia.
Qed.

(** ** Words *)
Lemma word_insert_eq m a v : word (<[a := v]> m) a = v.
Proof. unfold word. by rewrite lookup_insert_eq. Qed.

Lemma word_insert_ne m a b v : a ≠ b → word (<[a := v]> m) b = word m b.
Proof. intros Hab. unfold word. by rewrite lookup_insert_ne. Qed.

(** Headers of chunks at different pages do not overlap. *)
Lemma headers_apart a b : a mod 4096 = 0 → b mod 4096 = 0 → a ≠ b →
  log2size a ≠ b ∧ next a ≠ log2size b ∧ next a ≠ next b ∧ next b ≠ log2size a.
Proof. unfold log2size, next. intros. Z.div_mod_to_equations. lia. Qed.

Lemma chunks_frame m m' head l :
  (∀ c, c ∈ l → word m' (log2size c.1) = word m (log2size c.1) ∧ word m' (next c.1) = word m (next c.1)) →
  chunks m head l → chunks m' head l.
Proof.
  revert head. induction l as [|[a s] l IH]; intros head Hf; [done |]. simpl.
  intros (-> & Ha & Hs & Hl). destruct (Hf (a, s)) as [E1 E2]; [by left |]. simpl in E1, E2.
  split_and!; try done; [by rewrite E1 |]. rewrite E2. apply IH; [|done]. intros c Hc. apply Hf. by right.
Qed.

(** Writing a header of another page keeps the list. *)
Lemma chunks_store m head l p v w :
  p mod 4096 = 0 → Forall good_chunk l → p ∉ l.*1 → v = log2size p ∨ v = next p →
  chunks m head l → chunks (<[v := w]> m) head l.
Proof.
  intros Hp Hg Hn Hv. apply chunks_frame. intros c Hc.
  rewrite Forall_forall in Hg. specialize (Hg c Hc). apply good_page in Hg.
  assert (p ≠ c.1) as Hne by (intros ->; apply Hn; by apply list_elem_of_fmap_2).
  destruct (headers_apart p c.1) as (H1 & H2 & H3 & H4); try done.
  destruct Hv as [-> | ->]; rewrite !word_insert_ne; try done; unfold log2size, next in *; lia.
Qed.

Lemma chunks_head m head l : chunks m head l → head = default 0 (fst <$> hd_error l).
Proof. destruct l as [|[a s] l]; simpl; naive_solver. Qed.

Lemma chunks_nonzero m head l : Forall good_chunk l → chunks m head l → head ≠ 0 ↔ l ≠ [].
Proof.
  intros Hg Hc. destruct l as [|[a s] l]; simpl in Hc; [naive_solver |]. destruct Hc as (-> & Ha & _). done.
Qed.

(** What a reference points to: the place between [l1] and [l2]. *)
Definition ref_at (s : allocator) (r : chunk_ref) (l1 l2 : list (Z * Z)) : Prop :=
  match r with
  | AvailableChunks => l1 = [] ∧ chunks (memory s) (available_chunks s) l2
  | NextOf c => ∃ l0 n, l1 = l0 ++ [(c, n)] ∧ chunks (memory s) (word (memory s) (next c)) l2
  end.

Lemma load_ref_ok s r l1 l2 : ref_at s r l1 l2 → load_ref r s = Ok (default 0 (fst <$> hd_error l2)) s.
Proof.
  destruct r; simpl.
  - intros [_ Hc]. unfold gets. by rewrite (chunks_head _ _ _ Hc).
  - intros (l0 & n & _ & Hc). unfold load, gets. by rewrite (chunks_head _ _ _ Hc).
Qed.

Lemma chunks_app m head l1 c n l2 :
  chunks m head (l1 ++ (c, n) :: l2) →
  chunks m (word m (next c)) l2.
Proof.
  revert head. induction l1 as [|[a s] l1 IH]; intros head; simpl.
  - by intros (_ & _ & _ & ?).
  - intros (_ & _ & _ & ?). by eapply IH.
Qed.

Lemma chunks_relink m head l1 c n l2 v l3 :
  Forall good_chunk (l1 ++ [(c, n)]) → NoDup (l1 ++ [(c, n)]).*1 →
  chunks m head (l1 ++ (c, n) :: l2) → chunks (<[next c := v]> m) v l3 →
  chunks (<[next c := v]> m) head (l1 ++ (c, n) :: l3).
Proof.
  revert head. induction l1 as [|[a s] l1 IH]; intros head; simpl.
  - intros _ _ (-> & Hc & Hn & _) H3. rewrite word_insert_ne by (unfold next, log2size; lia).
    by rewrite word_insert_eq.
  - intros Hg Hd (-> & Ha & Hs & Hl) H3. apply Forall_cons in Hg as [Hga Hg].
    apply NoDup_cons in Hd as [Hna Hd].
    assert (a ≠ c) as Hac.
    { intros ->. apply Hna. rewrite fmap_app. apply elem_of_app. right. by apply list_elem_of_singleton. }
    apply good_page in Hga. assert (c mod 4096 = 0) as Hcp.
    { apply Forall_app in Hg as [_ Hg]. apply Forall_cons in Hg as [Hg _]. by apply good_page in Hg. }
    destruct (headers_apart c a) as (_ & H2 & H3' & _); try done.
    rewrite !word_insert_ne by done. split_and!; try done. by apply IH.
Qed.

(** The words outside the [next] of the chunks [l] stay as they are. *)
Definition only_next (l : list (Z * Z)) (s s' : allocator) : Prop :=
  freed_chunks s' = freed_chunks s ∧
  ∀ a, (∀ c, c ∈ l.*1 → a ≠ next c) → word (memory s') a = word (memory s) a.

Lemma only_next_chunks l s s' head fl :
  only_next l s s' → Forall good_chunk l → Forall good_chunk fl → (∀ c, c ∈ l.*1 → c ∉ fl.*1) →
  chunks (memory s) head fl → chunks (memory s') head fl.
Proof.
  intros [_ Hw] Hg Hgf Hd. apply chunks_frame. intros c Hc.
  assert (∀ d, d ∈ l.*1 → log2size c.1 ≠ next d ∧ next c.1 ≠ next d) as Hne.
  { intros d Hdl. apply list_elem_of_fmap in Hdl as ([d1 d2] & -> & Hdl). simpl.
    rewrite Forall_forall in Hg, Hgf. pose proof (good_page _ (Hg _ Hdl)) as Hp1. simpl in Hp1.
    pose proof (good_page _ (Hgf _ Hc)) as Hp2.
    destruct (headers_apart d1 c.1) as (_ & H2 & H3 & _); try done.
    intros ->. apply (Hd c.1); [by apply (list_elem_of_fmap_2 fst l (c.1, d2)) | by apply list_elem_of_fmap_2]. }
  split; apply Hw; intros d Hdl; by apply Hne.
Qed.

(** Storing through the reference replaces the rest of the list. *)
Lemma store_ref_ok s r l1 l2 v l3 :
  Forall good_chunk l1 → NoDup l1.*1 → chunks (memory s) (available_chunks s) (l1 ++ l2) → ref_at s r l1 l2 →
  chunks (memory s) v l3 → Forall good_chunk l3 → (∀ c, c ∈ l1.*1 → c ∉ l3.*1) →
  ∃ s', store_ref r v s = Ok () s' ∧ chunks (memory s') (available_chunks s') (l1 ++ l3) ∧ only_next l1 s s'.
Proof.
  intros Hg Hnd Hl Hr H3 Hg3 Hd. destruct r as [|c]; simpl in Hr |- *.
  - destruct Hr as [-> _]. eexists. split; [done |]. split; [done |]. by split.
  - destruct Hr as (l0 & n & -> & _). eexists. split; [done |]. cbn [memory available_chunks set_memory].
    rewrite <- app_assoc in Hl |- *. pose proof Hg as [_ [Hgc _]%Forall_cons]%Forall_app.
    split.
    + eapply chunks_relink; [done | done | exact Hl |].
      eapply (chunks_store _ _ _ c); [by apply good_page in Hgc | done | | by right | done].
      apply Hd. rewrite fmap_app. apply elem_of_app. right. by apply list_elem_of_singleton.
    + split; [done |]. intros a Ha. cbn [memory set_memory]. rewrite word_insert_ne; [done |].
      intros <-. apply (Ha c); [|done]. rewrite fmap_app. apply elem_of_app. right. by apply list_elem_of_singleton.
Qed.

(** The search ends at the place where [p] belongs. *)
Lemma find_place_ok s p fuel r l1 l2 :
  Forall good_chunk l2 → chunks (memory s) (available_chunks s) (l1 ++ l2) → ref_at s r l1 l2 →
  (length l2 < fuel)%nat →
  ∃ r' la lb, l2 = la ++ lb ∧ find_place fuel r p s = Ok r' s ∧ ref_at s r' (l1 ++ la) lb ∧
    Forall (λ c, c.1 < p) la ∧ (∀ c, hd_error lb = Some c → p ≤ c.1).
Proof.
  revert r l1 l2. induction fuel as [|fuel IH]; intros r l1 l2 Hg Hl Hr Hf; [lia |]. cbn [find_place].
  erewrite bind_ok by (eapply load_ref_ok; eassumption). destruct l2 as [|[c n] l2]; cbn [hd_error fmap option_fmap default].
  - exists r, [], []. rewrite bool_decide_eq_false_2 by (intros [Hz _]; by apply Hz). rewrite (app_nil_r l1).
    by split_and!.
  - cbn. pose proof Hg as [Hgc Hg2]%Forall_cons. destruct Hgc as [Hc0 _]. simpl in Hc0.
    destruct (decide (c < p)) as [Hcp | Hcp].
    + rewrite bool_decide_eq_true_2 by lia.
      destruct (IH (NextOf c) (l1 ++ [(c, n)]) l2) as (r' & la & lb & -> & E & Hr' & Hla & Hlb); try done.
      { by rewrite <- app_assoc. }
      { exists l1, n. split; [done |]. by eapply chunks_app. }
      { simpl in Hf. lia. }
      exists r', ((c, n) :: la), lb. rewrite <- app_assoc in Hr'. split_and!; try done. by constructor.
    + rewrite bool_decide_eq_false_2 by lia. exists r, [], ((c, n) :: l2). rewrite (app_nil_r l1).
      split_and!; try done. intros c' [= <-]. simpl. lia.
Qed.

(** [release_free_chunk] puts the chunk in its place. *)
Lemma release_free_chunk_place s fuel p n l :
  chunks (memory s) (available_chunks s) l → Forall good_chunk l → NoDup l.*1 →
  good_chunk (p, n) → word (memory s) (log2size p) = n → p ∉ l.*1 → (length l < fuel)%nat →
  ∃ l1 l2 s', l = l1 ++ l2 ∧ Forall (λ c, c.1 < p) l1 ∧ (∀ c, hd_error l2 = Some c → p < c.1) ∧
    release_free_chunk fuel p s = Ok () s' ∧
    chunks (memory s') (available_chunks s') (l1 ++ (p, n) :: l2) ∧ only_next ((p, n) :: l1) s s'.
Proof.
  intros Hl Hg Hnd Hp Hn Hin Hf. unfold release_free_chunk.
  destruct (find_place_ok s p fuel AvailableChunks [] l) as (r & l1 & l2 & -> & E & Hr & H1 & H2); try done.
  erewrite bind_ok by exact E. erewrite bind_ok by (eapply load_ref_ok; eassumption). simpl in Hr.
  set (c := default 0 (fst <$> hd_error l2)).
  assert (p mod 4096 = 0) as Hpp by (by apply good_page in Hp).
  rewrite fmap_app in Hnd, Hin. apply Forall_app in Hg as [Hg1 Hg2].
  apply NoDup_app in Hnd as (Hnd1 & Hd & Hnd2). apply not_elem_of_app in Hin as [Hi1 Hi2].
  assert (chunks (memory s) c l2) as Hc2.
  { unfold c. destruct r; simpl in Hr; [destruct Hr as [_ Hr] | destruct Hr as (? & ? & _ & Hr)];
      by rewrite <- (chunks_head _ _ _ Hr). }
  assert (∀ d, hd_error l2 = Some d → d.1 ≠ p) as Hh.
  { intros d Hd2 <-. apply Hi2. destruct l2; [done |]. injection Hd2 as ->. by left. }
  destruct Hp as [Hp0 Hps]. simpl in Hp0.
  rewrite when_skip.
  2:{ unfold c. destruct l2 as [|d l2]; simpl; [lia |]. by apply Hh. }
  unfold store at 1. rewrite modify_ok.
  set (s1 := set_memory _ s).
  destruct (store_ref_ok s1 r l1 l2 p ((p, n) :: l2)) as (s2 & E2 & Hc & Hw & Ho).
  { done. }
  { done. }
  { eapply (chunks_store _ _ _ p); [done | by apply Forall_app | | by right | done].
    rewrite fmap_app. by apply not_elem_of_app. }
  { destruct r as [|q]; simpl in Hr |- *.
    - destruct Hr as [-> Hr]. split; [done |]. eapply (chunks_store _ _ _ p); try done; by right.
    - destruct Hr as (l0 & m & -> & Hr). exists l0, m. split; [done |].
      assert (q ≠ p) as Hqp.
      { intros ->. apply Hi1. rewrite fmap_app. apply elem_of_app. right. by apply list_elem_of_singleton. }
      rewrite word_insert_ne by (unfold next; lia). eapply (chunks_store _ _ _ p); try done; by right. }
  { cbn [chunks]. simpl. split_and!; [done | lia | |].
    - rewrite word_insert_ne by (unfold next, log2size; lia). done.
    - rewrite word_insert_eq. eapply (chunks_store _ _ _ p); try done; by right. }
  { by constructor. }
  { intros d Hd1. apply not_elem_of_cons. split; [by intros -> |]. by apply Hd. }
  exists l1, l2, s2. split_and!; try done.
  - intros d Hd2. specialize (H2 _ Hd2). specialize (Hh _ Hd2). lia.
  - split; [done |]. intros a Ha. rewrite Ho by (intros d Hd1; apply Ha; by right). apply word_insert_ne.
    intros <-. apply (Ha p); [by left | done].
Qed.

(** ** Making all freed chunks available *)
Definition by_address (c d : Z * Z) : Prop := c.1 < d.1.

Lemma sorted_insert l1 l2 c :
  StronglySorted by_address (l1 ++ l2) → Forall (λ d, d.1 < c.1) l1 → (∀ d, hd_error l2 = Some d → c.1 < d.1) →
  StronglySorted by_address (l1 ++ c :: l2).
Proof.
  intros Hs H1 H2. induction l1 as [|d l1 IH]; simpl in *.
  - constructor; [done |]. destruct l2 as [|e l2]; [constructor |].
    apply StronglySorted_inv in Hs as [_ Hs]. specialize (H2 e eq_refl). constructor; [done |].
    eapply Forall_impl; [exact Hs |]. unfold by_address. intros; lia.
  - apply StronglySorted_inv in Hs as [Hs Hd]. apply Forall_cons in H1 as [Hdc H1].
    constructor; [by apply IH |]. apply Forall_app in Hd as [Hd1 Hd2]. apply Forall_app. split; [done |].
    by constructor.
Qed.

Lemma sorted_NoDup l : StronglySorted by_address l → NoDup l.*1.
Proof.
  induction 1 as [|c l Hs IH Hc]; simpl; [constructor |]. constructor; [|done].
  intros (d & E & Hd)%list_elem_of_fmap. rewrite Forall_forall in Hc. specialize (Hc d Hd).
  unfold by_address in Hc. lia.
Qed.

(** The available and the freed chunks of a state. *)
Record lists (s : allocator) (available freed : list (Z * Z)) : Prop := {
  lists_available : chunks (memory s) (available_chunks s) available;
  lists_freed : chunks (memory s) (freed_chunks s) freed;
  lists_good : Forall good_chunk (available ++ freed);
  lists_sorted : StronglySorted by_address available;
  lists_apart : NoDup (available ++ freed).*1;
}.

Lemma release_first_step s fuel l c fl :
  lists s l (c :: fl) → (length l < fuel)%nat →
  ∃ l' s', release_first_free_chunk fuel s = Ok () s' ∧ lists s' l' fl ∧ l' ≡ₚ c :: l.
Proof.
  intros [Ha Hf Hg Hs Hd] Hfuel. destruct c as [p n]. destruct Hf as (Hfc & Hp0 & Hn & Hf).
  apply Forall_app in Hg as [Hg [Hgp Hgf]%Forall_cons].
  rewrite fmap_app in Hd. apply NoDup_app in Hd as (Hd1 & Hdis & [Hpf Hdf]%NoDup_cons).
  unfold release_first_free_chunk. rewrite gets_ok, Hfc. unfold when. rewrite bool_decide_eq_true_2 by done.
  unfold load at 1. rewrite gets_ok, modify_ok.
  set (s1 := set_freed_chunks _ s).
  assert (p ∉ l.*1) as Hpl by (intros Hin; apply (Hdis p Hin); by left).
  destruct (release_free_chunk_place s1 fuel p n l) as (l1 & l2 & s2 & -> & H1 & H2 & E & Hc & Ho); try done.
  exists (l1 ++ (p, n) :: l2), s2. split; [done |]. split; [|by rewrite Permutation_middle].
  pose proof Hg as [Hg1 Hg2]%Forall_app. rewrite fmap_app in Hdis, Hpl.
  split.
  - done.
  - destruct Ho as [Hfr Ho']. rewrite Hfr. eapply only_next_chunks; [by split | by constructor | done | | done].
    intros d [-> | Hd]%elem_of_cons; [done |]. intros Hdf'. apply (Hdis d); [|by right].
    apply elem_of_app. by left.
  - apply Forall_app. split; [|done]. apply Forall_app. split; [done |]. by constructor.
  - by apply sorted_insert.
  - rewrite <- app_assoc, fmap_app. simpl. rewrite fmap_app.
    rewrite fmap_app in Hd1. apply NoDup_app in Hd1 as (Hn1 & Hn12 & Hn2).
    rewrite <- Permutation_middle, app_assoc.
    apply NoDup_cons. split.
    + rewrite !not_elem_of_app. apply not_elem_of_app in Hpl as [? ?]. done.
    + apply NoDup_app. split; [|split; [|done]].
      * apply NoDup_app. by split_and!.
      * intros d Hd Hdf'. apply (Hdis d Hd). by right.
Qed.

Lemma make_available_loop_ok s n fuel l fl :
  lists s l fl → (length l + length fl < fuel)%nat → (length fl < n)%nat →
  ∃ l' s', make_available_loop n fuel s = Ok () s' ∧ lists s' l' [] ∧ l' ≡ₚ l ++ fl.
Proof.
  revert s l fl. induction n as [|n IH]; intros s l fl Hl Hf Hn; [lia |].
  cbn [make_available_loop]. rewrite gets_ok. pose proof (lists_freed _ _ _ Hl) as Hz. destruct fl as [|[p c] fl].
  - simpl in Hz. rewrite Hz. exists l, s. rewrite bool_decide_eq_false_2 by naive_solver.
    by rewrite app_nil_r.
  - destruct Hz as (Hz & Hp & _). rewrite bool_decide_eq_true_2 by congruence. simpl in Hf, Hn.
    destruct (release_first_step s fuel l (p, c) fl) as (l1 & s1 & E & Hl1 & Hp1); [done | lia |].
    erewrite bind_ok by exact E.
    destruct (IH s1 l1 fl) as (l2 & s2 & E2 & Hl2 & Hp2); [done | rewrite Hp1; simpl; lia | lia |].
    exists l2, s2. split_and!; try done. rewrite Hp2, Hp1. simpl. by rewrite Permutation_middle.
Qed.

(** ** Splitting an area *)
Lemma tiles_app p q e l1 l2 : tiles p q l1 → tiles q e l2 → tiles p e (l1 ++ l2).
Proof.
  revert p. induction l1 as [|[a s] l1 IH]; intros p; simpl; [by intros -> |].
  intros (-> & Hg & H1) H2. split_and!; try done. by apply IH.
Qed.

Lemma tiles_bounds p e l : tiles p e l → p ≤ e ∧ Forall (λ c, good_chunk c ∧ p ≤ c.1 ∧ c.1 + 2 ^ c.2 ≤ e) l.
Proof.
  revert p. induction l as [|[a s] l IH]; intros p; simpl; [intros ->; split; [lia | constructor] |].
  intros (-> & Hg & Ht). destruct (IH _ Ht) as [Hle Hf]. pose proof (page_size s) as Hs.
  assert (12 ≤ s) as H12 by apply Hg. specialize (Hs H12). split; [lia |]. constructor; [by split_and!; simpl; try lia |].
  eapply Forall_impl; [exact Hf |]. simpl. intros c ?. split_and!; [tauto | lia | tauto].
Qed.

Lemma misaligned_mod p k : 0 ≤ k → misaligned p k = bool_decide (p mod 2 ^ k ≠ 0).
Proof.
  intros Hk. unfold misaligned. rewrite Z.shiftl_1_l.
  replace (2 ^ k - 1) with (Z.ones k) by (rewrite Z.ones_equiv; lia). rewrite Z.land_ones by done.
  apply bool_decide_ext. split; congruence.
Qed.

Lemma aligned_step p k j : 0 ≤ k ≤ j → p mod 2 ^ j = 0 → p mod 2 ^ k = 0.
Proof.
  intros Hk Hp. assert (2 ^ j = 2 ^ (j - k) * 2 ^ k) as E by (rewrite <- Z.pow_add_r by lia; f_equal; lia).
  pose proof (Z.pow_pos_nonneg 2 k). pose proof (Z.pow_pos_nonneg 2 (j - k)).
  apply Z.mod_divide in Hp as [q Hq]; [|lia]. apply Z.mod_divide; [lia |]. exists (q * 2 ^ (j - k)). lia.
Qed.

Lemma aligned_next p k : 0 ≤ k → p mod 2 ^ k = 0 → (p + 2 ^ k) mod 2 ^ k = 0.
Proof.
  intros Hk Hp. pose proof (Z.pow_pos_nonneg 2 k).
  rewrite <- (Z.mul_1_l (2 ^ k)) at 1. rewrite Z_mod_plus_full. done.
Qed.

(** The freed chunks lie below [p]. *)
Definition freed_below (s : allocator) (p : Z) (fl : list (Z * Z)) : Prop :=
  chunks (memory s) (freed_chunks s) fl ∧ Forall (λ c, good_chunk c ∧ c.1 + 2 ^ c.2 ≤ p) fl.

(** The words outside [p, q) and the available chunks are not touched. *)
Definition only_area (p q : Z) (s s' : allocator) : Prop :=
  available_chunks s' = available_chunks s ∧ ∀ a, ¬ (p ≤ a < q) → word (memory s') a = word (memory s) a.

(** [m] turns the area from [p] on into freed chunks, as long as [2 ^ min] fits. *)
Definition splits (fuel : nat) (end_ min : Z) (m : Z → A Z) : Prop :=
  ∀ s p fl, p mod 2 ^ min = 0 → 0 < p ≤ end_ → end_ - p < 4096 * Z.of_nat fuel → freed_below s p fl →
  ∃ s' p' new, m p s = Ok p' s' ∧ tiles p p' new ∧ freed_below s' p' (reverse new ++ fl) ∧
    only_area p p' s s' ∧ p' ≤ end_ ∧ p' mod 2 ^ min = 0 ∧ end_ - p' < 2 ^ min ∧
    (2 ^ min ≤ end_ - p → p + 2 ^ min ≤ p').

Lemma initialise_chunk_ok s min p fl end_ :
  12 ≤ min ≤ 34 → p mod 2 ^ min = 0 → 0 < p → p + 2 ^ min ≤ end_ → end_ < 2 ^ 63 → freed_below s p fl →
  ∃ s', initialise_chunk min p s = Ok (p + 2 ^ min) s' ∧ freed_below s' (p + 2 ^ min) ((p, min) :: fl) ∧
    only_area p (p + 2 ^ min) s s' ∧ good_chunk (p, min).
Proof.
  intros Hm Hp H0 He H63 [Hc Hf]. pose proof (page_size min) as Hps. specialize (Hps ltac:(lia)).
  assert (good_chunk (p, min)) as Hg by (split_and!; simpl; lia).
  unfold initialise_chunk, store. rewrite gets_ok, !modify_ok, Z.shiftl_1_l.
  rewrite u64_id by (unfold is_u64; lia). eexists. split; [done |]. split; [split |split]; try done.
  - cbn [memory freed_chunks set_freed_chunks set_memory chunks]. split_and!; [done | lia | |].
    + by rewrite word_insert_eq.
    + rewrite word_insert_ne by (unfold next, log2size; lia). rewrite word_insert_eq.
      assert ((p ∉ fl.*1) ∧ Forall good_chunk fl) as [Hn Hgf].
      { rewrite Forall_forall in Hf. split; [|by apply Forall_forall; intros c Hcf; apply Hf].
        intros (c & -> & Hcf)%list_elem_of_fmap. destruct (Hf c Hcf) as [(_ & Hs & _) Hb].
        pose proof (page_size c.2). lia. }
      assert (p mod 4096 = 0) by by apply good_page in Hg.
      eapply (chunks_store _ _ _ p); [done | done | done | by left |].
      eapply (chunks_store _ _ _ p); [done | done | done | by right | done].
  - constructor; [by split; simpl; [|lia] |]. eapply Forall_impl; [exact Hf |]. simpl. intros c [? ?].
    split; [done | lia].
  - split; [done |]. intros a Ha. cbn [memory set_freed_chunks set_memory].
    rewrite !word_insert_ne by (unfold next, log2size; lia). done.
Qed.

Lemma only_area_app p q r s1 s2 s3 :
  p ≤ q ≤ r → only_area p q s1 s2 → only_area q r s2 s3 → only_area p r s1 s3.
Proof. intros Hpq [A1 W1] [A2 W2]. split; [congruence |]. intros a Ha. rewrite W2, W1 by lia. done. Qed.

(** One round of the loop. *)
Lemma blocks_round fuel F end_ min bigger s p fl :
  12 ≤ min ≤ 34 → (F ≤ fuel)%nat → end_ < 2 ^ 63 →
  (∀ m, bigger = Some m → min < 34 ∧ splits fuel end_ (min + 1) m) →
  p mod 2 ^ min = 0 → 0 < p → 2 ^ min ≤ end_ - p → end_ - p < 4096 * Z.of_nat F → freed_below s p fl →
  ∃ s' p' new,
    match bigger with
    | Some maxaction =>
        if bool_decide (Z.shiftl 1 (min + 1) ≤ u64 (end_ - p)) && negb (misaligned p (min + 1)) then
          p' ← maxaction p; _ ← assert_not (bool_decide (end_ < p')); mret p'
        else initialise_chunk min p
    | None => initialise_chunk min p
    end s = Ok p' s' ∧ tiles p p' new ∧ freed_below s' p' (reverse new ++ fl) ∧
    only_area p p' s s' ∧ p' ≤ end_ ∧ p' mod 2 ^ min = 0 ∧ p + 2 ^ min ≤ p'.
Proof.
  intros Hm HF H63 Hb Hp H0 Hfit Hfuel Hfl.
  assert (∃ s' p' new, initialise_chunk min p s = Ok p' s' ∧ tiles p p' new ∧ freed_below s' p' (reverse new ++ fl) ∧
    only_area p p' s s' ∧ p' ≤ end_ ∧ p' mod 2 ^ min = 0 ∧ p + 2 ^ min ≤ p') as Hone.
  { destruct (initialise_chunk_ok s min p fl end_) as (s' & E & Hfl' & Ho & Hg); try done; [lia |].
    exists s', (p + 2 ^ min), [(p, min)]. split_and!; try done; try lia.
    apply aligned_next; [lia | done]. }
  destruct bigger as [m|]; [|done]. destruct (Hb m eq_refl) as [H34 Hs].
  rewrite misaligned_mod, u64_id, Z.shiftl_1_l by (unfold is_u64; lia).
  destruct (bool_decide (2 ^ (min + 1) ≤ end_ - p)) eqn:Hd1; [|done]. apply bool_decide_eq_true in Hd1.
  destruct (bool_decide (p mod 2 ^ (min + 1) ≠ 0)) eqn:Hd2; [done |]. apply bool_decide_eq_false in Hd2.
  apply dec_stable in Hd2. cbn [andb negb].
  destruct (Hs s p fl) as (s' & p' & new & E & Ht & Hfl' & Ho & Hle & Ha & _ & Hstep); try done; [lia | lia |].
  exists s', p', new. erewrite bind_ok by exact E.
  unfold assert_not. rewrite guard_pass by lia. split_and!; try done.
  - eapply aligned_step; [|exact Ha]. lia.
  - specialize (Hstep Hd1). pose proof (Z.pow_le_mono_r 2 min (min + 1)). lia.
Qed.

(** The whole loop, from inside out. *)
Lemma blocks_loop_splits fuel F end_ min bigger :
  12 ≤ min ≤ 34 → (F ≤ fuel)%nat → end_ < 2 ^ 63 →
  (∀ m, bigger = Some m → min < 34 ∧ splits fuel end_ (min + 1) m) →
  splits F end_ min (blocks_loop F min end_ bigger).
Proof.
  intros Hm HF H63 Hb. pose proof (page_size min) as Hps. specialize (Hps ltac:(lia)).
  induction F as [|F IH]; intros s p fl Hp H0 Hfuel Hfl; [lia |]. cbn [blocks_loop].
  assert (bool_decide (Z.shiftl 1 min ≤ u64 (end_ - p)) = bool_decide (2 ^ min ≤ end_ - p)) as ->.
  { by rewrite Z.shiftl_1_l, u64_id by (unfold is_u64; lia). }
  destruct (decide (2 ^ min ≤ end_ - p)) as [Hfit | Hfit].
  - rewrite bool_decide_eq_true_2 by done.
    destruct (blocks_round fuel (S F) end_ min bigger s p fl)
      as (s1 & p1 & new1 & E1 & Ht1 & Hfl1 & Ho1 & Hle1 & Ha1 & Hstep1); try done; [lia |].
    rewrite (bind_ok _ _ _ _ _ E1). unfold assert_not.
    rewrite misaligned_mod by lia. rewrite guard_pass by naive_solver.
    destruct (IH ltac:(lia) s1 p1 (reverse new1 ++ fl))
      as (s2 & p2 & new2 & E2 & Ht2 & Hfl2 & Ho2 & Hle2 & Ha2 & Hend2 & _); try done; try lia.
    pose proof (tiles_bounds _ _ _ Ht2) as [Hle _].
    exists s2, p2, (new1 ++ new2). rewrite reverse_app, <- app_assoc.
    split_and!; try done; [by eapply tiles_app | eapply only_area_app; [|done..]; lia | lia].
  - rewrite bool_decide_eq_false_2 by done. exists s, p, []. split_and!; try done; lia.
Qed.

Lemma initialise_block_splits n fuel end_ :
  (n ≤ 22)%nat → end_ < 2 ^ 63 → splits fuel end_ (34 - Z.of_nat n) (initialise_block n fuel end_).
Proof.
  intros Hn H63. induction n as [|n IH]; intros s p fl Hp H0 Hfuel Hfl; cbn [initialise_block]; cbv zeta;
    unfold assert_not; rewrite misaligned_mod by lia; rewrite guard_pass by naive_solver.
  - by eapply (blocks_loop_splits fuel).
  - eapply (blocks_loop_splits fuel); try done; [lia |]. intros m [= <-]. split; [lia |].
    replace (34 - Z.of_nat (S n) + 1) with (34 - Z.of_nat n) by lia. apply IH. lia.
Qed.

Lemma tiles_sorted p e l : tiles p e l → StronglySorted by_address l.
Proof.
  revert p. induction l as [|[a s] l IH]; intros p; simpl; [constructor |].
  intros (-> & Hg & Ht). constructor; [by eapply IH |].
  pose proof (tiles_bounds _ _ _ Ht) as [_ Hf]. eapply Forall_impl; [exact Hf |].
  intros c (_ & Hc & _). unfold by_address. simpl. destruct Hg as (_ & Hs & _). simpl in Hs.
  pose proof (page_size s). lia.
Qed.

Lemma tiles_length p e l : tiles p e l → 4096 * Z.of_nat (length l) ≤ e - p.
Proof.
  revert p. induction l as [|[a s] l IH]; intros p; simpl; [lia |].
  intros (-> & (_ & Hs & _) & Ht). specialize (IH _ Ht). simpl in Hs. pose proof (page_size s). lia.
Qed.

(** A chunk that has no page in common with the area from [p] to [e]. *)
Definition outside (p e : Z) (c : Z * Z) : Prop := c.1 + 2 ^ c.2 ≤ p ∨ e ≤ c.1.

Lemma make_list_ok s fuel p e l :
  lists s l [] → p mod 4096 = 0 → e mod 4096 = 0 → 0 < p ≤ e → e < 2 ^ 63 → Forall (outside p e) l →
  e - p < 4096 * Z.of_nat fuel →
  ∃ s' new, make_list_of_freed_chunks fuel p e s = Ok () s' ∧ tiles p e new ∧ lists s' l (reverse new).
Proof.
  intros [Ha Hf Hg Hs Hd] Hp He H0 H63 Hout Hfuel. rewrite app_nil_r in Hg, Hd.
  destruct (initialise_block_splits 22 fuel e ltac:(done) H63 s p [])
    as (s1 & p1 & new & E & Ht & [Hfl Hfb] & [Hav Hw] & Hle & Hal & Hend & _); try done.
  assert (p1 = e) as ->.
  { change (2 ^ (34 - Z.of_nat 22)) with 4096 in Hend, Hal. clear -Hend Hal He Hle. Z.div_mod_to_equations. lia. }
  exists s1, new. unfold make_list_of_freed_chunks. erewrite bind_ok by exact E. split; [done |]. split; [done |].
  rewrite app_nil_r in Hfl. pose proof (tiles_bounds _ _ _ Ht) as [_ Hnew].
  split; try done.
  - rewrite Hav. eapply chunks_frame; [|exact Ha]. intros c Hc. rewrite Forall_forall in Hout, Hg.
    specialize (Hout c Hc). destruct (Hg c Hc) as (_ & Hcs & _). pose proof (page_size c.2).
    unfold outside in Hout. split; apply Hw; unfold log2size, next; lia.
  - apply Forall_app. split; [done |]. apply Forall_reverse. eapply Forall_impl; [exact Hnew |]. tauto.
  - rewrite fmap_app. apply NoDup_app. split; [done |]. rewrite fmap_reverse. split.
    + intros a (c & -> & Hc)%list_elem_of_fmap. rewrite elem_of_reverse.
      intros (d & E2 & Hd2)%list_elem_of_fmap. rewrite Forall_forall in Hout, Hnew, Hg.
      specialize (Hout c Hc). specialize (Hnew d Hd2) as ((_ & Hds & _) & Hd3 & Hd4).
      destruct (Hg c Hc) as (_ & Hcs & _). pose proof (page_size c.2). pose proof (page_size d.2).
      unfold outside in Hout. lia.
    + rewrite reverse_Permutation. apply sorted_NoDup. by eapply tiles_sorted.
Qed.

(** ** Allocation *)
Lemma shl_1u_pow n : 0 ≤ n < 32 → shl_1u n = 2 ^ n.
Proof.
  intros Hn. unfold shl_1u. rewrite Z.mod_small, Z.shiftl_1_l by lia. apply u32_id. unfold is_u32.
  pose proof (Z.pow_pos_nonneg 2 n). pose proof (Z.pow_lt_mono_r 2 n 32). lia.
Qed.

(** The sizes that [1u << log2size] can express. *)
Definition small (c : Z * Z) : Prop := 0 ≤ c.2 < 32.

Lemma first_fit_ok s fuel size r l1 l2 :
  Forall good_chunk l2 → Forall small l2 → ref_at s r l1 l2 → (length l2 < fuel)%nat →
  ∃ r' la lb, l2 = la ++ lb ∧ ref_at s r' (l1 ++ la) lb ∧ Forall (λ c, 2 ^ c.2 < size) la ∧
    (∀ c, hd_error lb = Some c → size ≤ 2 ^ c.2) ∧
    first_fit fuel r (default 0 (fst <$> hd_error l2)) size s = Ok (r', default 0 (fst <$> hd_error lb)) s.
Proof.
  revert r l1 l2. induction fuel as [|fuel IH]; intros r l1 l2 Hg Hsm Hr Hf; [lia |]. cbn [first_fit].
  destruct l2 as [|[c n] l2].
  - exists r, [], []. rewrite (app_nil_r l1). split_and!; try done.
  - change (default 0 (fst <$> hd_error ((c, n) :: l2))) with c. pose proof Hg as [[Hc0 _] Hg2]%Forall_cons. apply Forall_cons in Hsm as [Hn Hsm]. simpl in Hc0.
    unfold small in Hn. simpl in Hn. rewrite bool_decide_eq_true_2 by lia.
    assert (chunks (memory s) c ((c, n) :: l2)) as (_ & _ & Hw & Hl).
    { destruct r; simpl in Hr; [destruct Hr as [_ Hr] | destruct Hr as (? & ? & _ & Hr)]; destruct Hr as [_ Hr]; by split. }
    rewrite (bind_ok (load (log2size c)) _ s n s) by (unfold load, gets; by rewrite Hw). rewrite shl_1u_pow by lia.
    destruct (decide (2 ^ n < size)) as [Hlt | Hlt].
    + rewrite bool_decide_eq_true_2 by done.
      rewrite (bind_ok (load (next c)) _ s (default 0 (fst <$> hd_error l2)) s)
        by (unfold load, gets; by rewrite <- (chunks_head _ _ _ Hl)).
      destruct (IH (NextOf c) (l1 ++ [(c, n)]) l2) as (r' & la & lb & -> & Hr' & Hla & Hlb & E); try done.
      { exists l1, n. done. }
      { simpl in Hf. lia. }
      exists r', ((c, n) :: la), lb. rewrite <- app_assoc in Hr'. split_and!; try done. by constructor.
    + rewrite bool_decide_eq_false_2 by done. exists r, [], ((c, n) :: l2). rewrite (app_nil_r l1).
      split_and!; try done. intros d [= <-]. simpl. lia.
Qed.

(** The rounds of the splitting loop that do nothing. *)
Lemma split_skip s k n c p l a remainder :
  12 ≤ a → a + Z.of_nat k = l → l < 32 → 0 < remainder < 2 ^ (a + 1) → (k ≤ n)%nat →
  split_remainder n c p l remainder s = split_remainder (n - k) c p a remainder s.
Proof.
  revert n l. induction k as [|k IH]; intros n l Ha Hl H32 Hr Hn.
  - replace a with l by lia. by rewrite Nat.sub_0_r.
  - destruct n as [|n]; [lia |]. cbn [split_remainder]. rewrite bool_decide_eq_true_2 by lia.
    pose proof (Z.pow_le_mono_r 2 (a + 1) l).
    rewrite shl_1u_pow by lia. rewrite bool_decide_eq_false_2 by lia.
    rewrite IH by lia. done.
Qed.

Lemma split_done s n c p l : split_remainder n c p l 0 s = Ok () s.
Proof. destruct n; cbn [split_remainder]; [done |]. by rewrite bool_decide_eq_false_2 by lia. Qed.

(** No two chunks of the list have memory in common. *)
Definition apart (l : list (Z * Z)) : Prop := ∀ c d, c ∈ l → d ∈ l → c.1 < d.1 → c.1 + 2 ^ c.2 ≤ d.1.

(** The state between two calls: [l] is free, sorted and disjoint. *)
Record well_formed (s : allocator) (l : list (Z * Z)) : Prop := {
  wf_lists : lists s l [];
  wf_apart : apart l;
}.

Lemma apart_perm l l' : l ≡ₚ l' → apart l → apart l'.
Proof. intros Hp H c d. rewrite <- Hp. apply H. Qed.

Lemma apart_tiles l p e new : apart l → Forall good_chunk l → Forall (outside p e) l → tiles p e new → apart (l ++ new).
Proof.
  intros Ha Hgl Ho Ht. pose proof (tiles_bounds _ _ _ Ht) as [_ Hb]. pose proof (tiles_sorted _ _ _ Ht) as Hs.
  rewrite Forall_forall in Ho, Hb, Hgl.
  assert (∀ c, c ∈ l → 0 < 2 ^ c.2) as Hpos.
  { intros c Hc. destruct (Hgl c Hc) as (_ & ? & _). pose proof (page_size c.2). lia. }
  intros c d [Hc | Hc]%elem_of_app [Hd | Hd]%elem_of_app Hlt.
  - by apply Ha.
  - destruct (Hb d Hd) as (Hgd & ? & ?). destruct Hgd as (_ & ? & _). pose proof (page_size d.2).
    destruct (Ho c Hc); lia.
  - destruct (Hb c Hc) as (_ & ? & ?). specialize (Hpos d Hd). destruct (Ho d Hd); lia.
  - clear -Ht Hc Hd Hlt. revert p Ht Hc Hd. induction new as [|[a s] new IH]; intros p; [by intros _ ?%not_elem_of_nil |].
    intros (-> & Hg & Ht) Hc Hd. pose proof (tiles_bounds _ _ _ Ht) as [_ Hb]. rewrite Forall_forall in Hb.
    destruct Hg as (_ & Hs & _). simpl in Hs. pose proof (page_size s).
    apply elem_of_cons in Hc as [-> | Hc]; apply elem_of_cons in Hd as [-> | Hd]; simpl in *.
    + lia.
    + apply Hb in Hd. lia.
    + apply Hb in Hc. lia.
    + by apply (IH (p + 2 ^ s)).
Qed.

(** In a sorted disjoint list, the others keep clear of each chunk. *)
Lemma apart_others l1 c l2 :
  StronglySorted by_address (l1 ++ c :: l2) → apart (l1 ++ c :: l2) →
  Forall (λ d, d.1 + 2 ^ d.2 ≤ c.1) l1 ∧ Forall (λ d, c.1 + 2 ^ c.2 ≤ d.1) l2.
Proof.
  intros Hs Ha. rewrite !Forall_forall. split; intros d Hd; apply Ha; try (rewrite elem_of_app; set_unfold; tauto).
  - eapply (StronglySorted_app_1_elem_of by_address l1 (c :: l2)); [done | done | by left].
  - apply StronglySorted_app in Hs as (_ & _ & Hs). apply StronglySorted_inv in Hs as [_ Hs].
    rewrite Forall_forall in Hs. by apply Hs.
Qed.

(** Replacing a chunk by pieces of its lower part. *)
Lemma replace_chunk s s' l1 c n l2 pieces e :
  well_formed s (l1 ++ (c, n) :: l2) → tiles c e pieces → e ≤ c + 2 ^ n →
  chunks (memory s') (available_chunks s') (l1 ++ pieces ++ l2) → freed_chunks s' = freed_chunks s →
  well_formed s' (l1 ++ pieces ++ l2) ∧ Forall (outside e (c + 2 ^ n)) (l1 ++ pieces ++ l2).
Proof.
  intros [[Hav Hf Hg Hs Hd] Hap] Ht He Hc Hfr. rewrite app_nil_r in Hg.
  destruct (apart_others _ _ _ Hs Hap) as [H1 H2]. simpl in H1, H2.
  apply Forall_app in Hg as [Hg1 [Hgc Hg2]%Forall_cons].
  pose proof (tiles_bounds _ _ _ Ht) as [Hce Hb]. pose proof (tiles_sorted _ _ _ Ht) as Hsp.
  assert (∀ d, d ∈ l1 ++ l2 → 0 < 2 ^ d.2) as Hpos.
  { intros d Hdl. rewrite Forall_forall in Hg1, Hg2.
    assert (good_chunk d) as (_ & ? & _) by (apply elem_of_app in Hdl as [|]; auto). pose proof (page_size d.2). lia. }
  assert (StronglySorted by_address (l1 ++ pieces ++ l2)) as Hsort.
  { apply StronglySorted_app in Hs as (Hx & Hs1 & Hs2). apply StronglySorted_inv in Hs2 as [Hs2 _].
    rewrite Forall_forall in H1, H2, Hb.
    apply StronglySorted_app_2; [|done|apply StronglySorted_app_2; [|done|done]].
    - intros x y Hx1 Hy. unfold by_address. specialize (Hpos x ltac:(rewrite elem_of_app; tauto)).
      specialize (H1 x Hx1). apply elem_of_app in Hy as [Hy | Hy]; [specialize (Hb y Hy); lia |].
      specialize (H2 y Hy). pose proof (page_size n ltac:(apply Hgc)). lia.
    - intros x y Hx1 Hy. unfold by_address. specialize (Hb x Hx1) as (Hgx & ? & ?). destruct Hgx as (_ & ? & _).
      pose proof (page_size x.2). specialize (H2 y Hy). lia. }
  split; [split; [split|] |].
  - done.
  - by rewrite Hfr.
  - rewrite app_nil_r. apply Forall_app. split; [done |]. apply Forall_app. split; [|done].
    eapply Forall_impl; [exact Hb |]. by intros d [? _].
  - done.
  - rewrite app_nil_r. by apply sorted_NoDup.
  - apply (apart_perm ((l1 ++ l2) ++ pieces)).
    { rewrite <- !app_assoc. by rewrite (Permutation_app_comm l2). }
    eapply apart_tiles; [| by apply Forall_app | | exact Ht].
    + intros x y Hx Hy. apply Hap; rewrite elem_of_app in *; set_unfold; tauto.
    + apply Forall_app. split; [eapply Forall_impl; [exact H1 |] | eapply Forall_impl; [exact H2 |]];
        intros d Hd1; unfold outside; simpl in Hd1; lia.
  - apply Forall_app. split; [|apply Forall_app; split].
    + eapply Forall_impl; [exact H1 |]. intros d Hd1. unfold outside. simpl in Hd1. lia.
    + eapply Forall_impl; [exact Hb |]. intros d Hd1. unfold outside. simpl in Hd1. lia.
    + eapply Forall_impl; [exact H2 |]. intros d Hd1. unfold outside. simpl in Hd1. lia.
Qed.

Lemma first_unique {B} (P : B → Prop) l1 x l2 la lb :
  l1 ++ x :: l2 = la ++ lb → Forall P l1 → ¬ P x → Forall P la → (∀ c, hd_error lb = Some c → ¬ P c) →
  la = l1 ∧ lb = x :: l2.
Proof.
  revert la. induction l1 as [|y l1 IH]; intros [|z la] E H1 Hx Ha Hb; simpl in *; simplify_eq.
  - done.
  - by apply Forall_cons in Ha as [? _].
  - exfalso. apply Forall_cons in H1 as [Hy _]. by apply (Hb y).
  - apply Forall_cons in H1 as [_ H1]. apply Forall_cons in Ha as [_ Ha].
    destruct (IH la) as [-> ->]; try done.
Qed.

(** Changing the size in the header of a chunk. *)
Lemma chunks_resize m head l1 c n l2 a :
  Forall good_chunk (l1 ++ (c, n) :: l2) → NoDup (l1 ++ (c, n) :: l2).*1 →
  chunks m head (l1 ++ (c, n) :: l2) → chunks (<[log2size c := a]> m) head (l1 ++ (c, a) :: l2).
Proof.
  revert head. induction l1 as [|[x s] l1 IH]; intros head Hg Hd; cbn [app chunks].
  - intros (-> & Hc & Hn & Hl). rewrite word_insert_eq, word_insert_ne by (unfold next, log2size; lia).
    split_and!; try done. simpl in Hg, Hd. apply Forall_cons in Hg as [Hgc Hg]. apply NoDup_cons in Hd as [Hnc Hd].
    eapply (chunks_store _ _ _ c); [by apply good_page in Hgc | done | done | by left | done].
  - intros (-> & Hx & Hs & Hl). simpl in Hg, Hd. apply Forall_cons in Hg as [Hgx Hg]. apply NoDup_cons in Hd as [Hnx Hd].
    assert (c mod 4096 = 0) as Hcp.
    { apply Forall_app in Hg as [_ [Hgc _]%Forall_cons]. by apply good_page in Hgc. }
    assert (x ≠ c) as Hxc.
    { intros ->. apply Hnx. rewrite fmap_app. apply elem_of_app. right. by left. }
    apply good_page in Hgx. destruct (headers_apart c x) as (H1 & H2 & H3 & H4); try done.
    rewrite !word_insert_ne by (unfold next, log2size in *; lia). split_and!; try done. by apply IH.
Qed.

(** What is left of a chunk of [2 ^ n] bytes is one or two powers of two. *)
Definition two_pieces (remainder : Z) (ps : list Z) : Prop :=
  (∃ a, 12 ≤ a ∧ remainder = 2 ^ a ∧ ps = [a]) ∨
  (∃ a b, 12 ≤ b < a ∧ remainder = 2 ^ a + 2 ^ b ∧ ps = [a; b]).

Lemma store_ok s a v : store a v s = Ok () (set_memory (<[a := v]> (memory s)) s).
Proof. done. Qed.
Lemma load_ok s a : load a s = Ok (word (memory s) a) s.
Proof. done. Qed.

Lemma pow_range a n : 0 ≤ a < n → n ≤ 31 → 0 < 2 ^ a < 2 ^ 31 ∧ 2 ^ (a + 1) ≤ 2 ^ n.
Proof.
  intros Ha Hn. pose proof (Z.pow_pos_nonneg 2 a). pose proof (Z.pow_lt_mono_r 2 a 31).
  pose proof (Z.pow_le_mono_r 2 (a + 1) n). lia.
Qed.

Lemma aligned_add_pow c a b n : 0 ≤ b ≤ a → a ≤ n → c mod 2 ^ n = 0 → (c + 2 ^ a) mod 2 ^ b = 0.
Proof.
  intros Hb Ha Hc. apply (aligned_step c b n) in Hc; [|lia].
  pose proof (Z.pow_pos_nonneg 2 b).
  replace (2 ^ a) with (2 ^ (a - b) * 2 ^ b) by (rewrite <- Z.pow_add_r by lia; f_equal; lia).
  by rewrite Z_mod_plus_full.
Qed.

(** The rounds that find a power of two in the remainder. *)
Lemma split_last s n c p l a :
  12 ≤ a ≤ l → l < 32 → (Z.to_nat (l - a) < n)%nat →
  split_remainder n c p l (2 ^ a) s = Ok () (set_memory (<[log2size p := a]> (memory s)) s).
Proof.
  intros Ha Hl Hn. pose proof (Z.pow_pos_nonneg 2 a). pose proof (Z.pow_lt_mono_r 2 a (a + 1)).
  rewrite (split_skip s (Z.to_nat (l - a)) n c p l a) by lia.
  destruct (n - Z.to_nat (l - a))%nat as [|k] eqn:Ek; [lia |]. cbn [split_remainder].
  rewrite bool_decide_eq_true_2 by lia. rewrite shl_1u_pow by lia. rewrite bool_decide_eq_true_2 by lia.
  rewrite (bind_ok _ _ _ _ _ (store_ok _ _ _)), Z.sub_diag. change (u64 0) with 0. cbv zeta.
  rewrite bool_decide_eq_false_2 by lia.   apply split_done.
Qed.

Lemma split_first s n c l a b :
  12 ≤ b < a → a ≤ l → l < 32 → (Z.to_nat (l - b) < n)%nat → 0 < c < 2 ^ 63 →
  let m1 := <[log2size c := a]> (memory s) in
  let m2 := <[next (c + 2 ^ a) := word m1 (next c)]> m1 in
  let m3 := <[next c := c + 2 ^ a]> m2 in
  split_remainder n c c l (2 ^ a + 2 ^ b) s =
    Ok () (set_memory (<[log2size (c + 2 ^ a) := b]> m3) s).
Proof.
  intros Hb Ha Hl Hn Hc. destruct (pow_range b a) as [? ?]; [lia | lia |].
  pose proof (pow_range a (a + 1)). pose proof (Z.pow_lt_mono_r 2 a 32).
  assert (2 ^ (a + 1) = 2 * 2 ^ a) as E2 by (rewrite Z.pow_add_r by lia; lia).
  pose proof (Z.pow_lt_mono_r 2 b a).
  rewrite (split_skip s (Z.to_nat (l - a)) n c c l a) by lia.
  destruct (n - Z.to_nat (l - a))%nat as [|k] eqn:Ek; [lia |]. cbn [split_remainder].
  rewrite bool_decide_eq_true_2 by lia. rewrite shl_1u_pow by lia. rewrite bool_decide_eq_true_2 by lia.
  rewrite (bind_ok _ _ _ _ _ (store_ok _ _ _)). replace (2 ^ a + 2 ^ b - 2 ^ a) with (2 ^ b) by lia.
  rewrite (u64_id (2 ^ b)) by (unfold is_u64; lia). cbv zeta. rewrite bool_decide_eq_true_2 by lia.
  rewrite (bind_ok _ _ _ _ _ (load_ok _ _)), !(bind_ok _ _ _ _ _ (store_ok _ _ _)).
  rewrite (u64_id (c + 2 ^ a)) by (unfold is_u64; lia).
  by rewrite split_last by lia.
Qed.

Lemma wf_chunk s l1 c n l2 :
  well_formed s (l1 ++ (c, n) :: l2) →
  Forall good_chunk (l1 ++ (c, n) :: l2) ∧ NoDup (l1 ++ (c, n) :: l2).*1 ∧ good_chunk (c, n).
Proof.
  intros [[_ _ Hg _ Hd] _]. rewrite app_nil_r in Hg, Hd. split_and!; try done.
  by apply Forall_app in Hg as [_ [? _]%Forall_cons].
Qed.

(** An address inside a free chunk is not that of another one. *)
Lemma wf_inside s l1 c n l2 x :
  well_formed s (l1 ++ (c, n) :: l2) → c < x < c + 2 ^ n → x ∉ (l1 ++ (c, n) :: l2).*1.
Proof.
  intros [[_ _ Hg Hs _] Hap] Hx Hin. destruct (apart_others _ _ _ Hs Hap) as [H1 H2]. simpl in H1, H2.
  rewrite app_nil_r in Hg. rewrite Forall_forall in H1, H2, Hg.
  apply list_elem_of_fmap in Hin as (d & -> & Hd). pose proof (Hg d Hd) as (_ & Hds & _). pose proof (page_size d.2).
  apply elem_of_app in Hd as [Hd | [-> | Hd]%elem_of_cons].
  - specialize (H1 d Hd). lia.
  - simpl in Hx. lia.
  - specialize (H2 d Hd). lia.
Qed.

(** Linking a new chunk behind [c]. *)
Lemma chunks_insert m head l1 c n l2 a x b :
  Forall good_chunk (l1 ++ (c, n) :: l2) → Forall good_chunk (l1 ++ (c, a) :: l2) → NoDup (l1 ++ (c, n) :: l2).*1 →
  x mod 4096 = 0 → x ≠ 0 → x ∉ (l1 ++ (c, n) :: l2).*1 → chunks m head (l1 ++ (c, n) :: l2) →
  let m1 := <[log2size c := a]> m in
  let m2 := <[next x := word m1 (next c)]> m1 in
  let m3 := <[next c := x]> m2 in
  chunks (<[log2size x := b]> m3) head (l1 ++ (c, a) :: (x, b) :: l2).
Proof.
  intros Hg Hga Hd Hxp Hx0 Hx Hc m1 m2 m3.
  assert (chunks m1 head (l1 ++ (c, a) :: l2)) as Hc1 by by apply (chunks_resize _ _ _ _ n).
  assert ((l1 ++ (c, a) :: l2).*1 = (l1 ++ (c, n) :: l2).*1) as Hfst by by rewrite !fmap_app.
  assert (c mod 4096 = 0 ∧ Forall good_chunk l2 ∧ Forall good_chunk (l1 ++ [(c, a)])) as (Hcp & Hg2 & Hg1).
  { apply Forall_app in Hga as [? [Hgc ?]%Forall_cons]. split; [by apply good_page in Hgc |].
    split; [done |]. apply Forall_app. split; [done |]. by constructor. }
  rewrite fmap_app in Hd. simpl in Hd. apply NoDup_app in Hd as (Hd1 & Hdis & [Hcl2 Hd2]%NoDup_cons).
  assert (x ≠ c ∧ (x ∉ l2.*1)) as [Hxc Hxl2].
  { rewrite fmap_app in Hx. apply not_elem_of_app in Hx as [_ [? ?]%not_elem_of_cons]. done. }
  destruct (headers_apart c x) as (N1 & N2 & N3 & N4); try done.
  unfold m3. rewrite insert_insert_ne by done.
  apply (chunks_relink _ _ l1 c a l2); [done | | |].
  - rewrite fmap_app. apply NoDup_snoc. split; [done |]. intros Hin. apply (Hdis c Hin). by left.
  - eapply (chunks_store _ _ _ x); [done | done | by rewrite Hfst | by left |].
    eapply (chunks_store _ _ _ x); [done | done | by rewrite Hfst | by right | done].
  - apply chunks_app in Hc1. cbn [chunks]. split_and!; [done | done | |].
    + by rewrite word_insert_ne, word_insert_eq.
    + rewrite word_insert_ne by done. rewrite word_insert_ne by (unfold next, log2size; lia).
      unfold m2. rewrite word_insert_eq.
      eapply (chunks_store _ _ _ c); [done | done | done | by right |].
      eapply (chunks_store _ _ _ x); [done | done | done | by left |].
      eapply (chunks_store _ _ _ x); [done | done | done | by right | done].
Qed.

Lemma aligned_fits c n : 0 ≤ n ≤ 63 → c < 2 ^ 63 → c mod 2 ^ n = 0 → c + 2 ^ n ≤ 2 ^ 63.
Proof.
  intros Hn Hc Ha. pose proof (Z.pow_pos_nonneg 2 n ltac:(lia) ltac:(lia)) as Hpos.
  assert (2 ^ 63 = 2 ^ (63 - n) * 2 ^ n) as E by (rewrite <- Z.pow_add_r by lia; f_equal; lia).
  apply Z.mod_divide in Ha as [q ->]; [|lia]. rewrite E in *.
  assert (q < 2 ^ (63 - n)) by (apply (Z.mul_lt_mono_pos_r (2 ^ n)); lia).
  replace (q * 2 ^ n + 2 ^ n) with ((q + 1) * 2 ^ n) by lia. apply Z.mul_le_mono_nonneg_r; lia.
Qed.

Lemma split_remainder_ok s l1 c n l2 remainder ps :
  well_formed s (l1 ++ (c, n) :: l2) → n < 32 → two_pieces remainder ps → remainder < 2 ^ n →
  ∃ s' pieces, split_remainder (Z.to_nat n) c c (n - 1) remainder s = Ok () s' ∧ tiles c (c + remainder) pieces ∧
    chunks (memory s') (available_chunks s') (l1 ++ pieces ++ l2) ∧ freed_chunks s' = freed_chunks s.
Proof.
  intros Hwf Hn Hp Hr. destruct (wf_chunk _ _ _ _ _ Hwf) as (Hg & Hd & Hgc).
  pose proof Hgc as (Hc0 & Hns & Hal). simpl in Hc0, Hns, Hal. pose proof (lists_available _ _ _ (wf_lists _ _ Hwf)) as Hav.
  assert (∀ a, 12 ≤ a → 2 ^ a < 2 ^ n → a < n) as Hlt.
  { intros a Ha Hp2. destruct (decide (a < n)); [done |]. pose proof (Z.pow_le_mono_r 2 n a). lia. }
  destruct Hp as [(a & Ha & -> & ->) | (a & b & Hb & -> & ->)].
  - specialize (Hlt a Ha Hr). rewrite split_last by lia. eexists _, [(c, a)]. split; [done |].
    split; [|split; [by apply (chunks_resize _ _ _ _ n) | done]]. split_and!; [done | | done].
    split_and!; simpl; try lia. eapply aligned_step; [|exact Hal]. lia.
  - pose proof (Z.pow_pos_nonneg 2 b). specialize (Hlt a ltac:(lia) ltac:(lia)).
    pose proof (Z.pow_pos_nonneg 2 a). rewrite split_first by lia. set (x := c + 2 ^ a).
    pose proof (aligned_add_pow c a b n ltac:(lia) ltac:(lia) Hal) as Hxb. fold x in Hxb.
    assert (x ∉ (l1 ++ (c, n) :: l2).*1) as Hx by (eapply wf_inside; [done |]; unfold x; lia).
    assert (good_chunk (x, b)) as Hgx.
    { split; [|split; [simpl; lia | exact Hxb]]. cbn [fst].
      assert (c + 2 ^ n ≤ 2 ^ 63); [|unfold x; lia].
      apply aligned_fits; [lia | lia | done]. }
    assert (x mod 4096 = 0) as Hxp by by apply good_page in Hgx.
    assert (good_chunk (c, a)) as Hga.
    { split_and!; simpl; try lia. eapply aligned_step; [|exact Hal]. lia. }
    eexists _, [(c, a); (x, b)]. split; [done |].
    split; [|split; [|done]].
    + cbn [tiles]. split_and!; try done. unfold x. lia.
    + eapply chunks_insert; try done; [|unfold x; lia].
      apply Forall_app in Hg as [? [_ ?]%Forall_cons]. apply Forall_app. split; [done |]. by constructor.
Qed.

Lemma allocate_found s fuel size l1 c n l2 :
  well_formed s (l1 ++ (c, n) :: l2) → Forall small (l1 ++ (c, n) :: l2) →
  Forall (λ d, 2 ^ d.2 < size) l1 → size ≤ 2 ^ n → (length (l1 ++ (c, n) :: l2) < fuel)%nat →
  ∃ r, ref_at s r l1 ((c, n) :: l2) ∧
    first_fit fuel AvailableChunks (available_chunks s) size s = Ok (r, c) s ∧
    word (memory s) (log2size c) = n ∧ c ≠ 0.
Proof.
  intros Hwf Hsm H1 Hn Hf. pose proof (wf_lists _ _ Hwf) as [Hav _ Hg _ _]. rewrite app_nil_r in Hg.
  destruct (first_fit_ok s fuel size AvailableChunks [] (l1 ++ (c, n) :: l2))
    as (r & la & lb & El & Hr & Hla & Hlb & E); try done.
  destruct (first_unique (λ d, 2 ^ d.2 < size) l1 (c, n) l2 la lb) as [-> ->]; try done.
  { simpl. lia. }
  { intros d Hd. specialize (Hlb d Hd). simpl. lia. }
  exists r. rewrite <- (chunks_head _ _ _ Hav) in E. split; [done |]. split; [done |].
  clear -Hav. generalize dependent (available_chunks s). induction l1 as [|[a x] l1 IH]; intros h; cbn [app chunks].
  - by intros (-> & ? & ? & _).
  - intros (_ & _ & _ & ?). by eapply IH.
Qed.

(** ** An example: one chunk of 32kB at 0x8000 *)
Definition empty_allocator : allocator := Allocator ∅ 0 0.
Definition one_chunk : allocator := Allocator {[ log2size 0x8000 := 15 ]} 0 0x8000.

Lemma empty_well_formed : well_formed empty_allocator [].
Proof. split; [split; try done; constructor |]. by intros c d ?%not_elem_of_nil. Qed.

Lemma one_chunk_well_formed : well_formed one_chunk [(0x8000, 15)].
Proof.
  split; [split|].
  - done.
  - done.
  - repeat constructor; done.
  - repeat constructor.
  - repeat constructor; set_solver.
  - intros c d ->%list_elem_of_singleton ->%list_elem_of_singleton. simpl. lia.
Qed.

(** ** Theorems *)

(** C15: Giving the allocator a page-aligned area turns it into chunks of 4kB to 16GB,
    each a power of two and aligned to its own size, that cover the area from its
    first byte to its last without gap or overlap; all of them are then available,
    with those that were before, in one list that is sorted by address and disjoint.
    The nested loops end: one round per page of the area is enough. *)
Theorem free_area_tiled s fuel p e l :
  well_formed s l → p mod 4096 = 0 → e mod 4096 = 0 → 0 < p ≤ e → e < 2 ^ 63 → Forall (outside p e) l →
  4096 * Z.of_nat (length l) + (e - p) < 4096 * Z.of_nat fuel →
  ∃ s' l' new, entry fuel 0 0 p e s = Ok 0 s' ∧ tiles p e new ∧ well_formed s' l' ∧ l' ≡ₚ l ++ new.
Proof.
  intros [Hl Ha] Hp He H0 H63 Ho Hf.
  destruct (make_list_ok s fuel p e l) as (s1 & new & E1 & Ht & Hl1); try done; [lia |].
  pose proof (tiles_length _ _ _ Ht) as Hlen.
  destruct (make_available_loop_ok s1 fuel fuel l (reverse new)) as (l' & s2 & E2 & Hl2 & Hp2);
    [done | rewrite length_reverse; lia | rewrite length_reverse; lia |].
  rewrite reverse_Permutation in Hp2.
  exists s2, l', new. unfold entry. rewrite bool_decide_eq_true_2 by done.
  erewrite bind_ok by exact E1. erewrite bind_ok by exact E2. split_and!; try done. split; [done |].
  eapply apart_perm; [symmetry; exact Hp2 |]. eapply apart_tiles; try done.
  pose proof (lists_good _ _ _ Hl) as Hg. by rewrite app_nil_r in Hg.
Qed.

Lemma free_area_tiled_witness :
  ∃ s' l' new, entry 100 0 0 0x3000 0x10000 empty_allocator = Ok 0 s' ∧ tiles 0x3000 0x10000 new ∧
    well_formed s' l' ∧ l' ≡ₚ new.
Proof.
  apply (free_area_tiled empty_allocator 100 0x3000 0x10000 []);
    [apply empty_well_formed | done | done | done | done | constructor | done].
Defined.

(** Releasing a chunk that is not in the available list inserts it there in order
    of address, and changes nothing but the [next] of chunks. *)
Theorem release_free_chunk_sorted s fuel p n l :
  well_formed s l → good_chunk (p, n) → word (memory s) (log2size p) = n → p ∉ l.*1 → (length l < fuel)%nat →
  ∃ l1 l2 s', l = l1 ++ l2 ∧ release_free_chunk fuel p s = Ok () s' ∧
    chunks (memory s') (available_chunks s') (l1 ++ (p, n) :: l2) ∧
    StronglySorted by_address (l1 ++ (p, n) :: l2) ∧ only_next ((p, n) :: l1) s s'.
Proof.
  intros [[Hav _ Hg Hs Hd] _] Hp Hn Hin Hf. rewrite app_nil_r in Hg, Hd.
  destruct (release_free_chunk_place s fuel p n l) as (l1 & l2 & s' & -> & H1 & H2 & E & Hc & Ho); try done.
  exists l1, l2, s'. split_and!; try done. by apply sorted_insert.
Qed.

Lemma release_free_chunk_sorted_witness :
  ∃ s', release_free_chunk 5 0x20000 (set_memory (<[log2size 0x20000 := 12]> (memory one_chunk)) one_chunk) = Ok () s' ∧
    ∃ l1 l2, [(0x8000, 15)] = l1 ++ l2 ∧ chunks (memory s') (available_chunks s') (l1 ++ (0x20000, 12) :: l2).
Proof.
  destruct (release_free_chunk_sorted (set_memory (<[log2size 0x20000 := 12]> (memory one_chunk)) one_chunk)
    5 0x20000 12 [(0x8000, 15)]) as (l1 & l2 & s' & El & E & Hc & _).
  - split; [split|].
    + done.
    + done.
    + repeat constructor; done.
    + repeat constructor.
    + repeat constructor; set_solver.
    + intros c d ->%list_elem_of_singleton ->%list_elem_of_singleton. simpl. lia.
  - done.
  - done.
  - simpl. intros [? | []%not_elem_of_nil]%elem_of_cons. lia.
  - simpl. lia.
  - exists s'. split; [done |]. by exists l1, l2.
Defined.

(** The effect of an allocation that succeeds. *)
Lemma allocate_takes_first s fuel size l1 c n l2 ps :
  well_formed s (l1 ++ (c, n) :: l2) → Forall small (l1 ++ (c, n) :: l2) →
  Forall (λ d, 2 ^ d.2 < size) l1 → 0 < size ≤ 2 ^ n → (length (l1 ++ (c, n) :: l2) < fuel)%nat →
  size = 2 ^ n ∨ two_pieces (2 ^ n - size) ps →
  ∃ s' pieces, allocate fuel size s = Ok (c + (2 ^ n - size)) s' ∧ tiles c (c + (2 ^ n - size)) pieces ∧
    well_formed s' (l1 ++ pieces ++ l2) ∧ Forall (outside (c + (2 ^ n - size)) (c + 2 ^ n)) (l1 ++ pieces ++ l2).
Proof.
  intros Hwf Hsm H1 Hn Hf Hps. destruct (allocate_found s fuel size l1 c n l2) as (r & Hr & E & Hw & Hc0); try done; [lia |].
  assert (0 ≤ n < 32) as H32 by (by apply Forall_app in Hsm as [_ [? _]%Forall_cons]).
  pose proof (Z.pow_lt_mono_r 2 n 32) as Hp32.
  unfold allocate. rewrite gets_ok. erewrite bind_ok by exact E. cbv beta iota.
  rewrite bool_decide_eq_true_2 by done. rewrite (bind_ok _ _ _ _ _ (load_ok _ _)), Hw, shl_1u_pow by done.
  destruct (wf_chunk _ _ _ _ _ Hwf) as (Hg & Hd & Hgc). pose proof Hgc as (Hcr & _ & Hal). simpl in Hcr, Hal.
  pose proof (lists_available _ _ _ (wf_lists _ _ Hwf)) as Hav.
  destruct (decide (size = 2 ^ n)) as [-> | Hne].
  - rewrite bool_decide_eq_true_2 by done. rewrite (bind_ok _ _ _ _ _ (load_ok _ _)).
    rewrite fmap_app in Hd. simpl in Hd. apply NoDup_app in Hd as (Hd1 & Hdis & _).
    apply Forall_app in Hg as [Hg1 [_ Hg2]%Forall_cons].
    destruct (store_ref_ok s r l1 ((c, n) :: l2) (word (memory s) (next c)) l2) as (s' & E' & Hc' & Ho); try done.
    { by eapply chunks_app. }
    { intros d Hd Hdl. apply (Hdis d Hd). by right. }
    exists s', []. erewrite bind_ok by exact E'. rewrite Z.sub_diag, Z.add_0_r. split; [done |]. split; [done |].
    apply (replace_chunk s s' l1 c n l2 [] c); try done; [lia |]. apply Ho.
  - rewrite bool_decide_eq_false_2 by lia. destruct Hps as [? | Hps]; [done |].
    rewrite s32_id by lia. rewrite u32_id by (unfold is_u32; lia).
    destruct (split_remainder_ok s l1 c n l2 (2 ^ n - size) ps) as (s' & pieces & E' & Ht & Hc' & Hfr); try done; [lia | lia |].
    exists s', pieces. erewrite bind_ok by exact E'.
    pose proof (aligned_fits c n ltac:(lia) ltac:(lia) Hal). rewrite u64_id by (unfold is_u64; lia).
    split; [done |]. split; [done |]. apply (replace_chunk s s' l1 c n l2 pieces (c + (2 ^ n - size))); try done; lia.
Qed.

(** C16: For a size that is the whole of the first chunk that is large enough, or leaves one
    or two powers of two of it: allocation takes that chunk and returns its top.  When the
    chunk fits exactly it leaves the list, and otherwise the one or two powers of two
    take its place, aligned, and cover the rest exactly.  The list stays sorted and disjoint
    and keeps clear of the block handed out.  (What happens when the rest is three or more
    powers of two is [allocate_hands_out_twice].) *)
Theorem allocate_first_fit s fuel size l1 c n l2 ps :
  well_formed s (l1 ++ (c, n) :: l2) → Forall small (l1 ++ (c, n) :: l2) →
  Forall (λ d, 2 ^ d.2 < size) l1 → 0 < size ≤ 2 ^ n → (length (l1 ++ (c, n) :: l2) < fuel)%nat →
  size = 2 ^ n ∨ two_pieces (2 ^ n - size) ps →
  ∃ s' pieces, allocate fuel size s = Ok (c + (2 ^ n - size)) s' ∧ tiles c (c + (2 ^ n - size)) pieces ∧
    well_formed s' (l1 ++ pieces ++ l2) ∧ Forall (outside (c + (2 ^ n - size)) (c + 2 ^ n)) (l1 ++ pieces ++ l2).
Proof. apply allocate_takes_first. Qed.

Lemma allocate_first_fit_witness :
  ∃ s' pieces, allocate 5 0x2000 one_chunk = Ok 0xe000 s' ∧ tiles 0x8000 0xe000 pieces ∧ well_formed s' pieces.
Proof.
  destruct (allocate_first_fit one_chunk 5 0x2000 [] 0x8000 15 [] [14; 13]) as (s' & pieces & E & Ht & Hw & _).
  - apply one_chunk_well_formed.
  - by repeat constructor.
  - constructor.
  - done.
  - simpl. lia.
  - right. right. exists 14, 13. done.
  - exists s', pieces. rewrite app_nil_l, app_nil_r in Hw. done.
Defined.

(** Allocation fails, returning 0 and changing nothing, exactly when no chunk is
    large enough. *)
Theorem allocate_none_large_enough s fuel size l :
  well_formed s l → Forall small l → Forall (λ d, 2 ^ d.2 < size) l → (length l < fuel)%nat →
  allocate fuel size s = Ok 0 s.
Proof.
  intros Hwf Hsm Hl Hf. pose proof (wf_lists _ _ Hwf) as [Hav _ Hg _ _]. rewrite app_nil_r in Hg.
  destruct (first_fit_ok s fuel size AvailableChunks [] l) as (r & la & lb & El & _ & _ & Hlb & E); try done.
  assert (lb = []) as ->.
  { destruct lb as [|d lb]; [done |]. rewrite El in Hl. apply Forall_app in Hl as [_ [Hd _]%Forall_cons].
    specialize (Hlb d eq_refl). lia. }
  rewrite <- (chunks_head _ _ _ Hav) in E. unfold allocate. rewrite gets_ok. erewrite bind_ok by exact E. done.
Qed.

Lemma allocate_none_large_enough_witness : allocate 5 0x9000 one_chunk = Ok 0 one_chunk.
Proof.
  apply (allocate_none_large_enough one_chunk 5 0x9000 [(0x8000, 15)]);
    [apply one_chunk_well_formed | by repeat constructor | by repeat constructor | simpl; lia].
Defined.

(** When the remainder of a chunk needs three pieces they overlap, because each
    new piece is placed from the start of the chunk: after one page is taken from a
    free area of 32kB, the 16kB at 0x8000 are handed out and then the page at 0xa000,
    inside them, is handed out again. *)
Theorem allocate_hands_out_twice :
  match (_ ← entry 200 0 0 0x8000 0x10000; _ ← entry 200 0 1 0x1000 0; a ← entry 200 0 1 0x4000 0;
         _ ← entry 200 0 1 0x1000 0; _ ← entry 200 0 1 0x1000 0; b ← entry 200 0 1 0x1000 0;
         mret (a, b)) empty_allocator with
  | Ok (a, b) _ => a = 0x8000 ∧ b = 0xa000 ∧ within b (a, 14)
  | Stop _ _ => False
  end.
Proof. vm_compute. done. Qed.
