(* ===== verification/SystemDriver.v ===== *)
(** * The system driver

    [drivers/system.c]: the EL0 driver that provides memory blocks, maps, threads,
    services and interrupts to the other drivers, for the Pi 3 build (no [QEMU]).

    What the driver asks of the kernel ([make_special_request], the supervisor calls
    of [libdrivers.c]) and of the devices is the class [Platform]; the driver's own
    variables are the record [driver].  A method of the provided interfaces ends with
    its [__return] or [__exception] routine, neither of which comes back: its model
    returns a [reply].  [claim_lock( &vmb_lock )] on a free lock takes it; on a held
    one it spins.  Barriers and [wfi] have no effect on the state.

    A bit-field narrower than [int] is an [int] in an expression, so [<< 12] and
    [<< 4] overflow at 32 bits. *)

From S2P Require Import Prelude Vmsa SystemServices Maps.
Import Vmsa.

(** ** What the driver uses *)

(** The [make_special_request( ... )]s that the block tables need. *)
Class KernelHeap (E : Type) : Type := {
  request_read_interface : Z → M E Z;
  request_read_heap : Z → Z → M E (list Z);      (* offset, length in bytes *)
  request_write_heap : Z → list Z → M E unit;    (* offset, the words *)
}.

(** All of it. *)
Class Platform (E : Type) : Type := {
  platform_heap :: KernelHeap E;
  request_create_thread : Z → Z → M E Z;
  request_make_partner : M E unit;
  request_set_interrupt_thread : M E unit;
  request_add_device_page : Z → Z → M E unit;
  request_updated_map : M E unit;
  (** supervisor calls *)
  interface_to_return : Z → Z → M E Z;
  duplicate_to_return : Z → M E Z;
  isambard_call : Z → Z → Z → Z → M E Z;         (* object, call, p1, p2 *)
  gate_function : Z → Z → M E Z;
  yield_ : M E bool;
  (** devices: the QA7 registers by byte offset, and the generic timer *)
  qa7_read : Z → M E Z;
  qa7_write : Z → Z → M E unit;
  read_CNTFRQ : M E Z;
  read_CNTPCT : M E Z;
  write_CNTP_CVAL : Z → M E unit;
  write_CNTP_CTL : Z → M E unit;
}.

(** ** State *)
Record service : Type := Service { srv_service : Z; srv_type_crc : Z; srv_name_crc : Z }.

Record this_core : Type := ThisCore {
  number : Z;
  last_cval : Z;
  core_interrupts_count : Z;
  core_unidentified_count : Z;
}.

Record driver : Type := SysDriver {
  vmb_lock : bool;
  vmbs : list Z;                 (* vmbs[MAX_VMBS] *)
  services : list service;       (* services[50] *)
  free_service : Z;
  ms_ticks : Z;
  interrupt_handlers : list Z;   (* interrupt_handlers[12] *)
  interrupts_count : Z;
  unidentified_interrupts_count : Z;
  all_interrupts : Z;
  interrupts_handled : list Z;
  ticks_per_millisecond : Z;
  initial_interrupts_routing : Z;
  memory_manager : Z;
  allocatable_memory_base : Z;
  allocatable_memory_top : Z;
  board_initialised : bool;
  core_data : this_core;
}.

Definition MAX_VMBS : nat := 64.

Definition initial_driver : driver :=
  SysDriver false (replicate MAX_VMBS 0) (replicate 50 (Service 0 0 0)) 0 0 (replicate 12 0) 0 0 0
    [0; 1; 2; 3; 4; 5; 6; 7; 8; 9; 10; 11] 0 0xffffffff 0 0 0 false (ThisCore 0 0 0 0).

Definition set_vmb_lock (v : bool) (d : driver) : driver :=
  SysDriver v (vmbs d) (services d) (free_service d) (ms_ticks d) (interrupt_handlers d) (interrupts_count d)
    (unidentified_interrupts_count d) (all_interrupts d) (interrupts_handled d) (ticks_per_millisecond d)
    (initial_interrupts_routing d) (memory_manager d) (allocatable_memory_base d) (allocatable_memory_top d)
    (board_initialised d) (core_data d).
Definition set_vmbs (v : list Z) (d : driver) : driver :=
  SysDriver (vmb_lock d) v (services d) (free_service d) (ms_ticks d) (interrupt_handlers d) (interrupts_count d)
    (unidentified_interrupts_count d) (all_interrupts d) (interrupts_handled d) (ticks_per_millisecond d)
    (initial_interrupts_routing d) (memory_manager d) (allocatable_memory_base d) (allocatable_memory_top d)
    (board_initialised d) (core_data d).
Definition set_services (v : list service) (n : Z) (d : driver) : driver :=
  SysDriver (vmb_lock d) (vmbs d) v n (ms_ticks d) (interrupt_handlers d) (interrupts_count d)
    (unidentified_interrupts_count d) (all_interrupts d) (interrupts_handled d) (ticks_per_millisecond d)
    (initial_interrupts_routing d) (memory_manager d) (allocatable_memory_base d) (allocatable_memory_top d)
    (board_initialised d) (core_data d).
Definition set_ms_ticks (v : Z) (d : driver) : driver :=
  SysDriver (vmb_lock d) (vmbs d) (services d) (free_service d) v (interrupt_handlers d) (interrupts_count d)
    (unidentified_interrupts_count d) (all_interrupts d) (interrupts_handled d) (ticks_per_millisecond d)
    (initial_interrupts_routing d) (memory_manager d) (allocatable_memory_base d) (allocatable_memory_top d)
    (board_initialised d) (core_data d).
Definition set_interrupt_handlers (v : list Z) (d : driver) : driver :=
  SysDriver (vmb_lock d) (vmbs d) (services d) (free_service d) (ms_ticks d) v (interrupts_count d)
    (unidentified_interrupts_count d) (all_interrupts d) (interrupts_handled d) (ticks_per_millisecond d)
    (initial_interrupts_routing d) (memory_manager d) (allocatable_memory_base d) (allocatable_memory_top d)
    (board_initialised d) (core_data d).
Definition set_counts (a b c : Z) (d : driver) : driver :=
  SysDriver (vmb_lock d) (vmbs d) (services d) (free_service d) (ms_ticks d) (interrupt_handlers d) a b c
    (interrupts_handled d) (ticks_per_millisecond d) (initial_interrupts_routing d) (memory_manager d)
    (allocatable_memory_base d) (allocatable_memory_top d) (board_initialised d) (core_data d).
Definition set_interrupts_handled (v : list Z) (d : driver) : driver :=
  SysDriver (vmb_lock d) (vmbs d) (services d) (free_service d) (ms_ticks d) (interrupt_handlers d)
    (interrupts_count d) (unidentified_interrupts_count d) (all_interrupts d) v (ticks_per_millisecond d)
    (initial_interrupts_routing d) (memory_manager d) (allocatable_memory_base d) (allocatable_memory_top d)
    (board_initialised d) (core_data d).
Definition set_ticks_per_millisecond (v : Z) (d : driver) : driver :=
  SysDriver (vmb_lock d) (vmbs d) (services d) (free_service d) (ms_ticks d) (interrupt_handlers d)
    (interrupts_count d) (unidentified_interrupts_count d) (all_interrupts d) (interrupts_handled d) v
    (initial_interrupts_routing d) (memory_manager d) (allocatable_memory_base d) (allocatable_memory_top d)
    (board_initialised d) (core_data d).
Definition set_initial_interrupts_routing (v : Z) (d : driver) : driver :=
  SysDriver (vmb_lock d) (vmbs d) (services d) (free_service d) (ms_ticks d) (interrupt_handlers d)
    (interrupts_count d) (unidentified_interrupts_count d) (all_interrupts d) (interrupts_handled d)
    (ticks_per_millisecond d) v (memory_manager d) (allocatable_memory_base d) (allocatable_memory_top d)
    (board_initialised d) (core_data d).
Definition set_memory_manager (v base top : Z) (init : bool) (d : driver) : driver :=
  SysDriver (vmb_lock d) (vmbs d) (services d) (free_service d) (ms_ticks d) (interrupt_handlers d)
    (interrupts_count d) (unidentified_interrupts_count d) (all_interrupts d) (interrupts_handled d)
    (ticks_per_millisecond d) (initial_interrupts_routing d) v base top init (core_data d).
Definition set_core_data (v : this_core) (d : driver) : driver :=
  SysDriver (vmb_lock d) (vmbs d) (services d) (free_service d) (ms_ticks d) (interrupt_handlers d)
    (interrupts_count d) (unidentified_interrupts_count d) (all_interrupts d) (interrupts_handled d)
    (ticks_per_millisecond d) (initial_interrupts_routing d) (memory_manager d) (allocatable_memory_base d)
    (allocatable_memory_top d) (board_initialised d) v.

(** The driver and what it runs on. *)
Record sys (E : Type) : Type := Sys { drv : driver; platform : E }.
Arguments Sys {E} _ _.
Arguments drv {E} _.
Arguments platform {E} _.

(** How a method ends. *)
Inductive reply : Type :=
  | Return (result : Z)
  | ReturnNothing
  | Exception (code : Z).

Section with_state.
Context {E : Type}.

#[local] Abbreviation D := (M (sys E)).

Definition ask {A} (m : M E A) : D A := λ s,
  match m (platform s) with
  | Ok a e => Ok a (Sys (drv s) e)
  | Stop r e => Stop r (Sys (drv s) e)
  end.
Definition get_drv {A} (f : driver → A) : D A := gets (λ s, f (drv s)).
Definition upd_drv (f : driver → driver) : D unit := modify (λ s, Sys (f (drv s)) (platform s)).

(** [array[i]], out of bounds where the array has no such element. *)
Definition element {A} (l : list A) (i : Z) : D A :=
  match l !! Z.to_nat i with
  | Some a => if bool_decide (0 ≤ i) then mret a else halt (Fault i)
  | None => halt (Fault i)
  end.

(** [o.heap_offset_lsr4 << 4], at 32 bits. *)
Definition heap_offset_of (o : Z) : Z := u32 (Z.shiftl (get mv_heap_offset_lsr4 o) 4).

End with_state.

(** ** The block table of a map: [map_at] and [unmap] *)
Section with_heap.
Context {E : Type} `{!KernelHeap E}.

#[local] Abbreviation D := (M (sys E)).

(** [ReadHeap] into [vmbs], [WriteHeap] from it.  The array has 64 elements. *)
Definition read_vmbs (o : Z) : D unit :=
  let n := get mv_number_of_vmbs o in
  ws ← ask (request_read_heap (heap_offset_of o) (n * 8));
  _ ← guard_stop (bool_decide (64 < n)) (Fault n);
  upd_drv (λ d, set_vmbs (ws ++ drop (length ws) (vmbs d)) d).

Definition write_vmbs (o : Z) : D unit :=
  vs ← get_drv vmbs;
  ask (request_write_heap (heap_offset_of o) (take (Z.to_nat (get mv_number_of_vmbs o)) vs)).

Definition claim_vmb_lock : D unit :=
  held ← get_drv vmb_lock;
  _ ← guard_stop held (Spin 62);
  upd_drv (set_vmb_lock true).
Definition release_vmb_lock : D unit := upd_drv (set_vmb_lock false).

(** [vmbs[i].r = r] *)
Definition set_vmb (i : nat) (r : Z) : D unit :=
  vs ← get_drv vmbs;
  _ ← element vs (Z.of_nat i);
  upd_drv (set_vmbs (<[i := r]> vs)).

(** The loop of [map_at] from [i] on, [n] rounds left. *)
Fixpoint map_at_loop (n i : nat) (start page_count block : Z) : D unit :=
  match n with
  | O => mret ()
  | S n =>
      vs ← get_drv vmbs;
      v ← element vs (Z.of_nat i);
      if bool_decide (get vmb_page_count v = 0) then
        _ ← set_vmb i (vmb_make (Z.shiftr start 12) page_count 0 0 block v);
        set_vmb (i + 1) 0
      else map_at_loop n (i + 1) start page_count block
  end.

Definition MapValue__DRIVER_SYSTEM__map_at (o block start : Z) : D reply :=
  _ ← claim_vmb_lock;
  cmb ← ask (request_read_interface block);
  _ ← read_vmbs o;
  _ ← map_at_loop (Z.to_nat (get mv_number_of_vmbs o)) 0 start (get cmb_page_count cmb) block;
  _ ← write_vmbs o;
  _ ← release_vmb_lock;
  mret ReturnNothing.

(** [for (j = i; j < last && vmbs[j].r != 0; j++) vmbs[j].r = vmbs[j+1].r], with [n]
    rounds until [j] is [last]. *)
Fixpoint shift_vmbs (n j : nat) : D unit :=
  match n with
  | O => mret ()
  | S n =>
      vs ← get_drv vmbs;
      v ← element vs (Z.of_nat j);
      if bool_decide (v ≠ 0) then
        w ← element vs (Z.of_nat (j + 1));
        _ ← set_vmb j w;
        shift_vmbs n (j + 1)
      else mret ()
  end.

(** The loop of [unmap]; the result is [mapped_block]. *)
Fixpoint unmap_loop (n i : nat) (start number : Z) : D Z :=
  match n with
  | O => mret 0
  | S n =>
      vs ← get_drv vmbs;
      v ← element vs (Z.of_nat i);
      if bool_decide (get vmb_page_count v ≠ 0 ∧ get vmb_start_page v = Z.shiftr start 12) then
        _ ← shift_vmbs (Z.to_nat (number - 1 - Z.of_nat i)) i;
        _ ← set_vmb (i + 1) 0;
        mret (get vmb_memory_block v)
      else unmap_loop n (i + 1) start number
  end.

Definition MapValue__DRIVER_SYSTEM__unmap (o start : Z) : D reply :=
  _ ← claim_vmb_lock;
  _ ← read_vmbs o;
  let number := get mv_number_of_vmbs o in
  mapped_block ← unmap_loop (Z.to_nat number) 0 start number;
  _ ← write_vmbs o;
  _ ← release_vmb_lock;
  if bool_decide (mapped_block = 0) then mret (Exception 0xbadc0de3) else mret (Return mapped_block).

End with_heap.

Section with_platform.
Context {E : Type} `{!Platform E}.

#[local] Abbreviation D := (M (sys E)).

(** ** Interrupts *)
Definition board_remove_interrupt_handler (handler interrupt : Z) : D unit :=
  hs ← get_drv interrupt_handlers;
  h ← element hs interrupt;
  _ ← guard_stop (bool_decide (h ≠ handler)) (Brk 3);
  upd_drv (set_interrupt_handlers (<[Z.to_nat interrupt := 0]> hs)).

Definition board_register_interrupt_handler (handler interrupt : Z) : D unit :=
  _ ← guard_stop (bool_decide (12 ≤ interrupt)) (Brk 3);
  hs ← get_drv interrupt_handlers;
  h ← element hs interrupt;
  _ ← guard_stop (bool_decide (h ≠ 0)) (Brk 4);
  upd_drv (set_interrupt_handlers (<[Z.to_nat interrupt := handler]> hs)).

(** Byte offsets of the QA7 registers. *)
Definition QA7_control : Z := 0x00.
Definition QA7_timer_prescaler : Z := 0x08.
Definition QA7_GPU_interrupts_routing : Z := 0x0c.
Definition QA7_Core_timer_access_LS_32_bits : Z := 0x1c.
Definition QA7_Core_timer_access_MS_32_bits : Z := 0x20.
Definition QA7_Local_Interrupt_routing0 : Z := 0x24.
Definition QA7_Local_timer_control_and_status : Z := 0x34.
Definition QA7_Local_timer_write_flags : Z := 0x38.
Definition QA7_Core_timers_Interrupt_control (core : Z) : Z := 0x40 + 4 * core.
Definition QA7_Core_IRQ_Source (core : Z) : Z := 0x60 + 4 * core.

(** [interrupts_handled[i] += n] *)
Definition count_handled (i : nat) (n : Z) : D unit :=
  upd_drv (λ d, set_interrupts_handled (alter (λ c, u32 (c + n)) i (interrupts_handled d)) d).

Definition INTERRUPT_HANDLER__interrupt (handler call : Z) : D unit :=
  _ ← ask (isambard_call handler call 0 0); mret ().

(** The [for] loop over the twelve sources, from [i] on; [n] rounds are left. *)
Fixpoint call_handlers (n : nat) (call i sources : Z) : D unit :=
  match n with
  | O => mret ()
  | S n =>
      if bool_decide (sources ≠ 0) then
        if Z.testbit sources i then
          hs ← get_drv interrupt_handlers;
          h ← element hs i;
          _ ← (if bool_decide (h ≠ 0) then
                 _ ← count_handled (Z.to_nat i) 16;
                 INTERRUPT_HANDLER__interrupt h call
               else count_handled (Z.to_nat i) 0x10000);
          call_handlers n call (i + 1) (Z.ldiff sources (Z.shiftl 1 i))
        else call_handlers n call (i + 1) sources
      else mret ()
  end.

Definition timer_interrupt : D unit :=
  _ ← upd_drv (λ d, let c := core_data d in
        set_core_data (ThisCore (number c) (u64 (last_cval c + ticks_per_millisecond d))
          (core_interrupts_count c) (core_unidentified_count c)) d);
  v ← get_drv (λ d, last_cval (core_data d));
  _ ← ask (write_CNTP_CVAL v);
  _ ← upd_drv (λ d, set_ms_ticks (u64 (ms_ticks d + 1)) d);
  _ ← ask (gate_function 0 0);
  mret ().

(** [call] is the code of the method [INTERRUPT_HANDLER.interrupt]. *)
Definition board_call_interrupt_handlers (call : Z) : D unit :=
  _ ← upd_drv (λ d, let c := core_data d in
        set_counts (u64 (interrupts_count d + 1)) (unidentified_interrupts_count d) (all_interrupts d)
          (set_core_data (ThisCore (number c) (last_cval c) (u64 (core_interrupts_count c + 1))
            (core_unidentified_count c)) d));
  core ← get_drv (λ d, number (core_data d));
  sources ← ask (qa7_read (QA7_Core_IRQ_Source core));
  _ ← upd_drv (λ d, set_counts (interrupts_count d) (unidentified_interrupts_count d)
        (Z.lor (all_interrupts d) sources) d);
  sources ←
    (if bool_decide (sources = 0) then
       _ ← count_handled 0 0x100000;
       sources ← ask (qa7_read (QA7_Core_IRQ_Source core));
       _ ← when (bool_decide (sources = 0)) (
             upd_drv (λ d, let c := core_data d in
               set_counts (interrupts_count d) (u64 (unidentified_interrupts_count d + 1)) (all_interrupts d)
                 (set_core_data (ThisCore (number c) (last_cval c) (core_interrupts_count c)
                   (u64 (core_unidentified_count c + 1))) d)));
       mret sources
     else mret sources);
  _ ← when (Z.testbit sources 1) timer_interrupt;
  call_handlers 12 call 0 sources.

Definition core_timer_value : D Z :=
  lo ← ask (qa7_read QA7_Core_timer_access_LS_32_bits);
  hi ← ask (qa7_read QA7_Core_timer_access_MS_32_bits);
  mret (Z.lor lo (Z.shiftl hi 32)).

(** [device_pages] is the virtual address of the device page. *)
Definition board_initialise (device_pages : Z) : D unit :=
  _ ← ask (request_add_device_page 0x40000000 device_pages);
  r ← ask (qa7_read QA7_GPU_interrupts_routing);
  _ ← upd_drv (set_initial_interrupts_routing r);
  ask (qa7_write QA7_GPU_interrupts_routing 0).

Definition start_ms_timer : D unit :=
  _ ← ask (qa7_write QA7_Local_Interrupt_routing0 0);
  _ ← ask (qa7_write QA7_timer_prescaler 0x80000000);
  _ ← ask (qa7_write QA7_control (Z.shiftl 1 8));
  _ ← ask (qa7_write QA7_Local_timer_control_and_status (Z.lor (Z.shiftl 1 28) 100000));
  _ ← ask (qa7_write QA7_Local_timer_write_flags (Z.lor (Z.shiftl 1 31) (Z.shiftl 1 30)));
  _ ← ask (qa7_write (QA7_Core_IRQ_Source 0) 0xffd);
  _ ← ask (qa7_write (QA7_Core_IRQ_Source 1) 0x00d);
  _ ← ask (qa7_write (QA7_Core_IRQ_Source 2) 0x00d);
  _ ← ask (qa7_write (QA7_Core_IRQ_Source 3) 0x00d);
  core ← get_drv (λ d, number (core_data d));
  _ ← ask (qa7_write (QA7_Core_timers_Interrupt_control core) 2);
  frequency ← ask read_CNTFRQ;
  _ ← upd_drv (set_ticks_per_millisecond (u32 frequency / 1000));
  now ← ask read_CNTPCT;
  _ ← upd_drv (λ d, let c := core_data d in
        set_core_data (ThisCore (number c) (u64 (now + ticks_per_millisecond d)) (core_interrupts_count c)
          (core_unidentified_count c)) d);
  v ← get_drv (λ d, last_cval (core_data d));
  _ ← ask (write_CNTP_CVAL v);
  ask (write_CNTP_CTL 5).

(** ** Methods of [DRIVER_SYSTEM] and [SYSTEM] *)
Definition cmb_to_return (cmb : Z) : D Z :=
  ask (interface_to_return System_Service_PhysicalMemoryBlock cmb).

Definition MapValue__DRIVER_SYSTEM__get_device_page (o physical_address : Z) : D reply :=
  r ← cmb_to_return (cmb_make (Z.shiftr physical_address 12) 1 Device_nGnRnE);
  mret (Return r).

Definition MapValue__DRIVER_SYSTEM__get_physical_memory_block (o start size : Z) : D reply :=
  r ← cmb_to_return (cmb_make (Z.shiftr start 12) (Z.shiftr size 12) Fully_Cacheable);
  mret (Return r).

Definition MapValue__SYSTEM__create_thread (o code stack_top : Z) : D reply :=
  r ← ask (request_create_thread code stack_top);
  mret (Return r).

Definition MapValue__DRIVER_SYSTEM__physical_address_of (o va : Z) : D reply := mret (Exception 0xbadc0de2).

Definition MapValue__SYSTEM__register_service (o name_crc service type_crc : Z) : D reply :=
  n ← get_drv free_service;
  ss ← get_drv services;
  _ ← element ss n;
  _ ← upd_drv (set_services (<[Z.to_nat n := Service service type_crc name_crc]> ss) (n + 1));
  mret ReturnNothing.

(** The [while] loop over the services up to [free_service]. *)
Fixpoint get_service_loop (ss : list service) (name_crc type_crc : Z) : D reply :=
  match ss with
  | [] => mret (Return 0)
  | s :: ss =>
      if bool_decide (srv_name_crc s = name_crc ∧ (type_crc = 0 ∨ type_crc = srv_type_crc s)) then
        r ← ask (duplicate_to_return (srv_service s));
        mret (Return r)
      else get_service_loop ss name_crc type_crc
  end.

Definition MapValue__SYSTEM__get_service (o name_crc type_crc timeout : Z) : D reply :=
  n ← get_drv free_service;
  ss ← get_drv services;
  get_service_loop (take (Z.to_nat n) ss) name_crc type_crc.

Definition MapValue__DRIVER_SYSTEM__set_memory_top (o top : Z) : D reply :=
  m ← get_drv memory_manager;
  base ← get_drv allocatable_memory_base;
  _ ← ask (isambard_call m 0 base top);
  _ ← upd_drv (λ d, set_memory_manager (memory_manager d) (allocatable_memory_base d) top (board_initialised d) d);
  mret ReturnNothing.

Definition MapValue__SYSTEM__allocate_memory (o size : Z) : D reply :=
  top ← get_drv allocatable_memory_top;
  if bool_decide (top = 0) then mret (Exception 0) else
  m ← get_drv memory_manager;
  r ← ask (isambard_call m 1 size 0);
  if bool_decide (r ≠ 0) then
    b ← cmb_to_return (cmb_make (Z.shiftr r 12) (Z.shiftr size 12) Fully_Cacheable);
    mret (Return b)
  else mret (Return 0).

Definition MapValue__DRIVER_SYSTEM__get_core_interrupts_count (o : Z) : D reply :=
  c ← get_drv (λ d, core_interrupts_count (core_data d));
  mret (Return c).

Definition MapValue__DRIVER_SYSTEM__get_ms_timer_ticks (o : Z) : D reply :=
  t ← get_drv ms_ticks;
  mret (Return t).

Definition MapValue__DRIVER_SYSTEM__get_core_timer_value (o : Z) : D reply :=
  v ← core_timer_value;
  mret (Return v).

Definition MapValue__DRIVER_SYSTEM__register_interrupt_handler (o handler interrupt : Z) : D reply :=
  _ ← board_register_interrupt_handler handler (u32 interrupt);
  mret ReturnNothing.

Definition MapValue__DRIVER_SYSTEM__remove_interrupt_handler (o handler interrupt : Z) : D reply :=
  _ ← board_remove_interrupt_handler handler (u32 interrupt);
  mret ReturnNothing.

Definition MapValue__DRIVER_SYSTEM__make_partner_thread (o : Z) : D reply :=
  _ ← ask request_make_partner;
  mret ReturnNothing.

(** ** Methods of [PHYSICAL_MEMORY_BLOCK] *)
Definition ContiguousMemoryBlock__PHYSICAL_MEMORY_BLOCK__physical_address (cmb : Z) : D reply :=
  mret (Return (int_shl_12 (get cmb_start_page cmb))).

Definition ContiguousMemoryBlock__PHYSICAL_MEMORY_BLOCK__size (cmb : Z) : D reply :=
  mret (Return (int_shl_12 (get cmb_page_count cmb))).

Definition ContiguousMemoryBlock__PHYSICAL_MEMORY_BLOCK__is_read_only (cmb : Z) : D reply :=
  mret (Return (get cmb_read_only cmb)).

Definition ContiguousMemoryBlock__PHYSICAL_MEMORY_BLOCK__read_only_copy (cmb : Z) : D reply :=
  r ← cmb_to_return (put cmb_read_only 1 cmb);
  mret (Return r).

(** The new block: [start_page += offset >> 12], [page_count = size >> 12]. *)
Definition subblock_of (cmb offset size : Z) : Z :=
  let new_cmb := put cmb_is_subpage 1 cmb in
  let new_cmb := put cmb_start_page (get cmb_start_page new_cmb + Z.shiftr offset 12) new_cmb in
  put cmb_page_count (Z.shiftr size 12) new_cmb.

Definition ContiguousMemoryBlock__PHYSICAL_MEMORY_BLOCK__subblock (cmb offset size : Z) : D reply :=
  if bool_decide (0 ≠ Z.land offset 0xfff) then mret (Exception 0)
  else if bool_decide (0 ≠ Z.land size 0xfff) then mret (Exception 0)
  else
    r ← cmb_to_return (subblock_of cmb offset size);
    mret (Return r).

(** ** Threads *)
(** [for (;;) gate_function( 0, 0 )], for [n] rounds. *)
Fixpoint thread_exit (n : nat) : D unit :=
  match n with
  | O => halt (Spin 86)
  | S n => _ ← ask (gate_function 0 0); thread_exit n
  end.

Fixpoint interrupt_handler_thread (n : nat) (call : Z) : D unit :=
  match n with
  | O => halt (Spin 490)
  | S n =>
      _ ← ask request_set_interrupt_thread;
      _ ← board_call_interrupt_handlers call;
      interrupt_handler_thread n call
  end.

(** [handler_code] is the address of [interrupt_handler_thread], [stack_top] that of
    the end of its stack. *)
Definition create_interrupt_handler_thread (handler_code stack_top : Z) : D unit :=
  _ ← ask (request_create_thread handler_code stack_top);
  mret ().

Fixpoint idle_loop (n : nat) : D unit :=
  match n with
  | O => halt (Spin 590)
  | S n => _ ← ask yield_; idle_loop n
  end.

Definition idle_thread_setup (device_pages handler_code stack_top : Z)
    (memory_manager_map core_number first_free_page : Z) : D unit :=
  _ ← upd_drv (λ d, set_memory_manager (memory_manager d) first_free_page (allocatable_memory_top d) (board_initialised d) d);
  _ ← upd_drv (λ d, let c := core_data d in
        set_core_data (ThisCore (u32 core_number) (last_cval c) (core_interrupts_count c) (core_unidentified_count c)) d);
  _ ← (if bool_decide (u32 core_number = 0) then
         _ ← upd_drv (λ d, set_memory_manager memory_manager_map (allocatable_memory_base d) (allocatable_memory_top d)
               (board_initialised d) d);
         _ ← board_initialise device_pages;
         base ← get_drv allocatable_memory_base;
         _ ← ask (isambard_call memory_manager_map 0 base (256 * 1024 * 1024));
         upd_drv (λ d, set_memory_manager (memory_manager d) (allocatable_memory_base d) (512 * 1024 * 1024) true d)
       else
         ready ← get_drv board_initialised;
         _ ← guard_stop (negb ready) (Spin 575);
         ask request_updated_map);
  _ ← create_interrupt_handler_thread handler_code stack_top;
  when (bool_decide (u32 core_number = 0)) start_ms_timer.

Definition idle_thread_entry (n : nat) (device_pages handler_code stack_top : Z)
    (memory_manager_map core_number first_free_page : Z) : D unit :=
  _ ← idle_thread_setup device_pages handler_code stack_top memory_manager_map core_number first_free_page;
  idle_loop n.
End with_platform.

(** ** Block tables *)

(** What the kernel promises of its heap requests: the words of a block can be read
    and replaced, and neither reading them nor an interface changes them. *)
Class KernelHeapLaws (E : Type) `{!KernelHeap E} : Type := {
  heap_block : E → Z → list Z → Prop;
  interface_object : E → Z → Z → Prop;
  read_interface_law e i v off ws :
    interface_object e i v → heap_block e off ws →
    ∃ e', request_read_interface i e = Ok v e' ∧ heap_block e' off ws;
  read_heap_law e off ws :
    heap_block e off ws →
    ∃ e', request_read_heap off (Z.of_nat (length ws) * 8) e = Ok ws e' ∧ heap_block e' off ws;
  write_heap_law e off ws ws' :
    heap_block e off ws → length ws' = length ws →
    ∃ e', request_write_heap off ws' e = Ok () e' ∧ heap_block e' off ws';
}.

Section loops.
Context {E : Type}.
Implicit Types (s : sys E) (e : E) (d : driver) (vs ws : list Z).

Lemma ask_ok {A B} (m : M E A) (f : A → M (sys E) B) d e a e' :
  m e = Ok a e' → (ask m ≫= f) (Sys d e) = f a (Sys d e').
Proof. intros H. apply bind_ok. unfold ask. simpl. by rewrite H. Qed.

Lemma element_ok {A B} (l : list A) i a (f : A → M (sys E) B) s :
  0 ≤ i → l !! Z.to_nat i = Some a → (element l i ≫= f) s = f a s.
Proof. intros Hi Ha. unfold element. by rewrite Ha, bool_decide_eq_true_2. Qed.

Lemma set_vmb_ok i r s :
  (i < length (vmbs (drv s)))%nat →
  set_vmb i r s = Ok () (Sys (set_vmbs (<[i := r]> (vmbs (drv s))) (drv s)) (platform s)).
Proof.
  intros Hi. unfold set_vmb, get_drv. rewrite gets_ok.
  apply lookup_lt_is_Some_2 in Hi as [v Hv].
  by rewrite (element_ok _ _ v) by (lia || by rewrite Nat2Z.id).
Qed.

(** [map_at] fills the first word without pages and clears the one after it. *)
Lemma map_at_loop_fills d e pre vs v w rest start pages block n :
  vmbs d = pre ++ vs ++ v :: w :: rest →
  Forall (λ v, get vmb_page_count v ≠ 0) vs → get vmb_page_count v = 0 → (length vs < n)%nat →
  map_at_loop n (length pre) start pages block (Sys d e) =
    Ok () (Sys (set_vmbs (pre ++ vs ++ vmb_make (Z.shiftr start 12) pages 0 0 block v :: 0 :: rest) d) e).
Proof.
  revert pre vs. induction n as [|n IH]; intros pre vs Hd Hvs Hv Hn; [lia |]. cbn [map_at_loop].
  unfold get_drv. rewrite gets_ok. cbn [drv]. rewrite Hd. destruct Hvs as [|u vs Hu Hvs].
  - simpl app in *. rewrite (element_ok _ _ v) by (lia || by rewrite Nat2Z.id, list_lookup_middle).
    rewrite bool_decide_eq_true_2 by done.
    erewrite bind_ok.
    2:{ apply set_vmb_ok. simpl. rewrite Hd, length_app. simpl. lia. }
    rewrite set_vmb_ok.
    2:{ simpl. rewrite length_insert, Hd, length_app. simpl. lia. }
    simpl. rewrite Hd, list_insert_insert_ne by lia. f_equal. f_equal. unfold set_vmbs. simpl. f_equal.
    replace (length pre + 1)%nat with (length (pre ++ [v])) by (rewrite length_app; simpl; lia).
    replace (pre ++ v :: w :: rest) with ((pre ++ [v]) ++ w :: rest) by (rewrite <- app_assoc; done).
    rewrite insert_app_r_alt, Nat.sub_diag by lia. rewrite <- app_assoc. simpl.
    by rewrite insert_app_r_alt, Nat.sub_diag by lia.
  - rewrite <- app_comm_cons. rewrite (element_ok _ _ u) by (lia || by rewrite Nat2Z.id, list_lookup_middle).
    rewrite bool_decide_eq_false_2 by done.
    replace (length pre + 1)%nat with (length (pre ++ [u])) by (rewrite length_app; simpl; lia).
    rewrite (IH _ vs); [| by rewrite Hd, <- app_assoc | done | done | simpl in Hn; lia].
    f_equal. f_equal. f_equal. by rewrite <- app_assoc.
Qed.

(** With no such word it changes nothing. *)
Lemma map_at_loop_full d e pre vs rest start pages block :
  vmbs d = pre ++ vs ++ rest → Forall (λ v, get vmb_page_count v ≠ 0) vs →
  map_at_loop (length vs) (length pre) start pages block (Sys d e) = Ok () (Sys d e).
Proof.
  intros Hd Hvs. revert pre Hd. induction Hvs as [|u vs Hu Hvs IH]; intros pre Hd; [done |].
  cbn [map_at_loop length]. unfold get_drv. rewrite gets_ok. cbn [drv]. rewrite Hd, <- app_comm_cons.
  rewrite (element_ok _ _ u) by (lia || by rewrite Nat2Z.id, list_lookup_middle).
  rewrite bool_decide_eq_false_2 by done.
  replace (length pre + 1)%nat with (length (pre ++ [u])) by (rewrite length_app; simpl; lia).
  apply IH. by rewrite Hd, <- app_assoc.
Qed.

(** [unmap] moves every word up to the first zero one place down; the word the loop
    ends on is then there twice, the zero word or, at the end of the table, the last. *)
Fixpoint shifted (v : Z) (ws : list Z) : list Z :=
  match ws with
  | [] => [v]
  | w :: ws => if bool_decide (v = 0) then v :: w :: ws else w :: shifted w ws
  end.

Lemma shift_vmbs_ok d e pre v ws rest :
  vmbs d = pre ++ v :: ws ++ rest →
  shift_vmbs (length ws) (length pre) (Sys d e) = Ok () (Sys (set_vmbs (pre ++ shifted v ws ++ rest) d) e).
Proof.
  revert d pre v. induction ws as [|w ws IH]; intros d pre v Hd.
  { cbn [shifted app]. unfold mret, M_ret. cbn. f_equal. f_equal. cbn in Hd. rewrite <- Hd. by destruct d. }
  cbn [shift_vmbs length shifted]. unfold get_drv. rewrite gets_ok. cbn [drv]. rewrite Hd.
  rewrite (element_ok _ _ v) by (lia || by rewrite Nat2Z.id, list_lookup_middle).
  rewrite bool_decide_not. case_bool_decide as Hv; cbn [negb].
  { unfold mret, M_ret. f_equal. f_equal. rewrite <- app_comm_cons, <- Hd. by destruct d. }
  assert (pre ++ v :: (w :: ws) ++ rest = (pre ++ [v]) ++ w :: ws ++ rest) as E1 by (by rewrite <- app_assoc).
  rewrite (element_ok _ _ w).
  2:{ lia. }
  2:{ rewrite E1, Nat2Z.id. replace (length pre + 1)%nat with (length (pre ++ [v])) by (rewrite length_app; simpl; lia).
      by rewrite list_lookup_middle. }
  erewrite bind_ok.
  2:{ apply set_vmb_ok. cbn [drv]. rewrite Hd, length_app. simpl. lia. }
  cbn [drv platform]. replace (length pre + 1)%nat with (length (pre ++ [w])) by (rewrite length_app; simpl; lia).
  rewrite (IH _ _ w); [by rewrite <- app_assoc |].
  simpl. rewrite Hd, <- app_assoc. by rewrite insert_app_r_alt, Nat.sub_diag by lia.
Qed.

Lemma length_shifted v ws : length (shifted v ws) = S (length ws).
Proof. revert v. induction ws as [|w ws IH]; intros v; simpl; [done |]. case_bool_decide; simpl; by rewrite ?IH. Qed.

(** The block [unmap] looks for. *)
Definition mapped_at (start v : Z) : Prop := get vmb_page_count v ≠ 0 ∧ get vmb_start_page v = Z.shiftr start 12.

Lemma unmap_loop_finds d e pre vs v ws rest start n number :
  vmbs d = pre ++ vs ++ v :: ws ++ rest → number = Z.of_nat (length (pre ++ vs ++ v :: ws)) → ws ≠ [] →
  Forall (λ v, ¬ mapped_at start v) vs → mapped_at start v → (length vs < n)%nat →
  unmap_loop n (length pre) start number (Sys d e) =
    Ok (get vmb_memory_block v) (Sys (set_vmbs (pre ++ vs ++ <[1%nat := 0]> (shifted v ws) ++ rest) d) e).
Proof.
  intros Hd Hnum Hws Hvs Hv. revert pre Hd Hnum n. induction Hvs as [|u vs Hu _ IH]; intros pre Hd Hnum n Hn;
    (destruct n as [|n]; [lia |]); cbn [unmap_loop]; unfold get_drv; rewrite gets_ok; cbn [drv].
  - simpl app in *. rewrite Hd.
    rewrite (element_ok _ _ v) by (lia || by rewrite Nat2Z.id, list_lookup_middle).
    rewrite bool_decide_eq_true_2 by exact Hv.
    replace (Z.to_nat _) with (length ws) by (rewrite Hnum, length_app; simpl; lia).
    rewrite (bind_ok _ _ _ _ _ (shift_vmbs_ok _ _ _ _ _ _ Hd)).
    erewrite bind_ok.
    2:{ apply set_vmb_ok. cbn. rewrite !length_app, length_shifted. destruct ws; [done | simpl; lia]. }
    unfold mret, M_ret. f_equal. f_equal. unfold set_vmbs. simpl. f_equal.
    rewrite insert_app_r, insert_app_l; [done |]. rewrite length_shifted. destruct ws; [done | simpl; lia].
  - rewrite Hd, <- app_comm_cons.
    rewrite (element_ok _ _ u) by (lia || by rewrite Nat2Z.id, list_lookup_middle).
    rewrite bool_decide_eq_false_2 by exact Hu.
    replace (length pre + 1)%nat with (length (pre ++ [u])) by (rewrite length_app; simpl; lia).
    rewrite IH; [by rewrite <- !app_assoc | by rewrite Hd, <- app_assoc | | simpl in Hn; lia].
    rewrite Hnum. rewrite <- app_assoc. done.
Qed.

(** Without such a block it finds nothing. *)
Lemma unmap_loop_misses d e pre vs rest start number :
  vmbs d = pre ++ vs ++ rest → Forall (λ v, ¬ mapped_at start v) vs →
  unmap_loop (length vs) (length pre) start number (Sys d e) = Ok 0 (Sys d e).
Proof.
  intros Hd Hvs. revert pre Hd. induction Hvs as [|u vs Hu _ IH]; intros pre Hd; [done |].
  cbn [unmap_loop length]. unfold get_drv. rewrite gets_ok. cbn [drv]. rewrite Hd, <- app_comm_cons.
  rewrite (element_ok _ _ u) by (lia || by rewrite Nat2Z.id, list_lookup_middle).
  rewrite bool_decide_eq_false_2 by exact Hu.
  replace (length pre + 1)%nat with (length (pre ++ [u])) by (rewrite length_app; simpl; lia).
  apply IH. by rewrite Hd, <- app_assoc.
Qed.
End loops.

(** ** [map_at] and [unmap] on the tables *)
Section methods.
Context {E : Type} `{!KernelHeap E} `{!KernelHeapLaws E}.
Implicit Types (e : E) (d : driver) (vs ws : list Z).

(** The array as the compiler lays it out, and the lock free. *)
Definition ready (d : driver) : Prop := length (vmbs d) = MAX_VMBS ∧ vmb_lock d = false.

(** The table that the map object [o] describes holds [ws]. *)
Definition table_is (e : E) (o : Z) (ws : list Z) : Prop :=
  heap_block e (heap_offset_of o) ws ∧ Z.of_nat (length ws) = get mv_number_of_vmbs o ∧ (length ws ≤ MAX_VMBS)%nat.

Lemma claim_vmb_lock_ok {B} d e (f : unit → M (sys E) B) :
  ready d → (claim_vmb_lock ≫= f) (Sys d e) = f () (Sys (set_vmb_lock true d) e).
Proof. intros [_ Hl]. apply bind_ok. unfold claim_vmb_lock, get_drv. rewrite gets_ok. simpl. by rewrite Hl. Qed.

Lemma read_vmbs_ok d e o ws :
  table_is e o ws →
  ∃ e', read_vmbs o (Sys d e) = Ok () (Sys (set_vmbs (ws ++ drop (length ws) (vmbs d)) d) e') ∧ table_is e' o ws.
Proof.
  intros (Hb & Hn & Hl). destruct (read_heap_law _ _ _ Hb) as (e' & Er & Hb').
  exists e'. split; [|done]. unfold read_vmbs. cbv zeta. rewrite <- Hn.
  rewrite (ask_ok _ _ _ _ _ _ Er). by rewrite guard_pass by (unfold MAX_VMBS in Hl; lia).
Qed.

Lemma write_vmbs_ok d e o ws ws' rest :
  table_is e o ws → vmbs d = ws' ++ rest → length ws' = length ws →
  ∃ e', write_vmbs o (Sys d e) = Ok () (Sys d e') ∧ table_is e' o ws'.
Proof.
  intros (Hb & Hn & Hl) Hd Hl'. destruct (write_heap_law _ _ _ ws' Hb Hl') as (e' & Ew & Hb').
  exists e'. split; [|by rewrite <- Hl' in Hn, Hl].
  unfold write_vmbs, get_drv. rewrite gets_ok. cbn [drv].
  rewrite <- Hn, Nat2Z.id, Hd, <- Hl', take_app_length. unfold ask. simpl. by rewrite Ew.
Qed.

(** [map_at] and [unmap] are a loop on the table between its two copies. *)
Lemma with_table_ok {A B} d e o ws ws' (a : A) (loop : M (sys E) A) (k : A → M (sys E) B) :
  ready d → table_is e o ws → length ws' = length ws →
  (∀ d e rest, vmbs d = ws ++ rest → loop (Sys d e) = Ok a (Sys (set_vmbs (ws' ++ rest) d) e)) →
  ∃ d' e', (_ ← read_vmbs o; a ← loop; _ ← write_vmbs o; _ ← release_vmb_lock; k a)
             (Sys (set_vmb_lock true d) e) = k a (Sys d' e') ∧ ready d' ∧ table_is e' o ws' ∧
           set_vmbs (vmbs d) d' = d.
Proof.
  intros [Hlen Hlock] Ht Hl Hloop. destruct (read_vmbs_ok (set_vmb_lock true d) e o ws Ht) as (e1 & E1 & Ht1).
  rewrite (bind_ok _ _ _ _ _ E1).
  erewrite (bind_ok loop) by (apply Hloop; simpl; done).
  match goal with |- context [Sys ?x e1] => set (d2 := x) end.
  destruct (write_vmbs_ok d2 e1 o ws ws' (drop (length ws) (vmbs d))) as (e2 & E2 & Ht2); try done.
  rewrite (bind_ok _ _ _ _ _ E2).
  exists (set_vmb_lock false d2), e2. split_and!; [done | | done | by destruct d; simpl in *; subst].
  split; [|done]. simpl. rewrite length_app, length_drop, Hl, Hlen. destruct Ht as (_ & _ & Ht). lia.
Qed.

Lemma map_at_steps d e o block start cmb ws ws' :
  ready d → table_is e o ws → interface_object e block cmb → length ws' = length ws →
  (∀ d e rest, vmbs d = ws ++ rest →
     map_at_loop (length ws) 0 start (get cmb_page_count cmb) block (Sys d e) =
     Ok () (Sys (set_vmbs (ws' ++ rest) d) e)) →
  ∃ d' e', MapValue__DRIVER_SYSTEM__map_at o block start (Sys d e) = Ok ReturnNothing (Sys d' e') ∧
    ready d' ∧ table_is e' o ws' ∧ set_vmbs (vmbs d) d' = d.
Proof.
  intros Hr (Hb & Hn & Hl) Hi Hl' Hloop. unfold MapValue__DRIVER_SYSTEM__map_at.
  rewrite claim_vmb_lock_ok by done.
  destruct (read_interface_law _ _ _ _ _ Hi Hb) as (e1 & E1 & Hb1). rewrite (ask_ok _ _ _ _ _ _ E1).
  rewrite <- Hn, Nat2Z.id. cbn [drv].
  destruct (with_table_ok d e1 o ws ws' () (map_at_loop (length ws) 0 start (get cmb_page_count cmb) block)
    (λ _, mret ReturnNothing)) as (d' & e' & E' & Hr' & Ht' & Hd'); try done.
  by exists d', e'.
Qed.

Lemma unmap_steps d e o start ws ws' found :
  ready d → table_is e o ws → length ws' = length ws →
  (∀ d e rest, vmbs d = ws ++ rest →
     unmap_loop (length ws) 0 start (Z.of_nat (length ws)) (Sys d e) = Ok found (Sys (set_vmbs (ws' ++ rest) d) e)) →
  ∃ d' e', MapValue__DRIVER_SYSTEM__unmap o start (Sys d e) =
      Ok (if bool_decide (found = 0) then Exception 0xbadc0de3 else Return found) (Sys d' e') ∧
    ready d' ∧ table_is e' o ws' ∧ set_vmbs (vmbs d) d' = d.
Proof.
  intros Hr (Hb & Hn & Hl) Hl' Hloop. unfold MapValue__DRIVER_SYSTEM__unmap.
  rewrite claim_vmb_lock_ok by done. cbv zeta. rewrite <- Hn, Nat2Z.id.
  destruct (with_table_ok d e o ws ws' found (unmap_loop (length ws) 0 start (Z.of_nat (length ws)))
    (λ found, if bool_decide (found = 0) then mret (Exception 0xbadc0de3) else mret (Return found)))
    as (d' & e' & E' & Hr' & Ht' & Hd'); try done.
  exists d', e'. split_and!; try done. rewrite E'. by case_bool_decide.
Qed.

(** A table with two words left after its blocks takes one more. *)
Lemma map_at_appends d e o block start cmb vs v w rest :
  ready d → table_is e o (vs ++ v :: w :: rest) → interface_object e block cmb →
  Forall (λ v, get vmb_page_count v ≠ 0) vs → get vmb_page_count v = 0 →
  let new := vmb_make (Z.shiftr start 12) (get cmb_page_count cmb) 0 0 block v in
  ∃ d' e', MapValue__DRIVER_SYSTEM__map_at o block start (Sys d e) = Ok ReturnNothing (Sys d' e') ∧
    ready d' ∧ table_is e' o (vs ++ new :: 0 :: rest) ∧ set_vmbs (vmbs d) d' = d.
Proof.
  intros Hr Ht Hi Hvs Hv new. eapply map_at_steps; try done.
  - by rewrite !length_app.
  - intros d0 e0 rest0 Hd. rewrite <- app_assoc in Hd. simpl in Hd.
    pose proof (map_at_loop_fills d0 e0 [] vs v w (rest ++ rest0) start (get cmb_page_count cmb) block
      (length (vs ++ v :: w :: rest)) Hd Hvs Hv) as E'. simpl in E'.
    rewrite E' by (rewrite length_app; simpl; lia). by rewrite <- app_assoc.
Qed.

(** What [unmap] leaves of the table: the block, the one after it at its place, and
    a zero word. *)
Lemma unmap_shifts d e o start vs v ws :
  ready d → table_is e o (vs ++ v :: ws) → ws ≠ [] →
  Forall (λ v, ¬ mapped_at start v) vs → mapped_at start v → get vmb_memory_block v ≠ 0 →
  ∃ d' e', MapValue__DRIVER_SYSTEM__unmap o start (Sys d e) = Ok (Return (get vmb_memory_block v)) (Sys d' e') ∧
    ready d' ∧ table_is e' o (vs ++ <[1%nat := 0]> (shifted v ws)) ∧ set_vmbs (vmbs d) d' = d.
Proof.
  intros Hr Ht Hws Hvs Hv Hb. edestruct unmap_steps with (found := get vmb_memory_block v) (ws' := vs ++ <[1%nat := 0]> (shifted v ws)) as (d' & e' & E' & H'); try done.
  - rewrite !length_app, length_insert, length_shifted. done.
  - intros d0 e0 rest0 Hd. rewrite <- app_assoc in Hd. simpl in Hd.
    pose proof (unmap_loop_finds d0 e0 [] vs v ws rest0 start (length (vs ++ v :: ws))
      (Z.of_nat (length (vs ++ v :: ws))) Hd eq_refl Hws Hvs Hv) as E'. simpl in E'.
    rewrite E' by (rewrite length_app; simpl; lia). by rewrite <- app_assoc.
  - exists d', e'. split; [|done]. rewrite E'. by rewrite bool_decide_eq_false_2.
Qed.

Lemma shifted_table v ws :
  v ≠ 0 → ws ≠ [] → ∃ w rest, head ws = Some w ∧ <[1%nat := 0]> (shifted v ws) = w :: 0 :: rest.
Proof.
  intros Hv Hws. destruct ws as [|w ws]; [done |]. exists w. cbn [shifted]. rewrite bool_decide_eq_false_2 by done.
  assert (∃ x ws', shifted w ws = x :: ws') as (x & ws' & ->).
  { destruct ws; simpl; [by eauto |]. case_bool_decide; eauto. }
  by exists ws'.
Qed.
End methods.

(** ** Services *)
Section services.
Context {E : Type} `{!Platform E}.
Implicit Types (e : E) (d : driver).

Lemma register_service_ok d e o name service type :
  0 ≤ free_service d < Z.of_nat (length (services d)) →
  MapValue__SYSTEM__register_service o name service type (Sys d e) =
    Ok ReturnNothing (Sys (set_services (<[Z.to_nat (free_service d) := Service service type name]> (services d))
                             (free_service d + 1) d) e).
Proof.
  intros Hn. unfold MapValue__SYSTEM__register_service, get_drv. rewrite !gets_ok. cbn [drv].
  destruct (lookup_lt_is_Some_2 (services d) (Z.to_nat (free_service d))) as [s Hs]; [lia |].
  by rewrite (element_ok _ _ s) by (lia || done).
Qed.

Definition offers (name type : Z) (s : service) : Prop :=
  srv_name_crc s = name ∧ (type = 0 ∨ type = srv_type_crc s).

Lemma get_service_loop_finds ss1 s ss2 name type :
  Forall (λ s, ¬ offers name type s) ss1 → offers name type s →
  get_service_loop (ss1 ++ s :: ss2) name type =
    (r ← ask (duplicate_to_return (srv_service s)); mret (Return r) : M (sys E) reply).
Proof.
  intros H1 Hs. induction H1 as [|s1 ss1 Hs1 _ IH]; cbn [app get_service_loop].
  - by rewrite bool_decide_eq_true_2.
  - by rewrite bool_decide_eq_false_2.
Qed.

Lemma get_service_loop_misses ss name type s :
  Forall (λ s, ¬ offers name type s) ss → get_service_loop ss name type s = Ok (Return 0) (s : sys E).
Proof. induction 1 as [|s1 ss Hs1 _ IH]; [done |]. cbn [get_service_loop]. by rewrite bool_decide_eq_false_2. Qed.
End services.

(** ** Interrupts *)
Section interrupts.
Context {E : Type} `{!Platform E} (call : Z).
Implicit Types (e : E) (d : driver).

(** The handlers of the sources that are set, in the order of the sources. *)
Fixpoint due (sources i : Z) (hs : list Z) : list Z :=
  match hs with
  | [] => []
  | h :: hs => (if Z.testbit sources i && bool_decide (h ≠ 0) then [h] else []) ++ due sources (i + 1) hs
  end.

Fixpoint counted (sources i : Z) (hs cs : list Z) : list Z :=
  match hs, cs with
  | h :: hs, c :: cs =>
      (if Z.testbit sources i then u32 (c + if bool_decide (h ≠ 0) then 16 else 0x10000) else c)
        :: counted sources (i + 1) hs cs
  | _, _ => cs
  end.

Fixpoint run_calls (hs : list Z) : M E unit :=
  match hs with
  | [] => mret ()
  | h :: hs => _ ← isambard_call h call 0 0; run_calls hs
  end.

Lemma due_none sources i hs :
  0 ≤ i → (∀ j, i ≤ j → Z.testbit sources j = false) → due sources i hs = [].
Proof.
  revert i. induction hs as [|h hs IH]; intros i Hi Hj; [done |]. cbn [due].
  rewrite Hj by lia. simpl. apply IH; [lia |]. intros j Hji. apply Hj. lia.
Qed.

Lemma counted_none sources i hs cs :
  0 ≤ i → (∀ j, i ≤ j → Z.testbit sources j = false) → counted sources i hs cs = cs.
Proof.
  revert i cs. induction hs as [|h hs IH]; intros i [|c cs] Hi Hj; try done. cbn [counted].
  rewrite Hj by lia. f_equal. apply IH; [lia |]. intros j Hji. apply Hj. lia.
Qed.

Lemma set_interrupts_handled_same d : set_interrupts_handled (interrupts_handled d) d = d.
Proof. by destruct d. Qed.

Lemma call_handlers_ok hs cs hpre cpre i current sources d e e' :
  interrupt_handlers d = hpre ++ hs → interrupts_handled d = cpre ++ cs →
  length hpre = Z.to_nat i → length cpre = Z.to_nat i → 0 ≤ i → length cs = length hs →
  (∀ j, i ≤ j → Z.testbit current j = Z.testbit sources j) →
  run_calls (due sources i hs) e = Ok () e' →
  call_handlers (length hs) call i current (Sys d e) =
    Ok () (Sys (set_interrupts_handled (cpre ++ counted sources i hs cs) d) e').
Proof.
  revert cs hpre cpre i current d e.
  induction hs as [|h hs IH]; intros [|c cs] hpre cpre i current d e Hh Hc Hlh Hlc Hi Hlen Hcur Hrun; try done.
  { cbn in Hrun. injection Hrun as <-. cbn. rewrite <- Hc, set_interrupts_handled_same. done. }
  cbn [length call_handlers]. rewrite bool_decide_not. case_bool_decide as Hz; cbn [negb].
  { assert (∀ j, i ≤ j → Z.testbit sources j = false) as Hno.
    { intros j Hj. by rewrite <- Hcur, Hz, Z.bits_0 by lia. }
    rewrite due_none in Hrun by done. injection Hrun as <-.
    rewrite counted_none, <- Hc, set_interrupts_handled_same by done. done. }
  rewrite Hcur by lia. cbn [due counted] in *.
  assert (∀ c', cpre ++ c' :: counted sources (i + 1) hs cs = (cpre ++ [c']) ++ counted sources (i + 1) hs cs)
    as Hsnoc by (intros; by rewrite <- app_assoc).
  destruct (Z.testbit sources i) eqn:Hb.
  - unfold get_drv. rewrite gets_ok. cbn [drv]. rewrite Hh.
    rewrite (element_ok _ _ h) by (lia || by rewrite <- Hlh, list_lookup_middle).
    assert (∀ n, count_handled (Z.to_nat i) n (Sys d e) =
       Ok () (Sys (set_interrupts_handled (cpre ++ u32 (c + n) :: cs) d) e)) as Hcount.
    { intros n. unfold count_handled, upd_drv, modify. cbn [drv platform]. rewrite Hc, <- Hlc.
      rewrite alter_app_r_alt, Nat.sub_diag by lia. done. }
    assert (∀ n e1, run_calls (due sources (i + 1) hs) e1 = Ok () e' →
      call_handlers (length hs) call (i + 1) (Z.ldiff current (Z.shiftl 1 i))
        (Sys (set_interrupts_handled (cpre ++ u32 (c + n) :: cs) d) e1) =
      Ok () (Sys (set_interrupts_handled (cpre ++ u32 (c + n) :: counted sources (i + 1) hs cs) d) e')) as Hrest.
    { intros n e1 Hrun1. rewrite Hsnoc.
      rewrite (IH cs (hpre ++ [h]) (cpre ++ [u32 (c + n)]) (i + 1) _ _ e1); try done;
        try (simpl; rewrite <- ?app_assoc; done); try (rewrite length_app; simpl; lia); try lia; try (simpl in Hlen; lia).
      intros j Hj. rewrite Z.ldiff_spec, Z.shiftl_spec, (testbit_above 1 1) by lia. cbn [negb].
      rewrite andb_true_r. apply Hcur. lia. }
    destruct (bool_decide (h ≠ 0)); cbn [andb app] in *.
    + cbn [run_calls] in Hrun. apply bind_ok_inv in Hrun as (r & e1 & Ecall & Hrun).
      erewrite bind_ok; [by apply Hrest |].
      erewrite bind_ok by apply Hcount. unfold INTERRUPT_HANDLER__interrupt.
      by rewrite (ask_ok _ _ _ _ _ _ Ecall).
    + erewrite bind_ok by apply Hcount. by apply Hrest.
  - simpl in Hrun. rewrite Hsnoc. rewrite (IH cs (hpre ++ [h]) (cpre ++ [c]) (i + 1) _ _ e); try done;
      try (rewrite <- ?app_assoc; done); try (rewrite length_app; simpl; lia); try lia; try (simpl in Hlen; lia).
    intros j Hj. apply Hcur. lia.
Qed.
End interrupts.

(** ** A platform that records what it is asked

    For the examples: it answers every request with 1, the interrupt source register
    with [irq], reads of interfaces and of the heap with 0, and clocks with 0. *)
Inductive event : Type :=
  | Special (request p1 p2 : Z)
  | Interface_for (handler value : Z)
  | Duplicate (original : Z)
  | Call (o call p1 p2 : Z)
  | Gate (thread timeout : Z)
  | Write_QA7 (register value : Z)
  | Write_timer (value : Z).

Record trace : Type := Trace { irq : Z; events : list event }.

Definition record (ev : event) : M trace unit := modify (λ t, Trace (irq t) (events t ++ [ev])).

#[export] Instance trace_platform : Platform trace := {
  platform_heap := {|
    request_read_interface i := _ ← record (Special Isambard_System_Service_ReadInterface i 0); mret 0;
    request_read_heap off len :=
      _ ← record (Special Isambard_System_Service_ReadHeap off len); mret (replicate (Z.to_nat (len / 8)) 0);
    request_write_heap off ws :=
      record (Special Isambard_System_Service_WriteHeap off (Z.of_nat (length ws) * 8)) |};
  request_create_thread c s := _ ← record (Special Isambard_System_Service_Create_Thread c s); mret 1;
  request_make_partner := record (Special Isambard_System_Service_Thread_Make_Partner 0 0);
  request_set_interrupt_thread := record (Special Isambard_System_Service_Set_Interrupt_Thread 0 0);
  request_add_device_page p v := record (Special Isambard_System_Service_Add_Device_Page p v);
  request_updated_map := record (Special Isambard_System_Service_Updated_Map 0 0);
  interface_to_return h v := _ ← record (Interface_for h v); mret 1;
  duplicate_to_return o := _ ← record (Duplicate o); mret o;
  isambard_call o c p1 p2 := _ ← record (Call o c p1 p2); mret 1;
  gate_function t n := _ ← record (Gate t n); mret 0;
  yield_ := mret true;
  qa7_read r := gets (λ t, if bool_decide (0x60 ≤ r < 0x70) then irq t else 0);
  qa7_write r v := record (Write_QA7 r v);
  read_CNTFRQ := mret 38400000;
  read_CNTPCT := mret 0;
  write_CNTP_CVAL v := record (Write_timer v);
  write_CNTP_CTL v := record (Write_timer v);
}.

(** ** Properties *)

(** The timer's part of an interrupt, as its requests. *)
Definition timer_requests {E} `{!Platform E} (sources cval : Z) : M E unit :=
  if Z.testbit sources 1 then
    _ ← write_CNTP_CVAL cval;
    _ ← gate_function 0 0;
    mret ()
  else mret ().

(** For an interrupt whose source register is not 0, [board_call_interrupt_handlers]
    re-arms the timer and runs the timeouts first if the timer is a source, then calls
    each registered handler whose source is set exactly once, in the order of the
    sources, and no other; the tick count and the per-source counters follow, and the
    handler table is unchanged. *)
Theorem interrupt_calls_due_handlers {E} `{!Platform E} call d (e e1 e2 e3 : E) sources :
  length (interrupt_handlers d) = 12%nat → length (interrupts_handled d) = 12%nat → sources ≠ 0 →
  qa7_read (QA7_Core_IRQ_Source (number (core_data d))) e = Ok sources e1 →
  timer_requests sources (u64 (last_cval (core_data d) + ticks_per_millisecond d)) e1 = Ok () e2 →
  run_calls call (due sources 0 (interrupt_handlers d)) e2 = Ok () e3 →
  ∃ d', board_call_interrupt_handlers call (Sys d e) = Ok () (Sys d' e3) ∧
    interrupt_handlers d' = interrupt_handlers d ∧
    interrupts_handled d' = counted sources 0 (interrupt_handlers d) (interrupts_handled d) ∧
    ms_ticks d' = if Z.testbit sources 1 then u64 (ms_ticks d + 1) else ms_ticks d.
Proof.
  intros Hh Hc Hs Hread Htimer Hcalls. unfold board_call_interrupt_handlers, upd_drv, get_drv.
  rewrite modify_ok. cbn [drv platform]. rewrite gets_ok. cbn [drv].
  rewrite (ask_ok _ _ _ _ _ _ Hread), modify_ok, bool_decide_eq_false_2 by done.
  cbn [drv platform]. rewrite (bind_ok (mret sources) _ _ sources _ eq_refl).
  match goal with |- context [Sys ?x e1] => set (d1 := x) end.
  assert (∃ d2, when (Z.testbit sources 1) timer_interrupt (Sys d1 e1) = Ok () (Sys d2 e2) ∧
    interrupt_handlers d2 = interrupt_handlers d ∧ interrupts_handled d2 = interrupts_handled d ∧
    ms_ticks d2 = if Z.testbit sources 1 then u64 (ms_ticks d + 1) else ms_ticks d)
    as (d2 & E2 & H1 & H2 & H3).
  { unfold timer_requests in Htimer. destruct (Z.testbit sources 1).
    - apply bind_ok_inv in Htimer as (u & e' & Ew & Htimer). apply bind_ok_inv in Htimer as (r & e'' & Eg & Htimer).
      injection Htimer as ->. unfold when, timer_interrupt, upd_drv, get_drv.
      rewrite modify_ok, gets_ok. cbn [drv platform core_data last_cval set_core_data].
      rewrite (ask_ok _ _ _ _ _ _ Ew), modify_ok. cbn [drv platform].
      rewrite (ask_ok _ _ _ _ _ _ Eg). by eexists.
    - injection Htimer as <-. by eexists. }
  rewrite (bind_ok _ _ _ _ _ E2). rewrite <- Hh.
  rewrite (call_handlers_ok call (interrupt_handlers d) (interrupts_handled d) [] [] 0 sources sources d2 e2 e3);
    try done; try lia.
  eexists. split; [done |]. done.
Qed.

(** The timer and the sources 8 and 9; there is no handler for the last. *)
Lemma interrupt_calls_due_handlers_witness :
  let d := set_interrupt_handlers [0; 0; 0; 0; 0; 0; 0; 0; 77; 0; 78; 0] initial_driver in
  ∃ d', board_call_interrupt_handlers 5 (Sys d (Trace 0x302 []))
      = Ok () (Sys d' (Trace 0x302 [Write_timer 0; Gate 0 0; Call 77 5 0 0])) ∧
    interrupt_handlers d' = interrupt_handlers d ∧
    interrupts_handled d' = counted 0x302 0 (interrupt_handlers d) (interrupts_handled d) ∧
    ms_ticks d' = if Z.testbit 0x302 1 then u64 (ms_ticks d + 1) else ms_ticks d.
Proof.
  intros d. eapply (interrupt_calls_due_handlers 5 d); [done | done | | by vm_compute..]. done.
Defined.

(** a service that is registered is the one [get_service] finds by its name, with
    its type or with type 0, as long as the table has room and no earlier service
    offers the same: the caller receives a duplicate of the registered interface. *)
Theorem register_then_get_service {E} `{!Platform E} d (e e' : E) o name service type wanted r :
  length (services d) = 50%nat → 0 ≤ free_service d < 50 →
  Forall (λ s, ¬ offers name wanted s) (take (Z.to_nat (free_service d)) (services d)) →
  wanted = 0 ∨ wanted = type →
  duplicate_to_return service e = Ok r e' →
  ∃ d', MapValue__SYSTEM__register_service o name service type (Sys d e) = Ok ReturnNothing (Sys d' e) ∧
    ∀ o' timeout, MapValue__SYSTEM__get_service o' name wanted timeout (Sys d' e) = Ok (Return r) (Sys d' e').
Proof.
  intros Hl Hn Hearlier Hw Hdup. eexists. split; [apply register_service_ok; lia |].
  intros o' timeout. unfold MapValue__SYSTEM__get_service, get_drv. rewrite !gets_ok. cbn [drv set_services services free_service].
  replace (Z.to_nat (free_service d + 1)) with (S (Z.to_nat (free_service d))) by lia.
  erewrite take_S_r by (apply list_lookup_insert_eq; lia). rewrite take_insert_ge by lia.
  rewrite get_service_loop_finds by done. cbn [srv_service]. by rewrite (ask_ok _ _ _ _ _ _ Hdup).
Qed.

Lemma register_then_get_service_witness :
  ∃ d', MapValue__SYSTEM__register_service 0 0x1234 9 0x77 (Sys initial_driver (Trace 0 [])) =
      Ok ReturnNothing (Sys d' (Trace 0 [])) ∧
    ∀ o' timeout, MapValue__SYSTEM__get_service o' 0x1234 0x77 timeout (Sys d' (Trace 0 [])) =
      Ok (Return 9) (Sys d' (Trace 0 [Duplicate 9])).
Proof. apply (register_then_get_service initial_driver); try done; by right. Defined.

(** There is no check of the number of services: the fifty-first registration
    writes behind the end of the table. *)
Theorem register_service_overflows {E} `{!Platform E} d (e : E) o name service type :
  length (services d) = 50%nat → free_service d = 50 →
  MapValue__SYSTEM__register_service o name service type (Sys d e) = Stop (Fault 50) (Sys d e).
Proof.
  intros Hl Hn. unfold MapValue__SYSTEM__register_service, get_drv. rewrite !gets_ok. cbn [drv]. rewrite Hn.
  apply bind_stop. unfold element. by rewrite lookup_ge_None_2 by lia.
Qed.

Lemma register_service_overflows_witness :
  let d := set_services (replicate 50 (Service 9 8 7)) 50 initial_driver in
  MapValue__SYSTEM__register_service 0 1 2 3 (Sys d (Trace 0 [])) = Stop (Fault 50) (Sys d (Trace 0 [])).
Proof. by apply register_service_overflows. Defined.

(** a part of a memory block that lies inside the block: the interface that
    [subblock] creates stands for exactly those pages, with the attributes of the
    whole, and they are pages of the block. *)
Theorem subblock_inside {E} `{!Platform E} d (e e' : E) cmb offset size r :
  0 ≤ offset → 0 < size → offset mod 4096 = 0 → size mod 4096 = 0 →
  offset / 4096 + size / 4096 ≤ get cmb_page_count cmb →
  get cmb_start_page cmb + get cmb_page_count cmb ≤ 2 ^ 24 →
  interface_to_return System_Service_PhysicalMemoryBlock (subblock_of cmb offset size) e = Ok r e' →
  ContiguousMemoryBlock__PHYSICAL_MEMORY_BLOCK__subblock cmb offset size (Sys d e) = Ok (Return r) (Sys d e') ∧
  get cmb_start_page (subblock_of cmb offset size) = get cmb_start_page cmb + offset / 4096 ∧
  get cmb_page_count (subblock_of cmb offset size) = size / 4096 ∧
  get cmb_read_only (subblock_of cmb offset size) = get cmb_read_only cmb ∧
  get cmb_memory_type (subblock_of cmb offset size) = get cmb_memory_type cmb.
Proof.
  intros Ho Hs Ho' Hs' Hin Hend Hcall.
  assert (∀ x, Z.land x 0xfff = x mod 4096) as Hland by (intros; change 0xfff with (Z.ones 12); by rewrite Z.land_ones).
  split_and!.
  - unfold ContiguousMemoryBlock__PHYSICAL_MEMORY_BLOCK__subblock.
    rewrite !Hland, Ho', Hs', !bool_decide_eq_false_2 by lia. unfold cmb_to_return. by rewrite (ask_ok _ _ _ _ _ _ Hcall).
  - unfold subblock_of. pose proof (get_bits_range 0 24 cmb). pose proof (get_bits_range 24 20 cmb).
    assert (0 < size / 4096) by (pose proof (Z.div_mod size 4096); lia).
    assert (0 ≤ offset / 4096) by (apply Z.div_pos; lia).
    rewrite !(Z.shiftr_div_pow2 _ 12) by lia. change (2 ^ 12) with 4096.
    unfold get, put, cmb_start_page, cmb_page_count, cmb_is_subpage in *. simpl in *.
    rewrite get_set_bits_other by lia. rewrite (get_set_bits_other 0 24 60 1) by lia. by rewrite get_set_bits_same by lia.
  - unfold subblock_of. pose proof (get_bits_range 24 20 cmb).
    rewrite !(Z.shiftr_div_pow2 _ 12) by lia. change (2 ^ 12) with 4096.
    assert (0 ≤ size / 4096) by (apply Z.div_pos; lia). assert (0 ≤ offset / 4096) by (apply Z.div_pos; lia).
    unfold get, put, cmb_start_page, cmb_page_count, cmb_is_subpage in *. simpl in *. by rewrite get_set_bits_same by lia.
  - unfold subblock_of, get, put, cmb_start_page, cmb_page_count, cmb_is_subpage, cmb_read_only. simpl. simp_bits.
  - unfold subblock_of, get, put, cmb_start_page, cmb_page_count, cmb_is_subpage, cmb_memory_type. simpl. simp_bits.
Qed.

Lemma subblock_inside_witness :
  let cmb := cmb_make 0x5000 16 Fully_Cacheable in
  let new := subblock_of cmb 0x2000 0x4000 in
  ContiguousMemoryBlock__PHYSICAL_MEMORY_BLOCK__subblock cmb 0x2000 0x4000 (Sys initial_driver (Trace 0 [])) =
    Ok (Return 1) (Sys initial_driver (Trace 0 [Interface_for System_Service_PhysicalMemoryBlock new])) ∧
  get cmb_start_page new = get cmb_start_page cmb + 0x2000 / 4096 ∧ get cmb_page_count new = 0x4000 / 4096 ∧
  get cmb_read_only new = get cmb_read_only cmb ∧ get cmb_memory_type new = get cmb_memory_type cmb.
Proof. intros cmb new. apply (subblock_inside initial_driver); try done; by vm_compute. Defined.

(** Nothing checks that the part lies inside: a caller with a block of one page
    obtains a block of sixteen pages anywhere else in memory. *)
Theorem subblock_escapes :
  ∃ new, ContiguousMemoryBlock__PHYSICAL_MEMORY_BLOCK__subblock (cmb_make 0x5000 1 Fully_Cacheable)
      0x3000000 0x10000 (Sys initial_driver (Trace 0 [])) =
    Ok (Return 1) (Sys initial_driver (Trace 0 [Interface_for System_Service_PhysicalMemoryBlock new])) ∧
  get cmb_start_page new = 0x8000 ∧ get cmb_page_count new = 16.
Proof. eexists. split; [reflexivity |]. by vm_compute. Qed.

(** the physical address of a block that starts at [start], as its holder reads
    it: right below 2GB; from there up to 4GB the shift of the bit-field overflows an
    [int] and the address comes back with its upper 32 bits set. *)
Theorem physical_address_of_block {E} `{!Platform E} d (e e' : E) o start size r :
  0 ≤ start < 2 ^ 32 → start mod 4096 = 0 →
  let cmb := cmb_make (Z.shiftr start 12) (Z.shiftr size 12) Fully_Cacheable in
  interface_to_return System_Service_PhysicalMemoryBlock cmb e = Ok r e' →
  MapValue__DRIVER_SYSTEM__get_physical_memory_block o start size (Sys d e) = Ok (Return r) (Sys d e') ∧
  ∀ s : sys E, ContiguousMemoryBlock__PHYSICAL_MEMORY_BLOCK__physical_address cmb s =
    Ok (Return (if bool_decide (start < 2 ^ 31) then start else start + 2 ^ 64 - 2 ^ 32)) s.
Proof.
  intros Hs Ha cmb Hcall. split.
  - unfold MapValue__DRIVER_SYSTEM__get_physical_memory_block, cmb_to_return.
    by rewrite (ask_ok _ _ _ _ _ _ Hcall).
  - intros s. unfold ContiguousMemoryBlock__PHYSICAL_MEMORY_BLOCK__physical_address, mret, M_ret.
    f_equal. f_equal.
    assert (0 ≤ start / 4096 < 2 ^ 20) by (split; [apply Z.div_pos; lia | apply Z.div_lt_upper_bound; lia]).
    assert (get cmb_start_page cmb = start / 4096) as ->.
    { unfold cmb, cmb_make, get, put, cmb_start_page, cmb_page_count, cmb_memory_type.
      rewrite !Z.shiftr_div_pow2 by lia. change (2 ^ 12) with 4096. simpl. simp_bits. }
    unfold int_shl_12. rewrite Z.shiftl_mul_pow2 by lia. change (2 ^ 12) with 4096.
    replace (start / 4096 * 4096) with start by (pose proof (Z.div_mod start 4096); lia).
    unfold u64, s32. case_bool_decide.
    + rewrite (Z.mod_small (start + _)), Z.mod_small by lia. lia.
    + replace ((start + 2 ^ 31) mod 2 ^ 32) with (start - 2 ^ 31).
      * symmetry. apply (Z.mod_unique _ _ (-1)); lia.
      * apply (Z.mod_unique _ _ 1); lia.
Qed.

Lemma physical_address_of_block_witness :
  let cmb := cmb_make (Z.shiftr 0xc0000000 12) (Z.shiftr 0x10000 12) Fully_Cacheable in
  MapValue__DRIVER_SYSTEM__get_physical_memory_block 0 0xc0000000 0x10000 (Sys initial_driver (Trace 0 []))
    = Ok (Return 1) (Sys initial_driver (Trace 0 [Interface_for System_Service_PhysicalMemoryBlock cmb])) ∧
  ∀ s : sys trace, ContiguousMemoryBlock__PHYSICAL_MEMORY_BLOCK__physical_address cmb s =
    Ok (Return (if bool_decide (0xc0000000 < 2 ^ 31) then 0xc0000000 else 0xc0000000 + 2 ^ 64 - 2 ^ 32)) s.
Proof. by apply (physical_address_of_block initial_driver). Defined.
