(* ===== verification/DriverOnKernel.v ===== *)
(** * The system driver on top of the kernel

    The class [SystemDriver.KernelHeap] implemented by the kernel's own
    [system_request], for a driver whose array [vmbs] is at [buffer] in the loaded
    map, with the laws the driver's proofs rely on.  What [map_at] and [unmap] do to
    a table is then what [find_vmb] sees when a thread of that map faults. *)

From S2P Require Import Prelude Vmsa SystemServices Kernel Heap Interfaces Maps SystemRequest SystemDriver.
Import Vmsa.

(** ** The requests *)

(** [make_special_request( r, p1, p2, p3 )]: the arguments are in the registers of
    the thread, and so is the result. *)
Definition make_special_request (thread r p1 p2 p3 : Z) : K Z :=
  _ ← upd_thread thread (λ t, set_reg 3 p3 (set_reg 2 p2 (set_reg 1 p1 (set_reg 0 r t))));
  _ ← system_request thread;
  t ← get_thread thread;
  mret (reg 0 t).

(** The words of EL0 memory from [a] on. *)
Fixpoint read_words (n : nat) (a : Z) : K (list Z) :=
  match n with
  | O => mret []
  | S n =>
      c ← get_core;
      w ← get_user_word (loaded_map c) a;
      ws ← read_words n (a + 8);
      mret (w :: ws)
  end.

Fixpoint write_words (a : Z) (ws : list Z) : K unit :=
  match ws with
  | [] => mret ()
  | w :: ws =>
      c ← get_core;
      _ ← set_user_word (loaded_map c) a w;
      write_words (a + 8) ws
  end.

Section with_thread.
Context (thread buffer : Z).

#[local] Instance kernel_heap : KernelHeap kstate := {
  request_read_interface i := make_special_request thread Isambard_System_Service_ReadInterface i 0 0;
  request_read_heap offset length :=
    _ ← make_special_request thread Isambard_System_Service_ReadHeap offset length buffer;
    read_words (Z.to_nat (length / 8)) buffer;
  request_write_heap offset ws :=
    _ ← write_words buffer ws;
    _ ← make_special_request thread Isambard_System_Service_WriteHeap offset (Z.of_nat (length ws) * 8) buffer;
    mret ();
}.

(** ** What the requests need, and what they leave alone *)
Definition good_thread (k : kstate) : Prop :=
  ∃ t, threads k !! thread = Some t ∧ (4 ≤ length (regs t))%nat ∧
    0 ≤ stack_pointer t ∧ is_Some (stack t !! Z.to_nat (stack_pointer t)).

Definition good_buffer (k : kstate) : Prop :=
  0 ≤ buffer ∧ buffer + 8 * Z.of_nat MAX_VMBS ≤ 2 ^ 64 ∧
  ∀ i, 0 ≤ i < Z.of_nat MAX_VMBS → is_Some (user_memory k !! (loaded_map (core k), buffer + 8 * i)).

Definition good_heap (k : kstate) : Prop :=
  kernel_heap_top k = top_of_kernel_working_memory ∧ 0 ≤ kernel_heap_bottom k.

Definition ready_kernel (k : kstate) : Prop := good_thread k ∧ good_buffer k ∧ good_heap k.

(** The address of the word at an offset from the top of the heap. *)
Definition word_address (off : Z) (i : Z) : Z := start_address + top_of_kernel_working_memory - off + 8 * i.

(** Only the block of [n] words at [off], the driver's array and the registers of the
    thread differ. *)
Definition only_block (off : Z) (n : nat) (k k' : kstate) : Prop :=
  core k' = core k ∧ interfaces k' = interfaces k ∧ kernel_heap_top k' = kernel_heap_top k ∧
  kernel_heap_bottom k' = kernel_heap_bottom k ∧ kernel_last_interface k' = kernel_last_interface k ∧
  (∀ q, q ≠ thread → threads k' !! q = threads k !! q) ∧
  (∀ a, (∀ i, 0 ≤ i < Z.of_nat n → a ≠ word_address off i) → heap_word k' a = heap_word k a).

(** The block at [off] holds [ws], in a state that came from [k0]. *)
Definition kernel_block (k0 k : kstate) (off : Z) (ws : list Z) : Prop :=
  ready_kernel k ∧ Z.land off 15 = 0 ∧ Z.land (Z.of_nat (length ws) * 8) 15 = 0 ∧
  Z.of_nat (length ws) * 8 ≤ off ≤ kernel_heap_top k - kernel_heap_bottom k ∧
  (length ws ≤ MAX_VMBS)%nat ∧
  (∀ i w, ws !! i = Some w → heap_word k (word_address off (Z.of_nat i)) = w) ∧
  only_block off (length ws) k0 k.

(** ** The requests on a ready kernel *)
Lemma make_special_request_ok k t r p1 p2 p3 k1 n t1 :
  threads k !! thread = Some t →
  system_request thread
    (put_thread thread (set_reg 3 p3 (set_reg 2 p2 (set_reg 1 p1 (set_reg 0 r t)))) k) = Ok n k1 →
  threads k1 !! thread = Some t1 →
  make_special_request thread r p1 p2 p3 k = Ok (reg 0 t1) k1.
Proof.
  intros Ht E1 Ht1. unfold make_special_request. erewrite bind_ok by by apply upd_thread_ok.
  rewrite (bind_ok _ _ _ _ _ E1). by erewrite bind_ok by by apply get_thread_ok.
Qed.

(** The argument registers. *)
Lemma arguments t r p1 p2 p3 :
  (4 ≤ length (regs t))%nat →
  let t' := set_reg 3 p3 (set_reg 2 p2 (set_reg 1 p1 (set_reg 0 r t))) in
  reg 0 t' = r ∧ reg 1 t' = p1 ∧ reg 2 t' = p2 ∧ reg 3 t' = p3.
Proof.
  intros Hl t'. unfold t'. destruct t as [? ? ? ? rs]. simpl in Hl. unfold reg, set_reg, set_regs. simpl.
  by destruct rs as [|? [|? [|? [|? rs]]]]; simpl in *; try lia.
Qed.

Lemma with_arguments k r p1 p2 p3 :
  ready_kernel k →
  ∃ t, threads k !! thread = Some t ∧
    let t' := set_reg 3 p3 (set_reg 2 p2 (set_reg 1 p1 (set_reg 0 r t))) in
    ready_kernel (put_thread thread t' k) ∧
    reg 0 t' = r ∧ reg 1 t' = p1 ∧ reg 2 t' = p2 ∧ reg 3 t' = p3.
Proof.
  intros [(t & Ht & Hl & Hs) H]. exists t. split; [done |]. intros t'. split; [|by apply arguments].
  split; [|done]. exists t'. simpl. rewrite lookup_insert_eq. split; [done |].
  unfold t', set_reg. simpl. by rewrite !length_insert.
Qed.

Lemma read_words_ok k ws a :
  (∀ i w, ws !! i = Some w → user_memory k !! (loaded_map (core k), a + 8 * Z.of_nat i) = Some w) →
  read_words (length ws) a k = Ok ws k.
Proof.
  revert a. induction ws as [|w ws IH]; intros a Hws; [done |]. cbn [length read_words].
  unfold get_core. rewrite gets_ok.
  rewrite (bind_ok _ _ _ w k).
  2:{ unfold get_user_word. specialize (Hws 0%nat w eq_refl). rewrite Z.add_0_r in Hws. by rewrite Hws. }
  rewrite (bind_ok _ _ _ ws k); [done |]. apply IH. intros i u Hi. rewrite <- (Hws (S i) u) by done.
  do 2 f_equal. lia.
Qed.

Lemma write_words_ok k ws a :
  (∀ i, 0 ≤ i < Z.of_nat (length ws) → is_Some (user_memory k !! (loaded_map (core k), a + 8 * i))) →
  ∃ um, write_words a ws k = Ok () (set_user_memory um k) ∧
    (∀ i w, ws !! i = Some w → um !! (loaded_map (core k), a + 8 * Z.of_nat i) = Some w) ∧
    (∀ b, b < a → um !! (loaded_map (core k), b) = user_memory k !! (loaded_map (core k), b)) ∧
    (∀ x, is_Some (user_memory k !! x) → is_Some (um !! x)).
Proof.
  revert k a. induction ws as [|w ws IH]; intros k a Hws.
  { exists (user_memory k). split; [by destruct k |]. done. }
  cbn [write_words]. unfold get_core. rewrite gets_ok.
  destruct (Hws 0) as [old Hold]; [simpl; lia |]. rewrite Z.add_0_r in Hold.
  set (k1 := put_user_word (loaded_map (core k)) a w k).
  rewrite (bind_ok _ _ _ () k1).
  2:{ unfold set_user_word. rewrite (bind_ok _ _ _ old k); [done |]. unfold get_user_word. by rewrite Hold. }
  assert (∀ x, is_Some (user_memory k !! x) → is_Some (user_memory k1 !! x)) as Hk1.
  { intros x Hx. simpl. destruct (decide (x = (loaded_map (core k), a))) as [-> |].
    - rewrite lookup_insert_eq. by eexists.
    - by rewrite lookup_insert_ne. }
  destruct (IH k1 (a + 8)) as (um & Eum & H1 & H2 & H3).
  { intros i Hi. apply Hk1. replace (a + 8 + 8 * i) with (a + 8 * (i + 1)) by lia. apply Hws. simpl. lia. }
  exists um. split_and!.
  - by rewrite Eum.
  - intros [|i] u Hu; simpl in Hu; simplify_eq.
    + rewrite Z.add_0_r. rewrite H2 by lia. simpl. by rewrite lookup_insert_eq.
    + rewrite <- (H1 i u Hu). do 2 f_equal. lia.
  - intros b Hb. rewrite H2 by lia. simpl. rewrite lookup_insert_ne; [done |]. intros [= ?]. lia.
  - auto.
Qed.

Lemma only_block_user_memory off n k0 k um : only_block off n k0 k → only_block off n k0 (set_user_memory um k).
Proof. done. Qed.

Lemma only_block_thread off n k0 k t :
  only_block off n k0 k → only_block off n k0 (put_thread thread t k).
Proof.
  intros (H1 & H2 & H3 & H4 & H5 & H6 & H7). split_and!; try done.
  intros q Hq. simpl. rewrite lookup_insert_ne by done. by apply H6.
Qed.

(** [system_request] on the request in register 0. *)
Lemma system_request_is k t :
  threads k !! thread = Some t →
  (reg 0 t = Isambard_System_Service_ReadInterface →
     system_request thread k = (_ ← read_interface thread; mret thread) k) ∧
  (reg 0 t = Isambard_System_Service_ReadHeap →
     system_request thread k = (_ ← read_heap (reg 1 t) (reg 2 t) (reg 3 t); mret thread) k) ∧
  (reg 0 t = Isambard_System_Service_WriteHeap →
     system_request thread k =
       (_ ← write_heap (reg 1 t) (reg 2 t) (reg 3 t); _ ← top_of_stack thread; mret thread) k).
Proof.
  intros Ht. unfold system_request. rewrite (bind_ok _ _ _ t k) by by apply get_thread_ok.
  cbv zeta. split_and!; intros ->; done.
Qed.

Lemma ready_user_memory k um :
  ready_kernel k → (∀ x, is_Some (user_memory k !! x) → is_Some (um !! x)) → ready_kernel (set_user_memory um k).
Proof. intros (H1 & (? & ? & Hb) & H3) Hum. split_and!; try done. split_and!; try done. intros i Hi. apply Hum. by apply Hb. Qed.

Lemma block_user_memory k0 k off ws um :
  kernel_block k0 k off ws → (∀ x, is_Some (user_memory k !! x) → is_Some (um !! x)) →
  kernel_block k0 (set_user_memory um k) off ws.
Proof. intros (Hr & H) Hum. split; [by apply ready_user_memory | done]. Qed.

Lemma block_thread k0 k off ws t :
  kernel_block k0 k off ws → ready_kernel (put_thread thread t k) → kernel_block k0 (put_thread thread t k) off ws.
Proof.
  intros (_ & H1 & H2 & H3 & H4 & H5 & H6) Hr. split_and!; try done; try apply H3. by apply only_block_thread.
Qed.

Lemma ready_thread k t :
  ready_kernel k → threads k !! thread = Some t →
  (4 ≤ length (regs t))%nat ∧ 0 ≤ stack_pointer t ∧ is_Some (stack t !! Z.to_nat (stack_pointer t)).
Proof. intros [(t' & Ht' & H) _] Ht. by simplify_eq. Qed.

Lemma ready_set_reg k t n v :
  ready_kernel k → threads k !! thread = Some t → ready_kernel (put_thread thread (set_reg n v t) k).
Proof.
  intros Hr Ht. pose proof (ready_thread _ _ Hr Ht) as Hg. destruct Hr as [_ H]. split; [|done].
  exists (set_reg n v t). simpl. by rewrite lookup_insert_eq, length_insert.
Qed.

(** Reading the heap overwrites words of EL0 memory that are there. *)
Definition keeps_words (k k' : kstate) : Prop :=
  ∀ x, is_Some (user_memory k !! x) → is_Some (user_memory k' !! x).

#[local] Instance keeps_words_preorder : PreOrder keeps_words.
Proof. split; [by intros k x | intros k1 k2 k3 H1 H2 x Hx; by apply H2, H1]. Qed.

Lemma set_user_word_keeps m a w : preserves keeps_words (set_user_word m a w).
Proof.
  intros k u k' H x Hx. unfold set_user_word in H. inv_bind H. unfold get_user_word in E.
  destruct (user_memory k !! (m, a)) eqn:Hl; simplify_eq. injection H as <- <-. simpl.
  destruct (decide (x = (m, a))) as [-> |]; [by rewrite lookup_insert_eq; eexists | by rewrite lookup_insert_ne].
Qed.
#[local] Hint Resolve set_user_word_keeps : preserves.

Lemma read_heap_keeps off len dst : preserves keeps_words (read_heap off len dst).
Proof. unfold read_heap, heap_checks, get_core. preserves. Qed.

(** ** The laws *)
Context (k0 : kstate).

Definition kernel_object (k : kstate) (i v : Z) : Prop :=
  0 ≤ i < 2 ^ 32 ∧ i ≤ kernel_last_interface k ∧ ∃ e, interfaces k !! i = Some e ∧ object e = v.

Lemma kernel_read_interface k i v off ws :
  kernel_object k i v → kernel_block k0 k off ws →
  ∃ k', request_read_interface i k = Ok v k' ∧ kernel_block k0 k' off ws.
Proof.
  intros (Hi & Hl & e & He & Hv) Hb. pose proof Hb as [Hr _].
  destruct (with_arguments k Isambard_System_Service_ReadInterface i 0 0 Hr) as (t & Ht & Hr1 & H0 & H1 & _).
  set (t1 := set_reg 3 0 _) in *. set (k1 := put_thread thread t1 k) in *.
  assert (threads k1 !! thread = Some t1) as Ht1 by (simpl; by rewrite lookup_insert_eq).
  pose proof (ready_set_reg k1 t1 0 v Hr1 Ht1) as Hr2.
  assert (reg 0 (set_reg 0 v t1) = v) as Hreg.
  { apply reg_set_reg_same. destruct (ready_thread _ _ Hr1 Ht1). lia. }
  assert (read_interface thread k1 = Ok () (put_thread thread (set_reg 0 v t1) k1)) as Er.
  { unfold read_interface. rewrite (bind_ok _ _ _ t1 k1) by by apply get_thread_ok.
    rewrite gets_ok, H1. unfold id. rewrite interface_from_index_ok by done.
    rewrite (bind_ok _ _ _ e k1) by (unfold get_interface; simpl; by rewrite He).
    by rewrite (upd_thread_ok _ _ t1), Hv by done. }
  destruct (system_request_is k1 t1 Ht1) as [Es _].
  rewrite (bind_ok _ _ _ _ _ Er) in Es.
  assert (threads (put_thread thread (set_reg 0 v t1) k1) !! thread = Some (set_reg 0 v t1)) as Ht2
    by (rewrite threads_put_thread; by rewrite lookup_insert_eq).
  exists (put_thread thread (set_reg 0 v t1) k1). split.
  - pose proof (make_special_request_ok _ _ _ _ _ _ _ _ _ Ht (Es H0) Ht2) as E. rewrite Hreg in E. exact E.
  - apply block_thread; [|done]. by apply block_thread.
Qed.

Lemma kernel_read_heap k off ws :
  kernel_block k0 k off ws →
  ∃ k', request_read_heap off (Z.of_nat (length ws) * 8) k = Ok ws k' ∧ kernel_block k0 k' off ws.
Proof.
  intros Hb. pose proof Hb as (Hr & Ha & Hla & Hl & Hn & Hw & _).
  destruct (with_arguments k Isambard_System_Service_ReadHeap off (Z.of_nat (length ws) * 8) buffer Hr)
    as (t & Ht & Hr1 & H0 & H1 & H2 & H3).
  set (t1 := set_reg 3 buffer _) in *. set (k1 := put_thread thread t1 k) in *.
  assert (threads k1 !! thread = Some t1) as Ht1 by (simpl; by rewrite lookup_insert_eq).
  pose proof Hr1 as (_ & (Hb0 & Hb1 & Hbuf) & Htop & Hbot).
  destruct (read_heap_loads k1 off (Z.of_nat (length ws) * 8)) with (dst := buffer) as (k2 & E2 & Hk2 & Hum);
    try done; try (unfold MAX_VMBS in *; simpl; lia).
  { intros i Hi. apply Hbuf. unfold Heap.words in Hi. rewrite Z.div_mul in Hi by lia. lia. }
  unfold Heap.words, Heap.base in Hum. rewrite Z.div_mul in Hum by lia. rewrite Htop in Hum.
  assert (threads k2 !! thread = Some t1) as Ht2 by (rewrite Hk2; done).
  destruct (system_request_is k1 t1 Ht1) as (_ & Es & _). rewrite H1, H2, H3, (bind_ok _ _ _ _ _ E2) in Es.
  pose proof (make_special_request_ok _ _ _ _ _ _ _ _ _ Ht (Es H0) Ht2) as E.
  exists k2. split.
  - cbn [request_read_heap kernel_heap]. rewrite (bind_ok _ _ _ _ _ E), Z.div_mul, Nat2Z.id by lia.
    apply read_words_ok. intros i w Hi. assert (core k2 = core k1) as -> by (by rewrite Hk2).
    rewrite Hum by (apply lookup_lt_Some in Hi; lia). f_equal. by apply Hw.
  - rewrite Hk2. apply block_user_memory; [by apply block_thread|].
    intros x Hx. by apply (read_heap_keeps _ _ _ _ _ _ E2).
Qed.

Lemma kernel_write_heap k off ws ws' :
  kernel_block k0 k off ws → length ws' = length ws →
  ∃ k', request_write_heap off ws' k = Ok () k' ∧ kernel_block k0 k' off ws'.
Proof.
  intros Hb Hlen. pose proof Hb as (Hr & Ha & Hla & Hl & Hn & Hw & _).
  destruct (write_words_ok k ws' buffer) as (um & E1 & Hum & _ & Hkeep).
  { destruct Hr as (_ & (_ & _ & Hbuf) & _). intros i Hi. apply Hbuf. lia. }
  pose proof (block_user_memory _ _ _ _ um Hb Hkeep) as Hb1. pose proof Hb1 as [Hr1 _].
  set (k1 := set_user_memory um k) in *.
  destruct (with_arguments k1 Isambard_System_Service_WriteHeap off (Z.of_nat (length ws') * 8) buffer Hr1)
    as (t & Ht & Hr2 & H0 & H1 & H2 & H3).
  set (t1 := set_reg 3 buffer _) in *. set (k2 := put_thread thread t1 k1) in *.
  assert (threads k2 !! thread = Some t1) as Ht1 by (simpl; by rewrite lookup_insert_eq).
  pose proof Hr2 as (_ & (Hb0 & Hb1' & Hbuf) & Htop & Hbot).
  destruct (write_heap_stores k2 off (Z.of_nat (length ws') * 8)) with (src := buffer)
    (ws := λ i, nth (Z.to_nat i) ws' 0) as (k3 & E3 & Hk3 & Hin & Hout); try done;
    try (unfold MAX_VMBS in *; simpl; lia).
  { by rewrite Hlen. }
  { intros i Hi. unfold Heap.words in Hi. rewrite Z.div_mul in Hi by lia.
    rewrite <- (Z2Nat.id i) at 1 by lia. apply Hum. rewrite nth_lookup.
    destruct (lookup_lt_is_Some_2 ws' (Z.to_nat i)) as [w ->]; [lia | done]. }
  unfold Heap.words, Heap.base in Hin, Hout. rewrite Z.div_mul in Hin, Hout by lia. rewrite Htop in Hin, Hout.
  assert (threads k3 !! thread = Some t1) as Ht3 by (rewrite Hk3; done).
  destruct (ready_thread _ _ Hr2 Ht1) as (_ & Hsp & (se & Hse)).
  assert (top_of_stack thread k3 = Ok se k3) as Etop.
  { unfold top_of_stack. erewrite bind_ok by by apply get_thread_ok. by rewrite Hse, bool_decide_eq_true_2. }
  destruct (system_request_is k2 t1 Ht1) as (_ & _ & Es).
  rewrite H1, H2, H3, (bind_ok _ _ _ _ _ E3), (bind_ok _ _ _ _ _ Etop) in Es.
  pose proof (make_special_request_ok _ _ _ _ _ _ _ _ _ Ht (Es H0) Ht3) as E.
  exists k3. split.
  - cbn [request_write_heap kernel_heap]. rewrite (bind_ok _ _ _ _ _ E1). by rewrite (bind_ok _ _ _ _ _ E).
  - destruct Hb1 as (_ & _ & _ & _ & _ & _ & Ho).
    apply (only_block_thread _ _ _ _ t1) in Ho. fold k2 in Ho.
    destruct Ho as (O1 & O2 & O3 & O4 & O5 & O6 & O7).
    split; [rewrite Hk3; exact Hr2 |]. split; [done |]. split; [by rewrite Hlen |].
    split; [rewrite Hk3; simpl in *; lia |]. split; [lia |]. split.
    + intros i w Hi. unfold word_address. rewrite Hin by (apply lookup_lt_Some in Hi; lia).
      by rewrite nth_lookup, Nat2Z.id, Hi.
    + split_and!; try (rewrite Hk3; done).
      intros a Hna. rewrite Hout by (intros i Hi; apply (Hna i); lia). apply O7. by rewrite <- Hlen.
Qed.

#[local] Instance kernel_heap_laws : KernelHeapLaws kstate := {
  heap_block := kernel_block k0;
  interface_object := kernel_object;
  read_interface_law := kernel_read_interface;
  read_heap_law := kernel_read_heap;
  write_heap_law := kernel_write_heap;
}.
End with_thread.

(** ** Tables as [find_vmb] and as the driver see them *)

(** The [n] words from [p] on. *)
Definition words_at (k : kstate) (p : Z) (n : nat) : list Z := (λ i, heap_word k (p + 8 * Z.of_nat i)) <$> seq 0 n.

Lemma words_at_S k p n : words_at k p (S n) = heap_word k p :: words_at k (p + 8) n.
Proof.
  unfold words_at. cbn [seq fmap list_fmap]. rewrite Z.add_0_r. f_equal.
  rewrite <- fmap_S_seq, <- list_fmap_compose. apply list_fmap_ext. intros i x _. cbn. f_equal. lia.
Qed.

Lemma length_words_at k p n : length (words_at k p n) = n.
Proof. unfold words_at. by rewrite length_fmap, length_seq. Qed.

Lemma words_at_lookup k p n i w :
  words_at k p n !! i = Some w ↔ (i < n)%nat ∧ heap_word k (p + 8 * Z.of_nat i) = w.
Proof.
  unfold words_at. rewrite list_lookup_fmap_Some. setoid_rewrite lookup_seq. naive_solver lia.
Qed.

Lemma table_words k p n vs :
  vmb_table k p vs → (length vs < n)%nat →
  ∃ v rest, words_at k p n = vs ++ v :: rest ∧ get vmb_page_count v = 0 ∧
    Forall (λ v, get vmb_page_count v ≠ 0) vs.
Proof.
  revert p n. induction vs as [|u vs IH]; intros p [|n] Ht Hn; simpl in Hn; try lia; rewrite words_at_S.
  - destruct Ht as [_ Ht]. eexists _, _. split_and!; [done | done | constructor].
  - destruct Ht as (Hu & Hpos & Ht). destruct (IH _ n Ht) as (v & rest & E & Hv & Hvs); [lia |].
    exists v, rest. rewrite E, Hu. split_and!; [done | done |]. constructor; [lia | done].
Qed.

Lemma words_table k p n vs v rest :
  words_at k p n = vs ++ v :: rest → get vmb_page_count v = 0 →
  Forall (λ v, get vmb_page_count v ≠ 0) vs → p + 8 * Z.of_nat n ≤ top_of_heap → vmb_table k p vs.
Proof.
  revert p n. induction vs as [|u vs IH]; intros p n E Hv Hvs Hb;
    (destruct n as [|n]; [done |]); rewrite words_at_S in E; injection E as Eu E.
  - split; [lia | by rewrite Eu].
  - apply Forall_cons in Hvs as [Hu Hvs]. split_and!; [done | | by apply (IH _ n); try lia].
    pose proof (get_bits_range 24 20 u). unfold get in *. simpl in *. lia.
Qed.

(** The table the object of a map interface describes. *)
Lemma table_address o :
  heap_pointer_from_offset_lsr4 (get mv_heap_offset_lsr4 o) = word_address (heap_offset_of o) 0.
Proof.
  unfold heap_pointer_from_offset_lsr4, heap_pointer_from_offset, word_address, heap_offset_of.
  rewrite Z.mul_0_r, Z.add_0_r. apply u64_id. pose proof (u32_range (Z.shiftl (get mv_heap_offset_lsr4 o) 4)).
  unfold is_u32, is_u64, start_address, himem_offset, top_of_kernel_working_memory in *. lia.
Qed.

Lemma heap_offset_aligned o : Z.land (heap_offset_of o) 15 = 0.
Proof.
  unfold heap_offset_of. change 15 with (Z.ones 4). apply Z.bits_inj_iff'. intros i Hi.
  rewrite Z.land_spec, ones_testbit, Z.bits_0 by lia. case_bool_decide; [|by rewrite andb_false_r].
  unfold u32. rewrite Z.mod_pow2_bits_low by lia. rewrite Z.shiftl_spec, Z.testbit_neg_r by lia. done.
Qed.

(** The map of the thread is the object [o]. *)
Definition has_object (k : kstate) (q o : Z) : Prop :=
  ∃ t e, threads k !! q = Some t ∧ interfaces k !! current_map t = Some e ∧ object e = o.

(** The table of [o] lies in the heap, and the driver's array is long enough for it. *)
Definition good_table (k : kstate) (o : Z) : Prop :=
  let n := get mv_number_of_vmbs o in
  n ≤ 64 ∧ n mod 2 = 0 ∧ n * 8 ≤ heap_offset_of o ≤ kernel_heap_top k - kernel_heap_bottom k.

Lemma mv_number_range o : 0 ≤ get mv_number_of_vmbs o < 2 ^ 12.
Proof. by apply get_bits_range. Qed.

(** What the kernel finds at the table is what the driver works on. *)
Lemma table_in_kernel thread buffer k o :
  ready_kernel thread buffer k → good_table k o →
  kernel_block thread buffer k k (heap_offset_of o)
    (words_at k (word_address (heap_offset_of o) 0) (Z.to_nat (get mv_number_of_vmbs o))).
Proof.
  intros Hk (Hn & Heven & Hoff). pose proof (mv_number_range o). pose proof Hk as (_ & _ & Htop & Hbot).
  split; [done |]. rewrite length_words_at, Z2Nat.id by lia. split_and!; try done; try lia.
  - apply heap_offset_aligned.
  - change 15 with (Z.ones 4). rewrite Z.land_ones by lia.
    rewrite (Z.div_mod (get mv_number_of_vmbs o) 2), Heven by lia.
    replace ((2 * (get mv_number_of_vmbs o / 2) + 0) * 8) with (get mv_number_of_vmbs o / 2 * 2 ^ 4) by lia.
    by apply Z.mod_mul.
  - unfold MAX_VMBS. lia.
  - intros i w Hw. apply words_at_lookup in Hw as [_ <-]. f_equal. unfold word_address. lia.
Qed.

(** After the driver has written [ws] the thread's map has the blocks up to the first
    word without pages. *)
Lemma map_after thread buffer k k' o q vs vs' v rest :
  has_map k q vs → has_object k q o → q ≠ thread →
  kernel_block thread buffer k k' (heap_offset_of o) (vs' ++ v :: rest) →
  get vmb_page_count v = 0 → Forall (λ v, get vmb_page_count v ≠ 0) vs' →
  has_map k' q vs'.
Proof.
  intros (t & e & Ht & He & H1 & H2 & H3 & _) (t' & e' & Ht' & He' & Ho) Hq
    ((_ & _ & Htop & Hbot) & _ & _ & Hoff & Hlen & Hw & O1 & O2 & O3 & O4 & O5 & O6 & O7) Hv Hvs.
  simplify_eq. exists t, e. rewrite O2, O3, O4, O6 by done. split_and!; try done.
  rewrite table_address. apply (words_table _ _ (length (vs' ++ v :: rest)) _ v rest); try done.
  - apply list_eq. intros i. destruct ((vs' ++ v :: rest) !! i) as [w|] eqn:E.
    + apply words_at_lookup. split; [by eapply lookup_lt_Some |]. rewrite <- (Hw _ _ E). f_equal.
      unfold word_address. lia.
    + apply lookup_ge_None. rewrite length_words_at. by apply lookup_ge_None.
  - unfold word_address, top_of_heap. lia.
Qed.

Lemma table_of_map k q o vs :
  has_map k q vs → has_object k q o → vmb_table k (word_address (heap_offset_of o) 0) vs.
Proof.
  intros (t & e & Ht & He & _ & _ & _ & H) (t' & e' & Ht' & He' & Ho). simplify_eq. by rewrite <- table_address.
Qed.

(** The block that [map_at] adds. *)
Definition mapped_block (start cmb block v : Z) : Z :=
  vmb_make (Z.shiftr start 12) (get cmb_page_count cmb) 0 0 block v.

(** C31: [map_at] of the system driver, run on the kernel: when the table of the
    client's map has two words left, the new block is added behind the blocks that are
    there, at the page and with the number of pages asked for; from then on a fault of
    the client in it finds exactly that block unless an earlier block covers it. *)
Theorem map_at_then_find_vmb thread buffer d k q o vs block start cmb :
  ready d → ready_kernel thread buffer k → good_table k o → q ≠ thread →
  has_map k q vs → has_object k q o → Z.of_nat (length vs) + 2 ≤ get mv_number_of_vmbs o →
  kernel_object k block cmb → get cmb_page_count cmb ≠ 0 →
  0 ≤ start < 2 ^ 36 → 0 ≤ block < 2 ^ 18 →
  ∃ d' k' new,
    @MapValue__DRIVER_SYSTEM__map_at _ (kernel_heap thread buffer) o block start (Sys d k)
      = Ok ReturnNothing (Sys d' k') ∧
    has_map k' q (vs ++ [new]) ∧
    get vmb_start_page new = Z.shiftr start 12 ∧ get vmb_page_count new = get cmb_page_count cmb ∧
    get vmb_memory_block new = block ∧
    ∀ fa, is_u64 fa → find_vmb q fa k' = Ok (head (filter (λ v, covers v fa) (vs ++ [new]))) k'.
Proof.
  intros Hd Hk Hgood Hq Hmap Hobj Hroom Hblock Hpages Hstart Hbl.
  pose proof (table_in_kernel _ _ _ _ Hk Hgood) as Hb. pose proof (mv_number_range o).
  destruct (table_words _ _ (Z.to_nat (get mv_number_of_vmbs o)) _ (table_of_map _ _ _ _ Hmap Hobj))
    as (v & rest & E & Hv & Hvs); [lia |].
  assert (∃ w rest', rest = w :: rest') as (w & rest' & ->).
  { destruct rest; [|by eauto]. apply (f_equal length) in E. rewrite length_words_at, length_app in E.
    simpl in E. lia. }
  rewrite E in Hb.
  destruct (@map_at_appends _ (kernel_heap thread buffer) (kernel_heap_laws thread buffer k)
    d k o block start cmb vs v w rest') as (d' & k' & Ecall & _ & Ht' & _); try done.
  { split; [exact Hb |]. rewrite <- E, length_words_at. destruct Hgood as [? _]. unfold MAX_VMBS. lia. }
  destruct (vmb_make_fields (Z.shiftr start 12) (get cmb_page_count cmb) 0 0 block v) as (F1 & F2 & _ & _ & F3);
    try lia; try (by apply get_bits_range).
  { rewrite Z.shiftr_div_pow2 by lia. split; [apply Z.div_pos; lia | apply Z.div_lt_upper_bound; lia]. }
  exists d', k', (mapped_block start cmb block v).
  assert (has_map k' q (vs ++ [mapped_block start cmb block v])) as Hmap'.
  { destruct Ht' as [Ht' _]. eapply (map_after thread buffer k k' o q vs _ 0 rest'); try done.
    - rewrite <- app_assoc. exact Ht'.
    - apply Forall_app. split; [done |]. constructor; [|done]. unfold mapped_block. by rewrite F2. }
  split_and!; try done. intros fa Hfa. by apply find_vmb_spec.
Qed.

(** C32: [unmap] of the system driver, run on the kernel: the block that starts at the
    page goes and its interface is returned, the blocks before it stay, but of the
    blocks behind it only the first does: the others are cut off by the word that is
    cleared, so a fault in them finds nothing. *)
Theorem unmap_then_find_vmb thread buffer d k q o vs v us start :
  ready d → ready_kernel thread buffer k → good_table k o → q ≠ thread →
  has_map k q (vs ++ v :: us) → has_object k q o →
  Z.of_nat (length (vs ++ v :: us)) < get mv_number_of_vmbs o →
  Forall (λ v, get vmb_start_page v ≠ Z.shiftr start 12) vs → get vmb_start_page v = Z.shiftr start 12 →
  get vmb_memory_block v ≠ 0 →
  ∃ d' k',
    @MapValue__DRIVER_SYSTEM__unmap _ (kernel_heap thread buffer) o start (Sys d k)
      = Ok (Return (get vmb_memory_block v)) (Sys d' k') ∧
    has_map k' q (vs ++ take 1 us) ∧
    ∀ fa, is_u64 fa → find_vmb q fa k' = Ok (head (filter (λ v, covers v fa) (vs ++ take 1 us))) k'.
Proof.
  intros Hd Hk Hgood Hq Hmap Hobj Hroom Hbefore Hat Hblock.
  pose proof (table_in_kernel _ _ _ _ Hk Hgood) as Hb.
  destruct (table_words _ _ (Z.to_nat (get mv_number_of_vmbs o)) _ (table_of_map _ _ _ _ Hmap Hobj))
    as (x & rest & E & Hx & Hall); [lia |].
  rewrite E in Hb. rewrite <- app_assoc in Hb. simpl in Hb.
  apply Forall_app in Hall as [Hvs Hus]. apply Forall_cons in Hus as [Hv Hus].
  destruct (@unmap_shifts _ (kernel_heap thread buffer) (kernel_heap_laws thread buffer k)
    d k o start vs v (us ++ x :: rest)) as (d' & k' & Ecall & _ & [Ht' _] & _); try done.
  { split; [exact Hb |]. rewrite app_comm_cons, app_assoc, <- E, length_words_at.
    destruct Hgood as [? _]. pose proof (mv_number_range o). unfold MAX_VMBS. lia. }
  { by destruct us. }
  { eapply Forall_impl; [exact Hbefore |]. unfold mapped_at. tauto. }
  destruct (shifted_table v (us ++ x :: rest)) as (w & rest' & Hw & Es); [by intros -> | by destruct us |].
  rewrite Es in Ht'. exists d', k'.
  assert (has_map k' q (vs ++ take 1 us)) as Hmap'.
  { destruct us as [|u us]; simpl in Hw; injection Hw as <-; simpl.
    - rewrite app_nil_r. eapply (map_after _ _ k k' o q _ _ x (0 :: rest')); try done. exact Ht'.
    - apply Forall_cons in Hus as [Hu _]. eapply (map_after _ _ k k' o q _ _ 0 rest'); try done.
      + rewrite <- app_assoc. exact Ht'.
      + apply Forall_app. auto. }
  split_and!; try done. intros fa Hfa. by apply find_vmb_spec.
Qed.

(** ** A driver thread beside the example map of [Maps] *)
Definition driver_thread : Z := demo_thread + 0x200.
Definition driver_buffer : Z := 0x8000.

Definition driver_memory : gmap (Z * Z) Z :=
  list_to_map ((λ i, ((0, driver_buffer + 8 * i), 0)) <$> seqZ 0 64).

Definition driver_state : kstate :=
  set_user_memory driver_memory (put_thread driver_thread (set_current_map system_map_index blank_thread) demo_state).

Lemma driver_state_ready : ready_kernel driver_thread driver_buffer driver_state.
Proof.
  split_and!.
  - exists (set_current_map system_map_index blank_thread). split_and!; try (vm_compute; congruence); [|by eexists].
    vm_compute. lia.
  - split_and!; [by vm_compute | by vm_compute |]. intros i Hi.
    assert (Forall (λ i, is_Some (driver_memory !! (0, driver_buffer + 8 * i))) (seqZ 0 64)) as H.
    { apply (bool_decide_unpack _). vm_compute. exact I. }
    rewrite Forall_forall in H. apply H. apply elem_of_seqZ. unfold MAX_VMBS in Hi. lia.
  - by vm_compute.
Qed.

Lemma map_at_then_find_vmb_witness :
  ∃ d' k' new,
    @MapValue__DRIVER_SYSTEM__map_at _ (kernel_heap driver_thread driver_buffer) (mv_make 0x40 7 4) 4 0x300000
      (Sys initial_driver driver_state) = Ok ReturnNothing (Sys d' k') ∧
    has_map k' demo_thread ([demo_vmb] ++ [new]) ∧
    get vmb_start_page new = Z.shiftr 0x300000 12 ∧
    get vmb_page_count new = get cmb_page_count (cmb_make 0x5000 16 Fully_Cacheable) ∧
    get vmb_memory_block new = 4 ∧
    ∀ fa, is_u64 fa → find_vmb demo_thread fa k' = Ok (head (filter (λ v, covers v fa) ([demo_vmb] ++ [new]))) k'.
Proof.
  apply (map_at_then_find_vmb driver_thread driver_buffer initial_driver driver_state demo_thread
    (mv_make 0x40 7 4) [demo_vmb] 4 0x300000 (cmb_make 0x5000 16 Fully_Cacheable)).
  - by split.
  - apply driver_state_ready.
  - by split_and!; vm_compute.
  - done.
  - exists (set_current_map 3 blank_thread), demo_map. split_and!; by vm_compute.
  - exists (set_current_map 3 blank_thread), demo_map. split_and!; by vm_compute.
  - by vm_compute.
  - split_and!; [done | done | by vm_compute |]. by exists demo_block.
  - by vm_compute.
  - done.
  - done.
Defined.

(** The example map with three more blocks, of which the last is backed by map 5. *)
Definition demo_vmb_at (page : Z) : Z := vmb_make page 1 0 0 4 0.

Definition four_blocks_map : Interface :=
  MkInterface 1 system_map_index System_Service_Map (mv_make 0x40 7 6).

Definition four_blocks_state : kstate :=
  let k := set_heap_word (top_of_heap - 0x400 + 8) (demo_vmb_at 0x200) driver_state in
  let k := set_heap_word (top_of_heap - 0x400 + 16) (demo_vmb_at 0x300) k in
  let k := set_heap_word (top_of_heap - 0x400 + 24) (demo_vmb_at 0x400) k in
  put_interface 3 four_blocks_map k.

Lemma ready_set_heap_word thread buffer k a w :
  ready_kernel thread buffer k → ready_kernel thread buffer (set_heap_word a w k).
Proof. done. Qed.
Lemma ready_put_interface thread buffer k i e :
  ready_kernel thread buffer k → ready_kernel thread buffer (put_interface i e k).
Proof. done. Qed.

Lemma unmap_then_find_vmb_witness :
  ∃ d' k',
    @MapValue__DRIVER_SYSTEM__unmap _ (kernel_heap driver_thread driver_buffer) (mv_make 0x40 7 6) 0x200000
      (Sys initial_driver four_blocks_state) = Ok (Return 4) (Sys d' k') ∧
    has_map k' demo_thread ([demo_vmb] ++ take 1 [demo_vmb_at 0x300; demo_vmb_at 0x400]) ∧
    ∀ fa, is_u64 fa → find_vmb demo_thread fa k' =
      Ok (head (filter (λ v, covers v fa) ([demo_vmb] ++ take 1 [demo_vmb_at 0x300; demo_vmb_at 0x400]))) k'.
Proof.
  apply (unmap_then_find_vmb driver_thread driver_buffer initial_driver four_blocks_state demo_thread
    (mv_make 0x40 7 6) [demo_vmb] (demo_vmb_at 0x200) [demo_vmb_at 0x300; demo_vmb_at 0x400] 0x200000).
  - by split.
  - apply ready_put_interface. do 3 apply ready_set_heap_word. apply driver_state_ready.
  - by split_and!; vm_compute.
  - done.
  - exists (set_current_map 3 blank_thread), four_blocks_map. split_and!; by vm_compute.
  - exists (set_current_map 3 blank_thread), four_blocks_map. split_and!; by vm_compute.
  - by vm_compute.
  - by constructor.
  - by vm_compute.
  - by vm_compute.
Defined.
