(* ===== verification/DriverMemory.v ===== *)
(** * The system driver with the physical memory allocator

    The class [SystemDriver.Platform] for a system whose memory manager is the
    allocator of [MemoryAllocator]: [isambard_call] on the memory manager runs its
    [entry], with [fuel] for its loops.  Every other request succeeds without effect;
    an interface is numbered by the object it stands for.

    What [idle_thread_entry], [allocate_memory] and [set_memory_top] do together. *)

From S2P Require Import Prelude Vmsa SystemServices Maps MemoryAllocator SystemDriver.
Import Vmsa.
Open Scope Z_scope.

Definition fuel : nat := 200.

Definition memory_manager_map : Z := 2.

#[export] Instance allocator_platform : Platform allocator := {
  platform_heap := {|
    request_read_interface i := mret i;
    request_read_heap off len := mret (replicate (Z.to_nat (len / 8)) 0);
    request_write_heap off ws := mret () |};
  request_create_thread c s := mret 1;
  request_make_partner := mret ();
  request_set_interrupt_thread := mret ();
  request_add_device_page p v := mret ();
  request_updated_map := mret ();
  interface_to_return h v := mret v;
  duplicate_to_return o := mret o;
  isambard_call o c p1 p2 := if bool_decide (o = memory_manager_map) then entry fuel 0 c p1 p2 else mret 0;
  gate_function t n := mret 0;
  yield_ := mret true;
  qa7_read r := mret 0;
  qa7_write r v := mret ();
  read_CNTFRQ := mret 38400000;
  read_CNTPCT := mret 0;
  write_CNTP_CVAL v := mret ();
  write_CNTP_CTL v := mret ();
}.

Definition system := sys allocator.

(** The first core up to its idle loop. *)
Definition boot_core_0 (first_free_page : Z) : M system unit :=
  idle_thread_setup 0x40000000 0x8000 0x9000 memory_manager_map 0 first_free_page.

(** [(p1 + 4095) & ~0xfff] of a whole number of pages. *)
Lemma round_up_pages size : 0 ≤ size < 2 ^ 32 → size mod 4096 = 0 →
  u32 (Z.land (u64 (size + 4095)) (u64 (Z.lnot 0xfff))) = size.
Proof.
  intros Hs Hm. rewrite (u64_id (size + 4095)) by (unfold is_u64; lia).
  change (u64 (Z.lnot 0xfff)) with (Z.shiftl (Z.ones 52) 12).
  assert (Z.land (size + 4095) (Z.shiftl (Z.ones 52) 12) = Z.shiftl (Z.shiftr (size + 4095) 12) 12) as ->.
  { apply Z.bits_inj_iff'. intros i Hi. rewrite Z.land_spec, !Z.shiftl_spec by lia.
    destruct (decide (i < 12)); [rewrite !(Z.testbit_neg_r _ (i - 12)) by lia; by rewrite andb_false_r |].
    rewrite Z.shiftr_spec, ones_testbit by lia. replace (i - 12 + 12) with i by lia.
    case_bool_decide; [by rewrite andb_true_r | rewrite andb_false_r].
    symmetry. apply (testbit_above _ 33); lia. }
  rewrite Z.shiftl_mul_pow2, Z.shiftr_div_pow2 by lia. change (2 ^ 12) with 4096.
  replace ((size + 4095) / 4096 * 4096) with size; [apply u32_id; done |].
  pose proof (Z.div_mod size 4096). replace (size + 4095) with (size / 4096 * 4096 + 4095) by lia.
  rewrite Z.div_add_l by lia. change (4095 / 4096) with 0. lia.
Qed.



(** [set_memory_top] gives the allocator the whole area from the first free page
    again, although [idle_thread_entry] has already made 256MB of it available: after
    an ordinary start of the first core the allocator finds its chunk at 128MB a second
    time and never comes back from its double-free exception. *)
Theorem set_memory_top_double_free :
  match (_ ← boot_core_0 0x96000; MapValue__DRIVER_SYSTEM__set_memory_top 0 0x3b400000)
    (Sys initial_driver empty_allocator) with
  | Ok _ _ => False
  | Stop r s => r = Spin 28 ∧ board_initialised (drv s) = true
  end.
Proof. by vm_compute. Qed.
