(* ===== verification/KernelInit.v ===== *)
(** * Starting the kernel

    [kernel_translation_tables.c] and the initialisation in [secure_el1.c]: the
    shared kernel tables, the move to high memory, the heap and the interface table,
    and the maps and threads of the drivers, up to the first [el1_enter_thread].

    What the linker and the build provide (addresses of sections, the size of a
    [Core], the generated table of drivers) is the record [layout].  A write of a
    system register is recorded in [sysregs], latest first.  Barriers, [sev] and
    [TLBI] have no effect on the state.  The core is core 0 of the system; the
    [runnable] member of the others is [other_runnable]. *)

From S2P Require Import Prelude Vmsa SystemServices Kernel LinkedLists Heap Interfaces Maps.
Import Vmsa.

Inductive sysreg : Type :=
  | VBAR_EL1 | CNTKCTL_EL1 | MAIR_EL1 | TCR_EL1 | TTBR1_EL1 | TTBR0_EL1 | SCTLR_EL1
  | TTBR0_EL2 | MAIR_EL2 | TCR_EL2 | SP_EL2 | SCTLR_EL2
  | SP_EL1 | SP_EL3 | SPSR_EL3 | ELR_EL3 | TCR_EL3 | MAIR_EL3 | TTBR0_EL3 | SCTLR_EL3.

#[global] Instance sysreg_eq_dec : EqDecision sysreg.
Proof. solve_decision. Defined.

Record layout : Type := Layout {
  at_rw_start : Z;
  at_rw_end : Z;
  initial_first_free_page : Z;
  kernel_tt_l2_at : Z;
  kernel_tt_l3_at : Z;
  VBAR_SEL1 : Z;
  sizeof_core : Z;
  offset_of_core : Z;          (* of the member [core] of a Core *)
  offset_of_el2_stack_end : Z;
  offset_of_el3_stack_end : Z;
  number_of_cores : Z;
  memory_attributes : Z;       (* Aarch64_VMSA_Isambard_memory_attributes *)
  drivers : list driver_info;
}.

Record boot : Type := Boot {
  kernel : kstate;
  kernel_tt_l2 : list Z;       (* 16 entries *)
  kernel_tt_l3 : list Z;       (* 512 entries *)
  first_free_page : Z;
  kernel_interfaces_offset : Z;
  low_virtual_address : Z;
  secure_registers : list (sysreg * Z);
  sysregs : list (sysreg * Z);
  other_runnable : gmap Z Z;
}.

Definition set_kernel (v : kstate) (b : boot) : boot :=
  Boot v (kernel_tt_l2 b) (kernel_tt_l3 b) (first_free_page b) (kernel_interfaces_offset b)
    (low_virtual_address b) (secure_registers b) (sysregs b) (other_runnable b).
Definition set_kernel_tt_l2 (v : list Z) (b : boot) : boot :=
  Boot (kernel b) v (kernel_tt_l3 b) (first_free_page b) (kernel_interfaces_offset b)
    (low_virtual_address b) (secure_registers b) (sysregs b) (other_runnable b).
Definition set_kernel_tt_l3 (v : list Z) (b : boot) : boot :=
  Boot (kernel b) (kernel_tt_l2 b) v (first_free_page b) (kernel_interfaces_offset b)
    (low_virtual_address b) (secure_registers b) (sysregs b) (other_runnable b).
Definition set_first_free_page (v : Z) (b : boot) : boot :=
  Boot (kernel b) (kernel_tt_l2 b) (kernel_tt_l3 b) v (kernel_interfaces_offset b)
    (low_virtual_address b) (secure_registers b) (sysregs b) (other_runnable b).
Definition set_kernel_interfaces_offset (v : Z) (b : boot) : boot :=
  Boot (kernel b) (kernel_tt_l2 b) (kernel_tt_l3 b) (first_free_page b) v
    (low_virtual_address b) (secure_registers b) (sysregs b) (other_runnable b).
Definition set_low_virtual_address (v : Z) (b : boot) : boot :=
  Boot (kernel b) (kernel_tt_l2 b) (kernel_tt_l3 b) (first_free_page b) (kernel_interfaces_offset b)
    v (secure_registers b) (sysregs b) (other_runnable b).
Definition set_registers (s r : list (sysreg * Z)) (b : boot) : boot :=
  Boot (kernel b) (kernel_tt_l2 b) (kernel_tt_l3 b) (first_free_page b) (kernel_interfaces_offset b)
    (low_virtual_address b) s r (other_runnable b).
Definition set_other_runnable (v : gmap Z Z) (b : boot) : boot :=
  Boot (kernel b) (kernel_tt_l2 b) (kernel_tt_l3 b) (first_free_page b) (kernel_interfaces_offset b)
    (low_virtual_address b) (secure_registers b) (sysregs b) v.

Abbreviation B := (M boot).

Definition in_kernel {A} (m : K A) : B A := λ b,
  match m (kernel b) with
  | Ok a k => Ok a (set_kernel k b)
  | Stop r k => Stop r (set_kernel k b)
  end.
Definition msr (r : sysreg) (v : Z) : B unit :=
  modify (λ b, set_registers (secure_registers b) ((r, v) :: sysregs b) b).
Definition set_secure (r : sysreg) (v : Z) : B unit :=
  modify (λ b, set_registers ((r, v) :: secure_registers b) (sysregs b) b).

(** ** The shared kernel tables *)

(** [kernel_tt_l3[i] = entry] *)
Definition set_kernel_l3 (i entry : Z) : B unit :=
  t ← gets kernel_tt_l3;
  if bool_decide (0 ≤ i < Z.of_nat (length t)) then modify (set_kernel_tt_l3 (<[Z.to_nat i := entry]> t))
  else halt (Fault i).

Definition assign_kernel_entry (entry kernel_page : Z) : B unit :=
  t ← gets kernel_tt_l3;
  _ ← guard_stop (bool_decide (512 ≤ kernel_page)) (Spin 79);
  _ ← guard_stop (bool_decide (nth (Z.to_nat kernel_page) t 0 ≠ Aarch64_VMSA_invalid)) (Spin 79);
  set_kernel_l3 kernel_page entry.

(** The assignments that follow the permissions of a kernel page. *)
Definition finish_kernel_page (entry : Z) : Z :=
  let entry := put access_flag 1 entry in
  let entry := put shareability 3 entry in
  let entry := Aarch64_VMSA_global entry in
  Aarch64_VMSA_write_back_memory entry.

Definition kernel_code_page (i : Z) : Z :=
  finish_kernel_page (Aarch64_VMSA_priv_r_x (Aarch64_VMSA_page_at (Z.shiftl i 12))).
Definition kernel_data_page (i : Z) : Z :=
  finish_kernel_page (Aarch64_VMSA_priv_rw_ (Aarch64_VMSA_page_at (Z.shiftl i 12)) 3).
Definition kernel_core_page (core0 writable_area_end i : Z) : Z :=
  finish_kernel_page (Aarch64_VMSA_priv_rw_
    (Aarch64_VMSA_page_at (u64 (core0 + Z.shiftl i 12 - writable_area_end))) 3).

(** The rounds of [for (i = from; (i << 12) < limit; i++)]. *)
Definition pages_below (from limit : Z) : nat := Z.to_nat ((limit + 4095) / 4096 - from).

Section with_layout.
Context (la : layout).

Definition initialise_shared_isambard_kernel_tables (core0 cores : Z) : B unit :=
  l2 ← gets kernel_tt_l2;
  if bool_decide (nth 0 l2 0 ≠ 0) then mret () else
  _ ← modify (set_kernel_tt_l2 (<[0%nat := Aarch64_VMSA_subtable_at (kernel_tt_l3_at la)]> l2));
  let writable_area := at_rw_start la in
  let writable_area_end := at_rw_end la in
  _ ← for_range (pages_below 0 writable_area) 0 (λ i, set_kernel_l3 i (kernel_code_page i));
  let i := Z.shiftr writable_area 12 in
  _ ← for_range (pages_below i writable_area_end) i (λ i, set_kernel_l3 i (kernel_data_page i));
  let virtual_cores_area_end := writable_area_end + cores * sizeof_core la in
  let i := Z.shiftr writable_area_end 12 in
  for_range (pages_below i virtual_cores_area_end) i (λ i,
    set_kernel_l3 i (kernel_core_page core0 writable_area_end i)).

Definition himem_address (offset : Z) : Z := u64 (offset + himem_offset).

(** ** Entering high memory *)

(** [TCR1]: the fields the code sets. *)
Definition t0sz : field := Field 0 6.
Definition inner_cache0 : field := Field 8 2.
Definition outer_cache0 : field := Field 10 2.
Definition shareable0 : field := Field 12 2.
Definition granule0 : field := Field 14 2.
Definition t1sz : field := Field 16 6.
Definition inner_cache1 : field := Field 24 2.
Definition outer_cache1 : field := Field 26 2.
Definition shareable1 : field := Field 28 2.
Definition granule1 : field := Field 30 2.
Definition intermediate_physical_address_size : field := Field 32 3.
Definition large_asid : field := Field 36 1.

Definition tcr_el1 : Z :=
  let tcr := put t0sz 30 0 in
  let tcr := put inner_cache0 1 tcr in
  let tcr := put outer_cache0 1 tcr in
  let tcr := put shareable0 0 tcr in
  let tcr := put granule0 0 tcr in
  let tcr := put t1sz 39 tcr in
  let tcr := put inner_cache1 1 tcr in
  let tcr := put outer_cache1 1 tcr in
  let tcr := put shareable1 3 tcr in
  let tcr := put granule1 0 tcr in
  let tcr := put intermediate_physical_address_size 0 tcr in
  put large_asid 1 tcr.

(** The low-memory entry that keeps the code running while the MMU is switched on. *)
Definition low_memory_entry : Z :=
  let entry := Aarch64_VMSA_block_at 0 in
  let entry := Aarch64_VMSA_priv_rwx entry in
  let entry := Aarch64_VMSA_outer_write_through_memory entry in
  let entry := Aarch64_VMSA_not_global entry in
  put access_flag 1 entry.

(** The five bits that are or-ed into [SCTLR_EL1]: M, C, I, DZE, UCI. *)
Definition sctlr_bits (sctlr : Z) : Z :=
  Z.lor (Z.lor (Z.lor (Z.lor (Z.lor sctlr (Z.shiftl 1 0)) (Z.shiftl 1 2)) (Z.shiftl 1 12)) (Z.shiftl 1 14))
    (Z.shiftl 1 26).

(** The registers of the EL1 translation regime; [sctlr] is the value that is read from
    [SCTLR_EL1]. *)
Definition write_el1_registers (phys_core sctlr : Z) : B unit :=
  _ ← msr MAIR_EL1 (memory_attributes la);
  _ ← msr TCR_EL1 tcr_el1;
  _ ← set_secure TCR_EL1 tcr_el1;
  _ ← set_secure TTBR1_EL1 (kernel_tt_l2_at la);
  _ ← msr TTBR1_EL1 (kernel_tt_l2_at la);
  _ ← msr TTBR0_EL1 (phys_core + offset_of_core_tt_l1);
  _ ← msr SCTLR_EL1 (sctlr_bits sctlr);
  set_secure SCTLR_EL1 (sctlr_bits sctlr).

(** Up to the call of [himem_code]; the result is its argument. *)
Definition switch_to_running_in_high_memory (phys_core sctlr : Z) : B Z :=
  let virtual_stack_offset := u64 (initial_first_free_page la - at_rw_end la) in
  _ ← in_kernel (upd_core (set_physical_address phys_core));
  let va := u64 (phys_core - virtual_stack_offset) in
  _ ← modify (set_low_virtual_address va);
  _ ← in_kernel (set_l1 0 low_memory_entry);
  _ ← write_el1_registers phys_core sctlr;
  _ ← in_kernel (set_l1 0 Aarch64_VMSA_invalid);
  mret (himem_address va).

(** ** Entering the lower exception levels *)
Definition el3_prepare_el2_for_entry (core : Z) : B unit :=
  _ ← msr TTBR0_EL2 (kernel_tt_l2_at la);
  _ ← msr MAIR_EL2 (memory_attributes la);
  _ ← msr TCR_EL2 0x80003527;
  _ ← msr SP_EL2 (core + offset_of_el2_stack_end la);
  let sctlr2 := 0x30c5183f in
  msr SCTLR_EL2 (Z.lor sctlr2 (Z.lor (Z.lor (Z.lor (Z.lor (Z.shiftl 1 12) (Z.shiftl 1 3)) (Z.shiftl 1 2))
    (Z.shiftl 1 1)) (Z.shiftl 1 0))).

(** The three registers [x0] to [x2] at the [eret]. *)
Definition el3_run_at_secure_el1 (core number present code : Z) : B (Z * Z * Z) :=
  c ← in_kernel get_core;
  _ ← msr SP_EL1 (physical_address c + offset_of_core la);
  _ ← msr SP_EL3 (core + offset_of_el3_stack_end la);
  _ ← msr SPSR_EL3 0xc5;
  _ ← msr ELR_EL3 code;
  mret (physical_address c, number, present).

(** [TCR3] *)
Definition tcr3_shareable : field := Field 12 2.
Definition tcr3_res5 : field := Field 31 1.
Definition tcr_el3 : Z :=
  put tcr3_res5 1 (put granule0 0 (put tcr3_shareable 3 (put outer_cache0 1 (put inner_cache0 1 (put t0sz 39 0))))).

(** Up to the call of [code]; the result is the address of the [Core] it is given. *)
Definition el3_run_with_mmu (core sctlr : Z) : B Z :=
  let virtual_stack_offset := u64 (initial_first_free_page la - at_rw_end la) in
  _ ← msr TCR_EL3 tcr_el3;
  _ ← msr MAIR_EL3 (memory_attributes la);
  _ ← msr TTBR0_EL3 (kernel_tt_l2_at la);
  _ ← msr SCTLR_EL3 (Z.lor (Z.lor (Z.lor sctlr (Z.shiftl 1 0)) (Z.shiftl 1 2)) (Z.shiftl 1 12));
  let core := u64 (core - virtual_stack_offset) in
  _ ← msr SP_EL3 (core + offset_of_core la);
  mret core.

(** ** Heap and interfaces *)
Definition pages_needed_for (size : Z) : Z := Z.shiftr (size + 4095) 12.

Definition sizeof_Interface : Z := 24.

(** The entry of a page of kernel storage. *)
Definition storage_page (physical : Z) : Z :=
  let entry := Aarch64_VMSA_page_at physical in
  let entry := Aarch64_VMSA_priv_rw_ entry 1 in
  let entry := put access_flag 1 entry in
  let entry := put shareability 3 entry in
  let entry := put not_global 0 entry in
  Aarch64_VMSA_write_back_memory entry.

(** The [Interface]s that fit in the pages; [contents] is what the memory holds. *)
Fixpoint interfaces_in (n : nat) (contents : Z → Interface) : gmap Z Interface :=
  match n with
  | O => ∅
  | S n => <[Z.of_nat n := contents (Z.of_nat n)]> (interfaces_in n contents)
  end.

(** [core0] is the high address of the first [Core]. *)
Definition map_initial_storage (contents : Z → Interface) (core0 initial_heap initial_interfaces : Z) : B unit :=
  _ ← guard_stop (bool_decide (initial_interfaces < number_of_special_interfaces)) (Bsod 725);
  let heap_pages := pages_needed_for initial_heap in
  let interface_pages := pages_needed_for (initial_interfaces * sizeof_Interface) in
  let offset := u32 (core0 + number_of_cores la * sizeof_core la - start_address) in
  _ ← modify (set_kernel_interfaces_offset offset);
  let interfaces_page := Z.shiftr offset 12 in
  first_physical_interfaces_page ← gets first_free_page;
  _ ← modify (λ b, set_first_free_page (u64 (first_free_page b + Z.shiftl interface_pages 12)) b);
  _ ← for_range (Z.to_nat interface_pages) 0 (λ i,
        assign_kernel_entry (storage_page (first_physical_interfaces_page + Z.shiftl i 12)) (interfaces_page + i));
  _ ← in_kernel (modify (λ k, set_interfaces
        (interfaces_in (Z.to_nat (interface_pages * 4096 / sizeof_Interface)) contents) k));
  first_physical_heap_page ← gets first_free_page;
  _ ← modify (λ b, set_first_free_page (u64 (first_free_page b + Z.shiftl heap_pages 12)) b);
  for_range (Z.to_nat heap_pages) 0 (λ i,
    assign_kernel_entry (storage_page (first_physical_heap_page + Z.shiftl i 12)) (512 - heap_pages + i)).

(** ** The drivers' maps *)

(** The four assignments to an interface. *)
Definition fill_interface (i object_ user_ provider_ handler_ : Z) : K unit :=
  _ ← upd_interface i (λ e, MkInterface (user e) (provider e) (handler e) object_);
  _ ← upd_interface i (λ e, MkInterface user_ (provider e) (handler e) (object e));
  _ ← upd_interface i (λ e, MkInterface (user e) provider_ (handler e) (object e));
  upd_interface i (λ e, MkInterface (user e) (provider e) handler_ (object e)).

(** [interface_from_index( n )], used without a check. *)
Definition special_interface (n object_ user_ provider_ handler_ : Z) : K unit :=
  k ← gets id;
  match interface_from_index k n with
  | Some i => fill_interface i object_ user_ provider_ handler_
  | None => halt (Fault 0)
  end.

(** The system initialisation thread of core [n]. *)
Definition system_thread (n free_page : Z) : K Z :=
  thread ← allocate_thread 0;
  _ ← initialise_new_thread thread;
  _ ← upd_thread thread (set_current_map system_map_index);
  _ ← upd_thread thread (set_pc 0);
  _ ← upd_thread thread (set_spsr 0);
  _ ← upd_thread thread (set_reg 0 system_map_index);
  _ ← upd_thread thread (set_reg 1 memory_allocator_map_index);
  _ ← upd_thread thread (set_reg 2 n);
  _ ← upd_thread thread (set_reg 3 free_page);
  mret thread.

(** The loop over the cores that are present; [count] rounds are left. *)
Fixpoint system_threads (count : nat) (n standard_isambard_cores free_page : Z) : B unit :=
  match count with
  | O => halt (Spin 783)
  | S count =>
      if bool_decide (2 ^ n ≤ standard_isambard_cores) then
        _ ← when (Z.testbit standard_isambard_cores n) (
              thread ← in_kernel (system_thread n free_page);
              if bool_decide (n = 0) then in_kernel (upd_core (set_runnable thread))
              else modify (λ b, set_other_runnable (<[n := thread]> (other_runnable b)) b));
        system_threads count (n + 1) standard_isambard_cores free_page
      else mret ()
  end.

Definition INITIAL_VMBs_PER_DRIVER : Z := 12.

(** [vmb[j]... = ...] for the five fields. *)
Definition fill_vmb (vmb j start_page page_count read_only_ executable memory_block : Z) : K unit :=
  modify (λ k, set_heap_word (u64 (vmb + 8 * j))
    (vmb_make start_page page_count read_only_ executable memory_block (heap_word k (u64 (vmb + 8 * j)))) k).

(** The table of the map and its interface. *)
Definition driver_block_table (d : driver_info) (map_interface code_interface data_interface : Z) : K unit :=
  vmb ← allocate_heap (INITIAL_VMBs_PER_DRIVER * 8);
  let mv := mv_make (heap_offset_lsr4 vmb) map_interface INITIAL_VMBs_PER_DRIVER in
  _ ← fill_interface map_interface mv map_interface system_map_index System_Service_Map;
  _ ← fill_vmb vmb 0 0 (code_pages d) 1 1 code_interface;
  _ ← fill_vmb vmb 1 (code_pages d) (data_pages d) 0 0 data_interface;
  modify (set_heap_word (u64 (vmb + 16)) 0).

(** The interfaces of its two memory blocks. *)
Definition driver_blocks (d : driver_info) (map_interface code_interface data_interface : Z) : K unit :=
  let start := Z.shiftr (u32 (driver_start d)) 12 in
  _ ← fill_interface code_interface (cmb_make start (code_pages d) Fully_Cacheable)
        map_interface system_map_index System_Service_PhysicalMemoryBlock;
  fill_interface data_interface (cmb_make (start + code_pages d) (data_pages d) Fully_Cacheable)
    map_interface system_map_index System_Service_PhysicalMemoryBlock.

(** Its first thread. *)
Definition driver_thread (map_interface : Z) : K Z :=
  thread ← allocate_thread 0;
  _ ← initialise_new_thread thread;
  _ ← upd_thread thread (set_current_map map_interface);
  _ ← upd_thread thread (set_pc 0);
  _ ← upd_thread thread (set_spsr 0);
  _ ← upd_thread thread (set_reg 0 map_interface);
  mret thread.

(** One round of the loop over the drivers. *)
Definition driver_map (d : driver_info) : K unit :=
  map_interface ← obtain_interface;
  code_interface ← obtain_interface;
  data_interface ← obtain_interface;
  _ ← guard_stop (bool_decide (Z.land (driver_start d) 0xfff ≠ 0 ∨ Z.land (driver_end d) 0xfff ≠ 0)) (Bsod 807);
  _ ← driver_block_table d map_interface code_interface data_interface;
  _ ← driver_blocks d map_interface code_interface data_interface;
  thread ← driver_thread map_interface;
  insert_thread_at_tail CoreRunnable thread.

Fixpoint driver_maps (ds : list driver_info) : K unit :=
  match ds with
  | [] => mret ()
  | d :: ds => _ ← driver_map d; driver_maps ds
  end.

Definition number_of_system_maps : nat := 2.

Definition initialise_driver_maps (standard_isambard_cores free_page : Z) : B unit :=
  _ ← in_kernel (special_interface system_map_index 0x535953 system_map_index system_map_index System_Service_Map);
  _ ← in_kernel (special_interface memory_allocator_map_index 0x4d454d system_map_index
        memory_allocator_map_index max_physical_memory);
  _ ← system_threads 64 0 standard_isambard_cores free_page;
  in_kernel (driver_maps (drop number_of_system_maps (drivers la))).

(** ** Entry points *)
Definition enter_secure_el1_himem (contents : Z → Interface) (core standard_isambard_cores : Z) : B thread_switch :=
  _ ← msr VBAR_EL1 (VBAR_SEL1 la);
  _ ← set_secure VBAR_EL1 (VBAR_SEL1 la);
  _ ← msr CNTKCTL_EL1 0x303;
  _ ← in_kernel (upd_core (set_core_self core));
  c ← in_kernel get_core;
  _ ← (if bool_decide (core_number c = 0) then
         _ ← map_initial_storage contents core 65536 512;
         _ ← in_kernel (new_memory_for_interfaces 512);
         _ ← in_kernel (initialise_system_map (driver_at (drivers la) 0));
         free_page ← gets first_free_page;
         initialise_driver_maps standard_isambard_cores free_page
       else guard_stop (bool_decide (runnable c = 0)) (Spin 895));
  _ ← in_kernel (upd_core (set_loaded_map illegal_interface_index));
  c ← in_kernel get_core;
  t ← in_kernel (get_thread (runnable c));
  _ ← in_kernel (load_this_map (drivers la) (current_map t));
  mret (ThreadSwitch (runnable c) 0).

(** The whole way of a core from EL1 without MMU to its first thread; [number] is 0
    for the core that initialises the tables. *)
Definition isambard_secure_el1 (contents : Z → Interface) (phys_core number present sctlr : Z) : B thread_switch :=
  _ ← in_kernel clear_core_translation_tables;
  _ ← in_kernel (upd_core (set_core_number number));
  _ ← when (bool_decide (number = 0))
        (initialise_shared_isambard_kernel_tables phys_core (number_of_cores la));
  core ← switch_to_running_in_high_memory phys_core sctlr;
  enter_secure_el1_himem contents core present.
End with_layout.

(** ** The entries of the kernel tables *)
Definition no_el0 (writable : bool) : rights := Rights false false writable true.

Lemma finish_kernel_page_spec entry :
  output_address (finish_kernel_page entry) = output_address entry ∧
  rights_of (finish_kernel_page entry) = rights_of entry ∧ get type (finish_kernel_page entry) = get type entry.
Proof.
  unfold finish_kernel_page, rights_of, output_address, Aarch64_VMSA_global, Aarch64_VMSA_write_back_memory.
  by split_and!; simp_vmsa.
Qed.

Lemma page_spec physical :
  0 ≤ physical < 2 ^ 51 → physical mod 4096 = 0 →
  get type (Aarch64_VMSA_page_at physical) = 3 ∧ output_address (Aarch64_VMSA_page_at physical) = physical ∧
  get privileged_execute_never (Aarch64_VMSA_page_at physical) = 0.
Proof.
  intros Hr Ha. unfold Aarch64_VMSA_page_at. split_and!; [by simp_vmsa | by apply put_type_address |].
  simp_vmsa. unfold get. simpl. rewrite get_bits_alt by lia. rewrite Z.div_small by lia. done.
Qed.

Lemma code_page_spec i :
  0 ≤ i < 2 ^ 39 →
  get type (kernel_code_page i) = 3 ∧ output_address (kernel_code_page i) = i * 4096 ∧
  rights_of (kernel_code_page i) = no_el0 false.
Proof.
  intros Hi. unfold kernel_code_page. rewrite Z.shiftl_mul_pow2 by lia. change (2 ^ 12) with 4096.
  destruct (page_spec (i * 4096)) as (Ht & Ho & _); [lia | by apply Z.mod_mul |].
  set (p := Aarch64_VMSA_page_at _) in *.
  destruct (finish_kernel_page_spec (Aarch64_VMSA_priv_r_x p)) as (-> & -> & ->).
  unfold Aarch64_VMSA_priv_r_x, output_address in *. rewrite !get_put_permissions by (simpl; lia).
  split_and!; [done | done |]. unfold rights_of.
  destruct (put_permissions_rights (Some 0) 0 1 0 p) as (-> & -> & _ & ->); try done; try lia.
  intros q [= <-]. lia.
Qed.

Lemma data_page_spec physical :
  0 ≤ physical < 2 ^ 51 → physical mod 4096 = 0 →
  let e := finish_kernel_page (Aarch64_VMSA_priv_rw_ (Aarch64_VMSA_page_at physical) 3) in
  get type e = 3 ∧ output_address e = physical ∧ rights_of e = no_el0 true.
Proof.
  intros Hr Ha e. unfold e. destruct (page_spec physical Hr Ha) as (Ht & Ho & Hp).
  set (p := Aarch64_VMSA_page_at physical) in *.
  destruct (finish_kernel_page_spec (Aarch64_VMSA_priv_rw_ p 3)) as (-> & -> & ->).
  unfold Aarch64_VMSA_priv_rw_, output_address in *. rewrite !get_put_permissions by (simpl; lia).
  split_and!; [done | done |]. unfold rights_of.
  destruct (put_permissions_rights (pxn_if_level1 3) 1 0 0 p) as (-> & -> & _ & ->); try done; try lia.
  change (pxn_if_level1 3) with (@None Z). cbn iota. by rewrite Hp.
Qed.

(** ** The tables *)
Definition l3_entry (b : boot) (i : Z) : Z := nth (Z.to_nat i) (kernel_tt_l3 b) 0.

Lemma set_kernel_l3_ok b i e :
  0 ≤ i < Z.of_nat (length (kernel_tt_l3 b)) →
  set_kernel_l3 i e b = Ok () (set_kernel_tt_l3 (<[Z.to_nat i := e]> (kernel_tt_l3 b)) b).
Proof. intros Hi. unfold set_kernel_l3. rewrite gets_ok. by rewrite bool_decide_eq_true_2. Qed.

Lemma nth_insert (l : list Z) i j v :
  0 ≤ i < Z.of_nat (length l) → 0 ≤ j →
  nth (Z.to_nat j) (<[Z.to_nat i := v]> l) 0 = if bool_decide (j = i) then v else nth (Z.to_nat j) l 0.
Proof.
  intros Hi Hj. rewrite !nth_lookup. case_bool_decide as H.
  - subst. by rewrite list_lookup_insert_eq by lia.
  - by rewrite list_lookup_insert_ne by lia.
Qed.

Lemma nth_repeat_zero n i : nth i (replicate n (0 : Z)) 0 = 0.
Proof. rewrite nth_lookup. destruct (replicate n 0 !! i) eqn:E; [|done]. by apply lookup_replicate in E as [-> _]. Qed.

(** A loop that fills the entries from [from] on. *)
Lemma fill_l3 n from (f : Z → Z) b :
  0 ≤ from → from + Z.of_nat n ≤ Z.of_nat (length (kernel_tt_l3 b)) →
  ∃ t, for_range n from (λ i, set_kernel_l3 i (f i)) b = Ok () (set_kernel_tt_l3 t b) ∧
    length t = length (kernel_tt_l3 b) ∧
    ∀ i, 0 ≤ i → nth (Z.to_nat i) t 0 = if bool_decide (from ≤ i < from + Z.of_nat n) then f i else l3_entry b i.
Proof.
  intros Hf Hn.
  destruct (for_range_inv (λ k s, s = set_kernel_tt_l3 (kernel_tt_l3 s) b ∧
      length (kernel_tt_l3 s) = length (kernel_tt_l3 b) ∧
      ∀ i, 0 ≤ i → l3_entry s i = if bool_decide (from ≤ i < k) then f i else l3_entry b i)
    (λ i, set_kernel_l3 i (f i)) n from b) as (s & E & Hs & Hl & Hi).
  - split_and!; [by destruct b | done |]. intros i Hi. by rewrite bool_decide_eq_false_2 by lia.
  - intros k s Hk (Hs & Hl & Hi). eexists. split; [apply set_kernel_l3_ok; lia |].
    split_and!; [by rewrite Hs | by simpl; rewrite length_insert |].
    intros i Hi0. unfold l3_entry. cbn [kernel_tt_l3 set_kernel_tt_l3]. rewrite nth_insert by lia.
    specialize (Hi i Hi0). unfold l3_entry in Hi. rewrite Hi. destruct (decide (i = k)) as [-> | Hne].
    + by rewrite !bool_decide_eq_true_2 by lia.
    + rewrite (bool_decide_eq_false_2 (i = k)) by done. repeat case_bool_decide; try done; lia.
  - exists (kernel_tt_l3 s). rewrite <- Hs. done.
Qed.

(** The layout is one the linker script produces: page-aligned sections and cores that
    fit in the first 2MB. *)
Record good_layout (la : layout) (cores : Z) : Prop := {
  gl_start : 0 ≤ at_rw_start la ≤ at_rw_end la;
  gl_start_aligned : at_rw_start la mod 4096 = 0;
  gl_end_aligned : at_rw_end la mod 4096 = 0;
  gl_core : 0 ≤ sizeof_core la;
  gl_core_aligned : sizeof_core la mod 4096 = 0;
  gl_cores : 0 ≤ cores;
  gl_end : at_rw_end la + cores * sizeof_core la ≤ 2 ^ 21;
  gl_table : 0 ≤ kernel_tt_l3_at la < 2 ^ 51;
  gl_table_aligned : kernel_tt_l3_at la mod 4096 = 0;
}.

(** The end of the area of the cores. *)
Definition cores_end (la : layout) (cores : Z) : Z := at_rw_end la + cores * sizeof_core la.

(** What the tables say of the page of a kernel address [a] (from [start_address]). *)
Definition page_entry (la : layout) (core0 cores i old : Z) : Z :=
  if bool_decide (i * 4096 < at_rw_start la) then kernel_code_page i
  else if bool_decide (i * 4096 < at_rw_end la) then kernel_data_page i
  else if bool_decide (i * 4096 < cores_end la cores) then kernel_core_page core0 (at_rw_end la) i
  else old.

Lemma pages_below_ok from limit :
  0 ≤ from → limit mod 4096 = 0 → from * 4096 ≤ limit → from + Z.of_nat (pages_below from limit) = limit / 4096.
Proof.
  intros Hf Hl Hle. unfold pages_below.
  assert ((limit + 4095) / 4096 = limit / 4096) as ->.
  { pose proof (Z.div_mod limit 4096). replace (limit + 4095) with (limit / 4096 * 4096 + 4095) by lia.
    rewrite Z.div_add_l by lia. change (4095 / 4096) with 0. lia. }
  pose proof (Z.div_le_lower_bound limit 4096 from). lia.
Qed.

Lemma kernel_tables_filled la core0 cores b :
  good_layout la cores → nth 0 (kernel_tt_l2 b) 0 = 0 → length (kernel_tt_l3 b) = 512%nat →
  ∃ t, initialise_shared_isambard_kernel_tables la core0 cores b =
      Ok () (set_kernel_tt_l3 t (set_kernel_tt_l2
               (<[0%nat := Aarch64_VMSA_subtable_at (kernel_tt_l3_at la)]> (kernel_tt_l2 b)) b)) ∧
    length t = 512%nat ∧
    ∀ i, 0 ≤ i → nth (Z.to_nat i) t 0 = page_entry la core0 cores i (l3_entry b i).
Proof.
  intros [Hs Hsa Hea Hc Hca Hn He _ _] Hl2 Hl3. unfold initialise_shared_isambard_kernel_tables.
  rewrite gets_ok, Hl2, bool_decide_eq_false_2, modify_ok by tauto.
  match goal with |- context [(_ ≫= _) ?x] => set (b1 := x) end.
  assert (∀ x, x mod 4096 = 0 → x = x / 4096 * 4096) as Hdiv by (intros x Hx; pose proof (Z.div_mod x 4096); lia).
  pose proof (Hdiv _ Hsa) as Hs'. pose proof (Hdiv _ Hea) as He'.
  assert (cores_end la cores mod 4096 = 0) as Hce.
  { unfold cores_end. rewrite Z.add_mod, Z.mul_mod, Hea, Hca, Z.mul_0_r by lia. done. }
  pose proof (Hdiv _ Hce) as Hc'. fold (cores_end la cores) in *.
  assert (at_rw_end la ≤ cores_end la cores) by (unfold cores_end; nia).
  pose proof (pages_below_ok 0 (at_rw_start la)) as P1.
  pose proof (pages_below_ok (at_rw_start la / 4096) (at_rw_end la)) as P2.
  pose proof (pages_below_ok (at_rw_end la / 4096) (cores_end la cores)) as P3.
  rewrite !Z.shiftr_div_pow2 by lia. change (2 ^ 12) with 4096. change (2 ^ 21) with (512 * 4096) in He.
  destruct (fill_l3 (pages_below 0 (at_rw_start la)) 0 kernel_code_page b1) as (t1 & E1 & L1 & F1);
    [lia | simpl; lia |].
  rewrite (bind_ok _ _ _ _ _ E1).
  destruct (fill_l3 (pages_below (at_rw_start la / 4096) (at_rw_end la)) (at_rw_start la / 4096)
    kernel_data_page (set_kernel_tt_l3 t1 b1)) as (t2 & E2 & L2 & F2); [lia | simpl in *; lia |].
  rewrite (bind_ok _ _ _ _ _ E2).
  destruct (fill_l3 (pages_below (at_rw_end la / 4096) (cores_end la cores)) (at_rw_end la / 4096)
    (kernel_core_page core0 (at_rw_end la)) (set_kernel_tt_l3 t2 (set_kernel_tt_l3 t1 b1))) as (t3 & E3 & L3 & F3);
    [lia | simpl in *; lia |].
  exists t3. split; [exact E3 |]. split; [simpl in *; lia |]. intros i Hi.
  rewrite F3 by done. unfold l3_entry at 1. cbn [kernel_tt_l3 set_kernel_tt_l3]. rewrite F2 by done.
  unfold l3_entry at 1. cbn [kernel_tt_l3 set_kernel_tt_l3]. rewrite F1 by done.
  unfold page_entry. repeat case_bool_decide; try done; lia.
Qed.

(** The walk from [TTBR1_EL1], at [kernel_tt_l2], for the address [start_address + a]: [T1SZ]
    makes it 32MB and begins at level 2.  The result is the physical address and the descriptor
    that gave it. *)
Definition kernel_walk (la : layout) (b : boot) (a : Z) : option (Z * Z) :=
  if bool_decide (0 ≤ a < 2 ^ 25) then
    e2 ← kernel_tt_l2 b !! Z.to_nat (table_index a level2_lsb);
    if bool_decide (get type e2 = 1) then leaf level2_lsb e2 a
    else if bool_decide (get type e2 = 3 ∧ output_address e2 = kernel_tt_l3_at la) then
      e3 ← kernel_tt_l3 b !! Z.to_nat (table_index a level3_lsb);
      if bool_decide (get type e3 = 3) then leaf level3_lsb e3 a else None
    else None
  else None.

Definition kernel_translate (la : layout) (b : boot) (a : Z) : option Z := fst <$> kernel_walk la b a.

(** The first 2MB are the pages of [kernel_tt_l3], once it is linked in. *)
Lemma kernel_walk_low la cores b a :
  good_layout la cores → kernel_tt_l2 b !! 0%nat = Some (Aarch64_VMSA_subtable_at (kernel_tt_l3_at la)) →
  length (kernel_tt_l3 b) = 512%nat → 0 ≤ a < 2 ^ 21 →
  kernel_walk la b a =
    (if bool_decide (get type (l3_entry b (a / 4096)) = 3) then leaf level3_lsb (l3_entry b (a / 4096)) a else None).
Proof.
  intros Hla H2 H3 Ha. destruct (subtable_entry (kernel_tt_l3_at la)) as [Ht Ho]; [apply Hla | apply Hla |].
  unfold kernel_walk. rewrite bool_decide_eq_true_2 by lia.
  assert (0 ≤ a / 4096 < 512) by (split; [apply Z.div_pos | apply Z.div_lt_upper_bound]; lia).
  assert (table_index a level2_lsb = 0) as ->.
  { rewrite table_index_div by done. unfold level2_lsb. by rewrite Z.div_small by (change (12 + 9) with 21; lia). }
  assert (table_index a level3_lsb = a / 4096) as ->.
  { rewrite table_index_div by done. unfold level3_lsb. change (2 ^ 12) with 4096. by rewrite Z.mod_small. }
  change (Z.to_nat 0) with 0%nat.
  rewrite H2. cbn [mbind option_bind]. rewrite Ht, Ho.
  rewrite (bool_decide_eq_false_2 (3 = 1)) by done. rewrite (bool_decide_eq_true_2 (3 = 3 ∧ _)) by done.
  unfold l3_entry.
  destruct (lookup_lt_is_Some_2 (kernel_tt_l3 b) (Z.to_nat (a / 4096))) as [e3 He3]; [lia |].
  by rewrite nth_lookup, He3.
Qed.

Lemma finish_kernel_access e : get access_flag (finish_kernel_page e) = 1.
Proof. unfold finish_kernel_page, Aarch64_VMSA_global, Aarch64_VMSA_write_back_memory. by simp_vmsa. Qed.

Lemma page_entry_access la core0 cores i old : i * 4096 < cores_end la cores →
  get access_flag (page_entry la core0 cores i old) = 1.
Proof.
  intros H. unfold page_entry. repeat case_bool_decide; [apply finish_kernel_access.. | lia].
Qed.

(** Past the cores nothing is written. *)
Lemma page_entry_behind la core0 cores i old :
  good_layout la cores → cores_end la cores ≤ i * 4096 + 4095 → page_entry la core0 cores i old = old.
Proof.
  intros [Hs Hsa Hea Hc Hca Hn He _ _] Hi. unfold page_entry.
  assert (cores_end la cores mod 4096 = 0) as Hce.
  { unfold cores_end. rewrite Z.add_mod, Z.mul_mod, Hea, Hca, Z.mul_0_r by lia. done. }
  pose proof (Z.div_mod (cores_end la cores) 4096). assert (0 ≤ cores * sizeof_core la) by nia.
  assert (at_rw_end la ≤ cores_end la cores) by (unfold cores_end; lia).
  repeat case_bool_decide; try done; lia.
Qed.

Lemma page_entry_spec la core0 cores a old :
  good_layout la cores → 0 ≤ core0 → core0 mod 4096 = 0 → core0 + cores * sizeof_core la < 2 ^ 51 →
  0 ≤ a < cores_end la cores →
  let e := page_entry la core0 cores (a / 4096) old in
  get type e = 3 ∧
  output_address e + a mod 4096 = (if bool_decide (a < at_rw_end la) then a else core0 + (a - at_rw_end la)) ∧
  rights_of e = no_el0 (bool_decide (at_rw_start la ≤ a)).
Proof.
  intros [Hs Hsa Hea Hc Hca Hn He _ _] H0 Ha0 Hcore Ha e.
  pose proof (Z.div_mod a 4096). pose proof (Z.mod_pos_bound a 4096).
  pose proof (Z.div_mod (at_rw_start la) 4096). pose proof (Z.div_mod (at_rw_end la) 4096).
  assert (0 ≤ cores * sizeof_core la) by nia. unfold cores_end in *.
  unfold e, page_entry, cores_end. destruct (decide (a < at_rw_start la)); [|destruct (decide (a < at_rw_end la))].
  - rewrite bool_decide_eq_true_2 by lia. destruct (code_page_spec (a / 4096)) as (-> & -> & ->); [lia |].
    rewrite bool_decide_eq_true_2, bool_decide_eq_false_2 by lia. split_and!; [done | lia | done].
  - rewrite bool_decide_eq_false_2, bool_decide_eq_true_2 by lia. unfold kernel_data_page.
    destruct (data_page_spec (Z.shiftl (a / 4096) 12)) as (-> & -> & ->).
    { rewrite Z.shiftl_mul_pow2 by lia. change (2 ^ 12) with 4096. lia. }
    { rewrite Z.shiftl_mul_pow2 by lia. by apply Z.mod_mul. }
    rewrite Z.shiftl_mul_pow2 by lia. change (2 ^ 12) with 4096.
    rewrite !bool_decide_eq_true_2 by lia. split_and!; [done | lia | done].
  - rewrite !bool_decide_eq_false_2, bool_decide_eq_true_2 by lia. unfold kernel_core_page.
    rewrite Z.shiftl_mul_pow2 by lia. change (2 ^ 12) with 4096.
    rewrite u64_id by (unfold is_u64; lia).
    destruct (data_page_spec (core0 + a / 4096 * 4096 - at_rw_end la)) as (-> & -> & ->); [lia | |].
    { rewrite Zminus_mod, Z.add_mod, Ha0, Hea, Z.mod_mul by lia. done. }
    rewrite (bool_decide_eq_false_2 (a < _)), bool_decide_eq_true_2 by lia. split_and!; [done | lia | done].
Qed.

(** What the walk gives for an address of the mapped part, and for one behind it. *)
Lemma kernel_walk_page la core0 cores b a old :
  good_layout la cores → 0 ≤ core0 → core0 mod 4096 = 0 → core0 + cores * sizeof_core la < 2 ^ 51 →
  kernel_tt_l2 b !! 0%nat = Some (Aarch64_VMSA_subtable_at (kernel_tt_l3_at la)) →
  length (kernel_tt_l3 b) = 512%nat → l3_entry b (a / 4096) = page_entry la core0 cores (a / 4096) old →
  0 ≤ a < cores_end la cores →
  kernel_walk la b a = Some (if bool_decide (a < at_rw_end la) then a else core0 + (a - at_rw_end la),
                             page_entry la core0 cores (a / 4096) old).
Proof.
  intros Hla H0 Ha0 Hcore H2 H3 He Ha. pose proof (gl_end _ _ Hla) as Hend.
  destruct (page_entry_spec la core0 cores a old Hla H0 Ha0 Hcore Ha) as (Ht & Ho & _).
  rewrite (kernel_walk_low la cores) by (unfold cores_end in *; try done; lia). rewrite He, Ht. cbn [bool_decide decide_rel].
  unfold leaf. rewrite page_entry_access by (pose proof (Z.mul_div_le a 4096); lia).
  rewrite !bool_decide_eq_true_2 by done. unfold level3_lsb. change (2 ^ 12) with 4096.
  rewrite output_address_aligned. do 2 f_equal. lia.
Qed.

Lemma kernel_walk_behind la cores b a :
  good_layout la cores → kernel_tt_l2 b = <[0%nat := Aarch64_VMSA_subtable_at (kernel_tt_l3_at la)]> (replicate 16 0) →
  length (kernel_tt_l3 b) = 512%nat → (a < 2 ^ 21 → l3_entry b (a / 4096) = 0) → 0 ≤ a → kernel_walk la b a = None.
Proof.
  intros Hla H2 H3 He Ha. destruct (decide (a < 2 ^ 21)) as [Hlow | Hhigh].
  - rewrite (kernel_walk_low la cores) by (try rewrite H2; try done; lia). by rewrite He.
  - unfold kernel_walk. case_bool_decide as Hr; [|done]. rewrite H2.
    assert (1 ≤ a / 2 ^ 21 < 16) by (split; [apply Z.div_le_lower_bound | apply Z.div_lt_upper_bound]; lia).
    assert (table_index a level2_lsb = a / 2 ^ 21) as ->.
    { rewrite table_index_div by done. change (2 ^ level2_lsb) with (2 ^ 21). rewrite Z.mod_small; [done | lia]. }
    rewrite list_lookup_insert_ne by lia. rewrite lookup_replicate_2 by lia. done.
Qed.

Lemma in_kernel_ok {A C} (m : K A) (f : A → B C) b a k :
  m (kernel b) = Ok a k → (in_kernel m ≫= f) b = f a (set_kernel k b).
Proof. intros E. apply bind_ok. unfold in_kernel. by rewrite E. Qed.

Lemma write_el1_registers_ok la phys_core sctlr b :
  ∃ s r, write_el1_registers la phys_core sctlr b = Ok () (set_registers s r b).
Proof. unfold write_el1_registers, msr, set_secure. rewrite !modify_ok. eexists _, _. by destruct b. Qed.

Lemma switch_ok la phys_core sctlr b :
  length (core_tt_l1 (core (kernel b))) = 16%nat →
  ∃ b', switch_to_running_in_high_memory la phys_core sctlr b =
      Ok (himem_address (u64 (phys_core - u64 (initial_first_free_page la - at_rw_end la)))) b' ∧
    kernel_tt_l2 b' = kernel_tt_l2 b ∧ kernel_tt_l3 b' = kernel_tt_l3 b ∧
    nth 0 (core_tt_l1 (core (kernel b'))) 0 = Aarch64_VMSA_invalid.
Proof.
  intros Hl1. unfold switch_to_running_in_high_memory, set_l1, upd_core. cbv zeta.
  rewrite (in_kernel_ok (modify _) _ _ () _ eq_refl), modify_ok.
  erewrite in_kernel_ok by (apply store_entry_ok; cbn; rewrite Hl1; done).
  match goal with |- context [(write_el1_registers _ _ _ ≫= _) ?x] => set (b1 := x) end.
  assert (kernel_tt_l2 b1 = kernel_tt_l2 b ∧ kernel_tt_l3 b1 = kernel_tt_l3 b ∧
    length (core_tt_l1 (core (kernel b1))) = 16%nat) as (H2 & H3 & H1).
  { split; [done |]. split; [done |]. cbn. by rewrite length_insert. }
  clearbody b1. destruct (write_el1_registers_ok la phys_core sctlr b1) as (s & r & E).
  rewrite (bind_ok _ _ _ _ _ E).
  erewrite in_kernel_ok by (apply store_entry_ok; cbn; rewrite H1; done).
  eexists. split; [done |]. split; [done |]. split; [done |]. cbn. by destruct (core_tt_l1 (core (kernel b1))).
Qed.

(** ** The maps of the drivers *)
Lemma fill_interface_ok k i e o u p h :
  interfaces k !! i = Some e → fill_interface i o u p h k = Ok () (put_interface i (MkInterface u p h o) k).
Proof.
  intros He. unfold fill_interface, upd_interface.
  assert (∀ k' e' (f : Interface → Interface), interfaces k' !! i = Some e' →
    (e ← get_interface i; modify (put_interface i (f e))) k' = Ok () (put_interface i (f e') k')) as Hupd.
  { intros k' e' f He'. by rewrite (bind_ok _ _ _ _ _ (get_interface_ok _ _ _ He')). }
  assert (∀ k' e', interfaces (put_interface i e' k') !! i = Some e') as Hput by (intros; apply lookup_insert_eq).
  erewrite bind_ok by by apply Hupd. erewrite bind_ok by by apply Hupd. erewrite bind_ok by by apply Hupd.
  erewrite Hupd by done. f_equal. unfold put_interface. simpl. by rewrite !insert_insert_eq.
Qed.

(** A part of the heap address space that [allocate_heap] returns. *)
Definition room (k : kstate) (size : Z) : Prop :=
  kernel_heap_top k = top_of_kernel_working_memory ∧ kernel_heap_bottom k mod 32 = 0 ∧
  size ≤ kernel_heap_bottom k ≤ top_of_kernel_working_memory.

Lemma fill_vmb_ok vmb j s c ro x b k :
  is_u64 (vmb + 8 * j) →
  fill_vmb vmb j s c ro x b k = Ok () (set_heap_word (vmb + 8 * j)
    (vmb_make s c ro x b (heap_word k (vmb + 8 * j))) k).
Proof. intros H. unfold fill_vmb, modify. by rewrite (u64_id _ H). Qed.

(** The two blocks of a driver's map. *)
Definition code_block (d : driver_info) (block v : Z) : Prop :=
  get vmb_start_page v = 0 ∧ get vmb_page_count v = code_pages d ∧ get vmb_read_only v = 1 ∧
  get vmb_executable v = 1 ∧ get vmb_memory_block v = block.
Definition data_block (d : driver_info) (block v : Z) : Prop :=
  get vmb_start_page v = code_pages d ∧ get vmb_page_count v = data_pages d ∧ get vmb_read_only v = 0 ∧
  get vmb_executable v = 0 ∧ get vmb_memory_block v = block.

Lemma driver_block_table_ok k d x y z e :
  room k 96 → interfaces k !! x = Some e → 0 ≤ y < 2 ^ 18 → 0 ≤ z < 2 ^ 18 →
  0 < code_pages d < 2 ^ 20 → 0 < data_pages d < 2 ^ 20 →
  let p := start_address + (kernel_heap_bottom k - 96) in
  let mv := mv_make (heap_offset_lsr4 p) x INITIAL_VMBs_PER_DRIVER in
  ∃ h code data, driver_block_table d x y z k =
      Ok () (set_heap h (put_interface x (MkInterface x system_map_index System_Service_Map mv)
               (set_kernel_heap_bottom (kernel_heap_bottom k - 96) k))) ∧
    code_block d y code ∧ data_block d z data ∧
    default 0 (h !! p) = code ∧ default 0 (h !! (p + 8)) = data ∧ default 0 (h !! (p + 16)) = 0.
Proof.
  intros (Htop & Hal & Hroom) He Hy Hz Hc Hd p mv. unfold driver_block_table, INITIAL_VMBs_PER_DRIVER.
  change (12 * 8) with 96. unfold top_of_kernel_working_memory in *.
  erewrite bind_ok by (apply allocate_heap_ok; change (round_up_32 96) with 96; lia).
  change (round_up_32 96) with 96. fold p. cbv zeta.
  rewrite (bind_ok _ _ _ _ _ (fill_interface_ok (set_kernel_heap_bottom _ k) x e _ _ _ _ He)).
  match goal with |- context [(_ ≫= _) ?x] => set (k1 := x) end.
  assert (∀ i, 0 ≤ i < 3 → is_u64 (p + 8 * i)) as Hp.
  { intros i Hi. unfold is_u64, p, start_address, himem_offset. lia. }
  rewrite (bind_ok _ _ _ _ _ (fill_vmb_ok p 0 _ _ _ _ _ k1 (Hp 0 ltac:(lia)))).
  set (code := vmb_make 0 _ _ _ _ _). set (k2 := set_heap_word (p + 8 * 0) code k1).
  rewrite (bind_ok _ _ _ _ _ (fill_vmb_ok p 1 _ _ _ _ _ k2 (Hp 1 ltac:(lia)))).
  set (data := vmb_make (code_pages d) _ _ _ _ _).
  exists (<[p + 8 * 2 := 0]> (<[p + 8 * 1 := data]> (<[p + 8 * 0 := code]> (heap k)))), code, data.
  split_and!.
  - unfold modify. change (p + 16) with (p + 8 * 2). by rewrite (u64_id (p + 8 * 2)) by (apply Hp; lia).
  - pose proof (vmb_make_fields 0 (code_pages d) 1 1 y (heap_word k1 (p + 8 * 0))) as Hm.
    unfold code_block, code. apply Hm; lia.
  - pose proof (vmb_make_fields (code_pages d) (data_pages d) 0 0 z (heap_word k2 (p + 8 * 1))) as Hm.
    unfold data_block, data. apply Hm; lia.
  - rewrite !lookup_insert_ne by lia. by rewrite Z.add_0_r, lookup_insert_eq.
  - rewrite lookup_insert_ne by lia. change (p + 8) with (p + 8 * 1). by rewrite lookup_insert_eq.
  - change (p + 16) with (p + 8 * 2). by rewrite lookup_insert_eq.
Qed.
Lemma upd_put_thread {A} p t f k (g : unit → K A) :
  (upd_thread p f ≫= g) (put_thread p t k) = g () (put_thread p (f t) k).
Proof.
  apply bind_ok. rewrite (upd_thread_ok _ _ t) by (rewrite threads_put_thread; apply lookup_insert_eq).
  f_equal. unfold put_thread. simpl. by rewrite insert_insert_eq.
Qed.

Lemma driver_thread_ok k x :
  room k 512 →
  let p := start_address + (kernel_heap_bottom k - 512) in
  ∃ t, driver_thread x k = Ok p (put_thread p t (set_kernel_heap_bottom (kernel_heap_bottom k - 512) k)) ∧
    current_map t = x ∧ pc t = 0 ∧ spsr t = 0 ∧ reg 0 t = x.
Proof.
  intros (Htop & Hal & Hroom) p. unfold driver_thread, top_of_kernel_working_memory in *.
  set (k1 := set_kernel_heap_bottom (kernel_heap_bottom k - 512) k).
  assert (allocate_thread 0 k = Ok p (put_thread p blank_thread k1)) as E.
  { unfold allocate_thread. erewrite bind_ok.
    2:{ apply allocate_heap_ok; change (round_up_32 (sizeof_thread_context + 0)) with 512;
        unfold sizeof_thread_context; lia. }
    by change (round_up_32 (sizeof_thread_context + 0)) with 512. }
  rewrite (bind_ok _ _ _ _ _ E). unfold initialise_new_thread. rewrite !upd_put_thread.
  eexists. split; [done |]. by split_and!.
Qed.

Lemma free_list_is_Some k x l : free_list k l → x ∈ l → ∃ e, interfaces k !! x = Some e.
Proof.
  intros (_ & _ & Hc). revert Hc. generalize (kernel_free_interface k).
  induction l as [|y l IH]; intros h Hc Hx; [by apply not_elem_of_nil in Hx |].
  destruct Hc as (_ & _ & e & He & _ & Hc). apply elem_of_cons in Hx as [-> | Hx]; [by exists e | by eapply IH].
Qed.

(** Three interfaces, when more than three are free. *)
Lemma obtain_three {A} k x y z w l (f : Z → Z → Z → K A) :
  free_list k (x :: y :: z :: w :: l) →
  (a ← obtain_interface; b ← obtain_interface; c ← obtain_interface; f a b c) k =
    f x y z (set_kernel_free_interface w k).
Proof.
  intros H. destruct (obtain_interface_ok _ _ _ _ H) as [E1 H1]. rewrite (bind_ok _ _ _ _ _ E1).
  destruct (obtain_interface_ok _ _ _ _ H1) as [E2 H2]. rewrite (bind_ok _ _ _ _ _ E2).
  destruct (obtain_interface_ok _ _ _ _ H2) as [E3 _]. by rewrite (bind_ok _ _ _ _ _ E3).
Qed.

(** The state a round leaves: only these components differ. *)
Definition after_driver (k k' : kstate) (x y z : Z) (d : driver_info) : Prop :=
  let start := Z.shiftr (u32 (driver_start d)) 12 in
  interfaces k' !! y = Some (MkInterface x system_map_index System_Service_PhysicalMemoryBlock
    (cmb_make start (code_pages d) Fully_Cacheable)) ∧
  interfaces k' !! z = Some (MkInterface x system_map_index System_Service_PhysicalMemoryBlock
    (cmb_make (start + code_pages d) (data_pages d) Fully_Cacheable)) ∧
  (∀ i, i ∉ [x; y; z] → interfaces k' !! i = interfaces k !! i) ∧
  core k' = core k ∧ kernel_heap_bottom k' = kernel_heap_bottom k - 608.
Lemma table_offset off :
  0 ≤ off ≤ top_of_kernel_working_memory → off mod 16 = 0 →
  let lsr4 := heap_offset_lsr4 (start_address + (top_of_kernel_working_memory - off)) in
  lsr4 = off / 16 ∧ heap_pointer_from_offset_lsr4 lsr4 = start_address + (top_of_kernel_working_memory - off).
Proof.
  intros Hoff Hal lsr4. unfold top_of_kernel_working_memory in *.
  assert (lsr4 = off / 16) as El.
  { unfold lsr4, heap_offset_lsr4, heap_offset, top_of_kernel_working_memory.
    rewrite u32_id by (unfold is_u32; lia). rewrite Z.shiftr_div_pow2 by lia. f_equal. lia. }
  split; [done |]. rewrite El. unfold heap_pointer_from_offset_lsr4, heap_pointer_from_offset, top_of_kernel_working_memory.
  rewrite Z.shiftl_mul_pow2 by lia. change (2 ^ 4) with 16.
  replace (off / 16 * 16) with off by (pose proof (Z.div_mod off 16); lia).
  rewrite u32_id by (unfold is_u32; lia). rewrite u64_id; [lia |]. unfold is_u64, start_address, himem_offset. lia.
Qed.

(** A thread whose map names the table at the top of the heap has the table's blocks. *)
Lemma table_is_map k k1 t tc x y z d code data :
  room k 608 → 2 < x < 2 ^ 18 → 0 < code_pages d → 0 < data_pages d →
  code_block d y code → data_block d z data →
  let p := start_address + (kernel_heap_bottom k - 96) in
  threads k1 !! t = Some tc → current_map tc = x →
  interfaces k1 !! x = Some (MkInterface x system_map_index System_Service_Map
    (mv_make (heap_offset_lsr4 p) x INITIAL_VMBs_PER_DRIVER)) →
  kernel_heap_top k1 = kernel_heap_top k → kernel_heap_bottom k1 = kernel_heap_bottom k - 608 →
  heap_word k1 p = code → heap_word k1 (p + 8) = data → heap_word k1 (p + 16) = 0 →
  has_map k1 t [code; data].
Proof.
  intros (Htop & Hal & Hroom) Hx Hc Hd (_ & Hcode & _) (_ & Hdata & _) p Ht Hmap Hi Htop1 Hbot1 W0 W1 W2.
  unfold top_of_kernel_working_memory in *.
  destruct (table_offset (top_of_kernel_working_memory - (kernel_heap_bottom k - 96))) as [El Ep];
    [unfold top_of_kernel_working_memory; lia | |].
  { unfold top_of_kernel_working_memory.
    replace (2 * 1024 * 1024 - (kernel_heap_bottom k - 96)) with ((131078 - 2 * (kernel_heap_bottom k / 32)) * 16)
      by (pose proof (Z.div_mod (kernel_heap_bottom k) 32); lia). by apply Z.mod_mul. }
  replace (start_address + (top_of_kernel_working_memory - (top_of_kernel_working_memory - (kernel_heap_bottom k - 96))))
    with p in * by (unfold p; lia).
  destruct (map_value_make_fields (heap_offset_lsr4 p) x INITIAL_VMBs_PER_DRIVER) as (F1 & _ & _).
  { rewrite El. unfold top_of_kernel_working_memory. split; [apply Z.div_pos; lia | apply Z.div_lt_upper_bound; lia]. }
  { lia. } { done. }
  eexists tc, _. rewrite Hmap. split; [done |]. split; [exact Hi |]. cbn [object]. rewrite F1. split_and!.
  - unfold system_map_index. lia.
  - unfold memory_allocator_map_index. lia.
  - rewrite El, Htop1, Hbot1, Htop. unfold top_of_kernel_working_memory.
    rewrite u32_id by (unfold is_u32; lia). rewrite Z.shiftr_div_pow2 by lia. apply Z.div_le_mono; lia.
  - rewrite Ep. cbn [vmb_table]. rewrite W0, W1, Hcode, Hdata.
    replace (p + 8 + 8) with (p + 16) by lia. rewrite W2.
    split_and!; try done; try lia. unfold p, top_of_heap, top_of_kernel_working_memory. lia.
Qed.

(** The state in which the thread is put into the ring. *)
Lemma driver_parts k d x y z :
  room k 608 → 2 < x < 2 ^ 18 → 2 < y < 2 ^ 18 → 2 < z < 2 ^ 18 → NoDup [x; y; z] →
  is_Some (interfaces k !! x) → is_Some (interfaces k !! y) → is_Some (interfaces k !! z) →
  0 < code_pages d < 2 ^ 20 → 0 < data_pages d < 2 ^ 20 →
  let t := start_address + (kernel_heap_bottom k - 608) in
  ∃ k1 tc code data,
    (_ ← driver_block_table d x y z; _ ← driver_blocks d x y z; driver_thread x) k = Ok t k1 ∧
    after_driver k k1 x y z d ∧ threads k1 = <[t := tc]> (threads k) ∧
    current_map tc = x ∧ pc tc = 0 ∧ reg 0 tc = x ∧
    code_block d y code ∧ data_block d z data ∧ has_map k1 t [code; data].
Proof.
  intros (Htop & Hal & Hroom) Hx Hy Hz Hnd [ex Hex] [ey Hey] [ez Hez] Hc Hd t.
  assert (x ≠ y ∧ x ≠ z ∧ y ≠ z) as (Nxy & Nxz & Nyz).
  { apply NoDup_cons in Hnd as [H1 [H2 _]%NoDup_cons]. split_and!; intros ->; [apply H1 | apply H1 | apply H2]; set_solver. }
  destruct (driver_block_table_ok k d x y z ex) as (h & code & data & E1 & Hcode & Hdata & W0 & W1 & W2);
    try done; try lia; [by split_and!; try lia |].
  set (p := start_address + (kernel_heap_bottom k - 96)) in *.
  set (mv := mv_make (heap_offset_lsr4 p) x INITIAL_VMBs_PER_DRIVER) in *.
  set (mi := MkInterface x system_map_index System_Service_Map mv) in *.
  rewrite (bind_ok _ _ _ _ _ E1). unfold driver_blocks. cbv zeta. set (start := Z.shiftr (u32 (driver_start d)) 12).
  set (k2 := set_heap h _). 
  assert (interfaces k2 = <[x := mi]> (interfaces k)) as Hi2 by done.
  set (ci := MkInterface x system_map_index System_Service_PhysicalMemoryBlock (cmb_make start (code_pages d) Fully_Cacheable)).
  set (di := MkInterface x system_map_index System_Service_PhysicalMemoryBlock
               (cmb_make (start + code_pages d) (data_pages d) Fully_Cacheable)).
  erewrite (bind_ok (fill_interface y _ _ _ _ ≫= _)).
  2:{ erewrite bind_ok by (apply (fill_interface_ok k2 y ey); by rewrite Hi2, lookup_insert_ne by done).
      apply (fill_interface_ok _ z ez). cbn [interfaces put_interface set_interfaces].
      by rewrite Hi2, !lookup_insert_ne by done. }
  fold ci. fold di. set (k3 := put_interface z di (put_interface y ci k2)).
  destruct (driver_thread_ok k3 x) as (tc & E3 & Hmap & Hpc & _ & Hreg).
  { split_and!; simpl; [done | rewrite Zminus_mod, Hal; done | lia..]. }
  assert (start_address + (kernel_heap_bottom k3 - 512) = t) as Et by (unfold t; simpl; lia).
  rewrite Et in E3. exists (put_thread t tc (set_kernel_heap_bottom (kernel_heap_bottom k3 - 512) k3)), tc, code, data.
  rewrite E3. split_and!; try done.
  - split_and!; simpl.
    + by rewrite lookup_insert_ne, lookup_insert_eq by done.
    + by rewrite lookup_insert_eq.
    + intros i Hi. rewrite !not_elem_of_cons in Hi. rewrite !lookup_insert_ne by naive_solver. done.
    + done.
    + lia.
  - eapply (table_is_map k _ t tc x y z d); try done; try lia; simpl.
    + by rewrite lookup_insert_eq.
    + by rewrite !lookup_insert_ne, lookup_insert_eq by done.
    + lia.
Qed.
(** A ring survives a thread that is stored elsewhere. *)
Lemma ring_insert_fresh ts p t l : p ∉ l → ring ts l → ring (<[p := t]> ts) l.
Proof.
  intros Hp Hr. destruct l as [|h l]; [done |]. destruct Hr as [Hnd Hc]. split; [done |].
  assert (∀ q, q ∈ (h :: l) ++ [h] → p ≠ q) as Hne by (intros q Hq ->; set_solver).
  apply (chain_frame ts); [done | |]; intros q Hq; unfold next_of, prev_of; rewrite lookup_insert_ne; try done;
    apply Hne; set_solver.
Qed.

(** ** Properties *)


(** Writable kernel memory can be executed: [Aarch64_VMSA_priv_rw_] sets the
    privileged execute-never bit only when its [level] is 1, and the kernel passes 3. *)
Theorem kernel_data_executable la core0 cores b :
  good_layout la cores → nth 0 (kernel_tt_l2 b) 0 = 0 → length (kernel_tt_l3 b) = 512%nat →
  0 ≤ core0 → core0 mod 4096 = 0 → core0 + cores * sizeof_core la < 2 ^ 51 →
  ∃ b', initialise_shared_isambard_kernel_tables la core0 cores b = Ok () b' ∧
    ∀ a, at_rw_start la ≤ a < cores_end la cores →
      el1_write (rights_of (l3_entry b' (a / 4096))) = true ∧ el1_execute (rights_of (l3_entry b' (a / 4096))) = true.
Proof.
  intros Hla Hl2 Hl3 H0 Ha0 Hcore. destruct (kernel_tables_filled la core0 cores b Hla Hl2 Hl3) as (t & E & _ & Ht).
  eexists. split; [exact E |]. intros a Ha. pose proof (gl_start _ _ Hla). unfold l3_entry. cbn [kernel_tt_l3 set_kernel_tt_l3].
  rewrite Ht by (apply Z.div_pos; lia).
  destruct (page_entry_spec la core0 cores a (l3_entry b (a / 4096))) as (H1 & H2 & H3); try done; [lia |].
  rewrite H3. by rewrite bool_decide_eq_true_2 by lia.
Qed.

(** the move to high memory keeps the core's own structure in reach: for the [n]th
    core, whose structure is in the [n]th place behind the kernel image, the address
    [switch_to_running_in_high_memory] passes on is, in the shared tables, the
    structure itself, byte by byte; and the temporary low mapping is gone. *)
Theorem core_reachable_in_high_memory la cores b n sctlr :
  good_layout la cores → nth 0 (kernel_tt_l2 b) 0 = 0 → length (kernel_tt_l3 b) = 512%nat →
  length (kernel_tt_l2 b) = 16%nat →
  length (core_tt_l1 (core (kernel b))) = 16%nat →
  let core0 := initial_first_free_page la in
  at_rw_end la ≤ core0 → core0 mod 4096 = 0 → core0 + cores * sizeof_core la < 2 ^ 51 → 0 ≤ n < cores →
  let phys_core := core0 + n * sizeof_core la in
  ∃ va b', (_ ← initialise_shared_isambard_kernel_tables la core0 cores;
            switch_to_running_in_high_memory la phys_core sctlr) b = Ok va b' ∧
    (∀ x, 0 ≤ x < sizeof_core la → kernel_translate la b' (va - start_address + x) = Some (phys_core + x)) ∧
    nth 0 (core_tt_l1 (core (kernel b'))) 0 = Aarch64_VMSA_invalid.
Proof.
  intros Hla Hl2 Hl3 Hlen Hl1 core0 H0 Ha0 Hcore Hn phys_core.
  pose proof Hla as [Hs _ _ Hc _ Hcs He _ _].
  destruct (kernel_tables_filled la core0 cores b Hla Hl2 Hl3) as (t & E & Hl & Ht).
  rewrite (bind_ok _ _ _ _ _ E).
  match goal with |- context [switch_to_running_in_high_memory la phys_core sctlr ?x] => set (b1 := x) end.
  assert (0 ≤ n * sizeof_core la ∧ n * sizeof_core la + sizeof_core la ≤ cores * sizeof_core la) as [Hn0 Hn1] by nia.
  destruct (switch_ok la phys_core sctlr b1) as (b' & E' & H2' & Ht' & Hinv); [done |].
  assert (himem_address (u64 (phys_core - u64 (initial_first_free_page la - at_rw_end la))) =
    start_address + (at_rw_end la + n * sizeof_core la)) as Eva.
  { fold core0. unfold himem_address, phys_core, start_address, himem_offset in *.
    rewrite (u64_id (core0 - _)), (u64_id (_ - _)), u64_id by (unfold is_u64; lia). lia. }
  exists (himem_address (u64 (phys_core - u64 (initial_first_free_page la - at_rw_end la)))), b'.
  split_and!; [done | | done]. intros x Hx. rewrite Eva.
  replace (start_address + (at_rw_end la + n * sizeof_core la) - start_address + x)
    with (at_rw_end la + n * sizeof_core la + x) by lia.
  set (a := at_rw_end la + n * sizeof_core la + x).
  unfold kernel_translate. rewrite (kernel_walk_page la core0 cores b' a (l3_entry b (a / 4096))); try done; try lia.
  - cbn. rewrite bool_decide_eq_false_2 by lia. f_equal. unfold a, phys_core. lia.
  - rewrite H2'. cbn. apply list_lookup_insert_eq. lia.
  - rewrite Ht'. done.
  - unfold l3_entry at 1. rewrite Ht'. cbn [b1 kernel_tt_l3 set_kernel_tt_l3]. apply Ht, Z.div_pos; lia.
  - unfold cores_end. lia.
Qed.

(** ** An example layout: four cores of 16kB behind an image of 192kB, four drivers *)
Definition demo_layout : layout :=
  Layout 0x10000 0x18000 0x30000 0x18000 0x17000 0x2000 0x4000 0x3ff0 0x3000 0x3100 4 0x4404
    [Driver 0x20000 0x24000 3 1; Driver 0x24000 0x26000 1 1; Driver 0x26000 0x29000 2 1; Driver 0x29000 0x2b000 1 1].

Definition demo_boot : boot :=
  Boot (initial_kstate 0 0x30000) (replicate 16 0) (replicate 512 0) 0x40000 0 0 [] [] ∅.

Lemma demo_layout_good : good_layout demo_layout 4.
Proof. by split; vm_compute. Qed.


Lemma kernel_data_executable_witness :
  ∃ b', initialise_shared_isambard_kernel_tables demo_layout 0x30000 4 demo_boot = Ok () b' ∧
    ∀ a, at_rw_start demo_layout ≤ a < cores_end demo_layout 4 →
      el1_write (rights_of (l3_entry b' (a / 4096))) = true ∧ el1_execute (rights_of (l3_entry b' (a / 4096))) = true.
Proof. apply (kernel_data_executable demo_layout 0x30000 4 demo_boot demo_layout_good); done. Defined.

Lemma core_reachable_in_high_memory_witness :
  ∃ va b', (_ ← initialise_shared_isambard_kernel_tables demo_layout 0x30000 4;
            switch_to_running_in_high_memory demo_layout 0x34000 0) demo_boot = Ok va b' ∧
    (∀ x, 0 ≤ x < sizeof_core demo_layout → kernel_translate demo_layout b' (va - start_address + x) = Some (0x34000 + x)) ∧
    nth 0 (core_tt_l1 (core (kernel b'))) 0 = Aarch64_VMSA_invalid.
Proof. apply (core_reachable_in_high_memory demo_layout 4 demo_boot 1 0 demo_layout_good); done. Defined.

(** one round of the loop over the drivers, for a driver whose pages are aligned and
    a kernel with four free interfaces and 608 bytes of heap: the new thread is the
    last of the runnable ones, starts at address 0 with its map's interface in register
    0, and its map has exactly two blocks, the driver's code at page 0, executable and
    read only, and behind it its data, writable and not executable; each block is
    backed by the driver's own pages, and no other interface changes. *)
Theorem driver_gets_its_map k d x y z w l old ls :
  free_list k (x :: y :: z :: w :: l) → Forall (λ i, 2 < i < 2 ^ 18) [x; y; z] →
  room k 608 → driver_start d mod 4096 = 0 → driver_end d mod 4096 = 0 →
  0 < code_pages d < 2 ^ 20 → 0 < data_pages d < 2 ^ 20 →
  runnable (core k) = old → old ≠ 0 → ring (threads k) (old :: ls) →
  let t := start_address + (kernel_heap_bottom k - 608) in
  t ∉ old :: ls →
  ∃ k' tc code data, driver_map d k = Ok () k' ∧ after_driver k k' x y z d ∧
    runnable (core k') = old ∧ ring (threads k') (old :: ls ++ [t]) ∧
    threads k' !! t = Some tc ∧ current_map tc = x ∧ pc tc = 0 ∧ reg 0 tc = x ∧
    code_block d y code ∧ data_block d z data ∧ has_map k' t [code; data].
Proof.
  intros Hfree Hids Hroom Has Hae Hc Hd Hrun Hold Hring t Ht.
  apply Forall_cons in Hids as [Hx [Hy [Hz _]%Forall_cons]%Forall_cons].
  assert (∀ a, Z.land a 0xfff = a mod 4096) as Hland by (intros; change 0xfff with (Z.ones 12); by rewrite Z.land_ones).
  unfold driver_map. rewrite (obtain_three _ x y z w l) by done.
  set (k0 := set_kernel_free_interface w k). rewrite !Hland, Has, Hae. rewrite guard_pass by tauto.
  destruct (driver_parts k0 d x y z) as (k1 & tc & code & data & E & Hafter & Hth & Hm & Hpc & Hr & Hcode & Hdata & Hmap);
    try done.
  { destruct Hfree as (Hnd & _). eapply (NoDup_app [x; y; z] (w :: l)) in Hnd. tauto. }
  1-3: apply (free_list_is_Some k _ _ Hfree); set_solver.
  fold t in E, Hth, Hmap.
  assert (∀ f : Z → K unit, (_ ← driver_block_table d x y z; _ ← driver_blocks d x y z; thread ← driver_thread x; f thread) k0
    = f t k1) as ->.
  { intros f. revert E. unfold mbind, M_bind. destruct (driver_block_table d x y z k0) as [u1 s1|]; [|done].
    destruct (driver_blocks d x y z s1) as [u2 s2|]; [|done]. by intros ->. }
  destruct Hafter as (A1 & A2 & A3 & A4 & A5).
  assert (is_Some (threads k1 !! t)) as Hsome by (rewrite Hth, lookup_insert_eq; by eexists).
  destruct (insert_thread_at_tail_nonempty k1 CoreRunnable t old ls) as (k' & E' & Hring' & Hrel); try done.
  { unfold load_list, gets. rewrite A4. f_equal. exact Hrun. }
  { rewrite Hth. by apply ring_insert_fresh. }
  destruct (relinks_lookup _ _ _ t tc Hrel) as (t' & Ht' & Hun); [by rewrite Hth, lookup_insert_eq |].
  destruct t' as [n' p' l' ? ? ? ? ? ? ? ? ? ? ? ?], tc as [n0 p0 l0 ? ? ? ? ? ? ? ? ? ? ? ?]. injection Hun as -> -> -> -> -> -> -> -> -> -> -> ->.
  destruct Hrel as (Hk' & _). eexists k', _, code, data. rewrite E'.
  split; [done |]. split; [by rewrite Hk' |]. split; [by rewrite Hk'; simpl; rewrite A4 |].
  split; [done |]. split; [exact Ht' |]. split_and!; try done.
  destruct Hmap as (tm & em & Htm & Hem & Hmap). rewrite Hth, lookup_insert_eq in Htm. injection Htm as <-.
  eexists _, em. split; [exact Ht' |]. rewrite Hk'. done.
Qed.

(** The system thread alone in the ring, and four free interfaces. *)
Definition first_thread : Z := start_address + 0x1ff000.
Definition free_entry (n : Z) : Interface := set_free_next n (set_free_marker free_marker_value (MkInterface 0 0 0 0)).

Definition demo_kernel : kstate :=
  let t := set_next first_thread (set_prev first_thread (set_current_map system_map_index blank_thread)) in
  let k := put_thread first_thread t (initial_kstate (start_address + 0x18000) 0x30000) in
  let k := set_core (set_runnable first_thread (core k)) k in
  let k := put_interface 3 (free_entry 4) (put_interface 4 (free_entry 5)
             (put_interface 5 (free_entry 6) (put_interface 6 (free_entry 0) k))) in
  set_kernel_free_interface 3 (set_kernel_last_interface 512 (set_kernel_heap_bottom 0x1ff000 k)).

Lemma demo_kernel_free : free_list demo_kernel [3; 4; 5; 6].
Proof.
  split_and!; [by repeat constructor; set_solver | by repeat constructor |].
  cbn [free_chain]. split; [done |]. split; [done |]. exists (free_entry 4). split; [done |]. split; [done |].
  split; [done |]. split; [done |]. exists (free_entry 5). split; [done |]. split; [done |].
  split; [done |]. split; [done |]. exists (free_entry 6). split; [done |]. split; [done |].
  split; [done |]. split; [done |]. by exists (free_entry 0).
Qed.

Lemma driver_gets_its_map_witness :
  let d := Driver 0x24000 0x26000 1 1 in
  let t := start_address + (0x1ff000 - 608) in
  ∃ k' tc code data, driver_map d demo_kernel = Ok () k' ∧ after_driver demo_kernel k' 3 4 5 d ∧
    runnable (core k') = first_thread ∧ ring (threads k') [first_thread; t] ∧
    threads k' !! t = Some tc ∧ current_map tc = 3 ∧ pc tc = 0 ∧ reg 0 tc = 3 ∧
    code_block d 4 code ∧ data_block d 5 data ∧ has_map k' t [code; data].
Proof.
  intros d t. apply (driver_gets_its_map demo_kernel d 3 4 5 6 [] first_thread []); try done.
  - apply demo_kernel_free.
  - by repeat constructor.
  - split; [by apply NoDup_singleton |]. split; [|done]. intros b [= <-]. by split; vm_compute.
  - by apply not_elem_of_cons; split; [vm_compute | apply not_elem_of_nil].
Defined.
