(* ===== verification/RollCall.v ===== *)
(** * The roll call of the cores

    [c_el3_nommu] of [el3.c]: every core enters it at EL3 with the MMU off, so there are no
    exclusive accesses and only single loads and stores are atomic.  The cores find
    out who is there: core 0 prepares the array [present], each core answers through
    [roll_call], and the lowest numbered normal core collects the answers in [present_bits],
    initialises the shared kernel tables and publishes [first_free_page], for which the others wait.

    The state has a program point for each core; a step is one core executing from one
    access of a shared variable to the next, in any order of the cores.

    An iteration of the scan mentions [present[i]] twice.  The array is not volatile, so a
    compiler may load it once or twice: [one_load] says which.  [roll_call] comes from the
    file that the kernel is linked with; [normal] says for which cores it returns, and
    [vm_normal] is what [el3_virtual_machines.c] makes of it.

    With one load the lowest normal core alone collects, whatever the order; with two, the
    last theorems show an order in which two cores do, and one in which the set
    of cores that is published is wrong. *)

From S2P Require Import Prelude.

(** [core_types], and what the array holds before core 0 writes it. *)
Inductive core_type : Type := UNINITIALISED | WAITING | NORMAL | SPECIAL.
#[global] Instance core_type_eq_dec : EqDecision core_type.
Proof. solve_decision. Defined.

(** Where a core is.  [lowest_normal] and [all_present] are its local variables. *)
Inductive point : Type :=
  | Preparing (i : nat)                             (* core 0: the first [for] *)
  | AwaitingStart
  | Answering                                       (* [roll_call( present, number )] *)
  | LoopHead
  | Scanning (i : nat) (lowest_normal all_present : bool)
  | ReadNormal (i : nat) (lowest_normal all_present : bool)
  | ReadWaiting (i : nat) (lowest_normal all_present : bool)
  | Deciding (lowest_normal all_present : bool)
  | Collecting (i : nat)
  | LoadingBits (i : nat)                           (* [present_bits[i / 64] |= ...] *)
  | StoringBits (i : nat) (bits : Z)
  | Initialising
  | Publishing
  | Finished
  | Elsewhere.                                      (* a special core *)

#[global] Instance point_eq_dec : EqDecision point.
Proof. solve_decision. Defined.

Record roll : Type := Roll {
  start_roll_call : bool;
  present : list core_type;
  present_bits : Z;
  first_free_page : Z;
  tables_initialised : nat;       (* calls of initialise_shared_isambard_kernel_tables *)
  points : list point;
}.

Section roll_call.
Context (one_load : bool) (number_of_cores : nat) (normal : nat → bool) (page : Z).

Definition initial_roll (memory : list core_type) : roll :=
  Roll false memory 0 0 0 (Preparing 0 :: replicate (number_of_cores - 1) AwaitingStart).

Definition goto (c : nat) (p : point) (s : roll) : roll :=
  Roll (start_roll_call s) (present s) (present_bits s) (first_free_page s) (tables_initialised s)
    (<[c := p]> (points s)).
Definition set_present (i : nat) (t : core_type) (s : roll) : roll :=
  Roll (start_roll_call s) (<[i := t]> (present s)) (present_bits s) (first_free_page s) (tables_initialised s)
    (points s).
Definition begin_roll_call (s : roll) : roll :=
  Roll true (present s) (present_bits s) (first_free_page s) (tables_initialised s) (points s).
Definition store_bits (v : Z) (s : roll) : roll :=
  Roll (start_roll_call s) (present s) v (first_free_page s) (tables_initialised s) (points s).
Definition initialise_tables (s : roll) : roll :=
  Roll (start_roll_call s) (present s) (present_bits s) (first_free_page s) (S (tables_initialised s)) (points s).
Definition publish (s : roll) : roll :=
  Roll (start_roll_call s) (present s) (present_bits s) page (tables_initialised s) (points s).

Definition is_present (i : nat) (t : core_type) (s : roll) : bool := bool_decide (present s !! i = Some t).

(** The answer [roll_call] leaves in the array for a core. *)
Definition answer (c : nat) : core_type := if normal c then NORMAL else SPECIAL.

(** One step of core [c] from the point [p]; a core that waits or has gone takes none. *)
Definition core_step (c : nat) (p : point) (s : roll) : option roll :=
  match p with
  | Preparing i =>
      if bool_decide (i < number_of_cores)%nat then Some (goto c (Preparing (S i)) (set_present i WAITING s))
      else Some (goto c Answering (begin_roll_call s))
  | AwaitingStart => if start_roll_call s then Some (goto c Answering s) else None
  | Answering => Some (goto c (if normal c then LoopHead else Elsewhere) (set_present c (answer c) s))
  | LoopHead =>
      Some (goto c (if bool_decide (first_free_page s = 0) then Scanning 0 true true else Finished) s)
  | Scanning i l a =>
      if bool_decide (i < number_of_cores)%nat && bool_decide (first_free_page s = 0)
      then Some (goto c (ReadNormal i l a) s)
      else Some (goto c (Deciding l a) s)
  | ReadNormal i l a =>
      let l := if is_present i NORMAL s && bool_decide (i < c)%nat then false else l in
      if one_load then Some (goto c (Scanning (S i) l (a && negb (is_present i WAITING s))) s)
      else Some (goto c (ReadWaiting i l a) s)
  | ReadWaiting i l a => Some (goto c (Scanning (S i) l (a && negb (is_present i WAITING s))) s)
  | Deciding l a =>
      Some (goto c (if bool_decide (first_free_page s = 0) && a && l then Collecting 0 else LoopHead) s)
  | Collecting i =>
      if bool_decide (i < number_of_cores)%nat
      then Some (goto c (if is_present i NORMAL s then LoadingBits i else Collecting (S i)) s)
      else Some (goto c Initialising s)
  | LoadingBits i => Some (goto c (StoringBits i (present_bits s)) s)
  | StoringBits i v =>
      Some (goto c (Collecting (S i)) (store_bits (Z.lor v (Z.shiftl 1 (Z.of_nat i))) s))
  | Initialising => Some (goto c Publishing (initialise_tables s))
  | Publishing => Some (goto c LoopHead (publish s))
  | Finished | Elsewhere => None
  end.

Definition roll_step (s s' : roll) : Prop :=
  ∃ c p, points s !! c = Some p ∧ core_step c p s = Some s'.

(** Run the cores in the order given; a core that cannot move is passed over. *)
Fixpoint run_schedule (cs : list nat) (s : roll) : roll :=
  match cs with
  | [] => s
  | c :: cs =>
      run_schedule cs (default s (p ← points s !! c; core_step c p s))
  end.

End roll_call.

(** [roll_call] of [el3_virtual_machines.c]. *)
Definition vm_normal (number : nat) : bool := bool_decide (number ≠ 3%nat).

(** ** Invariants *)
Section invariants.
Context (one_load : bool) (number_of_cores : nat) (normal : nat → bool) (page : Z).
#[local] Abbreviation n := number_of_cores.
#[local] Abbreviation step := (roll_step one_load number_of_cores normal page).

Definition preparing (p : point) : bool := match p with Preparing _ => true | _ => false end.

(** The core has answered the roll call. *)
Definition answered (p : point) : bool :=
  match p with Preparing _ | AwaitingStart | Answering => false | _ => true end.
Definition has_answered (s : roll) (c : nat) : Prop := ∃ p, points s !! c = Some p ∧ answered p = true.

(** What the array holds, in every order and however often it is loaded. *)
Record orderly (s : roll) : Prop := {
  or_present : length (present s) = n;
  or_points : length (points s) = n;
  or_before : start_roll_call s = false →
    first_free_page s = 0 ∧ tables_initialised s = 0%nat ∧
    (∃ i, points s !! 0%nat = Some (Preparing i) ∧ ∀ j, (j < i)%nat → (j < n)%nat → present s !! j = Some WAITING) ∧
    (∀ c p, points s !! c = Some p → c ≠ 0%nat → p = AwaitingStart);
  or_after : start_roll_call s = true → ∀ c p, points s !! c = Some p →
    preparing p = false ∧ present s !! c = Some (if answered p then answer normal c else WAITING);
}.

Lemma points_goto c p s c' : (c < length (points s))%nat →
  points (goto c p s) !! c' = if decide (c' = c) then Some p else points s !! c'.
Proof.
  intros Hc. cbn. case_decide as E; [subst; by apply list_lookup_insert_eq | by apply list_lookup_insert_ne].
Qed.

(** A step that only moves the core, to a point past or before the answer like the old one. *)
Lemma orderly_goto c p p' s :
  orderly s → points s !! c = Some p → start_roll_call s = true → preparing p' = false → answered p' = answered p →
  orderly (goto c p' s).
Proof.
  intros [H1 H2 H3 H4] Hp Hs Hn Ha. split; [done | by cbn; rewrite length_insert | cbn; congruence |].
  intros _ c' q. rewrite points_goto by by apply lookup_lt_Some in Hp. case_decide as E.
  - intros [= <-]. subst. split; [done |]. rewrite Ha. by apply (H4 Hs).
  - apply (H4 Hs).
Qed.

Lemma orderly_same s s' :
  orderly s → present s' = present s → points s' = points s → start_roll_call s = true → start_roll_call s' = true →
  orderly s'.
Proof. intros [H1 H2 H3 H4] E1 E2 Hs Hs'. split; rewrite ?E1, ?E2; try done; [congruence | auto]. Qed.

Lemma started s c p : orderly s → points s !! c = Some p → p ≠ AwaitingStart → preparing p = false → start_roll_call s = true.
Proof.
  intros H Hp Hne Hpre. destruct (start_roll_call s) eqn:E; [done | exfalso].
  destruct (or_before _ H E) as (_ & _ & (i & H0 & _) & Ha). destruct (decide (c = 0%nat)) as [->|Hc].
  - rewrite H0 in Hp. by injection Hp as <-.
  - by apply Hne, (Ha c).
Qed.

(** A core that is past the preparations moves without writing the array. *)
Lemma orderly_step s s' : orderly s → step s s' → orderly s'.
Proof.
  intros H (c & p & Hp & Hs). pose proof (lookup_lt_Some _ _ _ Hp) as Hc.
  destruct (preparing p) eqn:Hpre.
  { destruct p as [i | | | | | | | | | | | | | | ]; try done. cbn [core_step] in Hs.
    destruct (start_roll_call s) eqn:E; [by destruct (or_after _ H E c _ Hp) as [[=] _] |].
    destruct (or_before _ H E) as (Hpg & Ht & (k & H0 & Hk) & Ha).
    assert (c = 0%nat) as -> by (destruct (decide (c = 0%nat)); [done | by specialize (Ha c _ Hp ltac:(done))]).
    rewrite H0 in Hp. injection Hp as ->. destruct H as [H1 H2 _ _].
    case_bool_decide as Hi; injection Hs as <-; split; cbn [present points goto set_present begin_roll_call
      start_roll_call]; rewrite ?length_insert; try done; try congruence.
    - intros _. split_and!; [done | done | |].
      + exists (S i). rewrite list_lookup_insert_eq by lia. split; [done |]. intros j Hj Hjn.
        destruct (decide (j = i)) as [->|]; [by rewrite list_lookup_insert_eq by lia |].
        rewrite list_lookup_insert_ne by done. apply Hk; lia.
      + intros c q Hq Hne. rewrite list_lookup_insert_ne in Hq by done. by apply (Ha c).
    - intros _ c q Hq. destruct (decide (c = 0%nat)) as [->|Hne].
      + rewrite list_lookup_insert_eq in Hq by lia. injection Hq as <-. split; [done |]. apply Hk; lia.
      + rewrite list_lookup_insert_ne in Hq by done. pose proof (lookup_lt_Some _ _ _ Hq).
        rewrite (Ha c q Hq Hne). split; [done |]. apply Hk; lia. }
  destruct (decide (p = AwaitingStart)) as [->|Haw].
  { cbn [core_step] in Hs. destruct (start_roll_call s) eqn:E; [|done]. injection Hs as <-.
    eapply orderly_goto; [done | done | done | done | done]. }
  pose proof (started s c p H Hp Haw Hpre) as E.
  destruct (decide (p = Answering)) as [->|Hans].
  { cbn [core_step] in Hs. injection Hs as <-. destruct H as [H1 H2 H3 H4].
    split; cbn [present points goto set_present start_roll_call]; rewrite ?length_insert; try done; [congruence |].
    intros _ c' q Hq. destruct (decide (c' = c)) as [->|Hne].
    - rewrite list_lookup_insert_eq in Hq by lia. injection Hq as <-. rewrite list_lookup_insert_eq by lia.
      unfold answer. destruct (normal c); by split.
    - rewrite list_lookup_insert_ne in Hq by done. rewrite list_lookup_insert_ne by done. by apply (H4 E). }
  assert (answered p = true) as Hap by by destruct p.
  assert (∀ q s1, preparing q = false → answered q = true → present s1 = present s → points s1 = points s →
    start_roll_call s1 = true → orderly (goto c q s1)) as Hmove.
  { intros q s1 Hq Hqa E1 E2 E3. apply (orderly_goto c p); [by apply (orderly_same s) | by rewrite E2 | done | done |
      congruence]. }
  destruct p; try done; cbn [core_step] in Hs; cbv zeta in Hs;
    repeat case_match; simplify_eq; apply Hmove; try done; cbn; repeat case_match; done.
Qed.

Lemma orderly_initial memory : (0 < n)%nat → length memory = n → orderly (initial_roll n memory).
Proof.
  intros Hn Hl. split; [done | cbn; rewrite length_replicate; lia | |done].
  intros _. split_and!; [done | done | |].
  - exists 0%nat. split; [done | lia].
  - intros [|c] p Hp Hc; [done |]. cbn in Hp. by apply lookup_replicate in Hp as [-> _].
Qed.

Lemma orderly_reached s s' : rtc step s s' → orderly s → orderly s'.
Proof. induction 1 as [|s1 s2 s3 H _ IH]; [done |]. intros Ho. by eapply IH, orderly_step. Qed.
End invariants.

(** ** One load: the lowest normal core collects, alone *)
Section one_load.
Context (number_of_cores : nat) (normal : nat → bool) (page : Z) (page_not_0 : page ≠ 0).
#[local] Abbreviation n := number_of_cores.
#[local] Abbreviation step := (roll_step true number_of_cores normal page).
#[local] Abbreviation orderly := (orderly number_of_cores normal).

Definition lowest (c : nat) : Prop := normal c = true ∧ ∀ j, (j < c)%nat → normal j = false.
Definition all_answered (s : roll) : Prop := ∀ j, (j < n)%nat → has_answered s j.

(** What core [c] knows when its scan has come to [i]. *)
Definition seen (s : roll) (c i : nat) (l a : bool) : Prop :=
  a = true → ∀ j, (j < i)%nat → (j < n)%nat → has_answered s j ∧ (l = true → (j < c)%nat → normal j = false).

Definition bits_upto (s : roll) (i : nat) : Prop :=
  ∀ j, (j < i)%nat → (j < n)%nat → normal j = true → Z.testbit (present_bits s) (Z.of_nat j) = true.

(** Core [c] is the one that collects. *)
Definition collects (s : roll) (c tables : nat) : Prop :=
  lowest c ∧ all_answered s ∧ first_free_page s = 0 ∧ tables_initialised s = tables.

Definition collector (p : point) : bool :=
  match p with Collecting _ | LoadingBits _ | StoringBits _ _ | Initialising | Publishing => true | _ => false end.

Definition local_ok (s : roll) (c : nat) (p : point) : Prop :=
  match p with
  | LoopHead | Finished => normal c = true
  | Scanning i l a | ReadNormal i l a => normal c = true ∧ seen s c i l a
  | ReadWaiting _ _ _ => False
  | Deciding l a => normal c = true ∧ (first_free_page s = 0 → seen s c n l a)
  | Collecting i => collects s c 0 ∧ bits_upto s i
  | LoadingBits i => collects s c 0 ∧ bits_upto s i ∧ normal i = true ∧ (i < n)%nat
  | StoringBits i v => collects s c 0 ∧ bits_upto s i ∧ normal i = true ∧ (i < n)%nat ∧ v = present_bits s
  | Initialising => collects s c 0 ∧ bits_upto s n
  | Publishing => collects s c 1 ∧ bits_upto s n
  | _ => True
  end.

Record exact (s : roll) : Prop := {
  ex_local : ∀ c p, points s !! c = Some p → local_ok s c p;
  ex_bits : ∀ k, Z.testbit (present_bits s) k = true → ∃ j, k = Z.of_nat j ∧ (j < n)%nat ∧ normal j = true;
  ex_page : first_free_page s ≠ 0 → bits_upto s n ∧ all_answered s ∧ tables_initialised s = 1%nat;
  ex_tables : tables_initialised s = 0%nat ∨ first_free_page s ≠ 0 ∨ ∃ c, points s !! c = Some Publishing;
}.

Lemma lowest_unique c c' : lowest c → lowest c' → c = c'.
Proof.
  intros [H1 H2] [H1' H2']. destruct (lt_eq_lt_dec c c') as [[Hlt|]|Hlt]; [|done|].
  - by rewrite H2' in H1.
  - by rewrite H2 in H1'.
Qed.

Lemma collector_lowest s c p : local_ok s c p → collector p = true → lowest c.
Proof. destruct p; try done; cbn; intros [(? & _) _]; done. Qed.

(** *** What another core knows survives a step *)
Definition answers_kept (s s' : roll) : Prop := ∀ j, has_answered s j → has_answered s' j.

Lemma seen_kept s s' c i l a : answers_kept s s' → seen s c i l a → seen s' c i l a.
Proof. intros Hk H Ha j Hj Hn. destruct (H Ha j Hj Hn) as [? ?]. split; [by apply Hk | done]. Qed.

Lemma local_kept s s' c p :
  answers_kept s s' → first_free_page s' = first_free_page s → present_bits s' = present_bits s →
  tables_initialised s' = tables_initialised s → local_ok s c p → local_ok s' c p.
Proof.
  intros Hk Hp Hb Ht. assert (∀ t, collects s c t → collects s' c t) as Hc.
  { intros t (? & Ha & ? & ?). split_and!; [done | | congruence | congruence]. intros j Hj. by apply Hk, Ha. }
  assert (∀ i, bits_upto s i → bits_upto s' i) as Hbits by (intros i; unfold bits_upto; by rewrite Hb).
  destruct p; cbn; rewrite ?Hp, ?Hb; try done; intros H; destruct_and?; split_and?; eauto using seen_kept.
Qed.

Lemma local_kept_other s s' c p :
  answers_kept s s' → (first_free_page s' = 0 → first_free_page s = 0) → collector p = false →
  local_ok s c p → local_ok s' c p.
Proof. intros Hk Hp Hc. destruct p; cbn; try done; intros [? ?]; split; eauto using seen_kept. Qed.

Lemma answers_kept_goto c p p' s :
  points s !! c = Some p → (answered p = true → answered p' = true) → answers_kept s (goto c p' s).
Proof.
  intros Hp Ha j (q & Hq & Hqa). pose proof (lookup_lt_Some _ _ _ Hp). unfold has_answered. cbn.
  destruct (decide (j = c)) as [->|Hne].
  - rewrite list_lookup_insert_eq by done. simplify_eq. eauto.
  - rewrite list_lookup_insert_ne by done. eauto.
Qed.

(** *** Loads of the array *)
Section loads.
Context (s : roll) (i : nat) (Hs : orderly s) (Hstart : start_roll_call s = true) (Hi : (i < n)%nat).

Lemma array_at : ∃ p, points s !! i = Some p ∧
  present s !! i = Some (if answered p then answer normal i else WAITING).
Proof.
  destruct (lookup_lt_is_Some_2 (points s) i) as [p Hp]; [by rewrite (or_points _ _ _ Hs) |].
  exists p. split; [done |]. by apply (or_after _ _ _ Hs Hstart i p).
Qed.

Lemma load_normal : is_present i NORMAL s = true ↔ has_answered s i ∧ normal i = true.
Proof.
  destruct array_at as (p & Hp & E). unfold is_present, has_answered. rewrite bool_decide_eq_true, E, Hp.
  unfold answer. destruct (answered p) eqn:Ha, (normal i); split; intros H; try discriminate H; try done.
  - split; [by exists p | done].
  - by destruct H.
  - destruct H as [(q & [= <-] & Hq) _]. congruence.
  - by destruct H.
Qed.

Lemma load_not_waiting : is_present i WAITING s = false → has_answered s i.
Proof.
  destruct array_at as (p & Hp & E). unfold is_present, has_answered. rewrite bool_decide_eq_false, E, Hp.
  destruct (answered p) eqn:Ha; [by exists p | done].
Qed.
End loads.

(** *** The steps *)
Lemma exact_move s c p p' :
  exact s → points s !! c = Some p →
  (answered p = true → answered p' = true) → (p = Publishing → p' = Publishing) →
  (∀ s', answers_kept s s' → first_free_page s' = first_free_page s → present_bits s' = present_bits s →
    tables_initialised s' = tables_initialised s → local_ok s' c p') → exact (goto c p' s).
Proof.
  intros [H1 H2 H3 H4] Hp Ha Hpub Hl. pose proof (lookup_lt_Some _ _ _ Hp) as Hc.
  pose proof (answers_kept_goto c p p' s Hp Ha) as Hk. split; [| done | |].
  - intros c' q. rewrite points_goto by done. case_decide as E; [intros [= <-]; subst; by apply Hl |].
    intros Hq%H1. by apply (local_kept s).
  - intros Hpg%H3. destruct Hpg as (? & Hall & ?). split_and!; [done | | done]. intros j Hj. by apply Hk, Hall.
  - destruct H4 as [?|[?|[c' Hc']]]; [by left | by right; left |]. right; right. exists c'.
    rewrite points_goto by done. case_decide as E; [|done]. subst. rewrite Hp in Hc'. injection Hc' as ->.
    by rewrite Hpub.
Qed.

Lemma exact_array s i t : exact s → exact (set_present i t s).
Proof. intros [? ? ? ?]. by split. Qed.

Lemma exact_begin s : exact s → exact (begin_roll_call s).
Proof. intros [? ? ? ?]. by split. Qed.

(** While core [c] collects, nobody else does. *)
Lemma others_kept s s1 c p p' c' q :
  exact s → points s !! c = Some p → collector p = true → answered p' = true →
  points s1 = points s → (first_free_page s1 = 0 → first_free_page s = 0) →
  points (goto c p' s1) !! c' = Some q → c' ≠ c → local_ok (goto c p' s1) c' q.
Proof.
  intros He Hp Hcol Ha Hpts Hpg Hq Hne.
  assert (points s !! c' = Some q) as Hq'.
  { rewrite points_goto in Hq by (rewrite Hpts; by apply lookup_lt_Some in Hp). rewrite <- Hpts. by case_decide. }
  pose proof (ex_local _ He _ _ Hq') as Hl. destruct (collector q) eqn:Ec.
  - destruct Hne. apply lowest_unique; eapply collector_lowest; [exact Hl | done | by eapply ex_local | done].
  - apply (local_kept_other s); [|done | done | done].
    intros j (r & Hr & Hra). apply (answers_kept_goto c p p' s1); [congruence | done |].
    exists r. by rewrite Hpts.
Qed.

Lemma at_core c p s : (c < length (points s))%nat → points (goto c p s) !! c = Some p.
Proof. intros Hc. rewrite points_goto by done. by rewrite decide_True. Qed.

Lemma exact_store s c i v :
  exact s → points s !! c = Some (StoringBits i v) →
  exact (goto c (Collecting (S i)) (store_bits (Z.lor v (Z.shiftl 1 (Z.of_nat i))) s)).
Proof.
  intros He Hp. pose proof (lookup_lt_Some _ _ _ Hp) as Hc.
  destruct (ex_local _ He _ _ Hp) as ((Hlow & Hall & Hpg & Ht) & Hb & Hni & Hi & ->).
  assert (∀ k, Z.testbit (Z.lor (present_bits s) (Z.shiftl 1 (Z.of_nat i))) (Z.of_nat k) =
    Z.testbit (present_bits s) (Z.of_nat k) || bool_decide (k = i)) as Hbit.
  { intros k. rewrite Z.lor_spec, Z.shiftl_spec by lia. f_equal. case_bool_decide as E.
    - subst. by rewrite Z.sub_diag.
    - destruct (decide (k < i)%nat); [by apply Z.testbit_neg_r; lia | by apply (testbit_above 1 1); lia]. }
  split.
  - intros c' q Hq. destruct (decide (c' = c)) as [->|Hne]; [|by eapply others_kept].
    rewrite at_core in Hq by done. injection Hq as <-. cbn. split.
    + split_and!; [done | | done | done]. intros j Hj. eapply answers_kept_goto; [exact Hp | done | by apply Hall].
    + intros j Hj Hjn Hn. cbn. rewrite Hbit. destruct (decide (j = i)) as [->|].
      * by rewrite bool_decide_eq_true_2, orb_true_r.
      * rewrite (Hb j) by (lia || done). done.
  - cbn. intros k Hk. assert (0 ≤ k) as Hk0.
    { destruct (decide (0 ≤ k)); [done |]. rewrite Z.testbit_neg_r in Hk by lia. done. }
    rewrite <- (Z2Nat.id k), Hbit in Hk by done. apply orb_true_iff in Hk as [Hk|Hk].
    + rewrite Z2Nat.id in Hk by done. by apply (ex_bits _ He).
    + apply bool_decide_eq_true in Hk. exists i. split_and!; [lia | done | done].
  - done.
  - by left.
Qed.

Lemma exact_initialise s c :
  exact s → points s !! c = Some Initialising → exact (goto c Publishing (initialise_tables s)).
Proof.
  intros He Hp. pose proof (lookup_lt_Some _ _ _ Hp) as Hc.
  destruct (ex_local _ He _ _ Hp) as ((Hlow & Hall & Hpg & Ht) & Hb). split.
  - intros c' q Hq. destruct (decide (c' = c)) as [->|Hne]; [|by eapply others_kept].
    rewrite at_core in Hq by done. injection Hq as <-. cbn. split; [|done].
    split_and!; [done | | done | by cbn; rewrite Ht].
    intros j Hj. eapply answers_kept_goto; [exact Hp | done | by apply Hall].
  - apply (ex_bits _ He).
  - done.
  - right; right. exists c. by apply at_core.
Qed.

Lemma exact_publish s c :
  exact s → points s !! c = Some Publishing → exact (goto c LoopHead (publish page s)).
Proof.
  intros He Hp. pose proof (lookup_lt_Some _ _ _ Hp) as Hc.
  destruct (ex_local _ He _ _ Hp) as ((Hlow & Hall & Hpg & Ht) & Hb). split.
  - intros c' q Hq. destruct (decide (c' = c)) as [->|Hne]; [|by eapply others_kept].
    rewrite at_core in Hq by done. injection Hq as <-. apply Hlow.
  - apply (ex_bits _ He).
  - intros _. split_and!; [done | | done]. intros j Hj. eapply answers_kept_goto; [exact Hp | done | by apply Hall].
  - by right; left.
Qed.

(** A core loads an entry of the array while it scans. *)
Lemma exact_look s s' c i l a :
  orderly s → exact s → points s !! c = Some (ReadNormal i l a) →
  core_step true n normal page c (ReadNormal i l a) s = Some s' → exact s'.
Proof.
  intros Ho He Hp Hs. pose proof (ex_local _ He _ _ Hp) as Hl.
  pose proof (or_points _ _ _ Ho) as Hlen. pose proof (lookup_lt_Some _ _ _ Hp) as Hc.
  cbn [core_step local_ok] in Hs, Hl.
  destruct Hl as [Hn Hseen]. cbv zeta in Hs. injection Hs as <-.
  assert (start_roll_call s = true) as Hst by by eapply started.
  eapply exact_move; [done | exact Hp | done | done |]. intros s' Hk _ _ _. split; [done |].
  apply (seen_kept s); [done |]. intros Ha j Hj Hjn. apply andb_true_iff in Ha as [Ha Hw].
  apply negb_true_iff in Hw. destruct (decide (j = i)) as [->|Hne].
  - pose proof (load_not_waiting s i Ho Hst Hjn Hw) as Hans. split; [done |]. intros Hl' Hic.
    destruct (normal i) eqn:Hni; [|done]. rewrite (bool_decide_eq_true_2 (i < c)%nat) in Hl' by done.
    by rewrite (proj2 (load_normal s i Ho Hst Hjn)) in Hl'.
  - destruct (Hseen Ha j) as [? Hlj]; [lia | done |]. split; [done |]. intros Hl'. apply Hlj.
    by destruct (_ && _) in Hl'.
Qed.

(** A core has scanned all of the array. *)
Lemma exact_decide s s' c l a :
  orderly s → exact s → points s !! c = Some (Deciding l a) →
  core_step true n normal page c (Deciding l a) s = Some s' → exact s'.
Proof.
  intros Ho He Hp Hs. pose proof (ex_local _ He _ _ Hp) as Hl.
  pose proof (or_points _ _ _ Ho) as Hlen. pose proof (lookup_lt_Some _ _ _ Hp) as Hc.
  cbn [core_step local_ok] in Hs, Hl.
  destruct Hl as [Hn Hseen]. injection Hs as <-.
  eapply exact_move; [done | exact Hp | by case_match | done |]. intros s' Hk Hpg Hb Ht.
  destruct (_ && _) eqn:E; [|done]. apply andb_true_iff in E as [E ->]. apply andb_true_iff in E as [E ->].
  apply bool_decide_eq_true in E. specialize (Hseen E eq_refl).
  split; [|intros j Hj; lia]. split; [|split].
  - split; [done |]. intros j Hj. destruct (Hseen j) as [_ Hlo]; [lia | lia | by apply Hlo].
  - intros j Hj. apply Hk. by apply (Hseen j).
  - split; [by rewrite Hpg |]. rewrite Ht. destruct (ex_tables _ He) as [?|[?|[c' Hc']]]; [done | done |].
    pose proof (ex_local _ He _ _ Hc') as ((Hlow & _) & _).
    assert (c = c') as <-; [|by rewrite Hp in Hc']. apply lowest_unique; [|done]. split; [done |].
    intros j Hj. destruct (Hseen j) as [_ Hlo]; [lia | lia | by apply Hlo].
Qed.

(** The core that collects loads an entry of the array. *)
Lemma exact_collect s s' c i :
  orderly s → exact s → points s !! c = Some (Collecting i) →
  core_step true n normal page c (Collecting i) s = Some s' → exact s'.
Proof.
  intros Ho He Hp Hs. pose proof (ex_local _ He _ _ Hp) as Hl.
  pose proof (or_points _ _ _ Ho) as Hlen. pose proof (lookup_lt_Some _ _ _ Hp) as Hc.
  cbn [core_step local_ok] in Hs, Hl.
  destruct Hl as [Hcol Hb]. case_bool_decide as Hi; injection Hs as <-.
  - assert (start_roll_call s = true) as Hst by by eapply started.
    pose proof (load_normal s i Ho Hst Hi) as Hload.
    eapply exact_move; [done | exact Hp | by case_match | by case_match |]. intros s' Hk Hpg Hbits Ht.
    assert (local_ok s' c (Collecting i)) as [Hcol' Hb'] by by apply (local_kept s).
    destruct (is_present i NORMAL s).
    + split_and!; [done | done | by apply Hload | done].
    + split; [done |]. intros j Hj Hjn Hnj. destruct (decide (j = i)) as [->|]; [|apply Hb'; [lia | done | done]].
      destruct Hload as [_ Hload]. discriminate Hload. split; [by apply Hcol | done].
  - eapply exact_move; [done | exact Hp | done | done |]. intros s' Hk Hpg Hbits Ht.
    assert (local_ok s' c (Collecting i)) as [Hcol' Hb'] by by apply (local_kept s).
    split; [done |]. intros j Hj Hjn. apply Hb'; [lia | done].
Qed.

Lemma exact_step s s' : orderly s → exact s → step s s' → exact s'.
Proof.
  intros Ho He (c & p & Hp & Hs). pose proof (ex_local _ He _ _ Hp) as Hl.
  pose proof (or_points _ _ _ Ho) as Hlen. pose proof (lookup_lt_Some _ _ _ Hp) as Hc.
  destruct p as [i| | | |i l a|i l a|i l a|l a|i|i|i v| | | |]; cbn [core_step local_ok] in Hs, Hl.
  - case_bool_decide; injection Hs as <-;
      (eapply exact_move; [first [by apply exact_array | by apply exact_begin] | exact Hp | done | done | done]).
  - destruct (start_roll_call s); [|done]. injection Hs as <-. by eapply exact_move.
  - injection Hs as <-. eapply exact_move; [by apply exact_array | exact Hp | done | done |].
    intros s' _ _ _ _. by destruct (normal c) eqn:E.
  - injection Hs as <-. eapply exact_move; [done | exact Hp | by case_bool_decide | done |].
    intros s' _ _ _ _. case_bool_decide; [|done]. split; [done |]. intros _ j Hj. lia.
  - destruct Hl as [Hn Hseen]. destruct (_ && _) eqn:E; injection Hs as <-;
      (eapply exact_move; [done | exact Hp | done | done |]); intros s' Hk Hpg _ _.
    + split; [done | by eapply seen_kept].
    + split; [done |]. rewrite Hpg. intros Hp0. apply (seen_kept s); [done |].
      rewrite (bool_decide_eq_true_2 (first_free_page s = 0)), andb_true_r in E by done.
      apply bool_decide_eq_false in E. intros Ha j Hj Hjn. apply Hseen; [done | lia | done].
  - by eapply exact_look.
  - done.
  - by eapply exact_decide.
  - by eapply exact_collect.
  - injection Hs as <-. eapply exact_move; [done | exact Hp | done | done |]. intros s' Hk Hpg Hb Ht.
    assert (local_ok s' c (LoadingBits i)) as (? & ? & ? & ?) by by apply (local_kept s).
    by split_and!.
  - injection Hs as <-. by apply exact_store.
  - injection Hs as <-. by apply exact_initialise.
  - injection Hs as <-. by apply exact_publish.
  - done.
  - done.
Qed.

Lemma exact_initial memory : exact (initial_roll n memory).
Proof.
  split; cbn.
  - intros [|c] p Hp; [by injection Hp as <- |]. cbn in Hp. by apply lookup_replicate in Hp as [-> _].
  - intros k. by rewrite Z.testbit_0_l.
  - done.
  - by left.
Qed.

Lemma exact_reached s s' : rtc step s s' → orderly s → exact s → exact s'.
Proof.
  induction 1 as [|s1 s2 s3 H _ IH]; [done |]. intros Ho He.
  apply IH; [by eapply orderly_step | by eapply exact_step].
Qed.
End one_load.

(** ** The roll call can always complete *)
Section progress.
Context (one_load : bool) (number_of_cores : nat) (normal : nat → bool) (page : Z) (page_not_0 : page ≠ 0).
#[local] Abbreviation n := number_of_cores.
#[local] Abbreviation step := (roll_step one_load number_of_cores normal page).
#[local] Abbreviation orderly := (orderly number_of_cores normal).

(** A core that is elsewhere is special, and one that has finished has seen the page. *)
Definition placed (s : roll) : Prop :=
  ∀ c, (points s !! c = Some Elsewhere → normal c = false) ∧ (points s !! c = Some Finished → first_free_page s ≠ 0).

Definition publishes (s : roll) : Prop := ∃ s', rtc step s s' ∧ first_free_page s' ≠ 0.

Lemma publishes_step s s' : step s s' → publishes s' → publishes s.
Proof. intros H (s2 & Hr & Hp). exists s2. split; [by eapply rtc_l | done]. Qed.

Lemma step_effect s s' :
  step s s' → answers_kept s s' ∧ (start_roll_call s = true → start_roll_call s' = true) ∧ (placed s → placed s').
Proof.
  intros (c & p & Hp & Hs). pose proof (lookup_lt_Some _ _ _ Hp) as Hc.
  assert (∀ q s1, points s1 = points s → (answered p = true → answered q = true) →
    (start_roll_call s = true → start_roll_call s1 = true) → (first_free_page s ≠ 0 → first_free_page s1 ≠ 0) →
    (q = Elsewhere → normal c = false) → (q = Finished → first_free_page s1 ≠ 0) →
    answers_kept s (goto c q s1) ∧ (start_roll_call s = true → start_roll_call (goto c q s1) = true) ∧
    (placed s → placed (goto c q s1))) as Hgo.
  { intros q s1 Hpts Ha Hst Hpg He Hf. split_and!; [| done |].
    - intros j (r & Hr & Hra). apply (answers_kept_goto c p q s1); [congruence | done |]. exists r. by rewrite Hpts.
    - intros Hpl c'. rewrite points_goto by by rewrite Hpts. case_decide as E.
      + subst. split; intros [= ->]; [by apply He | by apply Hf].
      + rewrite Hpts. destruct (Hpl c') as [? ?]. split; [done |]. intros ?. by apply Hpg; auto. }
  destruct p; cbn [core_step] in Hs; cbv zeta in Hs; repeat case_match; simplify_eq; apply Hgo; try done;
    repeat case_match; try done.
  all: intros _; by eapply bool_decide_eq_false_1.
Qed.

(** *** Everybody answers *)
Lemma core_moves s c p s' :
  points s !! c = Some p → core_step one_load n normal page c p s = Some s' → step s s'.
Proof. intros Hp Hs. by exists c, p. Qed.

Lemma preparations_end k s i :
  orderly s → placed s → start_roll_call s = false → points s !! 0%nat = Some (Preparing i) → (n - i)%nat = k →
  ∃ s', rtc step s s' ∧ orderly s' ∧ placed s' ∧ start_roll_call s' = true.
Proof.
  revert s i. induction k as [|k IH]; intros s i Ho Hpl Hst Hp Hk.
  - assert (step s (goto 0 Answering (begin_roll_call s))) as H.
    { eapply core_moves; [done |]. cbn. by rewrite bool_decide_eq_false_2 by lia. }
    eexists. split; [by apply rtc_once |]. split; [by eapply orderly_step |]. split; [|done].
    by apply (step_effect _ _ H).
  - assert (step s (goto 0 (Preparing (S i)) (set_present i WAITING s))) as H.
    { eapply core_moves; [done |]. cbn. by rewrite bool_decide_eq_true_2 by lia. }
    destruct (IH (goto 0 (Preparing (S i)) (set_present i WAITING s)) (S i)) as (s' & Hr & ?).
    + by eapply orderly_step.
    + by apply (step_effect _ _ H).
    + done.
    + apply list_lookup_insert_eq. by apply lookup_lt_Some in Hp.
    + lia.
    + exists s'. split; [by eapply rtc_l | done].
Qed.

Lemma core_answers s c :
  orderly s → placed s → start_roll_call s = true → (c < n)%nat →
  ∃ s', rtc step s s' ∧ orderly s' ∧ placed s' ∧ start_roll_call s' = true ∧ answers_kept s s' ∧ has_answered s' c.
Proof.
  intros Ho Hpl Hst Hc. destruct (lookup_lt_is_Some_2 (points s) c) as [p Hp]; [by rewrite (or_points _ _ _ Ho) |].
  assert (∀ s1, orderly s1 → placed s1 → start_roll_call s1 = true → answers_kept s s1 → rtc step s s1 →
    points s1 !! c = Some Answering →
    ∃ s', rtc step s s' ∧ orderly s' ∧ placed s' ∧ start_roll_call s' = true ∧ answers_kept s s' ∧ has_answered s' c)
    as Hanswer.
  { intros s1 Ho1 Hpl1 Hst1 Hk1 Hr1 Hp1. pose proof (core_moves _ _ _ _ Hp1 eq_refl) as H.
    destruct (step_effect _ _ H) as (Hk & Hst2 & Hpl2). eexists. split; [by eapply rtc_r |].
    split; [by eapply orderly_step |]. split; [auto |]. split; [auto |]. split; [by intros j ?; apply Hk, Hk1 |].
    eexists. split; [apply list_lookup_insert_eq; by apply lookup_lt_Some in Hp1 |]. by destruct (normal c). }
  destruct (answered p) eqn:Ha.
  { exists s. split_and!; [done | done | done | done | by intros j | by exists p]. }
  destruct p; try done.
  - by destruct (or_after _ _ _ Ho Hst c _ Hp) as [[=] _].
  - assert (step s (goto c Answering s)) as H by (eapply core_moves; [done | cbn; by rewrite Hst]).
    destruct (step_effect _ _ H) as (Hk & Hst2 & Hpl2).
    apply (Hanswer (goto c Answering s)); [by eapply orderly_step | auto | auto | done | by apply rtc_once |].
    apply list_lookup_insert_eq. by apply lookup_lt_Some in Hp.
  - apply (Hanswer s); [done.. | by intros j | done | done].
Qed.

Lemma all_answer m s :
  orderly s → placed s → start_roll_call s = true → (m ≤ n)%nat →
  ∃ s', rtc step s s' ∧ orderly s' ∧ placed s' ∧ start_roll_call s' = true ∧ ∀ j, (j < m)%nat → has_answered s' j.
Proof.
  intros Ho Hpl Hst. induction m as [|m IH]; intros Hm.
  { exists s. split_and!; [done | done | done | done | lia]. }
  destruct IH as (s1 & Hr1 & Ho1 & Hpl1 & Hst1 & Ha1); [lia |].
  destruct (core_answers s1 m) as (s2 & Hr2 & Ho2 & Hpl2 & Hst2 & Hk2 & Ha2); [done | done | done | lia |].
  exists s2. split_and!; [by etransitivity | done | done | done |].
  intros j Hj. destruct (decide (j = m)) as [->|]; [done |]. apply Hk2, Ha1. lia.
Qed.

Lemma read_once c i l a s :
  one_load = true → core_step one_load n normal page c (ReadNormal i l a) s =
    Some (goto c (Scanning (S i) (if is_present i NORMAL s && bool_decide (i < c)%nat then false else l)
      (a && negb (is_present i WAITING s))) s).
Proof. by intros ->. Qed.

Lemma read_twice c i l a s :
  one_load = false → core_step one_load n normal page c (ReadNormal i l a) s =
    Some (goto c (ReadWaiting i (if is_present i NORMAL s && bool_decide (i < c)%nat then false else l) a) s).
Proof. by intros ->. Qed.

(** *** The lowest normal core collects *)
Record ready (s : roll) : Prop := {
  rd_orderly : orderly s;
  rd_placed : placed s;
  rd_started : start_roll_call s = true;
  rd_all : all_answered n s;
}.

Lemma ready_step s s' : ready s → step s s' → ready s'.
Proof.
  intros [Ho Hpl Hst Ha] H. destruct (step_effect _ _ H) as (Hk & Hst2 & Hpl2).
  split; [by eapply orderly_step | auto | auto | intros j Hj; by apply Hk, Ha].
Qed.

Section lowest.
Context (m : nat) (Hm : (m < n)%nat) (Hlow : lowest normal m).

(** Continue with a lemma about the point that [m] has come to. *)
Ltac resume H Hr Hp := eapply H; [exact Hr | exact Hp | reflexivity].

(** Core [m] moves from [p] to [p']; what happens from there is for [Hnext]. *)
Lemma moves_on s p p' s1 :
  ready s → points s !! m = Some p → core_step one_load n normal page m p s = Some (goto m p' s1) →
  points s1 = points s →
  (ready (goto m p' s1) → points (goto m p' s1) !! m = Some p' → publishes (goto m p' s1)) → publishes s.
Proof.
  intros Hr Hp Hs Hpts Hnext. pose proof (core_moves _ _ _ _ Hp Hs) as H.
  apply (publishes_step _ _ H), Hnext; [by eapply ready_step |].
  apply at_core. rewrite Hpts. by apply lookup_lt_Some in Hp.
Qed.

Lemma from_publishing s : ready s → points s !! m = Some Publishing → publishes s.
Proof.
  intros Hr Hp. eapply moves_on; [done | done | done | done |]. intros _ _. by eexists.
Qed.

Lemma from_collecting k s i : ready s → points s !! m = Some (Collecting i) → (n - i)%nat = k → publishes s.
Proof.
  revert s i. induction k as [|k IH]; intros s i Hr Hp Hk.
  - eapply moves_on; [done | done | cbn; by rewrite bool_decide_eq_false_2 by lia | done |]. intros Hr1 Hp1.
    eapply moves_on; [done | done | done | done |]. apply from_publishing.
  - destruct (is_present i NORMAL s) eqn:E.
    + eapply moves_on; [done | done | cbn; rewrite bool_decide_eq_true_2, E by lia; done | done |]. intros Hr1 Hp1.
      eapply moves_on; [done | done | done | done |]. intros Hr2 Hp2.
      eapply moves_on; [done | done | done | done |]. intros Hr3 Hp3. apply (IH _ (S i)); [exact Hr3 | exact Hp3 | lia].
    + eapply moves_on; [done | done | cbn; rewrite bool_decide_eq_true_2, E by lia; done | done |]. intros Hr1 Hp1.
      apply (IH _ (S i)); [exact Hr1 | exact Hp1 | lia].
Qed.

Lemma from_deciding_yes s : ready s → points s !! m = Some (Deciding true true) → publishes s.
Proof.
  intros Hr Hp. destruct (decide (first_free_page s = 0)) as [H0|H0]; [|by exists s].
  eapply moves_on; [done | done | cbn; rewrite bool_decide_eq_true_2 by done; done | done |].
  intros Hr1 Hp1. resume from_collecting Hr1 Hp1.
Qed.

(** A scan begun after everybody has answered finds that [m] is the one. *)
Lemma from_scanning_yes k s i :
  ready s → points s !! m = Some (Scanning i true true) → (n - i)%nat = k → publishes s.
Proof.
  revert s i. induction k as [|k IH]; intros s i Hr Hp Hk.
  - eapply moves_on; [done | done | cbn; rewrite bool_decide_eq_false_2 by lia; done | done |]. apply from_deciding_yes.
  - destruct (decide (first_free_page s = 0)) as [H0|H0]; [|by exists s].
    eapply moves_on; [done | done | cbn; rewrite !bool_decide_eq_true_2 by (done || lia); done | done |]. intros Hr1 Hp1.
    assert (∀ s, ready s → is_present i NORMAL s && bool_decide (i < m)%nat = false) as Hn.
    { intros s' Hr'. destruct (decide (i < m)%nat); [|by rewrite bool_decide_eq_false_2, andb_false_r].
      apply andb_false_iff. left. destruct (is_present i NORMAL s') eqn:E; [|done].
      apply (load_normal n normal s' i (rd_orderly _ Hr') (rd_started _ Hr')) in E as [_ E]; [|lia].
      destruct Hlow as [_ Hl]. by rewrite Hl in E. }
    assert (∀ s, ready s → is_present i WAITING s = false) as Hw.
    { intros s' Hr'. destruct (rd_all _ Hr' i) as (p & Hpi & Ha); [lia |].
      destruct (or_after _ _ _ (rd_orderly _ Hr') (rd_started _ Hr') i p Hpi) as [_ E].
      unfold is_present. rewrite E, Ha. apply bool_decide_eq_false. unfold answer. by destruct (normal i). }
    destruct (decide (one_load = true)) as [Eone|Eone%not_true_is_false].
    + eapply moves_on; [done | done | rewrite read_once, Hn, Hw by done; done | done |].
      intros Hr2 Hp2. apply (IH _ (S i)); [exact Hr2 | exact Hp2 | lia].
    + eapply moves_on; [done | done | rewrite read_twice, Hn by done; done | done |].
      intros Hr2 Hp2. eapply moves_on; [done | done | cbn [core_step]; rewrite Hw by done; done | done |].
      intros Hr3 Hp3. apply (IH _ (S i)); [exact Hr3 | exact Hp3 | lia].
Qed.

Lemma from_head s : ready s → points s !! m = Some LoopHead → publishes s.
Proof.
  intros Hr Hp. destruct (decide (first_free_page s = 0)) as [H0|H0]; [|by exists s].
  eapply moves_on; [done | done | cbn; rewrite bool_decide_eq_true_2 by done; done | done |].
  intros Hr1 Hp1. resume from_scanning_yes Hr1 Hp1.
Qed.

Lemma from_deciding s l a : ready s → points s !! m = Some (Deciding l a) → publishes s.
Proof.
  intros Hr Hp. destruct (bool_decide (first_free_page s = 0) && a && l) eqn:E.
  - eapply moves_on; [done | done | cbn; rewrite E; done | done |]. intros Hr1 Hp1. resume from_collecting Hr1 Hp1.
  - eapply moves_on; [done | done | cbn; rewrite E; done | done |]. apply from_head.
Qed.

(** A scan begun earlier comes to its end, whatever it has seen. *)
Lemma from_scanning k s i l a : ready s → points s !! m = Some (Scanning i l a) → (n - i)%nat = k → publishes s.
Proof.
  revert s i l a. induction k as [|k IH]; intros s i l a Hr Hp Hk.
  - eapply moves_on; [done | done | cbn; rewrite bool_decide_eq_false_2 by lia; done | done |]. apply from_deciding.
  - destruct (decide (first_free_page s = 0)) as [H0|H0]; [|by exists s].
    eapply moves_on; [done | done | cbn; rewrite !bool_decide_eq_true_2 by (done || lia); done | done |]. intros Hr1 Hp1.
    destruct (decide (one_load = true)) as [Eone|Eone%not_true_is_false].
    + eapply moves_on; [done | done | by apply read_once | done |].
      intros Hr2 Hp2. eapply (IH _ (S i)); [exact Hr2 | exact Hp2 | lia].
    + eapply moves_on; [done | done | by apply read_twice | done |]. intros Hr2 Hp2.
      eapply moves_on; [done | done | done | done |].
      intros Hr3 Hp3. eapply (IH _ (S i)); [exact Hr3 | exact Hp3 | lia].
Qed.

Lemma lowest_publishes s : ready s → publishes s.
Proof.
  intros Hr. destruct (rd_all _ Hr m Hm) as (p & Hp & Ha). destruct Hlow as [Hnm _].
  destruct p as [i| | | |i l a|i l a|i l a|l a|i|i|i v| | | |]; try done.
  - by apply from_head.
  - resume from_scanning Hr Hp.
  - destruct (decide (one_load = true)) as [Eone|Eone%not_true_is_false].
    + eapply moves_on; [done | done | by apply read_once | done |]. intros Hr1 Hp1. resume from_scanning Hr1 Hp1.
    + eapply moves_on; [done | done | by apply read_twice | done |]. intros Hr1 Hp1.
      eapply moves_on; [done | done | done | done |]. intros Hr2 Hp2. resume from_scanning Hr2 Hp2.
  - eapply moves_on; [done | done | done | done |]. intros Hr2 Hp2. resume from_scanning Hr2 Hp2.
  - by eapply from_deciding.
  - resume from_collecting Hr Hp.
  - eapply moves_on; [done | done | done | done |]. intros Hr2 Hp2.
    eapply moves_on; [done | done | done | done |]. intros Hr3 Hp3. resume from_collecting Hr3 Hp3.
  - eapply moves_on; [done | done | done | done |]. intros Hr3 Hp3. resume from_collecting Hr3 Hp3.
  - eapply moves_on; [done | done | done | done |]. apply from_publishing.
  - by apply from_publishing.
  - exists s. split; [done |]. by apply (rd_placed _ Hr m).
  - destruct (rd_placed _ Hr m) as [He _]. by rewrite He in Hnm.
Qed.
End lowest.

Lemma lowest_exists c : (c < n)%nat → normal c = true → ∃ m, (m < n)%nat ∧ lowest normal m.
Proof.
  intros Hc Hn. induction (lt_wf c) as [c _ IH] in Hc, Hn |- *.
  destruct (decide (Exists (λ j, normal j = true) (seq 0 c))) as [H|H].
  - apply Exists_exists in H as (j & Hj & Hnj). apply elem_of_seq in Hj. apply (IH j); [lia | lia | done].
  - exists c. split; [done |]. split; [done |]. intros j Hj. destruct (normal j) eqn:E; [|done].
    destruct H. apply Exists_exists. exists j. split; [apply elem_of_seq; lia | done].
Qed.
End progress.

(** ** Running a schedule *)
Lemma run_schedule_reaches one_load n normal page cs s :
  rtc (roll_step one_load n normal page) s (run_schedule one_load n normal page cs s).
Proof.
  revert s. induction cs as [|c cs IH]; intros s; [done |]. cbn.
  destruct (points s !! c) as [p|] eqn:Hp; [|apply IH]. cbn.
  destruct (core_step one_load n normal page c p s) as [s1|] eqn:Hs; [|apply IH]. cbn.
  eapply rtc_l; [by exists c, p | apply IH].
Qed.

(** Four cores that find zeros in memory; core 3 is the watchdog. *)
Definition four_cores : roll := initial_roll 4 (replicate 4 WAITING).
Definition round_robin (rounds : nat) : list nat := mjoin (replicate rounds [0; 1; 2; 3]%nat).

Example four_cores_complete :
  let s := run_schedule true 4 vm_normal 0x1000 (round_robin 60) four_cores in
  first_free_page s = 0x1000 ∧ present_bits s = 7 ∧ tables_initialised s = 1%nat ∧
  points s = [Finished; Finished; Finished; Elsewhere].
Proof. vm_compute. done. Qed.

(** ** Claims *)

(** C4: if the compiler loads [present[i]] once in an iteration of the scan, then however the cores' steps
    interleave, and whatever memory held: when the first free page is published every core has
    answered, the set of cores is exactly the normal ones and the shared tables have been
    initialised exactly once; they are never initialised twice.  (With two loads neither is so:
    [two_loads_race].) *)
Theorem roll_call_exact n normal page memory s :
  (0 < n)%nat → length memory = n → page ≠ 0 →
  rtc (roll_step true n normal page) (initial_roll n memory) s →
  (tables_initialised s ≤ 1)%nat ∧
  (first_free_page s ≠ 0 →
    tables_initialised s = 1%nat ∧ (∀ j, (j < n)%nat → present s !! j = Some (answer normal j)) ∧
    ∀ k, Z.testbit (present_bits s) k = true ↔ ∃ j, k = Z.of_nat j ∧ (j < n)%nat ∧ normal j = true).
Proof.
  intros Hn Hl Hpage Hr. pose proof (orderly_initial n normal memory Hn Hl) as Hi.
  pose proof (orderly_reached _ _ _ _ _ _ Hr Hi) as Ho.
  pose proof (exact_reached _ _ _ Hpage _ _ Hr Hi (exact_initial _ _ memory)) as He. split.
  - destruct (ex_tables _ _ _ He) as [->|[Hpg|[c Hc]]]; [lia | |].
    + destruct (ex_page _ _ _ He Hpg) as (_ & _ & ->). lia.
    + destruct (ex_local _ _ _ He _ _ Hc) as ((_ & _ & _ & ->) & _). lia.
  - intros Hpg. destruct (ex_page _ _ _ He Hpg) as (Hb & Ha & Ht). split_and!; [done | |].
    + intros j Hj. destruct (Ha j Hj) as (p & Hp & Hap).
      assert (start_roll_call s = true) as Hst by (eapply started; [done | done | by destruct p | by destruct p]).
      destruct (or_after _ _ _ Ho Hst j p Hp) as [_ ->]. by rewrite Hap.
    + intros k. split; [by apply (ex_bits _ _ _ He) |]. intros (j & -> & Hj & Hnj). by apply Hb.
Qed.

Lemma roll_call_exact_witness :
  let s := run_schedule true 4 vm_normal 0x1000 (round_robin 60) four_cores in
  tables_initialised s = 1%nat ∧ present s !! 3%nat = Some SPECIAL.
Proof.
  intros s.
  destruct (roll_call_exact 4 vm_normal 0x1000 (replicate 4 WAITING) s) as [_ H];
    [lia | done | done | apply run_schedule_reaches |].
  destruct H as (Ht & Hp & _); [by vm_compute |]. split; [exact Ht | apply (Hp 3%nat); lia].
Defined.

(** C5: from whatever point the cores have come to, in whatever order, the roll call can still
    complete, as long as one of the cores is normal; no interleaving locks the cores up, with one load or
    with two. *)
Theorem roll_call_completes one_load n normal page memory s c :
  length memory = n → page ≠ 0 → (c < n)%nat → normal c = true →
  rtc (roll_step one_load n normal page) (initial_roll n memory) s →
  ∃ s', rtc (roll_step one_load n normal page) s s' ∧ first_free_page s' ≠ 0.
Proof.
  intros Hl Hpage Hc Hnc Hr. pose proof (orderly_initial n normal memory ltac:(lia) Hl) as Hi.
  pose proof (orderly_reached _ _ _ _ _ _ Hr Hi) as Ho.
  assert (placed normal s) as Hpl.
  { clear Ho Hi. assert (placed normal (initial_roll n memory)) as H0.
    { intros [|k]; split; cbn; try done; intros E%lookup_replicate; by destruct E. }
    induction Hr as [|s1 s2 s3 H _ IH]; [done |]. apply IH. by apply (step_effect _ _ _ _ Hpage _ _ H). }
  destruct (lowest_exists n normal c Hc Hnc) as (m & Hm & Hlow).
  assert (∃ s1, rtc (roll_step one_load n normal page) s s1 ∧ orderly n normal s1 ∧ placed normal s1 ∧
    start_roll_call s1 = true) as (s1 & Hr1 & Ho1 & Hpl1 & Hst1).
  { destruct (start_roll_call s) eqn:Hst; [by exists s |].
    destruct (or_before _ _ _ Ho Hst) as (_ & _ & (i & Hp & _) & _). by eapply preparations_end. }
  destruct (all_answer one_load n normal page Hpage n s1) as (s2 & Hr2 & Ho2 & Hpl2 & Hst2 & Ha2); [done.. |].
  destruct (lowest_publishes one_load n normal page Hpage m Hm Hlow s2) as (s3 & Hr3 & Hp3); [by split |].
  exists s3. split; [|done]. etransitivity; [exact Hr1 |]. by etransitivity.
Qed.

Lemma roll_call_completes_witness :
  ∃ s', rtc (roll_step false 4 vm_normal 0x1000)
    (run_schedule false 4 vm_normal 0x1000 [0; 1; 0; 0; 0; 0]%nat four_cores) s' ∧ first_free_page s' ≠ 0.
Proof.
  apply (roll_call_completes false 4 vm_normal 0x1000 (replicate 4 WAITING) _ 0);
    [done | done | lia | done | apply run_schedule_reaches].
Defined.

(** With two loads the scan of core 1 can see core 0 not normal yet, then not waiting
    any more, and take itself for the lowest. *)
Definition both_collect : list nat :=
  [0; 0; 0; 1; 1; 1; 1; 1; 0; 0; 0; 0; 1; 1; 0; 0; 1; 0; 1; 1; 1; 0; 1; 0; 0; 1; 1; 0; 0; 0; 1; 1; 0; 0; 1; 0; 1;
   0; 1; 0]%nat.
Definition wrong_set : list nat :=
  [0; 0; 0; 1; 1; 1; 1; 1; 0; 0; 0; 0; 0; 0; 1; 1; 1; 0; 0; 0; 0; 1; 1; 0; 1; 1; 0; 1; 0; 0; 0; 0; 1; 0; 0; 0]%nat.

(** If the scan loads [present[i]] twice, two normal cores can both collect: there is an order in
    which the shared tables are initialised twice, and one in which the page is published while the
    set of cores lacks core 1. *)
Theorem two_loads_race :
  let initial := initial_roll 2 [WAITING; WAITING] in
  (∃ s, rtc (roll_step false 2 vm_normal 0x1000) initial s ∧ tables_initialised s = 2%nat) ∧
  (∃ s, rtc (roll_step false 2 vm_normal 0x1000) initial s ∧ first_free_page s = 0x1000 ∧
    vm_normal 1 = true ∧ Z.testbit (present_bits s) 1 = false).
Proof.
  split.
  - exists (run_schedule false 2 vm_normal 0x1000 both_collect (initial_roll 2 [WAITING; WAITING])).
    split; [apply run_schedule_reaches | by vm_compute].
  - exists (run_schedule false 2 vm_normal 0x1000 wrong_set (initial_roll 2 [WAITING; WAITING])).
    split; [apply run_schedule_reaches | by vm_compute].
Qed.
