(* ===== verification/RiscosVm.v ===== *)
(** * The virtual machine driver

    [drivers/riscos.c] as it is built ([QEMU] defined, [TRACING] not): the EL0 driver
    that owns the non-secure partner thread and emulates the machine that the guest
    believes it runs on.  The kernel resumes the driver in [vm_handler] with the
    guest's program counter and the syndrome of its exception.

    The driver's static variables are the record [riscos]; its mapped memory (the guest's RAM at
    [ro_address], the stage 2 table at [el2_tt_address]) is the finite map [memory] of
    bytes, and an access outside it is a fault.  What the driver asks of the kernel is the
    class [Partner], and with the devices [Hypervisor].

    [BRK( __LINE__ )] never returns.  [claim_lock] on a lock held by another thread
    waits; the models stop there with [Spin].  Calls of TRIVIAL_NUMERIC_DISPLAY draw
    on the screen and change nothing else; they are left out, as are barriers. *)

From S2P Require Import Prelude Vmsa Crc.
Import Vmsa Crc.

(** ** The kernel and the devices, as the driver sees them *)

(** The calls that return at once. *)
Class Partner (E : Type) : Type := {
  get_partner_register : Z → M E Z;
  set_partner_register : Z → Z → M E unit;
  change_vm_system_register : Z → Z → Z → Z → M E Z;   (* vm, reg, xor_bits, and_bits *)
  supervisor_call : Z → M E unit;                       (* [asm ( "svc n" )] *)
}.

(** All of it. *)
Class Hypervisor (E : Type) : Type := {
  hypervisor_partner :: Partner E;
  gate_function : Z → Z → M E Z;                        (* thread, timeout *)
  yield_ : M E unit;
  (** The mapped page of the BSC1 device, by word. *)
  bsc0_read : Z → M E Z;
  bsc0_write : Z → Z → M E unit;
}.

(** ** State *)
Record irq_registers : Type := IrqRegisters {
  irq_basic_pending : Z;
  irq_pending1 : Z;
  irq_pending2 : Z;
  fiq_control : Z;
  enabled_irqs1 : Z;
  enabled_irqs2 : Z;
  enabled_basic_irqs : Z;
}.

(** The static [v] of each [READ_WRITE] register, and [ttbr0_el1]. *)
Record cp15_registers : Type := Cp15Registers {
  SCTLR_v : Z;
  DACR_v : Z;
  TTBCR_v : Z;
  TTBR0_v : Z;
  ACTLR_v : Z;
  ttbr0_el1 : Z;
}.

Record timer_registers : Type := TimerRegisters {
  control_status : Z;
  counter : Z;
  compare : list Z;          (* compare[4] *)
  locked_high : Z;
}.

Inductive emmc_register : Type :=
  | ARG2 | BLKSIZECNT | ARG1 | CMDTM | RESP0 | RESP1 | RESP2 | RESP3 | DATA | STATUS | CONTROL0 | CONTROL1
  | INTERRUPT | IRPT_MASK | IRPT_EN | CONTROL2 | FORCE_IRPT | BOOT_TIMEOUT | DBG_SEL | EXRDFIFO_CFG
  | EXRDFIFO_EN | TUNE_STEP | TUNE_STEPS_STD | TUNE_STEPS_DDR | SPI_INT_SPT | SLOTISR_VER.
#[global] Instance emmc_register_eq_dec : EqDecision emmc_register.
Proof. solve_decision. Defined.

Record riscos : Type := Riscos {
  irq_details : irq_registers;
  irq_active : bool;
  irq_lock : bool;
  cp15 : cp15_registers;
  system_timer : timer_registers;
  emmc_state : emmc_register → Z;
  emmc_state_lock : bool;
  sdcard_thread : Z;
  vm_lock : bool;
  vm_thread : Z;
  acks : Z;
  aarch64_counter : Z;
  mailbox_request : Z;
  waiting_for_event : bool;
  waiting_for_interrupt : bool;
  memory : gmap Z Z;
}.

Definition initial_emmc (r : emmc_register) : Z := if decide (r = CONTROL1) then 7 else 0.

Definition initial_riscos : riscos :=
  Riscos (IrqRegisters 0 0 0 0 0 0 0) false false (Cp15Registers 0 0 0 0 7 0)
    (TimerRegisters 0 0 [0; 0; 0; 0] 0) initial_emmc false 0 false 0 0 0 0xffffffff false false ∅.

Definition set_irq (v : irq_registers) (d : riscos) : riscos :=
  Riscos v (irq_active d) (irq_lock d) (cp15 d) (system_timer d) (emmc_state d) (emmc_state_lock d)
    (sdcard_thread d) (vm_lock d) (vm_thread d) (acks d) (aarch64_counter d) (mailbox_request d)
    (waiting_for_event d) (waiting_for_interrupt d) (memory d).
Definition set_irq_active (v : bool) (d : riscos) : riscos :=
  Riscos (irq_details d) v (irq_lock d) (cp15 d) (system_timer d) (emmc_state d) (emmc_state_lock d)
    (sdcard_thread d) (vm_lock d) (vm_thread d) (acks d) (aarch64_counter d) (mailbox_request d)
    (waiting_for_event d) (waiting_for_interrupt d) (memory d).
Definition set_irq_lock (v : bool) (d : riscos) : riscos :=
  Riscos (irq_details d) (irq_active d) v (cp15 d) (system_timer d) (emmc_state d) (emmc_state_lock d)
    (sdcard_thread d) (vm_lock d) (vm_thread d) (acks d) (aarch64_counter d) (mailbox_request d)
    (waiting_for_event d) (waiting_for_interrupt d) (memory d).
Definition set_cp15 (v : cp15_registers) (d : riscos) : riscos :=
  Riscos (irq_details d) (irq_active d) (irq_lock d) v (system_timer d) (emmc_state d) (emmc_state_lock d)
    (sdcard_thread d) (vm_lock d) (vm_thread d) (acks d) (aarch64_counter d) (mailbox_request d)
    (waiting_for_event d) (waiting_for_interrupt d) (memory d).
Definition set_timer (v : timer_registers) (d : riscos) : riscos :=
  Riscos (irq_details d) (irq_active d) (irq_lock d) (cp15 d) v (emmc_state d) (emmc_state_lock d)
    (sdcard_thread d) (vm_lock d) (vm_thread d) (acks d) (aarch64_counter d) (mailbox_request d)
    (waiting_for_event d) (waiting_for_interrupt d) (memory d).
Definition set_emmc (r : emmc_register) (v : Z) (d : riscos) : riscos :=
  Riscos (irq_details d) (irq_active d) (irq_lock d) (cp15 d) (system_timer d)
    (λ r', if decide (r' = r) then v else emmc_state d r') (emmc_state_lock d)
    (sdcard_thread d) (vm_lock d) (vm_thread d) (acks d) (aarch64_counter d) (mailbox_request d)
    (waiting_for_event d) (waiting_for_interrupt d) (memory d).
Definition set_emmc_lock (v : bool) (d : riscos) : riscos :=
  Riscos (irq_details d) (irq_active d) (irq_lock d) (cp15 d) (system_timer d) (emmc_state d) v
    (sdcard_thread d) (vm_lock d) (vm_thread d) (acks d) (aarch64_counter d) (mailbox_request d)
    (waiting_for_event d) (waiting_for_interrupt d) (memory d).
Definition set_threads (sd vm : Z) (d : riscos) : riscos :=
  Riscos (irq_details d) (irq_active d) (irq_lock d) (cp15 d) (system_timer d) (emmc_state d) (emmc_state_lock d)
    sd (vm_lock d) vm (acks d) (aarch64_counter d) (mailbox_request d)
    (waiting_for_event d) (waiting_for_interrupt d) (memory d).
Definition set_vm_lock (v : bool) (d : riscos) : riscos :=
  Riscos (irq_details d) (irq_active d) (irq_lock d) (cp15 d) (system_timer d) (emmc_state d) (emmc_state_lock d)
    (sdcard_thread d) v (vm_thread d) (acks d) (aarch64_counter d) (mailbox_request d)
    (waiting_for_event d) (waiting_for_interrupt d) (memory d).
Definition set_hvc_counters (a c : Z) (d : riscos) : riscos :=
  Riscos (irq_details d) (irq_active d) (irq_lock d) (cp15 d) (system_timer d) (emmc_state d) (emmc_state_lock d)
    (sdcard_thread d) (vm_lock d) (vm_thread d) a c (mailbox_request d)
    (waiting_for_event d) (waiting_for_interrupt d) (memory d).
Definition set_mailbox (v : Z) (d : riscos) : riscos :=
  Riscos (irq_details d) (irq_active d) (irq_lock d) (cp15 d) (system_timer d) (emmc_state d) (emmc_state_lock d)
    (sdcard_thread d) (vm_lock d) (vm_thread d) (acks d) (aarch64_counter d) v
    (waiting_for_event d) (waiting_for_interrupt d) (memory d).
Definition set_waiting (e i : bool) (d : riscos) : riscos :=
  Riscos (irq_details d) (irq_active d) (irq_lock d) (cp15 d) (system_timer d) (emmc_state d) (emmc_state_lock d)
    (sdcard_thread d) (vm_lock d) (vm_thread d) (acks d) (aarch64_counter d) (mailbox_request d) e i (memory d).
Definition set_memory (v : gmap Z Z) (d : riscos) : riscos :=
  Riscos (irq_details d) (irq_active d) (irq_lock d) (cp15 d) (system_timer d) (emmc_state d) (emmc_state_lock d)
    (sdcard_thread d) (vm_lock d) (vm_thread d) (acks d) (aarch64_counter d) (mailbox_request d)
    (waiting_for_event d) (waiting_for_interrupt d) v.

(** The driver and what it runs on. *)
Record sys (E : Type) : Type := Sys { vmd : riscos; world : E }.
Arguments Sys {E} _ _.
Arguments vmd {E} _.
Arguments world {E} _.

(** ** Constants *)
Definition el2_tt_address : Z := 0x80000.
Definition ro_address : Z := 0x8000000.
Definition rom_load : Z := 0.
Definition riscos_ram_size : Z := 64 * 1024 * 1024.

(** [vm_system_register] *)
Definition SCTLR_EL1 : Z := 1.
Definition TCR_EL1 : Z := 2.
Definition TTBR0_EL1 : Z := 3.
Definition ESR_EL1 : Z := 8.
Definition FAR_EL1 : Z := 9.
Definition VTTBR_EL2 : Z := 10.
Definition HCR_EL2 : Z := 11.
Definition HSTR_EL2 : Z := 12.
Definition VMPIDR_EL2 : Z := 13.
Definition VPIDR_EL2 : Z := 14.
Definition VTCR_EL2 : Z := 15.
Definition DACR32_EL2 : Z := 16.
Definition CONTEXTIDR_EL1 : Z := 17.

(** ** Memory *)

(** [n] bytes at [a], least significant first. *)
Fixpoint load_bytes (mem : gmap Z Z) (n : nat) (a : Z) : option Z :=
  match n with
  | O => Some 0
  | S n => b ← mem !! a; rest ← load_bytes mem n (a + 1); Some (Z.lor b (Z.shiftl rest 8))
  end.

Fixpoint store_bytes (mem : gmap Z Z) (n : nat) (a v : Z) : option (gmap Z Z) :=
  match n with
  | O => Some mem
  | S n => _ ← mem !! a; store_bytes (<[a := u8 v]> mem) n (a + 1) (Z.shiftr v 8)
  end.

(** [timer_passed( now, ticks, match )] *)
Definition timer_passed (now ticks mtch : Z) : bool :=
  let wraps := bool_decide (u32 (now + ticks) < now) in
  if wraps then bool_decide (mtch > now) || bool_decide (mtch < u32 (now + ticks))
  else bool_decide (mtch > now) && bool_decide (mtch < u32 (now + ticks)).

Definition bit (n : Z) : Z := u32 (Z.shiftl 1 n).

Section with_partner.
Context {E : Type} `{!Partner E}.

#[local] Abbreviation D := (M (sys E)).

Definition ask {A} (m : M E A) : D A := λ s,
  match m (world s) with
  | Ok a e => Ok a (Sys (vmd s) e)
  | Stop r e => Stop r (Sys (vmd s) e)
  end.
Definition get_vmd {A} (f : riscos → A) : D A := gets (λ s, f (vmd s)).
Definition upd_vmd (f : riscos → riscos) : D unit := modify (λ s, Sys (f (vmd s)) (world s)).

Definition load (n : nat) (a : Z) : D Z :=
  mem ← get_vmd memory;
  match load_bytes mem n a with Some v => mret v | None => halt (Fault a) end.
Definition store (n : nat) (a v : Z) : D unit :=
  mem ← get_vmd memory;
  match store_bytes mem n a v with Some mem => upd_vmd (set_memory mem) | None => halt (Fault a) end.
Definition load32 : Z → D Z := load 4.
Definition store32 : Z → Z → D unit := store 4.

(** [set_partner_register( register_index, v )] and
    [uint32_t v = get_partner_register( register_index )] *)
Definition set_reg (register_index v : Z) : D unit := ask (set_partner_register register_index v).
Definition get_reg (register_index : Z) : D Z := ask (get_partner_register register_index).

(** ** The interrupt controller *)
Definition claim_irq_lock : D unit :=
  held ← get_vmd irq_lock;
  _ ← guard_stop held (Spin 178);
  upd_vmd (set_irq_lock true).
Definition release_irq_lock : D unit := upd_vmd (set_irq_lock false).

Definition upd_irq (f : irq_registers → irq_registers) : D unit := upd_vmd (λ d, set_irq (f (irq_details d)) d).

(** [irq_now] *)
Definition irq_now (i : irq_registers) : bool :=
  bool_decide (Z.land (irq_pending1 i) (enabled_irqs1 i) ≠ 0)
  || bool_decide (Z.land (irq_pending2 i) (enabled_irqs2 i) ≠ 0)
  || bool_decide (Z.land (irq_basic_pending i) (enabled_basic_irqs i) ≠ 0).

Definition update_virtual_irq : D unit :=
  now ← get_vmd (λ d, irq_now (irq_details d));
  active ← get_vmd irq_active;
  _ ← (if now && negb active then ask (supervisor_call 8)
       else if negb now && active then ask (supervisor_call 9)
       else mret ());
  upd_vmd (set_irq_active now).

Definition set_pending (n : Z) (i : irq_registers) : irq_registers :=
  let '(IrqRegisters b p1 p2 f e1 e2 eb) := i in
  if bool_decide (n < 32) then IrqRegisters b (Z.lor p1 (bit n)) p2 f e1 e2 eb
  else if bool_decide (n < 64) then IrqRegisters b p1 (Z.lor p2 (bit (n - 32))) f e1 e2 eb
  else if bool_decide (n < 72) then IrqRegisters (Z.lor b (bit (n - 64))) p1 p2 f e1 e2 eb
  else i.

Definition trigger_irq (n : Z) : D unit :=
  _ ← claim_irq_lock;
  _ ← upd_irq (set_pending n);
  _ ← update_virtual_irq;
  release_irq_lock.

Definition irq_pending (n : Z) (i : irq_registers) : bool :=
  if bool_decide (n < 32) then
    bool_decide (Z.land (Z.land (irq_pending1 i) (enabled_irqs1 i)) (bit n) ≠ 0)
  else if bool_decide (n < 64) then
    bool_decide (Z.land (Z.land (irq_pending2 i) (enabled_irqs2 i)) (bit (n - 32)) ≠ 0)
  else if bool_decide (n < 72) then
    bool_decide (Z.land (Z.land (irq_basic_pending i) (enabled_basic_irqs i)) (bit (n - 64)) ≠ 0)
  else false.

Definition clear_pending (n : Z) (i : irq_registers) : irq_registers :=
  let '(IrqRegisters b p1 p2 f e1 e2 eb) := i in
  if bool_decide (n < 32) then IrqRegisters b (Z.ldiff p1 (bit n)) p2 f e1 e2 eb
  else if bool_decide (n < 64) then IrqRegisters b p1 (Z.ldiff p2 (bit (n - 32))) f e1 e2 eb
  else if bool_decide (n < 72) then IrqRegisters (Z.ldiff b (bit (n - 64))) p1 p2 f e1 e2 eb
  else i.

Definition clear_irq (n : Z) : D unit :=
  _ ← claim_irq_lock;
  _ ← upd_irq (clear_pending n);
  _ ← update_virtual_irq;
  release_irq_lock.

(** [if (irq_pending( n )) pending |= (1 << b)] *)
Definition pending_bit (n b : Z) (i : irq_registers) (pending : Z) : Z :=
  if irq_pending n i then Z.lor pending (bit b) else pending.

(** The register at 0x200.  In [irq_pending1 & enabled_irqs1 != 0] the comparison
    binds tighter than [&]. *)
Definition basic_pending (i : irq_registers) : Z :=
  let pending := Z.land (Z.land (irq_basic_pending i) (enabled_basic_irqs i)) 0xff in
  let pending := pending_bit 62 20 i pending in
  let pending := pending_bit 57 19 i pending in
  let pending := pending_bit 56 18 i pending in
  let pending := pending_bit 55 17 i pending in
  let pending := pending_bit 54 16 i pending in
  let pending := pending_bit 53 15 i pending in
  let pending := pending_bit 19 14 i pending in
  let pending := pending_bit 18 13 i pending in
  let pending := pending_bit 10 12 i pending in
  let pending := pending_bit 9 11 i pending in
  let pending := pending_bit 7 10 i pending in
  let pending := if bool_decide (Z.land (irq_pending1 i) (Z.b2z (bool_decide (enabled_irqs1 i ≠ 0))) ≠ 0)
                 then Z.lor pending (bit 9) else pending in
  if bool_decide (Z.land (irq_pending2 i) (Z.b2z (bool_decide (enabled_irqs2 i ≠ 0))) ≠ 0)
  then Z.lor pending (bit 8) else pending.

(** A register that a write changes with [f], and that otherwise reads [v]. *)
Definition irq_register (is_write : bool) (register_index : Z) (v : irq_registers → Z)
    (f : Z → irq_registers → irq_registers) : D unit :=
  if is_write then r ← get_reg register_index; upd_irq (f r)
  else i ← get_vmd irq_details; set_reg register_index (v i).

Definition with_enabled1 (v : Z) (i : irq_registers) : irq_registers :=
  IrqRegisters (irq_basic_pending i) (irq_pending1 i) (irq_pending2 i) (fiq_control i) v
    (enabled_irqs2 i) (enabled_basic_irqs i).
Definition with_enabled2 (v : Z) (i : irq_registers) : irq_registers :=
  IrqRegisters (irq_basic_pending i) (irq_pending1 i) (irq_pending2 i) (fiq_control i) (enabled_irqs1 i)
    v (enabled_basic_irqs i).
Definition with_enabled_basic (v : Z) (i : irq_registers) : irq_registers :=
  IrqRegisters (irq_basic_pending i) (irq_pending1 i) (irq_pending2 i) (fiq_control i) (enabled_irqs1 i)
    (enabled_irqs2 i) v.
Definition with_fiq_control (v : Z) (i : irq_registers) : irq_registers :=
  IrqRegisters (irq_basic_pending i) (irq_pending1 i) (irq_pending2 i) v (enabled_irqs1 i)
    (enabled_irqs2 i) (enabled_basic_irqs i).

Definition irq_registers_switch (is_write : bool) (register_index offset : Z) : D unit :=
  let read_only v := if is_write then mret () else i ← get_vmd irq_details; set_reg register_index (v i) in
  if bool_decide (offset = 0x200) then read_only basic_pending
  else if bool_decide (offset = 0x204) then read_only (λ i, Z.land (irq_pending1 i) (enabled_irqs1 i))
  else if bool_decide (offset = 0x208) then read_only (λ i, Z.land (irq_pending2 i) (enabled_irqs2 i))
  else if bool_decide (offset = 0x20c) then
    _ ← irq_register is_write register_index fiq_control (λ r, with_fiq_control (u32 r));
    guard_stop is_write (Brk 270)
  else if bool_decide (offset = 0x210) then
    irq_register is_write register_index enabled_irqs1
      (λ r i, with_enabled1 (u32 (Z.lor (enabled_irqs1 i) r)) i)
  else if bool_decide (offset = 0x214) then
    irq_register is_write register_index enabled_irqs2
      (λ r i, with_enabled2 (u32 (Z.lor (enabled_irqs2 i) r)) i)
  else if bool_decide (offset = 0x218) then
    irq_register is_write register_index enabled_basic_irqs
      (λ r i, with_enabled_basic (u32 (Z.lor (enabled_basic_irqs i) r)) i)
  else if bool_decide (offset = 0x21c) then
    irq_register is_write register_index enabled_irqs1
      (λ r i, with_enabled1 (u32 (Z.ldiff (enabled_irqs1 i) r)) i)
  else if bool_decide (offset = 0x220) then
    irq_register is_write register_index enabled_irqs2
      (λ r i, with_enabled2 (u32 (Z.ldiff (enabled_irqs2 i) r)) i)
  else if bool_decide (offset = 0x224) then
    irq_register is_write register_index enabled_basic_irqs
      (λ r i, with_enabled_basic (u32 (Z.ldiff (enabled_basic_irqs i) r)) i)
  else halt (Brk 331).

Definition bcm_2835_irq_registers_access (is_write : bool) (register_index offset : Z) : D unit :=
  _ ← claim_irq_lock;
  _ ← irq_registers_switch is_write register_index offset;
  _ ← when is_write update_virtual_irq;
  release_irq_lock.

(** ** Coprocessor accesses *)

(** [copro_syndrome] *)
Definition cp_is_read (syndrome : Z) : bool := bool_decide (get_bits 0 1 syndrome ≠ 0).
Definition cp_CRm (syndrome : Z) : Z := get_bits 1 4 syndrome.
Definition cp_Rt (syndrome : Z) : Z := get_bits 5 5 syndrome.
Definition cp_CRn (syndrome : Z) : Z := get_bits 10 4 syndrome.
Definition cp_Opc1 (syndrome : Z) : Z := get_bits 14 3 syndrome.
Definition cp_Opc2 (syndrome : Z) : Z := get_bits 17 3 syndrome.

Definition READ_ONLY (syndrome n : Z) : D unit :=
  if cp_is_read syndrome then set_reg (cp_Rt syndrome) n else halt (Brk 1).
Definition WRITE_ONLY (syndrome : Z) : D unit := guard_stop (cp_is_read syndrome) (Brk 1).
(** [v] is [static_v] of the driver and [put] stores it. *)
Definition READ_WRITE (syndrome : Z) (static_v : cp15_registers → Z) (put : Z → cp15_registers → cp15_registers)
    : D unit :=
  if cp_is_read syndrome then v ← get_vmd (λ d, static_v (cp15 d)); set_reg (cp_Rt syndrome) v
  else r ← get_reg (cp_Rt syndrome); upd_vmd (λ d, set_cp15 (put r (cp15 d)) d).

Definition set_vm_system_register (vm reg v : Z) : D unit :=
  _ ← ask (change_vm_system_register vm reg v 0); mret ().
Definition get_vm_system_register (vm reg : Z) : D Z :=
  ask (change_vm_system_register vm reg 0 0xffffffff).

(** The [READ_ONLY] registers: case label and value. *)
Definition cp15_read_only : list (Z * Z) :=
  [(0x00000, 0x410FD034); (0xa0000, 0x80000f00); (0x20000, 0x84448004); (0x24000, 0x0A200023);
   (0x00002, 0x00000111); (0x20002, 0x00000001); (0x40002, 0x00000002); (0x80002, 0x01100103);
   (0xa0002, 0x10020302); (0xc0002, 0x01222000); (0xe0002, 0x00000000);
   (0x00004, 0x00100011); (0x20004, 0x12002111); (0x40004, 0x11221011); (0x60004, 0x01102131);
   (0x80004, 0x00000141); (0xa0004, 0x00000000); (0x46400, 0x00000000)].

(** The [WRITE_ONLY] operations that do nothing but barriers. *)
Definition cp15_write_only : list Z :=
  [0x01c0a; 0x0200e; 0xc1c0a; 0x2200a; 0x2200c; 0x01c0e; 0xa1c14; 0x01c1c; 0x41c14].

Definition assoc (k : Z) (l : list (Z * Z)) : option Z :=
  (λ p, snd p) <$> List.find (λ p, bool_decide (fst p = k)) l.

(** A [READ_WRITE] register that is also a register of the virtual machine. *)
Definition cp15_vm_register (syndrome reg : Z) (static_v : cp15_registers → Z)
    (put : Z → cp15_registers → cp15_registers) : D unit :=
  _ ← READ_WRITE syndrome static_v put;
  when (negb (cp_is_read syndrome))
    (v ← get_vmd (λ d, static_v (cp15 d)); vm ← get_vmd vm_thread; set_vm_system_register vm reg v).

(** The fault registers, kept by the kernel alone. *)
Definition cp15_fault_register (syndrome reg : Z) : D unit :=
  vm ← get_vmd vm_thread;
  if cp_is_read syndrome then v ← get_vm_system_register vm reg; set_reg (cp_Rt syndrome) v
  else r ← get_reg (cp_Rt syndrome); set_vm_system_register vm reg r.

Definition cp15_access (syndrome : Z) : D unit :=
  let key := Z.land syndrome 0xffc1e in
  match assoc key cp15_read_only with
  | Some n => READ_ONLY syndrome n
  | None =>
      if bool_decide (key ∈ cp15_write_only) then WRITE_ONLY syndrome
      else if bool_decide (key = 0x08000) then halt (Brk 66)
      else if bool_decide (key = 0x00400) then
        cp15_vm_register syndrome SCTLR_EL1 SCTLR_v
          (λ v c, Cp15Registers v (DACR_v c) (TTBCR_v c) (TTBR0_v c) (ACTLR_v c) (ttbr0_el1 c))
      else if bool_decide (key = 0x00c00) then
        cp15_vm_register syndrome DACR32_EL2 DACR_v
          (λ v c, Cp15Registers (SCTLR_v c) v (TTBCR_v c) (TTBR0_v c) (ACTLR_v c) (ttbr0_el1 c))
      else if bool_decide (key = 0x40800) then
        cp15_vm_register syndrome TCR_EL1 TTBCR_v
          (λ v c, Cp15Registers (SCTLR_v c) (DACR_v c) v (TTBR0_v c) (ACTLR_v c) (ttbr0_el1 c))
      else if bool_decide (key = 0x00800) then
        _ ← cp15_vm_register syndrome TTBR0_EL1 TTBR0_v
          (λ v c, Cp15Registers (SCTLR_v c) (DACR_v c) (TTBCR_v c) v (ACTLR_v c) (ttbr0_el1 c));
        when (negb (cp_is_read syndrome))
          (upd_vmd (λ d, let c := cp15 d in
             set_cp15 (Cp15Registers (SCTLR_v c) (DACR_v c) (TTBCR_v c) (TTBR0_v c) (ACTLR_v c)
               (u32 (TTBR0_v c))) d))
      else if bool_decide (key = 0x20400) then
        READ_WRITE syndrome ACTLR_v
          (λ v c, Cp15Registers (SCTLR_v c) (DACR_v c) (TTBCR_v c) (TTBR0_v c) v (ttbr0_el1 c))
      else if bool_decide (key = 0x01800) then cp15_fault_register syndrome FAR_EL1
      else if bool_decide (key = 0x01400) then cp15_fault_register syndrome ESR_EL1
      else if bool_decide (key = 0x81c14 ∨ key = 0x81c0a) then
        _ ← WRITE_ONLY syndrome; ask (supervisor_call 0)
      else if bool_decide (key = 0x21c14) then mret ()
      else halt (Brk 65)
  end.

Definition cp14_access (syndrome : Z) : D unit :=
  if bool_decide (cp_Opc1 syndrome ≠ 0) then halt (Brk 485)
  else if bool_decide (cp_CRn syndrome ≠ 0) then halt (Brk 482)
  else if bool_decide (cp_Opc2 syndrome ≠ 0) then halt (Brk 479)
  else guard_stop (bool_decide (cp_CRm syndrome ≠ 0)) (Brk 476).

Definition cp15_access_RR (syndrome : Z) : D unit := halt (Brk 489).
Definition ldstc (syndrome : Z) : D unit := halt (Brk 490).
Definition fpaccess (syndrome : Z) : D unit := halt (Brk 491).
Definition vmrs_access (syndrome : Z) : D unit := halt (Brk 492).
Definition pointer_authentication (syndrome : Z) : D unit := halt (Brk 493).
Definition cp14_access_RR (syndrome : Z) : D unit := halt (Brk 494).
Definition illegal_execution_state (syndrome : Z) : D unit := halt (Brk 495).

(** ** Hypervisor and monitor calls *)

(** [while ((++aarch64_counter & 0xffffff) != 0) {}], [n] rounds at most. *)
Fixpoint count_up (n : nat) (c : Z) : option Z :=
  match n with
  | O => None
  | S n => let c := u32 (c + 1) in if bool_decide (Z.land c 0xffffff ≠ 0) then count_up n c else Some c
  end.

Definition hvc32 (syndrome : Z) : D unit :=
  let n := Z.land syndrome 15 in
  if bool_decide (n = 14) then
    vm ← get_vmd vm_thread;
    _ ← ask (change_vm_system_register vm HCR_EL2 0 (u64 (Z.lnot (Z.shiftl 1 7))));
    upd_vmd (λ d, set_hvc_counters (u32 (acks d + 1)) (aarch64_counter d) d)
  else if bool_decide (n = 15) then
    _ ← get_reg 7;
    _ ← get_reg 8;
    c ← get_vmd aarch64_counter;
    match count_up (Z.to_nat (2 ^ 24)) c with
    | Some c => upd_vmd (λ d, set_hvc_counters (acks d) c d)
    | None => halt (Spin 519)
    end
  else mret ().

Definition smc32 (syndrome : Z) : D unit := halt (Brk 525).
(** ** The property mailbox *)

(** [p[i] = v] *)
Definition set_word (p i v : Z) : D unit := store32 (p + 4 * i) v.
Definition word (p i : Z) : D Z := load32 (p + 4 * i).

(** The [switch] on the tag; [p[2]] already holds the response code. *)
Definition respond_to_tag (p tag : Z) : D unit :=
  if bool_decide (tag = 0x00010001) then set_word p 3 0
  else if bool_decide (tag = 0x00010002) then set_word p 3 13
  else if bool_decide (tag = 0x00010003) then
    _ ← set_word p 2 (Z.lor 6 (bit 31)); _ ← set_word p 3 0x2a2a2a2a; set_word p 4 0x2a2a
  else if bool_decide (tag = 0x00010004) then _ ← set_word p 3 0x2a2a2a2a; set_word p 4 0x2a2a2a2a
  else if bool_decide (tag = 0x00010005) then _ ← set_word p 3 0; set_word p 4 (u32 riscos_ram_size)
  else if bool_decide (tag = 0x00010006) then _ ← set_word p 3 0; set_word p 4 0
  else if bool_decide (tag = 0x00060001) then set_word p 3 (bit 4)
  else if bool_decide (tag = 0x00040002) then mret ()
  else if bool_decide (tag = 0x00030002) then
    clock ← word p 3;
    if bool_decide (clock = 1) then set_word p 4 250000
    else if bool_decide (clock = 4) then set_word p 4 250000000
    else halt (Brk 584)
  else if bool_decide (tag = 0x00038002) then
    clock ← word p 3; guard_stop (bool_decide (clock ≠ 2)) (Brk 593)
  else if bool_decide (tag = 0x0004801f) then _ ← word p 3; set_word p 3 0
  else if bool_decide (tag = 0x00048020) then _ ← word p 3; set_word p 3 0
  else halt (Brk 612).

(** The [while] loop, [n] rounds at most. *)
Fixpoint tag_loop (n : nat) (p : Z) : D unit :=
  match n with
  | O => halt (Spin 538)
  | S n =>
      tag ← word p 0;
      if bool_decide (tag ≠ 0) then
        size ← word p 1;
        _ ← set_word p 2 (Z.lor size (bit 31));
        _ ← respond_to_tag p tag;
        size ← word p 1;
        tag_loop n (p + 4 * (3 + size / 4))
      else mret ()
  end.

(** Every round reads a word further on: there are no more rounds than bytes. *)
Definition respond_to_tag_request (request : Z) : D unit :=
  _ ← set_word request 1 0x80000000;
  mem ← get_vmd memory;
  tag_loop (S (size mem)) (request + 4 * 2).

(** ** The system timer *)
Definition upd_timer (f : timer_registers → timer_registers) : D unit :=
  upd_vmd (λ d, set_timer (f (system_timer d)) d).

Definition write_compare (n : nat) (v : Z) (t : timer_registers) : timer_registers :=
  let c := <[n := u32 v]> (compare t) in
  let c := if bool_decide (u32 v < Z.land (counter t) 0xffffffff)
           then <[n := u32 (counter t + 2500)]> c else c in
  TimerRegisters (control_status t) (counter t) c (locked_high t).

Definition bcm_2835_system_timer_access (is_write : bool) (register_index offset : Z) : D unit :=
  if bool_decide (offset = 0x00) then
    if is_write then
      r ← get_reg register_index;
      _ ← upd_timer (λ t, TimerRegisters (Z.ldiff (control_status t) r) (counter t) (compare t) (locked_high t));
      halt (Spin 642)
    else t ← get_vmd system_timer; set_reg register_index (control_status t)
  else if bool_decide (offset = 0x04) then
    t ← get_vmd system_timer;
    let ticks := counter t in
    _ ← upd_timer (λ t, TimerRegisters (control_status t) (counter t) (compare t) (u32 (Z.shiftr ticks 32)));
    set_reg register_index (Z.land ticks 0xffffffff)
  else if bool_decide (offset = 0x08) then
    t ← get_vmd system_timer; set_reg register_index (locked_high t)
  else if bool_decide (0x0c ≤ offset ≤ 0x18) then
    let n := Z.to_nat (Z.land (Z.shiftr offset 4) 3) in
    if is_write then r ← get_reg register_index; upd_timer (write_compare n r)
    else
      t ← get_vmd system_timer;
      match compare t !! n with Some v => set_reg register_index v | None => halt (Fault offset) end
  else halt (Brk 675).

(** ** Setting up the virtual machine: the middle of [entry] *)

(** The block descriptor for the [i]th 2MB of guest memory. *)
Definition stage2_entry (vm_memory_base i : Z) : Z :=
  let entry := Aarch64_VMSA_block_at (vm_memory_base + Z.shiftl i 21) in
  let entry := Aarch64_VMSA_write_back_memory entry in
  let entry := Z.lor entry (Z.shiftl 1 10) in
  Aarch64_VMSA_L2_rwx entry.

(** [tt[i] = v] *)
Definition set_tt (i v : Z) : D unit := store 8 (el2_tt_address + 8 * i) v.

Definition build_stage2_table (vm_memory_base : Z) : D unit :=
  _ ← for_range 512 0 (λ i, set_tt i Aarch64_VMSA_invalid);
  for_range 32 0 (λ i, set_tt i (stage2_entry vm_memory_base i)).

Definition hcr2 : Z := 0x1c000fec3b.
Definition cp15_traps : Z := Z.ldiff 0xbfef (Z.shiftl 1 2).

(** The registers the guest starts with; [el2_tt] is the physical address of the table. *)
Definition set_vm_registers (this_thread el2_tt : Z) : D unit :=
  _ ← set_vm_system_register this_thread HCR_EL2 hcr2;
  _ ← set_vm_system_register this_thread VTTBR_EL2 el2_tt;
  _ ← set_vm_system_register this_thread HSTR_EL2 cp15_traps;
  _ ← set_vm_system_register this_thread VMPIDR_EL2 0xc0000000;
  _ ← set_vm_system_register this_thread VPIDR_EL2 0x410fc075;
  _ ← set_vm_system_register this_thread SCTLR_EL1 0xd50070;
  _ ← set_vm_system_register this_thread VTCR_EL2 0x800080f22;
  _ ← set_vm_system_register this_thread DACR32_EL2 (u64 (-1));
  set_vm_system_register this_thread CONTEXTIDR_EL1 (u64 (-1)).

(** [image_is_valid] with [QEMU]: copy the built-in image to the start of guest memory. *)
Definition image_is_valid (bare_metal_arm32_img : list Z) : D bool :=
  _ ← for_range (length bare_metal_arm32_img) 0 (λ i,
        match bare_metal_arm32_img !! Z.to_nat i with
        | Some b => store 1 (ro_address + rom_load + i) b
        | None => halt (Fault i)
        end);
  mret true.

End with_partner.

Section with_world.
Context {E : Type} `{!Hypervisor E}.

#[local] Abbreviation D := (M (sys E)).

(** ** The I2C interface: BSC1 is passed through, up to the page's last word *)
Definition bsc_access (device : Z) (is_write : bool) (register_index offset : Z) : D unit :=
  _ ← guard_stop (bool_decide (3 ≤ device)) (Brk 692);
  if bool_decide (device = 1) then
    _ ← (if is_write then v ← get_reg register_index; ask (bsc0_write (offset / 4) (u32 v))
         else v ← ask (bsc0_read (offset / 4)); set_reg register_index v);
    _ ← get_reg register_index;
    mret ()
  else halt (Brk 711).

(** ** The SD card host *)
Definition claim_emmc_lock : D unit :=
  held ← get_vmd emmc_state_lock;
  _ ← guard_stop held (Spin 897);
  upd_vmd (set_emmc_lock true).
Definition release_emmc_lock : D unit := upd_vmd (set_emmc_lock false).

Definition emmc (r : emmc_register) : D Z := get_vmd (λ d, emmc_state d r).
Definition write_emmc (r : emmc_register) (v : Z) : D unit := upd_vmd (set_emmc r v).

(** One round of the loop of the thread [sdcard]. *)
Definition sdcard_round : D unit :=
  _ ← ask (gate_function 0 0);
  command ← emmc CMDTM;
  if bool_decide (Z.shiftr command 24 = 0x07) then
    _ ← ask (gate_function 0 1);
    _ ← claim_emmc_lock;
    v ← emmc STATUS;
    _ ← write_emmc STATUS (Z.ldiff v 1);
    v ← emmc INTERRUPT;
    _ ← write_emmc INTERRUPT (Z.lor v 1);
    v ← emmc INTERRUPT;
    mask ← emmc IRPT_MASK;
    _ ← when (bool_decide (Z.land v mask ≠ 0)) (trigger_irq 62);
    release_emmc_lock
  else halt (Brk 890).

(** The registers by offset. *)
Definition emmc_register_at (offset : Z) : option emmc_register :=
  match offset with
  | 0x0 => Some ARG2 | 0x4 => Some BLKSIZECNT | 0x8 => Some ARG1 | 0xc => Some CMDTM
  | 0x10 => Some RESP0 | 0x14 => Some RESP1 | 0x18 => Some RESP2 | 0x1c => Some RESP3
  | 0x20 => Some DATA | 0x24 => Some STATUS | 0x28 => Some CONTROL0 | 0x2c => Some CONTROL1
  | 0x30 => Some INTERRUPT | 0x34 => Some IRPT_MASK | 0x38 => Some IRPT_EN | 0x3c => Some CONTROL2
  | 0x50 => Some FORCE_IRPT | 0x70 => Some BOOT_TIMEOUT | 0x74 => Some DBG_SEL
  | 0x80 => Some EXRDFIFO_CFG | 0x84 => Some EXRDFIFO_EN | 0x88 => Some TUNE_STEP
  | 0x8c => Some TUNE_STEPS_STD | 0x90 => Some TUNE_STEPS_DDR | 0xf0 => Some SPI_INT_SPT
  | 0xfc => Some SLOTISR_VER
  | _ => None
  end.

(** What follows a write of the command register. *)
Definition start_command : D unit :=
  v ← emmc STATUS;
  _ ← write_emmc STATUS (Z.lor v 1);
  t ← get_vmd sdcard_thread;
  _ ← ask (gate_function t 0);
  ask yield_.

Definition emmc_write_access (r : emmc_register) (value : Z) : D unit :=
  match r with
  | CMDTM => _ ← write_emmc CMDTM (u32 value); start_command
  | INTERRUPT =>
      v ← emmc INTERRUPT;
      _ ← write_emmc INTERRUPT (Z.ldiff v value);
      v ← emmc INTERRUPT;
      mask ← emmc IRPT_MASK;
      when (bool_decide (Z.land v mask = 0)) (clear_irq 62)
  | IRPT_MASK =>
      _ ← write_emmc IRPT_MASK (u32 value);
      v ← emmc INTERRUPT;
      mask ← emmc IRPT_MASK;
      when (bool_decide (Z.land v mask ≠ 0)) (trigger_irq 62)
  | _ => write_emmc r (u32 value)
  end.

Definition bcm_2835_emmc_access (is_write : bool) (register_index offset : Z) : D unit :=
  _ ← claim_emmc_lock;
  _ ← match emmc_register_at offset with
      | Some r =>
          if is_write then value ← get_reg register_index; emmc_write_access r value
          else v ← emmc r; set_reg register_index v
      | None => halt (Brk 1117)
      end;
  release_emmc_lock.

(** ** Data aborts: the emulated devices *)

(** The fields of the data abort syndrome. *)
Definition s_WnR (syndrome : Z) : bool := bool_decide (get_bits 6 1 syndrome ≠ 0).
Definition s_SRT (syndrome : Z) : Z := get_bits 16 5 syndrome.
Definition s_ISV (syndrome : Z) : bool := bool_decide (get_bits 24 1 syndrome ≠ 0).

Definition BASE : Z := 0x20000000.
(** [PAGE( low )] *)
Definition in_page (low a : Z) : bool := bool_decide (Z.lor BASE low ≤ a ≤ Z.lor (Z.lor BASE low) 0xfff).

(** A register that can only be read. *)
Definition device_read (syndrome v line : Z) : D unit :=
  if s_WnR syndrome then halt (Brk line) else set_reg (s_SRT syndrome) v.

Definition mailbox_write (syndrome : Z) : D unit :=
  r ← get_reg (s_SRT syndrome);
  _ ← upd_vmd (set_mailbox (u32 r));
  if s_WnR syndrome then
    r ← get_reg (s_SRT syndrome);
    _ ← upd_vmd (set_mailbox (u32 r));
    request ← get_vmd mailbox_request;
    if bool_decide (Z.land request 0xf = 8) then
      respond_to_tag_request (ro_address + 4 * (Z.land 0x3ffffff0 request / 4))
    else guard_stop (bool_decide (Z.land request 0xf ≠ 0)) (Brk 1205)
  else halt (Brk 1207).

Definition stage2_data_abort (syndrome fault_address intermediate_physical_address : Z) : D unit :=
  let s := u32 syndrome in
  _ ← guard_stop (negb (s_ISV s)) (Brk 1145);
  let a := Z.lor (u64 (Z.shiftl intermediate_physical_address 8)) (Z.land fault_address 0xfff) in
  let offset := Z.land a 0xfff in
  if bool_decide (a = Z.lor BASE 0x100020) then device_read s (bit 12) 1162
  else if bool_decide (Z.lor BASE 0x00b200 ≤ a ≤ Z.lor BASE 0x00b2ff) then
    bcm_2835_irq_registers_access (s_WnR s) (s_SRT s) offset
  else if bool_decide (a = Z.lor BASE 0x00b880) then
    request ← get_vmd mailbox_request; device_read s request 1175
  else if bool_decide (a = Z.lor BASE 0x00b898) then device_read s 0 1183
  else if bool_decide (a = Z.lor BASE 0x00b8a0) then mailbox_write s
  else if bool_decide (a = Z.lor BASE 0x200000) then mret ()
  else if in_page 0x205000 a then bsc_access 0 (s_WnR s) (s_SRT s) offset
  else if in_page 0x804000 a then bsc_access 1 (s_WnR s) (s_SRT s) offset
  else if in_page 0x805000 a then bsc_access 2 (s_WnR s) (s_SRT s) offset
  else if in_page 0x003000 a then bcm_2835_system_timer_access (s_WnR s) (s_SRT s) offset
  else if in_page 0x300000 a then bcm_2835_emmc_access (s_WnR s) (s_SRT s) offset
  else halt (Brk 1233).

(** ** Exceptions of the guest *)
Definition vm_handler (pc syndrome fault_address intermediate_physical_address : Z) : D Z :=
  let next := u64 (pc + 4) in
  let then_next (m : D unit) : D Z := _ ← m; mret next in
  let then_retry (m : D unit) : D Z := _ ← m; mret pc in
  let cp := u32 syndrome in
  let class := Z.shiftr syndrome 26 in
  if bool_decide (class = 0x01) then
    then_retry (upd_vmd (λ d, if bool_decide (Z.land syndrome 1 = 0)
      then set_waiting (waiting_for_event d) true d else set_waiting true (waiting_for_interrupt d) d))
  else if bool_decide (class = 0x03) then then_next (cp15_access cp)
  else if bool_decide (class = 0x04) then then_next (cp15_access_RR cp)
  else if bool_decide (class = 0x05) then then_next (cp14_access cp)
  else if bool_decide (class = 0x06) then then_next (ldstc cp)
  else if bool_decide (class = 0x07) then then_next (fpaccess cp)
  else if bool_decide (class = 0x08) then then_next (vmrs_access cp)
  else if bool_decide (class = 0x09) then then_next (pointer_authentication cp)
  else if bool_decide (class = 0x0c) then then_next (cp14_access_RR cp)
  else if bool_decide (class = 0x0e) then then_next (illegal_execution_state cp)
  else if bool_decide (class = 0x12) then then_retry (hvc32 cp)
  else if bool_decide (class = 0x13) then then_retry (smc32 cp)
  else if bool_decide (class = 0x24) then
    then_next (stage2_data_abort syndrome fault_address intermediate_physical_address)
  else if bool_decide (class < 64) then halt (Brk class)
  else mret pc.

(** ** The other threads of the driver *)

(** One round of [ticker_thread]. *)
Definition claim_vm_lock : D unit :=
  held ← get_vmd vm_lock;
  _ ← guard_stop held (Spin 1347);
  upd_vmd (set_vm_lock true).
Definition release_vm_lock : D unit := upd_vmd (set_vm_lock false).

Definition ticker_round : D unit :=
  _ ← ask (gate_function 0 2000);
  _ ← claim_vm_lock;
  vm ← get_vmd vm_thread;
  _ ← ask (change_vm_system_register vm HCR_EL2 (Z.shiftl 1 7) (u64 (Z.lnot (Z.shiftl 1 7))));
  release_vm_lock.

(** One round of the loop of [entry]: [switch_to_partner] leaves the processor to the
    guest and comes back through [vm_handler] with what the exception was. *)
Definition entry_round (switch_to_partner : Z → M E (Z * Z * Z * Z)) (next_pc : Z) : D Z :=
  _ ← claim_vm_lock;
  '(pc, syndrome, fault_address, ipa) ← ask (switch_to_partner next_pc);
  next_pc ← vm_handler pc syndrome fault_address ipa;
  _ ← release_vm_lock;
  waiting ← get_vmd (λ d, waiting_for_interrupt d || waiting_for_event d);
  _ ← when waiting
        (_ ← ask (gate_function 0 0); upd_vmd (set_waiting false false));
  _ ← ask yield_;
  mret next_pc.

(** The driver's threads take turns; each step is one round of one of them. *)
Inductive vm_step : sys E → sys E → Prop :=
  | step_handler pc syndrome fault_address ipa next_pc s s' :
      vm_handler pc syndrome fault_address ipa s = Ok next_pc s' → vm_step s s'
  | step_sdcard s s' : sdcard_round s = Ok () s' → vm_step s s'
  | step_ticker s s' : ticker_round s = Ok () s' → vm_step s s'.

End with_world.
