(* ===== verification/RiscosFacts.v ===== *)
(** * What the virtual machine driver guarantees

    Theorems about [RiscosVm]: the types of its variables and its requests for the guest's
    interrupt line as invariants of every handler, the program counter the guest resumes at,
    the comparison of the system timer, the mailbox loop, and the SD card protocol
    between the guest and the thread [sdcard]. *)

From S2P Require Import Prelude Crc Vmsa RiscosVm.
Import Crc Vmsa.

(** ** Invariants of a handler

    [keeps I m]: whenever [m] returns, [I] still holds of the driver and its world. *)
Section keeps.
Context {E : Type}.
Implicit Types I : sys E → Prop.

Definition keeps {A} I (m : M (sys E) A) : Prop := ∀ s a s', I s → m s = Ok a s' → I s'.

Lemma keeps_ret {A} I (a : A) : keeps I (mret a).
Proof. by intros s a' s' ? [= <- <-]. Qed.

Lemma keeps_halt {A} I r : keeps I (halt r : M (sys E) A).
Proof. by intros s a s'. Qed.

Lemma keeps_bind {A B} I (m : M (sys E) A) (f : A → M (sys E) B) :
  keeps I m → (∀ a, keeps I (f a)) → keeps I (m ≫= f).
Proof. intros Hm Hf s b s' HI H. apply bind_ok_inv in H as (a & s1 & E1 & H).
  eapply Hf; [by eapply Hm | done]. Qed.

(** What is read from the state may be assumed to come from a good one. *)
Lemma keeps_get_bind {A B} I (g : riscos → A) (f : A → M (sys E) B) :
  (∀ s, I s → keeps I (f (g (vmd s)))) → keeps I (get_vmd g ≫= f).
Proof. intros Hf s b s' HI H. unfold get_vmd in H. rewrite gets_ok in H. by eapply Hf. Qed.

Lemma keeps_when I b (m : M (sys E) unit) : keeps I m → keeps I (when b m).
Proof. destruct b; [done |]. intros _. apply keeps_ret. Qed.

Lemma keeps_guard I b r : keeps I (guard_stop b r : M (sys E) unit).
Proof. apply keeps_when, keeps_halt. Qed.

Lemma keeps_upd I f : (∀ s, I s → I (Sys (f (vmd s)) (world s))) → keeps I (upd_vmd f).
Proof. intros Hf s a s' HI [= <- <-]. auto. Qed.

Lemma keeps_ask {A} I (R : E → E → Prop) (m : M E A) :
  preserves R m → (∀ d e e', R e e' → I (Sys d e) → I (Sys d e')) → keeps I (ask m).
Proof.
  intros Hm HR [d e] a s' HI. unfold ask. simpl. destruct (m e) as [a' e'|] eqn:Em; [|done].
  intros [= <- <-]. eapply HR; [by eapply Hm | done].
Qed.

Lemma keeps_ask_bind {A B} I (R : E → E → Prop) (P : A → Prop) (m : M E A) (f : A → M (sys E) B) :
  preserves R m → (∀ d e e', R e e' → I (Sys d e) → I (Sys d e')) → returns P m →
  (∀ a, P a → keeps I (f a)) → keeps I (ask m ≫= f).
Proof.
  intros Hm HR HP Hf s b s' HI H. apply bind_ok_inv in H as (a & s1 & E1 & H).
  eapply (Hf a); [| |exact H].
  - unfold ask in E1. destruct (m (world s)) eqn:Em; [|done]. simplify_eq. by eapply HP.
  - by eapply (keeps_ask I R).
Qed.
End keeps.

(** The components add what their own operations keep. *)
Create HintDb keeps discriminated.

Ltac keeps_step :=
  intros; cbv zeta;
  match goal with
  | |- keeps _ _ => solve [eauto 2 with keeps nocore]
  | |- keeps _ (get_vmd _ ≫= _) => apply keeps_get_bind
  | |- keeps _ (_ ≫= _) => apply keeps_bind
  | |- keeps _ (mret _) => apply keeps_ret
  | |- keeps _ (halt _) => apply keeps_halt
  | |- keeps _ (guard_stop _ _) => apply keeps_guard
  | |- keeps _ (when _ _) => apply keeps_when
  | |- keeps _ (if ?b then _ else _) => destruct b
  | |- keeps _ (match ?x with _ => _ end) => destruct x
  end.
Ltac keeps := repeat keeps_step.

(** ** Types *)
Definition irq_typed (i : irq_registers) : Prop :=
  is_u32 (irq_basic_pending i) ∧ is_u32 (irq_pending1 i) ∧ is_u32 (irq_pending2 i) ∧ is_u32 (fiq_control i) ∧
  is_u32 (enabled_irqs1 i) ∧ is_u32 (enabled_irqs2 i) ∧ is_u32 (enabled_basic_irqs i).

Definition cp15_typed (c : cp15_registers) : Prop :=
  is_u64 (SCTLR_v c) ∧ is_u64 (DACR_v c) ∧ is_u64 (TTBCR_v c) ∧ is_u64 (TTBR0_v c) ∧ is_u64 (ACTLR_v c) ∧
  is_u32 (ttbr0_el1 c).

Definition timer_typed (t : timer_registers) : Prop :=
  is_u32 (control_status t) ∧ is_u64 (counter t) ∧ length (compare t) = 4%nat ∧ Forall is_u32 (compare t) ∧
  is_u32 (locked_high t).

Definition typed (d : riscos) : Prop :=
  irq_typed (irq_details d) ∧ cp15_typed (cp15 d) ∧ timer_typed (system_timer d) ∧
  (∀ r, is_u32 (emmc_state d r)) ∧ is_u32 (acks d) ∧ is_u32 (aarch64_counter d) ∧ is_u32 (mailbox_request d) ∧
  map_Forall (λ _ b, is_byte b) (memory d).

Definition all_typed {E} (s : sys E) : Prop := typed (vmd s).

(** *** Words *)
Lemma lor_range n a b : 0 ≤ n → 0 ≤ a < 2 ^ n → 0 ≤ b < 2 ^ n → 0 ≤ Z.lor a b < 2 ^ n.
Proof.
  intros Hn Ha Hb. assert (0 ≤ Z.lor a b) by (apply Z.lor_nonneg; lia). split; [done |].
  apply lt_pow2_testbit; [done | done |]. intros i Hi.
  by rewrite Z.lor_spec, (testbit_above a n), (testbit_above b n) by lia.
Qed.

Lemma ldiff_range n a b : 0 ≤ n → 0 ≤ a < 2 ^ n → 0 ≤ Z.ldiff a b < 2 ^ n.
Proof.
  intros Hn Ha. assert (0 ≤ Z.ldiff a b) by (apply Z.ldiff_nonneg; lia). split; [done |].
  apply lt_pow2_testbit; [done | done |]. intros i Hi. by rewrite Z.ldiff_spec, (testbit_above a n) by lia.
Qed.

Lemma bit_range n : is_u32 (bit n).
Proof. apply u32_range. Qed.

Lemma u32_lor a b : is_u32 a → is_u32 b → is_u32 (Z.lor a b).
Proof. apply lor_range. lia. Qed.

Lemma u32_1 : is_u32 1.
Proof. by unfold is_u32. Qed.

Lemma u32_ldiff a b : is_u32 a → is_u32 (Z.ldiff a b).
Proof. apply ldiff_range. lia. Qed.

#[export] Hint Resolve bit_range u32_lor u32_ldiff : isambard.

Lemma set_pending_typed n i : irq_typed i → irq_typed (set_pending n i).
Proof.
  destruct i as [b p1 p2 f e1 e2 eb]. unfold irq_typed. simpl. intros H. case_bool_decide; [|case_bool_decide; [|
    case_bool_decide; [|done]]]; simpl; naive_solver eauto with isambard.
Qed.

Lemma clear_pending_typed n i : irq_typed i → irq_typed (clear_pending n i).
Proof.
  destruct i as [b p1 p2 f e1 e2 eb]. unfold irq_typed. simpl. intros H. case_bool_decide; [|case_bool_decide; [|
    case_bool_decide; [|done]]]; simpl; naive_solver eauto with isambard.
Qed.

Lemma store_bytes_typed mem n a v mem' :
  map_Forall (λ _ b, is_byte b) mem → store_bytes mem n a v = Some mem' → map_Forall (λ _ b, is_byte b) mem'.
Proof.
  revert mem a v. induction n as [|n IH]; intros mem a v Hm Hs; simpl in Hs; [by simplify_eq |].
  apply bind_Some in Hs as (b & Hb & Hs). apply IH in Hs; [done |].
  apply map_Forall_insert_2; [|done]. unfold is_byte. apply Z.mod_pos_bound. lia.
Qed.

Section types.
Context {E : Type} `{!Hypervisor E}.
(** Registers are 64 bits wide. *)
Context (registers_u64 : ∀ i, returns is_u64 (get_partner_register (E := E) i)).

Lemma typed_ask {A} (m : M E A) : keeps all_typed (ask m).
Proof. by apply (keeps_ask _ (λ _ _, True)). Qed.

Lemma typed_get_reg i : keeps all_typed (get_reg i).
Proof. apply typed_ask. Qed.

Lemma typed_set_reg i v : keeps all_typed (set_reg i v).
Proof. apply typed_ask. Qed.

Lemma typed_get_reg_bind {A} i (f : Z → M (sys E) A) :
  (∀ v, is_u64 v → keeps all_typed (f v)) → keeps all_typed (get_reg i ≫= f).
Proof. intros Hf. by apply (keeps_ask_bind _ (λ _ _, True) is_u64). Qed.

Hint Resolve typed_ask typed_get_reg typed_set_reg : keeps.

Lemma typed_upd f : (∀ d, typed d → typed (f d)) → keeps all_typed (upd_vmd (E := E) f).
Proof. intros Hf. apply keeps_upd. intros s. apply Hf. Qed.

(** Discharge [typed] after an update of one part. *)
Ltac typed_parts :=
  match goal with H : all_typed _ |- _ => unfold all_typed in H | _ => idtac end;
  unfold typed, irq_typed, cp15_typed, timer_typed in *; simpl in *; destruct_and?; split_and?;
  solve [auto with isambard].
Ltac typed_step :=
  intros; cbv zeta;
  match goal with
  | |- keeps _ (get_reg _ ≫= _) => apply typed_get_reg_bind; intros ? ?
  | |- keeps _ (upd_vmd _) => apply typed_upd; intros ? ?
  | |- typed (if ?b then _ else _) => destruct b
  | |- typed _ => solve [typed_parts]
  | _ => keeps_step
  end.
Ltac typed := repeat typed_step.

Lemma typed_load n a : keeps (@all_typed E) (load n a).
Proof. unfold load. typed. Qed.

Lemma typed_store n a v : keeps (@all_typed E) (store n a v).
Proof.
  unfold store. apply keeps_get_bind. intros s Hs. destruct (store_bytes _ _ _ _) eqn:Es; [|apply keeps_halt].
  apply typed_upd. intros d Hd. assert (map_Forall (λ _ b, is_byte b) g); [|typed_parts].
  eapply store_bytes_typed; [|done]. unfold all_typed, typed in Hs. tauto.
Qed.

Lemma typed_upd_irq f : (∀ i, irq_typed i → irq_typed (f i)) → keeps (@all_typed E) (upd_irq f).
Proof. intros Hf. apply typed_upd. intros d (Hi & Hd). split; [by apply Hf | done]. Qed.

Lemma typed_update_virtual_irq : keeps (@all_typed E) update_virtual_irq.
Proof. unfold update_virtual_irq. typed. Qed.
Hint Resolve typed_load typed_store typed_update_virtual_irq : keeps.

Lemma typed_trigger_irq n : keeps (@all_typed E) (trigger_irq n).
Proof.
  unfold trigger_irq, claim_irq_lock, release_irq_lock. typed. apply typed_upd_irq. apply set_pending_typed.
Qed.

Lemma typed_clear_irq n : keeps (@all_typed E) (clear_irq n).
Proof.
  unfold clear_irq, claim_irq_lock, release_irq_lock. typed. apply typed_upd_irq. apply clear_pending_typed.
Qed.
Hint Resolve typed_trigger_irq typed_clear_irq : keeps.

Lemma typed_irq_access w i o : keeps (@all_typed E) (bcm_2835_irq_registers_access w i o).
Proof.
  unfold bcm_2835_irq_registers_access, irq_registers_switch, irq_register, claim_irq_lock, release_irq_lock.
  typed. all: apply typed_upd_irq; intros ? ?; typed_parts.
Qed.

Lemma typed_cp15 syn : keeps (@all_typed E) (cp15_access syn).
Proof.
  unfold cp15_access, cp15_vm_register, cp15_fault_register, READ_WRITE, READ_ONLY, WRITE_ONLY,
    set_vm_system_register, get_vm_system_register. typed.
Qed.

Lemma typed_cp14 syn : keeps (@all_typed E) (cp14_access syn).
Proof. unfold cp14_access. typed. Qed.

Lemma count_up_range n c c' : count_up n c = Some c' → is_u32 c'.
Proof.
  revert c. induction n as [|n IH]; intros c; [done |]. cbn [count_up]. cbv zeta. case_bool_decide; [apply IH |].
  intros [= <-]. apply u32_range.
Qed.

Lemma typed_hvc32 syn : keeps (@all_typed E) (hvc32 syn).
Proof.
  unfold hvc32. generalize (Z.to_nat (2 ^ 24)). intros n. cbv zeta.
  case_bool_decide; [typed |]. case_bool_decide; [|typed].
  do 2 (apply typed_get_reg_bind; intros ? _). apply keeps_get_bind. intros s Hs.
  destruct (count_up n _) as [c|] eqn:Ec; [|apply keeps_halt]. apply count_up_range in Ec. typed.
Qed.

Lemma typed_respond p tag : keeps (@all_typed E) (respond_to_tag p tag).
Proof. unfold respond_to_tag, set_word, word, store32, load32. typed. Qed.
Hint Resolve typed_respond : keeps.

Lemma typed_tag_loop n p : keeps (@all_typed E) (tag_loop n p).
Proof.
  revert p. induction n as [|n IH]; intros p; cbn [tag_loop]; unfold set_word, word, store32, load32; typed.
Qed.
Hint Resolve typed_tag_loop : keeps.

Lemma typed_request p : keeps (@all_typed E) (respond_to_tag_request p).
Proof. unfold respond_to_tag_request, set_word, store32. typed. Qed.
Hint Resolve typed_request : keeps.

Lemma write_compare_typed n v t : timer_typed t → timer_typed (write_compare n v t).
Proof.
  intros (H1 & H2 & H3 & H4 & H5). unfold write_compare, timer_typed. cbv zeta. cbn [control_status counter compare
    locked_high]. case_bool_decide; rewrite ?length_insert; refine (conj _ (conj _ (conj _ (conj _ _)))); try done.
  all: repeat apply Forall_insert; try done; apply u32_range.
Qed.

Lemma typed_timer w i o : keeps (@all_typed E) (bcm_2835_system_timer_access w i o).
Proof.
  unfold bcm_2835_system_timer_access, upd_timer. typed. destruct H0 as (Hi & Hc & Ht & Hd).
  split; [done |]. split; [done |]. split; [by apply write_compare_typed | done].
Qed.

Lemma typed_bsc n w i o : keeps (@all_typed E) (bsc_access n w i o).
Proof. unfold bsc_access. typed. Qed.

Lemma typed_write_emmc r v : is_u32 v → keeps (@all_typed E) (write_emmc r v).
Proof.
  intros Hv. apply typed_upd. intros d (H1 & H2 & H3 & H4 & H5). do 3 (split; [done |]). split; [|done].
  intros r'. simpl. by case_decide.
Qed.

Lemma typed_emmc_bind {A} r (f : Z → M (sys E) A) :
  (∀ v, is_u32 v → keeps all_typed (f v)) → keeps all_typed (emmc r ≫= f).
Proof. intros Hf. apply keeps_get_bind. intros s Hs. apply Hf, Hs. Qed.

Lemma typed_sdcard : keeps (@all_typed E) sdcard_round.
Proof.
  unfold sdcard_round, claim_emmc_lock, release_emmc_lock.
  repeat first [progress intros | apply typed_emmc_bind; intros ? ?
    | apply typed_write_emmc; by auto using u32_lor, u32_ldiff, u32_1 | typed_step].
Qed.

Lemma typed_emmc_access w i o : keeps (@all_typed E) (bcm_2835_emmc_access w i o).
Proof.
  unfold bcm_2835_emmc_access, claim_emmc_lock, release_emmc_lock. generalize (emmc_register_at o). intros r.
  unfold emmc_write_access, start_command.
  repeat first [progress intros | apply typed_emmc_bind; intros ? ?
    | apply typed_write_emmc; by auto using u32_lor, u32_ldiff, u32_range, u32_1 | typed_step].
Qed.
Hint Resolve typed_irq_access typed_cp15 typed_cp14 typed_hvc32 typed_timer typed_bsc typed_emmc_access : keeps.

Lemma typed_abort syn far ipa : keeps (@all_typed E) (stage2_data_abort syn far ipa).
Proof. unfold stage2_data_abort, device_read, mailbox_write. typed. Qed.
Hint Resolve typed_abort : keeps.

Lemma typed_vm_handler pc syn far ipa : keeps (@all_typed E) (vm_handler pc syn far ipa).
Proof.
  unfold vm_handler, cp15_access_RR, ldstc, fpaccess, vmrs_access, pointer_authentication, cp14_access_RR,
    illegal_execution_state, smc32. typed.
Qed.

Lemma typed_ticker : keeps (@all_typed E) ticker_round.
Proof. unfold ticker_round, claim_vm_lock, release_vm_lock. typed. Qed.

Lemma typed_step s s' : vm_step s s' → all_typed s → all_typed s'.
Proof.
  intros [pc syn far ipa n s1 s2 H|s1 s2 H|s1 s2 H] Ht;
    [by eapply typed_vm_handler | by eapply typed_sdcard | by eapply typed_ticker].
Qed.
End types.

(** ** The SD card *)

(** A kernel whose calls return. *)
Class Cooperative (E : Type) `{!Hypervisor E} : Type := {
  gate_returns t n e : ∃ r e', gate_function t n e = Ok r e';
  yield_returns e : ∃ e', yield_ e = Ok () e';
  svc_returns n e : ∃ e', supervisor_call n e = Ok () e';
}.

Section sdcard.
Context {E : Type} `{!Hypervisor E, !Cooperative E}.

Lemma ask_returns {A} (m : M E A) d (e : E) a e' : m e = Ok a e' → ask m (Sys d e) = Ok a (Sys d e').
Proof. intros H. unfold ask. simpl. by rewrite H. Qed.

Lemma update_virtual_irq_returns d (e : E) :
  ∃ e', update_virtual_irq (Sys d e) = Ok () (Sys (set_irq_active (irq_now (irq_details d)) d) e').
Proof.
  unfold update_virtual_irq, get_vmd. rewrite !gets_ok. simpl.
  destruct (svc_returns 8 e) as [e8 E8], (svc_returns 9 e) as [e9 E9].
  destruct (irq_now (irq_details d)), (irq_active d); simpl.
  - by exists e.
  - exists e8. by rewrite (bind_ok _ _ _ _ _ (ask_returns _ _ _ _ _ E8)).
  - exists e9. by rewrite (bind_ok _ _ _ _ _ (ask_returns _ _ _ _ _ E9)).
  - by exists e.
Qed.

(** Triggering an interrupt with the lock free. *)
Lemma trigger_irq_returns n d (e : E) :
  irq_lock d = false →
  ∃ e', trigger_irq n (Sys d e) =
    Ok () (Sys (set_irq_lock false (set_irq_active (irq_now (set_pending n (irq_details d)))
      (set_irq (set_pending n (irq_details d)) (set_irq_lock true d)))) e').
Proof.
  intros Hl. unfold trigger_irq, claim_irq_lock, get_vmd, upd_irq, upd_vmd.
  destruct (update_virtual_irq_returns (set_irq (set_pending n (irq_details d)) (set_irq_lock true d)) e)
    as [e' E']. exists e'.
  rewrite (bind_ok _ _ _ () (Sys (set_irq_lock true d) e)).
  2:{ rewrite gets_ok. simpl. by rewrite Hl. }
  rewrite modify_ok. by rewrite (bind_ok _ _ _ _ _ E').
Qed.

(** The driver after it has taken a command and passed it to [sdcard]. *)
Definition command_taken (value : Z) (d : riscos) : riscos :=
  set_emmc_lock false (set_emmc STATUS (Z.lor (emmc_state d STATUS) 1)
    (set_emmc CMDTM (u32 value) (set_emmc_lock true d))).

Lemma command_write i value d (e e1 : E) :
  emmc_state_lock d = false → get_partner_register i e = Ok value e1 →
  ∃ e', bcm_2835_emmc_access true i 0xc (Sys d e) = Ok () (Sys (command_taken value d) e').
Proof.
  intros Hl Hr. unfold bcm_2835_emmc_access, claim_emmc_lock, get_vmd, upd_vmd.
  destruct (gate_returns (sdcard_thread d) 0 e1) as (r & e2 & E2). destruct (yield_returns e2) as (e3 & E3).
  exists e3. rewrite (bind_ok _ _ _ () (Sys (set_emmc_lock true d) e)).
  2:{ rewrite gets_ok. simpl. by rewrite Hl. }
  change (emmc_register_at 12) with (Some CMDTM). cbv iota.
  rewrite (bind_ok _ _ _ () (Sys (set_emmc STATUS (Z.lor (emmc_state d STATUS) 1)
    (set_emmc CMDTM (u32 value) (set_emmc_lock true d))) e3)); [done |].
  rewrite (bind_ok _ _ _ _ _ (ask_returns _ _ _ _ _ Hr)).
  unfold emmc_write_access, start_command, write_emmc, emmc, upd_vmd, get_vmd.
  rewrite modify_ok, gets_ok, modify_ok, gets_ok. simpl.
  rewrite (bind_ok _ _ _ _ _ (ask_returns _ _ _ _ _ E2)). by apply ask_returns.
Qed.

(** The driver after the round of [sdcard] that completes CMD7. *)
Lemma command_completes d (e : E) :
  Z.shiftr (emmc_state d CMDTM) 24 = 0x07 → emmc_state_lock d = false → irq_lock d = false →
  let v := Z.lor (emmc_state d INTERRUPT) 1 in
  ∃ d' e', sdcard_round (Sys d e) = Ok () (Sys d' e') ∧
    emmc_state d' STATUS = Z.ldiff (emmc_state d STATUS) 1 ∧ emmc_state d' INTERRUPT = v ∧
    emmc_state_lock d' = false ∧ irq_lock d' = false ∧
    irq_details d' = (if bool_decide (Z.land v (emmc_state d IRPT_MASK) ≠ 0)
                      then set_pending 62 (irq_details d) else irq_details d).
Proof.
  intros Hc Hl Hi v. unfold sdcard_round, claim_emmc_lock, write_emmc, emmc.
  destruct (gate_returns 0 0 e) as (r & e1 & E1). destruct (gate_returns 0 1 e1) as (r2 & e2 & E2).
  rewrite (bind_ok _ _ _ _ _ (ask_returns _ _ _ _ _ E1)). unfold get_vmd, upd_vmd. rewrite gets_ok.
  change (emmc_state (vmd (Sys d e1)) CMDTM) with (emmc_state d CMDTM). rewrite bool_decide_eq_true_2 by done.
  rewrite (bind_ok _ _ _ _ _ (ask_returns _ _ _ _ _ E2)).
  rewrite (bind_ok _ _ _ () (Sys (set_emmc_lock true d) e2)).
  2:{ rewrite gets_ok. simpl. by rewrite Hl. }
  rewrite gets_ok, modify_ok, gets_ok, modify_ok, !gets_ok. cbn [vmd world].
  set (d1 := set_emmc INTERRUPT _ _).
  change (emmc_state d1 INTERRUPT) with v. change (emmc_state d1 IRPT_MASK) with (emmc_state d IRPT_MASK).
  case_bool_decide as Hm; cbn [when].
  - destruct (trigger_irq_returns 62 d1 e2 Hi) as (e3 & E3). rewrite (bind_ok _ _ _ _ _ E3).
    by eexists _, _.
  - by eexists _, _.
Qed.
End sdcard.

(** ** The requests to raise and to lower the guest's interrupt line *)

(** A kernel, and what [svc 8] and [svc 9] were executed so far, the latest first.  The record
    is of the calls alone: what the kernel makes of them is the kernel's affair. *)
Record logged (E : Type) : Type := Logged { requests : list Z; below : E }.
#[global] Arguments Logged {E} _ _.
#[global] Arguments requests {E} _.
#[global] Arguments below {E} _.

Definition unlogged {E A} (m : M E A) : M (logged E) A := λ w,
  match m (below w) with
  | Ok a e => Ok a (Logged (requests w) e)
  | Stop r e => Stop r (Logged (requests w) e)
  end.

(** The call is in the record even when the kernel stops at it. *)
Definition logged_call {E} (n : Z) (m : M E unit) : M (logged E) unit := λ w,
  unlogged m (Logged (if bool_decide (n = 8 ∨ n = 9) then n :: requests w else requests w) (below w)).

#[local] Instance logged_partner {E} `{!Partner E} : Partner (logged E) := {
  get_partner_register i := unlogged (get_partner_register i);
  set_partner_register i v := unlogged (set_partner_register i v);
  change_vm_system_register vm r x a := unlogged (change_vm_system_register vm r x a);
  supervisor_call n := logged_call n (supervisor_call n);
}.
#[local] Instance logged_world {E} `{!Hypervisor E} : Hypervisor (logged E) := {
  gate_function t n := unlogged (gate_function t n);
  yield_ := unlogged yield_;
  bsc0_read i := unlogged (bsc0_read i);
  bsc0_write i v := unlogged (bsc0_write i v);
}.

(** [requested up l]: the requests alternate, beginning with one to raise the line, and the last
    one leaves it, as far as the driver can tell, [up] or not. *)
Fixpoint requested (up : bool) (l : list Z) : Prop :=
  match l with
  | [] => up = false
  | n :: l => n = (if up then 8 else 9) ∧ requested (negb up) l
  end.

Section line.
Context {E : Type} `{!Hypervisor E}.

(** The driver's idea of the line and its requests follow the controller: up exactly when an
    enabled interrupt is pending. *)
Definition line_follows (s : sys (logged E)) : Prop :=
  irq_active (vmd s) = irq_now (irq_details (vmd s)) ∧
  requested (irq_now (irq_details (vmd s))) (requests (world s)).
(** What holds while the controller's registers change. *)
Definition line_known (s : sys (logged E)) : Prop := requested (irq_active (vmd s)) (requests (world s)).

Definition same_line (w w' : logged E) : Prop := requests w' = requests w.

Lemma same_unlogged {A} (m : M E A) : preserves same_line (unlogged m).
Proof. intros w a w'. unfold unlogged, same_line. destruct (m (below w)); [|done]. by intros [= _ <-]. Qed.

Lemma same_svc : preserves same_line (supervisor_call 0).
Proof. intros w a w'. apply same_unlogged. Qed.
Hint Extern 1 (preserves same_line _) => first [apply same_svc | apply same_unlogged] : preserves.

Lemma line_ask {A} (m : M (logged E) A) : preserves same_line m → keeps line_follows (ask m).
Proof.
  intros Hm. apply (keeps_ask _ _ _ Hm). unfold line_follows. simpl. intros d e e' ->. done.
Qed.

Lemma known_ask {A} (m : M (logged E) A) : preserves same_line m → keeps line_known (ask m).
Proof. intros Hm. apply (keeps_ask _ _ _ Hm). unfold line_known. simpl. intros d e e' ->. done. Qed.

Lemma line_get_reg i : keeps line_follows (get_reg i).
Proof. apply line_ask. auto with preserves. Qed.

Lemma line_set_reg i v : keeps line_follows (set_reg i v).
Proof. apply line_ask. auto with preserves. Qed.

(** Anything but the interrupt controller may change. *)
Lemma line_upd f :
  (∀ d, irq_active (f d) = irq_active d ∧ irq_details (f d) = irq_details d) → keeps line_follows (upd_vmd (E := logged E) f).
Proof.
  intros Hf. apply keeps_upd. unfold line_follows. intros [d e]. simpl. destruct (Hf d) as [-> ->]. done.
Qed.
Hint Resolve line_get_reg line_set_reg : keeps.

Ltac line_step :=
  intros; cbv zeta;
  match goal with
  | |- keeps _ (upd_vmd _) => apply line_upd; intros ?; solve [done | repeat case_match; done]
  | |- keeps _ (ask _) => apply line_ask; solve [auto with preserves]
  | _ => keeps_step
  end.
Ltac line := repeat line_step.

(** [update_virtual_irq] requests what is missing. *)
Lemma call_is_logged n (w : logged E) u w' :
  n = 8 ∨ n = 9 → supervisor_call n w = Ok u w' → requests w' = n :: requests w.
Proof. intros Hn H. apply same_unlogged in H. unfold same_line in H. simpl in H. by rewrite bool_decide_eq_true_2 in H. Qed.

Lemma update_virtual_irq_line s u s' : line_known s → update_virtual_irq s = Ok u s' → line_follows s'.
Proof.
  unfold update_virtual_irq, get_vmd. rewrite !gets_ok. intros Hk H. unfold line_known in Hk.
  destruct s as [d w]. cbn [vmd world] in *.
  destruct (irq_now (irq_details d)) eqn:En, (irq_active d) eqn:Ea; cbn [negb andb] in H;
    apply bind_ok_inv in H as (v & s1 & E1 & H); injection H as <- <-; revert E1; unfold ask; cbn [vmd world].
  all: first [intros [= <- <-] | destruct (supervisor_call _ w) as [v' w'|] eqn:Es; [intros [= <- <-] | done]].
  all: unfold line_follows; simpl; rewrite En; split; [done |].
  all: first [done | by rewrite (call_is_logged 8 _ _ _ (or_introl eq_refl) Es)
                   | by rewrite (call_is_logged 9 _ _ _ (or_intror eq_refl) Es)].
Qed.

Lemma known_upd_irq f : keeps line_known (upd_irq (E := logged E) f).
Proof. by apply keeps_upd. Qed.

Lemma line_is_known s : line_follows s → line_known s.
Proof. unfold line_follows, line_known. by intros [-> H]. Qed.

(** Claim the lock, change the registers, update the line, release the lock. *)
Lemma line_update (m : M (sys (logged E)) unit) :
  keeps line_known m →
  keeps line_follows (_ ← claim_irq_lock; _ ← m; _ ← update_virtual_irq; release_irq_lock).
Proof.
  intros Hm. apply keeps_bind; [unfold claim_irq_lock; line |]. intros _ s a s' Hs H.
  apply bind_ok_inv in H as (u1 & s1 & E1 & H). apply bind_ok_inv in H as (u2 & s2 & E2 & H).
  apply Hm in E1; [|by apply line_is_known]. apply update_virtual_irq_line in E2; [|done].
  revert H. apply (line_upd (set_irq_lock false)); done.
Qed.

Lemma line_trigger_irq n : keeps line_follows (trigger_irq n).
Proof. apply line_update, known_upd_irq. Qed.

Lemma line_clear_irq n : keeps line_follows (clear_irq n).
Proof. apply line_update, known_upd_irq. Qed.

Lemma known_get_reg i : keeps line_known (get_reg i).
Proof. apply known_ask. auto with preserves. Qed.

Lemma known_set_reg i v : keeps line_known (set_reg i v).
Proof. apply known_ask. auto with preserves. Qed.
Hint Resolve line_trigger_irq line_clear_irq known_get_reg known_set_reg known_upd_irq : keeps.

Lemma line_irq_access w i o : keeps line_follows (bcm_2835_irq_registers_access w i o).
Proof.
  destruct w; unfold bcm_2835_irq_registers_access.
  - apply line_update. unfold irq_registers_switch, irq_register. keeps.
  - unfold irq_registers_switch, irq_register, claim_irq_lock, release_irq_lock. cbn [when]. line.
Qed.

Lemma line_load n a : keeps line_follows (load n a).
Proof. unfold load. line. Qed.

Lemma line_store n a v : keeps line_follows (store n a v).
Proof. unfold store. line. Qed.
Hint Resolve line_load line_store line_irq_access : keeps.

Lemma line_respond p tag : keeps line_follows (respond_to_tag p tag).
Proof. unfold respond_to_tag, set_word, word, store32, load32. line. Qed.
Hint Resolve line_respond : keeps.

Lemma line_tag_loop n p : keeps line_follows (tag_loop n p).
Proof.
  revert p. induction n as [|n IH]; intros p; cbn [tag_loop]; unfold set_word, word, store32, load32; line.
Qed.
Hint Resolve line_tag_loop : keeps.

Lemma line_cp15 syn : keeps line_follows (cp15_access syn).
Proof.
  unfold cp15_access, cp15_vm_register, cp15_fault_register, READ_WRITE, READ_ONLY, WRITE_ONLY,
    set_vm_system_register, get_vm_system_register. line.
Qed.

Lemma line_hvc32 syn : keeps line_follows (hvc32 syn).
Proof. unfold hvc32. generalize (Z.to_nat (2 ^ 24)). intros n. line. Qed.

Lemma line_emmc_access w i o : keeps line_follows (bcm_2835_emmc_access w i o).
Proof.
  unfold bcm_2835_emmc_access, claim_emmc_lock, release_emmc_lock. generalize (emmc_register_at o). intros r.
  unfold emmc_write_access, start_command, emmc, write_emmc. line.
Qed.
Hint Resolve line_cp15 line_hvc32 line_emmc_access : keeps.

Lemma line_abort syn far ipa : keeps line_follows (stage2_data_abort syn far ipa).
Proof.
  unfold stage2_data_abort, device_read, mailbox_write, respond_to_tag_request, set_word, store32, bsc_access,
    bcm_2835_system_timer_access, upd_timer. line.
Qed.
Hint Resolve line_abort : keeps.

Lemma line_vm_handler pc syn far ipa : keeps line_follows (vm_handler pc syn far ipa).
Proof.
  unfold vm_handler, cp14_access, cp15_access_RR, ldstc, fpaccess, vmrs_access, pointer_authentication,
    cp14_access_RR, illegal_execution_state, smc32. line.
Qed.

Lemma line_sdcard : keeps line_follows sdcard_round.
Proof. unfold sdcard_round, claim_emmc_lock, release_emmc_lock, emmc, write_emmc. line. Qed.

Lemma line_ticker : keeps line_follows ticker_round.
Proof. unfold ticker_round, claim_vm_lock, release_vm_lock. line. Qed.

Lemma line_step_follows s s' : vm_step s s' → line_follows s → line_follows s'.
Proof.
  intros [pc syn far ipa n s1 s2 H|s1 s2 H|s1 s2 H] Ht;
    [by eapply line_vm_handler | by eapply line_sdcard | by eapply line_ticker].
Qed.
End line.

(** ** A world to run the driver in

    The partner's registers and the registers of the virtual machine. *)
Record machine : Type := Machine { guest_regs : list Z; vm_regs : gmap Z Z }.

#[export] Instance machine_partner : Partner machine := {
  get_partner_register i m :=
    match guest_regs m !! Z.to_nat i with Some v => Ok (u64 v) m | None => Stop (Bsod 591) m end;
  set_partner_register i v m :=
    Ok () (Machine (<[Z.to_nat i := u64 v]> (guest_regs m)) (vm_regs m));
  change_vm_system_register vm reg x a m :=
    let old := default 0 (vm_regs m !! reg) in
    Ok old (Machine (guest_regs m) (<[reg := u32 (Z.lxor x (Z.land old a))]> (vm_regs m)));
  supervisor_call n m := Ok () m;
}.
#[export] Instance machine_world : Hypervisor machine := {
  gate_function t n m := Ok 0 m;
  yield_ m := Ok () m;
  bsc0_read i m := Ok 0 m;
  bsc0_write i v m := Ok () m;
}.

Lemma machine_registers_u64 i : returns is_u64 (get_partner_register (E := machine) i).
Proof.
  intros m v m'. simpl. destruct (guest_regs m !! Z.to_nat i); [|done]. intros [= <- <-]. apply u64_range.
Qed.

(** A machine whose register 0 holds [v], with the driver's variables as they are at the start. *)
Definition machine_with (v : Z) : sys machine := Sys initial_riscos (Machine (v :: replicate 30 0) ∅).

(** The syndrome of a data abort: a store from, or a load to, register 0. *)
Definition store_syndrome : Z := Z.lor (Z.shiftl 0x24 26) (Z.lor (bit 24) (bit 6)).
Definition load_syndrome : Z := Z.lor (Z.shiftl 0x24 26) (bit 24).

Lemma initial_typed (m : machine) : all_typed (Sys initial_riscos m).
Proof.
  unfold all_typed, typed, irq_typed, cp15_typed, timer_typed, is_u32, is_u64. simpl.
  split_and?; try done; try lia.
  - by repeat apply Forall_cons_2.
  - intros r. unfold initial_emmc. case_decide; lia.
Qed.

(** Enable interrupt 62 with a store to the register at 0x214. *)
Definition enable_62 : sys machine → res (sys machine) Z :=
  vm_handler 0x8000 store_syndrome 0x214 (Z.shiftr 0x2000b000 8).

Definition state_of {A} (r : res (sys machine) A) : sys machine := match r with Ok _ s => s | Stop _ s => s end.

Lemma enable_62_runs :
  let s := state_of (enable_62 (machine_with (bit 30))) in
  enable_62 (machine_with (bit 30)) = Ok 0x8004 s ∧ enabled_irqs2 (irq_details (vmd s)) = bit 30.
Proof. vm_compute. done. Qed.

(** ** Claims *)

(** whatever the guest does and however the driver's threads take turns, every
    variable of the driver stays within the range of its C type: registers within 32 bits, the
    coprocessor's within 64, four compare registers, memory made of bytes. *)
Theorem vm_keeps_types {E} `{!Hypervisor E} (s s' : sys E) :
  (∀ i, returns is_u64 (get_partner_register (E := E) i)) →
  rtc vm_step s s' → all_typed s → all_typed s'.
Proof. intros Hu. induction 1 as [|s1 s2 s3 H _ IH]; [done |]. intros Ht. by eapply IH, typed_step. Qed.

Lemma vm_keeps_types_witness :
  all_typed (state_of (enable_62 (machine_with (bit 30)))).
Proof.
  apply (vm_keeps_types (machine_with (bit 30))); [apply machine_registers_u64 | |apply initial_typed].
  apply rtc_once. eapply step_handler. apply enable_62_runs.
Defined.


(** Interrupt 62 is pending, and the guest enables it. *)
Definition pending_62 : sys (logged machine) :=
  Sys (set_irq (set_pending 62 (irq_details initial_riscos)) initial_riscos)
    (Logged [] (Machine (bit 30 :: replicate 30 0) ∅)).
Definition raised_62 : sys (logged machine) :=
  match vm_handler 0x8000 store_syndrome 0x214 (Z.shiftr 0x2000b000 8) pending_62 with Ok _ s | Stop _ s => s end.


(** ** The guest resumes *)

(** a handler that returns was entered for a trapped WFI or WFE or for a hypervisor call, and
    the guest resumes at the program counter reported (so a trapped WFI is executed
    again), or for a coprocessor 15 or 14 register or a data abort, and the guest resumes after
    the instruction.  For any other exception the handler never returns. *)
Theorem vm_handler_resumes {E} `{!Hypervisor E} pc syndrome far ipa (s : sys E) pc' s' :
  is_u32 syndrome → vm_handler pc syndrome far ipa s = Ok pc' s' →
  let class := Z.shiftr syndrome 26 in
  (class ∈ [0x01; 0x12] ∧ pc' = pc) ∨ (class ∈ [0x03; 0x05; 0x24] ∧ pc' = u64 (pc + 4)).
Proof.
  intros Hs H class. assert (class < 64) as Hlt.
  { unfold class. rewrite Z.shiftr_div_pow2 by lia. apply Z.div_lt_upper_bound; unfold is_u32 in Hs; lia. }
  unfold vm_handler in H. fold class in H. clearbody class. cbv zeta in H.
  assert (∀ (m : M (sys E) unit) v, (_ ← m; mret v) s = Ok pc' s' → pc' = v) as Hthen.
  { intros m v Hm. by apply bind_ok_inv in Hm as (a & s1 & _ & [= <- <-]). }
  do 13 (case_bool_decide; [subst class; first [discriminate H | apply Hthen in H as ->;
    first [left; split; [by repeat constructor | done] | right; split; [by repeat constructor | done]]] |]).
  by rewrite bool_decide_eq_true_2 in H by done.
Qed.

Lemma vm_handler_resumes_witness :
  ∃ s', vm_handler 0x8000 (Z.shiftl 1 26) 0 0 (machine_with 0) = Ok 0x8000 s'.
Proof.
  exists (state_of (vm_handler 0x8000 (Z.shiftl 1 26) 0 0 (machine_with 0))).
  destruct (vm_handler_resumes 0x8000 (Z.shiftl 1 26) 0 0 (machine_with 0) 0x8000
    (state_of (vm_handler 0x8000 (Z.shiftl 1 26) 0 0 (machine_with 0)))) as [[_ _]|[H _]];
    [by unfold is_u32 | vm_compute; done | vm_compute; done | vm_compute in H].
  by repeat (apply elem_of_cons in H as [?|H]; [done |]).
Defined.

(** ** The system timer *)

(** The comparison the timer would be checked with, [ticks] after [now] on a 32-bit counter that
    wraps: it holds exactly when the match value lies strictly between the two,
    counting round the wrap. *)
Theorem timer_passed_window now ticks mtch :
  is_u32 now → is_u32 ticks → is_u32 mtch →
  timer_passed now ticks mtch = true ↔ 0 < u32 (mtch - now) < ticks.
Proof.
  unfold is_u32. intros Hn Ht Hm.
  assert (u32 (mtch - now) = if bool_decide (now ≤ mtch) then mtch - now else mtch - now + 2 ^ 32) as ->.
  { unfold u32. case_bool_decide; [by rewrite Z.mod_small by lia |].
    rewrite <- (Z.mod_add _ 1) by lia. rewrite Z.mod_small by lia. lia. }
  assert (u32 (now + ticks) = if bool_decide (now + ticks < 2 ^ 32) then now + ticks else now + ticks - 2 ^ 32)
    as Hu.
  { unfold u32. case_bool_decide; [by rewrite Z.mod_small by lia |].
    rewrite <- (Z.mod_add _ (-1)) by lia. rewrite Z.mod_small by lia. lia. }
  unfold timer_passed. rewrite Hu. cbv zeta.
  repeat case_bool_decide; simpl; rewrite ?orb_true_iff, ?andb_true_iff, ?bool_decide_eq_true; lia.
Qed.

Lemma timer_passed_window_witness :
  timer_passed 0xfffffff0 0x20 0x5 = true ↔ 0 < u32 (0x5 - 0xfffffff0) < 0x20.
Proof. apply timer_passed_window; by unfold is_u32. Defined.

(** ** The mailbox *)
Section mailbox.
Context {E : Type}.

(** The memory has the addresses [D] and holds bytes. *)
Definition backed (D : gset Z) (s : sys E) : Prop :=
  dom (memory (vmd s)) = D ∧ map_Forall (λ _ b, is_byte b) (memory (vmd s)).

(** [m] ends in a fault, in a [BRK], or returns with the same memory backed; it never
    runs for ever. *)
Definition settles {A} (D : gset Z) (Q : A → Prop) (m : M (sys E) A) : Prop :=
  ∀ s, backed D s →
    match m s with Ok a s' => backed D s' ∧ Q a | Stop (Spin _) _ => False | Stop _ _ => True end.

Lemma settles_bind {A B} D (P : A → Prop) (Q : B → Prop) (m : M (sys E) A) (f : A → M (sys E) B) :
  settles D P m → (∀ a, P a → settles D Q (f a)) → settles D Q (m ≫= f).
Proof.
  intros Hm Hf s Hs. specialize (Hm s Hs). unfold mbind, M_bind. destruct (m s) as [a s1|]; [|done].
  destruct Hm as [Hs1 Ha]. by apply Hf.
Qed.

Lemma settles_ret {A} D (Q : A → Prop) a : Q a → settles D Q (mret a).
Proof. by intros Ha s Hs. Qed.

Lemma load_bytes_ok mem n a v :
  map_Forall (λ _ b, is_byte b) mem → load_bytes mem (S n) a = Some v → a ∈ dom mem ∧ 0 ≤ v.
Proof.
  intros Hm Hl. assert (∀ n a v, load_bytes mem n a = Some v → 0 ≤ v) as Hpos.
  { clear Hl. intros k. induction k as [|k IH]; intros a' v' Hl; simpl in Hl; [by simplify_eq |].
    apply bind_Some in Hl as (b & Hb & Hl). apply bind_Some in Hl as (rest & Hr & [= <-]).
    apply IH in Hr. apply Z.lor_nonneg. apply Hm in Hb as [Hb _]. split; [done |]. by apply Z.shiftl_nonneg. }
  split; [|by eapply Hpos]. simpl in Hl. apply bind_Some in Hl as (b & Hb & _). by apply elem_of_dom.
Qed.

Lemma store_bytes_dom mem n a v mem' : store_bytes mem n a v = Some mem' → dom mem' = dom mem.
Proof.
  revert mem a v. induction n as [|n IH]; intros mem a v Hs; simpl in Hs; [by simplify_eq |].
  apply bind_Some in Hs as (b & Hb & Hs). apply IH in Hs. rewrite Hs.
  rewrite dom_insert_lookup_L; [done | by rewrite Hb].
Qed.

Lemma settles_word D p i : settles D (λ v, p + 4 * i ∈ D ∧ 0 ≤ v) (word p i).
Proof.
  intros s [HD Hb]. unfold word, load32, load, get_vmd. rewrite gets_ok.
  destruct (load_bytes (memory (vmd s)) 4 (p + 4 * i)) as [v|] eqn:El; [|done].
  apply load_bytes_ok in El; [|done]. rewrite HD in El. done.
Qed.

Lemma settles_set_word D p i v : settles D (λ _, True) (set_word p i v).
Proof.
  intros s [HD Hb]. unfold set_word, store32, store, get_vmd. rewrite gets_ok.
  destruct (store_bytes (memory (vmd s)) 4 (p + 4 * i) v) as [mem'|] eqn:Es; [|done].
  split; [|done]. split; simpl; [by apply store_bytes_dom in Es as -> | by eapply store_bytes_typed].
Qed.

Lemma settles_guard D b n : settles D (λ _, True) (guard_stop b (Brk n)).
Proof. intros s Hs. by destruct b. Qed.

Ltac settles :=
  repeat (intros; match goal with
  | |- settles _ _ (set_word _ _ _) => apply settles_set_word
  | |- settles _ _ (word _ _ ≫= _) => eapply settles_bind; [apply settles_word |]
  | |- settles _ _ (_ ≫= _) => apply (settles_bind _ (λ _, True))
  | |- settles _ _ (guard_stop _ _) => apply settles_guard
  | |- settles _ _ (mret _) => by apply settles_ret
  | |- settles _ _ (halt (Brk _)) => by intros ? ?
  | |- settles _ _ (if ?b then _ else _) => destruct b
  end).

Lemma settles_respond D p tag : settles D (λ _, True) (respond_to_tag p tag).
Proof. unfold respond_to_tag. settles. Qed.

(** The addresses still ahead of [p]. *)
Definition ahead (D : gset Z) (p : Z) : nat := size (filter (λ a, p ≤ a) D).

Lemma ahead_decreases D p q : p ∈ D → p < q → (ahead D q < ahead D p)%nat.
Proof. intros Hp Hq. unfold ahead. apply subset_size. split.
  - intros x. rewrite !elem_of_filter. intros [? ?]. split; [lia | done].
  - intros H. specialize (H p). rewrite !elem_of_filter in H. destruct H as [H _]; [done | lia].
Qed.

Lemma settles_tag_loop D n p : (ahead D p < n)%nat → settles D (λ _, True) (tag_loop n p).
Proof.
  revert p. induction n as [|n IH]; intros p Hn; [lia |]. cbn [tag_loop].
  eapply settles_bind; [apply settles_word |]. intros tag [Hp _]. case_bool_decide; [|by apply settles_ret].
  eapply settles_bind; [apply settles_word |]. intros size0 _.
  apply (settles_bind _ (λ _, True)); [apply settles_set_word | intros _ _].
  apply (settles_bind _ (λ _, True)); [apply settles_respond | intros _ _].
  eapply settles_bind; [apply settles_word |]. intros sz [_ Hsz]. apply IH.
  rewrite Z.mul_0_r, Z.add_0_r in Hp. pose proof (Z.div_pos sz 4).
  pose proof (ahead_decreases D p (p + 4 * (3 + sz / 4)) Hp). lia.
Qed.

Lemma settles_request p D : settles D (λ _, True) (respond_to_tag_request p).
Proof.
  apply (settles_bind _ (λ _, True)); [apply settles_set_word |]. intros _ _ s Hs.
  unfold get_vmd. rewrite gets_ok. revert s Hs. intros s Hs. apply settles_tag_loop; [|done].
  destruct Hs as [<- _]. rewrite <- size_dom. unfold ahead.
  assert (size (filter (λ a : Z, (p + 4 * 2 ≤ a)%Z) (dom (memory (vmd s)))) ≤ size (dom (memory (vmd s))))%nat; [|lia].
  apply subseteq_size. set_solver.
Qed.
End mailbox.

(** whatever request the guest leaves in memory, answering it ends: the loop over
    the tags returns with the guest's memory still all there, or stops at an address
    that is not memory or at a tag the driver does not know.  It never loops for ever,
    not even on tags of size 0. *)
Theorem respond_to_tag_request_terminates {E} (s : sys E) request :
  map_Forall (λ _ b, is_byte b) (memory (vmd s)) →
  match respond_to_tag_request request s with
  | Ok _ s' => dom (memory (vmd s')) = dom (memory (vmd s))
  | Stop r _ => ∀ line, r ≠ Spin line
  end.
Proof.
  intros Hb. pose proof (settles_request request (dom (memory (vmd s))) s (conj eq_refl Hb)) as H.
  destruct (respond_to_tag_request request s) as [u s'|r s']; [by destruct H as [[? _] _] |].
  intros line ->. done.
Qed.

(** A request at 0: board revision and ARM memory, then the end. *)
Definition words_at (ws : list Z) : gmap Z Z :=
  list_to_map (imap (λ i b, (Z.of_nat i, b)) (ws ≫= λ w, [u8 w; u8 (Z.shiftr w 8); u8 (Z.shiftr w 16); u8 (Z.shiftr w 24)])).
Definition sample_request : gmap Z Z := words_at [44; 0; 0x10002; 4; 0; 0; 0x10005; 8; 0; 0; 0; 0].
Definition with_memory (mem : gmap Z Z) : sys machine :=
  Sys (set_memory mem initial_riscos) (Machine (replicate 31 0) ∅).

Example sample_answered :
  load_bytes (memory (vmd (state_of (respond_to_tag_request 0 (with_memory sample_request))))) 4 20 = Some 13 ∧
  load_bytes (memory (vmd (state_of (respond_to_tag_request 0 (with_memory sample_request))))) 4 40 =
    Some riscos_ram_size.
Proof. vm_compute. done. Qed.

Lemma respond_to_tag_request_terminates_witness :
  match respond_to_tag_request 0 (with_memory sample_request) with
  | Ok _ s' => dom (memory (vmd s')) = dom (memory (vmd (with_memory sample_request)))
  | Stop r _ => ∀ line, r ≠ Spin line
  end.
Proof.
  apply (respond_to_tag_request_terminates (with_memory sample_request) 0).
  apply map_Forall_to_list. change (memory (vmd (with_memory sample_request))) with sample_request.
  assert (forallb (λ kb, (0 <=? kb.2) && (kb.2 <? 256)) (map_to_list sample_request) = true) as H
    by (vm_compute; done).
  rewrite List.forallb_forall in H. apply Forall_forall. intros [k b] Hk. apply list_elem_of_In, H in Hk.
  clear -Hk. unfold is_byte. simpl in *. lia.
Defined.

(** ** The SD card protocol *)
#[export] Instance machine_cooperative : Cooperative machine.
Proof. split; intros; by repeat eexists. Defined.

(** when the guest writes CMD7 to the command register, the status reads busy; once the
    thread [sdcard] has had its turn the command is no longer inhibited, the command done flag is
    up, and if the guest has unmasked that flag interrupt 62 is pending.  Both locks are free
    again, so the guest's next access goes ahead. *)
Theorem sd_command_completes {E} `{!Hypervisor E, !Cooperative E} i value d (e e1 : E) :
  emmc_state_lock d = false → irq_lock d = false →
  get_partner_register i e = Ok value e1 → Z.shiftr (u32 value) 24 = 0x07 →
  ∃ s1 s2, bcm_2835_emmc_access true i 0xc (Sys d e) = Ok () s1 ∧ sdcard_round s1 = Ok () s2 ∧
    Z.testbit (emmc_state (vmd s1) STATUS) 0 = true ∧
    Z.testbit (emmc_state (vmd s2) STATUS) 0 = false ∧ Z.testbit (emmc_state (vmd s2) INTERRUPT) 0 = true ∧
    (Z.testbit (emmc_state d IRPT_MASK) 0 = true → Z.testbit (irq_pending2 (irq_details (vmd s2))) 30 = true) ∧
    emmc_state_lock (vmd s2) = false ∧ irq_lock (vmd s2) = false.
Proof.
  intros Hl Hi Hr Hc. destruct (command_write i value d e e1 Hl Hr) as (e2 & E2).
  destruct (command_completes (command_taken value d) e2 Hc eq_refl Hi) as (d3 & e3 & E3 & HS & HI & Hl3 & Hi3 & Hp).
  exists (Sys (command_taken value d) e2), (Sys d3 e3). split; [done |]. split; [done |]. cbn [vmd].
  split.
  { change (emmc_state (command_taken value d) STATUS) with (Z.lor (emmc_state d STATUS) 1).
    by rewrite Z.lor_spec, orb_true_r. }
  split. { by rewrite HS, Z.ldiff_spec, andb_false_r. }
  split. { by rewrite HI, Z.lor_spec, orb_true_r. }
  split; [|done]. intros Hm. rewrite Hp, bool_decide_eq_true_2.
  - change (irq_details (command_taken value d)) with (irq_details d). destruct (irq_details d) as [b p1 p2 f e5 e6 e7].
    change (irq_pending2 (set_pending 62 _)) with (Z.lor p2 (bit 30)). rewrite Z.lor_spec. apply orb_true_r.
  - intros H0. apply (f_equal (λ z, Z.testbit z 0)) in H0. rewrite Z.land_spec, Z.lor_spec in H0.
    change (emmc_state (command_taken value d) IRPT_MASK) with (emmc_state d IRPT_MASK) in H0.
    by rewrite Hm, orb_true_r in H0.
Qed.

Lemma sd_command_completes_witness :
  ∃ s1 s2, bcm_2835_emmc_access true 0 0xc (machine_with 0x07000000) = Ok () s1 ∧ sdcard_round s1 = Ok () s2 ∧
    Z.testbit (emmc_state (vmd s2) INTERRUPT) 0 = true.
Proof.
  destruct (sd_command_completes 0 0x07000000 initial_riscos
    (world (machine_with 0x07000000)) (world (machine_with 0x07000000)))
    as (s1 & s2 & H1 & H2 & _ & _ & H3 & _); [done | done | vm_compute; done | vm_compute; done |].
  by exists s1, s2.
Defined.

(** ** The stage 2 table *)

(** *** Memory as words *)
Lemma load_bytes_ext mem mem' n a :
  (∀ j, 0 ≤ j < Z.of_nat n → mem' !! (a + j) = mem !! (a + j)) → load_bytes mem' n a = load_bytes mem n a.
Proof.
  revert a. induction n as [|n IH]; intros a H; [done |]. cbn [load_bytes].
  rewrite <- (Z.add_0_r a), H by lia. rewrite Z.add_0_r. rewrite (IH (a + 1)); [done |].
  intros j Hj. replace (a + 1 + j) with (a + (1 + j)) by lia. apply H. lia.
Qed.

Lemma split_low_byte v n :
  Z.lor (u8 v) (Z.shiftl (Z.shiftr v 8 mod 2 ^ (8 * Z.of_nat n)) 8) = v mod 2 ^ (8 * Z.of_nat (S n)).
Proof.
  apply Z.bits_inj_iff'. intros i Hi. rewrite Z.lor_spec, Z.shiftl_spec by lia. unfold u8.
  destruct (decide (i < 8)).
  - rewrite (Z.testbit_neg_r _ (i - 8)), orb_false_r by lia. by rewrite !Z.mod_pow2_bits_low by lia.
  - rewrite (Z.mod_pow2_bits_high v 8) by lia. cbn [orb]. destruct (decide (i < 8 * Z.of_nat (S n))).
    + rewrite !Z.mod_pow2_bits_low, Z.shiftr_spec by lia. f_equal. lia.
    + by rewrite !Z.mod_pow2_bits_high by lia.
Qed.

Lemma store_bytes_ok mem n a v :
  (∀ j, 0 ≤ j < Z.of_nat n → is_Some (mem !! (a + j))) →
  ∃ mem', store_bytes mem n a v = Some mem' ∧
    (∀ b, b < a ∨ a + Z.of_nat n ≤ b → mem' !! b = mem !! b) ∧ dom mem' = dom mem ∧
    load_bytes mem' n a = Some (v mod 2 ^ (8 * Z.of_nat n)).
Proof.
  revert mem a v. induction n as [|n IH]; intros mem a v Hm.
  { exists mem. cbn. rewrite Z.mod_1_r. by split_and!. }
  destruct (Hm 0) as [b0 Hb0]; [lia |]. rewrite Z.add_0_r in Hb0.
  destruct (IH (<[a := u8 v]> mem) (a + 1) (Z.shiftr v 8)) as (mem' & Es & Hout & Hdom & El).
  { intros j Hj. rewrite lookup_insert_ne by lia. replace (a + 1 + j) with (a + (1 + j)) by lia. apply Hm. lia. }
  exists mem'. cbn [store_bytes]. rewrite Hb0. cbn. split; [done |]. split; [|split].
  - intros b Hb. rewrite Hout by lia. apply lookup_insert_ne. lia.
  - rewrite Hdom. apply dom_insert_lookup_L. by rewrite Hb0.
  - rewrite Hout by lia. rewrite lookup_insert_eq. cbn. rewrite El. cbn. by rewrite split_low_byte.
Qed.

Lemma in_dom (mem : gmap Z Z) a : is_Some (mem !! a) ↔ a ∈ dom mem.
Proof. symmetry. apply elem_of_dom. Qed.

(** *** The loops of [entry] *)
Section stage2.
Context {E : Type}.

(** The 512 entries of the table, as words. *)
Definition tt_holds (s : sys E) (i e : Z) : Prop :=
  load_bytes (memory (vmd s)) 8 (el2_tt_address + 8 * i) = Some e.
Definition tt_mapped (s : sys E) : Prop :=
  ∀ a, el2_tt_address ≤ a < el2_tt_address + 4096 → a ∈ dom (memory (vmd s)).

Lemma set_tt_ok i v s :
  0 ≤ i < 512 → is_u64 v → tt_mapped s →
  ∃ s', set_tt i v s = Ok () s' ∧ tt_mapped s' ∧ tt_holds s' i v ∧
    ∀ j e, 0 ≤ j < 512 → j ≠ i → tt_holds s j e → tt_holds s' j e.
Proof.
  intros Hi Hv Hm. destruct (store_bytes_ok (memory (vmd s)) 8 (el2_tt_address + 8 * i) v)
    as (mem' & Es & Hout & Hdom & El).
  { intros j Hj. apply in_dom, Hm. lia. }
  exists (Sys (set_memory mem' (vmd s)) (world s)). unfold set_tt, store, get_vmd, upd_vmd, tt_mapped, tt_holds.
  rewrite gets_ok, Es. split; [done |]. cbn [vmd memory set_memory]. rewrite Hdom. split; [done |].
  split; [rewrite El; f_equal; by apply u64_id |].
  intros j e Hj Hne He. rewrite <- He. apply load_bytes_ext. intros b Hb. apply Hout. lia.
Qed.

(** A loop that fills the entries from 0 with [f], leaving the rest. *)
Lemma fill_tt n (f : Z → Z) s :
  Z.of_nat n ≤ 512 → (∀ i, is_u64 (f i)) → tt_mapped s →
  ∃ s', for_range n 0 (λ i, set_tt i (f i)) s = Ok () s' ∧ tt_mapped s' ∧
    (∀ i, 0 ≤ i < Z.of_nat n → tt_holds s' i (f i)) ∧
    (∀ i e, Z.of_nat n ≤ i < 512 → tt_holds s i e → tt_holds s' i e).
Proof.
  intros Hn Hf Hm.
  destruct (for_range_inv (λ i s', tt_mapped s' ∧ (∀ j, 0 ≤ j < i → tt_holds s' j (f j)) ∧
    (∀ j e, Z.of_nat n ≤ j < 512 → tt_holds s j e → tt_holds s' j e))
    (λ i, set_tt i (f i)) n 0 s) as (s' & Er & Hm' & Hd & Hk).
  - split; [done |]. split; [lia | done].
  - intros i s1 Hi (Hm1 & Hd1 & Hk1). destruct (set_tt_ok i (f i) s1) as (s2 & E2 & Hm2 & Hi2 & Ho2);
      [lia | done | done |].
    exists s2. split; [done |]. split; [done |]. split.
    + intros j Hj. destruct (decide (j = i)) as [->|]; [done |]. apply Ho2; [lia | done |]. apply Hd1. lia.
    + intros j e Hj He. apply Ho2; [lia | lia |]. by apply Hk1.
  - exists s'. by split_and!.
Qed.
End stage2.

(** *** The entries *)
Lemma access_flag_put e : Z.lor e (Z.shiftl 1 10) = put access_flag 1 e.
Proof.
  apply Z.bits_inj_iff'. intros i Hi. unfold put. cbn [field_lo field_width access_flag].
  rewrite set_bits_testbit, Z.lor_spec, Z.shiftl_spec by lia. case_bool_decide.
  - replace i with 10 by lia. by rewrite orb_true_r.
  - destruct (decide (i < 10)); [rewrite (Z.testbit_neg_r 1) by lia; apply orb_false_r |].
    rewrite (testbit_above 1 1) by lia. apply orb_false_r.
Qed.

Lemma stage2_entry_u64 base i : is_u64 (base + Z.shiftl i 21) → is_u64 (stage2_entry base i).
Proof.
  intros Ha. unfold stage2_entry, Aarch64_VMSA_L2_rwx, Aarch64_VMSA_write_back_memory, Aarch64_VMSA_block_at.
  rewrite access_flag_put. by repeat (apply put_range; [done.. |]).
Qed.

Lemma normal_attributes physical :
  physical mod 4096 = 0 → get level2_memory_attributes (put memory_type Fully_Cacheable physical) = 5.
Proof.
  intros Ha. apply Z.bits_inj_iff'. intros i Hi. unfold get, put. cbn [field_lo field_width level2_memory_attributes
    memory_type]. rewrite get_bits_testbit, set_bits_testbit by lia.
  assert (i = 0 ∨ i = 1 ∨ i = 2 ∨ i = 3 ∨ 4 ≤ i) as [->|[->|[->|[->|H4]]]] by lia; try done.
  - rewrite bool_decide_eq_false_2 by lia. rewrite andb_true_r.
    rewrite <- (Z.mod_pow2_bits_low physical 12) by lia. change (2 ^ 12) with 4096. by rewrite Ha.
  - rewrite (bool_decide_eq_false_2 (i < 4)), andb_false_r by lia. symmetry. by apply (testbit_above 5 4).
Qed.

Lemma attributes_put_type v r : 0 ≤ v < 4 → get level2_memory_attributes (put memory_type Fully_Cacheable (put type v r)) =
  get level2_memory_attributes (put memory_type Fully_Cacheable r).
Proof.
  intros Hv. apply Z.bits_inj_iff'. intros i Hi. unfold get, put. cbn [field_lo field_width level2_memory_attributes
    memory_type type]. rewrite !get_bits_testbit, !set_bits_testbit by lia.
  by rewrite (bool_decide_eq_false_2 (0 ≤ i + 2 < 0 + 2)) by lia.
Qed.

Lemma stage2_entry_fields base i :
  0 ≤ base + Z.shiftl i 21 < 2 ^ 51 → (base + Z.shiftl i 21) mod 4096 = 0 →
  let e := stage2_entry base i in
  output_address e = base + Z.shiftl i 21 ∧ get type e = 1 ∧ get level2_memory_attributes e = 5 ∧
  get access_flag e = 1 ∧ get level2_readable e = 1 ∧ get level2_writable e = 1 ∧
  get unprivileged_execute_never e = 0.
Proof.
  intros Hr Ha e. unfold e, stage2_entry, Aarch64_VMSA_L2_rwx, Aarch64_VMSA_write_back_memory, Aarch64_VMSA_block_at.
  rewrite access_flag_put. unfold output_address. split_and!; simp_vmsa.
  - by apply page_number_of.
  - rewrite attributes_put_type by lia. by apply normal_attributes.
Qed.

(** C34: the table built for the guest maps its 64MB of physical addresses, 2MB at a time, to
    the 64MB from [vm_memory_base] on, readable, writable and executable, and leaves every
    other guest address unmapped, so the guest reaches no other memory.  Read as a
    stage 2 attribute, the index put in for write-back memory says non-cacheable. *)
Theorem stage2_maps_guest_memory {E} base (s : sys E) :
  0 ≤ base → base + riscos_ram_size ≤ 2 ^ 51 → base mod 2 ^ 21 = 0 → tt_mapped s →
  ∃ s', build_stage2_table base s = Ok () s' ∧
    (∀ i, 32 ≤ i < 512 → tt_holds s' i Aarch64_VMSA_invalid) ∧
    (∀ i, 0 ≤ i < 32 → ∃ e, tt_holds s' i e ∧ get type e = 1 ∧ output_address e = base + i * 2 ^ 21 ∧
      get level2_readable e = 1 ∧ get level2_writable e = 1 ∧ get unprivileged_execute_never e = 0 ∧
      get access_flag e = 1 ∧ get level2_memory_attributes e = 0x5).
Proof.
  intros Hb Hb' Ha Hm. unfold riscos_ram_size in Hb'.
  destruct (fill_tt 512 (λ _, Aarch64_VMSA_invalid) s) as (s1 & E1 & Hm1 & Hi1 & _); [lia | done | done |].
  assert (∀ i, 0 ≤ i < 32 → 0 ≤ base + Z.shiftl i 21 < 2 ^ 51 ∧ (base + Z.shiftl i 21) mod 4096 = 0) as Hok.
  { intros i Hi. rewrite Z.shiftl_mul_pow2 by lia. split; [lia |].
    apply Z.mod_divide in Ha as [q ->]; [|lia]. apply Z.mod_divide; [lia |]. exists (q * 512 + i * 512). lia. }
  (** outside the loop's range any value will do *)
  set (f := λ i, if bool_decide (0 ≤ i < 32) then stage2_entry base i else 0).
  destruct (fill_tt 32 f s1) as (s2 & E2 & _ & Hi2 & Hk2); [lia | | done |].
  { intros i. unfold f. case_bool_decide; [|done]. apply stage2_entry_u64. destruct (Hok i); [done |].
    unfold is_u64. lia. }
  exists s2. unfold build_stage2_table. rewrite (bind_ok _ _ _ _ _ E1). split; [|split].
  - rewrite <- E2. apply for_range_ext. intros i Hi. unfold f. by rewrite bool_decide_eq_true_2 by lia.
  - intros i Hi. apply Hk2; [lia |]. apply Hi1. lia.
  - intros i Hi. destruct (Hok i Hi) as [Hr Hal].
    destruct (stage2_entry_fields base i Hr Hal) as (? & ? & ? & ? & ? & ? & ?).
    rewrite Z.shiftl_mul_pow2 in * by lia. exists (stage2_entry base i). split_and!; try done.
    specialize (Hi2 i). unfold f in Hi2. rewrite bool_decide_eq_true_2 in Hi2 by lia. apply Hi2. lia.
Qed.

(** A driver with the page of the table mapped. *)
Definition with_table_page : sys machine :=
  with_memory (gset_to_gmap 0 (list_to_set (seqZ el2_tt_address 4096))).

Lemma stage2_maps_guest_memory_witness :
  ∃ s', build_stage2_table 0x10000000 with_table_page = Ok () s' ∧ tt_holds s' 40 0.
Proof.
  destruct (stage2_maps_guest_memory 0x10000000 with_table_page) as (s' & E & H & _).
  - done.
  - done.
  - by vm_compute.
  - intros a Ha. unfold with_table_page, with_memory. cbn [vmd memory set_memory].
    rewrite dom_gset_to_gmap. apply elem_of_list_to_set, elem_of_seqZ. lia.
  - exists s'. split; [exact E | apply (H 40); lia].
Defined.
