(* ===== verification/RiscosOnKernel.v ===== *)
(** * The virtual machine driver on top of the kernel

    The class [RiscosVm.Partner] implemented by the kernel's own [handle_svc], called by
    the driver's thread through the veneers of [drivers/libdrivers.c].  What the driver
    makes of a trapped register access is then what the guest's registers and the saved
    system registers of the virtual machine hold. *)

From S2P Require Import Prelude Vmsa SystemServices Kernel LinkedLists Heap Gate Locks Svc RiscosVm.

(** The kernel's names for a thread's registers. *)
#[local] Abbreviation thread_reg := Kernel.reg.
#[local] Abbreviation set_thread_reg := Kernel.set_reg.

Section with_thread.
Context (drivers : list Maps.driver_info) (env : list Z) (thread : Z).

(** [svc #number] with the first registers holding [args]: the result is in x0. *)
Definition with_args (args : list Z) (t : thread_context) : thread_context :=
  set_regs (args ++ drop (length args) (regs t)) t.

Definition supervisor_request (number : Z) (args : list Z) : K Z :=
  _ ← upd_thread thread (with_args args);
  _ ← handle_svc drivers env thread number;
  t ← get_thread thread;
  mret (thread_reg 0 t).

#[local] Instance kernel_partner : Partner kstate := {
  get_partner_register code := supervisor_request ISAMBARD_GET_PARTNER_REG [code];
  set_partner_register code value :=
    _ ← supervisor_request ISAMBARD_SET_PARTNER_REG [code; value]; mret ();
  change_vm_system_register vm reg xor_bits and_bits :=
    supervisor_request ISAMBARD_CHANGE_VM_SYSTEM_REGISTER [vm; reg; xor_bits; and_bits];
  supervisor_call n := _ ← supervisor_request n []; mret ();
}.

(** The driver's thread, known to EL0 as [code], and its partner [p], whose context is
    [pt] and whose saved system registers are [s]. *)
Record guest_kernel (code p : Z) (pt : thread_context) (s : list Z) (k : kstate) : Prop := {
  gk_thread : ∃ t, threads k !! thread = Some t ∧ length (regs t) = 31%nat ∧ partner t = p ∧
                current_map pt = current_map t;
  gk_partner : threads k !! p = Some pt;
  gk_partner_regs : length (regs pt) = 31%nat;
  gk_not_null : p ≠ 0;
  gk_distinct : p ≠ thread;
  gk_guest : runs_guest (spsr pt) = true;
  gk_real : is_real_thread code k = Ok true k;
  gk_code : thread_from_code code = thread;
  gk_u32 : is_u32 code;
  gk_vm : vm_states k !! p = Some s;
  gk_vm_length : length s = 18%nat;
}.

(** ** What leaves the pair in place *)
Definition links (t : thread_context) : Z * Z := (next t, prev t).

Lemma is_real_thread_frame code k k' :
  kernel_heap_top k' = kernel_heap_top k → kernel_heap_bottom k' = kernel_heap_bottom k →
  (∀ q, links <$> threads k' !! q = links <$> threads k !! q) →
  is_real_thread code k = Ok true k → is_real_thread code k' = Ok true k'.
Proof.
  intros Ht Hb Hl. unfold is_real_thread. rewrite !gets_ok. unfold id.
  unfold could_be_in_heap. rewrite Ht, Hb. destruct (negb _ || negb _); [done |]. intros H.
  assert (∀ q t, get_thread q k = Ok t k → ∃ t', get_thread q k' = Ok t' k' ∧ links t' = links t) as Hget.
  { intros q t Hq. apply get_thread_inv in Hq as [_ Hq]. specialize (Hl q). rewrite Hq in Hl.
    destruct (threads k' !! q) as [t'|] eqn:Eq; [|done]. injection Hl as E. exists t'. split; [by apply get_thread_ok |].
    unfold links. by f_equal. }
  assert (∀ q t k1, get_thread q k = Ok t k1 → k1 = k) as Hsame by (intros q t k1 [-> _]%get_thread_inv; done).
  apply bind_ok_inv in H as (t & k1 & E1 & H). pose proof (Hsame _ _ _ E1) as ->.
  destruct (Hget _ _ E1) as (t' & E1' & [= Hn Hp]). rewrite (bind_ok _ _ _ _ _ E1'), Hn.
  apply bind_ok_inv in H as (n & k1 & E2 & H). pose proof (Hsame _ _ _ E2) as ->.
  destruct (Hget _ _ E2) as (n' & E2' & [= Hnn Hnp]). rewrite (bind_ok _ _ _ _ _ E2'), Hnp.
  case_bool_decide; [done |]. rewrite Hp.
  apply bind_ok_inv in H as (v & k1 & E3 & H). pose proof (Hsame _ _ _ E3) as ->.
  destruct (Hget _ _ E3) as (v' & E3' & [= Hvn Hvp]). rewrite (bind_ok _ _ _ _ _ E3'), Hvn.
  injection H as H. cbn. by rewrite H.
Qed.

Lemma links_put_thread k q t t' :
  threads k !! q = Some t → links t' = links t →
  ∀ r, links <$> threads (put_thread q t' k) !! r = links <$> threads k !! r.
Proof.
  intros Hq Hl r. rewrite threads_put_thread. destruct (decide (r = q)) as [->|Hne].
  - rewrite lookup_insert_eq, Hq. cbn. by rewrite Hl.
  - by rewrite lookup_insert_ne.
Qed.

(** The thread's own registers may change, *)
Lemma guest_kernel_thread code p pt s k t t' :
  guest_kernel code p pt s k → threads k !! thread = Some t → links t' = links t →
  length (regs t') = 31%nat → partner t' = partner t → current_map t' = current_map t →
  guest_kernel code p pt s (put_thread thread t' k).
Proof.
  intros [(t0 & Ht0 & Hlen & Hpt & Hm) Hp Hpl Hz Hd Hg Hr Hc Hu Hv Hvl] Ht Hl Hlen' Hpt' Hm'.
  assert (t0 = t) as -> by congruence.
  split; try done.
  - exists t'. rewrite threads_put_thread, lookup_insert_eq. split_and!; [done | done | congruence | congruence].
  - by rewrite threads_put_thread, lookup_insert_ne.
  - eapply (is_real_thread_frame _ k); [done | done | by eapply links_put_thread | done].
Qed.

(** the guest's registers, *)
Lemma guest_kernel_partner code p pt s k pt' :
  guest_kernel code p pt s k → links pt' = links pt → length (regs pt') = 31%nat →
  current_map pt' = current_map pt → spsr pt' = spsr pt →
  guest_kernel code p pt' s (put_thread p pt' k).
Proof.
  intros [(t & Ht & Hlen & Hpt & Hm) Hp Hpl Hz Hd Hg Hr Hc Hu Hv Hvl] Hl Hlen' Hm' Hs'.
  split; try done.
  - exists t. rewrite threads_put_thread, lookup_insert_ne by done. split_and!; [done | done | done | congruence].
  - apply lookup_insert_eq.
  - by rewrite Hs'.
  - eapply (is_real_thread_frame _ k); [done | done | by eapply links_put_thread | done].
Qed.

(** and the virtual machine's. *)
Lemma guest_kernel_vm code p pt s k s' :
  guest_kernel code p pt s k → length s' = 18%nat →
  guest_kernel code p pt s' (set_vm_states (<[p := s']> (vm_states k)) k).
Proof.
  intros [(t & Ht & Hlen & Hpt & Hm) Hp Hpl Hz Hd Hg Hr Hc Hu Hv Hvl] Hl. split; try done.
  - by exists t.
  - by eapply (is_real_thread_frame _ k).
  - apply lookup_insert_eq.
Qed.

(** ** The requests *)
Lemma with_args_ok args t :
  (length args ≤ 31)%nat → length (regs t) = 31%nat →
  length (regs (with_args args t)) = 31%nat ∧
  ∀ i a, args !! i = Some a → thread_reg i (with_args args t) = a.
Proof.
  intros Ha Hl. unfold with_args. cbn [regs set_regs]. split; [rewrite length_app, length_drop; lia |].
  intros i a Hi. unfold Kernel.reg. cbn [regs set_regs].
  rewrite nth_lookup, lookup_app_l by by apply lookup_lt_Some in Hi. by rewrite Hi.
Qed.

(** The thread with its arguments in place. *)
Lemma request_entered code p pt s k args :
  guest_kernel code p pt s k → (length args ≤ 31)%nat →
  ∃ t, let t' := with_args args t in let k' := put_thread thread t' k in
    upd_thread thread (with_args args) k = Ok () k' ∧ guest_kernel code p pt s k' ∧
    threads k' !! thread = Some t' ∧ length (regs t') = 31%nat ∧ partner t' = p ∧
    current_map pt = current_map t' ∧ ∀ i a, args !! i = Some a → thread_reg i t' = a.
Proof.
  intros Hk Ha. pose proof (gk_thread _ _ _ _ _ Hk) as (t & Ht & Hl & Hp & Hm).
  destruct (with_args_ok args t Ha Hl) as [Hl' Hargs]. exists t. cbv zeta.
  split; [by apply upd_thread_ok |]. split; [by eapply guest_kernel_thread |].
  split; [apply lookup_insert_eq |]. by split_and!.
Qed.

Lemma thread_has_partner code p pt s k t :
  guest_kernel code p pt s k → threads k !! thread = Some t → has_partner k thread p t pt.
Proof. intros [(t0 & Ht0 & Hlen & Hpt & Hm) Hp Hpl Hz Hd Hg Hr Hc Hu Hv Hvl] Ht. simplify_eq. by split. Qed.

Lemma partner_index code i t : 0 ≤ i ≤ 31 → thread_reg code t = i → u32 (thread_reg code t) = i.
Proof. intros Hi ->. apply u32_id. unfold is_u32. lia. Qed.

Lemma get_partner_register_ok code p pt s k i :
  guest_kernel code p pt s k → 0 ≤ i ≤ 31 →
  ∃ k', get_partner_register i k = Ok (partner_reg i pt) k' ∧ guest_kernel code p pt s k'.
Proof.
  intros Hk Hi. destruct (request_entered _ _ _ _ _ [i] Hk) as (t & E & Hk1 & Ht & Hl & Hp & Hm & Hargs);
    [simpl; lia |].
  set (t' := with_args [i] t) in *. set (k1 := put_thread thread t' k) in *. clearbody t' k1.
  assert (u32 (thread_reg 0 t') = i) as Hi0 by (apply partner_index; [done | by apply Hargs]).
  exists (put_thread thread (set_thread_reg 0 (partner_reg i pt) t') k1). split.
  - cbn [get_partner_register kernel_partner]. unfold supervisor_request. rewrite (bind_ok _ _ _ _ _ E).
    change (handle_svc drivers env thread ISAMBARD_GET_PARTNER_REG) with (svc_get_partner_reg thread).
    unfold svc_get_partner_reg.
    rewrite (bind_ok _ _ _ (ThreadSwitch thread thread)
      (put_thread thread (set_thread_reg 0 (partner_reg i pt) t') k1)).
    2:{ erewrite bind_ok by (eapply partner_checks_ok; [by eapply thread_has_partner | lia]).
        cbv beta iota. rewrite Hi0.
        erewrite bind_ok by (apply get_thread_ok; by eapply gk_partner).
        by erewrite bind_ok by by apply upd_thread_ok. }
    erewrite bind_ok by (apply get_thread_ok; apply lookup_insert_eq).
    rewrite reg_set_reg_same by lia. done.
  - eapply guest_kernel_thread; [done | done | done | | done | done].
    unfold Kernel.set_reg. cbn. by rewrite length_insert.
Qed.

Lemma set_partner_register_ok code p pt s k i v :
  guest_kernel code p pt s k → 0 ≤ i ≤ 31 →
  ∃ k', set_partner_register i v k = Ok () k' ∧ guest_kernel code p (set_partner_reg_value i v pt) s k'.
Proof.
  intros Hk Hi. destruct (request_entered _ _ _ _ _ [i; v] Hk) as (t & E & Hk1 & Ht & Hl & Hp & Hm & Hargs);
    [simpl; lia |].
  set (t' := with_args [i; v] t) in *. set (k1 := put_thread thread t' k) in *. clearbody t' k1.
  assert (u32 (thread_reg 0 t') = i) as Hi0 by (apply partner_index; [done | by apply Hargs]).
  set (k2 := put_thread p (set_partner_reg_value i v pt) k1).
  assert (guest_kernel code p (set_partner_reg_value i v pt) s k2) as Hk2.
  { pose proof (gk_partner_regs _ _ _ _ _ Hk). unfold k2, set_partner_reg_value.
    case_bool_decide; eapply guest_kernel_partner; try done. unfold Kernel.set_reg. cbn. by rewrite length_insert. }
  exists k2. split; [|done].
  cbn [set_partner_register kernel_partner]. unfold supervisor_request.
  rewrite (bind_ok _ _ _ (thread_reg 0 t') k2); [done |].
  rewrite (bind_ok _ _ _ _ _ E).
  change (handle_svc drivers env thread ISAMBARD_SET_PARTNER_REG) with (svc_set_partner_reg thread).
  unfold svc_set_partner_reg.
  rewrite (bind_ok _ _ _ (ThreadSwitch thread thread) k2).
  2:{ erewrite bind_ok by (eapply partner_checks_ok; [by eapply thread_has_partner | lia]).
      cbv beta iota. rewrite Hi0. erewrite bind_ok by by apply get_thread_ok.
      rewrite (Hargs 1%nat v eq_refl).
      by erewrite bind_ok by (apply upd_thread_ok; by eapply gk_partner). }
  erewrite bind_ok; [done |]. apply get_thread_ok. unfold k2. rewrite threads_put_thread.
  rewrite lookup_insert_ne; [done |]. by eapply gk_distinct.
Qed.

(** The kernel keeps 32 bits of a change, and returns the old 32 bits. *)
Lemma change_vm_system_register_ok code p pt s k r x a w :
  guest_kernel code p pt s k → 0 ≤ r < 18 → s !! Z.to_nat r = Some w →
  ∃ k', change_vm_system_register code r x a k = Ok (u32 w) k' ∧
    guest_kernel code p pt (if bool_decide (x ≠ 0 ∨ a ≠ u64 (-1))
                            then <[Z.to_nat r := changed_register w x a]> s else s) k'.
Proof.
  intros Hk Hr Hw. destruct (request_entered _ _ _ _ _ [code; r; x; a] Hk) as (t & E & Hk1 & Ht & Hl & Hp & Hm & Hargs);
    [simpl; lia |].
  set (t' := with_args [code; r; x; a] t) in *. set (k1 := put_thread thread t' k) in *. clearbody t' k1.
  pose proof (Hargs 0%nat code eq_refl) as H0. pose proof (Hargs 1%nat r eq_refl) as H1.
  pose proof (Hargs 2%nat x eq_refl) as H2. pose proof (Hargs 3%nat a eq_refl) as H3.
  assert (u32 (thread_reg 0 t') = code) as Hc by (rewrite H0; apply u32_id; by eapply gk_u32).
  assert (u32 (thread_reg 1 t') = r) as Hr1 by (rewrite H1; apply u32_id; unfold is_u32; lia).
  assert (may_change_register k1 thread thread p t' t' pt) as Hmay.
  { destruct Hk1. split; rewrite ?Hc; try done. }
  pose proof (svc_change_vm_system_register_ok k1 thread thread p t' t' pt s w Hmay (gk_vm _ _ _ _ _ Hk1)) as E2.
  rewrite Hr1, H2, H3 in E2. specialize (E2 Hw ltac:(lia)).
  set (s' := if bool_decide (x ≠ 0 ∨ a ≠ u64 (-1)) then <[Z.to_nat r := changed_register w x a]> s else s).
  set (k2 := set_vm_states (<[p := s']> (vm_states k1)) k1).
  assert (guest_kernel code p pt s' k2) as Hk2.
  { apply (guest_kernel_vm _ _ _ s); [done |]. pose proof (gk_vm_length _ _ _ _ _ Hk). unfold s'.
    case_bool_decide; by rewrite ?length_insert. }
  exists (put_thread thread (set_thread_reg 0 (u32 w) t') k2). split.
  - cbn [change_vm_system_register kernel_partner]. unfold supervisor_request. rewrite (bind_ok _ _ _ _ _ E).
    change (handle_svc drivers env thread ISAMBARD_CHANGE_VM_SYSTEM_REGISTER) with
      (svc_change_vm_system_register thread).
    rewrite (bind_ok _ _ _ _ _ E2).
    erewrite bind_ok by (apply get_thread_ok; apply lookup_insert_eq). rewrite reg_set_reg_same by lia.
    rewrite ret_ok. do 2 f_equal. unfold k2, s'. case_bool_decide; [done |].
    rewrite insert_id by by eapply gk_vm. done.
  - eapply guest_kernel_thread; [done | done | done | | done | done].
    unfold Kernel.set_reg. cbn. by rewrite length_insert.
Qed.

(** ** The driver's own calls *)
Lemma get_reg_ok code p pt s k d i :
  guest_kernel code p pt s k → 0 ≤ i ≤ 31 →
  ∃ k', get_reg i (Sys d k) = Ok (partner_reg i pt) (Sys d k') ∧ guest_kernel code p pt s k'.
Proof.
  intros Hk Hi. destruct (get_partner_register_ok _ _ _ _ _ _ Hk Hi) as (k' & E & Hk'). exists k'.
  split; [|done]. unfold get_reg, ask. cbn [world vmd]. by rewrite E.
Qed.

Lemma set_reg_ok code p pt s k d i v :
  guest_kernel code p pt s k → 0 ≤ i ≤ 31 →
  ∃ k', RiscosVm.set_reg i v (Sys d k) = Ok () (Sys d k') ∧
    guest_kernel code p (set_partner_reg_value i v pt) s k'.
Proof.
  intros Hk Hi. destruct (set_partner_register_ok _ _ _ _ _ _ v Hk Hi) as (k' & E & Hk'). exists k'.
  split; [|done]. unfold RiscosVm.set_reg, ask. cbn [world vmd]. by rewrite E.
Qed.

Lemma set_vm_system_register_ok code p pt s k d r v :
  guest_kernel code p pt s k → 0 ≤ r < 18 →
  ∃ k', set_vm_system_register code r v (Sys d k) = Ok () (Sys d k') ∧
    guest_kernel code p pt (<[Z.to_nat r := u32 v]> s) k'.
Proof.
  intros Hk Hr. pose proof (gk_vm_length _ _ _ _ _ Hk) as Hl.
  destruct (lookup_lt_is_Some_2 s (Z.to_nat r)) as [w Hw]; [lia |].
  destruct (change_vm_system_register_ok _ _ _ _ _ _ v 0 w Hk Hr Hw) as (k' & E & Hk'). exists k'.
  rewrite bool_decide_eq_true_2 in Hk' by (right; by vm_compute). unfold changed_register in Hk'.
  rewrite bool_decide_eq_true_2 in Hk' by done. split; [|done].
  unfold set_vm_system_register. rewrite (bind_ok _ _ _ (u32 w) (Sys d k')); [done |].
  unfold ask. cbn [world vmd]. by rewrite E.
Qed.

(** The guest's write of a coprocessor register that the virtual machine has too. *)
Lemma cp15_vm_register_write code p pt s k d syn reg static_v put :
  guest_kernel code p pt s k → vm_thread d = code → 0 ≤ reg < 18 → cp_is_read syn = false →
  (∀ v c, static_v (put v c) = v) →
  let v := partner_reg (cp_Rt syn) pt in
  ∃ k', cp15_vm_register syn reg static_v put (Sys d k) =
      Ok () (Sys (set_cp15 (put v (cp15 d)) d) k') ∧
    guest_kernel code p pt (<[Z.to_nat reg := u32 v]> s) k'.
Proof.
  intros Hk Hd Hr Hw Hput v. pose proof (get_bits_range 5 5 syn) as Hrt. fold (cp_Rt syn) in Hrt.
  destruct (get_reg_ok _ _ _ _ _ d (cp_Rt syn) Hk) as (k1 & E1 & Hk1); [lia |].
  destruct (set_vm_system_register_ok _ _ _ _ _ (set_cp15 (put v (cp15 d)) d) reg v Hk1 Hr) as (k2 & E2 & Hk2).
  exists k2. split; [|done]. unfold cp15_vm_register, READ_WRITE. rewrite Hw. cbn [negb when].
  rewrite (bind_ok _ _ _ () (Sys (set_cp15 (put v (cp15 d)) d) k1)).
  2:{ rewrite (bind_ok _ _ _ _ _ E1). done. }
  unfold get_vmd. rewrite !gets_ok. cbn [vmd cp15 set_cp15 vm_thread]. rewrite Hput, Hd. done.
Qed.

(** Its read. *)
Lemma cp15_vm_register_read code p pt s k d syn reg static_v put :
  guest_kernel code p pt s k → cp_is_read syn = true →
  ∃ k', cp15_vm_register syn reg static_v put (Sys d k) = Ok () (Sys d k') ∧
    guest_kernel code p (set_partner_reg_value (cp_Rt syn) (static_v (cp15 d)) pt) s k'.
Proof.
  intros Hk Hr. pose proof (get_bits_range 5 5 syn) as Hrt. fold (cp_Rt syn) in Hrt.
  destruct (set_reg_ok _ _ _ _ _ d (cp_Rt syn) (static_v (cp15 d)) Hk) as (k1 & E1 & Hk1); [lia |].
  exists k1. split; [|done]. unfold cp15_vm_register, READ_WRITE. rewrite Hr. cbn [negb when].
  rewrite (bind_ok _ _ _ () (Sys d k1)); [done |]. unfold get_vmd. by rewrite gets_ok.
Qed.

(** The coprocessor registers the virtual machine has: case label, register. *)
Definition vm_backed : list (Z * Z) :=
  [(0x00400, SCTLR_EL1); (0x00c00, DACR32_EL2); (0x40800, TCR_EL1); (0x00800, TTBR0_EL1)].

Lemma then_nothing (m : M (sys kstate) unit) b st :
  (_ ← m; when b (upd_vmd (λ d, set_cp15 (cp15 d) d))) st = m st.
Proof.
  unfold mbind, M_bind. destruct (m st) as [[] [[] k]|]; [|done]. by destruct b.
Qed.

(** The case of such a register; only TTBR0 does something more. *)
Lemma cp15_access_vm key vmreg :
  (key, vmreg) ∈ vm_backed →
  0 ≤ vmreg < 18 ∧ ∃ static_v put more,
    (∀ v c, static_v (put v c) = v) ∧ (∀ c, static_v (more c) = static_v c) ∧
    ∀ syn st, Z.land syn 0xffc1e = key →
      cp15_access syn st = (_ ← cp15_vm_register syn vmreg static_v put;
        when (negb (cp_is_read syn)) (upd_vmd (λ d, set_cp15 (more (cp15 d)) d))) st.
Proof.
  unfold vm_backed. rewrite !elem_of_cons. intros Hin.
  destruct Hin as [[= -> ->]|[[= -> ->]|[[= -> ->]|[[= -> ->]|[]%not_elem_of_nil]]]];
    (split; [unfold SCTLR_EL1, DACR32_EL2, TCR_EL1, TTBR0_EL1; lia |]).
  1: exists SCTLR_v, (λ v c, Cp15Registers v (DACR_v c) (TTBCR_v c) (TTBR0_v c) (ACTLR_v c) (ttbr0_el1 c)), (λ c, c).
  2: exists DACR_v, (λ v c, Cp15Registers (SCTLR_v c) v (TTBCR_v c) (TTBR0_v c) (ACTLR_v c) (ttbr0_el1 c)), (λ c, c).
  3: exists TTBCR_v, (λ v c, Cp15Registers (SCTLR_v c) (DACR_v c) v (TTBR0_v c) (ACTLR_v c) (ttbr0_el1 c)), (λ c, c).
  4: exists TTBR0_v, (λ v c, Cp15Registers (SCTLR_v c) (DACR_v c) (TTBCR_v c) v (ACTLR_v c) (ttbr0_el1 c)),
    (λ c, Cp15Registers (SCTLR_v c) (DACR_v c) (TTBCR_v c) (TTBR0_v c) (ACTLR_v c) (u32 (TTBR0_v c))).
  all: split; [done |]; split; [done |]; intros syn st E; unfold cp15_access; rewrite E.
  1-3: rewrite then_nothing.
  all: reflexivity.
Qed.

(** ** Claims *)

(** C30: what the guest writes to its control register, domain access control, translation
    control or translation base register arrives, cut to 32 bits, in the register of the virtual
    machine that the kernel loads, and reads back unchanged into whatever register
    the guest names; no other register of either changes. *)
Theorem guest_cp15_roundtrip code p pt s k d key vmreg syn_w syn_r :
  guest_kernel code p pt s k → vm_thread d = code → (key, vmreg) ∈ vm_backed →
  Z.land syn_w 0xffc1e = key → cp_is_read syn_w = false →
  Z.land syn_r 0xffc1e = key → cp_is_read syn_r = true →
  let v := partner_reg (cp_Rt syn_w) pt in
  ∃ d1 k1 k2, cp15_access syn_w (Sys d k) = Ok () (Sys d1 k1) ∧
    guest_kernel code p pt (<[Z.to_nat vmreg := u32 v]> s) k1 ∧
    cp15_access syn_r (Sys d1 k1) = Ok () (Sys d1 k2) ∧
    guest_kernel code p (set_partner_reg_value (cp_Rt syn_r) v pt) (<[Z.to_nat vmreg := u32 v]> s) k2.
Proof.
  intros Hk Hd Hin Hkw Hw Hkr Hr v.
  destruct (cp15_access_vm _ _ Hin) as (Hreg & static_v & put & more & Hput & Hmore & Hacc).
  destruct (cp15_vm_register_write _ _ _ _ _ d syn_w vmreg static_v put Hk Hd Hreg Hw Hput) as (k1 & E1 & Hk1).
  set (d1 := set_cp15 (more (put v (cp15 d))) d).
  destruct (cp15_vm_register_read _ _ _ _ _ d1 syn_r vmreg static_v put Hk1 Hr) as (k2 & E2 & Hk2).
  exists d1, k1, k2. rewrite !Hacc by done. rewrite (bind_ok _ _ _ _ _ E1), (bind_ok _ _ _ _ _ E2), Hw, Hr.
  split; [done |]. split; [done |]. split; [done |].
  unfold d1 in Hk2. cbn [cp15 set_cp15] in Hk2. by rewrite Hmore, Hput in Hk2.
Qed.

(** the registers [entry] gives the virtual machine arrive cut to 32 bits: the table
    address, the traps and the identification registers as they are, but the hypervisor
    configuration and the stage 2 translation control lose every bit above 31 (the
    driver's comment on the latter describes fields among them). *)
Theorem vm_registers_are_truncated code p pt s k d el2_tt :
  guest_kernel code p pt s k → is_u32 el2_tt →
  ∃ k' s', set_vm_registers code el2_tt (Sys d k) = Ok () (Sys d k') ∧ guest_kernel code p pt s' k' ∧
    s' !! Z.to_nat VTTBR_EL2 = Some el2_tt ∧ s' !! Z.to_nat HSTR_EL2 = Some cp15_traps ∧
    s' !! Z.to_nat VMPIDR_EL2 = Some 0xc0000000 ∧ s' !! Z.to_nat VPIDR_EL2 = Some 0x410fc075 ∧
    s' !! Z.to_nat SCTLR_EL1 = Some 0xd50070 ∧
    s' !! Z.to_nat HCR_EL2 = Some 0x000fec3b ∧ hcr2 = 0x1c000fec3b ∧
    s' !! Z.to_nat VTCR_EL2 = Some 0x00080f22.
Proof.
  intros Hk Htt. unfold set_vm_registers.
  destruct s as [|s0 [|s1 [|s2 [|s3 [|s4 [|s5 [|s6 [|s7 [|s8 [|s9 [|s10 [|s11 [|s12 [|s13 [|s14 [|s15 [|s16
    [|s17 [|? ?]]]]]]]]]]]]]]]]]]]; try by pose proof (gk_vm_length _ _ _ _ _ Hk).
  do 8 (match type of Hk with guest_kernel _ _ _ _ ?k0 =>
    match goal with |- context [(set_vm_system_register code ?r ?v ≫= _) (Sys d k0)] =>
      let k1 := fresh "k" in let E1 := fresh "E" in
      destruct (set_vm_system_register_ok _ _ _ _ _ d r v Hk ltac:(done)) as (k1 & E1 & Hk1);
      setoid_rewrite (bind_ok _ _ _ _ _ E1); clear Hk; rename Hk1 into Hk end end).
  destruct (set_vm_system_register_ok _ _ _ _ _ d CONTEXTIDR_EL1 (u64 (-1)) Hk ltac:(done)) as (k' & E' & Hk').
  eexists k', _. split; [done |]. split; [done |]. rewrite (u32_id el2_tt) by done. done.
Qed.

(** the virtual interrupt never reaches the guest: the kernel does not know the
    supervisor call that the emulated controller makes when its line rises, and stops.  Here for an interrupt
    that raises the line while no other was pending. *)
Theorem virtual_irq_stops_kernel code p pt s k d n :
  guest_kernel code p pt s k → irq_lock d = false → irq_active d = false →
  irq_now (set_pending n (irq_details d)) = true →
  ∃ s', trigger_irq n (Sys d k) = Stop (Bsod 656) s'.
Proof.
  intros Hk Hl Ha Hn. destruct (request_entered _ _ _ _ _ [] Hk) as (t & E & Hk1 & _); [simpl; lia |].
  eexists. unfold trigger_irq, claim_irq_lock, get_vmd, upd_irq, upd_vmd, update_virtual_irq.
  rewrite (bind_ok _ _ _ () (Sys (set_irq_lock true d) k)).
  2:{ rewrite gets_ok. simpl. by rewrite Hl. }
  rewrite modify_ok. apply bind_stop. unfold get_vmd. rewrite !gets_ok.
  cbn [vmd set_irq irq_details irq_active set_irq_lock]. rewrite Hn, Ha. cbn [negb andb]. apply bind_stop.
  unfold ask. cbn [world supervisor_call kernel_partner]. unfold supervisor_request.
  cbv beta. unfold mbind at 1, M_bind at 1. rewrite (bind_ok _ _ _ _ _ E). reflexivity.
Qed.
End with_thread.

(** ** A kernel with a guest *)

(** The context of the guest [tw] in [vm_demo]. *)
Definition demo_guest : thread_context := default blank_thread (threads vm_demo !! tw).

Lemma vm_demo_guest : guest_kernel ta 0x1f0000 tw demo_guest (replicate 18 0) vm_demo.
Proof.
  split; try by vm_compute.
  eexists. split; [by vm_compute |]. by vm_compute.
Qed.

(** A guest that writes SCTLR from register 3, then reads it into register 5. *)
Definition write_sctlr : Z := Z.lor 0x400 (Z.shiftl 3 5).
Definition read_sctlr : Z := Z.lor (Z.lor 0x400 (Z.shiftl 5 5)) 1.
Definition demo_driver : riscos := set_threads 0 0x1f0000 initial_riscos.

Lemma guest_cp15_roundtrip_witness :
  ∃ d1 k1, @cp15_access kstate (kernel_partner [] [] ta) write_sctlr (Sys demo_driver vm_demo) = Ok () (Sys d1 k1).
Proof.
  destruct (guest_cp15_roundtrip [] [] ta 0x1f0000 tw demo_guest (replicate 18 0) vm_demo demo_driver 0x400 SCTLR_EL1
    write_sctlr read_sctlr) as (d1 & k1 & k2 & E & _);
    [apply vm_demo_guest | done | by left | by vm_compute | by vm_compute | by vm_compute | by vm_compute |].
  exists d1, k1. exact E.
Defined.

Lemma vm_registers_are_truncated_witness :
  ∃ k' (s' : list Z), @set_vm_registers kstate (kernel_partner [] [] ta) 0x1f0000 0x100000 (Sys demo_driver vm_demo) =
      Ok () (Sys demo_driver k') ∧ s' !! Z.to_nat HCR_EL2 = Some 0x000fec3b.
Proof.
  destruct (vm_registers_are_truncated [] [] ta 0x1f0000 tw demo_guest (replicate 18 0) vm_demo demo_driver 0x100000)
    as (k' & s' & E & _ & _ & _ & _ & _ & _ & H & _); [apply vm_demo_guest | by unfold is_u32 |].
  exists k', s'. split; [exact E | exact H].
Defined.

Lemma virtual_irq_stops_kernel_witness :
  ∃ s', @trigger_irq kstate (kernel_partner [] [] ta) 62
    (Sys (set_irq (IrqRegisters 0 0 0 0 0 (bit 30) 0) demo_driver) vm_demo) = Stop (Bsod 656) s'.
Proof.
  apply (virtual_irq_stops_kernel [] [] ta 0x1f0000 tw demo_guest (replicate 18 0));
    [apply vm_demo_guest | done | done | by vm_compute].
Defined.
