(* ===== verification/GpuDevices.v ===== *)
(** * The devices of the GPU

    [drivers/pi3gpu/devices.h]: the registers that the driver of the GPU's devices
    maps, and what its source files share.  A register is a constructor of [device].  What an
    access does is up to the hardware: it is the class [Devices], whose operations change the
    world [E] that the driver runs in.  The files [GpuMailbox], [TagRequests], [SdCard] and
    [Gpio] each add to it what they use of other maps and of the kernel.

    [board] is a world for examples: the values that reads return are scripted, and every
    access is recorded, latest first.  Barriers and cache maintenance have no effect on
    a world. *)

From S2P Require Import Prelude.

(** ** Registers *)
Inductive interrupts_register : Type :=
  | IRQ_basic_pending | IRQ_pending_1 | IRQ_pending_2 | FIQ_control
  | Enable_IRQs_1 | Enable_IRQs_2 | Enable_Basic_IRQs
  | Disable_IRQs_1 | Disable_IRQs_2 | Disable_Basic_IRQs.

(** The timer on the ARM side. *)
Inductive timer_register : Type :=
  | load | ro_value | control | wo_irq_clear | ro_raw_irq | ro_masked_irq | reload
  | pre_divider | free_running_counter.

Inductive mailbox_register : Type := value | peek | sender | status | config.

Inductive emmc_register : Type :=
  | ARG2 | BLKSIZECNT | ARG1 | CMDTM | RESP0 | RESP1 | RESP2 | RESP3 | DATA | STATUS | CONTROL0 | CONTROL1
  | INTERRUPT | IRPT_MASK | IRPT_EN | CONTROL2 | FORCE_IRPT | BOOT_TIMEOUT | DBG_SEL | EXRDFIFO_CFG
  | EXRDFIFO_EN | TUNE_STEP | TUNE_STEPS_STD | TUNE_STEPS_DDR | SPI_INT_SPT | SLOTISR_VER.

(** The arrays among the GPIO registers have an index. *)
Inductive gpio_register : Type :=
  | GPFSEL (n : Z) | GPSET (n : Z) | GPCLR (n : Z) | GPLEV (n : Z) | GPEDS (n : Z) | GPREN (n : Z) | GPFEN (n : Z)
  | GPHEN (n : Z) | GPLEN (n : Z) | GPAREN (n : Z) | GPAFEN (n : Z) | GPPUD | GPPUDCLK (n : Z) | TEST.

Inductive dma_register : Type :=
  | CS | CONBLK_AD | TI | SOURCE_AD | DEST_AD | TXFR_LEN | STRIDE | NEXTCONBK | DEBUG.

Inductive device : Type :=
  | Interrupts (r : interrupts_register)
  | Timer (r : timer_register)
  | Mailbox (n : Z) (r : mailbox_register)
  | Emmc (r : emmc_register)
  | Gpio (r : gpio_register)
  | Dma (n : Z) (r : dma_register).

#[global] Instance interrupts_register_eq_dec : EqDecision interrupts_register.
Proof. solve_decision. Defined.
#[global] Instance timer_register_eq_dec : EqDecision timer_register.
Proof. solve_decision. Defined.
#[global] Instance mailbox_register_eq_dec : EqDecision mailbox_register.
Proof. solve_decision. Defined.
#[global] Instance emmc_register_eq_dec : EqDecision emmc_register.
Proof. solve_decision. Defined.
#[global] Instance gpio_register_eq_dec : EqDecision gpio_register.
Proof. solve_decision. Defined.
#[global] Instance dma_register_eq_dec : EqDecision dma_register.
Proof. solve_decision. Defined.
#[global] Instance device_eq_dec : EqDecision device.
Proof. solve_decision. Defined.

Class Devices (E : Type) : Type := {
  device_read : device → M E Z;
  device_write : device → Z → M E unit;
}.

(** ** The variables of one source file, and the world *)
Record sys (D E : Type) : Type := Sys { vars : D; world : E }.
Arguments Sys {D E} _ _.
Arguments vars {D E} _.
Arguments world {D E} _.

(** How a method of a provided interface ends: with its [__return] or its [__exception]
    routine, neither of which comes back. *)
Inductive reply : Type :=
  | Return (result : Z)
  | ReturnNothing
  | Exception (code : Z).

Section code.
Context {D E : Type}.

Definition ask {A} (m : M E A) : M (sys D E) A := λ s,
  match m (world s) with
  | Ok a e => Ok a (Sys (vars s) e)
  | Stop r e => Stop r (Sys (vars s) e)
  end.
Definition get_var {A} (f : D → A) : M (sys D E) A := gets (λ s, f (vars s)).
Definition upd_var (f : D → D) : M (sys D E) unit := modify (λ s, Sys (f (vars s)) (world s)).

Context `{!Devices E}.
Definition read (d : device) : M (sys D E) Z := ask (device_read d).
Definition write (d : device) (v : Z) : M (sys D E) unit := ask (device_write d v).
(** [d |= v] and [d &= v] *)
Definition write_or (d : device) (v : Z) : M (sys D E) unit := r ← read d; write d (Z.lor r v).
Definition write_and (d : device) (v : Z) : M (sys D E) unit := r ← read d; write d (Z.land r v).

Lemma ask_known {A B} (m : M E A) (f : A → M (sys D E) B) d e a e' :
  m e = Ok a e' → (ask m ≫= f) (Sys d e) = f a (Sys d e').
Proof. intros H. unfold mbind, M_bind, ask. simpl. by rewrite H. Qed.

Lemma wp_ask {A} (m : M E A) (Q : A → sys D E → Prop) B s :
  wp m (λ a e, Q a (Sys (vars s) e)) B (world s) → wp (ask m) Q B s.
Proof. unfold wp, ask. by destruct (m (world s)). Qed.

Lemma ask_inv {A} (m : M E A) s a s' :
  ask m s = Ok a s' → vars s' = vars s ∧ m (world s) = Ok a (world s').
Proof. unfold ask. destruct (m (world s)); intros [= <- <-]. done. Qed.

Lemma get_var_ok {A B} (g : D → A) (f : A → M (sys D E) B) s : (get_var g ≫= f) s = f (g (vars s)) s.
Proof. done. Qed.

Lemma wp_get_var {A B} (g : D → A) (f : A → M (sys D E) B) Q R s :
  wp (f (g (vars s))) Q R s → wp (get_var g ≫= f) Q R s.
Proof. done. Qed.

Lemma wp_upd_var {B} (g : D → D) (f : unit → M (sys D E) B) Q R s :
  wp (f ()) Q R (Sys (g (vars s)) (world s)) → wp (upd_var g ≫= f) Q R s.
Proof. done. Qed.

Lemma upd_var_ok {B} (g : D → D) (f : unit → M (sys D E) B) s :
  (upd_var g ≫= f) s = f () (Sys (g (vars s)) (world s)).
Proof. done. Qed.
End code.

(** ** A board for examples *)
Inductive access : Type :=
  | Reads (d : device) (v : Z)
  | Writes (d : device) (v : Z)
  | Does (what : Z) (args : list Z).      (* anything else a file asks of its world *)

Record board : Type := Board { script : list (device * Z); accesses : list access }.

Definition record (a : access) (b : board) : board := Board (script b) (a :: accesses b).

(** The next value the script has for [d], and the script without it. *)
Fixpoint next_value (d : device) (l : list (device * Z)) : option (Z * list (device * Z)) :=
  match l with
  | [] => None
  | (d', v) :: l =>
      if decide (d = d') then Some (v, l)
      else match next_value d l with Some (v', l') => Some (v', (d', v) :: l') | None => None end
  end.

#[export] Instance board_devices : Devices board := {
  device_read d := λ b,
    match next_value d (script b) with
    | Some (v, l) => Ok v (Board l (Reads d v :: accesses b))
    | None => Ok 0 (record (Reads d 0) b)
    end;
  device_write d v := modify (record (Writes d v));
}.
