(* ===== verification/GpuMailbox.v ===== *)
(** * The mailboxes of the GPU

    [drivers/pi3gpu/mailbox.c]: the GPU puts messages for 16 channels into the FIFO of mailbox
    0; [mailbox_interrupt] sorts them into the channels, and a thread that runs
    [message_pump] passes each one to the client of its channel.  A channel holds one
    message; when a second one comes for it the driver reads no further, it keeps that one in
    [blocking_message] and switches the interrupt off.

    A pointer to a channel is its index.  What the driver uses of the hardware, of the
    kernel and of other maps is the class [MailboxWorld]; its methods and handlers run one
    after the other.  The polling of [queue_message] is bounded by an argument.  What holds of it is in [MailboxFacts]. *)

From S2P Require Import Prelude Crc GpuDevices.
Import Crc.

(** ** What the driver uses *)
Class MailboxWorld (E : Type) : Type := {
  mailbox_devices :: Devices E;
  wake_thread : Z → M E unit;
  wait_until_woken : M E Z;
  sleep_ms : Z → M E unit;
  create_thread : M E Z;                    (* [create_thread( message_pump, ... )] *)
  incoming_message : Z → Z → M E unit;      (* [GPU_MAILBOX_CLIENT__incoming_message] *)
  interface_to_return : Z → M E Z;          (* [MBOX__GPU_MAILBOX__to_return] *)
}.

(** ** State *)
Record mailbox_channel : Type := Channel {
  lock : bool;
  waiting_thread : Z;
  received_message : Z;
  client : Z;
}.

Record mailboxes : Type := Mailboxes {
  channels : list mailbox_channel;
  blocking_message : Z;
  blocked_sending_thread : Z;
  pump_thread : Z;
}.

Definition initial_mailboxes : mailboxes := Mailboxes (replicate 16 (Channel false 0 0 0)) 0 0 0.

Definition set_lock (v : bool) (c : mailbox_channel) : mailbox_channel :=
  Channel v (waiting_thread c) (received_message c) (client c).
Definition set_waiting_thread (v : Z) (c : mailbox_channel) : mailbox_channel :=
  Channel (lock c) v (received_message c) (client c).
Definition set_received_message (v : Z) (c : mailbox_channel) : mailbox_channel :=
  Channel (lock c) (waiting_thread c) v (client c).
Definition set_client (v : Z) (c : mailbox_channel) : mailbox_channel :=
  Channel (lock c) (waiting_thread c) (received_message c) v.

Definition set_channels (v : list mailbox_channel) (d : mailboxes) : mailboxes :=
  Mailboxes v (blocking_message d) (blocked_sending_thread d) (pump_thread d).
Definition set_blocking_message (v : Z) (d : mailboxes) : mailboxes :=
  Mailboxes (channels d) v (blocked_sending_thread d) (pump_thread d).
Definition set_blocked_sending_thread (v : Z) (d : mailboxes) : mailboxes :=
  Mailboxes (channels d) (blocking_message d) v (pump_thread d).
Definition set_pump_thread (v : Z) (d : mailboxes) : mailboxes :=
  Mailboxes (channels d) (blocking_message d) (blocked_sending_thread d) v.

(** [message & 0xf] and [message & ~0xf] *)
Definition channel_of (message : Z) : Z := Z.land message 0xf.
Definition payload_of (message : Z) : Z := Z.land message 0xfffffff0.

(** ** Operations *)
Section mailbox.
Context {E : Type} `{!MailboxWorld E}.

#[local] Abbreviation D := (M (sys mailboxes E)).

(** [channels[i]] *)
Definition get_channel (i : Z) : D mailbox_channel :=
  cs ← get_var channels;
  match cs !! Z.to_nat i with Some c => mret c | None => halt (Fault i) end.
Definition upd_channel (i : Z) (f : mailbox_channel → mailbox_channel) : D unit :=
  upd_var (λ d, set_channels (alter f (Z.to_nat i) (channels d)) d).

(** The message that blocked, if its channel is free now. *)
Definition deliver_blocking_message : D unit :=
  b ← get_var blocking_message;
  when (bool_decide (b ≠ 0))
    (c ← get_channel (channel_of b);
     if bool_decide (received_message c = 0) then
       _ ← upd_channel (channel_of b) (set_received_message (payload_of b));
       _ ← upd_var (set_blocking_message 0);
       ask (wake_thread (waiting_thread c))
     else halt (Brk 4)).

(** [while (0 == (devices.mailbox[0].status & 0x40000000)) { ... }].  Every round but the
    last fills a channel that was free, so that [drain_fuel] rounds are enough. *)
Definition drain_fuel : nat := 18.

Fixpoint drain (fuel : nat) : D unit :=
  match fuel with
  | O => halt (Spin 65)
  | S fuel =>
      s ← read (Mailbox 0 status);
      if bool_decide (Z.land s 0x40000000 = 0) then
        message ← read (Mailbox 0 value);
        let channel := channel_of message in
        c ← get_channel channel;
        if bool_decide (waiting_thread c = 0) then halt (Brk 8)
        else if bool_decide (received_message c = 0) then
          _ ← upd_channel channel (set_received_message (payload_of message));
          _ ← ask (wake_thread (waiting_thread c));
          drain fuel
        else upd_var (set_blocking_message message)
      else mret ()
  end.

(** [mailbox_interrupt] once it has read [mailbox0_pending]. *)
Definition handle_pending (mailbox0_pending : Z) : D unit :=
  _ ← when (bool_decide (Z.land mailbox0_pending 0x10 ≠ 0))
        (_ ← deliver_blocking_message;
         _ ← drain drain_fuel;
         b ← get_var blocking_message;
         when (bool_decide (b ≠ 0)) (write (Mailbox 0 config) 0));
  t ← get_var blocked_sending_thread;
  when (bool_decide (t ≠ 0)) (ask (wake_thread t)).

Definition mailbox_interrupt : D unit :=
  mailbox0_pending ← read (Mailbox 0 config);
  handle_pending mailbox0_pending.

(** [for (int i = 0; i < 17; i++) { ... }] of [message_pump], from [i] on; the result is
    [last_channel]. *)
Fixpoint pump_scan (n : nat) (i this_thread last_channel : Z) : D Z :=
  match n with
  | O => mret last_channel
  | S n =>
      let c := (last_channel + i) mod 16 in
      ch ← get_channel c;
      if bool_decide (waiting_thread ch = this_thread) && bool_decide (received_message ch ≠ 0) then
        _ ← upd_channel c (set_received_message 0);
        _ ← ask (incoming_message (client ch) (received_message ch));
        b ← get_var blocking_message;
        _ ← when (bool_decide (b ≠ 0)) (write (Mailbox 0 config) 1);
        mret c
      else pump_scan n (i + 1) this_thread last_channel
  end.

Definition pump_one : Z → Z → D Z := pump_scan 17 0.

(** [for (int j = 0; j < messages; j++) { ... }] *)
Fixpoint pump_messages (messages : nat) (this_thread last_channel : Z) : D Z :=
  match messages with
  | O => mret last_channel
  | S messages => c ← pump_one this_thread last_channel; pump_messages messages this_thread c
  end.

(** One round of the endless loop of [message_pump]. *)
Definition message_pump (this_thread last_channel : Z) : D Z :=
  w ← ask wait_until_woken;
  pump_messages (Z.to_nat (s32 (w + 1))) this_thread last_channel.

Definition out_of_range : list Z :=     (* "Channel number out of range" *)
  [67; 104; 97; 110; 110; 101; 108; 32; 110; 117; 109; 98; 101; 114; 32; 111; 117; 116; 32; 111; 102; 32;
   114; 97; 110; 103; 101].
Definition already_has_a_client : list Z :=     (* "Channel already has a client" *)
  [67; 104; 97; 110; 110; 101; 108; 32; 97; 108; 114; 101; 97; 100; 121; 32; 104; 97; 115; 32; 97; 32; 99; 108;
   105; 101; 110; 116].
Definition already_waiting : list Z :=     (* "Channel is already waiting for a response" *)
  [67; 104; 97; 110; 110; 101; 108; 32; 105; 115; 32; 97; 108; 114; 101; 97; 100; 121; 32; 119; 97; 105; 116;
   105; 110; 103; 32; 102; 111; 114; 32; 97; 32; 114; 101; 115; 112; 111; 110; 115; 101].
Definition has_no_client : list Z :=     (* "Channel has no client" *)
  [67; 104; 97; 110; 110; 101; 108; 32; 104; 97; 115; 32; 110; 111; 32; 99; 108; 105; 101; 110; 116].

Definition MANAGER__GPU_MAILBOX_MANAGER__claim_channel (o channel : Z) : D reply :=
  if bool_decide (channel > 15) then mret (Exception (name_code out_of_range))
  else i ← ask (interface_to_return channel); mret (Return i).

(** [claim_lock( &channel->lock )] on a free lock takes it. *)
Definition claim_channel_lock (channel : Z) : D unit :=
  c ← get_channel channel;
  _ ← guard_stop (lock c) (Spin 146);
  upd_channel channel (set_lock true).
Definition release_channel_lock (channel : Z) : D unit := upd_channel channel (set_lock false).

Definition MBOX__GPU_MAILBOX__register_client (channel new_client : Z) : D reply :=
  _ ← claim_channel_lock channel;
  c ← get_channel channel;
  if bool_decide (client c ≠ 0) then
    _ ← release_channel_lock channel; mret (Exception (name_code already_has_a_client))
  else if bool_decide (waiting_thread c ≠ 0) then
    _ ← release_channel_lock channel; mret (Exception (name_code already_waiting))
  else
    _ ← upd_channel channel (set_client new_client);
    p ← get_var pump_thread;
    _ ← when (bool_decide (p = 0)) (t ← ask create_thread; upd_var (set_pump_thread (u32 t)));
    p ← get_var pump_thread;
    _ ← upd_channel channel (set_waiting_thread p);
    _ ← release_channel_lock channel;
    mret ReturnNothing.

(** [while (0 != (devices.mailbox[1].status & 0x80000000)) { ... }], at most [polls] times. *)
Fixpoint wait_for_room (polls : nat) (this_thread : Z) : D unit :=
  match polls with
  | O => halt (Spin 185)
  | S polls =>
      s ← read (Mailbox 1 status);
      if bool_decide (Z.land s 0x80000000 ≠ 0) then
        _ ← upd_var (set_blocked_sending_thread this_thread);
        _ ← ask (sleep_ms 10);
        wait_for_room polls this_thread
      else mret ()
  end.

Definition MBOX__GPU_MAILBOX__queue_message (polls : nat) (this_thread channel message : Z) : D reply :=
  c ← get_channel channel;
  if bool_decide (client c = 0) then mret (Exception (name_code has_no_client))
  else
    _ ← write (Mailbox 0 config) 1;
    _ ← wait_for_room polls this_thread;
    _ ← upd_var (set_blocked_sending_thread 0);
    _ ← ask (wake_thread this_thread);
    _ ← ask wait_until_woken;
    _ ← write (Mailbox 1 value) (u32 (Z.lor message channel));
    mret ReturnNothing.
End mailbox.
