(* ===== verification/MailboxFacts.v ===== *)
(** * What the mailboxes of the GPU guarantee

    Theorems about [GpuMailbox], under the laws of its world: the GPU posts messages at any
    time, and an access takes nothing out of its FIFO unless the driver reads it.  Every
    channel is a FIFO, whatever the order of interrupts, deliveries and requests; the
    interrupt handler always ends; a message that blocks is stuck until the GPU posts
    another one, and being switched on again too early, the interrupt handler stops the
    driver. *)

From S2P Require Import Prelude GpuDevices GpuMailbox.

(** ** The world *)
Class MailboxLaws (E : Type) `{!MailboxWorld E} : Type := {
  inbox : E → list Z;                  (* the FIFO of mailbox 0, the oldest message first *)
  posted : E → list Z;                 (* all that the GPU has put into it *)
  calls : E → list (Z * Z);            (* the calls of [incoming_message] *)
  expected : Z → Prop;                 (* what the GPU posts *)
  expected_payload : ∀ m, expected m → is_u32 m ∧ payload_of m ≠ 0;
  (** [e'] after an access that takes nothing out of the FIFO; the GPU may have posted. *)
  meanwhile (e e' : E) : Prop :=
    ∃ new, Forall expected new ∧ inbox e' = inbox e ++ new ∧ posted e' = posted e ++ new ∧ calls e' = calls e;
  pending_law : ∀ e, wp (device_read (Mailbox 0 config)) (λ v e', meanwhile e e' ∧
                       (Z.land v 0x10 ≠ 0 → inbox e' ≠ [])) (λ _, False) e;
  status_law : ∀ e, wp (device_read (Mailbox 0 status)) (λ v e', meanwhile e e' ∧
                      (Z.land v 0x40000000 = 0 ↔ inbox e' ≠ [])) (λ _, False) e;
  value_law : ∀ e m l, inbox e = m :: l → wp (device_read (Mailbox 0 value)) (λ v e', v = m ∧
                ∃ new, Forall expected new ∧ inbox e' = l ++ new ∧ posted e' = posted e ++ new ∧
                       calls e' = calls e) (λ _, False) e;
  config_law : ∀ e v, wp (device_write (Mailbox 0 config) v) (λ _, meanwhile e) (λ _, False) e;
  outbox_law : ∀ e v, wp (device_write (Mailbox 1 value) v) (λ _, meanwhile e) (λ _, False) e;
  room_law : ∀ e, wp (device_read (Mailbox 1 status)) (λ _, meanwhile e) (λ _, False) e;
  wake_law : ∀ e t, wp (wake_thread t) (λ _, meanwhile e) (λ _, False) e;
  wait_law : ∀ e, wp wait_until_woken (λ _, meanwhile e) (λ r, ∃ l, r = Spin l) e;
  sleep_law : ∀ e t, wp (sleep_ms t) (λ _, meanwhile e) (λ _, False) e;
  create_law : ∀ e, wp create_thread (λ t e', is_u32 t ∧ t ≠ 0 ∧ meanwhile e e') (λ _, False) e;
  incoming_law : ∀ e c m, wp (incoming_message c m) (λ _ e', ∃ new, Forall expected new ∧
                   inbox e' = inbox e ++ new ∧ posted e' = posted e ++ new ∧
                   calls e' = calls e ++ [(c, m)]) (λ _, False) e;
}.

(** ** Channels are FIFOs *)
Section fifo.
Context {E : Type} `{!MailboxWorld E} `{!MailboxLaws E}.
Implicit Types (s : sys mailboxes E) (d : mailboxes) (c : Z).

#[local] Instance meanwhile_preorder : PreOrder (meanwhile (E := E)).
Proof.
  split.
  - intros e. exists []. by rewrite !app_nil_r.
  - intros e1 e2 e3 (n1 & G1 & I1 & P1 & C1) (n2 & G2 & I2 & P2 & C2). exists (n1 ++ n2).
    rewrite I2, P2, C2, I1, P1, C1, !app_assoc. split; [by apply Forall_app | done].
Qed.

(** The messages for channel [c] that its client has not seen, in order: the one the
    channel holds, the one that blocks, and those in the FIFO. *)
Definition slot d c : list Z :=
  match channels d !! Z.to_nat c with
  | Some ch => if bool_decide (received_message ch ≠ 0) then [received_message ch] else []
  | None => []
  end.
Definition blocked d c : list Z :=
  if bool_decide (blocking_message d ≠ 0) && bool_decide (channel_of (blocking_message d) = c)
  then [payload_of (blocking_message d)] else [].
Definition for_channel c (l : list Z) : list Z := payload_of <$> filter (λ m, channel_of m = c) l.
Definition pending s c : list Z := slot (vars s) c ++ blocked (vars s) c ++ for_channel c (inbox (world s)).

(** The GPU's messages are as expected, and a message that blocks does so because its
    channel is not free. *)
Record sorted s : Prop := {
  so_channels : length (channels (vars s)) = 16%nat;
  so_inbox : Forall expected (inbox (world s));
  so_blocking : blocking_message (vars s) = 0 ∨ expected (blocking_message (vars s));
}.

Definition is_channel c : Prop := 0 ≤ c < 16.

Lemma channel_of_range m : is_channel (channel_of m).
Proof. unfold is_channel, channel_of. change 0xf with (Z.ones 4). rewrite Z.land_ones by lia. apply Z.mod_pos_bound. lia. Qed.

Lemma expected_not_0 m : expected m → m ≠ 0.
Proof. intros [_ H]%expected_payload ->. done. Qed.

Lemma for_channel_app c l1 l2 : for_channel c (l1 ++ l2) = for_channel c l1 ++ for_channel c l2.
Proof. unfold for_channel. by rewrite filter_app, fmap_app. Qed.

Lemma for_channel_cons c m l :
  for_channel c (m :: l) = (if decide (channel_of m = c) then [payload_of m] else []) ++ for_channel c l.
Proof. unfold for_channel. rewrite filter_cons. by case_decide. Qed.

Lemma channel_index c c' : is_channel c → is_channel c' → Z.to_nat c = Z.to_nat c' ↔ c = c'.
Proof. unfold is_channel. lia. Qed.

Lemma channel_is_some d c : length (channels d) = 16%nat → is_channel c → is_Some (channels d !! Z.to_nat c).
Proof. intros Hl Hc. unfold is_channel in Hc. apply lookup_lt_is_Some. lia. Qed.

(** What a channel holds after [f] changed the channel [i]. *)
Lemma slot_alter d f i c ch :
  is_channel i → is_channel c → channels d !! Z.to_nat i = Some ch →
  slot (set_channels (alter f (Z.to_nat i) (channels d)) d) c =
    if decide (i = c) then (if bool_decide (received_message (f ch) ≠ 0) then [received_message (f ch)] else [])
    else slot d c.
Proof.
  intros Hi Hc Hch. unfold slot. simpl. case_decide as E1.
  - subst. by rewrite list_lookup_alter_eq, Hch.
  - rewrite list_lookup_alter_ne; [done |]. by rewrite channel_index.
Qed.

Lemma wp_get_channel {A} s c (f : mailbox_channel → M (sys mailboxes E) A) Q B :
  length (channels (vars s)) = 16%nat → is_channel c →
  (∀ ch, channels (vars s) !! Z.to_nat c = Some ch → wp (f ch) Q B s) → wp (get_channel c ≫= f) Q B s.
Proof.
  intros Hl Hc H. destruct (channel_is_some (vars s) c Hl Hc) as [ch Hch]. unfold wp, get_channel.
  rewrite bind_ok with (a := ch) (s' := s); [by apply H |].
  rewrite get_var_ok. by rewrite Hch.
Qed.

(** [s'] after [s]: the messages [new] have come, and nothing was delivered or lost. *)
Definition flows s s' : Prop :=
  sorted s → sorted s' ∧ length (channels (vars s')) = length (channels (vars s)) ∧
  calls (world s') = calls (world s) ∧
  ∃ new, posted (world s') = posted (world s) ++ new ∧
         ∀ c, is_channel c → pending s' c = pending s c ++ for_channel c new.

#[local] Instance flows_preorder : PreOrder flows.
Proof.
  split.
  - intros s Hs. split; [done |]. split; [done |]. split; [done |]. exists [].
    split; [by rewrite app_nil_r |]. intros c _. by rewrite app_nil_r.
  - intros s1 s2 s3 H12 H23 Hs1. destruct (H12 Hs1) as (Hs2 & L2 & C2 & n1 & P1 & Q1).
    destruct (H23 Hs2) as (Hs3 & L3 & C3 & n2 & P2 & Q2). split; [done |].
    split; [congruence |]. split; [congruence |]. exists (n1 ++ n2).
    split; [by rewrite P2, P1, app_assoc |]. intros c Hc. by rewrite Q2, Q1, for_channel_app, app_assoc.
Qed.

Lemma flows_meanwhile d e e' : meanwhile e e' → flows (Sys d e) (Sys d e').
Proof.
  intros (new & G & I & P & C) [H1 H2 H3]. split.
  - split; [done | | done]. simpl. rewrite I. by apply Forall_app.
  - split; [done |]. split; [done |]. exists new. split; [done |]. intros c _.
    unfold pending. simpl. by rewrite I, for_channel_app, !app_assoc.
Qed.

Lemma wp_meanwhile {A C} (m : M E A) (P : A → E → Prop) (f : A → M (sys mailboxes E) C) Q B s :
  wp m (λ v e', meanwhile (world s) e' ∧ P v e') (λ _, False) (world s) →
  (∀ v e', flows s (Sys (vars s) e') → P v e' → wp (f v) Q B (Sys (vars s) e')) →
  wp (ask m ≫= f) Q B s.
Proof.
  intros Hm Hf. apply wp_bind, wp_ask. eapply wp_mono; [exact Hm | | done].
  intros v e' [Hw HP]. apply Hf; [|done]. destruct s. by apply flows_meanwhile.
Qed.

Lemma wp_last_meanwhile {A} (m : M E A) (Q : A → sys mailboxes E → Prop) B s :
  wp m (λ _, meanwhile (world s)) (λ _, False) (world s) →
  (∀ v e', flows s (Sys (vars s) e') → Q v (Sys (vars s) e')) → wp (ask m) Q B s.
Proof.
  intros Hm Hf. apply wp_ask. eapply wp_mono; [exact Hm | | done].
  intros v e' Hw. apply Hf. destruct s. by apply flows_meanwhile.
Qed.

(** The message at the front of the FIFO goes into its channel, which is free. *)
Lemma flows_into_slot s m l new e' ch :
  blocking_message (vars s) = 0 → inbox (world s) = m :: l → Forall expected new →
  inbox e' = l ++ new → posted e' = posted (world s) ++ new → calls e' = calls (world s) →
  channels (vars s) !! Z.to_nat (channel_of m) = Some ch → received_message ch = 0 →
  flows s (Sys (set_channels (alter (set_received_message (payload_of m)) (Z.to_nat (channel_of m))
                                (channels (vars s))) (vars s)) e').
Proof.
  intros Hb Hm Hn Hi Hp Hcl Hch Hfree [H1 H2 H3]. rewrite Hm in H2. apply Forall_cons in H2 as [He H2].
  split; [split; simpl |].
  - by rewrite length_alter.
  - rewrite Hi. by apply Forall_app.
  - by left.
  - split; [simpl; by rewrite length_alter |]. split; [done |]. exists new. split; [done |]. intros c Hc.
    unfold pending at 1. cbn [vars world]. rewrite (slot_alter _ _ _ _ ch) by (done || apply channel_of_range).
    unfold pending. rewrite Hm, Hi, for_channel_cons, for_channel_app. unfold blocked. simpl. rewrite Hb. simpl.
    case_decide as E1; [|by rewrite app_assoc]. subst c. unfold slot. rewrite Hch, Hfree. simpl.
    apply expected_payload in He as [_ He]. by rewrite bool_decide_eq_true_2.
Qed.

(** It stays outside, because its channel is not free. *)
Lemma flows_into_blocking s m l new e' :
  blocking_message (vars s) = 0 → inbox (world s) = m :: l → Forall expected new →
  inbox e' = l ++ new → posted e' = posted (world s) ++ new → calls e' = calls (world s) →
  flows s (Sys (set_blocking_message m (vars s)) e').
Proof.
  intros Hb Hm Hn Hi Hp Hcl [H1 H2 H3]. rewrite Hm in H2. apply Forall_cons in H2 as [He H2].
  split; [split; simpl |].
  - done.
  - rewrite Hi. by apply Forall_app.
  - by right.
  - split; [done |]. split; [done |]. exists new. split; [done |]. intros c Hc.
    unfold pending, blocked, slot. simpl. rewrite Hm, Hi, Hb, for_channel_cons, for_channel_app.
    rewrite (bool_decide_eq_true_2 (m ≠ 0)) by by apply expected_not_0. simpl.
    destruct (decide (channel_of m = c)).
    + rewrite bool_decide_eq_true_2 by done. by rewrite <- !app_assoc.
    + rewrite bool_decide_eq_false_2 by done. by rewrite <- !app_assoc.
Qed.

(** The message that blocked goes into its channel. *)
Lemma flows_unblock s ch :
  blocking_message (vars s) ≠ 0 →
  channels (vars s) !! Z.to_nat (channel_of (blocking_message (vars s))) = Some ch → received_message ch = 0 →
  flows s (Sys (set_blocking_message 0 (set_channels
    (alter (set_received_message (payload_of (blocking_message (vars s))))
       (Z.to_nat (channel_of (blocking_message (vars s)))) (channels (vars s))) (vars s))) (world s)).
Proof.
  intros Hb Hch Hfree [H1 H2 H3]. destruct H3 as [|He]; [done |].
  split; [split; simpl; [by rewrite length_alter | done | by left] |].
  split; [simpl; by rewrite length_alter |]. split; [done |]. exists []. split; [by rewrite app_nil_r |].
  intros c Hc. rewrite app_nil_r. unfold pending at 1. cbn [vars world].
  assert (∀ b d, slot (set_blocking_message b d) c = slot d c) as -> by done.
  rewrite (slot_alter _ _ _ _ ch) by (done || apply channel_of_range).
  unfold pending, blocked. simpl. rewrite (bool_decide_eq_true_2 (blocking_message (vars s) ≠ 0)) by done. simpl.
  case_decide as E1.
  - subst c. unfold slot. rewrite Hch, Hfree. simpl. rewrite (bool_decide_eq_true_2 (channel_of _ = _)) by done.
    apply expected_payload in He as [_ He]. by rewrite bool_decide_eq_true_2.
  - by rewrite bool_decide_eq_false_2.
Qed.

(** *** The interrupt handler *)

(** The thread and the client of each channel.  A message may come for a channel that
    no thread waits for. *)
Definition owners d : list (Z * Z) := (λ ch, (waiting_thread ch, client ch)) <$> channels d.
Definition unclaimed d : Prop :=
  ∃ m cl, expected m ∧ owners d !! Z.to_nat (channel_of m) = Some (0, cl).

(** The interrupt handler leaves the owners alone, and only a full channel blocks. *)
Definition handles s s' : Prop := flows s s' ∧ owners (vars s') = owners (vars s).

#[local] Instance handles_preorder : PreOrder handles.
Proof.
  split; [by split |]. intros s1 s2 s3 [F1 T1] [F2 T2]. split; [by etransitivity | congruence].
Qed.

Lemma handles_world s d e e' : flows (Sys d e) (Sys d e') → handles s (Sys d e) → handles s (Sys d e').
Proof. intros Hf Hh. etransitivity; [exact Hh |]. by split. Qed.

Lemma owners_alter d v i :
  owners (set_channels (alter (set_received_message v) i (channels d)) d) = owners d.
Proof.
  unfold owners. simpl. generalize (channels d). intros l. revert i.
  induction l as [|x l IH]; intros [|i]; [done.. |]. cbn. f_equal. apply IH.
Qed.

Definition free d : nat := length (filter (λ ch, received_message ch = 0) (channels d)).

Lemma free_alter (l : list mailbox_channel) i ch v :
  l !! i = Some ch → received_message ch = 0 → v ≠ 0 →
  length (filter (λ ch, received_message ch = 0) l) =
  S (length (filter (λ ch, received_message ch = 0) (alter (set_received_message v) i l))).
Proof.
  revert i. induction l as [|x l IH]; intros [|i] Hi Hch Hv; [done | done | |].
  - injection Hi as ->. cbn [alter list_alter]. rewrite filter_cons_True, filter_cons_False by done. done.
  - cbn [alter list_alter]. rewrite !filter_cons. case_decide; simpl; rewrite (IH i) by done; done.
Qed.

Lemma free_bound s : sorted s → (free (vars s) ≤ 16)%nat.
Proof. intros [<- _ _]. unfold free. apply length_filter. Qed.

(** What is in the FIFO of [s'] was posted after [s]. *)
Definition taken s s' : Prop := ∃ old, posted (world s') = posted (world s) ++ old ++ inbox (world s').

(** The FIFO was emptied, or a message has found its channel full. *)
Definition drained s s' : Prop :=
  blocking_message (vars s') = 0 ∧ taken s s' ∨
  blocking_message (vars s') ≠ 0 ∧ slot (vars s') (channel_of (blocking_message (vars s'))) ≠ [].

Lemma drained_meanwhile s d e e' : meanwhile e e' → drained s (Sys d e) → drained s (Sys d e').
Proof.
  intros (new & _ & I & P & _) [[Hb [old Ht]] | H]; [left | by right]. split; [done |]. exists old.
  simpl in *. by rewrite P, I, Ht, !app_assoc.
Qed.

Lemma drained_later s s1 s' : sorted s → flows s s1 → drained s1 s' → drained s s'.
Proof.
  intros Hs F [[Hb [old Ht]] | H]; [left | by right]. split; [done |].
  destruct (F Hs) as (_ & _ & _ & new & P & _). exists (new ++ old). by rewrite Ht, P, !app_assoc.
Qed.

(** What the handler may stop for. *)
Definition no_client d (r : stop) : Prop := r = Brk 8 ∧ unclaimed d.

Lemma drain_ok fuel s :
  sorted s → blocking_message (vars s) = 0 → (free (vars s) < fuel)%nat →
  wp (drain fuel) (λ _ s', handles s s' ∧ drained s s') (no_client (vars s)) s.
Proof.
  revert s. induction fuel as [|fuel IH]; intros s Hs Hb Hf; [lia |]. cbn [drain].
  eapply wp_meanwhile; [apply status_law |]. intros v e1 F1 Hst. case_bool_decide as Hv.
  2: { apply wp_ret. split; [by split |]. left. split; [done |].
       destruct (F1 Hs) as (_ & _ & _ & new & P & _). exists new. rewrite P. f_equal.
       destruct (inbox e1) as [|m l] eqn:Hin; [simpl; by rewrite Hin, app_nil_r |]. exfalso. apply Hv, Hst. by rewrite Hin. }
  destruct (inbox e1) as [|m l] eqn:Hin; [by apply Hst in Hv |].
  assert (sorted (Sys (vars s) e1)) as Hs1 by by apply F1.
  assert (expected m) as Hm by (destruct Hs1 as [_ H _]; simpl in H; rewrite Hin in H; by apply Forall_cons in H as [? _]).
  apply wp_bind, wp_ask. eapply wp_mono; [by eapply value_law | | done].
  intros v' e2 [-> (new & G & I & P & C)]. cbv zeta.
  apply wp_get_channel; [apply Hs | apply channel_of_range |]. intros ch Hch. cbn [vars] in Hch.
  case_bool_decide as Hw.
  { split; [done |]. exists m, (client ch). split; [done |]. unfold owners. rewrite list_lookup_fmap, Hch. simpl. by rewrite Hw. }
  case_bool_decide as Hfree.
  - pose proof (flows_into_slot (Sys (vars s) e1) m l new e2 ch Hb Hin G I P C Hch Hfree) as F2.
    apply wp_upd_var. cbn [vars world].
    set (d2 := set_channels _ (vars s)) in *.
    eapply wp_meanwhile with (P := λ _ _, True).
    { eapply wp_mono; [apply wake_law | by intros | done]. }
    intros _ e3 F3 _. cbn [vars world] in *.
    assert (handles s (Sys d2 e3)) as Hh.
    { split; [by do 2 (etransitivity; [eassumption |]) | apply owners_alter]. }
    eapply wp_mono.
    + apply (IH (Sys d2 e3)).
      * by apply Hh.
      * done.
      * unfold free in *. simpl in *. rewrite (free_alter _ (Z.to_nat (channel_of m)) ch (payload_of m)) in Hf; [lia | done | done |].
        by apply expected_payload.
    + intros ? s' [H Hd]. split; [by etransitivity |]. eapply drained_later; [done | apply Hh | done].
    + intros r [-> Hu]. split; [done |]. unfold unclaimed in *. simpl in Hu. unfold d2 in Hu.
      by rewrite owners_alter in Hu.
  - unfold wp, upd_var, modify. cbn [vars world]. split.
    + split; [|done]. etransitivity; [exact F1 |].
      apply (flows_into_blocking (Sys (vars s) e1) m l new e2 Hb Hin G I P C).
    + right. cbn [vars]. split; [by apply expected_not_0 |].
      change (slot (vars s) (channel_of m) ≠ []). unfold slot. rewrite Hch. by rewrite bool_decide_eq_true_2.
Qed.

(** The message that blocked found its channel full again. *)
Definition still_blocked d (r : stop) : Prop :=
  r = Brk 4 ∧ blocking_message d ≠ 0 ∧ slot d (channel_of (blocking_message d)) ≠ [].

Lemma deliver_blocking_message_ok s :
  sorted s →
  wp deliver_blocking_message (λ _ s', handles s s' ∧ blocking_message (vars s') = 0) (still_blocked (vars s)) s.
Proof.
  intros Hs. unfold deliver_blocking_message. apply wp_get_var, wp_when; intros Hb.
  2: { apply bool_decide_eq_false, dec_stable in Hb. by split. }
  apply bool_decide_eq_true in Hb. apply wp_get_channel; [apply Hs | apply channel_of_range |].
  intros ch Hch. case_bool_decide as Hfree.
  - pose proof (flows_unblock s ch Hb Hch Hfree) as F.
    apply wp_upd_var, wp_upd_var. cbn [vars world].
    apply (wp_last_meanwhile _ _ _ (Sys _ _)); [apply wake_law |]. intros _ e1 F1. split; [|done]. split.
    + etransitivity; [exact F | exact F1].
    + apply (owners_alter (vars s)).
  - apply wp_halt. split; [done |]. split; [done |]. unfold slot. rewrite Hch.
    by rewrite bool_decide_eq_true_2.
Qed.

(** One more access, that takes nothing out of the FIFO *)
Lemma handled_last {A} s d e (m : M E A) v B :
  handles s (Sys d e) → (Z.land v 0x10 ≠ 0 → drained s (Sys d e)) →
  wp m (λ _, meanwhile e) (λ _, False) e →
  wp (ask m) (λ _ s', handles s s' ∧ (Z.land v 0x10 ≠ 0 → drained s s')) B (Sys d e).
Proof.
  intros H D Hm. apply wp_ask. eapply wp_mono; [exact Hm | | done]. intros ? e' He. split.
  - apply (handles_world s d e); [by apply flows_meanwhile | done].
  - intros Hv. eapply drained_meanwhile; [exact He | by apply D].
Qed.

Lemma handle_pending_ok v s :
  sorted s →
  wp (handle_pending v) (λ _ s', handles s s' ∧ (Z.land v 0x10 ≠ 0 → drained s s')) (λ r, no_client (vars s) r ∨ still_blocked (vars s) r) s.
Proof.
  intros Hs. unfold handle_pending.
  apply (wp_seq _ _ (λ _ s', handles s s' ∧ (Z.land v 0x10 ≠ 0 → drained s s'))
    (λ r, no_client (vars s) r ∨ still_blocked (vars s) r)); [|done|].
  - apply wp_when; [intros _ | intros Hv%bool_decide_eq_false; by split].
    eapply wp_seq; [by apply deliver_blocking_message_ok | by right |].
    intros _ s2 [H12 Hb2]. assert (sorted s2) as Hs2 by by apply H12.
    eapply wp_seq; [apply drain_ok; [done | done |] | |].
    + pose proof (free_bound _ Hs2). unfold drain_fuel. lia.
    + intros r [-> Hu]. left. split; [done |]. destruct Hu as (m & cl & Hm & Hu). exists m, cl. split; [done |].
      by destruct H12 as [_ <-].
    + intros ? s3 [H3 D3]. assert (handles s s3) as H13 by by etransitivity.
      apply (drained_later s) in D3; [| done | apply H12]. destruct s3 as [d3 e3].
      apply wp_get_var, wp_when; [|done]. intros _. apply handled_last; [done | done | apply config_law].
  - intros ? [d3 e3] [H3 D3]. apply wp_get_var, wp_when; [|done]. intros _. apply handled_last; [done | done | apply wake_law].
Qed.

(** The device says that there is a message. *)
Definition message_pending s : Prop :=
  ∃ v e1, device_read (Mailbox 0 config) (world s) = Ok v e1 ∧ Z.land v 0x10 ≠ 0.

(** The handler always ends, without losing or reordering a message; and if there is one it empties
    the FIFO or blocks. *)
Lemma mailbox_interrupt_drains s :
  sorted s →
  wp mailbox_interrupt (λ _ s', handles s s' ∧ (message_pending s → drained s s'))
    (λ r, no_client (vars s) r ∨ still_blocked (vars s) r) s.
Proof.
  intros Hs. unfold mailbox_interrupt. apply wp_bind, wp_ask. pose proof (pending_law (world s)) as Hl. unfold wp at 1 in Hl.
  unfold wp at 1. destruct (device_read (Mailbox 0 config) (world s)) as [v e1|] eqn:Er; [| done]. destruct Hl as [Hm _].
  assert (handles s (Sys (vars s) e1)) as H1 by (split; [destruct s; by apply flows_meanwhile | done]).
  eapply wp_mono; [apply handle_pending_ok, H1, Hs | | done]. intros ? s' [H D]. split; [by etransitivity |].
  intros (v' & e' & Er' & Hv). rewrite Er in Er'. injection Er' as <- <-. eapply drained_later; [done | apply H1 | by apply D].
Qed.

Lemma mailbox_interrupt_ok s :
  sorted s →
  wp mailbox_interrupt (λ _, handles s) (λ r, no_client (vars s) r ∨ still_blocked (vars s) r) s.
Proof. intros Hs. eapply wp_mono; [by apply mailbox_interrupt_drains | by intros ? ? [] | done]. Qed.

(** *** Deliveries *)

(** The client of channel [c], which the thread [w] serves, has been passed the message [m],
    the first that it had not seen. *)
Record delivers s w c m s' : Prop := {
  de_sorted : sorted s';
  de_owners : owners (vars s') = owners (vars s);
  de_call : ∃ cl, owners (vars s) !! Z.to_nat c = Some (w, cl) ∧ calls (world s') = calls (world s) ++ [(cl, m)];
  de_pending : ∃ new, posted (world s') = posted (world s) ++ new ∧
    ∀ c', is_channel c' →
      pending s c' ++ for_channel c' new = (if decide (c = c') then [m] else []) ++ pending s' c';
}.

Lemma delivers_then_flows s w c m d e e' :
  delivers s w c m (Sys d e) → flows (Sys d e) (Sys d e') → delivers s w c m (Sys d e').
Proof.
  intros [H1 H2 (cl & Ho & Hc) (new & Hp & Hq)] HF. destruct (HF H1) as (H1' & _ & C & new' & P & Q).
  simpl in *. split; [done | done | |].
  - exists cl. split; [done |]. simpl. by rewrite C.
  - exists (new ++ new'). simpl. split; [by rewrite P, Hp, app_assoc |]. intros c' Hc'.
    rewrite for_channel_app, app_assoc, Hq, Q by done. by rewrite app_assoc.
Qed.

Lemma delivers_slot s c ch new e' :
  sorted s → is_channel c → channels (vars s) !! Z.to_nat c = Some ch → received_message ch ≠ 0 →
  Forall expected new → inbox e' = inbox (world s) ++ new → posted e' = posted (world s) ++ new →
  calls e' = calls (world s) ++ [(client ch, received_message ch)] →
  delivers s (waiting_thread ch) c (received_message ch)
    (Sys (set_channels (alter (set_received_message 0) (Z.to_nat c) (channels (vars s))) (vars s)) e').
Proof.
  intros [H1 H2 H3] Hc Hch Hm Hn Hi Hp Hcl. split.
  - split; [simpl; by rewrite length_alter | | done]. simpl. rewrite Hi. by apply Forall_app.
  - apply owners_alter.
  - exists (client ch). split; [|done]. unfold owners. by rewrite list_lookup_fmap, Hch.
  - exists new. split; [done |]. intros c' Hc'. unfold pending. cbn [vars world].
    rewrite (slot_alter _ _ _ _ ch) by done. rewrite Hi, for_channel_app. simpl.
    case_decide as E1; [|by rewrite <- !app_assoc]. subst c'. unfold slot. rewrite Hch.
    rewrite bool_decide_eq_true_2 by done. by rewrite <- !app_assoc.
Qed.

(** A scan delivers the message of the first channel of this thread that has one. *)
Definition idle_channel (this_thread : Z) d c : Prop :=
  ∀ ch, channels d !! Z.to_nat c = Some ch → waiting_thread ch = this_thread → received_message ch = 0.

Lemma pump_scan_ok n i this_thread last_channel s :
  sorted s → is_channel last_channel →
  wp (pump_scan n i this_thread last_channel)
    (λ c s', is_channel c ∧
       ((s' = s ∧ c = last_channel ∧
         ∀ j, i ≤ j < i + Z.of_nat n → idle_channel this_thread (vars s) ((last_channel + j) mod 16)) ∨
        ∃ m, delivers s this_thread c m s')) (λ _, False) s.
Proof.
  intros Hs Hl. revert i. induction n as [|n IH]; intros i; cbn [pump_scan]; cbv zeta.
  { apply wp_ret. split; [done |]. left. split; [done |]. split; [done |]. intros j Hj. lia. }
  assert (is_channel ((last_channel + i) mod 16)) as Hc by (apply Z.mod_pos_bound; lia).
  set (c := (last_channel + i) mod 16) in *.
  apply wp_get_channel; [apply Hs | done |]. intros ch Hch.
  destruct (_ && _) eqn:Hb.
  - apply andb_true_iff in Hb as [Hw%bool_decide_eq_true Hm%bool_decide_eq_true].
    apply wp_upd_var. cbn [vars world]. apply wp_bind, wp_ask. cbn [vars world].
    eapply wp_mono; [apply incoming_law | | done]. intros ? e1 (new & G & I & P & C).
    pose proof (delivers_slot s c ch new e1 Hs Hc Hch Hm G I P C) as Hd. apply wp_get_var.
    apply (wp_seq _ _ (λ _ s', delivers s (waiting_thread ch) c (received_message ch) s') (λ _, False)); [|done|].
    + apply wp_when; [|done]. intros _. apply (wp_last_meanwhile _ _ _ (Sys _ _)); [apply config_law |].
      intros _ e2 F. by eapply delivers_then_flows.
    + intros ? s' Hd'. apply wp_ret. split; [done |]. right. rewrite <- Hw. by eexists.
  - eapply wp_mono; [apply (IH (i + 1)) | | done]. intros c' s' [Hc' [(-> & -> & Hj)|Hd]]; split; try done.
    + left. split; [done |]. split; [done |]. intros j Hj'. destruct (decide (j = i)) as [->|].
      * intros ch' Hch' Hw. fold c in Hch'. rewrite Hch in Hch'. injection Hch' as <-.
        rewrite bool_decide_eq_true_2 in Hb by done. by apply bool_decide_eq_false, dec_stable in Hb.
      * apply Hj. lia.
    + by right.
Qed.

(** *** Requests of other maps *)
Lemma flows_same_slots d d' e :
  received_message <$> channels d' = received_message <$> channels d → blocking_message d' = blocking_message d →
  flows (Sys d e) (Sys d' e).
Proof.
  intros Hr Hb [H1 H2 H3].
  assert (length (channels d') = length (channels d)) as Hl.
  { rewrite <- (length_fmap received_message), Hr. apply length_fmap. }
  split; [split; simpl in *; by rewrite ?Hl, ?Hb |]. split; [done |]. split; [done |]. exists [].
  split; [by rewrite app_nil_r |]. intros c _. rewrite app_nil_r. unfold pending. simpl. f_equal; [|f_equal].
  - unfold slot. assert (received_message <$> channels d' !! Z.to_nat c =
      received_message <$> channels d !! Z.to_nat c) as He by by rewrite <- !list_lookup_fmap, Hr.
    destruct (channels d' !! _), (channels d !! _); simplify_eq/=; by rewrite ?He.
  - unfold blocked. by rewrite Hb.
Qed.

Lemma fmap_alter_same {A B} (f : A → A) (g : A → B) i (l : list A) :
  (∀ x, g (f x) = g x) → g <$> alter f i l = g <$> l.
Proof.
  intros Hfg. revert i. induction l as [|x l IH]; intros [|i]; [done.. | |]; cbn; f_equal; [apply Hfg | apply IH].
Qed.

Lemma fmap_alter_set {A B} (f : A → A) (g : A → B) i y (l : list A) :
  (∀ x, l !! i = Some x → g (f x) = y) → g <$> alter f i l = <[i := y]> (g <$> l).
Proof.
  revert i. induction l as [|x l IH]; intros [|i] Hy; [done.. | |]; cbn; f_equal; [by apply Hy | by apply IH].
Qed.

Definition same_owners s s' : Prop := flows s s' ∧ owners (vars s') = owners (vars s).

Lemma wp_upd_channel i f (Q : unit → sys mailboxes E → Prop) B s :
  (∀ ch, received_message (f ch) = received_message ch) →
  (∀ s', flows s s' → s' = Sys (set_channels (alter f (Z.to_nat i) (channels (vars s))) (vars s)) (world s) →
         Q () s') →
  wp (upd_channel i f) Q B s.
Proof.
  intros Hf H. apply H; [|done]. destruct s as [d e].
  apply flows_same_slots; [|done]. by apply fmap_alter_same.
Qed.

Lemma claim_channel_lock_ok c s :
  is_channel c → sorted s →
  wp (claim_channel_lock c) (λ _ s', flows s s' ∧ owners (vars s') = owners (vars s)) (λ r, r = Spin 146) s.
Proof.
  intros Hc Hs. unfold claim_channel_lock. apply wp_get_channel; [apply Hs | done |]. intros ch Hch.
  apply wp_bind, wp_when; [done |]. intros _. apply wp_upd_channel; [done |]. intros s' F ->.
  split; [done |]. by apply fmap_alter_same.
Qed.

Lemma release_channel_lock_ok c s B :
  wp (release_channel_lock c) (λ _ s', flows s s' ∧ owners (vars s') = owners (vars s)) B s.
Proof. apply wp_upd_channel; [done |]. intros s' F ->. split; [done |]. by apply fmap_alter_same. Qed.

(** [register_client] gives an unowned channel to the client, or raises an exception. *)
Lemma register_client_ok c cl s :
  is_channel c → sorted s →
  wp (MBOX__GPU_MAILBOX__register_client c cl)
    (λ r s', flows s s' ∧
       ((owners (vars s') = owners (vars s) ∧ r ≠ ReturnNothing) ∨
        (r = ReturnNothing ∧ owners (vars s) !! Z.to_nat c = Some (0, 0) ∧
         ∃ w, w ≠ 0 ∧ owners (vars s') = <[Z.to_nat c := (w, cl)]> (owners (vars s)))))
    (λ r, r = Spin 146) s.
Proof.
  intros Hc Hs. unfold MBOX__GPU_MAILBOX__register_client.
  eapply wp_seq; [by apply claim_channel_lock_ok | done |]. intros _ s1 [F1 O1].
  assert (sorted s1) as Hs1 by by apply F1. apply wp_get_channel; [apply Hs1 | done |]. intros ch Hch.
  assert (owners (vars s) !! Z.to_nat c = Some (waiting_thread ch, client ch)) as Ho.
  { rewrite <- O1. unfold owners. by rewrite list_lookup_fmap, Hch. }
  case_bool_decide as Hcl; [|case_bool_decide as Hw].
  1-2: eapply wp_seq; [apply (release_channel_lock_ok _ _ (λ _, False)) | done |]; intros _ s2 [F2 O2];
    apply wp_ret; split; [by etransitivity | left; split; [congruence | done]].
  rewrite Hw, Hcl in Ho.
  apply wp_bind, wp_upd_channel; [done |]. intros s2 F2 E2. apply wp_get_var.
  apply (wp_seq _ _ (λ _ s', flows s2 s' ∧ channels (vars s') = channels (vars s2) ∧ pump_thread (vars s') ≠ 0)
    (λ _, False)); [|done|].
  { apply wp_when; intros Hp; [|apply bool_decide_eq_false in Hp; by split].
    eapply (wp_bind (ask create_thread)), wp_ask, wp_mono; [apply create_law | | done].
    intros t e3 (Ht & Ht0 & Hm). unfold wp, upd_var, modify. simpl. split; [|split; [done |]].
    - destruct s2 as [d2 e2]. etransitivity; [by apply flows_meanwhile |]. by apply flows_same_slots.
    - by rewrite u32_id. }
  intros _ s3 (F3 & C3 & P3). apply wp_get_var, wp_bind, wp_upd_channel; [done |]. intros s4 F4 E4.
  eapply wp_seq; [apply (release_channel_lock_ok _ _ (λ _, False)) | done |]. intros _ s5 [F5 O5]. apply wp_ret.
  split; [by repeat (etransitivity; [eassumption |])|]. right. split; [done |]. split; [done |].
  exists (pump_thread (vars s3)). split; [done |]. rewrite O5, <- O1. subst s4 s2. unfold owners. simpl in *.
  rewrite C3, list_alter_alter_eq. by apply fmap_alter_set.
Qed.

(** [queue_message] leaves the incoming messages alone. *)
Lemma wait_for_room_ok polls this_thread s :
  wp (wait_for_room polls this_thread) (λ _, same_owners s) (λ r, r = Spin 185) s.
Proof.
  revert s. induction polls as [|polls IH]; intros s; [done |]. cbn [wait_for_room].
  eapply wp_meanwhile with (P := λ _ _, True).
  { eapply wp_mono; [apply room_law | by intros | done]. }
  intros v e1 F1 _. case_bool_decide; [|apply wp_ret; by split].
  apply wp_upd_var. eapply wp_meanwhile with (P := λ _ _, True).
  { eapply wp_mono; [apply sleep_law | by intros | done]. }
  intros _ e2 F2 _. eapply wp_mono; [apply IH | | done]. intros _ s' [F3 O3]. split; [|done].
  etransitivity; [exact F1 |]. etransitivity; [|exact F3]. etransitivity; [|exact F2]. by apply flows_same_slots.
Qed.

Lemma queue_message_ok polls this_thread c m s :
  is_channel c → sorted s →
  wp (MBOX__GPU_MAILBOX__queue_message polls this_thread c m) (λ _, same_owners s) (λ r, ∃ l, r = Spin l) s.
Proof.
  intros Hc Hs. unfold MBOX__GPU_MAILBOX__queue_message. apply wp_get_channel; [apply Hs | done |]. intros ch Hch.
  case_bool_decide; [by apply wp_ret |].
  eapply wp_meanwhile with (P := λ _ _, True).
  { eapply wp_mono; [apply config_law | by intros | done]. }
  intros _ e1 F1 _. eapply wp_seq; [apply wait_for_room_ok | by intros r ->; eexists |].
  intros _ [d2 e2] [F2 O2]. apply wp_upd_var. cbn [vars world].
  eapply wp_meanwhile with (P := λ _ _, True).
  { eapply wp_mono; [apply wake_law | by intros | done]. }
  intros _ e3 F3 _. cbn [vars world] in *.
  apply wp_bind, wp_ask. eapply wp_mono; [apply wait_law | | done]. intros ? e4 M4. cbn [vars] in *.
  eapply wp_meanwhile with (P := λ _ _, True).
  { eapply wp_mono; [apply outbox_law | by intros | done]. }
  intros _ e5 F5 _. apply wp_ret. split; [|exact O2].
  etransitivity; [exact F1 |]. etransitivity; [exact F2 |].
  etransitivity; [by eapply (flows_same_slots d2 (set_blocked_sending_thread 0 d2)) |].
  etransitivity; [exact F3 |]. etransitivity; [by apply flows_meanwhile | exact F5].
Qed.

(** *** Every order of handlers *)

(** A step, with the calls it makes: channel, client and message. *)
Inductive mailbox_step : sys mailboxes E → list (Z * Z * Z) → sys mailboxes E → Prop :=
  | step_gpu d e e' : meanwhile e e' → mailbox_step (Sys d e) [] (Sys d e')
  | step_interrupt s s' : mailbox_interrupt s = Ok () s' → mailbox_step s [] s'
  | step_pump this_thread last_channel s c s' new :
      this_thread ≠ 0 → is_channel last_channel → pump_one this_thread last_channel s = Ok c s' →
      calls (world s') = calls (world s) ++ new →
      mailbox_step s ((λ p, (c, p.1, p.2)) <$> new) s'
  | step_register c cl s r s' :
      is_channel c → cl ≠ 0 → MBOX__GPU_MAILBOX__register_client c cl s = Ok r s' → mailbox_step s [] s'
  | step_queue polls this_thread c m s r s' :
      is_channel c → MBOX__GPU_MAILBOX__queue_message polls this_thread c m s = Ok r s' → mailbox_step s [] s'.

Inductive mailbox_run (s0 : sys mailboxes E) : list (Z * Z * Z) → sys mailboxes E → Prop :=
  | run_nil : mailbox_run s0 [] s0
  | run_snoc ls s l s' : mailbox_run s0 ls s → mailbox_step s l s' → mailbox_run s0 (ls ++ l) s'.

Definition starts s : Prop :=
  vars s = initial_mailboxes ∧ inbox (world s) = [] ∧ posted (world s) = [] ∧ calls (world s) = [].

(** The messages that the calls [ls] passed on for channel [c]. *)
Definition passed_on c (ls : list (Z * Z * Z)) : list Z := snd <$> filter (λ l, l.1.1 = c) ls.

(** What holds after the calls [ls]. *)
Record accounts s (ls : list (Z * Z * Z)) : Prop := {
  ac_sorted : sorted s;
  ac_calls : calls (world s) = (λ l, (l.1.2, l.2)) <$> ls;
  ac_fifo : ∀ c, is_channel c → for_channel c (posted (world s)) = passed_on c ls ++ pending s c;
  ac_owned : ∀ (c : nat) w cl, owners (vars s) !! c = Some (w, cl) → w ≠ 0 → cl ≠ 0;
  ac_client : ∀ l, l ∈ ls → is_channel l.1.1 ∧ l.1.2 ≠ 0 ∧
                ∃ w, owners (vars s) !! Z.to_nat l.1.1 = Some (w, l.1.2);
}.

Lemma passed_on_app c ls1 ls2 : passed_on c (ls1 ++ ls2) = passed_on c ls1 ++ passed_on c ls2.
Proof. unfold passed_on. by rewrite filter_app, fmap_app. Qed.

Lemma accounts_flow s s' ls : accounts s ls → same_owners s s' → accounts s' ls.
Proof.
  intros [H1 H2 H3 H4 H5] [F O]. destruct (F H1) as (H1' & _ & C & new & P & Q). split; rewrite ?O; try done.
  - by rewrite C.
  - intros c Hc. by rewrite P, Q, for_channel_app, H3, app_assoc by done.
Qed.

Lemma accounts_pump this_thread last_channel s c s' new ls :
  accounts s ls → this_thread ≠ 0 → is_channel last_channel → pump_one this_thread last_channel s = Ok c s' →
  calls (world s') = calls (world s) ++ new →
  accounts s' (ls ++ ((λ p, (c, p.1, p.2)) <$> new)).
Proof.
  intros Ha Ht Hl Hp Hn. pose proof Ha as [H1 H2 H3 H4 H5].
  pose proof (wp_ok _ _ _ _ _ _ (pump_scan_ok 17 0 this_thread last_channel s H1 Hl) Hp) as [Hc Hq].
  destruct Hq as [(-> & _ & _)|(m & [D1 D2 (cl & Ho & Hcl) (new' & P & Q)])].
  { rewrite <- (app_nil_r (calls _)) in Hn at 1. apply app_inv_head in Hn as <-. by rewrite app_nil_r. }
  rewrite Hcl in Hn. apply app_inv_head in Hn as <-. cbn. split.
  - done.
  - by rewrite Hcl, H2, fmap_app.
  - intros c' Hc'. rewrite P, for_channel_app, H3, <- app_assoc, Q by done.
    rewrite passed_on_app, <- app_assoc. f_equal. unfold passed_on. rewrite filter_cons. simpl.
    case_decide as Ec; by rewrite ?decide_True, ?decide_False by done.
  - by rewrite D2.
  - intros l [Hin|Hin]%elem_of_app; rewrite D2; [by apply H5 |].
    apply list_elem_of_singleton in Hin as ->. simpl. split; [done |].
    split; [by eapply H4 |]. by exists this_thread.
Qed.

Lemma accounts_register s s' c w cl ls :
  accounts s ls → flows s s' → is_channel c → cl ≠ 0 → owners (vars s) !! Z.to_nat c = Some (0, 0) →
  owners (vars s') = <[Z.to_nat c := (w, cl)]> (owners (vars s)) → accounts s' ls.
Proof.
  intros [H1 H2 H3 H4 H5] F Hc Hcl Hfree O. destruct (F H1) as (H1' & _ & C & new & P & Q). split.
  - done.
  - by rewrite C.
  - intros c' Hc'. by rewrite P, Q, for_channel_app, H3, app_assoc by done.
  - intros i w' cl' Hi. rewrite O in Hi. apply list_lookup_insert_Some in Hi as [(_ & [= <- <-] & _)|[_ Hi]]; [done |].
    by eapply H4.
  - intros l Hin. destruct (H5 l Hin) as (Hl & Hn & w' & Hw). split; [done |]. split; [done |]. exists w'.
    rewrite O, list_lookup_insert_ne; [done |]. intros Heq. rewrite <- Heq, Hfree in Hw. congruence.
Qed.

Lemma accounts_step s l s' ls : accounts s ls → mailbox_step s l s' → accounts s' (ls ++ l).
Proof.
  intros Ha Hstep. pose proof (ac_sorted _ _ Ha) as Hs.
  destruct Hstep as [d e e' Hm|s s' Hi|t last s c s' new Ht Hl Hp Hn|c cl s r s' Hc Hcl Hr|p t c m s r s' Hc Hq].
  - rewrite app_nil_r. eapply accounts_flow; [done |]. split; [by apply flows_meanwhile | done].
  - rewrite app_nil_r. eapply accounts_flow; [done |].
    exact (wp_ok _ _ _ _ _ _ (mailbox_interrupt_ok s Hs) Hi).
  - by eapply accounts_pump.
  - rewrite app_nil_r. destruct (wp_ok _ _ _ _ _ _ (register_client_ok c cl s Hc Hs) Hr)
      as (F & [[O _]|(_ & Hfree & w & _ & O)]).
    + eapply accounts_flow; [done |]. by split.
    + by eapply accounts_register.
  - rewrite app_nil_r. eapply accounts_flow; [done |].
    exact (wp_ok _ _ _ _ _ _ (queue_message_ok p t c m s Hc Hs) Hq).
Qed.

Lemma accounts_start s : starts s → accounts s [].
Proof.
  destruct s as [d e]. intros (Hd & Hi & Hp & Hc). simpl in *. subst d. split; simpl.
  - split; simpl; [done | rewrite Hi; by apply Forall_nil | by left].
  - by rewrite Hc.
  - intros c _. unfold pending. simpl. rewrite Hi, Hp.
    assert (slot initial_mailboxes c = []) as ->; [|done]. unfold slot, initial_mailboxes. cbn [channels].
    destruct (_ !! _) as [ch|] eqn:Hch; [|done]. by apply lookup_replicate in Hch as [-> _].
  - intros c w cl Ho. unfold owners, initial_mailboxes in Ho. cbn [channels] in Ho. rewrite fmap_replicate in Ho.
    by apply lookup_replicate in Ho as [[= -> ->] _].
  - intros l Hl. by apply elem_of_nil in Hl.
Qed.

Lemma accounts_run s0 ls s : starts s0 → mailbox_run s0 ls s → accounts s ls.
Proof. intros H0. induction 1; [by apply accounts_start | by eapply accounts_step]. Qed.

(** C18: every channel is a FIFO.  In whatever order the GPU posts messages, interrupts are
    taken, the pump thread makes its rounds and clients register and send, what has been
    passed on for a channel, followed by what still waits for it, is what the GPU posted for
    it; and each message went to the client that registered for its channel. *)
Theorem channels_are_fifos s0 ls s :
  starts s0 → mailbox_run s0 ls s →
  calls (world s) = (λ l, (l.1.2, l.2)) <$> ls ∧
  (∀ c, is_channel c → for_channel c (posted (world s)) = passed_on c ls ++ pending s c) ∧
  (∀ l, l ∈ ls → ∃ w, owners (vars s) !! Z.to_nat l.1.1 = Some (w, l.1.2)).
Proof.
  intros H0 Hr. destruct (accounts_run s0 ls s H0 Hr) as [_ H2 H3 _ H5]. split; [done |]. split; [done |].
  intros l Hl. by apply H5.
Qed.

(** C35: the interrupt handler ends, however many messages the GPU posts while it runs.  When it
    returns no message is lost or out of its place; and if the device said that there was one, either nothing
    blocks and all that is in the FIFO was posted after the handler began, or a message has been
    kept that found its channel full.  It stops the driver only for a message on a channel that
    nobody claimed, or when the message that blocked before still finds its channel full. *)
Theorem mailbox_interrupt_ends s0 ls s :
  starts s0 → mailbox_run s0 ls s →
  match mailbox_interrupt s with
  | Ok _ s' =>
      (∀ c, is_channel c → ∃ new, pending s' c = pending s c ++ for_channel c new) ∧
      (message_pending s →
         blocking_message (vars s') = 0 ∧ (∃ old, posted (world s') = posted (world s) ++ old ++ inbox (world s')) ∨
         blocking_message (vars s') ≠ 0 ∧ slot (vars s') (channel_of (blocking_message (vars s'))) ≠ [])
  | Stop r _ => (r = Brk 8 ∧ unclaimed (vars s)) ∨
                (r = Brk 4 ∧ slot (vars s) (channel_of (blocking_message (vars s))) ≠ [])
  end.
Proof.
  intros H0 Hr. pose proof (accounts_run s0 ls s H0 Hr) as [Hs _ _ _ _].
  pose proof (mailbox_interrupt_drains s Hs) as H. unfold wp in H. destruct (mailbox_interrupt s) as [u s'|r s'].
  - destruct H as [[F _] D]. split; [| exact D]. destruct (F Hs) as (_ & _ & _ & new & _ & Hq).
    intros c Hc. exists new. by apply Hq.
  - destruct H as [H|(-> & _ & H)]; [by left | by right].
Qed.

(** *** A message that blocks *)

(** Nothing is taken out of the FIFO, and the message that blocks stays. *)
Definition untouched s s' : Prop :=
  blocking_message (vars s') = blocking_message (vars s) ∧
  ∃ new, posted (world s') = posted (world s) ++ new ∧ inbox (world s') = inbox (world s) ++ new.

#[local] Instance untouched_preorder : PreOrder untouched.
Proof.
  split.
  - intros s. split; [done |]. exists []. by rewrite !app_nil_r.
  - intros s1 s2 s3 (B1 & n1 & P1 & I1) (B2 & n2 & P2 & I2). split; [congruence |]. exists (n1 ++ n2).
    by rewrite P2, I2, P1, I1, !app_assoc.
Qed.

Lemma untouched_ask {A} (m : M E A) B :
  (∀ e, wp m (λ _ e', ∃ new, posted e' = posted e ++ new ∧ inbox e' = inbox e ++ new) B e) →
  preserves untouched (ask m).
Proof.
  intros Hm s a s' H. apply ask_inv in H as [Hv H]. split; [by rewrite Hv |].
  exact (wp_ok _ _ _ _ _ _ (Hm (world s)) H).
Qed.

Lemma untouched_meanwhile {A} (m : M E A) B :
  (∀ e, wp m (λ _, meanwhile e) B e) → preserves untouched (ask m).
Proof.
  intros Hm. apply untouched_ask with (B := B). intros e. eapply wp_mono; [apply Hm | | done].
  intros _ e' (new & _ & I & P & _). by exists new.
Qed.

Lemma untouched_var f :
  (∀ d, blocking_message (f d) = blocking_message d) → preserves untouched (upd_var f).
Proof. intros Hf s a s' [= <- <-]. split; [apply Hf |]. exists []. by rewrite !app_nil_r. Qed.

#[local] Hint Extern 1 (preserves untouched (get_var _)) => (apply preserves_gets; apply _) : preserves.

Lemma untouched_get_channel c : preserves untouched (get_channel c).
Proof. unfold get_channel. preserves. Qed.

#[local] Hint Extern 1 (preserves untouched (get_channel _)) => apply untouched_get_channel : preserves.
#[local] Hint Extern 1 (preserves untouched (upd_channel _ _)) => by apply untouched_var : preserves.
#[local] Hint Extern 1 (preserves untouched (upd_var _)) => by apply untouched_var : preserves.
#[local] Hint Extern 1 (preserves untouched (write (Mailbox 0 config) _)) =>
  (eapply untouched_meanwhile; intros; apply config_law) : preserves.
#[local] Hint Extern 1 (preserves untouched (write (Mailbox 1 value) _)) =>
  (eapply untouched_meanwhile; intros; apply outbox_law) : preserves.
#[local] Hint Extern 1 (preserves untouched (read (Mailbox 1 status))) =>
  (eapply untouched_meanwhile; intros; apply room_law) : preserves.
#[local] Hint Extern 1 (preserves untouched (ask (wake_thread _))) =>
  (eapply untouched_meanwhile; intros; apply wake_law) : preserves.
#[local] Hint Extern 1 (preserves untouched (ask wait_until_woken)) =>
  (eapply untouched_meanwhile; intros; apply wait_law) : preserves.
#[local] Hint Extern 1 (preserves untouched (ask (sleep_ms _))) =>
  (eapply untouched_meanwhile; intros; apply sleep_law) : preserves.

Lemma untouched_create_thread : preserves untouched (ask create_thread).
Proof.
  apply untouched_ask with (B := λ _, False). intros e. eapply wp_mono; [apply create_law | | done].
  intros t e' (_ & _ & new & _ & I & P & _). by exists new.
Qed.

Lemma untouched_incoming cl m : preserves untouched (ask (incoming_message cl m)).
Proof.
  apply untouched_ask with (B := λ _, False). intros e. eapply wp_mono; [apply incoming_law | | done].
  intros t e' (new & _ & I & P & _). by exists new.
Qed.
#[local] Hint Resolve untouched_create_thread untouched_incoming : preserves.

Lemma pump_scan_untouched n i t last : preserves untouched (pump_scan n i t last).
Proof. revert i. induction n as [|n IH]; intros i; cbn [pump_scan]; preserves. Qed.

Lemma register_untouched c cl : preserves untouched (MBOX__GPU_MAILBOX__register_client c cl).
Proof. unfold MBOX__GPU_MAILBOX__register_client, claim_channel_lock, release_channel_lock. preserves. Qed.

Lemma queue_untouched polls t c m : preserves untouched (MBOX__GPU_MAILBOX__queue_message polls t c m).
Proof.
  assert (preserves untouched (wait_for_room polls t)) as Hw.
  { induction polls as [|polls IH]; cbn [wait_for_room]; preserves. }
  unfold MBOX__GPU_MAILBOX__queue_message. preserves.
Qed.

Lemma posted_grows s l s' :
  sorted s → mailbox_step s l s' → ∃ new, posted (world s') = posted (world s) ++ new.
Proof.
  intros Hs Hstep.
  destruct Hstep as [d e e' (new & _ & _ & P & _)|s s' Hi|t last s c s' new Ht Hl Hp _|c cl s r s' Hc Hcl Hr|p t c m s r s' Hc Hq].
  - by exists new.
  - destruct (wp_ok _ _ _ _ _ _ (mailbox_interrupt_ok s Hs) Hi) as [F _].
    destruct (F Hs) as (_ & _ & _ & new & P & _). by exists new.
  - destruct (pump_scan_untouched _ _ _ _ _ _ _ Hp) as (_ & new' & P & _). by exists new'.
  - destruct (register_untouched _ _ _ _ _ Hr) as (_ & new & P & _). by exists new.
  - destruct (queue_untouched _ _ _ _ _ _ _ Hq) as (_ & new & P & _). by exists new.
Qed.

Lemma app_same_nil {A} (l new : list A) : l ++ new = l → new = [].
Proof. intros H. apply (app_inv_head l). by rewrite app_nil_r. Qed.

(** With an empty FIFO there is no interrupt, so the handler does not look at the message
    that blocks. *)
Lemma interrupt_stuck s s' :
  sorted s → inbox (world s) = [] → mailbox_interrupt s = Ok () s' → posted (world s') = posted (world s) →
  blocking_message (vars s') = blocking_message (vars s) ∧ inbox (world s') = [].
Proof.
  intros Hs Hin H Hp. unfold mailbox_interrupt in H. apply bind_ok_inv in H as (v & s1 & E1 & H).
  apply ask_inv in E1 as [Ev E1].
  destruct (wp_ok _ _ _ _ _ _ (pending_law (world s)) E1) as [M1 Hpend].
  assert (flows s s1) as F1.
  { destruct s as [d e], s1 as [d1 e1]. simpl in *. subst d1. by apply flows_meanwhile. }
  assert (sorted s1) as Hs1 by by apply F1.
  destruct (wp_ok _ _ _ _ _ _ (handle_pending_ok v s1 Hs1) H) as [[F2 _] _].
  destruct M1 as (n1 & _ & I1 & P1 & _). destruct (F2 Hs1) as (_ & _ & _ & n2 & P2 & _).
  rewrite P2, P1, <- app_assoc in Hp. apply app_same_nil, app_nil in Hp as [-> ->].
  rewrite Hin in I1. unfold handle_pending in H. apply bind_ok_inv in H as ([] & s2 & E2 & H).
  rewrite bool_decide_eq_false_2 in E2 by (intros Hv; by apply Hpend in Hv). injection E2 as <-.
  assert (untouched s1 s') as (B & n3 & P3 & I3).
  { revert H. set (m := _ ≫= _). assert (preserves untouched m) as Hm by (unfold m; preserves). apply Hm. }
  rewrite P2 in P3. apply app_inv_head in P3 as <-. rewrite B, Ev. split; [done |]. by rewrite I3, I1.
Qed.

Lemma stuck_step s l s' :
  sorted s → inbox (world s) = [] → mailbox_step s l s' → posted (world s') = posted (world s) →
  blocking_message (vars s') = blocking_message (vars s) ∧ inbox (world s') = [].
Proof.
  intros Hs Hin Hstep Hp.
  assert (∀ s s' : sys mailboxes E, inbox (world s) = [] → posted (world s') = posted (world s) → untouched s s' →
    blocking_message (vars s') = blocking_message (vars s) ∧ inbox (world s') = []) as Hu.
  { intros s1 s2 Hi1 Hp1 (B & new & P & I). rewrite P in Hp1. apply app_same_nil in Hp1 as ->. by rewrite I, Hi1. }
  destruct Hstep as [d e e' (new & _ & I & P & _)|s s' Hi|t last s c s' new Ht Hl Hpm _|c cl s r s' Hc Hcl Hr|p t c m s r s' Hc Hq].
  - apply Hu; [done | done |]. split; [done |]. by exists new.
  - by apply interrupt_stuck.
  - apply Hu; [done | done |]. by eapply pump_scan_untouched.
  - apply Hu; [done | done |]. by eapply register_untouched.
  - apply Hu; [done | done |]. by eapply queue_untouched.
Qed.

(** once a message blocks and the FIFO is empty, no order of interrupts, deliveries and
    requests gets it to its client, not even when its channel is free again: the handler
    looks at it only while the GPU has posted something else. *)
Theorem blocked_message_is_stuck s0 ls s ls' s' :
  starts s0 → mailbox_run s0 ls s → inbox (world s) = [] →
  mailbox_run s ls' s' → posted (world s') = posted (world s) →
  blocking_message (vars s') = blocking_message (vars s).
Proof.
  intros H0 Hr Hin Hr' Hp.
  assert (accounts s' (ls ++ ls') ∧ (∃ new, posted (world s') = posted (world s) ++ new) ∧
    (posted (world s') = posted (world s) →
     blocking_message (vars s') = blocking_message (vars s) ∧ inbox (world s') = [])) as (_ & _ & H); [|by apply H].
  clear Hp. induction Hr' as [|ls' s1 l s2 Hr' (Ha & [new Hn] & IH) Hstep].
  - rewrite app_nil_r. split; [by eapply accounts_run |]. split; [exists []; by rewrite app_nil_r | done].
  - pose proof (ac_sorted _ _ Ha) as Hs1. destruct (posted_grows s1 l s2 Hs1 Hstep) as [new2 Hn2].
    split; [rewrite app_assoc; by eapply accounts_step |].
    split; [exists (new ++ new2); by rewrite Hn2, Hn, app_assoc |]. intros Hp.
    rewrite Hn2, Hn, <- app_assoc in Hp. apply app_same_nil, app_nil in Hp as [-> ->].
    rewrite app_nil_r in Hn, Hn2. destruct (IH Hn) as [HB HI].
    destruct (stuck_step s1 l s2 Hs1 HI Hstep Hn2) as [HB2 HI2]. by rewrite HB2, HB.
Qed.
End fifo.

(** ** A GPU for examples *)
Record gpu : Type := Gpu {
  gpu_inbox : list Z; gpu_posted : list Z; gpu_on : bool; gpu_calls : list (Z * Z); gpu_outbox : list Z }.

Definition gpu_read (d : device) : M gpu Z := λ g,
  match d with
  | Mailbox 0 config =>
      Ok (if gpu_on g && bool_decide (gpu_inbox g ≠ []) then 0x11 else 0) g
  | Mailbox 0 status => Ok (if decide (gpu_inbox g = []) then 0x40000000 else 0) g
  | Mailbox 0 value =>
      Ok (default 0 (head (gpu_inbox g)))
        (Gpu (tail (gpu_inbox g)) (gpu_posted g) (gpu_on g) (gpu_calls g) (gpu_outbox g))
  | _ => Ok 0 g
  end.
Definition gpu_write (d : device) (v : Z) : M gpu unit := modify (λ g,
  match d with
  | Mailbox 0 config => Gpu (gpu_inbox g) (gpu_posted g) (bool_decide (v ≠ 0)) (gpu_calls g) (gpu_outbox g)
  | Mailbox 1 value => Gpu (gpu_inbox g) (gpu_posted g) (gpu_on g) (gpu_calls g) (v :: gpu_outbox g)
  | _ => g
  end).
Definition gpu_posts (m : Z) (g : gpu) : gpu :=
  Gpu (gpu_inbox g ++ [m]) (gpu_posted g ++ [m]) (gpu_on g) (gpu_calls g) (gpu_outbox g).

#[export] Instance gpu_devices : Devices gpu := { device_read := gpu_read; device_write := gpu_write }.
#[export] Instance gpu_world : MailboxWorld gpu := {
  mailbox_devices := gpu_devices;
  wake_thread _ := mret ();
  wait_until_woken := mret 0;
  sleep_ms _ := mret ();
  create_thread := mret 77;
  incoming_message c m := modify (λ g,
    Gpu (gpu_inbox g) (gpu_posted g) (gpu_on g) (gpu_calls g ++ [(c, m)]) (gpu_outbox g));
  interface_to_return i := mret (1000 + i);
}.

#[export] Instance gpu_laws : MailboxLaws gpu.
Proof.
  refine {| inbox := gpu_inbox; posted := gpu_posted; calls := gpu_calls;
            expected := λ m, is_u32 m ∧ payload_of m ≠ 0 |}; [done | ..].
  all: intros; unfold wp; simpl; try (exists []; by rewrite !app_nil_r).
  - split; [exists []; by rewrite !app_nil_r |]. destruct (gpu_on e); simpl; [|done].
    by case_bool_decide.
  - split; [exists []; by rewrite !app_nil_r |]. by case_decide.
  - rewrite H. split; [done |]. exists []. by rewrite !app_nil_r.
  - split; [done |]. split; [done |]. exists []. by rewrite !app_nil_r.
Defined.

Definition gpu_system : sys mailboxes gpu := Sys initial_mailboxes (Gpu [] [] true [] []).

Definition end_of {D A} (r : res (sys D gpu) A) : sys D gpu := match r with Ok _ s | Stop _ s => s end.
Definition and_posts (ms : list Z) (s : sys mailboxes gpu) : sys mailboxes gpu :=
  Sys (vars s) (foldl (λ g m, gpu_posts m g) (world s) ms).

(** Clients 501 and 502 register for channels 8 and 9. *)
Definition gpu_clients : sys mailboxes gpu :=
  end_of (MBOX__GPU_MAILBOX__register_client 9 502 (end_of (MBOX__GPU_MAILBOX__register_client 8 501 gpu_system))).

Lemma starts_gpu : starts gpu_system.
Proof. done. Qed.

Lemma run_clients : mailbox_run gpu_system [] gpu_clients.
Proof.
  apply (run_snoc _ [] (end_of (MBOX__GPU_MAILBOX__register_client 8 501 gpu_system)) []).
  - apply (run_snoc _ [] gpu_system []); [apply run_nil |]. by apply (step_register 8 501 _ ReturnNothing).
  - by apply (step_register 9 502 _ ReturnNothing).
Qed.

Lemma run_posts s0 ls (s : sys mailboxes gpu) ms :
  mailbox_run s0 ls s → Forall expected ms → mailbox_run s0 ls (and_posts ms s).
Proof.
  intros Hr Hms. rewrite <- (app_nil_r ls). eapply run_snoc; [exact Hr |]. destruct s as [d g].
  apply step_gpu. exists ms. split; [done |]. clear Hr. revert g. induction ms as [|m ms IH]; intros g.
  - simpl. by rewrite !app_nil_r.
  - apply Forall_cons in Hms as [_ Hms]. destruct (IH Hms (gpu_posts m g)) as (I & P & C). simpl in *.
    rewrite I, P, C, <- !app_assoc. done.
Qed.

Lemma run_interrupt s0 ls (s s' : sys mailboxes gpu) :
  mailbox_run s0 ls s → mailbox_interrupt s = Ok () s' → mailbox_run s0 ls s'.
Proof. intros Hr H. rewrite <- (app_nil_r ls). eapply run_snoc; [exact Hr |]. by apply step_interrupt. Qed.

(** Two messages for channel 8 with one for channel 9 between them: the second blocks. *)
Definition two_for_8 : list Z := [0x10008; 0x20009; 0x30008].
Definition gpu_blocked : sys mailboxes gpu := end_of (mailbox_interrupt (and_posts two_for_8 gpu_clients)).

Lemma expected_demo : Forall expected (two_for_8 ++ [0x40009]).
Proof. repeat constructor; vm_compute; done. Qed.

Lemma run_blocked : mailbox_run gpu_system [] gpu_blocked.
Proof.
  eapply run_interrupt; [apply run_posts; [apply run_clients |] |].
  - pose proof expected_demo as [H _]%Forall_app. exact H.
  - done.
Qed.

Lemma channels_are_fifos_witness :
  for_channel 8 two_for_8 = [0x10000; 0x30000] ∧
  for_channel 8 (posted (world gpu_blocked)) = passed_on 8 [] ++ pending gpu_blocked 8.
Proof.
  split; [done |]. destruct (channels_are_fifos _ _ _ starts_gpu run_blocked) as (_ & H & _).
  apply H. unfold is_channel. lia.
Defined.

Lemma mailbox_interrupt_ends_witness :
  message_pending (and_posts two_for_8 gpu_clients) ∧
  mailbox_interrupt (and_posts two_for_8 gpu_clients) = Ok () gpu_blocked ∧
  (blocking_message (vars gpu_blocked) ≠ 0 → slot (vars gpu_blocked) 8 ≠ []).
Proof.
  assert (E : mailbox_interrupt (and_posts two_for_8 gpu_clients) = Ok () gpu_blocked) by (vm_compute; reflexivity).
  assert (P : message_pending (and_posts two_for_8 gpu_clients)).
  { exists 0x11, (world (and_posts two_for_8 gpu_clients)). split; [vm_compute; reflexivity | done]. }
  split; [exact P |]. split; [exact E |]. intros Hb.
  pose proof (mailbox_interrupt_ends gpu_system [] (and_posts two_for_8 gpu_clients) starts_gpu
    (run_posts _ _ _ _ run_clients (proj1 (proj1 (Forall_app _ _ _) expected_demo)))) as H.
  rewrite E in H. destruct H as [_ D]. destruct (D P) as [[H0 _] | [_ H]]; [by destruct Hb | exact H].
Defined.

(** The pump delivers everything that has been received; the message that blocks stays. *)
Definition gpu_stuck : sys mailboxes gpu := end_of (pump_messages 5 77 0 gpu_blocked).

Lemma blocked_message_is_stuck_witness :
  blocking_message (vars gpu_blocked) = 0x30008 ∧
  slot (vars (end_of (pump_one 77 0 gpu_blocked))) 8 = [] ∧
  blocking_message (vars (end_of (pump_one 77 0 gpu_blocked))) = 0x30008.
Proof.
  split; [done |]. split; [done |].
  rewrite (blocked_message_is_stuck _ _ _ [(8, 501, 0x10000)] (end_of (pump_one 77 0 gpu_blocked))
    starts_gpu run_blocked); [done | done | | done].
  apply (run_snoc _ [] gpu_blocked [(8, 501, 0x10000)]); [apply run_nil |].
  apply (step_pump 77 0 _ 8 _ [(501, 0x10000)]); [lia | unfold is_channel; lia | done | done].
Defined.

(** a delivery on another channel switches the interrupt on while the message that
    blocks still finds its channel full; if the GPU has posted one more message, the next
    interrupt stops the driver. *)
Theorem early_interrupt_stops_driver :
  ∃ s : sys mailboxes gpu,
    mailbox_run gpu_system [(9, 502, 0x20000)] s ∧ gpu_on (world s) = true ∧
    ∃ s', mailbox_interrupt s = Stop (Brk 4) s'.
Proof.
  exists (end_of (pump_one 77 9 (and_posts [0x40009] gpu_blocked))). split; [|split; [done | by eexists]].
  apply (run_snoc _ [] (and_posts [0x40009] gpu_blocked) [(9, 502, 0x20000)]).
  - apply run_posts; [apply run_blocked |]. pose proof expected_demo as [_ H]%Forall_app. exact H.
  - apply (step_pump 77 9 _ 9 _ [(502, 0x20000)]); [lia | unfold is_channel; lia | done | done].
Qed.
