(* ===== verification/TagRequests.v ===== *)
(** * Requests to the GPU's property mailbox

    [drivers/pi3gpu/mailbox_properties.c]: threads send the addresses of their request
    buffers on mailbox channel 8 and wait; when the GPU returns a buffer, the thread that
    sent it is woken.  [outstanding_requests] is a queue in an array of 64 entries.

    [mailbox_tag_request] is in three parts, which end where the thread waits; [tag_step]
    interleaves the parts of any number of threads with the answers of the GPU.  The system
    driver, the mailbox driver and the kernel are the class [TagWorld].  The lock
    [outstanding_requests_lock] is only held inside a part, so it is always found free; the
    static [lock] of [mailbox_tag_request] is the thread that holds it, or 0.

    The theorems: the array always holds exactly the requests that wait for their answers,
    every answer finds its request and wakes the thread that sent it, and the queue never
    overflows; [flush_and_invalidate_cache] reaches every byte of the buffer. *)

From S2P Require Import Prelude GpuDevices.

(** ** What the driver uses *)
Class TagWorld (E : Type) : Type := {
  wake_thread : Z → M E unit;
  wait_until_woken : Z → M E unit;            (* the thread that waits *)
  physical_address_of : Z → M E Z;
  get_service : M E Z;                        (* "Pi GPU Mailboxes" *)
  claim_channel : Z → Z → M E Z;              (* manager, channel *)
  client_to_pass_to : Z → M E Z;
  register_client : Z → Z → M E unit;         (* mailbox, client *)
  queue_message : Z → Z → M E unit;           (* mailbox, message *)
}.

(** ** State *)
Record request : Type := Request { pa : Z; requesting_thread : Z }.
#[global] Instance request_eq_dec : EqDecision request.
Proof. solve_decision. Defined.

Record requests : Type := Requests {
  outstanding_requests : list request;
  requests_head : Z;
  requests_tail : Z;
  blocked_thread : Z;
  tag_lock : Z;
  mailbox : Z;
}.

Definition no_request : request := Request 0 0.
Definition number_of_requests : Z := 64.        (* numberof( outstanding_requests ) *)
Definition initial_requests : requests := Requests (replicate 64 no_request) 0 0 0 0 0.

Definition set_request (i : Z) (r : request) (d : requests) : requests :=
  Requests (<[Z.to_nat i := r]> (outstanding_requests d)) (requests_head d) (requests_tail d) (blocked_thread d)
    (tag_lock d) (mailbox d).
Definition set_head (v : Z) (d : requests) : requests :=
  Requests (outstanding_requests d) v (requests_tail d) (blocked_thread d) (tag_lock d) (mailbox d).
Definition set_tail (v : Z) (d : requests) : requests :=
  Requests (outstanding_requests d) (requests_head d) v (blocked_thread d) (tag_lock d) (mailbox d).
Definition set_blocked_thread (v : Z) (d : requests) : requests :=
  Requests (outstanding_requests d) (requests_head d) (requests_tail d) v (tag_lock d) (mailbox d).
Definition set_tag_lock (v : Z) (d : requests) : requests :=
  Requests (outstanding_requests d) (requests_head d) (requests_tail d) (blocked_thread d) v (mailbox d).
Definition set_mailbox (v : Z) (d : requests) : requests :=
  Requests (outstanding_requests d) (requests_head d) (requests_tail d) (blocked_thread d) (tag_lock d) v.

Definition next_outstanding_request (n : Z) : Z := u32 (n + 1) mod number_of_requests.

Definition tag_channel : Z := 8.

(** ** Operations *)
Section tags.
Context {E : Type} `{!TagWorld E}.

#[local] Abbreviation D := (M (sys requests E)).

Definition get_request (i : Z) : D request :=
  l ← get_var outstanding_requests;
  match l !! Z.to_nat i with Some r => mret r | None => halt (Fault i) end.

(** The body of the loop when the entry [i] is the request that the message answers. *)
Definition answer_request (i : Z) (r : request) : D unit :=
  _ ← ask (wake_thread (requesting_thread r));
  tail ← get_var requests_tail;
  _ ← when (bool_decide (i ≠ tail)) (t ← get_request tail; upd_var (set_request i t));
  _ ← upd_var (set_request tail no_request);
  _ ← upd_var (set_tail (next_outstanding_request tail));
  b ← get_var blocked_thread;
  when (bool_decide (b ≠ 0)) (_ ← upd_var (set_blocked_thread 0); ask (wake_thread b)).

(** [for (unsigned i = requests_tail; i != requests_head; i = next_outstanding_request( i ))],
    which meets every entry at most once. *)
Fixpoint find_request (n : nat) (i message : Z) : D unit :=
  head ← get_var requests_head;
  if bool_decide (i = head) then halt (Brk 5)
  else
    match n with
    | O => halt (Spin 58)
    | S n =>
        r ← get_request i;
        if bool_decide (requesting_thread r ≠ 0) && bool_decide (pa r = message) then answer_request i r
        else find_request n (next_outstanding_request i) message
    end.

Definition GPU_MAILBOX__GPU_MAILBOX_CLIENT__incoming_message (mbox message : Z) : D unit :=
  tail ← get_var requests_tail;
  find_request (Z.to_nat number_of_requests) tail message.

(** [if (mailbox.r == 0) { ... }] *)
Definition connect_mailbox : D unit :=
  m ← get_var mailbox;
  when (bool_decide (m = 0))
    (mailboxes ← ask get_service;
     m ← ask (claim_channel mailboxes tag_channel);
     _ ← upd_var (set_mailbox m);
     client ← ask (client_to_pass_to m);
     ask (register_client m client)).

(** [mailbox_tag_request] up to the place where it may wait for room in the queue: the
    physical address, and whether the queue is full. *)
Definition tag_request_begin (this_thread va : Z) : D (Z * bool) :=
  p ← ask (physical_address_of va);
  holder ← get_var tag_lock;
  _ ← guard_stop (bool_decide (holder ≠ 0)) (Spin 120);
  _ ← upd_var (set_tag_lock this_thread);
  _ ← connect_mailbox;
  tail ← get_var requests_tail;
  head ← get_var requests_head;
  let list_full := bool_decide (tail = next_outstanding_request head) in
  _ ← when list_full (upd_var (set_blocked_thread this_thread));
  mret (p, list_full).

(** From there to the place where it waits for its answer. *)
Definition tag_request_send (this_thread p : Z) : D unit :=
  head ← get_var requests_head;
  _ ← upd_var (set_request head (Request (u32 p) this_thread));
  _ ← upd_var (set_head (next_outstanding_request head));
  m ← get_var mailbox;
  _ ← ask (queue_message m p);
  upd_var (set_tag_lock 0).

(** The whole, with the waits; the cache is flushed before and after. *)
Definition mailbox_tag_request (this_thread va : Z) : D unit :=
  '(p, list_full) ← tag_request_begin this_thread va;
  _ ← when list_full (ask (wait_until_woken this_thread));
  _ ← tag_request_send this_thread p;
  ask (wait_until_woken this_thread).
End tags.

(** ** The cache *)

(** [while (length > 0) { dc civac, p; ... }]: the addresses cleaned.  [length] is an [int]
    of at most [2^31 - 1], and gets smaller by at least 1. *)
Fixpoint clean_lines (fuel : nat) (cache_line_size p length : Z) : option (list Z) :=
  if bool_decide (length > 0) then
    match fuel with
    | O => None
    | S fuel =>
        rest ← clean_lines fuel cache_line_size (u64 (p + Z.shiftl 1 cache_line_size))
                 (s32 (length - Z.shiftl 1 cache_line_size));
        Some (p :: rest)
    end
  else Some [].

(** [cache_line_size] is what [DCZID_EL0] holds. *)
Definition flush_and_invalidate_cache (cache_line_size start length : Z) : option (list Z) :=
  let mask := Z.shiftl 1 cache_line_size - 1 in
  let length := s32 (length + Z.land start mask) in
  clean_lines (Z.to_nat length) cache_line_size (Z.ldiff start mask) length.

(** ** The queue *)
Section queue.
Implicit Types (d : requests).

(** The [k]-th entry from the tail, and the number of entries. *)
Definition index_at d (k : nat) : Z := (requests_tail d + Z.of_nat k) mod 64.
Definition entry_at d (k : nat) : request := default no_request (outstanding_requests d !! Z.to_nat (index_at d k)).
Definition queue_length d : nat := Z.to_nat ((requests_head d - requests_tail d) mod 64).
Definition queue d : list request := entry_at d <$> seq 0 (queue_length d).

Record good_queue d : Prop := {
  gq_length : length (outstanding_requests d) = 64%nat;
  gq_head : 0 ≤ requests_head d < 64;
  gq_tail : 0 ≤ requests_tail d < 64;
}.

Lemma next_request_mod n : 0 ≤ n < 64 → next_outstanding_request n = (n + 1) mod 64.
Proof. intros Hn. unfold next_outstanding_request, number_of_requests. rewrite u32_id; [done |]. unfold is_u32. lia. Qed.

Lemma next_request_range n : 0 ≤ next_outstanding_request n < 64.
Proof. apply Z.mod_pos_bound. lia. Qed.

Lemma index_range d k : 0 ≤ index_at d k < 64.
Proof. apply Z.mod_pos_bound. lia. Qed.

Lemma index_next d k : next_outstanding_request (index_at d k) = index_at d (S k).
Proof.
  rewrite next_request_mod by apply index_range. unfold index_at. rewrite Zplus_mod_idemp_l. f_equal. lia.
Qed.

Lemma index_0 d : good_queue d → index_at d 0 = requests_tail d.
Proof. intros [_ _ Ht]. unfold index_at. rewrite Z.mod_small by lia. lia. Qed.

Lemma queue_length_bound d : (queue_length d < 64)%nat.
Proof. unfold queue_length. pose proof (Z.mod_pos_bound (requests_head d - requests_tail d) 64). lia. Qed.

Lemma index_head d : good_queue d → index_at d (queue_length d) = requests_head d.
Proof.
  intros [_ Hh Ht]. unfold index_at, queue_length.
  pose proof (Z.mod_pos_bound (requests_head d - requests_tail d) 64).
  rewrite Z2Nat.id by lia. rewrite Zplus_mod_idemp_r. rewrite Z.mod_small by lia. lia.
Qed.

(** Different places of the array, as long as they are less than 64 apart. *)
Lemma index_inj d j k : (j < 64)%nat → (k < 64)%nat → index_at d j = index_at d k → j = k.
Proof.
  unfold index_at. intros Hj Hk H. apply Nat2Z.inj.
  assert ((Z.of_nat j - Z.of_nat k) mod 64 = 0) as Hm.
  { replace (Z.of_nat j - Z.of_nat k) with
      ((requests_tail d + Z.of_nat j) - (requests_tail d + Z.of_nat k)) by lia.
    rewrite Zminus_mod, H, Z.sub_diag. done. }
  apply Z.mod_divide in Hm as [q Hq]; lia.
Qed.

Lemma length_queue d : length (queue d) = queue_length d.
Proof. unfold queue. by rewrite length_fmap, length_seq. Qed.

Lemma elem_of_queue d r : r ∈ queue d ↔ ∃ k, (k < queue_length d)%nat ∧ r = entry_at d k.
Proof.
  unfold queue. rewrite list_elem_of_fmap. split.
  - intros (k & -> & Hk%elem_of_seq). exists k. split; [lia | done].
  - intros (k & Hk & ->). exists k. split; [done |]. apply elem_of_seq. lia.
Qed.

Lemma lookup_request d k :
  good_queue d → outstanding_requests d !! Z.to_nat (index_at d k) = Some (entry_at d k).
Proof.
  intros [Hl _ _]. pose proof (index_range d k).
  destruct (lookup_lt_is_Some_2 (outstanding_requests d) (Z.to_nat (index_at d k))) as [r Hr]; [lia |].
  unfold entry_at. by rewrite Hr.
Qed.

(** The state after [answer_request]: the entry at the tail takes the place of the entry [k],
    and the tail moves on. *)
Definition answered d (k : nat) : requests :=
  let d1 := if decide (k = 0%nat) then d else set_request (index_at d k) (entry_at d 0) d in
  set_tail (next_outstanding_request (requests_tail d)) (set_request (requests_tail d) no_request d1).

Lemma answered_good d k : good_queue d → good_queue (answered d k).
Proof.
  intros [Hl Hh Ht]. unfold answered. case_decide; (split; simpl; [by rewrite ?length_insert | done | apply next_request_range]).
Qed.

Lemma answered_length d k : good_queue d → (k < queue_length d)%nat → queue_length d = S (queue_length (answered d k)).
Proof.
  intros [_ Hh Ht] Hk. assert (queue_length (answered d k) =
    Z.to_nat ((requests_head d - next_outstanding_request (requests_tail d)) mod 64)) as ->.
  { unfold answered. by case_decide. }
  unfold queue_length in *. rewrite next_request_mod by done. rewrite Zminus_mod_idemp_r.
  pose proof (Z.mod_pos_bound (requests_head d - requests_tail d) 64) as Hb.
  specialize (Hb eq_refl). set (x := requests_head d - requests_tail d) in *.
  replace (requests_head d - (requests_tail d + 1)) with (x - 1) by lia.
  rewrite <- (Zminus_mod_idemp_l x), (Z.mod_small (x mod 64 - 1)) by lia. lia.
Qed.

Lemma answered_entry d k i :
  good_queue d → (k < 64)%nat → (S i < 64)%nat →
  entry_at (answered d k) i = if decide (S i = k) then entry_at d 0 else entry_at d (S i).
Proof.
  intros Hd Hk Hi. pose proof Hd as [Hl Hh Ht]. unfold entry_at at 1.
  assert (index_at (answered d k) i = index_at d (S i)) as ->.
  { assert (index_at (answered d k) i = (next_outstanding_request (requests_tail d) + Z.of_nat i) mod 64) as ->.
    { unfold answered. by case_decide. }
    rewrite <- (index_0 d), index_next by done. unfold index_at. rewrite Zplus_mod_idemp_l. f_equal. lia. }
  assert (∀ j, Z.to_nat (index_at d j) = Z.to_nat (index_at d (S i)) → (j < 64)%nat → j = S i) as Hne.
  { intros j Hj Hj64. pose proof (index_range d j). pose proof (index_range d (S i)).
    apply (index_inj d); [done | done | lia]. }
  assert (outstanding_requests (answered d k) !! Z.to_nat (index_at d (S i)) =
    (if decide (k = 0%nat) then outstanding_requests d
     else <[Z.to_nat (index_at d k) := entry_at d 0]> (outstanding_requests d)) !! Z.to_nat (index_at d (S i))) as ->.
  { unfold answered.
    case_decide; simpl; rewrite <- (index_0 d) by done; rewrite list_lookup_insert_ne; try done; intros Heq; apply Hne in Heq; lia. }
  case_decide as E1; [by rewrite decide_False by lia |].
  case_decide as E2.
  - subst k. rewrite list_lookup_insert_eq; [done |]. pose proof (index_range d (S i)). lia.
  - rewrite list_lookup_insert_ne; [done |]. intros Heq. apply Hne in Heq; [|lia]. congruence.
Qed.

(** The queue loses exactly the entry that was answered. *)
Lemma answered_queue d k :
  good_queue d → (k < queue_length d)%nat → queue d ≡ₚ entry_at d k :: queue (answered d k).
Proof.
  intros Hd Hk. pose proof (queue_length_bound d) as Hb. pose proof (answered_length d k Hd Hk) as Hn.
  set (n := queue_length (answered d k)) in *.
  assert (queue (answered d k) = (λ i, if decide (S i = k) then entry_at d 0 else entry_at d (S i)) <$> seq 0 n) as ->.
  { unfold queue. fold n. apply list_fmap_ext. intros i x Hi%lookup_seq. apply answered_entry; [done | lia | lia]. }
  unfold queue. rewrite Hn. cbn [seq fmap list_fmap]. rewrite <- fmap_S_seq, <- list_fmap_compose.
  destruct k as [|k].
  { constructor. apply Permutation_refl'. apply list_fmap_ext. intros i x _. by rewrite decide_False by lia. }
  replace n with (k + (1 + (n - k - 1)))%nat by lia. rewrite seq_app, !fmap_app. cbn [Nat.add seq fmap list_fmap].
  rewrite (decide_True (P := S k = S k)) by done.
  assert (∀ m l, (∀ i, i ∈ seq m l → i ≠ k) →
    (λ i, if decide (S i = S k) then entry_at d 0 else entry_at d (S i)) <$> seq m l = (entry_at d ∘ S) <$> seq m l) as Hs.
  { intros m l Hm. apply list_fmap_ext. intros i x Hx. simpl. rewrite decide_False; [done |].
    apply list_elem_of_lookup_2, Hm in Hx. lia. }
  rewrite !Hs by (intros i Hi%elem_of_seq; lia). simpl. rewrite !Permutation_middle. by rewrite Permutation_swap.
Qed.

(** A request is put in at the head. *)
Definition pushed d (r : request) : requests :=
  set_head (next_outstanding_request (requests_head d)) (set_request (requests_head d) r d).

Lemma pushed_good d r : good_queue d → good_queue (pushed d r).
Proof. intros [Hl Hh Ht]. split; simpl; [by rewrite length_insert | apply next_request_range | done]. Qed.

Lemma is_full d : good_queue d → requests_tail d = next_outstanding_request (requests_head d) ↔ queue_length d = 63%nat.
Proof.
  intros [Hl Hh Ht]. rewrite next_request_mod by done. unfold queue_length.
  rewrite <- (Z.mod_small (requests_tail d) 64) at 1 by done.
  assert (∀ a b, a mod 64 = b mod 64 ↔ (b - a) mod 64 = 0) as Heq.
  { intros a b. rewrite Zminus_mod. pose proof (Z.mod_pos_bound a 64). pose proof (Z.mod_pos_bound b 64).
    split; [intros ->; by rewrite Z.sub_diag |]. intros [q Hq]%Z.mod_divide; lia. }
  rewrite Heq. set (x := requests_head d - requests_tail d).
  replace (requests_head d + 1 - requests_tail d) with (x + 1) by lia.
  rewrite <- Zplus_mod_idemp_l. pose proof (Z.mod_pos_bound x 64 eq_refl) as Hx.
  split; intros H.
  - destruct (decide (x mod 64 = 63)); [lia |]. rewrite Z.mod_small in H by lia. lia.
  - assert (x mod 64 = 63) as -> by lia. done.
Qed.

Lemma pushed_queue d r :
  good_queue d → (queue_length d < 63)%nat → queue (pushed d r) = queue d ++ [r].
Proof.
  intros Hd Hn. pose proof Hd as [Hl Hh Ht].
  assert (queue_length (pushed d r) = S (queue_length d)) as Hlen.
  { unfold queue_length in *. simpl. rewrite next_request_mod, Zminus_mod_idemp_l by done.
    set (x := requests_head d - requests_tail d) in *.
    replace (requests_head d + 1 - requests_tail d) with (x + 1) by lia.
    pose proof (Z.mod_pos_bound x 64 eq_refl) as Hx.
    rewrite <- Zplus_mod_idemp_l, Z.mod_small by lia. lia. }
  assert (∀ k, (k ≤ queue_length d)%nat →
    entry_at (pushed d r) k = if decide (k = queue_length d) then r else entry_at d k) as Hat.
  { intros k Hk. unfold entry_at at 1. change (index_at (pushed d r) k) with (index_at d k). simpl.
    rewrite <- (index_head d) by done. pose proof (index_range d k). pose proof (index_range d (queue_length d)).
    case_decide as E.
    - subst. rewrite list_lookup_insert_eq by lia. done.
    - rewrite list_lookup_insert_ne; [done |]. intros Hi. apply E. symmetry. apply (index_inj d); lia. }
  unfold queue. rewrite Hlen, seq_S, fmap_app. cbn [Nat.add fmap list_fmap].
  rewrite Hat, decide_True by lia. f_equal. apply list_fmap_ext. intros i x [-> Hi]%lookup_seq.
  simpl. rewrite Hat by lia. rewrite decide_False by lia. done.
Qed.
End queue.

(** ** The world *)
Class TagLaws (E : Type) `{!TagWorld E} : Type := {
  gates : E → gset Z;                  (* the threads that have been woken and have not waited since *)
  in_flight : E → list Z;              (* the messages that the GPU has not answered *)
  same_world (e e' : E) : Prop := gates e' = gates e ∧ in_flight e' = in_flight e;
  wake_law : ∀ e t, wp (wake_thread t) (λ _ e', gates e' = {[t]} ∪ gates e ∧ in_flight e' = in_flight e)
               (λ _, False) e;
  physical_law : ∀ e va, wp (physical_address_of va) (λ p e', is_u32 p ∧ same_world e e') (λ _, True) e;
  service_law : ∀ e, wp get_service (λ _, same_world e) (λ _, True) e;
  claim_law : ∀ e m c, wp (claim_channel m c) (λ _, same_world e) (λ _, True) e;
  pass_law : ∀ e m, wp (client_to_pass_to m) (λ _, same_world e) (λ _, True) e;
  register_law : ∀ e m c, wp (register_client m c) (λ _, same_world e) (λ _, True) e;
  queue_law : ∀ e m p, wp (queue_message m p) (λ _ e', gates e' = gates e ∧ in_flight e' = in_flight e ++ [p])
                (λ _, True) e;
}.

(** ** The parts of the code *)
Section facts.
Context {E : Type} `{!TagWorld E} `{!TagLaws E}.
Implicit Types (s : sys requests E) (d : requests) (t p m : Z).

Lemma wp_get_request d e k (f : request → M (sys requests E) unit) Q B :
  good_queue d → wp (f (entry_at d k)) Q B (Sys d e) → wp (get_request (index_at d k) ≫= f) Q B (Sys d e).
Proof.
  intros Hd H. unfold wp. rewrite (bind_ok _ _ _ (entry_at d k) (Sys d e)); [done |].
  unfold get_request. rewrite get_var_ok. cbn [vars]. by rewrite lookup_request.
Qed.

(** An answered request is removed, and its thread is woken, with the thread that waits for
    room. *)
Lemma answer_request_ok d e k :
  good_queue d → (k < queue_length d)%nat →
  wp (answer_request (index_at d k) (entry_at d k)) (λ _ s',
    vars s' = set_blocked_thread 0 (answered d k) ∧ in_flight (world s') = in_flight e ∧
    gates (world s') = (if decide (blocked_thread d = 0) then ∅ else {[blocked_thread d]}) ∪
                       ({[requesting_thread (entry_at d k)]} ∪ gates e)) (λ _, False) (Sys d e).
Proof.
  intros Hd Hk. pose proof (queue_length_bound d) as Hb. unfold answer_request.
  apply wp_bind, wp_ask. eapply wp_mono; [apply wake_law | | done]. intros ? e1 (G1 & F1). cbn [vars].
  apply wp_get_var. cbn [vars]. set (d1 := if decide (k = 0%nat) then d else set_request (index_at d k) (entry_at d 0) d).
  apply (wp_seq _ _ (λ _ s', s' = Sys d1 e1) (λ _, False)); [|done|].
  { apply wp_when; intros Hi.
    - apply bool_decide_eq_true in Hi. rewrite <- (index_0 d) in Hi |- * by done.
      apply wp_get_request; [done |]. unfold d1. rewrite decide_False; [done |]. intros ->. done.
    - apply bool_decide_eq_false, dec_stable in Hi. rewrite <- (index_0 d) in Hi by done.
      apply index_inj in Hi as ->; [done | lia | lia]. }
  intros ? s1 ->. apply wp_upd_var, wp_upd_var, wp_get_var. cbn [vars world].
  assert (blocked_thread d1 = blocked_thread d) as Hbl by (unfold d1; by case_decide).
  change (set_tail _ _) with (answered d k). change (blocked_thread (answered d k)) with (blocked_thread d1). rewrite Hbl.
  assert (∀ b, b = 0 → set_blocked_thread b (answered d k) = set_blocked_thread 0 (answered d k)) as Hset by by intros b ->.
  apply wp_when; intros Hbt.
  - apply bool_decide_eq_true in Hbt. apply wp_upd_var. cbn [vars world]. apply wp_ask.
    eapply wp_mono; [apply wake_law | | done]. intros ? e2 (G2 & F2). cbn [vars world] in *.
    rewrite decide_False by done. by rewrite G2, F2, G1, F1.
  - apply bool_decide_eq_false, dec_stable in Hbt. rewrite decide_True by done. cbn [vars world].
    rewrite union_empty_l_L. split; [|by rewrite G1, F1].
    rewrite <- (Hset (blocked_thread d)) by done. unfold answered. fold d1. by destruct d1; simpl in *; subst.
Qed.

(** The search comes to the first request for the message. *)
Definition answers d m (k : nat) : Prop := requesting_thread (entry_at d k) ≠ 0 ∧ pa (entry_at d k) = m.

Lemma find_request_ok d e m n (Q : unit → sys requests E → Prop) (i : nat) :
  good_queue d → (queue_length d ≤ i + n)%nat → (∃ j, (i ≤ j < queue_length d)%nat ∧ answers d m j) →
  (∀ j, (i ≤ j < queue_length d)%nat → answers d m j →
        wp (answer_request (index_at d j) (entry_at d j)) Q (λ _, False) (Sys d e)) →
  wp (find_request n (index_at d i) m) Q (λ _, False) (Sys d e).
Proof.
  intros Hd. revert i. induction n as [|n IH]; intros i Hn (j & Hj & Ha) H; [lia |].
  pose proof (queue_length_bound d) as Hb. cbn [find_request]. apply wp_get_var. cbn [vars].
  rewrite bool_decide_eq_false_2.
  2: { rewrite <- index_head by done. intros Hi%index_inj; lia. }
  apply wp_get_request; [done |]. destruct (_ && _) eqn:Hb2.
  - apply andb_true_iff in Hb2 as [H1%bool_decide_eq_true H2%bool_decide_eq_true]. apply H; [lia | done].
  - rewrite index_next. apply IH; [lia | |].
    + exists j. split; [|done]. destruct (decide (j = i)) as [->|]; [|lia]. destruct Ha as [H1 H2].
      by rewrite !bool_decide_eq_true_2 in Hb2 by done.
    + intros j' Hj'. apply H. lia.
Qed.

Lemma incoming_message_ok d e mbox m :
  good_queue d → (∃ r, r ∈ queue d ∧ requesting_thread r ≠ 0 ∧ pa r = m) →
  wp (GPU_MAILBOX__GPU_MAILBOX_CLIENT__incoming_message mbox m) (λ _ s', ∃ k,
    (k < queue_length d)%nat ∧ answers d m k ∧
    vars s' = set_blocked_thread 0 (answered d k) ∧ in_flight (world s') = in_flight e ∧
    gates (world s') = (if decide (blocked_thread d = 0) then ∅ else {[blocked_thread d]}) ∪
                       ({[requesting_thread (entry_at d k)]} ∪ gates e)) (λ _, False) (Sys d e).
Proof.
  intros Hd (r & (j & Hj & ->)%elem_of_queue & Ha). pose proof (queue_length_bound d).
  unfold GPU_MAILBOX__GPU_MAILBOX_CLIENT__incoming_message. apply wp_get_var. cbn [vars].
  rewrite <- (index_0 d) by done. apply find_request_ok; [done | change (Z.to_nat number_of_requests) with 64%nat; lia | |].
  - exists j. split; [lia | done].
  - intros k Hk Hak. eapply wp_mono; [apply answer_request_ok; [done | lia] | | done].
    intros ? s' Hs'. exists k. split; [lia |]. by split.
Qed.

Lemma begin_ok d e t va :
  good_queue d →
  wp (tag_request_begin t va) (λ r s',
    is_u32 r.1 ∧ tag_lock d = 0 ∧ same_world e (world s') ∧ r.2 = bool_decide (queue_length d = 63%nat) ∧
    ∃ m, vars s' = set_mailbox m (set_tag_lock t (if r.2 then set_blocked_thread t d else d)))
    (λ _, True) (Sys d e).
Proof.
  intros Hd. unfold tag_request_begin. apply wp_bind, wp_ask. eapply wp_mono; [apply physical_law | | done].
  intros p e1 [Hp W1]. apply wp_get_var. cbn [vars]. apply wp_bind, wp_when; [done |].
  intros Hh%bool_decide_eq_false%dec_stable. apply wp_upd_var. cbn [vars world].
  apply (wp_seq _ _ (λ _ s', same_world e (world s') ∧ ∃ m, vars s' = set_mailbox m (set_tag_lock t d)) (λ _, True));
    [|done|].
  { unfold connect_mailbox. apply wp_get_var. cbn [vars]. apply wp_when.
    2: { intros _. split; [done |]. exists (mailbox d). by destruct d. }
    intros _. apply wp_bind, wp_ask. eapply wp_mono; [apply service_law | | done]. intros ? e2 W2. cbn [vars world] in *.
    apply wp_bind, wp_ask. eapply wp_mono; [apply claim_law | | done]. intros m e3 W3. cbn [vars world] in *.
    apply wp_upd_var. cbn [vars world].
    apply wp_bind, wp_ask. eapply wp_mono; [apply pass_law | | done]. intros c e4 W4. cbn [vars world] in *.
    apply wp_ask. eapply wp_mono; [apply register_law | | done]. intros ? e5 W5. cbn [vars world] in *.
    split; [|by exists m]. unfold same_world in *. destruct W1, W2, W3, W4, W5. split; congruence. }
  intros ? [d2 e2] [W2 [m Hd2]]. cbn [vars world] in W2, Hd2. subst d2.
  apply wp_get_var, wp_get_var. cbn [vars]. cbv zeta.
  change (requests_tail (set_mailbox m (set_tag_lock t d))) with (requests_tail d).
  change (requests_head (set_mailbox m (set_tag_lock t d))) with (requests_head d).
  rewrite (bool_decide_ext _ (queue_length d = 63%nat)) by by apply is_full.
  case_bool_decide as Hf; (split; [done |]; split; [done |]; split; [done |]; split; [done |]; by exists m).
Qed.

Lemma send_ok d e t p :
  is_u32 p →
  wp (tag_request_send t p) (λ _ s',
    vars s' = set_tag_lock 0 (pushed d (Request p t)) ∧
    gates (world s') = gates e ∧ in_flight (world s') = in_flight e ++ [p]) (λ _, True) (Sys d e).
Proof.
  intros Hp. unfold tag_request_send. apply wp_get_var, wp_upd_var, wp_upd_var, wp_get_var. cbn [vars world].
  apply wp_bind, wp_ask. eapply wp_mono; [apply queue_law | | done]. intros ? e1 (G & F). cbn [vars world] in *.
  rewrite u32_id by done. split; [done |]. by split.
Qed.

(** ** Threads and answers in any order *)

(** Where a thread is in [mailbox_tag_request], with the address of its buffer. *)
Inductive point : Type :=
  | Room (p : Z)         (* waits for room in the queue *)
  | Ready (p : Z)        (* is about to send *)
  | Waiting (p : Z).     (* waits for its answer *)

Implicit Types (ps : gmap Z point).

Definition tag_state : Type := sys requests E * gmap Z point.

(** A thread that was woken passes its gate. *)
Definition passes_gate t (e e' : E) : Prop :=
  t ∈ gates e ∧ gates e' = gates e ∖ {[t]} ∧ in_flight e' = in_flight e.
(** The GPU gives back the message [m]. *)
Definition gives_back m (e e' : E) : Prop := in_flight e ≡ₚ m :: in_flight e' ∧ gates e' = gates e.

Inductive tag_step : tag_state → tag_state → Prop :=
  | tag_begins s ps t va p full s' :
      t ≠ 0 → t ∉ gates (world s) → ps !! t = None → tag_request_begin t va s = Ok (p, full) s' →
      tag_step (s, ps) (s', <[t := if (full : bool) then Room p else Ready p]> ps)
  | tag_room d e e' ps t p :
      ps !! t = Some (Room p) → passes_gate t e e' →
      tag_step (Sys d e, ps) (Sys d e', <[t := Ready p]> ps)
  | tag_sends s ps t p s' :
      ps !! t = Some (Ready p) → tag_request_send t p s = Ok () s' →
      tag_step (s, ps) (s', <[t := Waiting p]> ps)
  | tag_returns d e e' ps t p :
      ps !! t = Some (Waiting p) → passes_gate t e e' →
      tag_step (Sys d e, ps) (Sys d e', delete t ps)
  | tag_answer d e e' ps mbox m s' :
      gives_back m e e' → GPU_MAILBOX__GPU_MAILBOX_CLIENT__incoming_message mbox m (Sys d e') = Ok () s' →
      tag_step (Sys d e, ps) (s', ps).

Definition tag_start (st : tag_state) : Prop :=
  vars st.1 = initial_requests ∧ in_flight (world st.1) = [] ∧ st.2 = ∅.

Definition holds ps t : Prop := ∃ p, ps !! t = Some (Room p) ∨ ps !! t = Some (Ready p).

(** The invariant. *)
Record matched d e ps : Prop := {
  ma_good : good_queue d;
  ma_threads : NoDup (requesting_thread <$> queue d);
  ma_waiting : ∀ t p, Request p t ∈ queue d ↔ ps !! t = Some (Waiting p) ∧ t ∉ gates e;
  ma_flight : in_flight e ≡ₚ pa <$> queue d;
  ma_no_thread : ps !! 0 = None;
  ma_holder : ∀ t, holds ps t ↔ tag_lock d = t ∧ t ≠ 0;
  ma_room : ∀ t p, ps !! t = Some (Room p) →
    (blocked_thread d = t ∧ t ∉ gates e) ∨ (blocked_thread d = 0 ∧ t ∈ gates e ∧ (queue_length d < 63)%nat);
  ma_ready : ∀ t p, ps !! t = Some (Ready p) → (t ∉ gates e) ∧ blocked_thread d = 0 ∧ (queue_length d < 63)%nat;
  ma_blocked : blocked_thread d ≠ 0 → ∃ p, ps !! blocked_thread d = Some (Room p);
  ma_pa : ∀ t p, ps !! t = Some (Ready p) ∨ ps !! t = Some (Room p) → is_u32 p;
}.

Lemma holds_insert ps t q t' :
  holds (<[t := q]> ps) t' ↔ (t' = t ∧ (∃ p, q = Room p ∨ q = Ready p)) ∨ (t' ≠ t ∧ holds ps t').
Proof.
  unfold holds. destruct (decide (t' = t)) as [->|Hne].
  - rewrite lookup_insert_eq. naive_solver.
  - rewrite lookup_insert_ne by done. naive_solver.
Qed.

Lemma begins_matched d e ps t p full s' :
  matched d e ps → t ≠ 0 → t ∉ gates e → ps !! t = None → is_u32 p → tag_lock d = 0 → same_world e (world s') →
  full = bool_decide (queue_length d = 63%nat) →
  (∃ m, vars s' = set_mailbox m (set_tag_lock t (if (full : bool) then set_blocked_thread t d else d))) →
  matched (vars s') (world s') (<[t := if full then Room p else Ready p]> ps).
Proof.
  intros [Hg Hnd Hw Hfl H0 Hh Hr Hrd Hb Hpa] Ht Htg Hps Hp Hlock [G F] Hfull [m Hv]. rewrite Hv.
  assert (blocked_thread d = 0) as Hb0.
  { destruct (decide (blocked_thread d = 0)); [done |]. destruct Hb as [p' Hp']; [done |].
    destruct (proj1 (Hh (blocked_thread d))) as [E1 E2]; [by exists p'; left | congruence]. }
  assert (∀ t', ¬ holds ps t') as Hnone by (intros t' [E1 E2]%Hh; congruence).
  assert (queue (set_mailbox m (set_tag_lock t (if full then set_blocked_thread t d else d))) = queue d ∧
    queue_length (set_mailbox m (set_tag_lock t (if full then set_blocked_thread t d else d))) = queue_length d)
    as [Hq Hl] by (by destruct full).
  split; rewrite ?Hq, ?Hl, ?G, ?F; try done.
  - destruct full; destruct Hg; by split.
  - intros t' p'. rewrite Hw. destruct (decide (t' = t)) as [->|].
    + rewrite lookup_insert_eq, Hps. by destruct full; naive_solver.
    + by rewrite lookup_insert_ne.
  - by rewrite lookup_insert_ne.
  - intros t'. rewrite holds_insert. destruct full; simpl; split; intros H; naive_solver.
  - intros t' p' H. destruct (decide (t' = t)) as [->|].
    + rewrite lookup_insert_eq in H. destruct full; [left | done]. by split.
    + rewrite lookup_insert_ne in H by done. destruct (Hnone t'). exists p'. by left.
  - intros t' p' H. destruct (decide (t' = t)) as [->|].
    + rewrite lookup_insert_eq in H. destruct full; [done |]. simpl. split; [done |]. split; [done |].
      symmetry in Hfull. apply bool_decide_eq_false in Hfull. pose proof (queue_length_bound d). lia.
    + rewrite lookup_insert_ne in H by done. destruct (Hnone t'). exists p'. by right.
  - destruct full; simpl; [|done]. intros _. exists p. apply lookup_insert_eq.
  - intros t' p'. destruct (decide (t' = t)) as [->|].
    + rewrite lookup_insert_eq. destruct full; naive_solver.
    + rewrite lookup_insert_ne by done. apply Hpa.
Qed.

Lemma room_matched d e e' ps t p :
  matched d e ps → ps !! t = Some (Room p) → passes_gate t e e' → matched d e' (<[t := Ready p]> ps).
Proof.
  intros [Hg Hnd Hw Hfl H0 Hh Hr Hrd Hb Hpa] Hps (Hin & G & F).
  assert (blocked_thread d = 0 ∧ (queue_length d < 63)%nat) as [Hb0 Hlt].
  { destruct (Hr t p Hps) as [[_ ?]|(? & _ & ?)]; [done | done]. }
  split; rewrite ?G, ?F; try done.
  - intros t' p'. rewrite Hw. destruct (decide (t' = t)) as [->|].
    + rewrite lookup_insert_eq. naive_solver.
    + rewrite lookup_insert_ne by done. set_solver.
  - rewrite lookup_insert_ne; [done |]. intros ->. by rewrite H0 in Hps.
  - intros t'. rewrite holds_insert, <- Hh. split; [|intros H; destruct (decide (t' = t)); naive_solver].
    intros [[-> _]|[_ H]]; [|done]. exists p. by left.
  - intros t' p' H. destruct (decide (t' = t)) as [->|].
    + by rewrite lookup_insert_eq in H.
    + rewrite lookup_insert_ne in H by done. destruct (Hr t' p' H) as [[? ?]|(? & ? & ?)]; [left | right]; set_solver.
  - intros t' p' H. destruct (decide (t' = t)) as [->|].
    + split; [set_solver | done].
    + rewrite lookup_insert_ne in H by done. destruct (Hrd t' p' H) as (? & _ & _). split; [set_solver | done].
  - intros t' p'. destruct (decide (t' = t)) as [->|].
    + rewrite lookup_insert_eq. intros [[= ->]|?]; [|done]. apply (Hpa t). by right.
    + rewrite lookup_insert_ne by done. apply Hpa.
Qed.

Lemma sends_matched d e ps t p s' :
  matched d e ps → ps !! t = Some (Ready p) → vars s' = set_tag_lock 0 (pushed d (Request p t)) →
  gates (world s') = gates e → in_flight (world s') = in_flight e ++ [p] →
  matched (vars s') (world s') (<[t := Waiting p]> ps).
Proof.
  intros [Hg Hnd Hw Hfl H0 Hh Hr Hrd Hb Hpa] Hps Hv G F. rewrite Hv.
  destruct (Hrd t p Hps) as (Htg & Hb0 & Hlt).
  assert (queue (set_tag_lock 0 (pushed d (Request p t))) = queue d ++ [Request p t]) as Hq by by apply pushed_queue.
  assert (t ∉ requesting_thread <$> queue d) as Htq.
  { intros ([p' t'] & Ht & [Hp' _]%Hw)%list_elem_of_fmap. simpl in Ht. subst t'. congruence. }
  assert (∀ t', t' ≠ t → ¬ holds ps t') as Hnone.
  { intros t' Hne [E1 _]%Hh. assert (holds ps t) as [E2 _]%Hh by (exists p; by right). congruence. }
  assert (t ≠ 0) as Ht0 by (intros ->; congruence).
  split; rewrite ?Hq, ?G, ?F; try done.
  - destruct (pushed_good d (Request p t) Hg); by split.
  - rewrite fmap_app. apply NoDup_snoc. by split.
  - intros t' p'. rewrite elem_of_app, list_elem_of_singleton, Hw. destruct (decide (t' = t)) as [->|].
    + rewrite lookup_insert_eq. split; [|naive_solver]. intros [[H1 _]|[= ->]]; [congruence | done].
    + rewrite lookup_insert_ne by done. naive_solver.
  - rewrite fmap_app, Hfl. done.
  - rewrite lookup_insert_ne by done. done.
  - intros t'. rewrite holds_insert. simpl. split; [|lia]. intros [[_ [? ?]]|[Hne H]]; [naive_solver | by destruct (Hnone t')].
  - intros t' p' H. destruct (decide (t' = t)) as [->|].
    + by rewrite lookup_insert_eq in H.
    + rewrite lookup_insert_ne in H by done. destruct (Hnone t'); [done |]. exists p'. by left.
  - intros t' p' H. destruct (decide (t' = t)) as [->|].
    + by rewrite lookup_insert_eq in H.
    + rewrite lookup_insert_ne in H by done. destruct (Hnone t'); [done |]. exists p'. by right.
  - intros t' p'. destruct (decide (t' = t)) as [->|].
    + rewrite lookup_insert_eq. naive_solver.
    + rewrite lookup_insert_ne by done. apply Hpa.
Qed.

Lemma returns_matched d e e' ps t p :
  matched d e ps → ps !! t = Some (Waiting p) → passes_gate t e e' → matched d e' (delete t ps).
Proof.
  intros [Hg Hnd Hw Hfl H0 Hh Hr Hrd Hb Hpa] Hps (Hin & G & F).
  assert (∀ t' q, delete t ps !! t' = Some q → t' ≠ t ∧ ps !! t' = Some q) as Hdel.
  { intros t' q H%lookup_delete_Some. naive_solver. }
  assert (∀ t' q, ps !! t' = Some q → (∀ p', q ≠ Waiting p') → delete t ps !! t' = Some q) as Hdel'.
  { intros t' q H Hq. rewrite lookup_delete_ne; [done |]. intros ->. congruence. }
  split; rewrite ?G, ?F; try done.
  - intros t' p'. rewrite Hw. destruct (decide (t' = t)) as [->|].
    + rewrite lookup_delete_eq. naive_solver.
    + rewrite lookup_delete_ne by done. set_solver.
  - destruct (decide (0 = t)) as [->|]; [apply lookup_delete_eq | by rewrite lookup_delete_ne].
  - intros t'. rewrite <- Hh. unfold holds. split; intros [p' [H|H]]; exists p'.
    + left. by apply Hdel.
    + right. by apply Hdel.
    + left. by apply Hdel'.
    + right. by apply Hdel'.
  - intros t' p' [Hne H]%Hdel. destruct (Hr t' p' H) as [[? ?]|(? & ? & ?)]; [left | right]; set_solver.
  - intros t' p' [Hne H]%Hdel. destruct (Hrd t' p' H) as (? & ? & ?). split; [set_solver | done].
  - intros H. destruct (Hb H) as [p' Hp']. exists p'. by apply Hdel'.
  - intros t' p' [[_ H]%Hdel|[_ H]%Hdel]; apply (Hpa t'); [by left | by right].
Qed.

(** The request that the message [m] answers is in the queue. *)
Lemma answer_is_expected d e e' ps m :
  matched d e ps → gives_back m e e' →
  ∃ r, r ∈ queue d ∧ requesting_thread r ≠ 0 ∧ pa r = m.
Proof.
  intros [Hg Hnd Hw Hfl H0 Hh Hr Hrd Hb Hpa] [Hm _].
  assert (m ∈ pa <$> queue d) as ([p t] & -> & Hin)%list_elem_of_fmap by (rewrite <- Hfl, Hm; by left).
  exists (Request p t). split; [done |]. split; [|done]. simpl. intros ->.
  apply Hw in Hin as [Hin _]. congruence.
Qed.

Lemma answer_matched d e e' ps m k s' :
  matched d e ps → gives_back m e e' → (k < queue_length d)%nat → answers d m k →
  vars s' = set_blocked_thread 0 (answered d k) → in_flight (world s') = in_flight e' →
  gates (world s') = (if decide (blocked_thread d = 0) then ∅ else {[blocked_thread d]}) ∪
                     ({[requesting_thread (entry_at d k)]} ∪ gates e') →
  matched (vars s') (world s') ps.
Proof.
  intros [Hg Hnd Hw Hfl H0 Hh Hr Hrd Hb Hpa] [Hm Hge] Hk [Ha1 Ha2] Hv F G. rewrite Hv. rewrite Hge in G.
  pose proof (answered_queue d k Hg Hk) as Hq. pose proof (answered_length d k Hg Hk) as Hl.
  destruct (entry_at d k) as [p0 t0] eqn:Hr0. simpl in *. subst p0.
  assert (ps !! t0 = Some (Waiting m) ∧ t0 ∉ gates e) as [Ht0 Ht0g] by (apply Hw; rewrite Hq; by left).
  rewrite Hq in Hnd. cbn in Hnd. apply NoDup_cons in Hnd as [Hnd0 Hnd].
  assert (∀ t p, Request p t ∈ queue (answered d k) → t ≠ t0) as Hne.
  { intros t p Hin ->. apply Hnd0, list_elem_of_fmap. by exists (Request p t0). }
  assert (∀ t, t ∈ gates (world s') ↔ t ∈ gates e ∨ t = t0 ∨ (blocked_thread d ≠ 0 ∧ t = blocked_thread d)) as Hgs.
  { intros t. rewrite G. case_decide; set_solver. }
  assert (queue (set_blocked_thread 0 (answered d k)) = queue (answered d k) ∧
    queue_length (set_blocked_thread 0 (answered d k)) = queue_length (answered d k)) as [Hq' Hl'] by done.
  split; rewrite ?Hq', ?Hl'; try done.
  - destruct (answered_good d k Hg); by split.
  - intros t p. rewrite Hgs. assert (Request p t ∈ queue d ↔ Request p t = Request m t0 ∨ Request p t ∈ queue (answered d k)) as Hin
      by (rewrite Hq; apply elem_of_cons). rewrite Hw in Hin. split.
    + intros H. pose proof (Hne _ _ H) as Hn. destruct Hin as [_ Hin]. destruct Hin as [H1 H2]; [by right |].
      split; [done |]. intros [?|[?|[Hb0 ->]]]; [done | done |]. destruct (Hb Hb0) as [? ?]. congruence.
    + intros [H1 H2]. destruct (proj1 Hin) as [[= -> ->]|]; [naive_solver | naive_solver | done].
  - rewrite F. apply (Permutation_cons_inv (a := m)). rewrite <- Hm, Hfl, Hq. apply Permutation_refl.
  - intros t. rewrite Hh. unfold answered. by destruct (decide (k = 0%nat)).
  - intros t p H. right. split; [done |]. destruct (Hr t p H) as [[<- ?]|(? & ? & ?)]; rewrite Hgs.
    + split; [|pose proof (queue_length_bound d); lia]. right; right. split; [|done]. intros Hb0. rewrite Hb0, H0 in H. done.
    + split; [by left | lia].
  - intros t p H. destruct (Hrd t p H) as (H1 & H2 & H3). rewrite Hgs. split; [|split; [done | lia]].
    intros [?|[->|[? ?]]]; [done | congruence | done].
Qed.

Lemma tag_start_matched st : tag_start st → matched (vars st.1) (world st.1) st.2.
Proof.
  intros (Hv & Hf & Hp). rewrite Hv, Hp. split; rewrite ?Hf; try done; try set_solver.
  - apply NoDup_nil_2.
  - intros t. unfold holds. simpl. split; [|lia]. intros [p [H|H]]; by rewrite lookup_empty in H.
Qed.

Lemma tag_step_matched st st' :
  matched (vars st.1) (world st.1) st.2 → tag_step st st' → matched (vars st'.1) (world st'.1) st'.2.
Proof.
  intros Hm Hs. destruct Hs as [[d e] ps t va p full s' Ht Htg Hps Hb|d e e' ps t p Hps Hg|[d e] ps t p s' Hps Hs|
    d e e' ps t p Hps Hg|d e e' ps mbox m s' Hg Ha]; simpl in *.
  - destruct (wp_ok _ _ _ _ _ _ (begin_ok d e t va (ma_good _ _ _ Hm)) Hb) as (Hp & Hl & Hw & Hf & Hv).
    by apply (begins_matched d e).
  - by eapply room_matched.
  - pose proof (ma_pa _ _ _ Hm t p (or_introl Hps)) as Hp.
    destruct (wp_ok _ _ _ _ _ _ (send_ok d e t p Hp) Hs) as (Hv & G & F). by eapply sends_matched.
  - by eapply returns_matched.
  - pose proof (incoming_message_ok d e' mbox m (ma_good _ _ _ Hm) (answer_is_expected _ _ _ _ _ Hm Hg)) as Hok.
    destruct (wp_ok _ _ _ _ _ _ Hok Ha) as (k & Hk & Hans & Hv & F & G). by eapply answer_matched.
Qed.

Lemma tag_run_matched st st' :
  tag_start st → rtc tag_step st st' → matched (vars st'.1) (world st'.1) st'.2.
Proof.
  intros H0 Hr. apply tag_start_matched in H0. induction Hr; [done |]. eauto using tag_step_matched.
Qed.

(** C19: in whatever order threads send requests and the GPU answers them, the queue holds
    exactly the requests of the threads that wait for an answer, they are what the GPU
    has not answered, and there are never more than 63. *)
Theorem queue_holds_waiting_requests st d e ps :
  tag_start st → rtc tag_step st (Sys d e, ps) →
  (∀ t p, Request p t ∈ queue d ↔ ps !! t = Some (Waiting p) ∧ t ∉ gates e) ∧
  NoDup (requesting_thread <$> queue d) ∧ in_flight e ≡ₚ pa <$> queue d ∧ (length (queue d) ≤ 63)%nat.
Proof.
  intros H0 Hr. pose proof (tag_run_matched _ _ H0 Hr) as [_ Hnd Hw Hf _ _ _ _ _ _]. simpl in *.
  split; [done |]. split; [done |]. split; [done |].
  rewrite length_queue. pose proof (queue_length_bound d). lia.
Qed.

(** C20: whenever the GPU gives a message back, [incoming_message] returns: it wakes the
    thread that waits for this message and takes just its request out of the queue.  Beside
    that thread it wakes whoever waits for room in the queue, and no other. *)
Theorem answer_wakes_requester st d e ps mbox m e' :
  tag_start st → rtc tag_step st (Sys d e, ps) → gives_back m e e' →
  ∃ s' t, GPU_MAILBOX__GPU_MAILBOX_CLIENT__incoming_message mbox m (Sys d e') = Ok () s' ∧
    ps !! t = Some (Waiting m) ∧ (t ∉ gates e) ∧ t ∈ gates (world s') ∧
    queue d ≡ₚ Request m t :: queue (vars s') ∧
    gates e ⊆ gates (world s') ∧
    ∀ t', t' ∉ gates e → t' ∈ gates (world s') ↔ t' = t ∨ ∃ p, ps !! t' = Some (Room p).
Proof.
  intros H0 Hr Hg. pose proof (tag_run_matched _ _ H0 Hr) as Hm. simpl in Hm.
  destruct (wp_never_stops _ _ _ (incoming_message_ok d e' mbox m (ma_good _ _ _ Hm) (answer_is_expected _ _ _ _ _ Hm Hg)))
    as ([] & s' & E1 & k & Hk & [Ha1 Ha2] & Hv & F & G).
  exists s', (requesting_thread (entry_at d k)). split; [done |].
  pose proof (answered_queue d k (ma_good _ _ _ Hm) Hk) as Hq.
  assert (entry_at d k = Request m (requesting_thread (entry_at d k))) as Hr0.
  { destruct (entry_at d k) as [p t]. simpl in *. by subst. }
  assert (Request m (requesting_thread (entry_at d k)) ∈ queue d) as Hin by (rewrite <- Hr0, Hq; by left).
  apply (ma_waiting _ _ _ Hm) in Hin as [Hp Hgt]. split; [done |]. split; [done |].
  split; [rewrite G; set_solver |]. split; [rewrite Hv, <- Hr0; exact Hq |].
  destruct Hg as [_ Hge]. rewrite Hge in G. split; [rewrite G; set_solver |].
  intros t' Hnot. rewrite G. split.
  - case_decide as Hb; [set_solver |]. intros [->%elem_of_singleton | [Ht'%elem_of_singleton | Ht']%elem_of_union]%elem_of_union;
      [right; by apply (ma_blocked _ _ _ Hm) | by left | done].
  - intros [-> | [p Ht']]; [set_solver |]. destruct (ma_room _ _ _ Hm t' p Ht') as [[Hb _]|(_ & Hin & _)]; [|done].
    rewrite decide_False; [set_solver |]. rewrite Hb. intros ->. by rewrite (ma_no_thread _ _ _ Hm) in Ht'.
Qed.
End facts.

(** ** The cache lines of a buffer *)
Lemma clean_lines_cover fuel n p length :
  0 ≤ n ≤ 16 → 0 ≤ p → length + 2 ^ n < 2 ^ 31 → - 2 ^ n < length → p + length < 2 ^ 64 - 2 ^ n → length ≤ Z.of_nat fuel →
  ∃ lines, clean_lines fuel n p length = Some lines ∧
    ∀ a, p ≤ a < p + length → ∃ l, l ∈ lines ∧ l ≤ a < l + 2 ^ n.
Proof.
  intros Hn. assert (0 < 2 ^ n) as Hpos by (apply Z.pow_pos_nonneg; lia).
  assert (2 ^ n ≤ 2 ^ 16) as Hle by (apply Z.pow_le_mono_r; lia).
  revert p length. induction fuel as [|fuel IH]; intros p length Hp Hl Hl' Hb Hf; cbn [clean_lines].
  - rewrite bool_decide_eq_false_2 by lia. exists []. split; [done |]. intros a Ha. lia.
  - case_bool_decide as Hgt; [|exists []; split; [done |]; intros a Ha; lia].
    rewrite Z.shiftl_1_l. rewrite u64_id by (unfold is_u64; lia). rewrite s32_id by lia.
    destruct (IH (p + 2 ^ n) (length - 2 ^ n)) as (lines & -> & Hc); [lia.. |].
    exists (p :: lines). split; [done |]. intros a Ha. destruct (decide (a < p + 2 ^ n)).
    + exists p. split; [by left | lia].
    + destruct (Hc a) as (l & Hin & Hla); [lia |]. exists l. split; [by right | done].
Qed.

(** [flush_and_invalidate_cache] ends, and there is no byte of the buffer whose line it
    has not cleaned, wherever in a line the buffer begins. *)
Theorem flush_covers_buffer cache_line_size start length :
  0 ≤ cache_line_size ≤ 16 → 0 ≤ start → 0 ≤ length < 2 ^ 30 → start + length < 2 ^ 63 →
  ∃ lines, flush_and_invalidate_cache cache_line_size start length = Some lines ∧
    ∀ a, start ≤ a < start + length → ∃ l, l ∈ lines ∧ l ≤ a < l + 2 ^ cache_line_size.
Proof.
  intros Hn Hs Hl Hb. unfold flush_and_invalidate_cache. cbv zeta.
  assert (0 < 2 ^ cache_line_size) as Hpos by (apply Z.pow_pos_nonneg; lia).
  assert (2 ^ cache_line_size ≤ 2 ^ 16) as Hle by (apply Z.pow_le_mono_r; lia).
  assert (Z.shiftl 1 cache_line_size - 1 = Z.ones cache_line_size) as ->.
  { rewrite Z.shiftl_1_l, Z.ones_equiv. lia. }
  rewrite Z.land_ones, Z.ldiff_ones_r, Z.shiftr_div_pow2, Z.shiftl_mul_pow2 by lia.
  pose proof (Z.mod_pos_bound start (2 ^ cache_line_size) Hpos) as Hm.
  pose proof (Z.div_mod start (2 ^ cache_line_size) ltac:(lia)) as Hdm.
  rewrite s32_id by lia.
  set (m := start mod 2 ^ cache_line_size) in *. set (w := 2 ^ cache_line_size) in *.
  replace (start / w * w) with (start - m) by lia.
  assert (w ≤ 65536) by done. assert (m ≤ start) by (apply Z.mod_le; lia).
  destruct (clean_lines_cover (Z.to_nat (length + m)) cache_line_size (start - m) (length + m)) as (lines & E & Hc);
    fold w; [lia.. |].
  exists lines. split; [done |]. intros a Ha. apply Hc. lia.
Qed.

Lemma flush_covers_buffer_witness :
  ∃ lines, flush_and_invalidate_cache 4 0x1008 32 = Some lines ∧
    ∀ a, 0x1008 ≤ a < 0x1008 + 32 → ∃ l, l ∈ lines ∧ l ≤ a < l + 2 ^ 4.
Proof. apply (flush_covers_buffer 4 0x1008 32); lia. Defined.

(** ** A GPU for examples *)
Record tag_gpu : Type := TagGpu { gpu_gates : gset Z; gpu_messages : list Z }.

#[export] Instance tag_gpu_world : TagWorld tag_gpu := {
  wake_thread t := modify (λ g, TagGpu ({[t]} ∪ gpu_gates g) (gpu_messages g));
  wait_until_woken t := modify (λ g, TagGpu (gpu_gates g ∖ {[t]}) (gpu_messages g));
  physical_address_of va := mret (u32 (0x40000000 + va));
  get_service := mret 3;
  claim_channel m c := mret (m + c);
  client_to_pass_to m := mret (m + 1);
  register_client m c := mret ();
  queue_message m p := modify (λ g, TagGpu (gpu_gates g) (gpu_messages g ++ [p]));
}.

#[export] Instance tag_gpu_laws : TagLaws tag_gpu.
Proof.
  refine {| gates := gpu_gates; in_flight := gpu_messages |}; done || (intros; unfold wp; simpl).
  split; [apply u32_range | done].
Defined.

Definition tag_system : sys requests tag_gpu := Sys initial_requests (TagGpu ∅ []).
Definition run_of {A} (m : M (sys requests tag_gpu) A) (s : sys requests tag_gpu) : sys requests tag_gpu :=
  match m s with Ok _ s | Stop _ s => s end.

(** Thread 5 sends the buffer at 0x100, thread 6 the one at 0x200. *)
Definition sent_5 : sys requests tag_gpu :=
  run_of (tag_request_send 5 0x40000100) (run_of (tag_request_begin 5 0x100) tag_system).
Definition sent_56 : sys requests tag_gpu :=
  run_of (tag_request_send 6 0x40000200) (run_of (tag_request_begin 6 0x200) sent_5).
Definition both_waiting : gmap Z point :=
  <[6 := Waiting 0x40000200]> (<[6 := Ready 0x40000200]> (<[5 := Waiting 0x40000100]> (<[5 := Ready 0x40000100]> ∅))).

Lemma tag_demo_start : tag_start (tag_system, ∅).
Proof. done. Qed.

Lemma tag_demo_run : rtc tag_step (tag_system, ∅) (sent_56, both_waiting).
Proof.
  eapply rtc_l; [apply (tag_begins tag_system ∅ 5 0x100 0x40000100 false
    (run_of (tag_request_begin 5 0x100) tag_system)); [done | set_solver | done | done] |].
  eapply rtc_l; [apply (tag_sends _ _ 5 0x40000100 sent_5); [apply lookup_insert_eq | done] |].
  eapply rtc_l; [apply (tag_begins sent_5 _ 6 0x200 0x40000200 false
    (run_of (tag_request_begin 6 0x200) sent_5)); [done | set_solver | done | done] |].
  apply rtc_once. apply (tag_sends _ _ 6 0x40000200 sent_56); [apply lookup_insert_eq | done].
Qed.

Lemma queue_holds_waiting_requests_witness :
  queue (vars sent_56) = [Request 0x40000100 5; Request 0x40000200 6] ∧ (length (queue (vars sent_56)) ≤ 63)%nat.
Proof.
  split; [by vm_compute |].
  destruct (queue_holds_waiting_requests _ _ _ _ tag_demo_start tag_demo_run) as (_ & _ & _ & H). exact H.
Defined.

(** The GPU answers thread 6 first. *)
Lemma answer_wakes_requester_witness :
  ∃ s' t, GPU_MAILBOX__GPU_MAILBOX_CLIENT__incoming_message 11 0x40000200
            (Sys (vars sent_56) (TagGpu ∅ [0x40000100])) = Ok () s' ∧ both_waiting !! t = Some (Waiting 0x40000200).
Proof.
  destruct (answer_wakes_requester _ _ _ _ 11 0x40000200 (TagGpu ∅ [0x40000100]) tag_demo_start tag_demo_run)
    as (s' & t & E1 & H & _); [|by exists s', t].
  split; [exact (perm_swap 0x40000200 0x40000100 []) | done].
Defined.
