(* ===== verification/PropertyPath.v ===== *)
(** * A property request on its way to the GPU and back

    [TagRequests] and [GpuMailbox] as they are linked: the requests of
    [drivers/pi3gpu/mailbox_properties.c] go out by the method [queue_message] of
    [drivers/pi3gpu/mailbox.c], and the answers come in by its interrupt handler and its
    message pump, which calls [incoming_message].  The class of either driver is implemented by the
    other's code: for [TagRequests] the world is the mailbox driver on the machine, and
    for [GpuMailbox] it is the driver of the requests on the machine.

    [machine] has the two FIFOs of the hardware as its documentation has them, and the threads
    that have been woken ([Gate]).  An interface to a mailbox is 1000 more than its channel. *)

From S2P Require Import Prelude GpuDevices.
From S2P Require GpuMailbox TagRequests.
Import TagRequests.

(** ** The machine *)
Record machine : Type := Machine {
  fifo : list Z;           (* mailbox 0, to the ARM *)
  interrupts_on : bool;
  sent : list Z;           (* mailbox 1, to the GPU *)
  woken : gset Z;
}.

Definition machine_read (d : device) : M machine Z := λ e,
  match d with
  | Mailbox 0 config => Ok (if interrupts_on e then if bool_decide (fifo e = []) then 1 else 0x11 else 0) e
  | Mailbox 0 status => Ok (if bool_decide (fifo e = []) then 0x40000000 else 0) e
  | Mailbox 0 value => Ok (default 0 (head (fifo e))) (Machine (tail (fifo e)) (interrupts_on e) (sent e) (woken e))
  | _ => Ok 0 e
  end.
Definition machine_write (d : device) (v : Z) : M machine unit := modify (λ e,
  match d with
  | Mailbox 0 config => Machine (fifo e) (bool_decide (v ≠ 0)) (sent e) (woken e)
  | Mailbox 1 value => Machine (fifo e) (interrupts_on e) (sent e ++ [v]) (woken e)
  | _ => e
  end).
Definition machine_wake (t : Z) : M machine unit := modify (λ e,
  Machine (fifo e) (interrupts_on e) (sent e) ({[t]} ∪ woken e)).
(** A wait takes the wakes there were; without any the thread sleeps. *)
Definition machine_wait (t : Z) : M machine Z := λ e,
  if bool_decide (t ∈ woken e) then Ok 1 (Machine (fifo e) (interrupts_on e) (sent e) (woken e ∖ {[t]}))
  else Stop (Spin 0) e.

(** The GPU takes a request and gives it back as its answer. *)
Definition gpu_answers (e : machine) : machine :=
  match sent e with
  | [] => e
  | m :: rest => Machine (fifo e ++ [m]) (interrupts_on e) rest (woken e)
  end.

(** ** Incoming: the mailbox driver on the driver of the requests *)
#[export] Instance machine_requests : TagWorld machine := {|
  wake_thread := machine_wake;
  (* an answer uses nothing else *)
  wait_until_woken _ := halt (Fault 0); physical_address_of _ := halt (Fault 0); get_service := halt (Fault 0);
  claim_channel _ _ := halt (Fault 0); client_to_pass_to _ := halt (Fault 0); register_client _ _ := halt (Fault 0);
  queue_message _ _ := halt (Fault 0) |}.

Definition on_requests_world : Type := sys requests machine.
#[export] Instance requests_devices : Devices on_requests_world := {|
  device_read d := ask (machine_read d); device_write d v := ask (machine_write d v) |}.

(** [this_thread] waits in the mailbox driver. *)
Definition mailbox_on_requests (this_thread : Z) : GpuMailbox.MailboxWorld on_requests_world := {|
  GpuMailbox.mailbox_devices := requests_devices;
  GpuMailbox.wake_thread t := ask (machine_wake t);
  GpuMailbox.wait_until_woken := ask (machine_wait this_thread);
  GpuMailbox.sleep_ms _ := mret tt;
  GpuMailbox.create_thread := mret 99;
  GpuMailbox.incoming_message client message := GPU_MAILBOX__GPU_MAILBOX_CLIENT__incoming_message client message;
  GpuMailbox.interface_to_return channel := mret (1000 + channel) |}.

(** ** Outgoing: the driver of the requests on the mailbox driver *)

(** The mailbox driver where its methods run, which deliver no message. *)
Definition mailbox_alone (this_thread : Z) : GpuMailbox.MailboxWorld machine := {|
  GpuMailbox.mailbox_devices := {| device_read := machine_read; device_write := machine_write |};
  GpuMailbox.wake_thread := machine_wake;
  GpuMailbox.wait_until_woken := machine_wait this_thread;
  GpuMailbox.sleep_ms _ := mret tt;
  GpuMailbox.create_thread := mret 99;
  GpuMailbox.incoming_message _ _ := halt (Fault 0);
  GpuMailbox.interface_to_return channel := mret (1000 + channel) |}.

(** The method of another interface: its result, or the exception, which nobody handles. *)
Definition result_of {S} (m : M S reply) : M S Z :=
  r ← m; match r with Return v => mret v | ReturnNothing => mret 0 | Exception code => halt (Brk code) end.

(** The variables of both drivers, and the machine. *)
Definition below : Type := sys GpuMailbox.mailboxes machine.
Definition path : Type := sys requests below.

(** A thread that sends a request; [pa_of] is where its memory is and [polls] bounds how often
    it looks for room in the hardware. *)
Definition requests_on_mailbox (pa_of : Z → Z) (polls : nat) (this_thread : Z) : TagWorld below :=
  let on := mailbox_alone this_thread in {|
  wake_thread t := ask (machine_wake t);
  wait_until_woken t := _ ← ask (machine_wait t); mret tt;
  physical_address_of va := mret (pa_of va);
  get_service := mret 0x500;
  claim_channel _ channel := result_of (GpuMailbox.MANAGER__GPU_MAILBOX_MANAGER__claim_channel 0 channel);
  client_to_pass_to _ := mret 0x600;
  register_client mbox client := _ ← result_of (GpuMailbox.MBOX__GPU_MAILBOX__register_client (mbox - 1000) client); mret tt;
  queue_message mbox message :=
    _ ← result_of (GpuMailbox.MBOX__GPU_MAILBOX__queue_message polls this_thread (mbox - 1000) message); mret tt |}.

(** *** On the whole *)
Definition sends_request (pa_of : Z → Z) (polls : nat) (this_thread p : Z) : M path unit :=
  let on := requests_on_mailbox pa_of polls this_thread in tag_request_send this_thread p.
Definition begins_request (pa_of : Z → Z) (polls : nat) (this_thread va : Z) : M path (Z * bool) :=
  let on := requests_on_mailbox pa_of polls this_thread in tag_request_begin this_thread va.

(** The interrupt handler and the pump. *)
Definition run_mailbox {A} (m : M (sys GpuMailbox.mailboxes on_requests_world) A) : M path A := λ s,
  match m (Sys (vars (world s)) (Sys (vars s) (world (world s)))) with
  | Ok a s' => Ok a (Sys (vars (world s')) (Sys (vars s') (world (world s'))))
  | Stop r s' => Stop r (Sys (vars (world s')) (Sys (vars s') (world (world s'))))
  end.
Definition interrupt (this_thread : Z) : M path unit :=
  let on := mailbox_on_requests this_thread in run_mailbox GpuMailbox.mailbox_interrupt.
Definition pump (this_thread last_channel : Z) : M path Z :=
  let on := mailbox_on_requests this_thread in run_mailbox (GpuMailbox.pump_one this_thread last_channel).

Definition initial_path : path :=
  Sys initial_requests (Sys GpuMailbox.initial_mailboxes (Machine [] false [] ∅)).

(** ** Each part *)
#[global] Instance machine_laws : TagLaws machine.
Proof.
  refine {| gates := woken; in_flight := λ e, fifo e ++ sent e |}; intros; unfold wp; simpl; done.
Defined.

Section parts.
Import GpuMailbox.
Implicit Types (d : mailboxes) (q : requests) (e : machine).

Definition property_channel d (pump client : Z) : Prop :=
  ∃ l, channels d !! 8%nat = Some (Channel l pump 0 client).
(** No message is in the mailbox driver. *)
Record quiet d : Prop := {
  qu_length : length (channels d) = 16%nat;
  qu_received : Forall (λ c, received_message c = 0) (channels d);
  qu_blocking : blocking_message d = 0;
}.

Lemma get_channel_runs {E A} `{!MailboxWorld E} d (w : E) i ch (f : mailbox_channel → M (sys mailboxes E) A) :
  channels d !! Z.to_nat i = Some ch → (get_channel i ≫= f) (Sys d w) = f ch (Sys d w).
Proof. intros H. unfold get_channel. unfold mbind, M_bind. cbn. by rewrite H. Qed.

Lemma machine_wait_ok t e : t ∈ woken e →
  machine_wait t e = Ok 1 (Machine (fifo e) (interrupts_on e) (sent e) (woken e ∖ {[t]})).
Proof. intros H. unfold machine_wait. by rewrite bool_decide_eq_true_2. Qed.

(** The method puts the request and the channel into the GPU's FIFO. *)
Lemma queue_message_sends polls t d e p pump client : property_channel d pump client → client ≠ 0 →
  let on := mailbox_alone t in
  MBOX__GPU_MAILBOX__queue_message (S polls) t 8 p (Sys d e) =
  Ok ReturnNothing (Sys (set_blocked_sending_thread 0 d)
                      (Machine (fifo e) true (sent e ++ [u32 (Z.lor p 8)]) (woken e ∖ {[t]}))).
Proof.
  intros [l Hch] Hc on. unfold MBOX__GPU_MAILBOX__queue_message.
  rewrite (get_channel_runs d e 8 (Channel l pump 0 client)) by done. cbn [GpuMailbox.client].
  rewrite bool_decide_eq_false_2 by done. unfold write. erewrite ask_known by reflexivity. cbn [vars world].
  erewrite (bind_ok (wait_for_room (S polls) t)) by reflexivity. rewrite upd_var_ok. cbn [vars world].
  erewrite ask_known by reflexivity. erewrite ask_known.
  2: { apply machine_wait_ok. cbn. set_solver. }
  cbn [woken fifo interrupts_on sent]. erewrite ask_known by reflexivity. rewrite ret_ok. cbn. do 3 f_equal. set_solver.
Qed.
End parts.

(** [m] is the channel 8 message of the request at [p]. *)
Definition aligned_request (p : Z) : Prop := is_u32 p ∧ p ≠ 0 ∧ p mod 16 = 0.

Lemma request_message p : aligned_request p →
  GpuMailbox.channel_of (u32 (Z.lor p 8)) = 8 ∧ GpuMailbox.payload_of (u32 (Z.lor p 8)) = p.
Proof.
  intros (Hp & Hp0 & Hm).
  assert (Hlow : ∀ i, 0 ≤ i < 4 → Z.testbit p i = false).
  { intros i Hi. apply Z.mod_divide in Hm as [k ->]; [| lia]. change 16 with (2 ^ 4). by rewrite Z.mul_pow2_bits_low by lia. }
  unfold GpuMailbox.channel_of, GpuMailbox.payload_of, u32. split; apply Z.bits_inj_iff'; intros i Hi.
  - change 0xf with (Z.ones 4). rewrite Z.land_spec, ones_testbit by lia. case_bool_decide as H4.
    + rewrite Z.mod_pow2_bits_low, Z.lor_spec, Hlow, andb_true_r by lia. done.
    + rewrite andb_false_r. symmetry. apply (testbit_above 8 4); lia.
  - change 0xfffffff0 with (Z.ldiff (Z.ones 32) (Z.ones 4)). rewrite Z.land_spec, Z.ldiff_spec, !ones_testbit by lia.
    destruct (decide (i < 32)) as [H32|H32].
    + rewrite Z.mod_pow2_bits_low, Z.lor_spec by lia. rewrite (bool_decide_eq_true_2 (i < 32)) by done. case_bool_decide as H4.
      * rewrite Hlow by lia. by rewrite andb_false_r.
      * rewrite (testbit_above 8 4 i) by lia. by rewrite orb_false_r, !andb_true_r.
    + rewrite (bool_decide_eq_false_2 (i < 32)), andb_false_r by lia. symmetry. by apply (testbit_above p 32); unfold is_u32 in Hp; lia.
Qed.

Section incoming.
Import GpuMailbox.
Implicit Types (d : mailboxes) (q : requests) (e : machine).

Definition holding d (p : Z) : mailboxes := set_channels (alter (set_received_message p) 8%nat (channels d)) d.

(** The interrupt handler puts the answer into the channel of the requests and wakes the pump. *)
Lemma interrupt_takes_answer t d q e p pump client : quiet d → property_channel d pump client → pump ≠ 0 →
  blocked_sending_thread d = 0 → aligned_request p → fifo e = [u32 (Z.lor p 8)] → interrupts_on e = true →
  let on := mailbox_on_requests t in
  mailbox_interrupt (Sys d (Sys q e)) =
  Ok () (Sys (holding d p) (Sys q (Machine [] true (sent e) ({[pump]} ∪ woken e)))).
Proof.
  intros [Hl Hr Hb] [l Hch] Hpump Hs Hp Hf Hon on. destruct (request_message p Hp) as [Hc Hpay].
  destruct e as [f o se wo]. cbn in Hf, Hon. subst f o. set (m := u32 (Z.lor p 8)) in *.
  unfold mailbox_interrupt, read. erewrite (ask_known _ _ _ _ 0x11) by reflexivity. cbn [vars world]. unfold handle_pending.
  change (bool_decide (Z.land 17 16 ≠ 0)) with true. cbn [when].
  assert (Ed : deliver_blocking_message (Sys d (Sys q (Machine [m] true se wo))) = Ok () (Sys d (Sys q (Machine [m] true se wo)))).
  { unfold deliver_blocking_message. rewrite get_var_ok. cbn [vars]. rewrite Hb. done. }
  assert (Edr : drain drain_fuel (Sys d (Sys q (Machine [m] true se wo))) =
    Ok () (Sys (holding d p) (Sys q (Machine [] true se ({[pump]} ∪ wo))))).
  { unfold drain_fuel. cbn [drain]. unfold read. erewrite (ask_known _ _ _ _ 0) by reflexivity. change (bool_decide (Z.land 0 0x40000000 = 0)) with true. cbv iota.
    erewrite (ask_known _ _ _ _ m) by reflexivity. cbv zeta. rewrite Hc.
    erewrite get_channel_runs by exact Hch. cbn [GpuMailbox.waiting_thread GpuMailbox.received_message].
    rewrite bool_decide_eq_false_2 by done. change (bool_decide (0 = 0)) with true. cbv iota. rewrite Hpay.
    unfold upd_channel. rewrite upd_var_ok. cbn [vars world]. erewrite ask_known by reflexivity. erewrite (ask_known _ _ _ _ 0x40000000) by reflexivity. done. }
  unfold mbind at 1, M_bind at 1. unfold mbind at 1, M_bind at 1. rewrite Ed. unfold mbind at 1, M_bind at 1. rewrite Edr.
  rewrite get_var_ok. cbn [vars]. change (blocking_message (holding d p)) with (blocking_message d). rewrite Hb.
  change (bool_decide (0 ≠ 0)) with false. cbn [when]. rewrite ret_ok, get_var_ok. cbn [vars].
  change (blocked_sending_thread (holding d p)) with (blocked_sending_thread d). by rewrite Hs.
Qed.
End incoming.

Section pumping.
Import GpuMailbox.
Implicit Types (d : mailboxes) (q : requests) (e : machine).

Lemma holding_channel d p l pump client i : quiet d → channels d !! 8%nat = Some (Channel l pump 0 client) → 0 ≤ i < 16 →
  ∃ ch, channels (holding d p) !! Z.to_nat i = Some ch ∧
    (i = 8 → ch = Channel l pump p client) ∧ (i ≠ 8 → received_message ch = 0).
Proof.
  intros [Hl Hr _] Hch Hi. cbn. destruct (decide (i = 8)) as [->|Hne].
  - exists (Channel l pump p client). split; [| done]. change (Z.to_nat 8) with 8%nat. by rewrite list_lookup_alter_eq, Hch.
  - destruct (lookup_lt_is_Some_2 (channels d) (Z.to_nat i)) as [ch Ei]; [lia |]. exists ch.
    rewrite list_lookup_alter_ne by lia. split; [done |]. split; [done |]. intros _. by apply (Forall_lookup_1 _ _ _ _ Hr Ei).
Qed.

Lemma release_holding d p l pump client : channels d !! 8%nat = Some (Channel l pump 0 client) →
  set_channels (alter (set_received_message 0) 8%nat (channels (holding d p))) (holding d p) = d.
Proof.
  intros Hch. destruct d as [cs b s pt]. unfold holding, set_channels in *. cbn [channels GpuMailbox.blocking_message blocked_sending_thread pump_thread] in *. f_equal.
  apply list_eq. intros i. destruct (decide (i = 8%nat)) as [->|Hne].
  - by rewrite !list_lookup_alter_eq, Hch.
  - by rewrite !list_lookup_alter_ne.
Qed.

(** The scan begins behind the last channel, passes the channels that hold nothing and comes to 8. *)
Lemma scan_finds t d w p l pump client last n i : quiet d → channels d !! 8%nat = Some (Channel l pump 0 client) →
  p ≠ 0 → 0 ≤ last < 16 → 0 ≤ i ≤ (8 - last) mod 16 → (8 - last) mod 16 < i + Z.of_nat n →
  let on := mailbox_on_requests t in
  pump_scan n i pump last (Sys (holding d p) w) =
  (_ ← upd_channel 8 (set_received_message 0);
   _ ← ask (incoming_message client p);
   b ← get_var blocking_message;
   _ ← when (bool_decide (b ≠ 0)) (write (Mailbox 0 config) 1);
   mret 8) (Sys (holding d p) w).
Proof.
  intros Hq Hch Hp Hlast Hi Hn on. revert i Hi Hn. induction n as [|n IH]; intros i Hi Hn; [lia |].
  cbn [pump_scan]. cbv zeta. pose proof (Z.mod_pos_bound (last + i) 16 eq_refl) as Hm.
  destruct (holding_channel d p l pump client _ Hq Hch Hm) as (ch & Ech & H8 & Hne).
  rewrite (get_channel_runs _ _ _ _ _ Ech).
  assert (Hiff : (last + i) mod 16 = 8 ↔ i = (8 - last) mod 16).
  { pose proof (Z.div_mod (last + i) 16). pose proof (Z.div_mod (8 - last) 16). pose proof (Z.mod_pos_bound (8 - last) 16). lia. }
  destruct (decide ((last + i) mod 16 = 8)) as [E8|E8].
  - rewrite (H8 E8), E8. cbn [waiting_thread received_message GpuMailbox.client].
    by rewrite !bool_decide_eq_true_2 by done.
  - rewrite (Hne E8). change (bool_decide (0 ≠ 0)) with false. rewrite andb_false_r. apply IH; [| lia].
    assert (i ≠ (8 - last) mod 16) by (intros Ei; by apply E8, Hiff). lia.
Qed.

Lemma pump_delivers t d q e p pump client l last q' e' : quiet d → channels d !! 8%nat = Some (Channel l pump 0 client) →
  p ≠ 0 → 0 ≤ last < 16 → GPU_MAILBOX__GPU_MAILBOX_CLIENT__incoming_message client p (Sys q e) = Ok () (Sys q' e') →
  let on := mailbox_on_requests t in
  pump_one pump last (Sys (holding d p) (Sys q e)) = Ok 8 (Sys d (Sys q' e')).
Proof.
  intros Hq Hch Hp Hlast Hin on. unfold pump_one. pose proof (Z.mod_pos_bound (8 - last) 16 eq_refl).
  rewrite (scan_finds t d _ p l pump client last 17 0 Hq Hch Hp Hlast) by lia.
  unfold upd_channel. rewrite upd_var_ok. cbn [vars world]. change (Z.to_nat 8) with 8%nat. rewrite (release_holding d p l pump client Hch).
  erewrite ask_known by exact Hin. rewrite get_var_ok. cbn [vars]. rewrite (qu_blocking d Hq). done.
Qed.
End pumping.

(** ** The whole way *)
Definition gpu_turn (s : path) : path := Sys (vars s) (Sys (vars (world s)) (gpu_answers (world (world s)))).
Definition machine_of (s : path) : machine := world (world s).

(** The requests have their channel, and no message is on its way. *)
Record connected (pt client : Z) (s : path) : Prop := {
  co_queue : good_queue (vars s);
  co_mailbox : mailbox (vars s) = 1008;
  co_quiet : quiet (vars (world s));
  co_channel : property_channel (vars (world s)) pt client;
  co_pump : pt ≠ 0;
  co_client : client ≠ 0;
  co_fifo : fifo (machine_of s) = [];
  co_sent : sent (machine_of s) = [];
}.

Lemma run_mailbox_ok {A} (m : M (sys GpuMailbox.mailboxes on_requests_world) A) q d e a q' d' e' :
  m (Sys d (Sys q e)) = Ok a (Sys d' (Sys q' e')) → run_mailbox m (Sys q (Sys d e)) = Ok a (Sys q' (Sys d' e')).
Proof. intros E. unfold run_mailbox. cbn [vars world]. by rewrite E. Qed.

(** The state when the request has gone out. *)
Definition after_send (t p : Z) (s : path) : path :=
  Sys (set_tag_lock 0 (pushed (vars s) (Request p t)))
    (Sys (GpuMailbox.set_blocked_sending_thread 0 (vars (world s)))
       (Machine [] true [u32 (Z.lor p 8)] (woken (machine_of s) ∖ {[t]}))).

Lemma request_goes_out pa_of polls t p pt client s : connected pt client s → aligned_request p →
  sends_request pa_of (S polls) t p s = Ok () (after_send t p s).
Proof.
  intros H Hp. destruct s as [q [d e]]. destruct H as [_ Hm _ Hch _ Hc Hf Hs]. cbn in Hm, Hch, Hf, Hs.
  unfold sends_request, tag_request_send. rewrite get_var_ok, upd_var_ok, upd_var_ok, get_var_ok. cbn [vars world].
  erewrite ask_known.
  2: { unfold queue_message, requests_on_mailbox. cbn [mailbox set_head set_request]. rewrite Hm. change (1008 - 1000) with 8.
       unfold result_of. unfold mbind, M_bind. rewrite (queue_message_sends polls t d e p pt client Hch Hc). reflexivity. }
  rewrite Hf, Hs, u32_id by apply Hp. done.
Qed.

Lemma quiet_sending d : quiet d → quiet (GpuMailbox.set_blocked_sending_thread 0 d).
Proof. by intros []. Qed.

Lemma sent_good q r : good_queue q → good_queue (set_tag_lock 0 (pushed q r)).
Proof. intros Hq. by destruct (pushed_good q r Hq). Qed.

Lemma answered_mailbox q k : mailbox (answered q k) = mailbox q.
Proof. unfold answered. by case_decide. Qed.

Lemma unblocked_good q : good_queue q → good_queue (set_blocked_thread 0 q).
Proof. by intros []. Qed.

(** Only the request that was sent has its address. *)
Lemma pushed_answer q t p k : good_queue q → (queue_length q < 63)%nat → (∀ r, r ∈ queue q → pa r ≠ p) →
  let q1 := set_tag_lock 0 (pushed q (Request p t)) in
  (k < queue_length q1)%nat → answers q1 p k → entry_at q1 k = Request p t ∧ queue (answered q1 k) ≡ₚ queue q.
Proof.
  intros Hq Hn Hu q1 Hk [_ Ha]. assert (Hg : good_queue q1) by (by apply sent_good).
  assert (Eq : queue q1 = queue q ++ [Request p t]) by (by apply pushed_queue).
  assert (Hin : entry_at q1 k ∈ queue q1) by (apply elem_of_queue; by exists k).
  assert (Ee : entry_at q1 k = Request p t).
  { rewrite Eq in Hin. apply elem_of_app in Hin as [Hin|Hin]; [by apply Hu in Hin | by apply list_elem_of_singleton in Hin]. }
  split; [done |]. pose proof (answered_queue q1 k Hg Hk) as Hperm. rewrite Ee, Eq in Hperm.
  rewrite Permutation_app_comm in Hperm. by apply Permutation_cons_inv in Hperm.
Qed.

(** C21: A property request makes its way through both drivers and back.  From any state in
    which no message is on its way and the queue has room, sending it puts the buffer's address with
    the channel into the GPU's FIFO and queues the thread; when the GPU gives it back, the interrupt handler sorts it into
    the channel and wakes the pump, and the pump's next round finds it, whichever
    channel it served last, takes the request out of the queue and wakes the thread that sent it.
    Then no message is on its way again. *)
Theorem request_comes_back pa_of polls t t' p pt client last s :
  connected pt client s → (queue_length (vars s) < 63)%nat → (∀ r, r ∈ queue (vars s) → pa r ≠ p) →
  t ≠ 0 → aligned_request p → 0 ≤ last < 16 →
  ∃ s1 s2 s3, sends_request pa_of (S polls) t p s = Ok () s1 ∧ queue (vars s1) = queue (vars s) ++ [Request p t] ∧
    t ∉ woken (machine_of s1) ∧
    interrupt t' (gpu_turn s1) = Ok () s2 ∧ pt ∈ woken (machine_of s2) ∧
    pump pt last s2 = Ok 8 s3 ∧ t ∈ woken (machine_of s3) ∧ queue (vars s3) ≡ₚ queue (vars s) ∧ connected pt client s3.
Proof.
  intros Hs Hn Hu Ht Hp Hlast. pose proof (request_goes_out pa_of polls t p pt client s Hs Hp) as E1.
  pose proof Hs as [Hq Hm Hqu [l Hch] Hpt Hc Hf Hsent]. destruct s as [q [d e]]. cbn in Hq, Hm, Hqu, Hch, Hn, Hu.
  set (q1 := set_tag_lock 0 (pushed q (Request p t))) in *. set (d1 := GpuMailbox.set_blocked_sending_thread 0 d).
  set (e2 := Machine [] true [] ({[pt]} ∪ woken e ∖ {[t]})).
  assert (Eq1 : queue q1 = queue q ++ [Request p t]) by (by apply pushed_queue).
  destruct (wp_never_stops _ _ _ (incoming_message_ok q1 e2 client p ltac:(by apply sent_good)
    ltac:(exists (Request p t); split; [rewrite Eq1; set_solver | done]))) as ([] & [q3 e3] & Ein & k & Hk & Hak & Hq3 & Hfl & Hg).
  cbn [vars world] in Hq3, Hfl, Hg. destruct (pushed_answer q t p k Hq Hn Hu Hk Hak) as [Ee Hperm]. fold q1 in Ee, Hperm.
  exists (after_send t p (Sys q (Sys d e))), (Sys q1 (Sys (holding d1 p) e2)), (Sys q3 (Sys d1 e3)).
  split; [exact E1 |]. split; [exact Eq1 |]. split; [cbn; set_solver |]. split.
  { set (e1 := Machine [u32 (Z.lor p 8)] true [] (woken e ∖ {[t]})).
    refine (run_mailbox_ok _ q1 d1 e1 () q1 (holding d1 p) e2 _).
    exact (interrupt_takes_answer t' d1 q1 e1 p pt client (quiet_sending d Hqu) (ex_intro _ l Hch) Hpt eq_refl Hp eq_refl eq_refl). }
  split; [cbn; set_solver |]. split.
  { apply run_mailbox_ok. exact (pump_delivers pt d1 q1 e2 p pt client l last q3 e3 (quiet_sending d Hqu) Hch ltac:(apply Hp) Hlast Ein). }
  split; [cbn; change (gates e3) with (woken e3) in Hg; rewrite Hg, Ee; cbn; set_solver |].
  split; [cbn; rewrite Hq3; exact Hperm |].
  change (fifo e3 ++ sent e3 = []) in Hfl. apply app_nil in Hfl as [Hf3 Hs3]. split; try done; cbn [vars world].
  - rewrite Hq3. apply unblocked_good, answered_good. by apply sent_good.
  - rewrite Hq3. change (mailbox (answered q1 k) = 1008). by rewrite answered_mailbox.
  - by apply quiet_sending.
  - by exists l.
Qed.

(** The first request of all connects the mailbox: the client is registered for channel 8 and
    the pump is created. *)
Definition start_path : path :=
  match begins_request id 1 7 0x12340 initial_path with Ok _ s | Stop _ s => s end.

Lemma start_path_connected : connected 99 0x600 start_path.
Proof.
  split; try (vm_compute; reflexivity); try discriminate.
  - split; vm_compute; [reflexivity | split; discriminate || reflexivity | split; discriminate || reflexivity].
  - split; [vm_compute; reflexivity | | vm_compute; reflexivity].
    apply (bool_decide_unpack _). vm_compute. exact I.
  - exists false. vm_compute. reflexivity.
Qed.

Lemma request_comes_back_witness :
  begins_request id 1 7 0x12340 initial_path = Ok (0x12340, false) start_path ∧
  ∃ s1 s2 s3, sends_request id 1 7 0x12340 start_path = Ok () s1 ∧ interrupt 0 (gpu_turn s1) = Ok () s2 ∧
    pump 99 0 s2 = Ok 8 s3 ∧ 7 ∈ woken (machine_of s3).
Proof.
  split; [vm_compute; reflexivity |].
  destruct (request_comes_back id 0 7 0 0x12340 99 0x600 0 start_path start_path_connected) as
    (s1 & s2 & s3 & E1 & _ & _ & E2 & _ & E3 & Hw & _); [vm_compute; lia | | lia | | lia |].
  - intros r Hr. exfalso. apply list_elem_of_lookup in Hr as [i Hi]. revert Hi. by vm_compute.
  - split; [unfold is_u32; lia |]. split; [lia | reflexivity].
  - by exists s1, s2, s3.
Defined.
