(* ===== verification/SdCard.v ===== *)
(** * The SD card driver

    [drivers/pi3gpu/sd.c]: the driver of the SD host controller.  A thread starts a command
    and waits; [emmc_interrupt] takes the response, starts the second half of an application
    command, copies data and wakes the thread.

    The gate of a thread ([Gate]) is a variable here: the number of times the thread has
    been woken, or [THREAD_WAITING].  A wait on an open gate takes all of them.  An interrupt
    can come before the thread has begun to wait ([interrupts_due]) or while it waits
    ([interrupt_awaited]); [patience] bounds the interrupts that a thread sits through and the
    times that a status register is polled.

    [mapped_memory] is the page of debug output; it is mapped before the driver starts.
    Calls of TRIVIAL_NUMERIC_DISPLAY draw on the screen and change nothing else; they are left
    out.  [block_data] only ever points at [current_device.scr].  The threads that the build
    does not start ([show_page_thread], [hammer_tag_interface], [ping_thread], [pong_thread]) and
    a request inside [if (0)] are not modelled. *)

From S2P Require Import Prelude GpuDevices.

(** ** What the driver uses *)
Class SdWorld (E : Type) : Type := {
  sd_devices :: Devices E;
  interrupts_due : M E nat;
  interrupt_awaited : M E bool;
  sleep_ms : Z → M E unit;
  mailbox_tag_request : list Z → M E (list Z);     (* the words of the buffer, before and after *)
  physical_address_of : Z → M E Z;
  block_is_read_only : Z → M E bool;               (* PHYSICAL_MEMORY_BLOCK *)
  block_size_of : Z → M E Z;
  block_physical_address : Z → M E Z;
  register_service : M E unit;                     (* "EMMC" *)
}.

(** ** State *)

(** [sd_states] *)
Definition idle : Z := 0.
Definition ready : Z := 1.
Definition ident : Z := 2.
Definition stby : Z := 3.
Definition tran : Z := 4.

Definition THREAD_WAITING : Z := -1.

Record card : Type := Card {
  acmd41_response : Z;
  cid : list Z;
  scr : list Z;
}.

Record sdcard : Type := SdVars {
  command_thread : Z;
  current_cmdtm : Z;
  pending_app_cmdtm : Z;
  pending_app_command_arg : Z;
  acmd_expected_state : Z;
  data_thread : Z;
  block_data : bool;              (* false: a null pointer *)
  block_index : Z;
  block_size : Z;
  response : list Z;
  mapped_memory : list Z;
  current_device : card;
  base_clock_rate_hz : Z;
  dma_cntrl : list Z;             (* TI, SOURCE_AD, DEST_AD, TXFR_LEN, STRIDE, NEXTCONBK *)
  gates : gmap Z Z;
}.

Definition initial_sdcard : sdcard :=
  SdVars 0 0 0 0 idle 0 false 0 0 [0; 0; 0; 0] (replicate 1024 0x80000000)
    (Card 0 [0; 0; 0; 0] [0; 0]) 0 [0; 0; 0; 0; 0; 0] ∅.

Definition set_command_thread (v : Z) (d : sdcard) : sdcard :=
  SdVars v (current_cmdtm d) (pending_app_cmdtm d) (pending_app_command_arg d) (acmd_expected_state d)
    (data_thread d) (block_data d) (block_index d) (block_size d) (response d) (mapped_memory d)
    (current_device d) (base_clock_rate_hz d) (dma_cntrl d) (gates d).
Definition set_current_cmdtm (v : Z) (d : sdcard) : sdcard :=
  SdVars (command_thread d) v (pending_app_cmdtm d) (pending_app_command_arg d) (acmd_expected_state d)
    (data_thread d) (block_data d) (block_index d) (block_size d) (response d) (mapped_memory d)
    (current_device d) (base_clock_rate_hz d) (dma_cntrl d) (gates d).
Definition set_pending_app_cmdtm (v : Z) (d : sdcard) : sdcard :=
  SdVars (command_thread d) (current_cmdtm d) v (pending_app_command_arg d) (acmd_expected_state d)
    (data_thread d) (block_data d) (block_index d) (block_size d) (response d) (mapped_memory d)
    (current_device d) (base_clock_rate_hz d) (dma_cntrl d) (gates d).
Definition set_pending_app_command_arg (v : Z) (d : sdcard) : sdcard :=
  SdVars (command_thread d) (current_cmdtm d) (pending_app_cmdtm d) v (acmd_expected_state d) (data_thread d)
    (block_data d) (block_index d) (block_size d) (response d) (mapped_memory d) (current_device d)
    (base_clock_rate_hz d) (dma_cntrl d) (gates d).
Definition set_acmd_expected_state (v : Z) (d : sdcard) : sdcard :=
  SdVars (command_thread d) (current_cmdtm d) (pending_app_cmdtm d) (pending_app_command_arg d) v
    (data_thread d) (block_data d) (block_index d) (block_size d) (response d) (mapped_memory d)
    (current_device d) (base_clock_rate_hz d) (dma_cntrl d) (gates d).
Definition set_data_thread (v : Z) (d : sdcard) : sdcard :=
  SdVars (command_thread d) (current_cmdtm d) (pending_app_cmdtm d) (pending_app_command_arg d)
    (acmd_expected_state d) v (block_data d) (block_index d) (block_size d) (response d) (mapped_memory d)
    (current_device d) (base_clock_rate_hz d) (dma_cntrl d) (gates d).
Definition set_block_data (v : bool) (d : sdcard) : sdcard :=
  SdVars (command_thread d) (current_cmdtm d) (pending_app_cmdtm d) (pending_app_command_arg d)
    (acmd_expected_state d) (data_thread d) v (block_index d) (block_size d) (response d) (mapped_memory d)
    (current_device d) (base_clock_rate_hz d) (dma_cntrl d) (gates d).
Definition set_block_index (v : Z) (d : sdcard) : sdcard :=
  SdVars (command_thread d) (current_cmdtm d) (pending_app_cmdtm d) (pending_app_command_arg d)
    (acmd_expected_state d) (data_thread d) (block_data d) v (block_size d) (response d) (mapped_memory d)
    (current_device d) (base_clock_rate_hz d) (dma_cntrl d) (gates d).
Definition set_block_size (v : Z) (d : sdcard) : sdcard :=
  SdVars (command_thread d) (current_cmdtm d) (pending_app_cmdtm d) (pending_app_command_arg d)
    (acmd_expected_state d) (data_thread d) (block_data d) (block_index d) v (response d) (mapped_memory d)
    (current_device d) (base_clock_rate_hz d) (dma_cntrl d) (gates d).
Definition set_response (v : list Z) (d : sdcard) : sdcard :=
  SdVars (command_thread d) (current_cmdtm d) (pending_app_cmdtm d) (pending_app_command_arg d)
    (acmd_expected_state d) (data_thread d) (block_data d) (block_index d) (block_size d) v (mapped_memory d)
    (current_device d) (base_clock_rate_hz d) (dma_cntrl d) (gates d).
Definition set_mapped_memory (v : list Z) (d : sdcard) : sdcard :=
  SdVars (command_thread d) (current_cmdtm d) (pending_app_cmdtm d) (pending_app_command_arg d)
    (acmd_expected_state d) (data_thread d) (block_data d) (block_index d) (block_size d) (response d) v
    (current_device d) (base_clock_rate_hz d) (dma_cntrl d) (gates d).
Definition set_current_device (v : card) (d : sdcard) : sdcard :=
  SdVars (command_thread d) (current_cmdtm d) (pending_app_cmdtm d) (pending_app_command_arg d)
    (acmd_expected_state d) (data_thread d) (block_data d) (block_index d) (block_size d) (response d)
    (mapped_memory d) v (base_clock_rate_hz d) (dma_cntrl d) (gates d).
Definition set_base_clock_rate_hz (v : Z) (d : sdcard) : sdcard :=
  SdVars (command_thread d) (current_cmdtm d) (pending_app_cmdtm d) (pending_app_command_arg d)
    (acmd_expected_state d) (data_thread d) (block_data d) (block_index d) (block_size d) (response d)
    (mapped_memory d) (current_device d) v (dma_cntrl d) (gates d).
Definition set_dma_cntrl (v : list Z) (d : sdcard) : sdcard :=
  SdVars (command_thread d) (current_cmdtm d) (pending_app_cmdtm d) (pending_app_command_arg d)
    (acmd_expected_state d) (data_thread d) (block_data d) (block_index d) (block_size d) (response d)
    (mapped_memory d) (current_device d) (base_clock_rate_hz d) v (gates d).
Definition set_gates (v : gmap Z Z) (d : sdcard) : sdcard :=
  SdVars (command_thread d) (current_cmdtm d) (pending_app_cmdtm d) (pending_app_command_arg d)
    (acmd_expected_state d) (data_thread d) (block_data d) (block_index d) (block_size d) (response d)
    (mapped_memory d) (current_device d) (base_clock_rate_hz d) (dma_cntrl d) v.

(** ** Commands *)

(** [cmds] and [acmds]; the entries in between are 0. *)
Definition cmds (n : Z) : Z :=
  match n with
  | 0 => 0x00000000 | 2 => 0x02090000 | 3 => 0x030a0000 | 7 => 0x070b0000 | 8 => 0x080a0000 | 11 => 0x0b0a0000
  | 17 => 0x112a0010 | 18 => 0x122a0036 | 55 => 0x370a0000
  | _ => 0
  end.
Definition acmds (n : Z) : Z :=
  match n with 6 => 0x06020000 | 41 => 0x29020000 | 51 => 0x33220010 | _ => 0 end.

(** [enum device_power_state], and the devices and clocks that are used *)
Definition POWER_STATE_OFF : Z := 0.
Definition POWER_STATE_ON : Z := 1.
Definition SD_Card : Z := 0.
Definition CLK_EMMC : Z := 1.

(** The bits of [acmd41_response] *)
Definition card_s18 (r : Z) : Z := get_bits 24 1 r.
Definition card_sdhc (r : Z) : Z := get_bits 30 1 r.
Definition card_busy (r : Z) : Z := get_bits 31 1 r.

(** The state of the card in a response: [(response[0] >> 9) & 0xf] *)
Definition card_state (r : Z) : Z := Z.land (Z.shiftr r 9) 0xf.

Section sd.
Context {E : Type} `{!SdWorld E} (patience : nat) (this_thread : Z).

#[local] Abbreviation D := (M (sys sdcard E)).

(** [mapped_memory[i]] and the macros of the debug words *)
Definition set_mapped (i v : Z) : D unit := upd_var (λ d, set_mapped_memory (<[Z.to_nat i := u32 v]> (mapped_memory d)) d).
Definition get_mapped (i : Z) : D Z := get_var (λ d, default 0 (mapped_memory d !! Z.to_nat i)).
Definition set_debug_progress : Z → D unit := set_mapped 48.
Definition set_debug_last_command : Z → D unit := set_mapped 49.
Definition set_debug_last_interrupts : Z → D unit := set_mapped 51.
Definition upd_debug_all_interrupts (f : Z → Z) : D unit := v ← get_mapped 52; set_mapped 52 (f v).
Definition upd_debug_interrupted (f : Z → Z) : D unit := v ← get_mapped 53; set_mapped 53 (f v).

Definition response_word (i : Z) : D Z := get_var (λ d, default 0 (response d !! Z.to_nat i)).
Definition set_response_word (i v : Z) : D unit := upd_var (λ d, set_response (<[Z.to_nat i := v]> (response d)) d).

(** ** Gates *)
Definition gate (t : Z) (d : sdcard) : Z := default 0 (gates d !! t).
Definition set_gate (t v : Z) : D unit := upd_var (λ d, set_gates (<[t := v]> (gates d)) d).
Definition wake_thread (t : Z) : D unit :=
  g ← get_var (gate t);
  if bool_decide (g = THREAD_WAITING) then set_gate t 0
  else when (bool_decide (g < 0x7fffffff)) (set_gate t (g + 1)).

(** ** The interrupt handler *)

(** [while (block_size > 0) { ... }]; [block_size] is a multiple of 4. *)
Fixpoint read_block (fuel : nat) : D unit :=
  n ← get_var block_size;
  when (bool_decide (0 < n)%Z)
    match fuel with
    | O => halt (Spin 157)
    | S fuel =>
        i ← get_var block_index;
        p ← get_var block_data;
        _ ← guard_stop (negb p || bool_decide (2 ≤ i)%Z) (Fault i);
        v ← read (Emmc DATA);
        _ ← upd_var (λ d, set_current_device
              (Card (acmd41_response (current_device d)) (cid (current_device d))
                 (<[Z.to_nat i := v]> (scr (current_device d)))) d);
        _ ← upd_var (set_block_index (i + 1));
        _ ← upd_var (set_block_size (u32 (n - 4)));
        read_block fuel
    end.

(** Bit 0: the command is complete.  An application command is started when its CMD55 is. *)
Definition command_complete : D unit :=
  r ← read (Emmc RESP0);
  _ ← set_response_word 0 r;
  current ← get_var current_cmdtm;
  _ ← when (bool_decide (Z.land current 0x30000 = 0x10000))
        (r1 ← read (Emmc RESP1); _ ← set_response_word 1 r1;
         r2 ← read (Emmc RESP2); _ ← set_response_word 2 r2;
         r3 ← read (Emmc RESP3); set_response_word 3 r3);
  r0 ← response_word 0; _ ← set_mapped 32 r0;
  r1 ← response_word 1; _ ← set_mapped 33 r1;
  r2 ← response_word 2; _ ← set_mapped 34 r2;
  r3 ← response_word 3; _ ← set_mapped 35 r3;
  _ ← set_mapped 36 current;
  pending ← get_var pending_app_cmdtm; _ ← set_mapped 37 pending;
  arg ← get_var pending_app_command_arg; _ ← set_mapped 38 arg;
  expected ← get_var acmd_expected_state; _ ← set_mapped 39 expected;
  _ ← set_mapped 40 (card_state r0);
  if bool_decide (current = cmds 55) then
    if bool_decide (card_state r0 ≠ expected) then halt (Brk 2)
    else if bool_decide (pending ≠ 0) then
      _ ← upd_var (set_current_cmdtm pending);
      _ ← upd_var (set_pending_app_cmdtm 0);
      _ ← write (Emmc ARG1) arg;
      write (Emmc CMDTM) pending
    else halt (Brk 2)
  else
    t ← get_var command_thread;
    if bool_decide (t ≠ 0) then wake_thread t else halt (Brk 2).

(** Bit 1: the data transfer is complete. *)
Definition data_complete : D unit :=
  t ← get_var data_thread;
  if bool_decide (t ≠ 0) then
    _ ← upd_debug_all_interrupts (λ v, v + 0x1000000);
    wake_thread t
  else
    _ ← upd_debug_interrupted (λ v, v + 0x100);
    halt (Brk 5).

Definition interrupt_bit (n new_interrupts : Z) : bool := bool_decide (Z.land new_interrupts n ≠ 0).

Definition emmc_interrupt : D unit :=
  new_interrupts ← read (Emmc INTERRUPT);
  _ ← set_mapped 7 new_interrupts;
  c ← get_mapped 6;
  _ ← set_mapped 6 (c + 1);
  _ ← when (bool_decide (new_interrupts ≠ 0))
        (_ ← set_debug_last_interrupts new_interrupts;
         _ ← upd_debug_all_interrupts (λ v, Z.lor v new_interrupts);
         _ ← upd_debug_interrupted (λ v, v + 1);
         _ ← write (Emmc INTERRUPT) new_interrupts;
         _ ← when (interrupt_bit 0x1 new_interrupts) command_complete;
         _ ← when (interrupt_bit 0x2 new_interrupts) data_complete;
         _ ← when (interrupt_bit 0x10 new_interrupts) (halt (Brk 1));
         n ← get_var block_size;
         _ ← when (interrupt_bit 0x20 new_interrupts) (read_block (Z.to_nat n));
         when (interrupt_bit 0x100 new_interrupts) (halt (Brk 7)));
  when (bool_decide (Z.land new_interrupts (Z.lnot 0x33) ≠ 0)) (halt (Brk 1)).

(** ** Waiting *)
Fixpoint run_interrupts (n : nat) : D unit :=
  match n with O => mret () | S n => _ ← emmc_interrupt; run_interrupts n end.

(** The thread is blocked until an interrupt wakes it; [Spin] when none does. *)
Fixpoint blocked_wait (fuel : nat) : D unit :=
  match fuel with
  | O => halt (Spin 0)
  | S fuel =>
      comes ← ask interrupt_awaited;
      if (comes : bool) then
        _ ← emmc_interrupt;
        g ← get_var (gate this_thread);
        if bool_decide (g = THREAD_WAITING) then blocked_wait fuel else mret ()
      else halt (Spin 0)
  end.

Definition wait_until_woken : D unit :=
  n ← ask interrupts_due;
  _ ← run_interrupts n;
  g ← get_var (gate this_thread);
  if bool_decide (g > 0) then set_gate this_thread 0
  else _ ← set_gate this_thread THREAD_WAITING; blocked_wait patience.

(** ** Commands *)
Definition cmdtm (cmd_code arg : Z) : D unit :=
  _ ← set_debug_last_command cmd_code;
  _ ← upd_var (set_command_thread this_thread);
  _ ← upd_var (set_current_cmdtm cmd_code);
  _ ← write (Emmc ARG1) arg;
  _ ← write (Emmc CMDTM) cmd_code;
  _ ← wait_until_woken;
  when (bool_decide (cmd_code ≠ cmds 55)) (upd_var (set_command_thread 0)).

Definition command (cmd arg : Z) : D unit :=
  _ ← guard_stop (bool_decide (cmd ≠ 0) && bool_decide (cmds cmd = 0)) (Brk 2);
  cmdtm (cmds cmd) arg.

Definition app_command (acmd expected_state shifted_rca arg : Z) : D unit :=
  _ ← guard_stop (bool_decide (acmds acmd = 0)) (Brk 2);
  _ ← upd_var (set_pending_app_cmdtm (acmds acmd));
  _ ← upd_var (set_pending_app_command_arg arg);
  _ ← upd_var (set_acmd_expected_state expected_state);
  command 55 shifted_rca.

(** ** Power and clock, through the property mailbox *)
Definition word (i : nat) (request : list Z) : Z := default 0 (request !! i).
Definition answered (request : list Z) : bool :=
  bool_decide (word 1 request = 0x80000000) && bool_decide (word 4 request = 0x80000008).

Definition power_state (id : Z) : D Z :=
  request ← ask (mailbox_tag_request [32; 0; 0x00020001; 8; 0; id; 0; 0]);
  mret (if answered request then word 6 request else 0).

Definition power_down (id : Z) : D bool :=
  state ← power_state id;
  if bool_decide (state = POWER_STATE_OFF) then
    request ← ask (mailbox_tag_request [32; 0; 0x00028001; 8; 0; id; 2; 0]);
    mret (answered request && bool_decide (word 5 request = id))
  else mret true.

Definition power_up (id : Z) : D bool :=
  state ← power_state id;
  if bool_decide (state = POWER_STATE_OFF) then
    request ← ask (mailbox_tag_request [32; 0; 0x00028001; 8; 0; id; 1; 0]);
    if answered request && bool_decide (word 5 request = id) then
      state ← power_state id;
      mret (bool_decide (state = POWER_STATE_ON))
    else mret false
  else mret true.

Definition base_clock_rate (clock_id : Z) : D Z :=
  request ← ask (mailbox_tag_request [32; 0; 0x00030002; 8; 0; clock_id; 0; 0]);
  mret (if answered request then word 6 request else 0).

(** [while (devices... & mask == or != 0) { sleep_ms( 1 ); }] *)
Fixpoint poll (fuel : nat) (r : device) (done : Z → bool) : D unit :=
  match fuel with
  | O => halt (Spin 1)
  | S fuel =>
      v ← read r;
      if done v then mret () else _ ← ask (sleep_ms 1); poll fuel r done
  end.

(** [set_clock_rate], split where it reads CONTROL1 *)
Definition clock_divider (base target_rate : Z) : Z := (base + target_rate - 1) / target_rate.

(** The value of CONTROL1 with the internal clock on, the timeout at its maximum and the divider. *)
Definition with_divider (control1 divider : Z) : Z :=
  let control1 := Z.lor control1 0x00000001 in
  let control1 := Z.land control1 0xfff0ffdf in
  let control1 := Z.lor control1 0x000e0000 in
  let control1 := Z.land control1 0xffff003f in
  Z.lor control1 (Z.lor (Z.shiftl (Z.land divider 0xff) 8) (Z.shiftr (Z.land divider 0x300) 2)).

Definition write_divider (divider : Z) : D unit :=
  control1 ← read (Emmc CONTROL1);
  control1 ← (if bool_decide (Z.land control1 4 = 0) then
      _ ← set_debug_progress 0x63;
      let control1 := Z.land control1 0xfffffffb in
      _ ← write (Emmc CONTROL1) control1;
      _ ← ask (sleep_ms 2);
      mret control1
    else mret control1);
  let control1 := with_divider control1 divider in
  _ ← write (Emmc CONTROL1) control1;
  _ ← ask (sleep_ms 2);
  let control1 := Z.lor control1 4 in
  _ ← write (Emmc CONTROL1) control1;
  ask (sleep_ms 2).

Definition known_base_clock_rate : D Z :=
  base ← get_var base_clock_rate_hz;
  if bool_decide (base = 0) then
    _ ← set_debug_progress 0x60;
    base ← base_clock_rate CLK_EMMC;
    _ ← upd_var (set_base_clock_rate_hz base);
    _ ← set_debug_progress 0x61;
    mret base
  else mret base.

Definition lines_free (v : Z) : bool := bool_decide (Z.land v 3 = 0).

Definition set_clock_rate (target_rate : Z) : D bool :=
  base ← known_base_clock_rate;
  let divider := clock_divider base target_rate in
  if bool_decide (divider = 0) || bool_decide (0x3ff < divider) then mret false
  else
    _ ← poll patience (Emmc STATUS) lines_free;
    _ ← write_divider divider;
    _ ← set_debug_progress 0x62;
    mret true.

(** ** Initialisation *)
Definition prepare_for_interrupts_from_sd_port : D bool :=
  _ ← write (Interrupts Enable_IRQs_2) 0x40000000;
  mret true.

Definition initialise_mmc_hardware : D bool :=
  control1 ← read (Emmc CONTROL1);
  _ ← write (Emmc CONTROL0) 0;
  _ ← write (Emmc CONTROL2) 0;
  let control1 := Z.lor control1 0x01000000 in
  let control1 := Z.land control1 0xfffffffb in
  let control1 := Z.land control1 0xfffffffe in
  _ ← write (Emmc CONTROL1) control1;
  _ ← poll patience (Emmc CONTROL1) (λ v, bool_decide (Z.land v 0x01000000 = 0));
  mret true.

Definition initialise_sd_interface : D bool :=
  _ ← set_debug_progress 8;
  up ← power_up SD_Card;
  if negb up then mret false else
  _ ← set_debug_progress 9;
  ready ← initialise_mmc_hardware;
  if negb ready then mret false else
  _ ← set_debug_progress 10;
  slow ← set_clock_rate 400000;
  if negb slow then mret false else
  _ ← set_debug_progress 11;
  _ ← write (Emmc IRPT_MASK) 0x017f71b7;
  _ ← write (Emmc IRPT_EN) 0x017f71b7;
  _ ← write (Emmc SPI_INT_SPT) 0xff;
  _ ← poll patience (Emmc CONTROL1) (λ v, bool_decide (Z.land v 2 ≠ 0));
  _ ← set_debug_progress 12;
  mret true.

(** [current_device.manufacturer] is [scr[0]]: the bit fields start at the low bit. *)
Definition manufacturer (words : list Z) : Z := default 0 (words !! 0%nat).
Definition set_scr (words : list Z) (d : sdcard) : sdcard :=
  set_current_device (Card (acmd41_response (current_device d)) (cid (current_device d)) words) d.
Definition current_device_bits_match : D bool :=
  old ← get_var (λ d, scr (current_device d));
  _ ← upd_var (set_scr [0x12345678; 0x9abcdef0]);
  words ← get_var (λ d, scr (current_device d));
  let result := bool_decide (manufacturer words = 0x12345678) in
  _ ← upd_var (set_scr old);
  mret result.

(** ** Identification *)
Definition switch_to_1v8_signalling : D bool :=
  _ ← command 11 0;
  _ ← write_and (Emmc CONTROL1) 0xfffffffb;
  _ ← ask (sleep_ms 5);
  status ← read (Emmc STATUS);
  if bool_decide (Z.land status 0xf00000 ≠ 0) then mret false else
  _ ← write_or (Emmc CONTROL0) 0x100;
  if bool_decide (Z.land status 0xf00000 ≠ 0xf00000) then mret false else
  mret true.

(** [while (!initialised) { ... }] *)
Fixpoint wait_until_powered (fuel : nat) : D unit :=
  match fuel with
  | O => halt (Spin 540)
  | S fuel =>
      _ ← app_command 41 idle 0 0x40ff8000;
      r ← response_word 0;
      _ ← upd_var (λ d, set_current_device (Card r (cid (current_device d)) (scr (current_device d))) d);
      if bool_decide (card_busy r = 0) then _ ← ask (sleep_ms 1); wait_until_powered fuel else mret ()
  end.

(** [while (shifted_rca == 0) { ... }] *)
Fixpoint ask_address (fuel : nat) : D Z :=
  match fuel with
  | O => halt (Spin 594)
  | S fuel =>
      _ ← command 3 0;
      r ← response_word 0;
      _ ← guard_stop (bool_decide (ident ≠ card_state r)) (Brk 2);
      let shifted_rca := Z.land r 0xffff0000 in
      if bool_decide (shifted_rca = 0) then ask_address fuel else mret shifted_rca
  end.

(** The card answers, has power and is high capacity; from here it is in the ready state. *)
Definition bring_to_ready : D bool :=
  _ ← poll patience (Emmc STATUS) lines_free;
  _ ← set_debug_progress 13;
  _ ← command 0 0;
  _ ← command 8 0x1aa;
  r ← response_word 0;
  if bool_decide (Z.land 0xfff r ≠ 0x1aa) then mret false else
  _ ← set_debug_progress 16;
  _ ← app_command 41 idle 0 0;
  _ ← wait_until_powered patience;
  ocr ← get_var (λ d, acmd41_response (current_device d));
  _ ← guard_stop (bool_decide (card_sdhc ocr = 0)) (Brk 1);
  _ ← when (bool_decide (card_s18 ocr ≠ 0))
        (switched ← switch_to_1v8_signalling; guard_stop (negb switched) (Brk 1));
  mret true.

(** Its identification is read and its address is asked for; the result is the address. *)
Definition identify_address : D Z :=
  _ ← command 2 0;
  words ← get_var response;
  _ ← upd_var (λ d, set_current_device (Card (acmd41_response (current_device d)) words (scr (current_device d))) d);
  shifted_rca ← ask_address patience;
  _ ← set_debug_progress 17;
  mret shifted_rca.

(** [data_thread = this_thread; command( 7, shifted_rca ); wait_until_woken(); data_thread = 0] *)
Definition select_card (shifted_rca : Z) : D unit :=
  _ ← upd_var (set_data_thread this_thread);
  _ ← command 7 shifted_rca;
  _ ← wait_until_woken;
  upd_var (set_data_thread 0).

(** The configuration register of the card, 8 bytes of data *)
Definition read_scr (shifted_rca : Z) : D unit :=
  _ ← upd_var (set_data_thread this_thread);
  _ ← write (Emmc EXRDFIFO_EN) 0;
  _ ← write (Emmc BLKSIZECNT) 0x10008;
  _ ← upd_var (set_block_index 0);
  _ ← upd_var (set_block_size 8);
  _ ← upd_var (set_block_data true);
  _ ← set_debug_progress 18;
  _ ← app_command 51 tran shifted_rca 0;
  wait_until_woken.

Definition identify_device : D bool :=
  ready ← bring_to_ready;
  if negb ready then mret false else
  shifted_rca ← identify_address;
  _ ← select_card shifted_rca;
  _ ← set_debug_progress 37;
  r ← response_word 0;
  _ ← guard_stop (bool_decide (Z.land r 0x2000000 ≠ 0)) (Brk 2);
  _ ← write_or (Emmc CONTROL0) 2;
  _ ← app_command 6 tran shifted_rca 2;
  _ ← read_scr shifted_rca;
  _ ← set_mapped 52 0x40000000;
  _ ← set_debug_progress 19;
  fast ← set_clock_rate 25000000;
  if negb fast then mret false else
  _ ← set_debug_progress 0x55;
  mret true.

(** [for (int i = 0; i < 100; i++) { sleep_ms( 20 ); mapped_memory[2] = i; }] *)
Fixpoint count_up (times : nat) (i : Z) : D unit :=
  match times with
  | O => mret ()
  | S times => _ ← ask (sleep_ms 20); _ ← set_mapped 2 i; count_up times (i + 1)
  end.

Definition expose_emmc : D unit :=
  bits ← current_device_bits_match;
  if negb bits then mret () else
  _ ← set_debug_progress 0x11;
  _ ← set_debug_progress 0x33;
  _ ← set_debug_progress 1;
  _ ← count_up 100 0;
  _ ← set_debug_progress 3;
  prepared ← prepare_for_interrupts_from_sd_port;
  if negb prepared then mret () else
  _ ← set_debug_progress 19;
  interface ← initialise_sd_interface;
  if negb interface then mret () else
  _ ← set_debug_progress 20;
  identified ← identify_device;
  if negb identified then mret () else
  _ ← write (Emmc EXRDFIFO_EN) 1;
  _ ← write (Emmc EXRDFIFO_CFG) 0;
  _ ← set_debug_progress 21;
  _ ← ask register_service;
  set_debug_progress 22.

(** ** Reading *)

(** The bus address of a register of the emmc: [0x40000000 | (~0xc1000000 & pa)] *)
Definition bus_address (pa : Z) : Z := u32 (Z.lor 0x40000000 (Z.land 0x3effffff pa)).
Definition dma_transfer_information : Z := Z.lor 0x04000419 (Z.shiftl 11 16).
Definition block_size_count (size : Z) : Z := u32 (Z.lor (Z.shiftl (size / 512) 16) 512).

(** [data_address] and [dma_cntrl_address] are the addresses of [devices.emmc.DATA] and of the
    control block on the stack of the thread. *)
Definition EMMC__BLOCK_DEVICE__read_4k_pages (data_address dma_cntrl_address dest first_block : Z) : D reply :=
  _ ← set_debug_progress 0x40;
  read_only ← ask (block_is_read_only dest);
  if (read_only : bool) then mret (Exception 0) else
  size ← ask (block_size_of dest);
  let size := u32 size in
  start_pa ← ask (block_physical_address dest);
  let start_pa := u32 start_pa in
  _ ← upd_var (set_data_thread this_thread);
  _ ← write (Emmc IRPT_MASK) 0x017f7197;
  _ ← write (Emmc IRPT_EN) 0x017f7197;
  data_pa ← ask (physical_address_of data_address);
  _ ← upd_var (set_dma_cntrl [dma_transfer_information; bus_address data_pa; start_pa; size; 0; 0]);
  block ← ask (physical_address_of dma_cntrl_address);
  _ ← write (Dma 0 CONBLK_AD) (u32 block);
  _ ← write (Dma 0 CS) 0x10000001;
  _ ← write (Emmc BLKSIZECNT) (block_size_count size);
  _ ← upd_var (set_data_thread this_thread);
  _ ← command 18 (u32 first_block);
  _ ← wait_until_woken;
  mret ReturnNothing.
End sd.
