(* ===== verification/SdFacts.v ===== *)
(** * Properties of the SD card driver

    The claims about [SdCard].  Those about what never happens hold in every world.  Those
    about the order of the accesses are run on a [bench]: a [board] whose reads are scripted,
    with the answers of the property mailbox and the number of interrupts that come before
    each wait.  While a thread waits, an interrupt comes as long as the script has a value for
    the INTERRUPT register. *)

From S2P Require Import Prelude GpuDevices SdCard.

(** ** A bench for the driver *)
Record bench : Type := Bench { on_board : board; answers : list (list Z); due : list nat }.

Definition on (m : M board Z) : M bench Z := λ e,
  match m (on_board e) with
  | Ok a b => Ok a (Bench b (answers e) (due e))
  | Stop r b => Stop r (Bench b (answers e) (due e))
  end.
Definition note (a : access) (e : bench) : bench := Bench (record a (on_board e)) (answers e) (due e).

(** What the thread asks for beside registers: 1 a sleep, 2 a property request, 3 the
    registration of the service. *)
#[export] Instance bench_world : SdWorld bench := {
  sd_devices := {|
    device_read r := on (device_read r);
    device_write r v := modify (note (Writes r v)) |};
  interrupts_due := λ e,
    match due e with
    | n :: l => Ok n (Bench (on_board e) (answers e) l)
    | [] => Ok 0%nat e
    end;
  interrupt_awaited := gets (λ e, bool_decide (is_Some (next_value (Emmc INTERRUPT) (script (on_board e)))));
  sleep_ms n := modify (note (Does 1 [n]));
  mailbox_tag_request request := λ e,
    match answers e with
    | r :: l => Ok r (Bench (record (Does 2 request) (on_board e)) l (due e))
    | [] => Ok request (note (Does 2 request) e)
    end;
  physical_address_of va := mret va;
  block_is_read_only b := mret (bool_decide (b < 0));
  block_size_of b := mret (b mod 0x100000000);
  block_physical_address b := mret (Z.shiftr b 32);
  register_service := modify (note (Does 3 []));
}.

Section steps.
Context (this_thread : Z).
#[local] Abbreviation st d l a reps w := (Sys d (Bench (Board l a) reps w)).
Implicit Types (d : sdcard) (l : list (device * Z)) (a : list access).

Lemma next_value_head r v l : next_value r ((r, v) :: l) = Some (v, l).
Proof. unfold next_value. by rewrite decide_True. Qed.

Lemma wp_read_next r v d l a reps w (Q : Z → sys sdcard bench → Prop) B :
  Q v (st d l (Reads r v :: a) reps w) → wp (read r) Q B (st d ((r, v) :: l) a reps w).
Proof.
  intros H. unfold wp, read, ask, device_read. cbn -[next_value]. unfold on. cbn -[next_value].
  by rewrite next_value_head.
Qed.

Lemma wp_write r v d l a reps w (Q : unit → sys sdcard bench → Prop) B :
  Q () (st d l (Writes r v :: a) reps w) → wp (write r v) Q B (st d l a reps w).
Proof. done. Qed.

Lemma wp_sleep n d l a reps w (Q : unit → sys sdcard bench → Prop) B :
  Q () (st d l (Does 1 [n] :: a) reps w) → wp (ask (sleep_ms n)) Q B (st d l a reps w).
Proof. done. Qed.

(** The debug words are not looked at. *)
Lemma wp_set_mapped i v d e (Q : unit → sys sdcard bench → Prop) B :
  (∀ m, Q () (Sys (set_mapped_memory m d) e)) → wp (set_mapped i v) Q B (Sys d e).
Proof. intros H. apply H. Qed.

Lemma wp_get_mapped i d e (Q : Z → sys sdcard bench → Prop) B :
  (∀ v, Q v (Sys d e)) → wp (get_mapped i) Q B (Sys d e).
Proof. intros H. apply H. Qed.

Lemma wp_var {A} (g : sdcard → A) d e (Q : A → sys sdcard bench → Prop) B :
  Q (g d) (Sys d e) → wp (get_var g) Q B (Sys d e).
Proof. done. Qed.

Lemma wp_upd (g : sdcard → sdcard) d e (Q : unit → sys sdcard bench → Prop) B :
  Q () (Sys (g d) e) → wp (upd_var g) Q B (Sys d e).
Proof. done. Qed.

Lemma wp_set_response r r0 rest d e (Q : unit → sys sdcard bench → Prop) B :
  response d = r0 :: rest → Q () (Sys (set_response (r :: rest) d) e) →
  wp (set_response_word 0 r) Q B (Sys d e).
Proof.
  intros E H. unfold set_response_word. apply wp_upd. rewrite E. exact H.
Qed.

Lemma wp_response r0 rest d e (Q : Z → sys sdcard bench → Prop) B :
  response d = r0 :: rest → Q r0 (Sys d e) → wp (response_word 0) Q B (Sys d e).
Proof. intros E H. unfold response_word. apply wp_var. rewrite E. exact H. Qed.

Lemma wp_other_response i d e (Q : Z → sys sdcard bench → Prop) B :
  (∀ v, Q v (Sys d e)) → wp (response_word i) Q B (Sys d e).
Proof. intros H. apply H. Qed.

(** A wake, of a thread that waits or of one that will not have to. *)
Lemma wp_wake t d e (Q : unit → sys sdcard bench → Prop) B :
  THREAD_WAITING ≤ gate t d < 0x7fffffff →
  Q () (Sys (set_gates (<[t := gate t d + 1]> (gates d)) d) e) →
  wp (wake_thread t) Q B (Sys d e).
Proof.
  intros Hg H. unfold wake_thread. apply wp_bind, wp_var. apply wp_if; intros Hw.
  - rewrite Hw in H. exact H.
  - unfold when. rewrite bool_decide_eq_true_2 by lia. exact H.
Qed.
End steps.

(** Write the variables out, so that the updates do not pile up. *)
Ltac flat_vars d e :=
  let d' := eval cbv [set_command_thread set_current_cmdtm set_pending_app_cmdtm set_pending_app_command_arg
    set_acmd_expected_state set_data_thread set_block_data set_block_index set_block_size set_response
    set_mapped_memory set_current_device set_base_clock_rate_hz set_dma_cntrl set_gates
    command_thread current_cmdtm pending_app_cmdtm pending_app_command_arg acmd_expected_state data_thread
    block_data block_index block_size response mapped_memory current_device base_clock_rate_hz dma_cntrl
    gates] in d in
  change (Sys d e) with (Sys d' e).
Ltac flat :=
  lazymatch goal with
  | |- wp _ _ _ (Sys ?d ?e) => flat_vars d e
  | |- halts_with _ _ (Sys ?d ?e) => flat_vars d e
  | |- _ => idtac
  end.

(** Take the first step of the goal's code. *)
Ltac sd_step :=
  lazymatch goal with
  | |- wp (_ ≫= _) _ _ _ => apply wp_bind
  | |- wp (mret _) _ _ _ => apply wp_ret; cbv beta
  | |- wp (halt _) _ _ _ => apply wp_halt; cbv beta
  | |- wp (read _) _ _ _ => apply wp_read_next; cbv beta
  | |- wp (write _ _) _ _ _ => apply wp_write; cbv beta
  | |- wp (set_mapped _ _) _ _ _ => apply wp_set_mapped; intros ?; cbv beta; flat
  | |- wp (set_debug_progress _) _ _ _ => apply wp_set_mapped; intros ?; cbv beta; flat
  | |- wp (set_debug_last_command _) _ _ _ => apply wp_set_mapped; intros ?; cbv beta; flat
  | |- wp (set_response_word 0 _) _ _ _ => eapply wp_set_response; [reflexivity |]; cbv beta; flat
  | |- wp (response_word 0) _ _ _ => eapply wp_response; [reflexivity |]; cbv beta
  | |- wp (response_word _) _ _ _ => apply wp_other_response; intros ?; cbv beta
  | |- wp (get_mapped _) _ _ _ => apply wp_get_mapped; intros ?; cbv beta
  | |- wp (get_var _) _ _ _ =>
      apply wp_var; cbv beta;
      cbn [command_thread current_cmdtm pending_app_cmdtm pending_app_command_arg acmd_expected_state
        data_thread block_data block_index block_size response mapped_memory current_device
        base_clock_rate_hz dma_cntrl gates]
  | |- wp (upd_var _) _ _ _ => apply wp_upd; cbv beta; flat
  | |- wp (ask (sleep_ms _)) _ _ _ => apply wp_sleep; cbv beta
  end.

(** Decide the condition at the front when it is one on known numbers. *)
Ltac closed t := tryif (match t with context [?x] => is_var x end) then fail else idtac.
Ltac known c :=
  lazymatch c with bool_decide ?P => closed P | _ => closed c end;
  let b := eval vm_compute in c in
  match b with true => idtac | false => idtac end; change c with b; cbv beta iota delta [when guard_stop].
Ltac known_bool :=
  lazymatch goal with
  | |- wp (when ?c _) _ _ _ => known c
  | |- wp (guard_stop ?c _) _ _ _ => known c
  | |- wp (if ?c then _ else _) _ _ _ => known c
  end.
Ltac sd_run := repeat first [known_bool | sd_step].

(** The same for code that stops in its last part. *)
Ltac halts_step :=
  lazymatch goal with
  | |- halts_with (when ?c _) _ _ => known c
  | |- halts_with (if ?c then _ else _) _ _ => known c
  | |- halts_with (wait_until_woken _ _ ≫= _) _ _ => apply halts_first
  | |- halts_with (_ ≫= _) _ _ => apply halts_bind; sd_run; flat
  end.
Ltac halts_run := repeat halts_step.

Ltac handler :=
  unfold emmc_interrupt, command_complete, data_complete, set_debug_last_interrupts,
    upd_debug_all_interrupts, upd_debug_interrupted.

Section interrupts.
#[local] Abbreviation st d l a reps w := (Sys d (Bench (Board l a) reps w)).
Implicit Types (d : sdcard) (l : list (device * Z)) (a : list access).

(** What the handler does before it looks at the bits. *)
Definition acknowledged (v : Z) (a : list access) : list access :=
  Writes (Emmc INTERRUPT) v :: Reads (Emmc INTERRUPT) v :: a.

(** CMD55 is complete: the application command is started, or the card is in the wrong state. *)
Lemma interrupt_cmd55 r d l a reps w (Q : unit → sys sdcard bench → Prop) (B : stop → Prop) :
  length (response d) = 4%nat → current_cmdtm d = cmds 55 → pending_app_cmdtm d ≠ 0 →
  (card_state r = acmd_expected_state d → ∀ m,
    Q () (st (set_mapped_memory m (set_pending_app_cmdtm 0 (set_current_cmdtm (pending_app_cmdtm d)
            (set_response (<[0%nat := r]> (response d)) d)))) l
       (Writes (Emmc CMDTM) (pending_app_cmdtm d) :: Writes (Emmc ARG1) (pending_app_command_arg d) ::
        Reads (Emmc RESP0) r :: acknowledged 1 a) reps w)) →
  (card_state r ≠ acmd_expected_state d → B (Brk 2)) →
  wp emmc_interrupt Q B (st d ((Emmc INTERRUPT, 1) :: (Emmc RESP0, r) :: l) a reps w).
Proof.
  destruct d as [????????? [|r0 response]]; cbn; [done |]; intros _ -> Hp HQ HB. handler. sd_run.
  apply wp_if; intros Hs; [apply wp_halt; by apply HB |]. apply wp_if; intros H0; [clear H0 | done].
  sd_run. by apply HQ, dec_stable.
Qed.

(** CMD55 is complete and the card is in the wrong state: nothing is sent any more. *)
Lemma interrupt_cmd55_halts r d l a reps w :
  length (response d) = 4%nat → current_cmdtm d = cmds 55 → card_state r ≠ acmd_expected_state d →
  halts_with emmc_interrupt (λ stop s, stop = Brk 2 ∧ accesses (on_board (world s)) = Reads (Emmc RESP0) r :: acknowledged 1 a)
    (st d ((Emmc INTERRUPT, 1) :: (Emmc RESP0, r) :: l) a reps w).
Proof.
  destruct d as [????????? [|r0 response]]; cbn; [done |]; intros _ -> Hs. handler.
  do 4 halts_step. apply halts_first. do 5 halts_step. apply halts_first. halts_run.
  rewrite (bool_decide_eq_true_2 _ Hs). by split.
Qed.

(** Any other command is complete: the thread that sent it is woken. *)
Lemma interrupt_command r d l a reps w (Q : unit → sys sdcard bench → Prop) (B : stop → Prop) :
  length (response d) = 4%nat → current_cmdtm d ≠ cmds 55 → Z.land (current_cmdtm d) 0x30000 ≠ 0x10000 →
  command_thread d ≠ 0 →
  (∀ m, wp (wake_thread (command_thread d)) Q B
    (st (set_mapped_memory m (set_response (<[0%nat := r]> (response d)) d)) l
       (Reads (Emmc RESP0) r :: acknowledged 1 a) reps w)) →
  wp emmc_interrupt Q B (st d ((Emmc INTERRUPT, 1) :: (Emmc RESP0, r) :: l) a reps w).
Proof.
  destruct d as [????????? [|r0 response]]; cbn; [done |]; intros _ Hc Hl Ht HQ. handler. sd_run.
  apply wp_when; [intros H; by apply bool_decide_eq_true_1 in H | intros _]. sd_run.
  apply wp_if; intros H; [done | clear H]. sd_run. apply wp_if; intros H; [clear H | done].
  eapply wp_mono; [apply HQ | | done]. intros [] [d' e'] H'. sd_run. exact H'.
Qed.

(** The end of a command and the end of its data in one interrupt. *)
Lemma interrupt_both r d l a reps w (Q : unit → sys sdcard bench → Prop) (B : stop → Prop) :
  length (response d) = 4%nat → current_cmdtm d ≠ cmds 55 → Z.land (current_cmdtm d) 0x30000 ≠ 0x10000 →
  command_thread d ≠ 0 → data_thread d ≠ 0 →
  (∀ m, wp (wake_thread (command_thread d)) (λ _ s, data_thread (vars s) = data_thread d ∧
     ∀ m, wp (wake_thread (data_thread d)) Q B (Sys (set_mapped_memory m (vars s)) (world s))) B
    (st (set_mapped_memory m (set_response (<[0%nat := r]> (response d)) d)) l
       (Reads (Emmc RESP0) r :: acknowledged 3 a) reps w)) →
  wp emmc_interrupt Q B (st d ((Emmc INTERRUPT, 3) :: (Emmc RESP0, r) :: l) a reps w).
Proof.
  destruct d as [????????? [|r0 response]]; cbn; [done |]; intros _ Hc Hl Ht Hd HQ. handler. sd_run.
  apply wp_when; [intros H; by apply bool_decide_eq_true_1 in H | intros _]. sd_run.
  apply wp_if; intros H; [done | clear H]. sd_run. apply wp_if; intros H; [clear H | done].
  eapply wp_mono; [apply HQ | | done]. intros [] [[] e'] [Ed H']. cbn in Ed, H'.
  subst. sd_run. apply wp_if; intros H; [clear H | done]. sd_run.
  eapply wp_mono; [apply H' | | done]. intros [] [d2 e2] H2. sd_run. exact H2.
Qed.
End interrupts.

(** ** Waiting *)
Section waiting.
Context (this_thread : Z).
#[local] Abbreviation st d l a reps w := (Sys d (Bench (Board l a) reps w)).
Implicit Types (d : sdcard) (l : list (device * Z)) (a : list access).

Lemma gate_set t v d : gate t (set_gates (<[t := v]> (gates d)) d) = v.
Proof. unfold gate. cbn. by rewrite lookup_insert_eq. Qed.

Lemma gate_insert t v d g : gates d = <[t := v]> g → gate t d = v.
Proof. unfold gate. intros ->. by rewrite lookup_insert_eq. Qed.

(** [n] interrupts come before the wait, which then takes all the wakes there were. *)
Lemma wp_wait patience n d b reps w (Q : unit → sys sdcard bench → Prop) B :
  wp (run_interrupts n)
    (λ _ s, if bool_decide (0 < gate this_thread (vars s))
            then Q () (Sys (set_gates (<[this_thread := 0]> (gates (vars s))) (vars s)) (world s))
            else wp (blocked_wait this_thread patience) Q B
                   (Sys (set_gates (<[this_thread := THREAD_WAITING]> (gates (vars s))) (vars s)) (world s))) B
    (Sys d (Bench b reps w)) →
  wp (wait_until_woken patience this_thread) Q B (Sys d (Bench b reps (n :: w))).
Proof.
  intros H. unfold wait_until_woken. apply wp_bind, wp_ask. unfold wp at 1. cbn -[run_interrupts].
  apply wp_bind. eapply wp_mono; [exact H | | done]. intros [] [d' e'] Hs. apply wp_bind, wp_var.
  cbn in Hs. apply wp_if; intros Hg; [by rewrite bool_decide_eq_true_2 in Hs by lia |].
  rewrite bool_decide_eq_false_2 in Hs by lia. exact Hs.
Qed.

Lemma wp_wait_now patience d b reps (Q : unit → sys sdcard bench → Prop) B :
  (if bool_decide (0 < gate this_thread d) then Q () (Sys (set_gates (<[this_thread := 0]> (gates d)) d) (Bench b reps []))
   else wp (blocked_wait this_thread patience) Q B
          (Sys (set_gates (<[this_thread := THREAD_WAITING]> (gates d)) d) (Bench b reps []))) →
  wp (wait_until_woken patience this_thread) Q B (Sys d (Bench b reps [])).
Proof. intros H. apply (wp_wait _ 0 _ _ _ []) in H. exact H. Qed.

(** An interrupt is handled, and the thread goes on waiting unless it was woken. *)
Lemma wp_blocked_step n d l a reps v (Q : unit → sys sdcard bench → Prop) B :
  wp emmc_interrupt
    (λ _ s, if bool_decide (gate this_thread (vars s) = THREAD_WAITING) then wp (blocked_wait this_thread n) Q B s
            else Q () s) B (st d ((Emmc INTERRUPT, v) :: l) a reps []) →
  wp (blocked_wait this_thread (S n)) Q B (st d ((Emmc INTERRUPT, v) :: l) a reps []).
Proof.
  intros H. cbn [blocked_wait]. apply wp_bind, wp_ask. unfold interrupt_awaited, bench_world, gets, wp at 1.
  cbn -[next_value]. rewrite next_value_head, bool_decide_eq_true_2 by done.
  apply wp_bind. eapply wp_mono; [exact H | | done]. intros [] [d' e'] Hs. apply wp_bind, wp_var.
  cbn in Hs. by destruct (bool_decide _).
Qed.

(** A thread that has to wait, and is not woken by the interrupt that stops the driver *)
Lemma halts_wait_now patience d b reps P :
  gate this_thread d ≤ 0 →
  halts_with (blocked_wait this_thread patience) P
    (Sys (set_gates (<[this_thread := THREAD_WAITING]> (gates d)) d) (Bench b reps [])) →
  halts_with (wait_until_woken patience this_thread) P (Sys d (Bench b reps [])).
Proof.
  intros Hg H. unfold wait_until_woken. apply halts_bind, wp_ask. unfold wp, interrupts_due, bench_world.
  cbn [due vars world]. apply halts_bind. change (run_interrupts 0) with (mret () : M (sys sdcard bench) unit).
  apply wp_ret. apply halts_bind, wp_var. rewrite bool_decide_eq_false_2 by lia. exact H.
Qed.

Lemma halts_blocked n d l a reps v P :
  halts_with emmc_interrupt P (st d ((Emmc INTERRUPT, v) :: l) a reps []) →
  halts_with (blocked_wait this_thread (S n)) P (st d ((Emmc INTERRUPT, v) :: l) a reps []).
Proof.
  intros H. cbn [blocked_wait]. apply halts_bind, wp_ask. unfold interrupt_awaited, bench_world, gets, wp at 1.
  cbn -[next_value]. rewrite next_value_head, bool_decide_eq_true_2 by done. by apply halts_first.
Qed.

(** No interrupt is left: the thread waits for ever. *)
Lemma wp_blocked_end n d e (Q : unit → sys sdcard bench → Prop) (B : stop → Prop) :
  next_value (Emmc INTERRUPT) (script (on_board e)) = None → B (Spin 0) →
  wp (blocked_wait this_thread n) Q B (Sys d e).
Proof.
  intros H HB. destruct n as [|n]; [exact HB |]. cbn [blocked_wait]. apply wp_bind, wp_ask.
  unfold interrupt_awaited, bench_world, gets, wp at 1. cbn -[next_value].
  rewrite H, bool_decide_eq_false_2 by (by intros [? ?]). exact HB.
Qed.
End waiting.

(** ** Application commands *)
Section app_commands.
Context (patience : nat) (this_thread : Z).
#[local] Abbreviation st d l a reps w := (Sys d (Bench (Board l a) reps w)).
Implicit Types (d : sdcard) (l : list (device * Z)) (a : list access).

Lemma app_command_halts acmd expected_state shifted_rca arg r55 d l a reps :
  acmds acmd ≠ 0 → length (response d) = 4%nat → gate this_thread d ≤ 0 → (1 ≤ patience)%nat →
  card_state r55 ≠ expected_state →
  halts_with (app_command patience this_thread acmd expected_state shifted_rca arg)
    (λ stop s, stop = Brk 2 ∧ accesses (on_board (world s)) =
       Reads (Emmc RESP0) r55 :: acknowledged 1
         (Writes (Emmc CMDTM) (cmds 55) :: Writes (Emmc ARG1) shifted_rca :: a))
    (st d ((Emmc INTERRUPT, 1) :: (Emmc RESP0, r55) :: l) a reps []).
Proof.
  intros K Hl Hg Hp Hs. destruct patience as [|n]; [lia |]. unfold app_command, guard_stop.
  generalize dependent (acmds acmd). intros code K.
  destruct d as [????????? [|r0 response]]; [done |]. unfold gate in Hg. cbn in Hl, Hg.
  rewrite bool_decide_eq_false_2 by done. halts_run.
  unfold command, cmdtm. halts_run.
  apply halts_wait_now; [exact Hg |]. by apply halts_blocked, interrupt_cmd55_halts.
Qed.

(** The thread is blocked; the interrupt that ends its command wakes it. *)
Lemma wp_blocked_command n r d l a reps (Q : unit → sys sdcard bench → Prop) B :
  length (response d) = 4%nat → current_cmdtm d ≠ cmds 55 → Z.land (current_cmdtm d) 0x30000 ≠ 0x10000 →
  command_thread d = this_thread → this_thread ≠ 0 → gate this_thread d = THREAD_WAITING →
  (∀ m, Q () (st (set_mapped_memory m (set_gates (<[this_thread := 0]> (gates d))
                    (set_response (<[0%nat := r]> (response d)) d))) l
                (Reads (Emmc RESP0) r :: acknowledged 1 a) reps [])) →
  wp (blocked_wait this_thread (S n)) Q B (st d ((Emmc INTERRUPT, 1) :: (Emmc RESP0, r) :: l) a reps []).
Proof.
  intros Hl Hc H3 Ht H0 Hg HQ. apply wp_blocked_step, interrupt_command; try done; [by rewrite Ht |].
  intros m. rewrite Ht. apply wp_wake.
  { change (THREAD_WAITING ≤ gate this_thread d < 0x7fffffff). by rewrite Hg. }
  set (d1 := set_mapped_memory m _). replace (gate this_thread d1) with THREAD_WAITING by exact (eq_sym Hg).
  cbv beta. cbn [vars]. rewrite (gate_set this_thread), bool_decide_eq_false_2 by done. apply HQ.
Qed.

(** One interrupt for the response and for the data wakes a thread that waits for both twice. *)
Lemma interrupt_wakes_twice g r d l a reps w (Q : unit → sys sdcard bench → Prop) B :
  length (response d) = 4%nat → current_cmdtm d ≠ cmds 55 → Z.land (current_cmdtm d) 0x30000 ≠ 0x10000 →
  command_thread d = this_thread → data_thread d = this_thread → this_thread ≠ 0 →
  gate this_thread d = g → THREAD_WAITING ≤ g < 0x7ffffffe →
  (∀ m, Q () (st (set_mapped_memory m (set_gates (<[this_thread := g + 2]> (gates d))
                    (set_response (<[0%nat := r]> (response d)) d))) l
                (Reads (Emmc RESP0) r :: acknowledged 3 a) reps w)) →
  wp emmc_interrupt Q B (st d ((Emmc INTERRUPT, 3) :: (Emmc RESP0, r) :: l) a reps w).
Proof.
  intros Hl Hc H3 Ht Hd H0 <- Hg HQ. unfold THREAD_WAITING in Hg.
  apply interrupt_both; [done | done | done | by rewrite Ht | by rewrite Hd |].
  intros m. rewrite Ht, Hd. set (d1 := set_mapped_memory m _).
  assert (E : gate this_thread d1 = gate this_thread d) by reflexivity.
  apply wp_wake; [unfold THREAD_WAITING; rewrite E; lia |]. cbv beta. split; [exact Hd |].
  intros m'. cbn [vars world]. set (d2 := set_mapped_memory m' _).
  assert (E2 : gate this_thread d2 = gate this_thread d + 1) by (eapply gate_insert; by rewrite <- E).
  apply wp_wake; [unfold THREAD_WAITING; rewrite E2; lia |].
  rewrite E2. change (gates d2) with (<[this_thread := gate this_thread d1 + 1]> (gates d)).
  rewrite insert_insert_eq. replace (gate this_thread d + 1 + 1) with (gate this_thread d + 2) by lia. apply HQ.
Qed.

(** C22: an application command that the table knows, sent with [app_command] by a thread whose
    gate is closed: CMD55 goes to the card with the shifted address, and when its response shows
    the expected state of the card the interrupt handler sends the application command with its
    own argument; the thread goes on after the second response, which it finds in [response],
    and no command is pending any more.  When the card is in another state the driver stops with
    brk 2, and of the two commands only CMD55 has been sent. *)
Theorem app_command_runs_both acmd expected_state shifted_rca arg r55 r d l a reps :
  this_thread ≠ 0 → acmd = 6 ∨ acmd = 41 ∨ acmd = 51 → length (response d) = 4%nat →
  gate this_thread d ≤ 0 → (2 ≤ patience)%nat →
  wp (app_command patience this_thread acmd expected_state shifted_rca arg)
    (λ _ s, card_state r55 = expected_state ∧
       head (response (vars s)) = Some r ∧ pending_app_cmdtm (vars s) = 0 ∧ gate this_thread (vars s) = 0 ∧
       world s = Bench (Board l
         (Reads (Emmc RESP0) r :: acknowledged 1
           (Writes (Emmc CMDTM) (acmds acmd) :: Writes (Emmc ARG1) arg ::
            Reads (Emmc RESP0) r55 :: acknowledged 1
              (Writes (Emmc CMDTM) (cmds 55) :: Writes (Emmc ARG1) shifted_rca :: a)))) reps [])
    (λ stop, card_state r55 ≠ expected_state ∧ stop = Brk 2)
    (st d ((Emmc INTERRUPT, 1) :: (Emmc RESP0, r55) :: (Emmc INTERRUPT, 1) :: (Emmc RESP0, r) :: l) a reps []) ∧
  (card_state r55 ≠ expected_state →
   halts_with (app_command patience this_thread acmd expected_state shifted_rca arg)
     (λ stop s, stop = Brk 2 ∧ accesses (on_board (world s)) =
        Reads (Emmc RESP0) r55 :: acknowledged 1
          (Writes (Emmc CMDTM) (cmds 55) :: Writes (Emmc ARG1) shifted_rca :: a))
     (st d ((Emmc INTERRUPT, 1) :: (Emmc RESP0, r55) :: (Emmc INTERRUPT, 1) :: (Emmc RESP0, r) :: l) a reps [])).
Proof.
  intros Ht Ha Hl Hg Hp. split.
  2: { intros Hs. apply app_command_halts; try done; [by destruct Ha as [-> | [-> | ->]] | lia]. }
  destruct patience as [|[|n]]; [lia | lia |].
  assert (Hk : acmds acmd ≠ 0 ∧ acmds acmd ≠ cmds 55 ∧ Z.land (acmds acmd) 0x30000 ≠ 0x10000)
    by (destruct Ha as [-> | [-> | ->]]; done).
  destruct Hk as (K0 & K1 & K2). unfold app_command, guard_stop. generalize dependent (acmds acmd). intros code K0 K1 K2.
  destruct d as [????????? [|r0 response]]; [done |]. unfold gate in Hg. cbn in Hl, Hg.
  rewrite bool_decide_eq_false_2 by done. sd_run.
  unfold command, cmdtm. sd_run.
  apply wp_wait_now. rewrite bool_decide_eq_false_2 by (unfold gate; cbn; lia).
  apply wp_blocked_step, interrupt_cmd55; [done | done | done | intros Hs ?; cbn in Hs; subst expected_state | done].
  cbn [vars]. rewrite bool_decide_eq_true_2 by (eapply gate_insert; reflexivity).
  apply wp_blocked_command; try done; [by eapply gate_insert |].
  intros ?. sd_run. split_and!; try done. by eapply gate_insert.
Qed.


(** C23: the card is selected by a command after which the hardware also reports the end of
    a transfer, and the thread waits twice, for the response and for the data.  When both are
    reported while the thread waits it gets through: the second wake is kept for the second
    wait.  When they are reported before it has begun to wait, the first wait takes both wakes and the
    thread then waits for ever for data that has come. *)
Theorem early_data_done_is_lost shifted_rca r d l a reps (early : bool) :
  this_thread ≠ 0 → length (response d) = 4%nat → gate this_thread d = 0 → (1 ≤ patience)%nat →
  next_value (Emmc INTERRUPT) l = None →
  wp (select_card patience this_thread shifted_rca)
    (λ _ s, early = false ∧ head (response (vars s)) = Some r ∧ data_thread (vars s) = 0 ∧
            gate this_thread (vars s) = 0)
    (λ stop, early = true ∧ stop = Spin 0)
    (Sys d (Bench (Board ((Emmc INTERRUPT, 3) :: (Emmc RESP0, r) :: l) a) reps (if early then [1%nat] else []))).
Proof.
  intros Ht Hl Hg Hp Hn. destruct patience as [|n]; [lia |].
  destruct d as [????????? [|r0 response]]; [done |]. unfold gate in Hg. cbn in Hl, Hg.
  unfold select_card, command, cmdtm, guard_stop. sd_run. destruct early.
  - apply wp_wait. cbn [run_interrupts]. apply wp_bind.
    apply (interrupt_wakes_twice 0); try done. intros ?. sd_run.
    rewrite bool_decide_eq_true_2 by (by erewrite gate_insert by reflexivity).
    cbn [vars]. flat. sd_run. apply wp_wait_now.
    rewrite bool_decide_eq_false_2 by (by erewrite gate_insert by reflexivity).
    by apply wp_blocked_end.
  - apply wp_wait_now. rewrite bool_decide_eq_false_2 by (unfold gate; cbn; by rewrite Hg).
    apply wp_blocked_step, (interrupt_wakes_twice THREAD_WAITING); try done; [by eapply gate_insert |]. intros ?.
    rewrite bool_decide_eq_false_2 by (by erewrite gate_insert by reflexivity).
    flat. sd_run. apply wp_wait_now. rewrite bool_decide_eq_true_2 by (by erewrite gate_insert by reflexivity).
    flat. sd_run. split_and!; try done. by eapply gate_insert.
Qed.
End app_commands.

(** ** The clock *)

(** The divider as the hardware finds it in CONTROL1: 8 bits, with 2 upper bits below them. *)
Definition divider_field (control1 : Z) : Z :=
  get_bits 8 8 control1 + 256 * get_bits 6 2 control1.

Lemma below_32 (P : Z → Prop) : Forall P (seqZ 0 32) → ∀ i, 0 ≤ i < 32 → P i.
Proof. rewrite Forall_forall. intros H i Hi. apply H, elem_of_seqZ. lia. Qed.

(** What [set_clock_rate] makes of CONTROL1 as updates of its fields *)
Lemma with_divider_fields c q : 0 ≤ c < 2 ^ 32 → 0 ≤ q →
  with_divider c q =
  set_bits 6 2 (q / 256) (set_bits 8 8 q (set_bits 16 4 0xe (set_bits 5 1 0 (set_bits 0 1 1 c)))).
Proof.
  intros Hc Hq. apply Z.bits_inj_iff'. intros i Hi. unfold with_divider.
  destruct (decide (i < 32)) as [Hlt|Hge].
  - assert (Hr : 0 ≤ i < 32) by lia. clear Hi Hlt. revert i Hr. apply below_32.
    change 256 with (2 ^ 8). rewrite <- Z.shiftr_div_pow2 by lia.
    repeat (apply Forall_cons; split); [.. | apply Forall_nil; done];
      rewrite !set_bits_testbit, !Z.lor_spec, !Z.land_spec, !Z.lor_spec, !Z.land_spec, ?Z.lor_spec, ?Z.land_spec,
        Z.shiftl_spec, ?Z.shiftr_spec by lia;
      cbn; rewrite ?Z.land_spec, ?Z.shiftr_spec by lia; cbn;
      rewrite ?andb_true_r, ?andb_false_r, ?orb_false_r, ?orb_true_r; done.
  - rewrite !set_bits_testbit, !bool_decide_eq_false_2 by lia.
    rewrite !Z.lor_spec, !Z.land_spec, !Z.lor_spec, !Z.land_spec, Z.lor_spec, Z.shiftl_spec, Z.shiftr_spec, !Z.land_spec by lia.
    rewrite (testbit_above c 32), (testbit_above 0xffff003f 32), (testbit_above 0xff 8), (testbit_above 0x300 10),
      (testbit_above 0x000e0000 20) by lia.
    by rewrite !andb_false_r.
Qed.

Lemma divider_field_of c q : 0 ≤ c < 2 ^ 32 → 0 ≤ q ≤ 0x3ff → divider_field (with_divider c q) = q.
Proof.
  intros Hc Hq. unfold divider_field. rewrite with_divider_fields by lia.
  rewrite (get_set_bits_other 8 8 6 2), get_set_bits_trunc by lia.
  rewrite get_set_bits_same by first [lia | split; [apply Z.div_pos | apply Z.div_lt_upper_bound]; lia].
  pose proof (Z.div_mod q 256). change (2 ^ 8) with 256. lia.
Qed.

Lemma with_divider_kept c q lo w : 0 ≤ c < 2 ^ 32 → 0 ≤ q → 0 ≤ w →
  lo = 1 ∧ w ≤ 4 ∨ 20 ≤ lo → get_bits lo w (with_divider c q) = get_bits lo w c.
Proof.
  intros Hc Hq Hw Hlo. rewrite with_divider_fields by lia. by rewrite !get_set_bits_other by lia.
Qed.

(** The divider is the smallest that does not exceed the target rate. *)
Lemma clock_divider_tight base target :
  0 ≤ base → 0 < target →
  base ≤ clock_divider base target * target ∧ (clock_divider base target - 1) * target < base + (if bool_decide (base = 0) then 1 else 0).
Proof.
  intros Hb Ht. unfold clock_divider.
  pose proof (Z.div_mod (base + target - 1) target). pose proof (Z.mod_pos_bound (base + target - 1) target).
  case_bool_decide; nia.
Qed.

Section clock.
Context (patience : nat).
#[local] Abbreviation st d l a reps w := (Sys d (Bench (Board l a) reps w)).
Implicit Types (d : sdcard) (l : list (device * Z)) (a : list access).

Lemma clear_enable c : 0 ≤ c < 2 ^ 32 → Z.land c 4 = 0 → Z.land c 0xfffffffb = c.
Proof.
  intros Hc H4. apply Z.bits_inj_iff'. intros i Hi. rewrite Z.land_spec. destruct (decide (i < 32)) as [Hlt|Hge].
  - destruct (decide (i = 2)) as [->|H2].
    + apply (f_equal (λ v, Z.testbit v 2)) in H4. rewrite Z.land_spec in H4. cbn in *.
      rewrite andb_true_r in H4. by rewrite H4.
    + assert (Hr : 0 ≤ i < 32) by lia. clear Hi Hlt. revert H2. pattern i. revert i Hr. refine (below_32 _ _).
      repeat (apply Forall_cons; split); [.. | apply Forall_nil; done]; intros; try done; by rewrite andb_true_r.
  - by rewrite (testbit_above c 32) by lia.
Qed.

(** The rate has been asked for, the lines are free and the clock is stopped or running: what
    is written to CONTROL1. *)
Lemma wp_write_divider q c d l a reps (Q : unit → sys sdcard bench → Prop) B :
  0 ≤ c < 2 ^ 32 →
  (∀ m before, Q () (st (set_mapped_memory m d) l
       (Does 1 [2] :: Writes (Emmc CONTROL1) (Z.lor (with_divider c q) 4) ::
        Does 1 [2] :: Writes (Emmc CONTROL1) (with_divider c q) :: before) reps [])) →
  wp (write_divider q) Q B (st d ((Emmc CONTROL1, c) :: l) a reps []).
Proof.
  intros Hc HQ. unfold write_divider. sd_run. apply wp_if; intros H4; sd_run.
  - rewrite (clear_enable c) by done. apply (HQ m).
  - destruct d. apply (HQ mapped_memory).
Qed.

(** [set_clock_rate] with a known base rate, free command lines and CONTROL1 equal to [c]
    always returns.  It refuses, without an access to the hardware, exactly when the divider does not fit
    the 10 bits of the hardware.  Otherwise the last two writes are to CONTROL1: one sets the
    divider, one the same with the clock enabled.  The divider is the smallest one for which
    the clock is not faster than the target; the internal clock is on, the data timeout is
    at its maximum, and the other fields are as they were.  That includes the bit that
    enables the clock: a clock that is running keeps running while the divider changes. *)
Theorem clock_rate_is_set target c status d l a reps :
  let base := base_clock_rate_hz d in
  let q := clock_divider base target in
  0 < base → 0 < target → 0 ≤ c < 2 ^ 32 → Z.land status 3 = 0 → (1 ≤ patience)%nat →
  wp (set_clock_rate patience target)
    (λ ok s, ok = bool_decide (q ≤ 0x3ff) ∧
       (q - 1) * target < base ≤ q * target ∧
       (ok = false → accesses (on_board (world s)) = a) ∧
       (ok = true → ∃ w before,
          accesses (on_board (world s)) =
            Does 1 [2] :: Writes (Emmc CONTROL1) (Z.lor w 4) ::
            Does 1 [2] :: Writes (Emmc CONTROL1) w :: before ∧
          divider_field w = q ∧ get_bits 0 1 w = 1 ∧ get_bits 16 4 w = 0xe ∧
          get_bits 1 4 w = get_bits 1 4 c ∧ get_bits 20 12 w = get_bits 20 12 c))
    (λ _, False)
    (st d ((Emmc STATUS, status) :: (Emmc CONTROL1, c) :: l) a reps []).
Proof.
  intros base q Hb Ht Hc Hs Hp. pose proof (clock_divider_tight base target ltac:(lia) Ht) as Hq. fold q in Hq.
  rewrite (bool_decide_eq_false_2 (base = 0)) in Hq by lia.
  assert (0 < q) by nia. unfold set_clock_rate, known_base_clock_rate. sd_run. fold base.
  rewrite (bool_decide_eq_false_2 (base = 0)) by lia. sd_run. fold base q.
  rewrite (bool_decide_eq_false_2 (q = 0)) by lia. cbn [orb]. apply wp_if; intros Hbig; sd_run.
  { rewrite bool_decide_eq_false_2 by lia. split_and!; [done | lia | lia | done | done]. }
  destruct patience as [|n]; [lia |]. cbn [poll]. sd_run.
  unfold lines_free. rewrite Hs. cbn -[write_divider wp]. sd_run.
  apply wp_write_divider; [done |]. intros m before. sd_run.
  rewrite bool_decide_eq_true_2 by lia. split_and!; [done | lia | lia | done |]. intros _.
  exists (with_divider c q), before. split; [done |].
  split_and!; [apply divider_field_of; lia | | | apply with_divider_kept; lia | apply with_divider_kept; lia];
    rewrite with_divider_fields by lia; by simp_bits.
Qed.
End clock.

(** ** Reading *)
Section reading.
Context (patience : nat) (this_thread : Z).
#[local] Abbreviation st d l a reps w := (Sys d (Bench (Board l a) reps w)).
Implicit Types (d : sdcard) (l : list (device * Z)) (a : list access).

(** The block count that the hardware finds in BLKSIZECNT has 16 bits. *)
Lemma block_count_field size : 0 ≤ size →
  get_bits 16 16 (block_size_count size) = (size / 512) mod 2 ^ 16 ∧ get_bits 0 10 (block_size_count size) = 512.
Proof.
  intros Hs. assert (0 ≤ size / 512) by (apply Z.div_pos; lia). unfold block_size_count, u32.
  assert (E : Z.lor (Z.shiftl (size / 512) 16) 512 = set_bits 0 10 512 (Z.shiftl (size / 512) 16)).
  { apply Z.bits_inj_iff'. intros i Hi. rewrite set_bits_testbit, Z.lor_spec, Z.shiftl_spec, Z.sub_0_r by lia.
    case_bool_decide.
    - by rewrite (Z.testbit_neg_r _ (i - 16)) by lia.
    - by rewrite (testbit_above 512 10), orb_false_r by lia. }
  rewrite E. split.
  - rewrite <- Z.land_ones by lia. unfold get_bits at 1. rewrite Z.shiftr_land.
    rewrite <- Z.land_assoc. change (Z.land (Z.shiftr (Z.ones 32) 16) (Z.ones 16)) with (Z.ones 16).
    change (get_bits 16 16 (set_bits 0 10 512 (Z.shiftl (size / 512) 16)) = (size / 512) mod 2 ^ 16).
    rewrite get_set_bits_other by lia. unfold get_bits. by rewrite Z.shiftr_shiftl_l, Z.land_ones by lia.
  - rewrite <- Z.land_ones by lia. unfold get_bits at 1. rewrite Z.shiftr_land, <- Z.land_assoc.
    change (Z.land (Z.shiftr (Z.ones 32) 0) (Z.ones 10)) with (Z.ones 10).
    change (get_bits 0 10 (set_bits 0 10 512 (Z.shiftl (size / 512) 16)) = 512).
    by apply get_set_bits_same.
Qed.

Lemma block_count_whole size : 0 ≤ size < 2 ^ 32 → size mod 4096 = 0 →
  get_bits 16 16 (block_size_count size) * 512 = size ↔ size < 2 ^ 25.
Proof.
  intros Hs Hm. destruct (block_count_field size) as [-> _]; [lia |].
  pose proof (Z.div_mod size 4096). pose proof (Z.div_mod (size / 512) (2 ^ 16)).
  pose proof (Z.mod_pos_bound (size / 512) (2 ^ 16)).
  assert (E : size / 512 = 8 * (size / 4096)).
  { symmetry. apply Z.div_unique_exact; lia. }
  rewrite E in *. split; intros H'; [lia |]. rewrite Z.mod_small by lia. lia.
Qed.

(** The bench keeps the address of a block above its size. *)
Lemma dest_parts start_pa size : 0 ≤ start_pa < 2 ^ 32 → 0 ≤ size < 2 ^ 32 →
  let dest := Z.shiftl start_pa 32 + size in
  bool_decide (dest < 0) = false ∧ dest mod 0x100000000 = size ∧ Z.shiftr dest 32 = start_pa.
Proof.
  intros Hp Hs. cbv zeta. rewrite Z.shiftl_mul_pow2, Z.shiftr_div_pow2 by lia.
  change 0x100000000 with (2 ^ 32). split_and!.
  - apply bool_decide_eq_false_2. lia.
  - rewrite Z.add_comm, Z_mod_plus_full. by apply Z.mod_small.
  - rewrite Z.div_add_l, Z.div_small by lia. lia.
Qed.

Lemma wp_ask_ok {A} (m : M bench A) v d e (Q : A → sys sdcard bench → Prop) B :
  m e = Ok v e → Q v (Sys d e) → wp (ask m) Q B (Sys d e).
Proof. intros E H. unfold wp, ask. cbn. by rewrite E. Qed.

(** What the driver writes to start the transfer of [size] bytes, latest first. *)
Definition transfer_writes (control_block size first_block : Z) : list access :=
  [Writes (Emmc CMDTM) (cmds 18); Writes (Emmc ARG1) first_block;
   Writes (Emmc BLKSIZECNT) (block_size_count size);
   Writes (Dma 0 CS) 0x10000001; Writes (Dma 0 CONBLK_AD) control_block;
   Writes (Emmc IRPT_EN) 0x017f7197; Writes (Emmc IRPT_MASK) 0x017f7197].

(** C24: [read_4k_pages] into a block of [size] bytes at [start_pa] (the bench encodes both in
    [dest]).  A read-only block gives exception 0 and nothing is touched.  Otherwise
    the control block says size and destination, the DMA engine is started on its address, then command 18
    is sent, and when the command and the transfer end the method returns.  The block count
    that the card is given covers exactly the size the DMA engine waits for if and only if the
    size is below 32MB: it has 16 bits of 512 bytes. *)
Theorem read_4k_pages_transfers data_address control_block start_pa size first_block (read_only : bool) r d l a reps :
  let dest := (if read_only then -1 else Z.shiftl start_pa 32 + size) in
  this_thread ≠ 0 → length (response d) = 4%nat → gate this_thread d = 0 → (1 ≤ patience)%nat →
  0 ≤ start_pa < 2 ^ 32 → 0 ≤ size < 2 ^ 32 → size mod 4096 = 0 → 0 ≤ control_block < 2 ^ 32 →
  0 ≤ first_block < 2 ^ 32 →
  wp (EMMC__BLOCK_DEVICE__read_4k_pages patience this_thread data_address control_block dest first_block)
    (λ result s,
       result = (if read_only then Exception 0 else ReturnNothing) ∧
       accesses (on_board (world s)) =
         (if read_only then a
          else Reads (Emmc RESP0) r :: acknowledged 3 (transfer_writes control_block size first_block ++ a)) ∧
       (read_only = false →
          dma_cntrl (vars s) = [0x040b0419; bus_address data_address; start_pa; size; 0; 0]) ∧
       (get_bits 16 16 (block_size_count size) * 512 = size ↔ size < 2 ^ 25))
    (λ _, False)
    (st d ((Emmc INTERRUPT, 3) :: (Emmc RESP0, r) :: l) a reps []).
Proof.
  intros dest Ht Hl Hg Hp Hpa Hs Hm Hcb Hf. pose proof (block_count_whole size Hs Hm) as Hw.
  destruct patience as [|n]; [lia |]. destruct d as [????????? [|r0 response]]; [done |].
  unfold gate in Hg. cbn in Hl, Hg. unfold EMMC__BLOCK_DEVICE__read_4k_pages. sd_run.
  destruct read_only; subst dest.
  { eapply wp_ask_ok; [reflexivity |]. by sd_run. }
  destruct (dest_parts start_pa size) as (E1 & E2 & E3); [done | done |].
  set (dest := Z.shiftl start_pa 32 + size) in *.
  eapply wp_ask_ok; [reflexivity |]. cbv beta. rewrite E1. sd_run.
  eapply wp_ask_ok; [reflexivity |]. sd_run. eapply wp_ask_ok; [reflexivity |]. sd_run.
  eapply wp_ask_ok; [reflexivity |]. sd_run. eapply wp_ask_ok; [reflexivity |]. sd_run.
  unfold command, cmdtm, guard_stop. sd_run. rewrite E2, E3, !u32_id by done.
  apply wp_wait_now. rewrite bool_decide_eq_false_2 by (unfold gate; cbn; by rewrite Hg).
  apply wp_blocked_step, (interrupt_wakes_twice this_thread THREAD_WAITING); try done; [by eapply gate_insert |].
  intros ?. rewrite bool_decide_eq_false_2 by (by erewrite gate_insert by reflexivity).
  flat. sd_run. apply wp_wait_now. rewrite bool_decide_eq_true_2 by (by erewrite gate_insert by reflexivity).
  flat. by sd_run.
Qed.
End reading.

(** ** Which cards are accepted, in every world *)
Section identification.
Context {E : Type} `{!SdWorld E} (patience : nat) (this_thread : Z).

(** The status is read once, and has to be 0 and not 0 in the same bits. *)
Lemma switch_to_1v8_fails : returns (λ switched, switched = false) (switch_to_1v8_signalling patience this_thread).
Proof.
  unfold switch_to_1v8_signalling. do 3 (apply returns_bind; intros _). apply returns_bind. intros status.
  case_bool_decide as H; [returns |]. rewrite H.
  apply returns_bind. intros _. rewrite bool_decide_eq_true_2 by done. returns.
Qed.

Lemma wait_until_powered_ends fuel s s' :
  wait_until_powered patience this_thread fuel s = Ok () s' →
  card_busy (acmd41_response (current_device (vars s'))) ≠ 0.
Proof.
  revert s. induction fuel as [|fuel IH]; intros s H; [done |]. cbn [wait_until_powered] in H.
  inv_bind H. inv_bind H. inv_bind H. case_bool_decide as Hb; [inv_bind H; by apply (IH s3) |].
  injection H as <-. unfold upd_var, modify in E2. by injection E2 as _ <-.
Qed.

(** Up to the answer to CMD8, which says whether the card works with the voltage *)
Definition interface_condition : M (sys sdcard E) unit :=
  _ ← poll patience (Emmc STATUS) lines_free;
  _ ← set_debug_progress 13;
  _ ← command patience this_thread 0 0;
  command patience this_thread 8 0x1aa.

(** C38: when [bring_to_ready] returns, then either it has accepted the card, which has finished its
    start, is of high capacity and does not support signalling at 1.8V; or it has
    refused it right after CMD8, because of the answer to that.  For any other card it does not
    return: the driver stops.  (For a card that supports 1.8V [switch_to_1v8_signalling] is tried and never
    succeeds.) *)
Theorem accepted_cards s s' accepted :
  bring_to_ready patience this_thread s = Ok accepted s' →
  let r := acmd41_response (current_device (vars s')) in
  (accepted = true ∧ card_busy r ≠ 0 ∧ card_sdhc r ≠ 0 ∧ card_s18 r = 0) ∨
  (accepted = false ∧ interface_condition s = Ok () s' ∧
   ∃ answer, response_word 0 s' = Ok answer s' ∧ Z.land 0xfff answer ≠ 0x1aa).
Proof.
  unfold bring_to_ready, interface_condition. intros H. do 5 inv_bind H.
  assert (s4 = s3) as -> by (unfold response_word, get_var, gets in E4; by injection E4).
  case_bool_decide as H8.
  { injection H as <- <-. right. split; [done |]. split; [|by exists a3].
    rewrite (bind_ok _ _ _ _ _ E0), (bind_ok _ _ _ _ _ E1), (bind_ok _ _ _ _ _ E2). by destruct a2. }
  left. do 6 inv_bind H. injection H as <- <-. split; [done |]. injection E8 as <- <-. unfold guard_stop, when in E9.
  destruct (bool_decide (card_sdhc _ = 0)) eqn:Hh in E9; [discriminate E9 |].
  apply bool_decide_eq_false_1 in Hh. injection E9 as _ <-. unfold when in E10. case_bool_decide as Hs.
  - apply bind_ok_inv in E10 as (b & s11 & Eb & E10). apply switch_to_1v8_fails in Eb as ->. discriminate E10.
  - injection E10 as _ <-. split_and!; [| done | lia].
    destruct a6. by apply (wait_until_powered_ends _ _ _ E7).
Qed.
End identification.

(** ** A card that comes up *)
Definition power_on_answer : list Z := [32; 0x80000000; 0x00020001; 8; 0x80000008; 0; 1; 0].
Definition clock_answer : list Z := [32; 0x80000000; 0x00030002; 8; 0x80000008; 1; 250000000; 0].

(** The response to a command, without data. *)
Definition responds (r : Z) : list (device * Z) := [(Emmc INTERRUPT, 1); (Emmc RESP0, r)].

(** Until the card is ready: go idle, interface condition, two ACMD41. *)
Definition ready_script : list (device * Z) :=
  (Emmc STATUS, 0) :: responds 0 ++ responds 0x1aa ++ responds 0 ++ responds 0 ++ responds 0 ++ responds 0xc0ff8000.

Definition card_script : list (device * Z) :=
  [(Emmc CONTROL1, 0); (Emmc CONTROL1, 0); (Emmc STATUS, 0); (Emmc CONTROL1, 0); (Emmc CONTROL1, 2)] ++
  ready_script ++
  responds 0x000300a2 ++ [(Emmc RESP1, 0x44001280); (Emmc RESP2, 0x41505053); (Emmc RESP3, 0x00003000)] ++
  responds 0xaaaa0400 ++
  [(Emmc INTERRUPT, 3); (Emmc RESP0, 0x700); (Emmc CONTROL0, 0)] ++
  responds 0x900 ++ responds 0x900 ++ responds 0x920 ++ responds 0x920 ++
  [(Emmc INTERRUPT, 0x22); (Emmc DATA, 0x12345678); (Emmc DATA, 0x00b58002)] ++
  [(Emmc STATUS, 0); (Emmc CONTROL1, 0x000e71e7)].

(** With the power on, a base rate of 250MHz and a card that answers as the standard says, the driver goes
    through the whole identification, reads the configuration register, raises the clock and registers its service. *)
Example card_comes_up :
  match expose_emmc 3 7 (Sys initial_sdcard (Bench (Board card_script []) [power_on_answer; clock_answer] [])) with
  | Ok () s =>
      cid (current_device (vars s)) = [0x000300a2; 0x44001280; 0x41505053; 0x00003000] ∧
      scr (current_device (vars s)) = [0x12345678; 0x00b58002] ∧
      base_clock_rate_hz (vars s) = 250000000 ∧
      head (accesses (on_board (world s))) = Some (Does 3 []) ∧
      accesses (on_board (world s)) !! 4%nat = Some (Writes (Emmc CONTROL1) (with_divider 0x000e71e7 10))
  | Stop _ _ => False
  end.
Proof. vm_compute. split_and!; reflexivity. Qed.

(** ** Witnesses *)
Lemma app_command_runs_both_witness :
  wp (app_command 2 7 41 idle 0 0x40ff8000)
    (λ _ s, card_state 0x120 = idle ∧
       head (response (vars s)) = Some 0xc0ff8000 ∧ pending_app_cmdtm (vars s) = 0 ∧ gate 7 (vars s) = 0 ∧
       world s = Bench (Board []
         (Reads (Emmc RESP0) 0xc0ff8000 :: acknowledged 1
           (Writes (Emmc CMDTM) (acmds 41) :: Writes (Emmc ARG1) 0x40ff8000 ::
            Reads (Emmc RESP0) 0x120 :: acknowledged 1
              (Writes (Emmc CMDTM) (cmds 55) :: Writes (Emmc ARG1) 0 :: [])))) [] [])
    (λ stop, card_state 0x120 ≠ idle ∧ stop = Brk 2)
    (Sys initial_sdcard (Bench (Board (responds 0x120 ++ responds 0xc0ff8000) []) [] [])) ∧
  halts_with (app_command 2 7 41 idle 0 0x40ff8000)
    (λ stop s, stop = Brk 2 ∧ accesses (on_board (world s)) =
       Reads (Emmc RESP0) 0x900 :: acknowledged 1 [Writes (Emmc CMDTM) (cmds 55); Writes (Emmc ARG1) 0])
    (Sys initial_sdcard (Bench (Board (responds 0x900 ++ responds 0xc0ff8000) []) [] [])).
Proof.
  split.
  - refine (proj1 (app_command_runs_both 2 7 41 idle 0 0x40ff8000 0x120 0xc0ff8000 initial_sdcard [] [] [] _ _ _ _ _));
      [lia | lia | reflexivity | by vm_compute | lia].
  - refine (proj2 (app_command_runs_both 2 7 41 idle 0 0x40ff8000 0x900 0xc0ff8000 initial_sdcard [] [] [] _ _ _ _ _) _);
      [lia | lia | reflexivity | by vm_compute | lia | by vm_compute].
Defined.

Lemma early_data_done_is_lost_witness :
  wp (select_card 1 7 0xaaaa0000)
    (λ _ s, true = false ∧ head (response (vars s)) = Some 0x700 ∧ data_thread (vars s) = 0 ∧ gate 7 (vars s) = 0)
    (λ stop, true = true ∧ stop = Spin 0)
    (Sys initial_sdcard (Bench (Board [(Emmc INTERRUPT, 3); (Emmc RESP0, 0x700)] []) [] [1%nat])).
Proof.
  apply (early_data_done_is_lost 1 7 0xaaaa0000 0x700 initial_sdcard [] [] [] true);
    [lia | reflexivity | reflexivity | lia | reflexivity].
Defined.

Lemma clock_rate_is_set_witness :
  let d := set_base_clock_rate_hz 250000000 initial_sdcard in
  let q := clock_divider 250000000 25000000 in
  q = 10 ∧
  wp (set_clock_rate 1 25000000)
    (λ ok s, ok = bool_decide (q ≤ 0x3ff) ∧
       (q - 1) * 25000000 < 250000000 ≤ q * 25000000 ∧
       (ok = false → accesses (on_board (world s)) = []) ∧
       (ok = true → ∃ w before,
          accesses (on_board (world s)) =
            Does 1 [2] :: Writes (Emmc CONTROL1) (Z.lor w 4) ::
            Does 1 [2] :: Writes (Emmc CONTROL1) w :: before ∧
          divider_field w = q ∧ get_bits 0 1 w = 1 ∧ get_bits 16 4 w = 0xe ∧
          get_bits 1 4 w = get_bits 1 4 0x000e71e7 ∧ get_bits 20 12 w = get_bits 20 12 0x000e71e7))
    (λ _, False)
    (Sys d (Bench (Board [(Emmc STATUS, 0); (Emmc CONTROL1, 0x000e71e7)] []) [] [])).
Proof.
  split; [reflexivity |].
  apply (clock_rate_is_set 1 25000000 0x000e71e7 0 (set_base_clock_rate_hz 250000000 initial_sdcard) [] [] []);
    [cbn; lia | lia | lia | reflexivity | lia].
Defined.

Lemma read_4k_pages_transfers_witness :
  0 < 7 ∧
  wp (EMMC__BLOCK_DEVICE__read_4k_pages 1 7 0x7e300020 0x10fc0 (Z.shiftl 0x1000000 32 + 0x500000) 2048)
    (λ result s,
       result = ReturnNothing ∧
       accesses (on_board (world s)) =
         Reads (Emmc RESP0) 0x900 :: acknowledged 3 (transfer_writes 0x10fc0 0x500000 2048 ++ []) ∧
       (false = false → dma_cntrl (vars s) = [0x040b0419; bus_address 0x7e300020; 0x1000000; 0x500000; 0; 0]) ∧
       (get_bits 16 16 (block_size_count 0x500000) * 512 = 0x500000 ↔ 0x500000 < 2 ^ 25))
    (λ _, False)
    (Sys initial_sdcard (Bench (Board [(Emmc INTERRUPT, 3); (Emmc RESP0, 0x900)] []) [] [])).
Proof.
  split; [lia |].
  apply (read_4k_pages_transfers 1 7 0x7e300020 0x10fc0 0x1000000 0x500000 2048 false 0x900 initial_sdcard [] [] []);
    first [reflexivity | lia].
Defined.

Definition ready_start : sys sdcard bench := Sys initial_sdcard (Bench (Board ready_script []) [] []).
Definition ready_end : sys sdcard bench :=
  match bring_to_ready 2 7 ready_start with Ok _ s => s | Stop _ s => s end.
Lemma ready_run : bring_to_ready 2 7 ready_start = Ok true ready_end.
Proof. vm_compute. reflexivity. Qed.

Lemma accepted_cards_witness :
  bring_to_ready 2 7 ready_start = Ok true ready_end ∧
  let r := acmd41_response (current_device (vars ready_end)) in
  card_busy r ≠ 0 ∧ card_sdhc r ≠ 0 ∧ card_s18 r = 0.
Proof.
  split; [exact ready_run |].
  destruct (accepted_cards 2 7 ready_start ready_end true ready_run) as [(_ & H) | (H & _)]; [exact H | discriminate H].
Defined.
