(* ===== verification/InterfaceCompiler.v ===== *)
(** * The interface compiler

    [tools/interfaces.c], a program of the build host: it reads the description of interfaces
    ([interfaces/*]) and prints the C header that clients include, or the one that providers
    include.  Both identify a routine by the same checksum of its description, which is the call
    number that the caller passes to the kernel and the provider's handler switches on.

    The program works on the file in memory: [strtok] cuts it into lines, and [split] cuts
    a line into name and parameter lists by writing NULs into it, which it takes back afterwards.
    So the file is a list of bytes here and a [char *] is a position in it; a null pointer is
    [None].  What is printed is the list [printed].  [exit( 1 )] is [Brk 1]; an access outside the file or
    an array is a [Fault].

    [routine_name], [export_return_type], [print_typedef], [print_decl], [declare_listed_interfaces] and
    [declare_required_interfaces] are not called (the calls are inside [#if 0]) and are left out, as are
    the messages for a file that cannot be read. *)

From Stdlib Require Import String Ascii.
From S2P Require Import Prelude Crc.

(** ** Text *)

(** The bytes of a string literal. *)
Definition text (s : string) : list Z := (λ a, Z.of_N (N_of_ascii a)) <$> list_ascii_of_string s.
Arguments text s%_string.
Definition newline : list Z := [10].
Definition quotation_mark : list Z := [34].
Definition space : Z := 32.
Definition comma : Z := 44.
Definition colon : Z := 58.

(** [strncmp( s, prefix, strlen( prefix ) ) == 0] *)
Fixpoint starts_with (prefix s : list Z) : bool :=
  match prefix, s with
  | [], _ => true
  | c :: prefix, d :: s => bool_decide (c = d) && starts_with prefix s
  | _ :: _, [] => false
  end.

(** Where [pattern] first occurs. *)
Fixpoint find_text (pattern s : list Z) : option nat :=
  if starts_with pattern s then Some 0%nat
  else match s with [] => None | _ :: s => S <$> find_text pattern s end.

(** The string at the start of some memory, if it ends there. *)
Fixpoint until_nul (memory : list Z) : option (list Z) :=
  match memory with
  | [] => None
  | c :: memory => if bool_decide (c = 0) then Some [] else cons c <$> until_nul memory
  end.

Definition digit (n : Z) : Z := if bool_decide (n < 10) then 48 + n else 87 + n.
(** [%08x] *)
Definition hex8 (n : Z) : list Z :=
  (λ i, digit (Z.shiftr n (4 * Z.of_nat i) `mod` 16)) <$> [7; 6; 5; 4; 3; 2; 1; 0]%nat.
(** [%d] of a number that is not negative *)
Fixpoint decimal_digits (fuel : nat) (n : Z) (printed : list Z) : list Z :=
  match fuel with
  | O => printed
  | S fuel =>
      let printed := digit (n `mod` 10) :: printed in
      if bool_decide (n / 10 = 0) then printed else decimal_digits fuel (n / 10) printed
  end.
Definition decimal (n : Z) : list Z := decimal_digits 10 n [].

(** *** What [sscanf] is used for *)
Definition is_alnum (c : Z) : bool :=
  (bool_decide (97 ≤ c) && bool_decide (c ≤ 122)) || (bool_decide (65 ≤ c) && bool_decide (c ≤ 90)) ||
  (bool_decide (48 ≤ c) && bool_decide (c ≤ 57)) || bool_decide (c = 95).
Definition is_name_char (c : Z) : bool := is_alnum c.              (* [a-zA-Z0-9_] *)
Definition is_type_char (c : Z) : bool := is_alnum c || bool_decide (c = 38).   (* [a-zA-Z0-9_&] *)
Definition is_white (c : Z) : bool := bool_decide (c = 32) || bool_decide (9 ≤ c ∧ c ≤ 13).

(** The longest prefix of characters with [f], and the rest. *)
Fixpoint span (f : Z → bool) (s : list Z) : list Z * list Z :=
  match s with
  | [] => ([], [])
  | c :: s' => if f c then let p := span f s' in (c :: p.1, p.2) else ([], s)
  end.
Definition skip_white (s : list Z) : list Z := (span is_white s).2.

(** [" %[a-zA-Z0-9_]:"]: the name, if 1 item matched. *)
Definition scan_name (s : list Z) : option (list Z) :=
  match span is_name_char (skip_white s) with
  | ([], _) => None
  | (name, _) => Some name
  end.
(** [" %[a-zA-Z0-9_]: %[a-zA-Z0-9_&]"]: name and type, if 2 items matched. *)
Definition scan_declaration (s : list Z) : option (list Z * list Z) :=
  match span is_name_char (skip_white s) with
  | ([], _) => None
  | (name, c :: rest) =>
      if bool_decide (c = colon) then
        match span is_type_char (skip_white rest) with
        | ([], _) => None
        | (type_set, _) => Some (name, type_set)
        end
      else None
  | (_, []) => None
  end.

(** [crc32( data, length, previousCrc32 )] *)
Definition crc32 (data : list Z) (previousCrc32 : Z) : Z :=
  u32 (Z.lnot (foldl Crc.crc_byte (u32 (Z.lnot previousCrc32)) data)).

(** ** State *)
Record tool : Type := Tool {
  file : list Z;
  lines : list nat;           (* lines[0] ... lines[last_line - 1] *)
  interfaces : list nat;
  ends : list nat;
  strtok_next : nat;          (* where [strtok( 0, ... )] goes on *)
  printed : list Z;
}.

Definition set_file (v : list Z) (s : tool) : tool :=
  Tool v (lines s) (interfaces s) (ends s) (strtok_next s) (printed s).
Definition add_line (v : nat) (s : tool) : tool :=
  Tool (file s) (lines s ++ [v]) (interfaces s) (ends s) (strtok_next s) (printed s).
Definition add_interface (v : nat) (s : tool) : tool :=
  Tool (file s) (lines s) (interfaces s ++ [v]) (ends s) (strtok_next s) (printed s).
Definition add_end (v : nat) (s : tool) : tool :=
  Tool (file s) (lines s) (interfaces s) (ends s ++ [v]) (strtok_next s) (printed s).
Definition set_strtok_next (v : nat) (s : tool) : tool :=
  Tool (file s) (lines s) (interfaces s) (ends s) v (printed s).
Definition set_printed (v : list Z) (s : tool) : tool :=
  Tool (file s) (lines s) (interfaces s) (ends s) (strtok_next s) v.

#[local] Abbreviation C := (M tool).

Definition exit_1 {A} : C A := halt (Brk 1).

(** ** Strings in the file *)
Definition c_string (p : nat) : C (list Z) :=
  f ← gets file;
  match until_nul (drop p f) with Some s => mret s | None => halt (Fault (Z.of_nat p)) end.
Definition poke (p : nat) (v : Z) : C unit :=
  f ← gets file;
  _ ← guard_stop (bool_decide (length f ≤ p)%nat) (Fault (Z.of_nat p));
  modify (set_file (<[p := v]> f)).
Definition strstr (p : nat) (pattern : list Z) : C (option nat) :=
  s ← c_string p;
  mret ((λ i, (p + i)%nat) <$> find_text pattern s).
Definition strchr (p : nat) (c : Z) : C (option nat) := strstr p [c].

(** [printf] of bytes, and of a string in the file. *)
Definition print (s : list Z) : C unit := modify (λ t, set_printed (printed t ++ s) t).
Definition print_string (p : nat) : C unit := s ← c_string p; print s.
Definition dereference (p : option nat) : C nat :=
  match p with Some p => mret p | None => halt (Fault 0) end.

(** ** Parameters *)

(** [while (p != 0) { result ++; p = strchr( p+1, ',' ); }] *)
Fixpoint count_parameters (fuel : nat) (p : option nat) (result : Z) : C Z :=
  match p with
  | None => mret result
  | Some p =>
      match fuel with
      | O => halt (Spin 93)
      | S fuel => p ← strchr (S p) comma; count_parameters fuel p (result + 1)
      end
  end.
Definition parameters_count (parameters : option nat) : C Z :=
  f ← gets file;
  count_parameters (length f) parameters 0.

(** The buffers of [sscanf] have 32 and 128 bytes. *)
Definition parameter_declaration (p : nat) : C (list Z * list Z) :=
  s ← c_string p;
  match scan_declaration s with
  | None => exit_1
  | Some (name, type_set) =>
      _ ← guard_stop (bool_decide (32 ≤ length name)%nat || bool_decide (128 ≤ length type_set)%nat) (Fault 105);
      mret (name, type_set)
  end.
Definition print_parameter_type (p : nat) : C unit :=
  d ← parameter_declaration p; print d.2.
Definition print_parameter_name (p : nat) : C unit :=
  s ← c_string p;
  match scan_name s with
  | None => exit_1
  | Some name => _ ← guard_stop (bool_decide (32 ≤ length name)%nat) (Fault 114); print name
  end.
Definition print_parameter_decl (p : nat) : C unit :=
  d ← parameter_declaration p; print (d.2 ++ text " " ++ d.1).

(** [for (int i = 0; i < count; i++) { body; p = strchr( p, ',' ) + 1; }] *)
Fixpoint for_parameters (count : nat) (i : Z) (p : option nat) (body : Z → nat → C unit) : C unit :=
  match count with
  | O => mret ()
  | S count =>
      q ← dereference p;
      _ ← body i q;
      c ← strchr q comma;
      for_parameters count (i + 1) (S <$> c) body
  end.

(** ** Routines *)
Definition routine_parser : Type := nat → nat → Z → option nat → option nat → C unit.

(** [if (p != 0) { *p = c; }] *)
Definition poke_at (p : option nat) (c : Z) : C unit :=
  match p with Some p => poke p c | None => mret () end.

Definition split (interface_name routine : nat) (fn : routine_parser) (prefix_crc : Z) : C unit :=
  s ← c_string routine;
  let crc := crc32 s prefix_crc in
  outparams ← strstr routine (text " OUT ");
  _ ← poke_at outparams 0;
  inparams ← strstr routine (text " IN ");
  _ ← poke_at inparams 0;
  first_space ← strstr routine (text " ");
  _ ← poke_at first_space 0;
  _ ← fn interface_name routine crc ((λ p, (p + 4)%nat) <$> inparams) ((λ p, (p + 5)%nat) <$> outparams);
  _ ← poke_at first_space space;
  _ ← poke_at outparams space;
  poke_at inparams space.

Definition export_interface_routine_client_code : routine_parser := λ interface_name name crc inp out,
  _ ← print (text "static inline ");
  out_params ← parameters_count out;
  _ ← (if bool_decide (out_params = 0) then print (text "void")
       else if bool_decide (out_params = 1) then p ← dereference out; print_parameter_type p
       else print (text "TODO "));
  _ ← print (text " "); _ ← print_string interface_name; _ ← print (text "__"); _ ← print_string name;
  _ ← print (text "( "); _ ← print_string interface_name; _ ← print (text " o");
  in_params ← parameters_count inp;
  _ ← for_parameters (Z.to_nat in_params) 0 inp (λ _ p, _ ← print (text ", "); print_parameter_decl p);
  _ ← print (text " )" ++ newline ++ text "{" ++ newline);
  _ ← (if bool_decide (0 < out_params) then
         _ ← print (text "  return ");
         p ← dereference out;
         _ ← print_parameter_type p;
         print (text "__from_integer_register( Isambard_")
       else print (text "  Isambard_"));
  _ ← print (decimal in_params ++ decimal out_params ++ text "( o.r, 0x" ++ hex8 crc);
  _ ← for_parameters (Z.to_nat in_params) 0 inp
        (λ _ p, _ ← print (text ", "); _ ← print_parameter_name p; print (text ".r"));
  _ ← (if bool_decide (0 < out_params) then print (text " ) );" ++ newline) else print (text " );" ++ newline));
  print (text "}" ++ newline ++ newline).

(** [\ ] at the end of a line of a macro *)
Definition line_goes_on : list Z := text " \" ++ newline.

Definition export_interface_routine_server_code : routine_parser := λ interface_name name crc inp out,
  out_params ← parameters_count out;
  _ ← print (text "extern void __attribute__(( noreturn )) c##__"); _ ← print_string interface_name;
  _ ← print (text "__"); _ ← print_string name; _ ← print (text "__return( ");
  _ ← for_parameters (Z.to_nat out_params) 0 out
        (λ i p, _ ← when (bool_decide (i ≠ 0)) (print (text ", ")); print_parameter_decl p);
  _ ← print (text " );" ++ line_goes_on);
  _ ← print (text "void __attribute__(( noreturn )) c##__"); _ ← print_string interface_name;
  _ ← print (text "__"); _ ← print_string name; _ ← print (text "( c o");
  in_params ← parameters_count inp;
  _ ← for_parameters (Z.to_nat in_params) 0 inp (λ _ p, _ ← print (text ", "); print_parameter_decl p);
  print (text " );" ++ line_goes_on).

Definition export_interface_routine_case_code : routine_parser := λ interface_name name crc inp out,
  _ ← print (text "  case 0x" ++ hex8 crc ++ text ": ");
  _ ← print (text "c##__"); _ ← print_string interface_name; _ ← print (text "__"); _ ← print_string name;
  _ ← print (text "( o");
  in_params ← parameters_count inp;
  _ ← for_parameters (Z.to_nat in_params) 0 inp
        (λ i p, _ ← print (text ", "); _ ← print_parameter_type p;
                print (text "__from_integer_register( p" ++ decimal (i + 1) ++ text " )"));
  print (text " );" ++ line_goes_on).

Definition export_interface_routine_return_functions : routine_parser := λ interface_name name crc inp out,
  _ ← print (quotation_mark ++ text "\n" ++ quotation_mark ++ text "#c" ++ quotation_mark ++ text "__");
  _ ← print_string interface_name; _ ← print (text "__"); _ ← print_string name;
  print (text "__return:" ++ quotation_mark).

(** ** Generators *)

(** [lines[l]], [interfaces[i]] and [ends[i]] *)
Definition element (l : list nat) (i : nat) : C nat :=
  match l !! i with Some p => mret p | None => halt (Fault (Z.of_nat i)) end.
Definition line_at (l : nat) : C nat := ls ← gets lines; element ls l.

(** [while (l < end) { split( interface_name, lines[l++], fn, crc ); }] *)
Fixpoint each_routine (count l : nat) (interface_name : nat) (fn : routine_parser) (crc : Z) : C unit :=
  match count with
  | O => mret ()
  | S count =>
      routine ← line_at l;
      _ ← split interface_name routine fn crc;
      each_routine count (S l) interface_name fn crc
  end.

(** [crc32( "__", 2, crc32( interface_name, ... ) )] *)
Definition interface_crc (name : list Z) : Z := crc32 (text "__") (crc32 name 0).

Definition export_get_service (interface_name : nat) (crc : Z) : C unit :=
  _ ← print (text "static inline "); _ ← print_string interface_name; _ ← print (text " ");
  _ ← print_string interface_name;
  _ ← print (text "__get_service( const char *name, long timeout )" ++ newline);
  _ ← print (text "{" ++ newline);
  _ ← print (text "  NUMBER result = {};" ++ newline);
  _ ← print (text "  do {" ++ newline);
  _ ← print (text "    result = SYSTEM__get_service( system, name_code( name ), NUMBER__from_integer_register( 0x" ++
             hex8 crc ++ text " ), NUMBER__from_integer_register( 0 ) );" ++ newline);
  _ ← print (text "    if (timeout > 0) { timeout--; }" ++ newline);
  _ ← print (text "    if (result.r == 0 && timeout != 0) { sleep_ms( 1 ); }" ++ newline);
  _ ← print (text "  } while (timeout != 0 && result.r == 0);" ++ newline);
  _ ← print (text "  return "); _ ← print_string interface_name;
  _ ← print (text "__from_integer_register( result.r );" ++ newline);
  print (text "}" ++ newline).

(** The body of the loop of [export_client_code], for the interface whose description is between
    the lines [start] and [end_]. *)
Definition export_client_interface (start end_ : nat) : C unit :=
  line ← line_at start;
  let interface_name := (line + 10)%nat in
  name ← c_string interface_name;
  let crc := interface_crc name in
  _ ← when (bool_decide (name ≠ text "SYSTEM")) (export_get_service interface_name crc);
  each_routine (end_ - S start) (S start) interface_name export_interface_routine_client_code crc.

Definition export_register_service (interface_name : nat) (crc : Z) : C unit :=
  _ ← print (text "static inline void c##__"); _ ← print_string interface_name;
  print (text "__register_service( const char *name, void * v ) { SYSTEM__register_service( system, name_code( name ), NUMBER__from_integer_register( interface_to_pass_to( system.r, c##__veneer, v ) ), NUMBER__from_integer_register( 0x" ++
         hex8 crc ++ text " ) ); }" ++ line_goes_on).

Definition export_server_interface (start end_ : nat) : C unit :=
  line ← line_at start;
  let interface_name := (line + 10)%nat in
  name ← c_string interface_name;
  let crc := interface_crc name in
  _ ← print (text "#define ISAMBARD_"); _ ← print_string interface_name; _ ← print (text "__SERVER( c )" ++ line_goes_on);
  _ ← print (text "extern void __attribute__ ((noreturn)) c##__veneer();" ++ line_goes_on);
  _ ← print (text "extern void __attribute__ ((noreturn)) c##__return();" ++ line_goes_on);
  _ ← print (text "extern void __attribute__ ((noreturn)) c##__exception( integer_register code );" ++ line_goes_on);
  _ ← each_routine (end_ - S start) (S start) interface_name export_interface_routine_server_code crc;
  _ ← print (text "void c##__call_handler( c o, integer_register call, integer_register p1, integer_register p2, integer_register p3, integer_register p4 );" ++ line_goes_on);
  _ ← when (bool_decide (name ≠ text "SYSTEM")) (export_register_service interface_name crc);
  _ ← print (text "static inline "); _ ← print_string interface_name; _ ← print (text " c##__"); _ ← print_string interface_name;
  _ ← print (text "__to_return( void * v ) { "); _ ← print_string interface_name;
  _ ← print (text " result; result.r = interface_to_return( c##__veneer, v ); return result; }" ++ line_goes_on);
  _ ← print (text "static inline "); _ ← print_string interface_name; _ ← print (text " c##__"); _ ← print_string interface_name;
  _ ← print (text "__to_pass_to( integer_register target, void * v ) { "); _ ← print_string interface_name;
  _ ← print (text " result; result.r = interface_to_pass_to( target, c##__veneer, v ); return result; }" ++ newline ++ newline);
  _ ← print (text "#define AS_"); _ ← print_string interface_name; _ ← print (text "( c )  switch (call) {\" ++ newline);
  _ ← each_routine (end_ - S start) (S start) interface_name export_interface_routine_case_code crc;
  _ ← print (text "  }" ++ newline);
  _ ← print (text "#define RETURN_FUNCTIONS_"); _ ← print_string interface_name; _ ← print (text "( c ) ");
  _ ← each_routine (end_ - S start) (S start) interface_name export_interface_routine_return_functions crc;
  print newline.

(** [for (int i = 0; i < last_interface; i++) { ... }] *)
Fixpoint each_interface (count i : nat) (export : nat → nat → C unit) : C unit :=
  match count with
  | O => mret ()
  | S count =>
      starts ← gets interfaces;
      start ← element starts i;
      stops ← gets ends;
      end_ ← element stops i;
      _ ← export start end_;
      each_interface count (S i) export
  end.
Definition export_client_code : C unit :=
  starts ← gets interfaces; each_interface (length starts) 0 export_client_interface.
Definition export_server_code : C unit :=
  starts ← gets interfaces; each_interface (length starts) 0 export_server_interface.

(** ** The main program *)

(** [strtok( string, newline )]: the next line that is not empty; the newline behind it becomes a NUL. *)
Definition strtok : C (option nat) :=
  from ← gets strtok_next;
  s ← c_string from;
  let start := (from + length (span (λ c, bool_decide (c = 10)%Z) s).1)%nat in
  s ← c_string start;
  if bool_decide (s = []) then mret None
  else
    let stop := (start + length (span (λ c, negb (bool_decide (c = 10)%Z)) s).1)%nat in
    f ← gets file;
    _ ← (if bool_decide (f !! stop = Some 10) then _ ← poke stop 0; modify (set_strtok_next (S stop))
         else modify (set_strtok_next stop));
    mret (Some start).

Definition is_blank (c : Z) : bool := bool_decide (c = 32) || bool_decide (c = 9).

(** The loop that reads the lines; [false] when [main] returns 1 from within. *)
Fixpoint read_lines (fuel : nat) : C bool :=
  match fuel with
  | O => halt (Spin 461)
  | S fuel =>
      ls ← gets lines;
      _ ← guard_stop (bool_decide (1000 ≤ length ls)%nat) (Fault 1000);
      line ← strtok;
      match line with
      | None => mret true
      | Some line =>
          s ← c_string line;
          let line := (line + length (span is_blank s).1)%nat in
          s ← c_string line;
          if bool_decide (s = []) || starts_with (text "#") s || starts_with (text "//") s then read_lines fuel
          else
            go_on ← (if starts_with (text "interface ") s then
                starts ← gets interfaces;
                stops ← gets ends;
                _ ← guard_stop (bool_decide (100 ≤ length starts)%nat) (Fault 100);
                _ ← modify (add_interface (length ls));
                mret (negb (bool_decide (length stops + 1 < length starts + 1)%nat))
              else if bool_decide (s = text "end") then
                starts ← gets interfaces;
                stops ← gets ends;
                _ ← guard_stop (bool_decide (100 ≤ length stops)%nat) (Fault 100);
                _ ← modify (add_end (length ls));
                mret (bool_decide (length starts = length stops + 1)%nat)
              else mret true);
            if (go_on : bool) then _ ← modify (add_line line); read_lines fuel else mret false
      end
  end.

(** The name the program is called by, and its exit status. *)
Inductive program : Type := client | server | other_name.

Definition main (argv0 : program) (content : list Z) : C Z :=
  match argv0 with
  | other_name => mret 1
  | _ =>
      _ ← modify (set_file (content ++ [0]));
      _ ← modify (set_strtok_next 0);
      complete ← read_lines (S (length content));
      if negb complete then mret 1 else
      starts ← gets interfaces;
      stops ← gets ends;
      if bool_decide (length stops ≠ length starts) then mret 1 else
      _ ← (match argv0 with client => export_client_code | _ => export_server_code end);
      mret 0
  end.

Definition initial_tool : tool := Tool [] [] [] [] 0 [].

(** What the program prints for a file, when it ends with status 0. *)
Definition output (argv0 : program) (content : list Z) : option (list Z) :=
  match main argv0 content initial_tool with
  | Ok 0 s => Some (printed s)
  | _ => None
  end.
