(* ===== verification/CompilerFacts.v ===== *)
(** * Properties of the interface compiler

    [InterfaceCompiler] works in place on the file in memory.  Here it is compared with a description
    of what it should print: the lines that matter ([source_lines]), the
    interfaces among them ([interface_blocks]), the parts of a routine ([good_routine]) and
    the text for each.  The descriptions of the repository ([src/interfaces]) are compiled at the
    end. *)

From Stdlib Require Import String Ascii.
From S2P Require Import Prelude Crc InterfaceCompiler SystemServices.

(** ** Strings in memory *)
Definition str_at (f : list Z) (p : nat) (s : list Z) : Prop := until_nul (drop p f) = Some s.

Lemma until_nul_app s rest : Forall (λ c, c ≠ 0) s → until_nul (s ++ 0 :: rest) = Some s.
Proof. induction 1 as [|c s Hc _ IH]; [done |]. cbn. rewrite bool_decide_eq_false_2 by done. by rewrite IH. Qed.

Lemma until_nul_inv m s : until_nul m = Some s → ∃ rest, m = s ++ 0 :: rest ∧ Forall (λ c, c ≠ 0) s.
Proof.
  revert s. induction m as [|c m IH]; intros s H; [done |]. cbn in H. case_bool_decide as Hc.
  - injection H as <-. subst c. by exists m.
  - destruct (until_nul m) as [s'|] eqn:E; [| done]. injection H as <-.
    destruct (IH s' eq_refl) as (rest & -> & Hs). exists rest. by repeat constructor.
Qed.

Lemma str_at_parts f p s :
  str_at f p s ↔ ∃ before rest, f = before ++ s ++ 0 :: rest ∧ length before = p ∧ Forall (λ c, c ≠ 0) s.
Proof.
  split.
  - intros (rest & E & Hs)%until_nul_inv. exists (take p f), rest. split_and!; [| | done].
    + rewrite <- E. by rewrite take_drop.
    + rewrite length_take. apply (f_equal length) in E. rewrite length_drop, length_app in E. cbn in E. lia.
  - intros (before & rest & -> & <- & Hs). unfold str_at. rewrite drop_app_length. by apply until_nul_app.
Qed.

Lemma str_at_nonzero f p s : str_at f p s → Forall (λ c, c ≠ 0) s.
Proof. by intros (? & ? & ? & ? & ?)%str_at_parts. Qed.

Lemma str_at_bound f p s : str_at f p s → (p + length s < length f)%nat.
Proof. intros (before & rest & -> & <- & Hs)%str_at_parts. rewrite !length_app. cbn. lia. Qed.

Lemma str_at_drop f p s i : str_at f p s → (i ≤ length s)%nat → str_at f (p + i) (drop i s).
Proof.
  intros (before & rest & -> & <- & Hs)%str_at_parts Hi. apply str_at_parts.
  exists (before ++ take i s), rest. split_and!.
  - rewrite <- (take_drop i s) at 1. by rewrite <- !app_assoc.
  - rewrite length_app, length_take. lia.
  - by apply Forall_drop.
Qed.

Lemma str_at_lookup f p s i c : str_at f p s → s !! i = Some c → f !! (p + i)%nat = Some c.
Proof.
  intros (before & rest & -> & <- & Hs)%str_at_parts Hi. rewrite lookup_app_r by lia.
  replace (length before + i - length before)%nat with i by lia.
  rewrite lookup_app_l; [done |]. by apply lookup_lt_Some in Hi.
Qed.

(** A store outside a string, and one that cuts it. *)
Lemma str_at_outside f p s k v :
  str_at f p s → (k < p ∨ p + length s < k)%nat → str_at (<[k := v]> f) p s.
Proof.
  intros (before & rest & -> & <- & Hs)%str_at_parts [Hk|Hk]; apply str_at_parts.
  - exists (<[k := v]> before), rest. split_and!; [| by rewrite length_insert | done]. by rewrite insert_app_l.
  - exists before, (<[(k - length before - length s - 1)%nat := v]> rest). split_and!; [| done | done].
    rewrite insert_app_r_alt by lia. f_equal. rewrite insert_app_r_alt by lia. f_equal.
    destruct (k - length before - length s)%nat as [|j] eqn:E; [lia |]. cbn. by rewrite Nat.sub_0_r.
Qed.

Lemma str_at_cut f p s i : str_at f p s → (i < length s)%nat → str_at (<[(p + i)%nat := 0]> f) p (take i s).
Proof.
  intros (before & rest & -> & <- & Hs)%str_at_parts Hi. apply str_at_parts.
  exists before, (drop (S i) s ++ 0 :: rest). split_and!; [| done | by apply Forall_take].
  rewrite insert_app_r. f_equal. rewrite insert_app_l by done.
  rewrite insert_take_drop by done. by rewrite <- !app_assoc.
Qed.

(** ** Searching *)
Lemma starts_with_app pattern s : starts_with pattern s = true ↔ ∃ rest, s = pattern ++ rest.
Proof.
  revert s. induction pattern as [|c pattern IH]; intros s; cbn; [split; [by exists s | done] |].
  destruct s as [|d s]; [split; [done | by intros [? ?]] |].
  rewrite andb_true_iff, bool_decide_eq_true, IH. naive_solver.
Qed.

Lemma find_text_found pattern s i :
  find_text pattern s = Some i → drop i s = pattern ++ drop (i + length pattern) s ∧ (i + length pattern ≤ length s)%nat.
Proof.
  revert i. induction s as [|c s IH]; intros i H; cbn in H;
    destruct (starts_with pattern _) eqn:E; [| done | |].
  - injection H as <-. apply starts_with_app in E as [rest E]. destruct pattern; [done | by destruct rest].
  - injection H as <-. apply starts_with_app in E as [rest E]. rewrite E. cbn. rewrite drop_app_length, length_app. split; [done | lia].
  - destruct (find_text pattern s) as [j|]; [| done]. injection H as <-. cbn. destruct (IH j eq_refl). split; [done | lia].
Qed.

(** A pattern that starts with a space is found at a space. *)
Lemma find_text_head c pattern s i : find_text (c :: pattern) s = Some i → s !! i = Some c.
Proof. intros [E _]%find_text_found. rewrite <- (Nat.add_0_r i), <- lookup_drop, E. done. Qed.

(** ** What code reads and prints while the file is [f] *)
Definition reads_in {A} (f : list Z) (m : M tool A) (a : A) : Prop := ∀ s, file s = f → m s = Ok a s.
Definition prints_in (f : list Z) (m : M tool unit) (t : list Z) : Prop :=
  ∀ s, file s = f → m s = Ok () (set_printed (printed s ++ t) s).

Section prints.
Context (f : list Z).
Implicit Types (p : nat) (s t u : list Z).

Lemma reads_ret {A} (a : A) : reads_in f (mret a) a.
Proof. by intros s _. Qed.

Lemma reads_bind {A B} (m : M tool A) (n : A → M tool B) a b :
  reads_in f m a → reads_in f (n a) b → reads_in f (m ≫= n) b.
Proof. intros Hm Hn s Hs. unfold mbind, M_bind. rewrite (Hm s Hs). by apply Hn. Qed.

Lemma prints_bind_read {A} (m : M tool A) (n : A → M tool unit) a t :
  reads_in f m a → prints_in f (n a) t → prints_in f (m ≫= n) t.
Proof. intros Hm Hn s Hs. unfold mbind, M_bind. rewrite (Hm s Hs). by apply Hn. Qed.

Lemma prints_bind (m : M tool unit) (n : unit → M tool unit) t u :
  prints_in f m t → prints_in f (n ()) u → prints_in f (m ≫= n) (t ++ u).
Proof.
  intros Hm Hn s Hs. unfold mbind, M_bind. rewrite (Hm s Hs). cbn.
  rewrite (Hn (set_printed (printed s ++ t) s)) by done. unfold set_printed. cbn. by rewrite app_assoc.
Qed.

Lemma prints_eq m t u : prints_in f m t → t = u → prints_in f m u.
Proof. by intros ? <-. Qed.

Lemma prints_print t : prints_in f (print t) t.
Proof. by intros s _. Qed.

Lemma prints_nothing : prints_in f (mret ()) [].
Proof. intros s _. unfold set_printed. rewrite app_nil_r. by destruct s. Qed.

Lemma reads_file : reads_in f (gets file) f.
Proof. intros s <-. done. Qed.

Lemma reads_string p s : str_at f p s → reads_in f (c_string p) s.
Proof.
  intros H. unfold c_string. eapply reads_bind; [apply reads_file |]. cbv beta.
  unfold str_at in H. rewrite H. apply reads_ret.
Qed.

Lemma prints_string p s : str_at f p s → prints_in f (print_string p) s.
Proof. intros H. eapply prints_bind_read; [by apply reads_string | apply prints_print]. Qed.

Lemma reads_strstr p s pattern :
  str_at f p s → reads_in f (strstr p pattern) ((λ i, (p + i)%nat) <$> find_text pattern s).
Proof. intros H. eapply reads_bind; [by apply reads_string | apply reads_ret]. Qed.

(** *** Lists of parameters *)

(** Where the parameters of a list start: at its beginning and behind each comma. *)
Fixpoint suffixes (fuel : nat) t : list (list Z) :=
  match fuel with
  | O => [t]
  | S fuel => match find_text [comma] t with None => [t] | Some i => t :: suffixes fuel (drop (S i) t) end
  end.

Lemma find_comma_short t i : find_text [comma] t = Some i → (i < length t)%nat ∧ (length (drop (S i) t) < length t)%nat.
Proof. intros [_ H]%find_text_found. cbn in H. rewrite length_drop. lia. Qed.

Lemma count_suffixes n t p result fuel : (length t ≤ n)%nat → (S (length t) ≤ fuel)%nat →
  str_at f (S p) t →
  reads_in f (count_parameters fuel (Some p) result) (result + Z.of_nat (length (suffixes n t))).
Proof.
  revert t p result fuel. induction n as [|n IH]; intros t p result fuel Hn Hfuel Hp.
  - destruct t; [| cbn in Hn; lia]. destruct fuel as [|fuel]; [lia |]. cbn [count_parameters].
    eapply reads_bind; [by apply reads_strstr |]. cbn. destruct fuel; apply reads_ret.
  - destruct fuel as [|fuel]; [lia |]. cbn [count_parameters suffixes].
    eapply reads_bind; [by apply reads_strstr |]. cbv beta.
    destruct (find_text [comma] t) as [i|] eqn:E; cbn [fmap option_fmap option_map].
    + destruct (find_comma_short t i E). replace (result + Z.of_nat (length (t :: suffixes n (drop (S i) t))))
        with (result + 1 + Z.of_nat (length (suffixes n (drop (S i) t)))) by (cbn; lia).
      apply IH; [lia | lia |]. replace (S (S p + i)) with (S p + S i)%nat by lia. apply str_at_drop; [done | lia].
    + destruct fuel; apply reads_ret.
Qed.
End prints.

(** ** A list of parameters and what it declares *)
Definition declaration : Type := list Z * list Z.      (* name and type *)

Definition declares (s : list Z) (d : declaration) : Prop :=
  scan_declaration s = Some d ∧ (length d.1 < 32)%nat ∧ (length d.2 < 128)%nat.

(** The text behind [IN] or [OUT] if there is one, and what it declares. *)
Definition list_declares (t : option (list Z)) (ds : list declaration) : Prop :=
  match t with
  | None => ds = []
  | Some t => head t ≠ Some comma ∧ t ≠ [] ∧ Forall2 declares (suffixes (length t) t) ds
  end.

(** A pointer to such a text. *)
Definition list_at (f : list Z) (p : option nat) (t : option (list Z)) : Prop :=
  match p, t with
  | None, None => True
  | Some p, Some t => str_at f p t
  | _, _ => False
  end.

(** The texts of the parameters one behind the other, with their numbers. *)
Fixpoint numbered (g : Z → declaration → list Z) (i : Z) (ds : list declaration) : list Z :=
  match ds with [] => [] | d :: ds => g i d ++ numbered g (i + 1) ds end.

Section parameters.
Context (f : list Z).
Implicit Types (s : list Z) (ds : list declaration).

Lemma suffixes_behind_head n c (t : list Z) : c ≠ comma → (length t < n)%nat →
  length (suffixes n (c :: t)) = length (suffixes (length t) t).
Proof.
  assert (Hfuel : ∀ n m u, (length u ≤ n)%nat → (length u ≤ m)%nat → suffixes n u = suffixes m u).
  { intros n'. induction n' as [|n' IH]; intros m u Hn Hm.
    - destruct u; [| cbn in Hn; lia]. by destruct m.
    - destruct m as [|m]; [destruct u; [done | cbn in Hm; lia] |]. cbn [suffixes].
      destruct (find_text [comma] u) as [i|] eqn:E; [| done]. destruct (find_comma_short u i E).
      f_equal. apply IH; lia. }
  intros Hc Hn. destruct n as [|n]; [lia |]. cbn [suffixes].
  assert (E : find_text [comma] (c :: t) = S <$> find_text [comma] t).
  { cbn [find_text]. cbn [starts_with]. by rewrite bool_decide_eq_false_2 by congruence. }
  rewrite E. rewrite (Hfuel (length t) (S (length t)) t) by lia. cbn [suffixes].
  destruct (find_text [comma] t) as [i|] eqn:Ei; [| done]. cbn [fmap option_fmap option_map drop length].
  destruct (find_comma_short t i Ei). f_equal. f_equal. apply Hfuel; lia.
Qed.

Lemma reads_parameters_count p t ds :
  list_at f p t → list_declares t ds → reads_in f (parameters_count p) (Z.of_nat (length ds)).
Proof.
  intros Hp Hd. unfold parameters_count. eapply reads_bind; [apply reads_file |]. cbv beta.
  destruct p as [p|], t as [t|]; try done.
  - destruct Hd as (Hc & Hn & Hd). destruct t as [|c t]; [done |]. apply Forall2_length in Hd.
    rewrite <- Hd, suffixes_behind_head; [| by intros -> | cbn; lia].
    pose proof (str_at_bound f p (c :: t) Hp) as Hb. cbn in Hb.
    apply (count_suffixes f (length t) t p 0); [lia | lia |].
    replace (S p) with (p + 1)%nat by lia. apply (str_at_drop f p (c :: t) 1); [done | cbn; lia].
  - cbn in Hd. subst ds. destruct (length f); apply reads_ret.
Qed.

Lemma prints_for_suffixes body g n i p s ds :
  (∀ i q s d, str_at f q s → declares s d → prints_in f (body i q) (g i d)) →
  (length s ≤ n)%nat → str_at f p s → Forall2 declares (suffixes n s) ds →
  prints_in f (for_parameters (length ds) i (Some p) body) (numbered g i ds).
Proof.
  intros Hb. revert i p s ds. induction n as [|n IH]; intros i p s ds Hn Hp Hds; cbn [suffixes] in Hds.
  - apply Forall2_cons_inv_l in Hds as (d & ds' & Hd & Hds & ->). apply Forall2_nil_inv_l in Hds as ->. cbn.
    eapply prints_bind_read; [apply reads_ret |]. cbv beta. apply prints_bind; [by eapply Hb |].
    eapply prints_bind_read; [by apply reads_strstr | apply prints_nothing].
  - destruct (find_text [comma] s) as [j|] eqn:E.
    + apply Forall2_cons_inv_l in Hds as (d & ds' & Hd & Hds & ->). cbn.
      eapply prints_bind_read; [apply reads_ret |]. cbv beta. apply prints_bind; [by eapply Hb |].
      eapply prints_bind_read; [by apply reads_strstr |]. rewrite E. cbn. destruct (find_comma_short s j E).
      replace (S (p + j)) with (p + S j)%nat by lia. eapply IH; [| | exact Hds]; [lia |].
      apply str_at_drop; [done | lia].
    + apply Forall2_cons_inv_l in Hds as (d & ds' & Hd & Hds & ->). apply Forall2_nil_inv_l in Hds as ->. cbn.
      eapply prints_bind_read; [apply reads_ret |]. cbv beta. apply prints_bind; [by eapply Hb |].
      eapply prints_bind_read; [by apply reads_strstr | apply prints_nothing].
Qed.

Lemma prints_for_parameters body g i p t ds :
  (∀ i q s d, str_at f q s → declares s d → prints_in f (body i q) (g i d)) →
  list_at f p t → list_declares t ds →
  prints_in f (for_parameters (Z.to_nat (Z.of_nat (length ds))) i p body) (numbered g i ds).
Proof.
  intros Hb Hp Hd. rewrite Nat2Z.id. destruct p as [p|], t as [t|]; try done.
  - destruct Hd as (_ & _ & Hd). by apply (prints_for_suffixes body g (length t) i p t).
  - cbn in Hd. subst ds. apply prints_nothing.
Qed.

Lemma reads_declaration p s d : str_at f p s → declares s d → reads_in f (parameter_declaration p) d.
Proof.
  intros Hp (E & Hn & Ht). destruct d as [name type_set]. cbn in Hn, Ht. unfold parameter_declaration.
  eapply reads_bind; [by apply reads_string |]. cbv beta. rewrite E.
  rewrite !bool_decide_eq_false_2 by lia. eapply reads_bind; [apply reads_ret | apply reads_ret].
Qed.

Lemma prints_type p s d : str_at f p s → declares s d → prints_in f (print_parameter_type p) d.2.
Proof. intros Hp Hd. eapply prints_bind_read; [by eapply reads_declaration | apply prints_print]. Qed.

Lemma prints_decl p s d : str_at f p s → declares s d →
  prints_in f (print_parameter_decl p) (d.2 ++ text " " ++ d.1).
Proof. intros Hp Hd. eapply prints_bind_read; [by eapply reads_declaration | apply prints_print]. Qed.

Lemma prints_name p s d : str_at f p s → declares s d → prints_in f (print_parameter_name p) d.1.
Proof.
  intros Hp (E & Hn & Ht). unfold print_parameter_name. eapply prints_bind_read; [by apply reads_string |]. cbv beta.
  assert (En : scan_name s = Some d.1).
  { unfold scan_declaration in E. unfold scan_name. destruct (span is_name_char (skip_white s)) as [[|c name] [|c' rest]]; try done.
    case_bool_decide; [| done]. by destruct (span is_type_char (skip_white rest)) as [[|] ?]; simplify_eq. }
  rewrite En, bool_decide_eq_false_2 by lia. eapply prints_bind_read; [apply reads_ret | apply prints_print].
Qed.

(** The first parameter of a list that is not empty. *)
Lemma reads_dereference p : reads_in f (dereference (Some p)) p.
Proof. apply reads_ret. Qed.

Lemma list_at_first p t d ds : list_at f p t → list_declares t (d :: ds) →
  ∃ q s, p = Some q ∧ str_at f q s ∧ declares s d.
Proof.
  intros Hp Hd. destruct p as [q|], t as [t|]; try done. destruct Hd as (_ & _ & Hd).
  exists q, t. split; [done |]. split; [done |].
  destruct (length t); cbn [suffixes] in Hd; [by inversion Hd |].
  destruct (find_text [comma] t); by inversion Hd.
Qed.
End parameters.

(** ** A routine *)
Record routine : Type := Routine {
  r_name : list Z;
  r_code : Z;                       (* the call number *)
  r_in : list declaration;
  r_out : list declaration;
}.

(** The text before a pattern, and the text behind it. *)
Definition cut (pattern s : list Z) : list Z * option (list Z) :=
  match find_text pattern s with
  | Some i => (take i s, Some (drop (i + length pattern) s))
  | None => (s, None)
  end.

(** What [split] makes of a line: the name, and the lists behind [IN] and [OUT]. *)
Definition split_text (s : list Z) : list Z * option (list Z) * option (list Z) :=
  let (s, out) := cut (text " OUT ") s in
  let (s, inp) := cut (text " IN ") s in
  ((cut (text " ") s).1, inp, out).

Definition good_routine (prefix_crc : Z) (line : list Z) (r : routine) : Prop :=
  (split_text line).1.1 = r_name r ∧ crc32 line prefix_crc = r_code r ∧
  list_declares (split_text line).1.2 (r_in r) ∧ list_declares (split_text line).2 (r_out r).

(** *** What is printed for it *)
Definition comma_declaration (_ : Z) (d : declaration) : list Z := text ", " ++ d.2 ++ text " " ++ d.1.

Definition client_text (interface_name : list Z) (r : routine) : list Z :=
  text "static inline " ++
  match r_out r with [] => text "void" | [d] => d.2 | _ => text "TODO " end ++
  text " " ++ interface_name ++ text "__" ++ r_name r ++ text "( " ++ interface_name ++ text " o" ++
  numbered comma_declaration 0 (r_in r) ++ (text " )" ++ newline ++ text "{" ++ newline) ++
  match r_out r with
  | [] => text "  Isambard_"
  | d :: _ => text "  return " ++ d.2 ++ text "__from_integer_register( Isambard_"
  end ++
  (decimal (Z.of_nat (length (r_in r))) ++ decimal (Z.of_nat (length (r_out r))) ++ text "( o.r, 0x" ++ hex8 (r_code r)) ++
  numbered (λ _ d, text ", " ++ d.1 ++ text ".r") 0 (r_in r) ++
  match r_out r with [] => text " );" ++ newline | _ => text " ) );" ++ newline end ++
  (text "}" ++ newline ++ newline).

Definition server_text (interface_name : list Z) (r : routine) : list Z :=
  text "extern void __attribute__(( noreturn )) c##__" ++ interface_name ++ text "__" ++ r_name r ++ text "__return( " ++
  numbered (λ i d, (if bool_decide (i ≠ 0) then text ", " else []) ++ d.2 ++ text " " ++ d.1) 0 (r_out r) ++
  (text " );" ++ line_goes_on) ++
  text "void __attribute__(( noreturn )) c##__" ++ interface_name ++ text "__" ++ r_name r ++ text "( c o" ++
  numbered comma_declaration 0 (r_in r) ++ (text " );" ++ line_goes_on).

Definition case_text (interface_name : list Z) (r : routine) : list Z :=
  (text "  case 0x" ++ hex8 (r_code r) ++ text ": ") ++
  text "c##__" ++ interface_name ++ text "__" ++ r_name r ++ text "( o" ++
  numbered (λ i d, text ", " ++ d.2 ++ (text "__from_integer_register( p" ++ decimal (i + 1) ++ text " )")) 0 (r_in r) ++
  (text " );" ++ line_goes_on).

Definition return_text (interface_name : list Z) (r : routine) : list Z :=
  (quotation_mark ++ text "\n" ++ quotation_mark ++ text "#c" ++ quotation_mark ++ text "__") ++
  interface_name ++ text "__" ++ r_name r ++ (text "__return:" ++ quotation_mark).

(** A generator of routines prints a text. *)
Definition routine_prints (fn : routine_parser) (interface_name : list Z) (g : routine → list Z) : Prop :=
  ∀ f interface_ptr name_ptr inp out tin tout r,
    str_at f interface_ptr interface_name → str_at f name_ptr (r_name r) →
    list_at f inp tin → list_declares tin (r_in r) → list_at f out tout → list_declares tout (r_out r) →
    prints_in f (fn interface_ptr name_ptr (r_code r) inp out) (g r).

Ltac prints_step :=
  lazymatch goal with
  | |- prints_in _ (print _ ≫= _) _ => apply prints_bind; [apply prints_print | cbv beta]
  | |- prints_in _ (print_string _ ≫= _) _ => apply prints_bind; [by apply prints_string | cbv beta]
  | |- prints_in _ (for_parameters _ _ _ _ ≫= _) _ => apply prints_bind; [eapply prints_for_parameters; [| done | done] | cbv beta]
  | |- prints_in _ (parameters_count _ ≫= _) _ => eapply prints_bind_read; [by eapply reads_parameters_count | cbv beta]
  | |- prints_in _ (print _) _ => apply prints_print
  end.
Ltac prints := repeat prints_step.

Section routines.
Context (interface_name : list Z).

Lemma prints_comma_decl f : ∀ (i : Z) q s d, str_at f q s → declares s d →
  prints_in f (_ ← print (text ", "); print_parameter_decl q) (comma_declaration i d).
Proof. intros i q s d Hq Hd. prints. by eapply prints_decl. Qed.

Lemma client_prints : routine_prints export_interface_routine_client_code interface_name (client_text interface_name).
Proof.
  intros f ip np inp out tin tout r Hi Hn Hin Hdin Hout Hdout. unfold export_interface_routine_client_code, client_text.
  prints. apply prints_bind.
  { destruct (r_out r) as [|d [|d' outs]] eqn:E; [apply prints_print | |];
      [| rewrite !bool_decide_eq_false_2 by (cbn; lia); apply prints_print].
    destruct (list_at_first f out tout d [] Hout Hdout) as (q & s & -> & Hq & Hd).
    eapply prints_bind_read; [apply reads_dereference | by eapply prints_type]. }
  prints; [apply prints_comma_decl |]. apply prints_bind.
  { destruct (r_out r) as [|d outs] eqn:E; [apply prints_print |].
    destruct (list_at_first f out tout d outs Hout Hdout) as (q & s & -> & Hq & Hd).
    rewrite bool_decide_eq_true_2 by (cbn; lia). prints.
    eapply prints_bind_read; [apply reads_dereference |]. apply prints_bind; [by eapply prints_type |]. prints. }
  prints; [intros i q s d Hq Hd; prints; apply prints_bind; [by eapply prints_name | prints] |].
  apply prints_bind; [| prints]. destruct (r_out r); [apply prints_print |].
  rewrite bool_decide_eq_true_2 by (cbn; lia). apply prints_print.
Qed.

Lemma server_prints : routine_prints export_interface_routine_server_code interface_name (server_text interface_name).
Proof.
  intros f ip np inp out tin tout r Hi Hn Hin Hdin Hout Hdout. unfold export_interface_routine_server_code, server_text.
  prints; [| apply prints_comma_decl]. intros i q s d Hq Hd. apply prints_bind; [| by eapply prints_decl].
  unfold when. destruct (bool_decide (i ≠ 0)); [apply prints_print | apply prints_nothing].
Qed.

Lemma case_prints : routine_prints export_interface_routine_case_code interface_name (case_text interface_name).
Proof.
  intros f ip np inp out tin tout r Hi Hn Hin Hdin Hout Hdout. unfold export_interface_routine_case_code, case_text.
  prints. intros i q s d Hq Hd. prints. apply prints_bind; [by eapply prints_type | prints].
Qed.

Lemma return_prints : routine_prints export_interface_routine_return_functions interface_name (return_text interface_name).
Proof.
  intros f ip np inp out tin tout r Hi Hn Hin Hdin Hout Hdout.
  unfold export_interface_routine_return_functions, return_text. prints.
Qed.
End routines.

(** ** [split] cuts a line and puts it together again *)
Definition poked (f : list Z) (p : option nat) (v : Z) : list Z :=
  match p with Some k => <[k := v]> f | None => f end.

Lemma poke_at_runs p v s : (∀ k, p = Some k → (k < length (file s))%nat) →
  poke_at p v s = Ok () (set_file (poked (file s) p v) s).
Proof.
  intros H. destruct p as [k|]; [| by destruct s]. specialize (H k eq_refl). unfold poke_at, poke.
  unfold gets at 1. unfold mbind at 1, M_bind at 1. rewrite guard_pass by lia. done.
Qed.

(** A cut at a pattern that starts with a space: the part before, the part behind and
    that the NUL replaced a space. *)
Lemma cut_strings f p s pattern : str_at f p s →
  let at_ := (λ i, (p + i)%nat) <$> find_text (space :: pattern) s in
  let f' := poked f at_ 0 in
  str_at f' p (cut (space :: pattern) s).1 ∧
  list_at f' ((λ k, (k + S (length pattern))%nat) <$> at_) (cut (space :: pattern) s).2 ∧
  (length (cut (space :: pattern) s).1 ≤ length s)%nat ∧
  (∀ k, at_ = Some k → f !! k = Some space ∧ k = (p + length (cut (space :: pattern) s).1)%nat ∧ (k < p + length s)%nat).
Proof.
  intros Hs. unfold cut. destruct (find_text (space :: pattern) s) as [i|] eqn:E; cbn; [| split_and!; try done].
  pose proof (find_text_head _ _ _ _ E) as Hh. destruct (find_text_found _ _ _ E) as [_ Hl]. cbn in Hl.
  split_and!.
  - apply str_at_cut; [done | lia].
  - apply (str_at_outside _ _ _ _ _); [| lia]. replace (p + i + S (length pattern))%nat with (p + (i + S (length pattern)))%nat by lia.
    by apply str_at_drop.
  - rewrite length_take. lia.
  - intros k [= <-]. split_and!; [by eapply str_at_lookup | rewrite length_take; lia | lia].
Qed.

Lemma list_at_outside f p t k v : list_at f p t →
  (∀ q, p = Some q → (k < q)%nat) → list_at (<[k := v]> f) p t.
Proof.
  intros H Hk. destruct p as [q|], t as [t|]; try done. apply str_at_outside; [done |]. left. by apply Hk.
Qed.

Lemma list_at_poked f p t at_ v : list_at f p t →
  (∀ k q, at_ = Some k → p = Some q → (k < q)%nat) → list_at (poked f at_ v) p t.
Proof. intros H Hk. destruct at_ as [k|]; [| done]. apply list_at_outside; eauto. Qed.

Lemma str_at_poked f p s at_ v : str_at f p s →
  (∀ k, at_ = Some k → (k < p ∨ p + length s < k)%nat) → str_at (poked f at_ v) p s.
Proof. intros H Hk. destruct at_ as [k|]; [| done]. apply str_at_outside; eauto. Qed.

Lemma poked_back f at_ : (∀ k, at_ = Some k → f !! k = Some space) → poked (poked f at_ 0) at_ space = f.
Proof.
  intros H. destruct at_ as [k|]; [| done]. cbn. rewrite list_insert_insert_eq. apply list_insert_id. by apply H.
Qed.

Lemma poked_commute f a b v w : (∀ j k, a = Some j → b = Some k → j ≠ k) →
  poked (poked f a v) b w = poked (poked f b w) a v.
Proof.
  intros H. destruct a as [j|], b as [k|]; try done. cbn. apply list_insert_insert_ne. specialize (H j k eq_refl eq_refl). congruence.
Qed.

Lemma poked_lookup f at_ v k : (∀ j, at_ = Some j → j ≠ k) → poked f at_ v !! k = f !! k.
Proof. intros H. destruct at_ as [j|]; [| done]. apply list_lookup_insert_ne. by apply H. Qed.

Lemma length_poked f at_ v : length (poked f at_ v) = length f.
Proof. destruct at_; [apply length_insert | done]. Qed.

Lemma run_reads {A B} f (m : M tool A) (k : A → M tool B) a s :
  reads_in f m a → file s = f → (m ≫= k) s = k a s.
Proof. intros H Hs. unfold mbind, M_bind. by rewrite (H s Hs). Qed.

Lemma run_poke {B} p v (k : unit → M tool B) s : (∀ j, p = Some j → (j < length (file s))%nat) →
  (poke_at p v ≫= k) s = k () (set_file (poked (file s) p v) s).
Proof. intros H. unfold mbind, M_bind. by rewrite poke_at_runs. Qed.

(** Where [split] stores its NULs. *)
Definition out_place (np : nat) (line : list Z) : option nat := (λ i, (np + i)%nat) <$> find_text (text " OUT ") line.
Definition in_place (np : nat) (line : list Z) : option nat :=
  (λ i, (np + i)%nat) <$> find_text (text " IN ") (cut (text " OUT ") line).1.
Definition space_place (np : nat) (line : list Z) : option nat :=
  (λ i, (np + i)%nat) <$> find_text (text " ") (cut (text " IN ") (cut (text " OUT ") line).1).1.
Definition cut_file f (np : nat) (line : list Z) : list Z :=
  poked (poked (poked f (out_place np line) 0) (in_place np line) 0) (space_place np line) 0.

Section split.
Context (f : list Z) (np : nat) (line : list Z) (Hline : str_at f np line).

Lemma cut_take pattern n : ∃ m, (m ≤ n)%nat ∧ (cut (space :: pattern) (take n line)).1 = take m line ∧
  ∀ i, find_text (space :: pattern) (take n line) = Some i →
    m = i ∧ f !! (np + i)%nat = Some space ∧ (i < length line)%nat ∧ (i + S (length pattern) ≤ n)%nat.
Proof.
  unfold cut. destruct (find_text (space :: pattern) (take n line)) as [i|] eqn:E; [| by exists n].
  destruct (find_text_found _ _ _ E) as [_ Hl]. rewrite length_take in Hl. cbn in Hl.
  exists i. split; [lia |]. split; [cbn; rewrite take_take; f_equal; lia |]. intros ? [= <-]. split_and!; [done | | lia | lia].
  eapply str_at_lookup; [done |]. apply find_text_head in E. by apply lookup_take_Some in E as [E _].
Qed.

(** The places are spaces of the line, each before the ones found earlier. *)
Lemma places :
  (∀ o, out_place np line = Some o → f !! o = Some space ∧ (np ≤ o < np + length line)%nat) ∧
  (∀ i, in_place np line = Some i → f !! i = Some space ∧ (np ≤ i < np + length line)%nat ∧
     ∀ o, out_place np line = Some o → (i + 4 ≤ o)%nat) ∧
  (∀ j, space_place np line = Some j → f !! j = Some space ∧ (np ≤ j < np + length line)%nat ∧
     (∀ o, out_place np line = Some o → (j < o)%nat) ∧ (∀ i, in_place np line = Some i → (j < i)%nat)).
Proof.
  destruct (cut_take (text "OUT ") (length line)) as (m1 & L1 & E1 & F1). rewrite firstn_all in E1, F1.
  destruct (cut_take (text "IN ") m1) as (m2 & L2 & E2 & F2). rewrite <- E1 in E2, F2.
  destruct (cut_take (text "") m2) as (m3 & L3 & E3 & F3). rewrite <- E2 in F3.
  unfold space_place, in_place, out_place.
  change (text " OUT ") with (space :: text "OUT "). change (text " IN ") with (space :: text "IN ").
  change (text " ") with (space :: text ""). split_and!; intros j (j' & Hj & ->)%fmap_Some_1.
  - destruct (F1 _ Hj) as (-> & ? & ? & ?). split; [done | lia].
  - destruct (F2 _ Hj) as (-> & ? & ? & Hle). cbn in Hle. split_and!; [done | lia | lia |].
    intros o (o' & Ho & ->)%fmap_Some_1. destruct (F1 _ Ho) as (-> & _). lia.
  - destruct (F3 _ Hj) as (-> & ? & ? & Hle). cbn in Hle. split_and!; [done | lia | lia | |].
    + intros o (o' & Ho & ->)%fmap_Some_1. destruct (F1 _ Ho) as (-> & _). lia.
    + intros o (o' & Ho & ->)%fmap_Some_1. destruct (F2 _ Ho) as (-> & _). lia.
Qed.

(** The stores at the end give the file back. *)
Lemma cut_file_back :
  poked (poked (poked (cut_file f np line) (space_place np line) space) (out_place np line) space)
    (in_place np line) space = f.
Proof.
  destruct places as (Ho & Hi & Hj). unfold cut_file.
  rewrite (poked_back (poked (poked f _ 0) _ 0) (space_place np line)).
  - rewrite (poked_commute (poked f _ 0) (in_place np line)).
    + rewrite (poked_back f (out_place np line)) by (intros k Hk; by apply Ho).
      apply poked_back. intros k Hk. by apply Hi.
    + intros j k Hj' Hk. destruct (Hi j Hj') as (_ & _ & H). specialize (H k Hk). lia.
  - intros k Hk. destruct (Hj k Hk) as (E & _ & H1 & H2).
    rewrite !poked_lookup; [done | |]; intros j Hj'; [specialize (H1 j Hj') | specialize (H2 j Hj')]; lia.
Qed.

(** What the cut file holds: the name and the two lists. *)
Lemma cut_file_strings :
  let '(name, inp, out) := split_text line in
  str_at (cut_file f np line) np name ∧
  list_at (cut_file f np line) ((λ p, (p + 4)%nat) <$> in_place np line) inp ∧
  list_at (cut_file f np line) ((λ p, (p + 5)%nat) <$> out_place np line) out.
Proof.
  destruct places as (_ & Pi & Pj). unfold split_text.
  destruct (cut_strings f np line (text "OUT ") Hline) as (S1 & L1 & N1 & _).
  destruct (cut (text " OUT ") line) as [s1 out] eqn:C1. change (space :: text "OUT ") with (text " OUT ") in *.
  rewrite C1 in S1, L1, N1. cbn [fst snd] in *. fold (out_place np line) in S1, L1.
  destruct (cut_strings _ np s1 (text "IN ") S1) as (S2 & L2 & N2 & _).
  unfold space_place, in_place in Pi, Pj |- *. unfold cut_file, in_place, space_place. rewrite C1 in Pi, Pj |- *. cbn [fst snd] in *.
  destruct (cut (text " IN ") s1) as [s2 inp] eqn:C2. change (space :: text "IN ") with (text " IN ") in *.
  rewrite C2 in S2, L2, N2. cbn [fst snd] in *.
  destruct (cut_strings _ np s2 (text "") S2) as (S3 & _ & _ & _). change (space :: text "") with (text " ") in *.
  split_and!; [exact S3 | |].
  - apply list_at_poked; [exact L2 |]. intros k q Hk (i & Hi & ->)%fmap_Some_1.
    destruct (Pj k Hk) as (_ & _ & _ & H). specialize (H i Hi). lia.
  - apply list_at_poked; [apply list_at_poked; [exact L1 |] |].
    + intros k q Hk (o & Ho & ->)%fmap_Some_1. destruct (Pi k Hk) as (_ & _ & H). specialize (H o Ho). lia.
    + intros k q Hk (o & Ho & ->)%fmap_Some_1. destruct (Pj k Hk) as (_ & _ & H & _). specialize (H o Ho). lia.
Qed.
End split.

(** [split] runs the generator on the parts of the line and leaves the file as it was. *)
Lemma split_prints fn g interface_name ip np line prefix_crc r f :
  routine_prints fn interface_name g → str_at f ip interface_name → str_at f np line →
  (ip + length interface_name < np)%nat → good_routine prefix_crc line r →
  prints_in f (split ip np fn prefix_crc) (g r).
Proof.
  intros Hfn Hip Hnp Hbefore (Hn & Hc & Hin & Hout) s Hs. unfold split.
  destruct (places f np line Hnp) as (Po & Pi & Pj). pose proof (str_at_bound _ _ _ Hnp) as Hb.
  destruct (cut_strings f np line (text "OUT ") Hnp) as (S1 & _).
  destruct (cut_strings _ np _ (text "IN ") S1) as (S2 & _).
  change (space :: text "OUT ") with (text " OUT ") in *. change (space :: text "IN ") with (text " IN ") in *.
  fold (out_place np line) in S1, S2. fold (in_place np line) in S2.
  rewrite (run_reads f _ _ line) by (by try apply reads_string).
  rewrite (run_reads f _ _ (out_place np line)) by (by try apply reads_strstr). subst f.
  rewrite run_poke by (intros k Hk; destruct (Po k Hk); lia).
  rewrite (run_reads (poked (file s) (out_place np line) 0) _ _ (in_place np line)) by (by try apply reads_strstr).
  rewrite run_poke by (intros k Hk; cbn; rewrite length_poked; destruct (Pi k Hk); lia). cbn [file set_file].
  rewrite (run_reads (poked (poked (file s) (out_place np line) 0) (in_place np line) 0) _ _ (space_place np line))
    by (by try apply reads_strstr).
  rewrite run_poke by (intros k Hk; cbn; rewrite !length_poked; destruct (Pj k Hk); lia). cbn [file set_file].
  fold (cut_file (file s) np line). pose proof (cut_file_strings (file s) np line Hnp) as Hstr.
  destruct (split_text line) as [[name inp] out] eqn:Et. destruct Hstr as (Hname & Hinp & Houtp).
  cbn [fst snd] in Hn, Hin, Hout. subst name.
  assert (Hip' : str_at (cut_file (file s) np line) ip interface_name).
  { unfold cut_file. repeat apply str_at_poked; try done; intros k Hk.
    - destruct (Po k Hk); lia.
    - destruct (Pi k Hk) as (_ & ? & _); lia.
    - destruct (Pj k Hk) as (_ & ? & _); lia. }
  rewrite Hc. unfold mbind at 1, M_bind at 1.
  rewrite (Hfn (cut_file (file s) np line) ip np _ _ inp out r Hip' Hname Hinp Hin Houtp Hout) by done.
  rewrite run_poke by (intros k Hk; cbn; unfold cut_file; rewrite !length_poked; destruct (Pj k Hk) as (_ & ? & _); lia).
  rewrite run_poke by (intros k Hk; cbn; unfold cut_file; rewrite !length_poked; destruct (Po k Hk); lia).
  rewrite poke_at_runs by (intros k Hk; cbn; unfold cut_file; rewrite !length_poked; destruct (Pi k Hk) as (_ & ? & _); lia).
  cbn [file set_file set_printed]. rewrite cut_file_back by done. by destruct s.
Qed.

(** ** Interfaces *)

(** The lines [l], [l + 1], ... of the program are these strings. *)
Definition lines_at (f : list Z) (ls : list nat) (from : nat) (texts : list (list Z)) : Prop :=
  ∀ i t, texts !! i = Some t → ∃ p, ls !! (from + i)%nat = Some p ∧ str_at f p t.

Definition routines_prefix (name : list Z) : Z := interface_crc name.

(** An interface: its name and what its lines describe. *)
Definition interface : Type := list Z * list routine.
Definition good_interface (start : list Z) (body : list (list Z)) (i : interface) : Prop :=
  start = text "interface " ++ i.1 ∧ Forall2 (good_routine (interface_crc i.1)) body i.2.

Definition concat_map {A} (g : A → list Z) (l : list A) : list Z := concat (g <$> l).

Definition get_service_text (name : list Z) : list Z :=
  text "static inline " ++ name ++ text " " ++ name ++
  (text "__get_service( const char *name, long timeout )" ++ newline) ++ (text "{" ++ newline) ++
  (text "  NUMBER result = {};" ++ newline) ++ (text "  do {" ++ newline) ++
  (text "    result = SYSTEM__get_service( system, name_code( name ), NUMBER__from_integer_register( 0x" ++
   hex8 (interface_crc name) ++ text " ), NUMBER__from_integer_register( 0 ) );" ++ newline) ++
  (text "    if (timeout > 0) { timeout--; }" ++ newline) ++
  (text "    if (result.r == 0 && timeout != 0) { sleep_ms( 1 ); }" ++ newline) ++
  (text "  } while (timeout != 0 && result.r == 0);" ++ newline) ++ text "  return " ++ name ++
  (text "__from_integer_register( result.r );" ++ newline) ++ (text "}" ++ newline).

(** What the client's header has for an interface. *)
Definition client_interface (i : interface) : list Z :=
  (if bool_decide (i.1 ≠ text "SYSTEM") then get_service_text i.1 else []) ++
  concat_map (client_text i.1) i.2.

Definition register_service_text (name : list Z) : list Z :=
  text "static inline void c##__" ++ name ++
  (text "__register_service( const char *name, void * v ) { SYSTEM__register_service( system, name_code( name ), NUMBER__from_integer_register( interface_to_pass_to( system.r, c##__veneer, v ) ), NUMBER__from_integer_register( 0x" ++
   hex8 (interface_crc name) ++ text " ) ); }" ++ line_goes_on).

(** What the provider's header has for it. *)
Definition server_interface (i : interface) : list Z :=
  text "#define ISAMBARD_" ++ i.1 ++ (text "__SERVER( c )" ++ line_goes_on) ++
  (text "extern void __attribute__ ((noreturn)) c##__veneer();" ++ line_goes_on) ++
  (text "extern void __attribute__ ((noreturn)) c##__return();" ++ line_goes_on) ++
  (text "extern void __attribute__ ((noreturn)) c##__exception( integer_register code );" ++ line_goes_on) ++
  concat_map (server_text i.1) i.2 ++
  (text "void c##__call_handler( c o, integer_register call, integer_register p1, integer_register p2, integer_register p3, integer_register p4 );" ++ line_goes_on) ++
  (if bool_decide (i.1 ≠ text "SYSTEM") then register_service_text i.1 else []) ++
  text "static inline " ++ i.1 ++ text " c##__" ++ i.1 ++ text "__to_return( void * v ) { " ++ i.1 ++
  (text " result; result.r = interface_to_return( c##__veneer, v ); return result; }" ++ line_goes_on) ++
  text "static inline " ++ i.1 ++ text " c##__" ++ i.1 ++ text "__to_pass_to( integer_register target, void * v ) { " ++ i.1 ++
  (text " result; result.r = interface_to_pass_to( target, c##__veneer, v ); return result; }" ++ newline ++ newline) ++
  text "#define AS_" ++ i.1 ++ (text "( c )  switch (call) {\" ++ newline) ++
  concat_map (case_text i.1) i.2 ++ (text "  }" ++ newline) ++
  text "#define RETURN_FUNCTIONS_" ++ i.1 ++ text "( c ) " ++ concat_map (return_text i.1) i.2 ++ newline.

(** ** What code prints when the lines are known as well *)
Record known : Type := Known { k_file : list Z; k_lines : list nat; k_interfaces : list nat; k_ends : list nat }.
Definition knows (k : known) (s : tool) : Prop :=
  file s = k_file k ∧ lines s = k_lines k ∧ interfaces s = k_interfaces k ∧ ends s = k_ends k.
Definition prints_on (k : known) (m : M tool unit) (t : list Z) : Prop :=
  ∀ s, knows k s → m s = Ok () (set_printed (printed s ++ t) s).
Definition reads_on {A} (k : known) (m : M tool A) (a : A) : Prop := ∀ s, knows k s → m s = Ok a s.

Section known.
Context (k : known).

Lemma prints_on_in m t : prints_in (k_file k) m t → prints_on k m t.
Proof. intros H s (Hs & _). by apply H. Qed.

Lemma reads_on_in {A} (m : M tool A) a : reads_in (k_file k) m a → reads_on k m a.
Proof. intros H s (Hs & _). by apply H. Qed.

Lemma prints_on_bind m n t u : prints_on k m t → prints_on k (n ()) u → prints_on k (m ≫= n) (t ++ u).
Proof.
  intros Hm Hn s Hs. unfold mbind, M_bind. rewrite (Hm s Hs). cbn.
  rewrite (Hn (set_printed (printed s ++ t) s)) by apply Hs. unfold set_printed. cbn. by rewrite app_assoc.
Qed.

Lemma prints_on_read {A} (m : M tool A) n a t : reads_on k m a → prints_on k (n a) t → prints_on k (m ≫= n) t.
Proof. intros Hm Hn s Hs. unfold mbind, M_bind. rewrite (Hm s Hs). by apply Hn. Qed.

Lemma reads_on_bind {A B} (m : M tool A) (n : A → M tool B) a b :
  reads_on k m a → reads_on k (n a) b → reads_on k (m ≫= n) b.
Proof. intros Hm Hn s Hs. unfold mbind, M_bind. rewrite (Hm s Hs). by apply Hn. Qed.

Lemma reads_element l i p : l !! i = Some p → reads_on k (element l i) p.
Proof. intros H s _. unfold element. by rewrite H. Qed.

Lemma reads_line l p : k_lines k !! l = Some p → reads_on k (line_at l) p.
Proof.
  intros H. eapply reads_on_bind; [intros s (_ & Hs & _); unfold gets; by rewrite Hs |]. by apply reads_element.
Qed.

(** The lines of an interface come after its name. *)
Lemma prints_each_routine fn g name ip from body rs :
  routine_prints fn name g → str_at (k_file k) ip name →
  (∀ i t, body !! i = Some t →
     ∃ p, k_lines k !! (from + i)%nat = Some p ∧ str_at (k_file k) p t ∧ (ip + length name < p)%nat) →
  Forall2 (good_routine (interface_crc name)) body rs →
  prints_on k (each_routine (length body) from ip fn (interface_crc name)) (concat_map g rs).
Proof.
  intros Hfn Hip Hlines Hrs. revert from Hlines. induction Hrs as [|t r body rs Hr Hrs IH]; intros from Hlines.
  { apply prints_on_in, prints_nothing. }
  destruct (Hlines 0%nat t eq_refl) as (p & Hp & Hpt & Hbefore). rewrite Nat.add_0_r in Hp.
  cbn [each_routine length concat_map]. eapply prints_on_read; [by apply reads_line |]. cbv beta.
  change (concat_map g (r :: rs)) with (g r ++ concat_map g rs). apply prints_on_bind.
  - apply prints_on_in. by eapply split_prints.
  - apply IH. intros i t' Hi. destruct (Hlines (S i) t' Hi) as (p' & Hp' & ?). exists p'.
    by replace (S from + i)%nat with (from + S i)%nat by lia.
Qed.
End known.

Lemma get_service_prints f ip name : str_at f ip name →
  prints_in f (export_get_service ip (interface_crc name)) (get_service_text name).
Proof. intros H. unfold export_get_service, get_service_text. prints. Qed.

Lemma register_service_prints f ip name : str_at f ip name →
  prints_in f (export_register_service ip (interface_crc name)) (register_service_text name).
Proof. intros H. unfold export_register_service, register_service_text. prints. Qed.

(** The interface between the lines [start] and [stop] is [i]. *)
Definition interface_at (k : known) (start stop : nat) (i : interface) : Prop :=
  ∃ ip body, k_lines k !! start = Some ip ∧ str_at (k_file k) ip (text "interface " ++ i.1) ∧
    length body = (stop - S start)%nat ∧
    (∀ j t, body !! j = Some t → ∃ p, k_lines k !! (S start + j)%nat = Some p ∧ str_at (k_file k) p t ∧
       (ip + 10 + length i.1 < p)%nat) ∧
    Forall2 (good_routine (interface_crc i.1)) body i.2.

Ltac prints_on_step :=
  lazymatch goal with
  | |- prints_on _ (print _ ≫= _) _ => apply prints_on_bind; [apply prints_on_in, prints_print | cbv beta]
  | |- prints_on _ (print_string _ ≫= _) _ => apply prints_on_bind; [by apply prints_on_in, prints_string | cbv beta]
  | |- prints_on _ (print _) _ => apply prints_on_in, prints_print
  end.

Section interface.
Context (k : known) (start stop : nat) (i : interface) (Hi : interface_at k start stop i).

Lemma interface_name_at ip : str_at (k_file k) ip (text "interface " ++ i.1) → str_at (k_file k) (ip + 10) i.1.
Proof. intros H. by apply (str_at_drop _ _ _ 10) in H; [| cbn; lia]. Qed.

Lemma client_interface_prints : prints_on k (export_client_interface start stop) (client_interface i).
Proof.
  destruct Hi as (ip & body & Hl & Hs & Hlen & Hb & Hr). apply interface_name_at in Hs.
  unfold export_client_interface, client_interface. rewrite <- Hlen. eapply prints_on_read; [by apply reads_line |]. cbv beta zeta.
  eapply prints_on_read; [by apply reads_on_in, reads_string |]. cbv beta. apply prints_on_bind.
  - unfold when. destruct (bool_decide _); [by apply prints_on_in, get_service_prints | apply prints_on_in, prints_nothing].
  - eapply prints_each_routine; [apply client_prints | done | done | done].
Qed.

Lemma server_interface_prints : prints_on k (export_server_interface start stop) (server_interface i).
Proof.
  destruct Hi as (ip & body & Hl & Hs & Hlen & Hb & Hr). apply interface_name_at in Hs.
  unfold export_server_interface, server_interface. rewrite <- Hlen. eapply prints_on_read; [by apply reads_line |]. cbv beta zeta.
  eapply prints_on_read; [by apply reads_on_in, reads_string |]. cbv beta. repeat prints_on_step.
  apply prints_on_bind; [eapply prints_each_routine; [apply server_prints | done | done | done] |]. repeat prints_on_step.
  apply prints_on_bind.
  { unfold when. destruct (bool_decide _); [by apply prints_on_in, register_service_prints | apply prints_on_in, prints_nothing]. }
  repeat prints_on_step.
  apply prints_on_bind; [eapply prints_each_routine; [apply case_prints | done | done | done] |]. repeat prints_on_step.
  apply prints_on_bind; [eapply prints_each_routine; [apply return_prints | done | done | done] |]. repeat prints_on_step.
Qed.
End interface.

Lemma prints_each_interface k export g i ifs :
  (∀ start stop i, interface_at k start stop i → prints_on k (export start stop) (g i)) →
  (∀ j x, ifs !! j = Some x → ∃ start stop,
     k_interfaces k !! (i + j)%nat = Some start ∧ k_ends k !! (i + j)%nat = Some stop ∧ interface_at k start stop x) →
  prints_on k (each_interface (length ifs) i export) (concat_map g ifs).
Proof.
  intros Hg. revert i. induction ifs as [|x ifs IH]; intros i His; [apply prints_on_in, prints_nothing |].
  destruct (His 0%nat x eq_refl) as (start & stop & H1 & H2 & Hx). rewrite Nat.add_0_r in H1, H2. cbn [each_interface length].
  eapply prints_on_read; [intros s (_ & _ & Hs & _); unfold gets; by rewrite Hs |]. cbv beta.
  eapply prints_on_read; [by apply reads_element |]. cbv beta.
  eapply prints_on_read; [intros s (_ & _ & _ & Hs); unfold gets; by rewrite Hs |]. cbv beta.
  eapply prints_on_read; [by apply reads_element |]. cbv beta.
  change (concat_map g (x :: ifs)) with (g x ++ concat_map g ifs). apply prints_on_bind; [by apply Hg |].
  apply IH. intros j y Hj. destruct (His (S j) y Hj) as (st & sp & ?). exists st, sp.
  by replace (S i + j)%nat with (i + S j)%nat by lia.
Qed.

(** ** The lines of a file *)

(** The pieces between the newlines. *)
Fixpoint split_newlines (s : list Z) : list (list Z) :=
  match s with
  | [] => [[]]
  | c :: s =>
      if bool_decide (c = 10) then [] :: split_newlines s
      else match split_newlines s with [] => [[c]] | l :: ls => (c :: l) :: ls end
  end.

Definition strip (s : list Z) : list Z := (span is_blank s).2.
Definition significant (s : list Z) : bool :=
  negb (bool_decide (s = []) || starts_with (text "#") s || starts_with (text "//") s).
Definition source_lines (content : list Z) : list (list Z) :=
  filter (λ t, significant t = true) (strip <$> split_newlines content).

(** The interfaces among the lines, with the numbers of their first and last lines; [None] when
    [interface] and [end] do not alternate. *)
Fixpoint blocks_from (ls : list (list Z)) (i : nat) (open : option nat) : option (list (nat * nat)) :=
  match ls with
  | [] => match open with None => Some [] | Some _ => None end
  | l :: ls =>
      if starts_with (text "interface ") l then
        match open with None => blocks_from ls (S i) (Some i) | Some _ => None end
      else if bool_decide (l = text "end") then
        match open with None => None | Some start => cons (start, i) <$> blocks_from ls (S i) None end
      else blocks_from ls (S i) open
  end.
Definition interface_blocks (ls : list (list Z)) : option (list (nat * nat)) := blocks_from ls 0 None.

Lemma span_parts (P : Z → bool) s : s = (span P s).1 ++ (span P s).2 ∧ Forall (λ c, P c = true) (span P s).1 ∧
  match (span P s).2 with [] => True | c :: _ => P c = false end.
Proof.
  induction s as [|c s (E & Hf & Hh)]; [by repeat constructor |]. cbn. destruct (P c) eqn:Hc; cbn; [| by repeat constructor].
  rewrite <- E. split_and!; [done | by constructor | done].
Qed.

(** The first word of [split_newlines]. *)
Lemma split_newlines_word word tail : Forall (λ c, c ≠ 10) word →
  split_newlines (word ++ 10 :: tail) = word :: split_newlines tail ∧ split_newlines word = [word].
Proof.
  induction 1 as [|c word Hc _ [IH1 IH2]]; [done |]. cbn. rewrite bool_decide_eq_false_2 by done. by rewrite IH1, IH2.
Qed.

Definition kept (t : list Z) : list (list Z) := if significant (strip t) then [strip t] else [].

Lemma source_lines_word word tail : Forall (λ c, c ≠ 10) word →
  source_lines (word ++ 10 :: tail) = kept word ++ source_lines tail ∧ source_lines word = kept word.
Proof.
  intros Hw. destruct (split_newlines_word word tail Hw) as [E1 E2]. unfold source_lines, kept. rewrite E1, E2.
  rewrite !fmap_cons, fmap_nil, !filter_cons, filter_nil. by destruct (significant (strip word)) eqn:E.
Qed.

Lemma source_lines_newlines lead rest : Forall (λ c, c = 10) lead → source_lines (lead ++ rest) = source_lines rest.
Proof.
  induction 1 as [|c lead -> _ IH]; [done |].
  change ((10 :: lead) ++ rest) with ([] ++ 10 :: (lead ++ rest)). by destruct (source_lines_word [] (lead ++ rest)) as [-> _].
Qed.

(** ** Reading *)

(** The next line of the rest of the file: newlines before it, the line, what is behind it. *)
Definition next_line (rest : list Z) : list Z * list Z * list Z :=
  let (lead, rest) := span (λ c, bool_decide (c = 10)) rest in
  let (word, tail) := span (λ c, negb (bool_decide (c = 10))) rest in
  (lead, word, tail).

Lemma next_line_parts rest : let '(lead, word, tail) := next_line rest in
  rest = lead ++ word ++ tail ∧ Forall (λ c, c = 10) lead ∧ Forall (λ c, c ≠ 10) word ∧
  (tail = [] ∨ ∃ tail', tail = 10 :: tail') ∧ (word = [] → tail = []).
Proof.
  unfold next_line. pose proof (span_parts (λ c, bool_decide (c = 10)) rest) as (E1 & F1 & H1).
  destruct (span _ rest) as [lead rest1]. cbn in E1, F1, H1.
  pose proof (span_parts (λ c, negb (bool_decide (c = 10))) rest1) as (E2 & F2 & H2).
  destruct (span _ rest1) as [word tail]. cbn in E2, F2, H2. subst rest rest1.
  split_and!; [done | | | |].
  - eapply Forall_impl; [exact F1 |]. intros c Hc. by apply bool_decide_eq_true_1 in Hc.
  - eapply Forall_impl; [exact F2 |]. intros c Hc. cbn in Hc. by case_bool_decide.
  - destruct tail as [|c tail]; [by left |]. right. exists tail. case_bool_decide; [by subst | done].
  - intros ->. destruct tail as [|c tail]; [done |]. cbn in H1, H2. case_bool_decide; done.
Qed.

(** The file is [before], then the unread [rest], then the NUL at its end. *)
Definition unread (s : tool) (before rest : list Z) : Prop :=
  file s = before ++ rest ++ [0] ∧ strtok_next s = length before ∧ Forall (λ c, c ≠ 0) rest.

Lemma unread_string s before rest : unread s before rest → str_at (file s) (length before) rest.
Proof. intros (-> & _ & H). apply str_at_parts. exists before, []. done. Qed.


Lemma strtok_runs s before rest : unread s before rest →
  let '(lead, word, tail) := next_line rest in
  let start := (length before + length lead)%nat in
  match word, tail with
  | [], _ => strtok s = Ok None s
  | _, [] => strtok s = Ok (Some start) (set_strtok_next (start + length word) s)
  | _, _ :: tail =>
      strtok s = Ok (Some start)
        (set_strtok_next (S (start + length word)) (set_file (<[(start + length word)%nat := 0]> (file s)) s))
  end.
Proof.
  intros Hu. pose proof (next_line_parts rest) as Hp. pose proof (unread_string _ _ _ Hu) as Hs.
  destruct Hu as (Hf & Hn & Hz). unfold strtok. rewrite gets_ok, Hn.
  rewrite (run_reads (file s) _ _ rest) by (by try apply reads_string).
  unfold next_line in *. destruct (span (λ c, bool_decide (c = 10)) rest) as [lead rest1] eqn:E1.
  pose proof (span_parts (λ c, bool_decide (c = 10)) rest) as (Er & _). rewrite E1 in Er. cbn [fst snd] in Er |- *.
  destruct (span (λ c, negb (bool_decide (c = 10))) rest1) as [word tail] eqn:E2.
  destruct Hp as (E & _ & _ & Ht & Hwt). rewrite Er in E. apply app_inv_head in E.
  assert (Hs1 : str_at (file s) (length before + length lead) rest1).
  { apply (str_at_drop _ _ _ (length lead)) in Hs; [| rewrite Er, length_app; lia]. by rewrite Er, drop_app_length in Hs. }
  rewrite (run_reads (file s) _ _ rest1) by (by try apply reads_string).
  destruct word as [|c word]; [rewrite Hwt in E by done; by subst rest1 |].
  rewrite bool_decide_eq_false_2 by (by rewrite E). rewrite gets_ok, E2. cbn [fst].
  set (start := (length before + length lead)%nat). set (w := c :: word) in *.
  assert (Hlast : file s !! (start + length w)%nat = (tail ++ [0]) !! 0%nat).
  { rewrite Hf, Er, E. rewrite <- !app_assoc, (app_assoc before), (app_assoc _ w).
    rewrite lookup_app_r by (rewrite !length_app; lia). f_equal. rewrite !length_app. lia. }
  destruct Ht as [-> | [tail' ->]].
  - rewrite bool_decide_eq_false_2 by (rewrite Hlast; done). done.
  - rewrite bool_decide_eq_true_2 by (rewrite Hlast; done).
    assert (Hlen : (start + length w < length (file s))%nat) by (apply lookup_lt_is_Some; rewrite Hlast; by eexists).
    pose proof (poke_at_runs (Some (start + length w)%nat) 0 s) as Hpoke. cbn [poke_at] in Hpoke.
    unfold mbind at 1 2, M_bind at 1 2. by rewrite Hpoke by (by intros k [= <-]).
Qed.

(** What is known while the lines are read: [ts] are the lines so far, and [open] is the start of an
    interface that has not ended. *)
Record reading (s : tool) (before rest : list Z) (ts : list (list Z)) (open : option nat) : Prop := {
  rd_unread : unread s before rest;
  rd_lines : Forall2 (λ p t, str_at (file s) p t ∧ (p + length t ≤ length before)%nat) (lines s) ts;
  rd_last : rest ≠ [] → Forall2 (λ p t, (p + length t < length before)%nat) (lines s) ts;
  rd_order : ∀ i j p q t, (i < j)%nat → lines s !! i = Some p → ts !! i = Some t → lines s !! j = Some q →
    (p + length t < q)%nat;
  rd_open : ∃ starts, interfaces s = starts ++ option_list open ∧ length starts = length (ends s);
}.

(** The state only differs in the file and where [strtok] goes on. *)
Definition same_arrays (s s' : tool) : Prop :=
  lines s' = lines s ∧ interfaces s' = interfaces s ∧ ends s' = ends s ∧ printed s' = printed s.

Lemma strtok_reading s before rest ts open : reading s before rest ts open →
  (strtok s = Ok None s ∧ source_lines rest = []) ∨
  ∃ start word before' rest' s',
    strtok s = Ok (Some start) s' ∧ same_arrays s s' ∧ reading s' before' rest' ts open ∧
    source_lines rest = kept word ++ source_lines rest' ∧ str_at (file s') start word ∧
    (length before ≤ start)%nat ∧ (start + length word ≤ length before')%nat ∧
    (rest' ≠ [] → (start + length word < length before')%nat) ∧ rest ≠ [] ∧ (length rest' < length rest)%nat.
Proof.
  intros [Hu Hl Hlast Ho Hop]. pose proof (next_line_parts rest) as Hp. pose proof (strtok_runs s before rest Hu) as Hr.
  destruct (next_line rest) as [[lead word] tail]. destruct Hp as (E & Hlead & Hw & Ht & Hwt).
  destruct word as [|c word].
  { left. split; [done |]. rewrite Hwt in E by done. subst rest. by rewrite app_nil_l, source_lines_newlines. }
  right. set (w := c :: word) in *. pose proof (unread_string _ _ _ Hu) as Hs. destruct Hu as (Hf & Hn & Hz).
  assert (Hne : rest ≠ []) by (rewrite E; by destruct lead).
  assert (Hwlen : (0 < length w)%nat) by (cbn; lia).
  assert (Hst : str_at (file s) (length before + length lead) (w ++ tail)).
  { apply (str_at_drop _ _ _ (length lead)) in Hs; [| rewrite E, length_app; lia]. by rewrite E, drop_app_length in Hs. }
  exists (length before + length lead)%nat, w. destruct Ht as [-> | [tail' ->]].
  - exists (before ++ lead ++ w), [], (set_strtok_next (length before + length lead + length w) s).
    rewrite app_nil_r in *. split; [done |]. split; [done |]. split; [| split_and!].
    + split; cbn [file lines interfaces ends set_strtok_next]; [| | done | done | done].
      * unfold unread. cbn [file strtok_next set_strtok_next]. rewrite Hf, E, !length_app, <- !app_assoc. split_and!; [done | lia | done].
      * eapply Forall2_impl; [exact Hl |]. intros p t [? ?]. rewrite length_app. split; [done | lia].
    + rewrite E, source_lines_newlines by done. by destruct (source_lines_word w [] Hw) as [_ ->].
    + done.
    + lia.
    + rewrite !length_app. lia.
    + done.
    + done.
    + rewrite E, length_app. cbn. lia.
  - set (k := (length before + length lead + length w)%nat) in *.
    exists (before ++ lead ++ w ++ [0]), tail', (set_strtok_next (S k) (set_file (<[k := 0]> (file s)) s)).
    split; [done |]. split; [done |]. split; [| split_and!].
    + split; cbn [file lines interfaces ends set_strtok_next set_file]; [| | | done | done].
      * unfold unread. cbn [file strtok_next set_strtok_next set_file]. split_and!; [| rewrite !length_app; cbn [length]; lia |].
        -- rewrite Hf, E. rewrite <- !app_assoc. unfold k. rewrite <- Nat.add_assoc, insert_app_r, insert_app_r.
           rewrite <- (Nat.add_0_r (length w)), insert_app_r. done.
        -- rewrite E in Hz. rewrite !Forall_app, Forall_cons in Hz. tauto.
      * eapply Forall2_impl; [exact Hl |]. intros p t [? ?]. rewrite length_app. split; [| lia].
        apply str_at_outside; [done |]. right. lia.
      * intros _. eapply Forall2_impl; [exact Hl |]. intros p t [? ?]. rewrite !length_app. cbn [length]. lia.
    + rewrite E, source_lines_newlines by done. by destruct (source_lines_word w tail' Hw) as [-> _].
    + apply (str_at_cut _ _ _ (length w)) in Hst; [| rewrite length_app; cbn; lia]. by rewrite take_app_length in Hst.
    + lia.
    + rewrite !length_app. lia.
    + rewrite !length_app. cbn [length]. lia.
    + done.
    + rewrite E, !length_app. cbn [length]. lia.
Qed.

(** A line is added to the program's lines. *)
Lemma reading_add s before rest ts open start word :
  reading s before rest ts open → str_at (file s) start word →
  (∀ p t, (p, t) ∈ zip (lines s) ts → (p + length t < start)%nat) →
  (start + length word ≤ length before)%nat → (rest ≠ [] → (start + length word < length before)%nat) →
  reading (add_line start s) before rest (ts ++ [word]) open.
Proof.
  intros [Hu Hl Hlast Ho Hop] Hw Hbefore Hle Hlt. pose proof (Forall2_length _ _ _ Hl) as Hlen.
  split; cbn [file lines interfaces ends add_line]; [done | | | | done].
  - apply Forall2_app; [done | by repeat constructor].
  - intros H. apply Forall2_app; [by apply Hlast | repeat constructor; by apply Hlt].
  - intros i j p q t Hij Hp Ht Hq. apply lookup_app_Some in Hq as [Hq|[Hj Hq]].
    + pose proof (lookup_lt_Some _ _ _ Hq). rewrite lookup_app_l in Hp by lia. rewrite lookup_app_l in Ht by lia. exact (Ho i j p q t Hij Hp Ht Hq).
    + destruct (j - length (lines s))%nat as [|] eqn:Ej; [| done]. injection Hq as <-.
      rewrite lookup_app_l in Hp by lia. rewrite lookup_app_l in Ht by lia. apply Hbefore.
      apply list_elem_of_lookup. exists i. apply lookup_zip_Some. done.
Qed.

Definition count_interfaces (ls : list (list Z)) : nat :=
  length (filter (λ t, starts_with (text "interface ") t = true) ls).

(** What [read_lines] does to the arrays, with the lines that are left. *)
Definition read_result (s : tool) (ts todo : list (list Z)) (starts : list nat) (open : option nat) (r : res tool bool) : Prop :=
  match blocks_from todo (length ts) open with
  | Some bs => ∃ s' before' rest', r = Ok true s' ∧ reading s' before' rest' (ts ++ todo) None ∧
      interfaces s' = starts ++ bs.*1 ∧ ends s' = ends s ++ bs.*2 ∧ printed s' = printed s
  | None => ∃ b s', r = Ok b s' ∧ (b = true → length (ends s') ≠ length (interfaces s'))
  end.

Lemma read_result_end s before rest ts starts open : reading s before rest ts open → interfaces s = starts ++ option_list open →
  read_result s ts [] starts open (Ok true s).
Proof.
  intros Hr Hi. pose proof (rd_open _ _ _ _ _ Hr) as (starts' & Hi' & Hlen). unfold read_result. cbn.
  rewrite Hi in Hi'. apply app_inv_tail in Hi' as <-. destruct open as [st|]; cbn in Hi.
  - exists true, s. split; [done |]. intros _. rewrite Hi, length_app, Hlen. cbn. lia.
  - exists s, before, rest. rewrite !app_nil_r in *. done.
Qed.

(** Where the text of a line starts. *)
Lemma strip_place f start word : str_at f start word →
  str_at f (start + length (span is_blank word).1) (strip word) ∧
  (start + length (span is_blank word).1 + length (strip word) = start + length word)%nat.
Proof.
  intros Hs. unfold strip. pose proof (span_parts is_blank word) as (Ew & _).
  destruct (span is_blank word) as [blanks w]. cbn [fst snd] in *. subst word. rewrite length_app. split; [| lia].
  apply (str_at_drop _ _ _ (length blanks)) in Hs; [by rewrite drop_app_length in Hs | rewrite length_app; lia].
Qed.

(** The bookkeeping of one line. *)
Definition mark_line (ls : list nat) (s : list Z) : M tool bool :=
  if starts_with (text "interface ") s then
    starts ← gets interfaces;
    stops ← gets ends;
    _ ← guard_stop (bool_decide (100 ≤ length starts)%nat) (Fault 100);
    _ ← modify (add_interface (length ls));
    mret (negb (bool_decide (length stops + 1 < length starts + 1)%nat))
  else if bool_decide (s = text "end") then
    starts ← gets interfaces;
    stops ← gets ends;
    _ ← guard_stop (bool_decide (100 ≤ length stops)%nat) (Fault 100);
    _ ← modify (add_end (length ls));
    mret (bool_decide (length starts = length stops + 1)%nat)
  else mret true.

Lemma bind_cong {A B} (m : M tool A) (f g : A → M tool B) s :
  (∀ a s', f a s' = g a s') → (m ≫= f) s = (m ≫= g) s.
Proof. intros H. unfold mbind, M_bind. by destruct (m s). Qed.

Lemma read_lines_step fuel s : (length (lines s) < 1000)%nat →
  read_lines (S fuel) s =
  (line ← strtok;
   match line with
   | None => mret true
   | Some line =>
       t ← c_string line;
       let line := (line + length (span is_blank t).1)%nat in
       t ← c_string line;
       if negb (significant t) then read_lines fuel
       else go_on ← mark_line (lines s) t; if (go_on : bool) then _ ← modify (add_line line); read_lines fuel else mret false
   end) s.
Proof.
  intros Hl. cbn [read_lines]. rewrite gets_ok. rewrite guard_pass by lia.
  apply bind_cong. intros [line|] s'; [| done]. apply bind_cong. intros t s2. cbv zeta. apply bind_cong. intros t3 s3.
  unfold significant. by rewrite negb_involutive.
Qed.

(** The bookkeeping follows [blocks_from]: it goes on, with an interface opened or closed, or it
    stops the program. *)
Inductive marked (s : tool) (n : nat) (starts : list nat) (t : list Z) (todo : list (list Z)) :
    option nat → res tool bool → Prop :=
  | marked_start : starts_with (text "interface ") t = true →
      marked s n starts t todo None (Ok true (add_interface n s))
  | marked_end st : starts_with (text "interface ") t = false → t = text "end" →
      marked s n starts t todo (Some st) (Ok true (add_end n s))
  | marked_other open : starts_with (text "interface ") t = false → t ≠ text "end" →
      marked s n starts t todo open (Ok true s)
  | marked_wrong open s' : blocks_from (t :: todo) n open = None →
      marked s n starts t todo open (Ok false s').

Lemma mark_line_marked s ls t todo starts open :
  interfaces s = starts ++ option_list open → length starts = length (ends s) →
  (length (interfaces s) + count_interfaces (t :: todo) < 100)%nat →
  marked s (length ls) starts t todo open (mark_line ls t s).
Proof.
  intros Hi Hlen Hc. unfold mark_line. destruct (starts_with (text "interface ") t) eqn:Es.
  - rewrite !gets_ok. rewrite guard_pass by lia. rewrite Hi, length_app. unfold modify, mbind, M_bind, mret, M_ret.
    destruct open as [st|]; [change (length (option_list (Some st))) with 1%nat | change (length (option_list (@None nat))) with 0%nat].
    + rewrite bool_decide_eq_true_2 by lia. apply marked_wrong. cbn [blocks_from]. by rewrite Es.
    + rewrite bool_decide_eq_false_2 by lia. by apply marked_start.
  - case_bool_decide as He; [| by apply marked_other].
    rewrite !gets_ok. rewrite Hi, length_app in *. rewrite guard_pass by lia.
    unfold modify, mbind, M_bind, mret, M_ret.
    destruct open as [st|]; [change (length (option_list (Some st))) with 1%nat in * | change (length (option_list (@None nat))) with 0%nat in *].
    + rewrite bool_decide_eq_true_2 by lia. by apply marked_end.
    + rewrite bool_decide_eq_false_2 by lia. apply marked_wrong. cbn [blocks_from]. rewrite Es. by rewrite bool_decide_eq_true_2.
Qed.

Lemma read_result_same s s' ts todo starts open r : same_arrays s s' →
  read_result s' ts todo starts open r → read_result s ts todo starts open r.
Proof. unfold read_result. intros (_ & _ & -> & ->). done. Qed.

Lemma reading_interface s before rest ts n : reading s before rest ts None → reading (add_interface n s) before rest ts (Some n).
Proof.
  intros [Hu Hl Hlast Ho (starts & Hi & Hlen)]. split; try done. exists starts. cbn. rewrite Hi. cbn.
  by rewrite app_nil_r.
Qed.

Lemma reading_end s before rest ts n st : reading s before rest ts (Some st) → reading (add_end n s) before rest ts None.
Proof.
  intros [Hu Hl Hlast Ho (starts & Hi & Hlen)]. split; try done. exists (starts ++ [st]). cbn. rewrite Hi.
  rewrite app_nil_r, !length_app, Hlen. done.
Qed.

Lemma count_interfaces_cons t todo : (count_interfaces todo ≤ count_interfaces (t :: todo))%nat ∧
  (starts_with (text "interface ") t = true → (S (count_interfaces todo) = count_interfaces (t :: todo))%nat).
Proof. unfold count_interfaces. rewrite filter_cons. case_decide; cbn; split; [lia | done | done | done]. Qed.

Section step.
Context (s : tool) (ts : list (list Z)) (t : list Z) (todo : list (list Z)) (starts : list nat) (r : res tool bool).

Lemma read_result_start p : starts_with (text "interface ") t = true →
  read_result (add_line p (add_interface (length ts) s)) (ts ++ [t]) todo starts (Some (length ts)) r →
  read_result s ts (t :: todo) starts None r.
Proof.
  intros Ht. unfold read_result. cbn [blocks_from]. rewrite Ht, length_app, Nat.add_comm. cbn [length Nat.add].
  by rewrite <- app_assoc.
Qed.

Lemma read_result_stop p st : starts_with (text "interface ") t = false → t = text "end" →
  read_result (add_line p (add_end (length ts) s)) (ts ++ [t]) todo (starts ++ [st]) None r →
  read_result s ts (t :: todo) starts (Some st) r.
Proof.
  intros Ht He. unfold read_result. cbn [blocks_from]. rewrite Ht, bool_decide_eq_true_2 by done.
  rewrite length_app, Nat.add_comm. cbn [length Nat.add].
  destruct (blocks_from todo (S (length ts)) None) as [bs|]; [| done]. cbn [fmap option_fmap option_map].
  intros (s' & before' & rest' & -> & Hr & Hi & He' & Hp). exists s', before', rest'. rewrite <- app_assoc in Hr, Hi.
  cbn in He'. rewrite <- app_assoc in He'. done.
Qed.

Lemma read_result_other p open : starts_with (text "interface ") t = false → t ≠ text "end" →
  read_result (add_line p s) (ts ++ [t]) todo starts open r → read_result s ts (t :: todo) starts open r.
Proof.
  intros Ht He. unfold read_result. cbn [blocks_from]. rewrite Ht, bool_decide_eq_false_2 by done.
  rewrite length_app, Nat.add_comm. cbn [length Nat.add]. by rewrite <- app_assoc.
Qed.
End step.

Lemma reading_order_next s s' before rest rest' before' ts open start :
  reading s before rest ts open → same_arrays s s' → rest ≠ [] → (length before ≤ start)%nat →
  reading s' before' rest' ts open →
  ∀ p t, (p, t) ∈ zip (lines s') ts → (p + length t < start)%nat.
Proof.
  intros Hr (Hl & _) Hne Hle _ p t Hpt. rewrite Hl in Hpt. pose proof (rd_last _ _ _ _ _ Hr Hne) as Hlast.
  apply list_elem_of_lookup in Hpt as [i Hi]. apply lookup_zip_Some in Hi as [Hp Ht].
  pose proof (Forall2_lookup_lr _ _ _ _ _ _ Hlast Hp Ht) as H. cbn in H. lia.
Qed.

Lemma read_lines_runs fuel : ∀ s before rest ts starts open,
  reading s before rest ts open → interfaces s = starts ++ option_list open → (length rest < fuel)%nat →
  (length ts + length (source_lines rest) < 1000)%nat →
  (length (interfaces s) + count_interfaces (source_lines rest) < 100)%nat →
  read_result s ts (source_lines rest) starts open (read_lines fuel s).
Proof.
  induction fuel as [|fuel IH]; [lia |]. intros s before rest ts starts open Hr Hi Hfuel Hlines Hcount.
  pose proof (Forall2_length _ _ _ (rd_lines _ _ _ _ _ Hr)) as Hlen. rewrite read_lines_step by lia.
  destruct (strtok_reading _ _ _ _ _ Hr) as [[E Es] | (start & word & before' & rest' & s' & E & Hsame & Hr' & Esrc & Hw & H1 & H2 & H3 & Hne & Hshort)].
  { unfold mbind, M_bind. rewrite E, Es. by eapply read_result_end. }
  unfold mbind at 1, M_bind at 1. rewrite E. destruct (strip_place _ _ _ Hw) as [Hp Hplen].
  rewrite (run_reads (file s') _ _ word) by (by try apply reads_string). cbv zeta.
  rewrite (run_reads (file s') _ _ (strip word)) by (by try apply reads_string).
  apply (read_result_same s s'); [done |]. destruct Hsame as (El & Ei & Ee & Ep).
  rewrite Esrc in Hlines, Hcount |- *. unfold kept in *. destruct (significant (strip word)) eqn:Hsig; cbn [negb app] in *.
  2: { apply (IH s' before' rest'); [done | by rewrite Ei | lia | done | by rewrite Ei]. }
  set (t := strip word) in *. set (p := (start + length (span is_blank word).1)%nat) in *.
  destruct (rd_open _ _ _ _ _ Hr') as (starts' & Hi' & Hs'). rewrite Ei, Hi in Hi'. apply app_inv_tail in Hi' as <-.
  pose proof (mark_line_marked s' (lines s) t (source_lines rest') starts open) as Hm.
  rewrite Ei in Hm. specialize (Hm Hi Hs' Hcount). destruct (count_interfaces_cons t (source_lines rest')) as [Hc1 Hc2].
  assert (Hnext : ∀ q t, (q, t) ∈ zip (lines s') ts → (q + length t < p)%nat).
  { intros q t' Hq. apply (reading_order_next s s' before rest rest' before' ts open start) in Hq; [unfold p; lia | done..]. }
  assert (Hadd : ∀ s2 open2, file s2 = file s' → lines s2 = lines s' → reading s2 before' rest' ts open2 →
    reading (add_line p s2) before' rest' (ts ++ [t]) open2).
  { intros s2 open2 Hf Hl2 Hr2. apply reading_add; [done | by rewrite Hf | by rewrite Hl2 | unfold p in *; lia |].
    intros Hne'. specialize (H3 Hne'). unfold p in *. lia. }
  rewrite Hlen in Hm. unfold mbind at 1, M_bind at 1. cbn [length] in Hlines.
  assert (Hlen2 : (length (ts ++ [t]) + length (source_lines rest') < 1000)%nat) by (rewrite length_app; cbn; lia).
  assert (Hfuel2 : (length rest' < fuel)%nat) by lia.
  inversion Hm as [Hs Ho Hres | st Hs He Ho Hres | open' Hs He Ho Hres | open' s2 Hb Ho Hres]; subst open.
  - apply (read_result_start _ _ _ _ _ _ p Hs). apply (IH _ before' rest'); [| | done | done |].
    + by apply Hadd, reading_interface.
    + cbn. rewrite Ei, Hi. cbn. by rewrite app_nil_r.
    + cbn. rewrite Ei, length_app. specialize (Hc2 Hs). cbn. lia.
  - apply (read_result_stop _ _ _ _ _ _ p st Hs He). apply (IH _ before' rest'); [| | done | done |].
    + by eapply Hadd, reading_end.
    + cbn. rewrite Ei, Hi. cbn. by rewrite app_nil_r.
    + cbn. rewrite Ei. lia.
  - apply (read_result_other _ _ _ _ _ _ p open' Hs He). apply (IH _ before' rest'); [| | done | done |].
    + by apply Hadd.
    + cbn. by rewrite Ei.
    + cbn. rewrite Ei. lia.
  - unfold read_result. rewrite Hb. by exists false, s2.
Qed.

(** ** The program *)

(** The interface that the lines from [b.1] to [b.2] describe. *)
Definition described (ts : list (list Z)) (b : nat * nat) (i : interface) : Prop :=
  ts !! b.1 = Some (text "interface " ++ i.1) ∧
  Forall2 (good_routine (interface_crc i.1)) (take (b.2 - S b.1) (drop (S b.1) ts)) i.2.

Lemma blocks_bounds ls i open bs : blocks_from ls i open = Some bs → Forall (λ b, (b.2 < i + length ls)%nat) bs.
Proof.
  revert i open bs. induction ls as [|l ls IH]; intros i open bs H; cbn [blocks_from] in H.
  { destruct open; [done |]. by injection H as <-. }
  assert (Hi : ∀ open bs, blocks_from ls (S i) open = Some bs → Forall (λ b, (b.2 < i + length (l :: ls))%nat) bs).
  { intros o b Hb. eapply Forall_impl; [by eapply IH |]. cbn. lia. }
  destruct (starts_with _ _); [destruct open; [done | by eapply Hi] |].
  case_bool_decide; [| by eapply Hi]. destruct open as [st|]; [| done].
  destruct (blocks_from ls (S i) None) as [bs'|] eqn:E; [| done]. injection H as <-. constructor; [cbn; lia | by eapply Hi].
Qed.

Definition known_of (s : tool) : known := Known (file s) (lines s) (interfaces s) (ends s).

Lemma described_at s before rest ts b i : reading s before rest ts None → described ts b i → (b.2 < length ts)%nat →
  interface_at (known_of s) b.1 b.2 i.
Proof.
  intros Hr [Hb Hrs] Hbound. pose proof (rd_lines _ _ _ _ _ Hr) as Hl.
  assert (Hat : ∀ j t, ts !! j = Some t → ∃ p, lines s !! j = Some p ∧ str_at (file s) p t).
  { intros j t Hj. destruct (Forall2_lookup_r _ _ _ _ _ Hl Hj) as (p & ? & ? & _). by exists p. }
  destruct (Hat _ _ Hb) as (ip & Hip & Hs). exists ip, (take (b.2 - S b.1) (drop (S b.1) ts)).
  split; [done |]. split; [done |]. split; [rewrite length_take, length_drop; lia |]. split; [| done].
  intros j t Hj. apply lookup_take_Some in Hj as [Hj _]. rewrite lookup_drop in Hj.
  destruct (Hat _ _ Hj) as (p & Hp & Hpt). exists p. split; [done |]. split; [done |].
  pose proof (rd_order _ _ _ _ _ Hr b.1 (S b.1 + j) ip p _ ltac:(lia) Hip Hb Hp) as Ho.
  rewrite length_app in Ho. change (length (text "interface ")) with 10%nat in Ho. lia.
Qed.

Section main.
Context (content : list Z) (Hcontent : Forall (λ c, c ≠ 0) content).
Context (Hlines : (length (source_lines content) < 1000)%nat) (Hcount : (count_interfaces (source_lines content) < 100)%nat).

Definition started : tool := Tool (content ++ [0]) [] [] [] 0 [].

Lemma read_whole : read_result started [] (source_lines content) [] None (read_lines (S (length content)) started).
Proof.
  apply (read_lines_runs _ started [] content); [| done | lia | done | done].
  split; [done | constructor | constructor | by intros ? [] | by exists []].
Qed.

(** Both generators go through the interfaces in order. *)
Lemma generator_prints s before rest bs ifs export g :
  reading s before rest (source_lines content) None → interfaces s = bs.*1 → ends s = bs.*2 →
  Forall2 (described (source_lines content)) bs ifs → Forall (λ b, (b.2 < length (source_lines content))%nat) bs →
  (∀ start stop i, interface_at (known_of s) start stop i → prints_on (known_of s) (export start stop) (g i)) →
  (starts ← gets interfaces; each_interface (length starts) 0 export) s = Ok () (set_printed (printed s ++ concat_map g ifs) s).
Proof.
  intros Hr Hi He Hd Hb Hg. rewrite gets_ok, Hi, length_fmap, (Forall2_length _ _ _ Hd).
  apply (prints_each_interface (known_of s) export g 0 ifs Hg); [| done].
  intros j x Hj. destruct (Forall2_lookup_r _ _ _ _ _ Hd Hj) as (b & Hbj & Hdx). exists b.1, b.2. cbn.
  rewrite Hi, He, !list_lookup_fmap, Hbj. split; [done |]. split; [done |].
  eapply described_at; [done | done |]. by apply (Forall_lookup_1 _ _ _ _ Hb Hbj).
Qed.

(** C25: [main] for a file without NULs, below the sizes of the program's arrays, whose lines
    [interface ...] and [end] alternate and whose other lines are routines (a name, then
    perhaps [IN] and parameters, then perhaps [OUT] and results, each a name and a type): called
    as [client] it prints exactly the client's text of each interface, called as [server] exactly the
    provider's text, in the order of the file.  So although the two are made in separate runs, by generators
    that cut the lines in place, the number a client passes for a routine is the number in the
    [case] of the provider, and both have the same parameters in the same order. *)
Theorem compiler_output bs ifs :
  interface_blocks (source_lines content) = Some bs → Forall2 (described (source_lines content)) bs ifs →
  output client content = Some (concat_map client_interface ifs) ∧
  output server content = Some (concat_map server_interface ifs).
Proof.
  intros Hbs Hd. pose proof read_whole as Hr. unfold read_result in Hr. cbn [length] in Hr. unfold interface_blocks in Hbs.
  rewrite Hbs in Hr. destruct Hr as (s & before & rest & E & Hr & Hi & He & Hp). cbn in Hi, He, Hp, Hr.
  pose proof (blocks_bounds _ _ _ _ Hbs) as Hb. cbn in Hb.
  assert (Hstart : ∀ m : M tool Z, (_ ← modify (set_file (content ++ [0])); _ ← modify (set_strtok_next 0); m) initial_tool = m started) by done.
  split; unfold output, main; rewrite Hstart; unfold mbind at 1, M_bind at 1; rewrite E; cbn [negb];
    rewrite !gets_ok, Hi, He, !length_fmap, bool_decide_eq_false_2 by (intros H; by apply H);
    unfold mbind at 1, M_bind at 1;
    [unfold export_client_code; erewrite generator_prints by (done || apply client_interface_prints)
    |unfold export_server_code; erewrite generator_prints by (done || apply server_interface_prints)];
    cbn; by rewrite Hp.
Qed.

(** C37: when [interface] and [end] do not alternate, [main] returns 1. *)
Theorem bad_description_rejected argv0 :
  interface_blocks (source_lines content) = None →
  ∃ s, main argv0 content initial_tool = Ok 1 s.
Proof.
  intros Hbs. destruct argv0; [| | by eexists];
    pose proof read_whole as Hr; unfold read_result in Hr; cbn [length] in Hr; unfold interface_blocks in Hbs;
    rewrite Hbs in Hr; destruct Hr as (b & s & E & Hb);
    assert (Hstart : ∀ m : M tool Z, (_ ← modify (set_file (content ++ [0])); _ ← modify (set_strtok_next 0); m) initial_tool = m started) by done;
    exists s; unfold main; rewrite Hstart; unfold mbind at 1, M_bind at 1; rewrite E; (destruct b; [| done]);
    cbn [negb]; rewrite !gets_ok, bool_decide_eq_true_2 by (by apply Hb); done.
Qed.
End main.

(** ** The descriptions of the repository *)

(** [src/interfaces], a file each. *)
Definition BLOCK_DEVICE_file : list Z := text "interface BLOCK_DEVICE
read_4k_pages IN dest: PHYSICAL_MEMORY_BLOCK, first_block: NUMBER
end
".
Definition BLOCK_STORAGE_file : list Z := text "
interface BLOCK_STORAGE
block_size OUT size: NUMBER
read_block IN index: NUMBER, destination: WRITABLE_PHYSICAL_MEMORY
end
".
Definition DATA_SINK_file : list Z := text "
interface DATA_SINK
end
".
Definition DATA_SOURCE_file : list Z := text "interface DATA_SOURCE
end
".
Definition DMA_file : list Z := text "interface DMA

end

interface DMA_SOURCE
end

interface DMA_SINK
end
".
Definition DMA_LOCKED_MEMORY_file : list Z := text "
interface DMA_LOCKED_MEMORY
copy_to_memory IN destination: DMA_LOCKED_MEMORY
end
".
Definition DMA_SINK_file : list Z := text "
interface DMA_SINK
width OUT bits: NUMBER
read_from IN source: DMA_LOCKED_MEMORY
end
".
Definition DMA_SOURCE_file : list Z := text "
interface DMA_SOURCE
width OUT bits: NUMBER
send_to IN destination: DMA_LOCKED_MEMORY
end
".
Definition DRIVER_SYSTEM_file : list Z := text "
interface DRIVER_SYSTEM
  get_device_page IN physical_address: NUMBER OUT block: PHYSICAL_MEMORY_BLOCK
  get_physical_memory_block IN start: NUMBER, size: NUMBER OUT block: PHYSICAL_MEMORY_BLOCK

  # block must not overlap any existing virtual memory
  map_at IN block: PHYSICAL_MEMORY_BLOCK, start: NUMBER
  unmap IN start: NUMBER OUT block: PHYSICAL_MEMORY_BLOCK

  physical_address_of IN va: NUMBER OUT pa: NUMBER

  get_core_interrupts_count OUT count: NUMBER
  get_ms_timer_ticks OUT ticks: NUMBER
  get_core_timer_value OUT value: NUMBER

  register_interrupt_handler IN handler: INTERRUPT_HANDLER, interrupt: NUMBER
  remove_interrupt_handler IN handler: INTERRUPT_HANDLER, interrupt: NUMBER

  # Make a partner thread for virtual machine use.
  # Once made, use get/set_vm_system_register, get_partner_register, switch_to_partner
  make_partner_thread

  # Can only be called once, must be called before anything tries to allocate memory
  set_memory_top IN top: NUMBER
end
".
Definition FRAME_BUFFER_file : list Z := text "interface FRAME_BUFFER
get_frame_buffer OUT physical_memory: PHYSICAL_MEMORY_BLOCK
end
".
Definition GPU_MAILBOX_file : list Z := text "
interface GPU_MAILBOX_MANAGER
  claim_channel IN channel: NUMBER OUT mailbox: GPU_MAILBOX
end

# Register a client, and send messages using queue_message from multiple threads.
# This allows for multiple simultaneous requests on the same channel (it's up to the
# caller to sort the responses out).
interface GPU_MAILBOX
  # Sends a message, the response will be passed to the registered client
  # May block while waiting to send the message, but doesn't wait for a response.
  queue_message IN message: NUMBER

  # Registers a client to be notified when there's a message available
  register_client IN client: GPU_MAILBOX_CLIENT
end

interface GPU_MAILBOX_CLIENT
  incoming_message IN message: NUMBER
end
".
Definition INTERRUPT_HANDLER_file : list Z := text "
interface INTERRUPT_HANDLER
interrupt
end
".
Definition PHYSICAL_MEMORY_BLOCK_file : list Z := text "
interface PHYSICAL_MEMORY_BLOCK
physical_address OUT pa: NUMBER
size OUT size: NUMBER
is_read_only OUT read_only: NUMBER
read_only_copy OUT copy: PHYSICAL_MEMORY_BLOCK
subblock IN offset: NUMBER, size: NUMBER OUT subblock: PHYSICAL_MEMORY_BLOCK
end
".
Definition SYSTEM_file : list Z := text "
interface SYSTEM
create_thread IN code: NUMBER, stack_top: NUMBER OUT id: NUMBER
get_service IN name_crc: NUMBER, type_crc: NUMBER, timeout: NUMBER OUT service: NUMBER
register_service IN name_crc: NUMBER, service: NUMBER, type_crc: NUMBER
allocate_memory IN size: NUMBER OUT block: PHYSICAL_MEMORY_BLOCK
end
".
Definition TRIVIAL_NUMERIC_DISPLAY_file : list Z := text "
interface TRIVIAL_NUMERIC_DISPLAY
show_4bits IN x: NUMBER, y: NUMBER, n: NUMBER, colour: NUMBER
show_8bits IN x: NUMBER, y: NUMBER, n: NUMBER, colour: NUMBER
show_32bits IN x: NUMBER, y: NUMBER, n: NUMBER, colour: NUMBER
show_64bits IN x: NUMBER, y: NUMBER, n: NUMBER, colour: NUMBER
set_page_to_show IN page: PHYSICAL_MEMORY_BLOCK, start: NUMBER
show_page
end
".
Definition VIRTUAL_MACHINE_file : list Z := text "
interface VIRTUAL_MACHINE_MANAGER
  create_vm OUT machine: VIRTUAL_MACHINE
end

interface VIRTUAL_MACHINE
  set_vttbr_el2 IN vttbr: NUMBER 
  set_hcr_el2 IN hcr: NUMBER 
  set_hstr_el2 IN hstr: NUMBER 
  set_vmpidr_el2 IN vmpidr: NUMBER 
  set_vpidr_el2 IN vpidr: NUMBER 
  set_vtcr_el2 IN vtcr: NUMBER 
end

".
Definition WRITABLE_PHYSICAL_MEMORY_file : list Z := text "
interface WRITABLE_PHYSICAL_MEMORY
end
".
Definition descriptions : list (list Z) :=
  [BLOCK_DEVICE_file; BLOCK_STORAGE_file; DATA_SINK_file; DATA_SOURCE_file; DMA_file; DMA_LOCKED_MEMORY_file; DMA_SINK_file; DMA_SOURCE_file; DRIVER_SYSTEM_file; FRAME_BUFFER_file; GPU_MAILBOX_file; INTERRUPT_HANDLER_file; PHYSICAL_MEMORY_BLOCK_file; SYSTEM_file; TRIVIAL_NUMERIC_DISPLAY_file; VIRTUAL_MACHINE_file; WRITABLE_PHYSICAL_MEMORY_file].

(** The names and call numbers of the routines of a file. *)
Definition calls (content : list Z) : list (list Z * Z) :=
  let ts := source_lines content in
  match interface_blocks ts with
  | None => []
  | Some bs =>
      concat ((λ b, let name := drop 10 (default [] (ts !! b.1)) in
               (λ line, (name ++ text "__" ++ (split_text line).1.1, crc32 line (interface_crc name))) <$>
                 take (b.2 - S b.1) (drop (S b.1) ts)) <$> bs)
  end.
Definition call_number (routine : list Z) : option Z :=
  snd <$> head (filter (λ c, c.1 = routine) (concat (calls <$> descriptions))).

(** C26: every description in the repository is accepted for client and provider; the call numbers of
    all their routines are pairwise different, so that an object can provide any interfaces together; and
    the number for which the kernel short-cuts [DRIVER_SYSTEM__physical_address_of] in [svc_call]
    ([DRIVER_SYSTEM_physical_address_of], a literal in [include/system_services.h]) is the one that
    the compiler gives that routine. *)
Theorem call_numbers_identify_routines :
  Forall (λ c, is_Some (output client c) ∧ is_Some (output server c)) descriptions ∧
  NoDup (snd <$> concat (calls <$> descriptions)) ∧
  call_number (text "DRIVER_SYSTEM__physical_address_of") = Some DRIVER_SYSTEM_physical_address_of.
Proof.
  split; [| split].
  - repeat (apply Forall_cons; split; [split; apply (bool_decide_unpack _); by vm_compute |]). by apply Forall_nil.
  - apply (bool_decide_unpack _). by vm_compute.
  - by vm_compute.
Qed.

(** The description of [BLOCK_DEVICE] has one routine with two parameters. *)
Definition read_4k_pages : routine :=
  Routine (text "read_4k_pages") 0x577a97fd
    [(text "dest", text "PHYSICAL_MEMORY_BLOCK"); (text "first_block", text "NUMBER")] [].

Lemma compiler_output_witness :
  interface_blocks (source_lines BLOCK_DEVICE_file) = Some [(0, 2)]%nat ∧
  output client BLOCK_DEVICE_file = Some (concat_map client_interface [(text "BLOCK_DEVICE", [read_4k_pages])]) ∧
  output server BLOCK_DEVICE_file = Some (concat_map server_interface [(text "BLOCK_DEVICE", [read_4k_pages])]).
Proof.
  split; [by vm_compute |].
  apply (compiler_output BLOCK_DEVICE_file) with (bs := [(0, 2)]%nat) (ifs := [(text "BLOCK_DEVICE", [read_4k_pages])]).
  - apply (bool_decide_unpack _). by vm_compute.
  - apply (bool_decide_unpack _). by vm_compute.
  - apply (bool_decide_unpack _). by vm_compute.
  - by vm_compute.
  - apply Forall2_cons. split; [| by apply Forall2_nil]. split; [by vm_compute |].
    change (Forall2 (good_routine (interface_crc (text "BLOCK_DEVICE")))
      [text "read_4k_pages IN dest: PHYSICAL_MEMORY_BLOCK, first_block: NUMBER"] [read_4k_pages]).
    apply Forall2_cons. split; [| by apply Forall2_nil]. split; [by vm_compute |]. split; [by vm_compute |].
    split; [| by vm_compute].
    change (list_declares (Some (text "dest: PHYSICAL_MEMORY_BLOCK, first_block: NUMBER")) (r_in read_4k_pages)).
    split; [by vm_compute |]. split; [done |].
    change (Forall2 declares [text "dest: PHYSICAL_MEMORY_BLOCK, first_block: NUMBER"; text " first_block: NUMBER"]
      (r_in read_4k_pages)).
    repeat (apply Forall2_cons; split; [split; [by vm_compute | split; apply (bool_decide_unpack _); by vm_compute] |]).
    by apply Forall2_nil.
Defined.

Lemma bad_description_rejected_witness :
  ∃ s, main client (text "interface A
interface B
end
") initial_tool = Ok 1 s.
Proof.
  apply bad_description_rejected; apply (bool_decide_unpack _); by vm_compute.
Defined.
