(* ===== verification/Display.v ===== *)
(** * The page display driver

    [drivers/show_page.c]: draws hexadecimal numbers on the frame buffer and provides the
    interface TRIVIAL_NUMERIC_DISPLAY.

    Memory is a map from addresses to 32-bit words that has exactly the words that are
    mapped: an access of any other is a [Fault].  The methods end with [ReturnNothing].  What the
    driver asks of the system driver is the class [DisplayWorld]; there, mapping a
    block makes its words appear.  Coordinates are given to [show_nibble] as [uint32_t] and to
    [show_word] as [int]. *)

From S2P Require Import Prelude Crc GpuDevices.

Definition width : Z := 1920.
Definition vwidth : Z := width.
Definition mapped_address : Z := 0x200000.

Definition Black : Z := 0xff000000.
Definition Green : Z := 0xff00ff00.
Definition White : Z := 0xffffffff.

(** The rows of each digit from the top; the leftmost pixel is the highest bit. *)
Definition bitmaps : list (list Z) :=
  [[0x3c; 0x66; 0x66; 0x66; 0x66; 0x66; 0x3c; 0x00];
   [0x1c; 0x3c; 0x0c; 0x0c; 0x0c; 0x0c; 0x1e; 0x00];
   [0x3c; 0x66; 0x0c; 0x18; 0x30; 0x7e; 0x7e; 0x00];
   [0x3c; 0x66; 0x06; 0x1e; 0x06; 0x66; 0x3c; 0x00];
   [0x18; 0x30; 0x60; 0x6c; 0x7e; 0x0c; 0x0c; 0x00];
   [0x7e; 0x60; 0x60; 0x7c; 0x06; 0x66; 0x3c; 0x00];
   [0x3c; 0x66; 0x60; 0x7c; 0x66; 0x66; 0x3c; 0x00];
   [0x7e; 0x06; 0x0c; 0x18; 0x30; 0x60; 0x60; 0x00];
   [0x3c; 0x66; 0x66; 0x3c; 0x66; 0x66; 0x3c; 0x00];
   [0x3c; 0x66; 0x66; 0x3e; 0x06; 0x66; 0x38; 0x00];
   [0x3c; 0x66; 0x66; 0x66; 0x7e; 0x66; 0x66; 0x00];
   [0x78; 0x66; 0x66; 0x7c; 0x66; 0x66; 0x78; 0x00];
   [0x3c; 0x66; 0x60; 0x60; 0x60; 0x66; 0x3c; 0x00];
   [0x78; 0x6c; 0x66; 0x66; 0x66; 0x6c; 0x78; 0x00];
   [0x7e; 0x60; 0x60; 0x78; 0x60; 0x60; 0x7e; 0x00];
   [0x7e; 0x60; 0x60; 0x78; 0x60; 0x60; 0x60; 0x00]].

(** ** State *)
Record display : Type := Display {
  memory : gmap Z Z;
  page_to_display : Z;
  page_start : Z;
}.
Definition initial_display : display := Display ∅ 0 0.
Definition set_memory (v : gmap Z Z) (d : display) : display := Display v (page_to_display d) (page_start d).
Definition set_page_to_display (v : Z) (d : display) : display := Display (memory d) v (page_start d).
Definition set_page_start (v : Z) (d : display) : display := Display (memory d) (page_to_display d) v.

Class DisplayWorld (E : Type) : Type := {
  get_service : M E Z;                                     (* FRAME_BUFFER, "Frame Buffer" *)
  get_frame_buffer : Z → M E Z;
  block_physical_address : Z → M E Z;
  driver_map_at : Z → Z → gmap Z Z → M E (gmap Z Z);       (* block, start; the words of the map *)
  driver_unmap : Z → gmap Z Z → M E (Z * gmap Z Z);
  register_service : M E unit;                             (* "Trivial Numeric Display" *)
}.

Section display.
Context {E : Type} `{!DisplayWorld E} (devices : Z).

#[local] Abbreviation D := (M (sys display E)).

Definition store (a v : Z) : D unit :=
  m ← get_var memory;
  match m !! a with
  | Some _ => upd_var (set_memory (<[a := u32 v]> m))
  | None => halt (Fault a)
  end.
Definition load (a : Z) : D Z :=
  m ← get_var memory;
  match m !! a with Some v => mret v | None => halt (Fault a) end.

(** ** Drawing *)

(** The address of the word at index [x + y * vwidth] of the screen. *)
Definition pixel (x y : Z) : Z := mapped_address + 4 * u32 (x + y * vwidth).

Definition set_pixel (x y colour : Z) : D unit := store (pixel x y) colour.

(** The eight rows as one little-endian load. *)
Definition bitmap_of (nibble : Z) : Z := Crc.little_endian (default [] (bitmaps !! Z.to_nat (Z.land nibble 0xf))).

(** [while (bit != 0) { ... }]; [bit] is shifted out after 64 rounds. *)
Fixpoint nibble_loop (fuel : nat) (p bit bitmap colour : Z) : D unit :=
  if bool_decide (bit = 0) then mret ()
  else
    match fuel with
    | O => halt (Spin 185)
    | S fuel =>
        _ ← store p (if bool_decide (Z.land bit bitmap ≠ 0) then colour else Black);
        let p := p - 4 in
        let bit := u64 (Z.shiftl bit 1) in
        let p := if bool_decide (Z.land bit 0x0101010101010101 ≠ 0) then p + 4 * (vwidth + 8) else p in
        nibble_loop fuel p bit bitmap colour
    end.
Definition show_nibble (x y nibble colour : Z) : D unit :=
  nibble_loop 64 (pixel (x + 7) y) 1 (bitmap_of nibble) colour.

(** [for (int shift = 28; shift >= 0; shift -= 4)], from the digit [n - 1] down. *)
Fixpoint show_digits (n : nat) (x y number colour : Z) : D unit :=
  match n with
  | O => mret ()
  | S n =>
      _ ← show_nibble (u32 x) (u32 y) (Z.land (Z.shiftr number (4 * Z.of_nat n)) 0xf) colour;
      show_digits n (x + 8) y number colour
  end.
Definition show_word (x y number colour : Z) : D unit := show_digits 8 x y number colour.

Definition show_qword (x y number colour : Z) : D unit :=
  _ ← show_word x y (u32 (Z.shiftr number 32)) colour;
  show_word (x + 66) y (Z.land number 0xffffffff) colour.

(** The body of the inner loop of [show_page], and the loops *)
Definition show_cell (number y x : Z) : D unit :=
  v ← load (number + 4 * (x + y * 16));
  show_word (x * 68 + 72) (y * 8 + 64) v
    (if bool_decide (Z.land y 7 = 0) || bool_decide (Z.land x 7 = 0) then Green else White).
Definition show_row (number label y : Z) : D unit :=
  _ ← show_word 0 (y * 8 + 64) (u32 (label + y * 64)) White;
  for_range 16 0 (show_cell number y).
Definition show_page (number label : Z) : D unit := for_range 64 0 (show_row number label).

(** ** The methods *)
Definition TND__TRIVIAL_NUMERIC_DISPLAY__show_4bits (x y value colour : Z) : D reply :=
  _ ← show_nibble (u32 x) (u32 y) (Z.land value 0xf) (u32 colour);
  mret ReturnNothing.
Definition TND__TRIVIAL_NUMERIC_DISPLAY__show_8bits (x y value colour : Z) : D reply :=
  _ ← show_nibble (u32 (x + 8)) (u32 y) (Z.land value 0xf) (u32 colour);
  _ ← show_nibble (u32 x) (u32 y) (Z.land (Z.shiftr value 4) 0xf) (u32 colour);
  mret ReturnNothing.
Definition TND__TRIVIAL_NUMERIC_DISPLAY__show_32bits (x y value colour : Z) : D reply :=
  _ ← show_word (s32 x) (s32 y) (u32 value) (u32 colour);
  mret ReturnNothing.
Definition TND__TRIVIAL_NUMERIC_DISPLAY__show_64bits (x y value colour : Z) : D reply :=
  _ ← show_qword (s32 x) (s32 y) value (u32 colour);
  mret ReturnNothing.

Definition TND__TRIVIAL_NUMERIC_DISPLAY__set_page_to_show (page start : Z) : D reply :=
  old ← get_var page_to_display;
  _ ← when (bool_decide (old ≠ 0))
        (m ← get_var memory;
         r ← ask (driver_unmap devices m);
         upd_var (set_memory r.2));
  m ← get_var memory;
  m ← ask (driver_map_at page devices m);
  _ ← upd_var (set_memory m);
  _ ← upd_var (set_page_to_display page);
  _ ← upd_var (set_page_start (u32 start));
  mret ReturnNothing.

Definition TND__TRIVIAL_NUMERIC_DISPLAY__show_page : D reply :=
  start ← get_var page_start;
  _ ← show_page devices start;
  mret ReturnNothing.

Definition entry : D unit :=
  fb ← ask get_service;
  screen_page ← ask (get_frame_buffer fb);
  m ← get_var memory;
  m ← ask (driver_map_at screen_page mapped_address m);
  _ ← upd_var (set_memory m);
  pa ← ask (block_physical_address screen_page);
  _ ← show_word 900 500 (u32 pa) 0xffffffff;
  ask register_service.
End display.
