(* ===== verification/DisplayFacts.v ===== *)
(** * What the page display driver draws

    Drawings as partial pictures of the screen, the picture of a digit, a word and a page, and
    that [show_page] of [Display] draws it. *)

From S2P Require Import Prelude Crc GpuDevices Display.


(** ** Pictures

    The part of memory that is the screen as a picture: [place a] are the coordinates of the
    word at [a], and a drawing says for each point which colour it puts there, if any. *)
Definition place (a : Z) : option (Z * Z) :=
  let i := (a - mapped_address) / 4 in
  if bool_decide ((a - mapped_address) mod 4 = 0 ∧ 0 ≤ i < 2 ^ 32) then Some (i mod vwidth, i / vwidth) else None.

Definition drawing : Type := Z → Z → option Z.
Definition drawn (m m' : gmap Z Z) (f : drawing) : Prop :=
  ∀ a, m' !! a = match place a with
                 | Some (px, py) => match f px py with Some v => Some v | None => m !! a end
                 | None => m !! a
                 end.

(** [x] and [y] are coordinates. *)
Definition on_screen (x y : Z) : Prop := 0 ≤ x < vwidth ∧ 0 ≤ y < 0x200000.

Lemma place_pixel x y : on_screen x y → place (pixel x y) = Some (x, y).
Proof.
  intros [Hx Hy]. unfold place, pixel, vwidth, width, mapped_address, u32 in *. rewrite (Z.mod_small (x + y * 1920)) by lia.
  replace (0x200000 + 4 * (x + y * 1920) - 0x200000) with ((x + y * 1920) * 4) by lia.
  rewrite Z.mod_mul, Z.div_mul by lia. rewrite bool_decide_eq_true_2 by lia.
  rewrite Z.mod_add, Z.div_add by lia. rewrite Z.mod_small, Z.div_small by lia. done.
Qed.

Lemma place_inv a x y : place a = Some (x, y) → pixel x y = a ∧ 0 ≤ x < vwidth ∧ 0 ≤ y.
Proof.
  unfold place, pixel, vwidth, width. case_bool_decide as H; [| done]. intros [= <- <-]. destruct H as [H0 H1].
  pose proof (Z.div_mod (a - mapped_address) 4). pose proof (Z.div_mod ((a - mapped_address) / 4) 1920).
  pose proof (Z.mod_pos_bound ((a - mapped_address) / 4) 1920).
  replace ((a - mapped_address) / 4 mod 1920 + (a - mapped_address) / 4 / 1920 * 1920) with ((a - mapped_address) / 4) by lia.
  rewrite u32_id by done. split_and!; [lia | lia | lia |]. apply Z.div_pos; lia.
Qed.

Lemma drawn_nothing m : drawn m m (λ _ _, None).
Proof. intros a. by destruct (place a) as [[? ?]|]. Qed.

Lemma drawn_then m m1 m2 f g h : drawn m m1 f → drawn m1 m2 g →
  (∀ x y, h x y = match g x y with Some v => Some v | None => f x y end) → drawn m m2 h.
Proof.
  intros H1 H2 Hh a. rewrite (H2 a), (H1 a). destruct (place a) as [[x y]|]; [| done]. rewrite Hh.
  by destruct (g x y).
Qed.

Lemma drawn_ext m m' f g : drawn m m' f → (∀ x y, f x y = g x y) → drawn m m' g.
Proof. intros H Hfg a. rewrite (H a). destruct (place a) as [[x y]|]; [by rewrite Hfg | done]. Qed.

Lemma drawn_pixel m x y v : on_screen x y →
  drawn m (<[pixel x y := v]> m) (λ px py, if bool_decide (px = x ∧ py = y) then Some v else None).
Proof.
  intros Hxy a. destruct (decide (a = pixel x y)) as [->|Ha].
  - rewrite place_pixel, bool_decide_eq_true_2 by done. apply lookup_insert_eq.
  - rewrite lookup_insert_ne by done. destruct (place a) as [[px py]|] eqn:E; [| done].
    apply place_inv in E as (<- & _). rewrite bool_decide_eq_false_2; [done |]. by intros [-> ->].
Qed.

(** Where a point is mapped it stays mapped. *)
Lemma drawn_mapped m m' f a : drawn m m' f → is_Some (m !! a) → is_Some (m' !! a).
Proof. intros H Ha. rewrite (H a). destruct (place a) as [[x y]|]; [| done]. by destruct (f x y). Qed.

(** ** Digits *)
Section digits.
Context {E : Type} `{!DisplayWorld E}.
Implicit Types (s : sys display E).

(** [m] draws [f], whenever the points of [f] are mapped; it changes memory only. *)
Definition draws (m : M (sys display E) unit) (f : drawing) : Prop :=
  ∀ s, (∀ x y, is_Some (f x y) → is_Some (memory (vars s) !! pixel x y)) →
    ∃ mem, m s = Ok () (Sys (set_memory mem (vars s)) (world s)) ∧ drawn (memory (vars s)) mem f.

Lemma draws_ext m f g : draws m f → (∀ x y, f x y = g x y) → draws m g.
Proof.
  intros H Hfg s Hm. destruct (H s) as (mem & E1 & Hd); [intros x y; rewrite Hfg; apply Hm |].
  exists mem. split; [done |]. by eapply drawn_ext.
Qed.

Lemma draws_nothing : draws (mret ()) (λ _ _, None).
Proof.
  intros s _. exists (memory (vars s)). split; [| apply drawn_nothing]. destruct s as [[] ?]. done.
Qed.

(** The later drawing covers the earlier one. *)
Lemma draws_bind m n f g h : draws m f → draws (n ()) g →
  (∀ x y, h x y = match g x y with Some v => Some v | None => f x y end) → draws (m ≫= n) h.
Proof.
  intros Hm Hn Hh s Hs. destruct (Hm s) as (m1 & E1 & D1).
  { intros x y Hf. apply Hs. rewrite Hh. by destruct (g x y). }
  destruct (Hn (Sys (set_memory m1 (vars s)) (world s))) as (m2 & E2 & D2).
  { intros x y Hg. cbn. eapply drawn_mapped; [exact D1 |]. apply Hs. rewrite Hh. by destruct (g x y). }
  exists m2. unfold mbind, M_bind. rewrite E1. split; [exact E2 |]. by eapply drawn_then.
Qed.

Definition point (x y v : Z) : drawing := λ px py, if bool_decide (px = x ∧ py = y) then Some v else None.

Lemma store_draws x y v : on_screen x y → is_u32 v → draws (store (pixel x y) v) (point x y v).
Proof.
  intros Hxy Hv s Hs. destruct (Hs x y) as [old Hold]; [unfold point; by rewrite bool_decide_eq_true_2 |].
  exists (<[pixel x y := v]> (memory (vars s))). split; [| by apply drawn_pixel].
  unfold store. rewrite get_var_ok, Hold, u32_id by done. done.
Qed.

(** The pixel of a digit in row [r] and column [c] from the top left. *)
Definition lit (nibble c r : Z) : bool := Z.testbit (bitmap_of nibble) (8 * r + (7 - c)).

(** The points of a digit at [x], [y] from the [k]th on, in the order of the
    bits: the rightmost point of the top row first. *)
Definition digit_from (k x y nibble colour : Z) : drawing := λ px py,
  if bool_decide (x ≤ px < x + 8 ∧ y ≤ py < y + 8 ∧ k ≤ 8 * (py - y) + (7 - (px - x)))
  then Some (if lit nibble (px - x) (py - y) then colour else Black) else None.

Lemma bits_of_64 k : 0 ≤ k < 64 →
  u64 (Z.shiftl (2 ^ k) 1) = (if bool_decide (k = 63) then 0 else 2 ^ (k + 1)) ∧
  bool_decide (Z.land (u64 (Z.shiftl (2 ^ k) 1)) 0x0101010101010101 ≠ 0) = bool_decide ((k + 1) mod 8 = 0 ∧ k ≠ 63).
Proof.
  intros Hk. assert (Hall : Forall (λ k, u64 (Z.shiftl (2 ^ k) 1) = (if bool_decide (k = 63) then 0 else 2 ^ (k + 1)) ∧
    bool_decide (Z.land (u64 (Z.shiftl (2 ^ k) 1)) 0x0101010101010101 ≠ 0) = bool_decide ((k + 1) mod 8 = 0 ∧ k ≠ 63)) (seqZ 0 64)).
  { apply (bool_decide_unpack _). by vm_compute. }
  rewrite Forall_forall in Hall. apply Hall, elem_of_seqZ. lia.
Qed.

Lemma land_pow2 b k : 0 ≤ k → bool_decide (Z.land (2 ^ k) b ≠ 0) = Z.testbit b k.
Proof.
  intros Hk. destruct (Z.testbit b k) eqn:Eb.
  - apply bool_decide_eq_true_2. intros E0. apply (f_equal (λ v, Z.testbit v k)) in E0.
    rewrite Z.land_spec, Z.pow2_bits_true, Eb, Z.bits_0 in E0 by lia. done.
  - apply bool_decide_eq_false_2. intros []. apply Z.bits_inj_iff'. intros i Hi. rewrite Z.land_spec, Z.bits_0.
    destruct (decide (i = k)) as [->|]; [by rewrite Eb, andb_false_r | by rewrite Z.pow2_bits_false].
Qed.

Lemma nibble_loop_end n p bitmap colour : nibble_loop n p 0 bitmap colour = (mret () : M (sys display E) unit).
Proof. by destruct n. Qed.

Lemma pixel_on_screen x y : on_screen x y → pixel x y = mapped_address + 4 * (x + y * vwidth).
Proof. intros [Hx Hy]. unfold pixel, vwidth, width in *. rewrite u32_id; [done |]. unfold is_u32. lia. Qed.

Lemma nibble_loop_draws n k x y nibble colour : Z.of_nat n = 64 - k → 0 ≤ k < 64 → 0 ≤ x → x + 8 ≤ vwidth → 0 ≤ y → y + 8 ≤ 0x200000 →
  is_u32 colour →
  draws (nibble_loop n (pixel (x + 7 - k mod 8) (y + k / 8)) (2 ^ k) (bitmap_of nibble) colour)
    (digit_from k x y nibble colour).
Proof.
  revert k. induction n as [|n IH]; intros k Hn Hk Hx Hx8 Hy Hy8 Hc; [lia |].
  cbn [nibble_loop]. rewrite bool_decide_eq_false_2 by lia. rewrite land_pow2 by lia.
  destruct (bits_of_64 k) as [E1 E2]; [lia |]. cbv zeta. rewrite E2, E1. clear E1 E2.
  pose proof (Z.div_mod k 8). pose proof (Z.mod_pos_bound k 8).
  set (v := if Z.testbit (bitmap_of nibble) k then colour else Black).
  assert (Hpoint : draws (store (pixel (x + 7 - k mod 8) (y + k / 8)) v) (point (x + 7 - k mod 8) (y + k / 8) v)).
  { apply store_draws; [split; lia |]. unfold v. by destruct (Z.testbit _ _). }
  assert (Hlit : ∀ px py, px = x + 7 - k mod 8 ∧ py = y + k / 8 → v = (if lit nibble (px - x) (py - y) then colour else Black)).
  { intros px py [-> ->]. unfold v, lit.
    by replace (8 * (y + k / 8 - y) + (7 - (x + 7 - k mod 8 - x))) with k by lia. }
  destruct (decide (k = 63)) as [->|Hk63].
  - rewrite (bool_decide_eq_true_2 (63 = 63)) by done. rewrite nibble_loop_end.
    eapply draws_bind; [exact Hpoint | apply draws_nothing |]. intros px py. unfold digit_from, point.
    change (63 mod 8) with 7 in *. change (63 / 8) with 7 in *.
    destruct (decide (px = x + 7 - 7 ∧ py = y + 7)) as [Hp|Hp].
    + rewrite !bool_decide_eq_true_2 by lia. by rewrite (Hlit px py).
    + by rewrite !bool_decide_eq_false_2 by lia.
  - rewrite (bool_decide_eq_false_2 (k = 63)) by lia.
    assert (Ep : (if bool_decide ((k + 1) mod 8 = 0 ∧ k ≠ 63) then pixel (x + 7 - k mod 8) (y + k / 8) - 4 + 4 * (vwidth + 8)
                  else pixel (x + 7 - k mod 8) (y + k / 8) - 4) = pixel (x + 7 - (k + 1) mod 8) (y + (k + 1) / 8)).
    { pose proof (Z.div_mod (k + 1) 8). pose proof (Z.mod_pos_bound (k + 1) 8).
      rewrite !pixel_on_screen by (split; lia). unfold vwidth, width. case_bool_decide; lia. }
    rewrite Ep. eapply draws_bind; [exact Hpoint | apply (IH (k + 1)); lia || done |]. intros px py. unfold digit_from, point.
    destruct (decide (px = x + 7 - k mod 8 ∧ py = y + k / 8)) as [Hp|Hp].
    + rewrite (bool_decide_eq_true_2 (px = _ ∧ _)) by done. rewrite bool_decide_eq_true_2, (bool_decide_eq_false_2 (_ ∧ _ ∧ k + 1 ≤ _)) by lia.
      by rewrite (Hlit px py).
    + rewrite (bool_decide_eq_false_2 (px = _ ∧ _)) by done. clear Ep. case_bool_decide as H1; case_bool_decide as H2; try done; exfalso.
      * apply H2. lia.
      * apply H1. lia.
Qed.
End digits.

(** A digit, and the claim about [show_nibble]. *)
Section shown.
Context {E : Type} `{!DisplayWorld E}.

(** The pixel in column [c] and row [r] of the table. *)
Definition bitmap_pixel (nibble c r : Z) : bool :=
  Z.testbit (default 0 (default [] (bitmaps !! Z.to_nat nibble) !! Z.to_nat r)) (7 - c).

Lemma lit_is_bitmap n c r : 0 ≤ n < 16 → 0 ≤ c < 8 → 0 ≤ r < 8 → lit n c r = bitmap_pixel n c r.
Proof.
  intros Hn Hc Hr. assert (Hall : Forall (λ n, Forall (λ c, Forall (λ r, lit n c r = bitmap_pixel n c r) (seqZ 0 8)) (seqZ 0 8)) (seqZ 0 16))
    by (apply (bool_decide_unpack _); by vm_compute).
  rewrite Forall_forall in Hall. specialize (Hall n ltac:(apply elem_of_seqZ; lia)). rewrite Forall_forall in Hall.
  specialize (Hall c ltac:(apply elem_of_seqZ; lia)). rewrite Forall_forall in Hall. apply Hall, elem_of_seqZ. lia.
Qed.

(** The picture of a digit. *)
Definition digit_picture (x y nibble colour : Z) : drawing := λ px py,
  if bool_decide (x ≤ px < x + 8 ∧ y ≤ py < y + 8)
  then Some (if bitmap_pixel nibble (px - x) (py - y) then colour else Black) else None.

(** There is room for something of this width at [x], [y]. *)
Definition room (x y w : Z) : Prop := 0 ≤ x ∧ x + w ≤ vwidth ∧ 0 ≤ y ∧ y + 8 ≤ 0x200000.

Lemma show_nibble_draws x y nibble colour : room x y 8 → 0 ≤ nibble < 16 → is_u32 colour →
  draws (show_nibble x y nibble colour : M (sys display E) unit) (digit_picture x y nibble colour).
Proof.
  intros (Hx & Hx8 & Hy & Hy8) Hn Hc.
  pose proof (nibble_loop_draws (E := E) 64 0 x y nibble colour eq_refl ltac:(lia) Hx Hx8 Hy Hy8 Hc) as H.
  change (0 mod 8) with 0 in H. change (0 / 8) with 0 in H. rewrite Z.sub_0_r, Z.add_0_r in H.
  eapply draws_ext; [exact H |]. intros px py. unfold digit_from, digit_picture.
  case_bool_decide as H1; case_bool_decide as H2; try done; [by rewrite lit_is_bitmap by lia | lia | lia].
Qed.

(** The picture of the low [n] digits of a number. *)
Definition digits_picture (n : nat) (x y number colour : Z) : drawing := λ px py,
  if bool_decide (x ≤ px < x + 8 * Z.of_nat n ∧ y ≤ py < y + 8)
  then let k := (px - x) / 8 in
       Some (if bitmap_pixel (Z.land (Z.shiftr number (4 * (Z.of_nat n - 1 - k))) 0xf) ((px - x) mod 8) (py - y)
             then colour else Black)
  else None.

Lemma show_digits_draws n x y number colour : room x y (8 * Z.of_nat n) → is_u32 colour →
  draws (show_digits n x y number colour : M (sys display E) unit) (digits_picture n x y number colour).
Proof.
  revert x. induction n as [|n IH]; intros x (Hx & Hx8 & Hy & Hy8) Hc.
  - eapply draws_ext; [apply draws_nothing |]. intros px py. unfold digits_picture. by rewrite bool_decide_eq_false_2 by lia.
  - cbn [show_digits]. unfold vwidth, width in Hx8.
    rewrite (u32_id x), (u32_id y) by (unfold is_u32; lia).
    eapply draws_bind; [apply show_nibble_draws | apply IH |].
    + unfold room, vwidth, width. lia.
    + change 0xf with (Z.ones 4). rewrite Z.land_ones by lia. apply Z.mod_pos_bound. lia.
    + done.
    + unfold room, vwidth, width. lia.
    + done.
    + intros px py. unfold digits_picture, digit_picture.
      destruct (decide (x ≤ px < x + 8)) as [Hp|Hp].
      * rewrite (bool_decide_eq_false_2 (x + 8 ≤ px < _ ∧ _)) by lia. destruct (decide (y ≤ py < y + 8)) as [Hq|Hq].
        -- rewrite !bool_decide_eq_true_2 by lia. rewrite Z.div_small, Z.mod_small by lia.
           by replace (4 * (Z.of_nat (S n) - 1 - 0)) with (4 * Z.of_nat n) by lia.
        -- by rewrite !bool_decide_eq_false_2 by lia.
      * rewrite (bool_decide_eq_false_2 (x ≤ px < x + 8 ∧ _)) by lia.
        case_bool_decide as H1; case_bool_decide as H2; try done; try lia.
        replace (px - x) with (px - (x + 8) + 1 * 8) by lia. rewrite Z.div_add, Z.mod_add by lia.
        by replace (4 * (Z.of_nat (S n) - 1 - ((px - (x + 8)) / 8 + 1))) with (4 * (Z.of_nat n - 1 - (px - (x + 8)) / 8)) by lia.
Qed.

Definition word_picture (x y number colour : Z) : drawing := digits_picture 8 x y number colour.
Lemma show_word_draws x y number colour : room x y 64 → is_u32 colour →
  draws (show_word x y number colour : M (sys display E) unit) (word_picture x y number colour).
Proof. apply (show_digits_draws 8). Qed.
End shown.

(** ** A page of memory on the screen *)

(** Several drawings, the last on top. *)
Definition cover (l : list drawing) : drawing :=
  foldl (λ f d px py, match d px py with Some v => Some v | None => f px py end) (λ _ _, None) l.

Lemma cover_snoc l d px py : cover (l ++ [d]) px py = match d px py with Some v => Some v | None => cover l px py end.
Proof. unfold cover. by rewrite foldl_app. Qed.

Lemma cover_is l px py v : Forall (λ d : drawing, d px py = None ∨ d px py = Some v) l →
  Exists (λ d : drawing, d px py = Some v) l → cover l px py = Some v.
Proof.
  induction l as [|d l IH] using rev_ind; intros Hall Hex; [by inversion Hex |].
  rewrite cover_snoc. apply Forall_app in Hall as [Hl Hd]. inversion Hd as [|? ? [Hd'|Hd'] _]; subst; rewrite Hd'; [| done].
  apply IH; [done |]. apply Exists_app in Hex as [Hex|Hex]; [done |]. inversion Hex as [? ? H|? ? H]; subst; [congruence | by inversion H].
Qed.

Section page.
Context {E : Type} `{!DisplayWorld E} (number label : Z) (m0 : gmap Z Z) (word : Z → Z).

(** The rows that [show_page] draws in are mapped, and so is the page, elsewhere. *)
Context (Hmapped : ∀ px py, 0 ≤ px < vwidth → 64 ≤ py < 576 → is_Some (m0 !! pixel px py)).
Context (Hwords : ∀ i, 0 ≤ i < 1024 → m0 !! (number + 4 * i) = Some (word i) ∧ is_u32 (word i)).
Context (Hapart : ∀ i px py, 0 ≤ i < 1024 → 0 ≤ px < vwidth → 64 ≤ py < 576 → pixel px py ≠ number + 4 * i).

Definition in_area (d : drawing) : Prop := ∀ px py, is_Some (d px py) → 0 ≤ px < vwidth ∧ 64 ≤ py < 576.

Lemma cover_in_area l : Forall in_area l → in_area (cover l).
Proof.
  induction l as [|d l IH] using rev_ind; intros Hl px py Hc; [by destruct Hc |].
  apply Forall_app in Hl as [Hl Hd]. inversion Hd; subst. rewrite cover_snoc in Hc.
  destruct (d px py) eqn:Ed; [| by apply IH]. match goal with H : in_area d |- _ => apply H end. by rewrite Ed.
Qed.

(** [m] adds the drawings [ds] to those that are on the screen. *)
Definition paints (m : M (sys display E) unit) (ds : list drawing) : Prop :=
  Forall in_area ds ∧
  ∀ s l, Forall in_area l → drawn m0 (memory (vars s)) (cover l) →
    ∃ mem, m s = Ok () (Sys (set_memory mem (vars s)) (world s)) ∧ drawn m0 mem (cover (l ++ ds)).

Lemma paints_bind m n ds es : paints m ds → paints (n ()) es → paints (m ≫= n) (ds ++ es).
Proof.
  intros [Hd Hm] [He Hn]. split; [by apply Forall_app |]. intros s l Hl Hs.
  destruct (Hm s l Hl Hs) as (m1 & E1 & D1).
  destruct (Hn (Sys (set_memory m1 (vars s)) (world s)) (l ++ ds)) as (m2 & E2 & D2); [by apply Forall_app | done |].
  exists m2. unfold mbind, M_bind. rewrite E1, app_assoc. done.
Qed.

Lemma paints_draws m f : draws m f → in_area f → paints m [f].
Proof.
  intros Hm Hf. split; [apply Forall_cons; split; [exact Hf | by apply Forall_nil] |]. intros s l Hl Hs. destruct (Hm s) as (mem & E1 & D1).
  { intros px py Hp. eapply drawn_mapped; [exact Hs |]. apply Hf in Hp as [? ?]. by apply Hmapped. }
  exists mem. split; [done |]. eapply drawn_then; [exact Hs | exact D1 |]. intros. apply cover_snoc.
Qed.

Lemma paints_for_range n from body ds : (∀ i, from ≤ i < from + Z.of_nat n → paints (body i) (ds i)) →
  paints (for_range n from body) (concat (ds <$> seqZ from (Z.of_nat n))).
Proof.
  revert from. induction n as [|n IH]; intros from Hb.
  - split; [constructor |]. intros s l _ Hs. exists (memory (vars s)). cbn. rewrite app_nil_r. split; [| done].
    by destruct s as [[] ?].
  - rewrite (seqZ_cons from) by lia. cbn [fmap list_fmap concat for_range]. apply paints_bind; [apply Hb; lia |].
    replace (Z.pred (Z.of_nat (S n))) with (Z.of_nat n) by lia. replace (Z.succ from) with (from + 1) by lia.
    apply IH. intros i Hi. apply Hb. lia.
Qed.

(** The page does not change while it is shown. *)
Lemma load_page i (s : sys display E) l : 0 ≤ i < 1024 → Forall in_area l → drawn m0 (memory (vars s)) (cover l) →
  load (number + 4 * i) s = Ok (word i) s.
Proof.
  intros Hi Hl Hs. destruct (Hwords i Hi) as [Hw _]. unfold load. rewrite get_var_ok.
  assert (E0 : memory (vars s) !! (number + 4 * i) = Some (word i)); [| by rewrite E0].
  rewrite (Hs (number + 4 * i)). destruct (place (number + 4 * i)) as [[px py]|] eqn:Ep; [| done].
  destruct (cover l px py) eqn:Ec; [| done]. exfalso. apply place_inv in Ep as (Ep & Hx & Hy).
  destruct (cover_in_area l Hl px py) as [H1 H2]; [by rewrite Ec |]. by apply (Hapart i px py).
Qed.

Definition cell_colour (y x : Z) : Z := if bool_decide (y mod 8 = 0) || bool_decide (x mod 8 = 0) then Green else White.

(** The drawings of a row: the address, and the words. *)
Definition cell_picture (y x : Z) : drawing := word_picture (x * 68 + 72) (y * 8 + 64) (word (x + y * 16)) (cell_colour y x).
Definition row_pictures (y : Z) : list drawing :=
  word_picture 0 (y * 8 + 64) (u32 (label + y * 64)) White :: (cell_picture y <$> seqZ 0 16).

Lemma word_picture_area x y n colour : 0 ≤ x → x + 64 ≤ vwidth → 64 ≤ y → y + 8 ≤ 576 → in_area (word_picture x y n colour).
Proof.
  intros Hx Hx8 Hy Hy8 px py. unfold word_picture, digits_picture. case_bool_decide as H; [| by intros []]. intros _. lia.
Qed.

Lemma cell_paints y x : 0 ≤ y < 64 → 0 ≤ x < 16 → paints (show_cell number y x) [cell_picture y x].
Proof.
  intros Hy Hx.
  assert (Hw : paints (show_word (x * 68 + 72) (y * 8 + 64) (word (x + y * 16)) (cell_colour y x)) [cell_picture y x]).
  { apply paints_draws.
    - apply show_word_draws; [unfold room, vwidth, width; lia |]. unfold cell_colour. by destruct (_ || _).
    - apply word_picture_area; unfold vwidth, width; lia. }
  destruct Hw as [Ha Hw]. split; [done |]. intros s l Hl Hs. destruct (Hw s l Hl Hs) as (mem & E1 & D1).
  exists mem. split; [| done]. unfold show_cell, mbind, M_bind. rewrite (load_page (x + y * 16) s l) by (done || lia).
  change 7 with (Z.ones 3). rewrite !Z.land_ones by lia. exact E1.
Qed.

Lemma row_paints y : 0 ≤ y < 64 → paints (show_row number label y) (row_pictures y).
Proof.
  intros Hy. unfold show_row, row_pictures.
  change (word_picture 0 (y * 8 + 64) (u32 (label + y * 64)) White :: (cell_picture y <$> seqZ 0 16))
    with ([word_picture 0 (y * 8 + 64) (u32 (label + y * 64)) White] ++ (cell_picture y <$> seqZ 0 16)).
  apply paints_bind.
  - apply paints_draws; [apply show_word_draws; [unfold room, vwidth, width; lia | done] | apply word_picture_area; unfold vwidth, width; lia].
  - pose proof (paints_for_range 16 0 (show_cell number y) (λ x, [cell_picture y x])) as H.
    assert (Ec : ∀ l : list Z, concat ((λ x, [cell_picture y x]) <$> l) = cell_picture y <$> l).
    { induction l as [|x l IHl]; [done |]. cbn. by rewrite IHl. }
    rewrite Ec in H. apply H. intros x Hx. apply cell_paints; lia.
Qed.

Lemma in_row_pictures y d : d ∈ row_pictures y →
  d = word_picture 0 (y * 8 + 64) (u32 (label + y * 64)) White ∨ ∃ x, 0 ≤ x < 16 ∧ d = cell_picture y x.
Proof.
  unfold row_pictures. rewrite elem_of_cons, list_elem_of_fmap. intros [->|(x & -> & Hx)]; [by left |].
  right. exists x. apply elem_of_seqZ in Hx. split; [lia | done].
Qed.

(** All the drawings. *)
Definition page_pictures : list drawing := concat (row_pictures <$> seqZ 0 64).

Lemma in_page_pictures d : d ∈ page_pictures ↔ ∃ y, 0 ≤ y < 64 ∧ d ∈ row_pictures y.
Proof.
  unfold page_pictures. rewrite list_elem_of_In, in_concat. split.
  - intros (ds & Hds & Hd). apply list_elem_of_In, list_elem_of_fmap in Hds as (y & -> & Hy).
    apply elem_of_seqZ in Hy. exists y. split; [lia | by apply list_elem_of_In].
  - intros (y & Hy & Hd). exists (row_pictures y). split; apply list_elem_of_In; [| done].
    apply list_elem_of_fmap. exists y. split; [done |]. apply elem_of_seqZ. lia.
Qed.

Lemma word_picture_at x y n colour c r : 0 ≤ c < 64 → 0 ≤ r < 8 →
  word_picture x y n colour (x + c) (y + r) =
  Some (if bitmap_pixel (Z.land (Z.shiftr n (28 - 4 * (c / 8))) 0xf) (c mod 8) r then colour else Black).
Proof.
  intros Hc Hr. unfold word_picture, digits_picture. rewrite bool_decide_eq_true_2 by lia. cbv zeta.
  replace (x + c - x) with c by lia. replace (y + r - y) with r by lia.
  by replace (4 * (Z.of_nat 8 - 1 - c / 8)) with (28 - 4 * (c / 8)) by lia.
Qed.

Lemma word_picture_where x y n colour px py v : word_picture x y n colour px py = Some v →
  0 ≤ px - x < 64 ∧ 0 ≤ py - y < 8.
Proof. unfold word_picture, digits_picture. case_bool_decide; [lia | done]. Qed.

(** Two words' pictures have no point in common. *)
Lemma pictures_apart x y n colour x' y' n' colour' px py v :
  word_picture x y n colour px py = Some v → x + 64 ≤ x' ∨ x' + 64 ≤ x ∨ y + 8 ≤ y' ∨ y' + 8 ≤ y →
  word_picture x' y' n' colour' px py = None.
Proof.
  intros H%word_picture_where Hap. destruct (word_picture x' y' _ _ px py) eqn:Ew; [| done].
  apply word_picture_where in Ew. lia.
Qed.

(** A point of one of the drawings has the colour of that drawing. *)
Lemma drawing_alone d d' px py v : d ∈ page_pictures → d' ∈ page_pictures → d px py = Some v →
  d' px py = None ∨ d' px py = Some v.
Proof.
  intros (y & Hy & Hd)%in_page_pictures (y' & Hy' & Hd')%in_page_pictures Hv.
  apply in_row_pictures in Hd as [-> | (x & Hx & ->)], Hd' as [-> | (x' & Hx' & ->)].
  - destruct (decide (y' = y)) as [-> |]; [by right | left]. eapply pictures_apart; [exact Hv | lia].
  - left. eapply pictures_apart; [exact Hv | lia].
  - left. eapply pictures_apart; [exact Hv | lia].
  - destruct (decide (x' = x ∧ y' = y)) as [[-> ->] |]; [by right | left]. eapply pictures_apart; [exact Hv | lia].
Qed.

Lemma drawing_shown mem d px py v :
  drawn m0 mem (cover page_pictures) → d ∈ page_pictures → d px py = Some v → on_screen px py →
  mem !! pixel px py = Some v.
Proof.
  intros D Hd Hv Hon. rewrite (D (pixel px py)), place_pixel by done. erewrite cover_is; [done | |].
  - apply Forall_forall. intros d' Hd'. exact (drawing_alone d d' px py v Hd Hd' Hv).
  - apply Exists_exists. by exists d.
Qed.

Lemma cover_some l px py v : cover l px py = Some v → ∃ d, d ∈ l ∧ d px py = Some v.
Proof.
  induction l as [|d l IH] using rev_ind; [done |]. rewrite cover_snoc. destruct (d px py) eqn:Ed.
  - intros [= ->]. exists d. split; [| done]. apply elem_of_app. right. by left.
  - intros (d' & Hd' & Hv)%IH. exists d'. split; [| done]. apply elem_of_app. by left.
Qed.

(** C27: [show_page] with the screen rows 64 to 575 mapped, and a page of 1024 words mapped elsewhere,
    ends without a fault, and then the screen shows the page: for each word of the page its eight hexadecimal
    digits, from the highest on, as 8 by 8 points each from the table, at the word's place in a grid of 16
    columns and 64 rows, in its colour on black; and at the left of each row, in white, the
    label of the row's first word.  No other word of memory is changed. *)
Theorem show_page_shows_memory (s : sys display E) : memory (vars s) = m0 →
  ∃ mem, show_page number label s = Ok () (Sys (set_memory mem (vars s)) (world s)) ∧
    (∀ i c r, 0 ≤ i < 1024 → 0 ≤ c < 64 → 0 ≤ r < 8 →
       mem !! pixel (i mod 16 * 68 + 72 + c) (i / 16 * 8 + 64 + r) =
       Some (if bitmap_pixel (Z.land (Z.shiftr (word i) (28 - 4 * (c / 8))) 0xf) (c mod 8) r
             then cell_colour (i / 16) (i mod 16) else Black)) ∧
    (∀ y c r, 0 ≤ y < 64 → 0 ≤ c < 64 → 0 ≤ r < 8 →
       mem !! pixel c (y * 8 + 64 + r) =
       Some (if bitmap_pixel (Z.land (Z.shiftr (u32 (label + y * 64)) (28 - 4 * (c / 8))) 0xf) (c mod 8) r
             then White else Black)) ∧
    (∀ a, (∀ i c r, 0 ≤ i < 1024 → 0 ≤ c < 64 → 0 ≤ r < 8 →
             pixel (i mod 16 * 68 + 72 + c) (i / 16 * 8 + 64 + r) ≠ a) →
          (∀ y c r, 0 ≤ y < 64 → 0 ≤ c < 64 → 0 ≤ r < 8 → pixel c (y * 8 + 64 + r) ≠ a) →
          mem !! a = m0 !! a).
Proof.
  intros Hs. pose proof (paints_for_range 64 0 (show_row number label) row_pictures) as [Hall Hp].
  { intros y Hy. apply row_paints. lia. }
  destruct (Hp s []) as (mem & E1 & D1); [by apply Forall_nil | rewrite Hs; apply drawn_nothing |].
  change (drawn m0 mem (cover page_pictures)) in D1.
  exists mem. split; [exact E1 |]. split; [| split].
  - intros i c r Hi Hc Hr. pose proof (Z.div_mod i 16). pose proof (Z.mod_pos_bound i 16).
    apply (drawing_shown mem (cell_picture (i / 16) (i mod 16))); [done | | | unfold on_screen, vwidth, width; lia].
    + apply in_page_pictures. exists (i / 16). split; [lia |]. unfold row_pictures. apply elem_of_cons. right.
      apply list_elem_of_fmap. exists (i mod 16). split; [done |]. apply elem_of_seqZ. lia.
    + unfold cell_picture. rewrite word_picture_at by done. by replace (i mod 16 + i / 16 * 16) with i by lia.
  - intros y c r Hy Hc Hr.
    apply (drawing_shown mem (word_picture 0 (y * 8 + 64) (u32 (label + y * 64)) White));
      [done | | | unfold on_screen, vwidth, width; lia].
    + apply in_page_pictures. exists y. split; [done | by left].
    + by rewrite <- word_picture_at with (x := 0) (y := y * 8 + 64) by done.
  - intros a Hcells Hlabels. rewrite (D1 a). destruct (place a) as [[px py]|] eqn:Ep; [| done].
    apply place_inv in Ep as (<- & _). destruct (cover _ px py) eqn:Ec; [exfalso | done].
    apply cover_some in Ec as (d & (y & Hy & Hd)%in_page_pictures & Hv).
    apply in_row_pictures in Hd as [-> | (x & Hx & ->)]; apply word_picture_where in Hv as [Hx' Hy'].
    + apply (Hlabels y (px - 0) (py - (y * 8 + 64))); [lia | lia | lia |]. f_equal; lia.
    + apply (Hcells (x + y * 16) (px - (x * 68 + 72)) (py - (y * 8 + 64))); [lia | lia | lia |].
      rewrite Z.div_add, Z.mod_add, Z.div_small, Z.mod_small by lia. f_equal; lia.
Qed.
End page.

(** ** The hypotheses can hold: a screen and a page, all zero *)
#[local] Instance blank_world : DisplayWorld unit := {|
  get_service := mret 0; get_frame_buffer := λ _, mret 0; block_physical_address := λ _, mret 0;
  driver_map_at := λ _ _ m, mret m; driver_unmap := λ _ m, mret (0, m); register_service := mret tt |}.

(** [n] words of zero from address [a] on. *)
Definition zeroes (a n : Z) : gmap Z Z := list_to_map ((λ i, (a + 4 * i, 0)) <$> seqZ 0 n).

Lemma zeroes_lookup a n i : 0 ≤ i < n → zeroes a n !! (a + 4 * i) = Some 0.
Proof.
  intros Hi. apply elem_of_list_to_map_1'.
  - intros y Hy. apply list_elem_of_fmap in Hy as (j & Hj & _). by injection Hj.
  - apply list_elem_of_fmap. exists i. split; [done |]. apply elem_of_seqZ. lia.
Qed.

Definition blank_memory : gmap Z Z := zeroes 0x10000 1024 ∪ zeroes mapped_address (vwidth * 576).

Lemma blank_page i : 0 ≤ i < 1024 → blank_memory !! (0x10000 + 4 * i) = Some 0 ∧ is_u32 0.
Proof. intros Hi. split; [| done]. apply lookup_union_Some_l. by apply zeroes_lookup. Qed.

Lemma blank_screen px py : 0 ≤ px < vwidth → 64 ≤ py < 576 → is_Some (blank_memory !! pixel px py).
Proof.
  intros Hx Hy. apply lookup_union_is_Some. right. exists 0. unfold pixel.
  unfold vwidth, width in *. rewrite u32_id by (unfold is_u32; lia). apply zeroes_lookup. unfold vwidth, width. lia.
Qed.

Lemma blank_apart i px py : 0 ≤ i < 1024 → 0 ≤ px < vwidth → 64 ≤ py < 576 → pixel px py ≠ 0x10000 + 4 * i.
Proof. intros Hi Hx Hy. unfold pixel, mapped_address. pose proof (u32_range (px + py * vwidth)) as H. unfold is_u32 in H. lia. Qed.

Lemma show_page_shows_memory_witness :
  ∃ mem, show_page 0x10000 0 (Sys (Display blank_memory 0 0) tt) = Ok () (Sys (Display mem 0 0) tt) ∧
    mem !! pixel 75 64 = Some Green.
Proof.
  destruct (show_page_shows_memory 0x10000 0 blank_memory (λ _, 0) blank_screen blank_page blank_apart
    (Sys (Display blank_memory 0 0) tt) eq_refl) as (mem & E1 & E2 & _ & _).
  exists mem. split; [exact E1 |]. specialize (E2 0 3 0 ltac:(lia) ltac:(lia) ltac:(lia)). exact E2.
Defined.
