(* ===== verification/Gpio.v ===== *)
(** * The GPIO pins

    [drivers/pi3gpu/gpio.c]: the function of a pin, its event detection and its pull-up or
    pull-down resistor.  Ten pins share a function select register, and 32 pins each of the
    others.  The driver cannot read the resistors back: it remembers them in
    [currently_pull_up] and [currently_pull_down].

    A world with registers that read as they were last written, and with the resistors as the
    documentation of the chip has them, is [pins].  The theorems: a function is given
    to its pin and to no other; detection of a pin is switched without
    touching the others; after any sequence of requests what the driver remembers is how the
    resistors are. *)

From S2P Require Import Prelude GpuDevices.

(** ** What the driver uses *)
Class GpioWorld (E : Type) : Type := {
  gpio_devices :: Devices E;
  yield : M E unit;
}.

(** ** State *)
Record pulls : Type := Pulls {
  requesting_pull_up : Z;
  requesting_pull_down : Z;
  currently_pull_up : Z;
  currently_pull_down : Z;
}.
(** The source writes the two constants in binary. *)
Definition initial_pulls : pulls := Pulls 0 0 0x3fc01c000001ff 0x0fe3cffffe00.

Definition set_requesting_pull_up (v : Z) (d : pulls) : pulls :=
  Pulls v (requesting_pull_down d) (currently_pull_up d) (currently_pull_down d).
Definition set_requesting_pull_down (v : Z) (d : pulls) : pulls :=
  Pulls (requesting_pull_up d) v (currently_pull_up d) (currently_pull_down d).
Definition set_currently_pull_up (v : Z) (d : pulls) : pulls :=
  Pulls (requesting_pull_up d) (requesting_pull_down d) v (currently_pull_down d).
Definition set_currently_pull_down (v : Z) (d : pulls) : pulls :=
  Pulls (requesting_pull_up d) (requesting_pull_down d) (currently_pull_up d) v.

Definition low_word (v : Z) : Z := u32 (Z.land v 0xffffffff).
Definition high_word (v : Z) : Z := u32 (Z.shiftr v 32).

(** [~v] of a [uint64_t] *)
Definition not64 (v : Z) : Z := u64 (Z.lnot v).

Definition alts : list Z := [4; 5; 6; 7; 3; 2].

(** ** Operations *)
Section gpio.
Context {E : Type} `{!GpioWorld E}.

#[local] Abbreviation D := (M (sys pulls E)).

Definition gpio_set_alternate_function_bits (gpio code : Z) : D unit :=
  let offset := 3 * Z.rem gpio 10 in
  let reg := Gpio (GPFSEL (Z.quot gpio 10)) in
  r ← read reg;
  write reg (Z.lor (Z.land r (u32 (Z.lnot (Z.shiftl 7 offset)))) (Z.shiftl (Z.land code 7) offset)).

Definition gpio_set_as_input (gpio : Z) : D unit := gpio_set_alternate_function_bits gpio 0.
Definition gpio_set_as_output (gpio : Z) : D unit := gpio_set_alternate_function_bits gpio 1.
Definition gpio_set_function (gpio alt : Z) : D unit :=
  match alts !! Z.to_nat alt with
  | Some code => gpio_set_alternate_function_bits gpio code
  | None => halt (Fault alt)
  end.

Definition gpio_read : D Z :=
  low ← read (Gpio (GPLEV 0));
  high ← read (Gpio (GPLEV 1));
  mret (Z.lor low (Z.shiftl high 32)).

Definition gpio_request_pull_up (gpio : Z) : D unit := upd_var (set_requesting_pull_up (u64 (Z.shiftl 1 gpio))).
Definition gpio_request_pull_down (gpio : Z) : D unit := upd_var (set_requesting_pull_down (u64 (Z.shiftl 1 gpio))).

(** The part of [gpio_set_pull_up_down] that the two directions share: [mode] is given to
    the pins in [change]. *)
Definition change_pulls (mode change : Z) : D unit :=
  _ ← write (Gpio GPPUD) mode;
  _ ← ask yield;
  _ ← ask yield;
  _ ← ask yield;
  _ ← when (bool_decide (low_word change ≠ 0)) (write (Gpio (GPPUDCLK 0)) (low_word change));
  _ ← when (bool_decide (high_word change ≠ 0)) (write (Gpio (GPPUDCLK 1)) (high_word change));
  _ ← ask yield;
  _ ← ask yield;
  _ ← ask yield;
  _ ← write (Gpio GPPUD) 0;
  _ ← write (Gpio (GPPUDCLK 0)) 0;
  write (Gpio (GPPUDCLK 1)) 0.

Definition gpio_set_pull_up_down : D unit :=
  d ← get_var id;
  let change_up := Z.land (requesting_pull_up d) (not64 (currently_pull_up d)) in
  let change_down := Z.land (requesting_pull_down d) (not64 (currently_pull_down d)) in
  _ ← when (bool_decide (change_up ≠ 0))
        (_ ← change_pulls 2 change_up;
         _ ← upd_var (λ d, set_currently_pull_up (Z.lor (currently_pull_up d) (requesting_pull_up d)) d);
         upd_var (λ d, set_currently_pull_down (Z.land (currently_pull_down d) (not64 (requesting_pull_up d))) d));
  _ ← when (bool_decide (change_down ≠ 0))
        (_ ← change_pulls 1 change_down;
         _ ← upd_var (λ d, set_currently_pull_down (Z.lor (currently_pull_down d) (requesting_pull_down d)) d);
         upd_var (λ d, set_currently_pull_up (Z.land (currently_pull_up d) (not64 (requesting_pull_down d))) d));
  _ ← upd_var (set_requesting_pull_up 0);
  upd_var (set_requesting_pull_down 0).

(** [reg[i] |= 1 << offset] and [reg[i] &= ~(1 << offset)] for the bit of a pin *)
Definition set_detect (reg : Z → gpio_register) (gpio : Z) : D unit :=
  let r := Gpio (reg (Z.quot gpio 32)) in
  v ← read r;
  write r (u32 (Z.lor v (s32 (Z.shiftl 1 (Z.land gpio 31))))).
Definition clear_detect (reg : Z → gpio_register) (gpio : Z) : D unit :=
  let r := Gpio (reg (Z.quot gpio 32)) in
  v ← read r;
  write r (u32 (Z.land v (Z.lnot (s32 (Z.shiftl 1 (Z.land gpio 31)))))).

Definition gpio_set_detect_high : Z → D unit := set_detect GPHEN.
Definition gpio_set_detect_low : Z → D unit := set_detect GPLEN.
Definition gpio_set_detect_rising : Z → D unit := set_detect GPAREN.
Definition gpio_set_detect_falling : Z → D unit := set_detect GPAFEN.
Definition gpio_clear_detect_high : Z → D unit := clear_detect GPHEN.
Definition gpio_clear_detect_low : Z → D unit := clear_detect GPLEN.
Definition gpio_clear_detect_rising : Z → D unit := clear_detect GPAREN.
Definition gpio_clear_detect_falling : Z → D unit := clear_detect GPAFEN.
End gpio.

(** ** The pins *)

(** The registers, and the mode of each pin's resistor: 1 is down and 2 is up. *)
Record pins : Type := Pins { registers : gpio_register → Z; resistor : Z → Z }.

Definition update (r : gpio_register) (v : Z) (f : gpio_register → Z) : gpio_register → Z :=
  λ r', if decide (r' = r) then v else f r'.

(** Writing a clock register gives the mode in [GPPUD] to the pins whose bits are set. *)
Definition clocked (r : gpio_register) (v : Z) (p : pins) : Z → Z :=
  match r with
  | GPPUDCLK n => λ g, if Z.testbit v (g - 32 * n) then registers p GPPUD else resistor p g
  | _ => resistor p
  end.

#[export] Instance pins_devices : Devices pins := {
  device_read d := λ p, match d with Gpio r => Ok (registers p r) p | _ => Ok 0 p end;
  device_write d v := λ p,
    match d with Gpio r => Ok tt (Pins (update r v (registers p)) (clocked r v p)) | _ => Ok tt p end;
}.
#[export] Instance pins_world : GpioWorld pins := {| yield := mret tt |}.

(** ** Functions *)
Definition sized (p : pins) : Prop := ∀ r, is_u32 (registers p r).
Definition pin_function (p : pins) (g : Z) : Z := get_bits (3 * (g mod 10)) 3 (registers p (GPFSEL (g / 10))).

Lemma update_eq r v f : update r v f r = v.
Proof. unfold update. by rewrite decide_True. Qed.
Lemma update_ne r r' v f : r' ≠ r → update r v f r' = f r'.
Proof. intros H. unfold update. by rewrite decide_False. Qed.

(** The three bits are replaced, and no others. *)
Lemma alternate_bits r o code : is_u32 r → 0 ≤ o → o + 3 ≤ 32 →
  Z.lor (Z.land r (u32 (Z.lnot (Z.shiftl 7 o)))) (Z.shiftl (Z.land code 7) o) = set_bits o 3 code r.
Proof.
  intros Hr Ho Ho3. apply Z.bits_inj_iff'. intros i Hi. change 7 with (Z.ones 3).
  unfold set_bits. rewrite !Z.lor_spec. f_equal. rewrite Z.land_spec, Z.ldiff_spec. unfold u32.
  destruct (decide (i < 32)) as [Hi32|Hi32].
  - rewrite Z.mod_pow2_bits_low, Z.lnot_spec by lia. done.
  - rewrite (testbit_above r 32) by (unfold is_u32 in Hr; lia). done.
Qed.

Lemma alternate_function_runs d p g code : sized p → 0 ≤ g →
  gpio_set_alternate_function_bits g code (Sys d p) =
  Ok () (Sys d (Pins (update (GPFSEL (g / 10)) (set_bits (3 * (g mod 10)) 3 code (registers p (GPFSEL (g / 10)))) (registers p))
                     (resistor p))).
Proof.
  intros Hp Hg. unfold gpio_set_alternate_function_bits. rewrite Z.rem_mod_nonneg, Z.quot_div_nonneg by lia.
  pose proof (Z.mod_pos_bound g 10). cbv [read write ask mbind M_bind device_read device_write gpio_devices pins_world pins_devices].
  cbn [world vars]. rewrite alternate_bits by (done || lia). done.
Qed.

Lemma sized_update p r v f : sized p → is_u32 v → sized (Pins (update r v (registers p)) f).
Proof. intros Hp Hv r'. cbn. unfold update. by destruct (decide _). Qed.

(** [gpio_set_function] gives its pin the function that the chip's documentation
    numbers so, whatever it had before; every other pin keeps its function, and no other register and no
    resistor changes. *)
Theorem function_of_one_pin d p g alt code : sized p → 0 ≤ g < 54 → 0 ≤ alt → alts !! Z.to_nat alt = Some code →
  ∃ p', gpio_set_function g alt (Sys d p) = Ok () (Sys d p') ∧ sized p' ∧ pin_function p' g = code ∧
    (∀ g', 0 ≤ g' → g' ≠ g → pin_function p' g' = pin_function p g') ∧
    (∀ r, (∀ n, r ≠ GPFSEL n) → registers p' r = registers p r) ∧ resistor p' = resistor p.
Proof.
  intros Hp Hg Halt Hcode. pose proof (Z.mod_pos_bound g 10 ltac:(lia)) as Hm.
  unfold gpio_set_function. rewrite Hcode, (alternate_function_runs d p g code) by (done || lia). eexists. split; [done |].
  assert (Hc : 0 ≤ code < 2 ^ 3).
  { apply (Forall_lookup_1 (λ c, 0 ≤ c < 2 ^ 3) alts _ code) in Hcode; [done |]. repeat constructor; lia. }
  split_and!; [| | | | done].
  - apply sized_update; [done |]. apply (set_bits_range 32); [lia .. |]. apply Hp.
  - unfold pin_function. cbn. rewrite update_eq. apply get_set_bits_same; [lia .. | done].
  - intros g' Hg' Hne. unfold pin_function. cbn. pose proof (Z.mod_pos_bound g' 10 ltac:(lia)).
    destruct (decide (g' / 10 = g / 10)) as [Hq|Hq].
    + rewrite Hq, update_eq. pose proof (Z.div_mod g 10). pose proof (Z.div_mod g' 10). apply get_set_bits_other; lia.
    + rewrite update_ne; [done |]. intros [= ?]. done.
  - intros r Hr. cbn. by apply update_ne.
Qed.

Lemma function_of_one_pin_witness :
  ∃ p', gpio_set_function 48 3 (Sys initial_pulls (Pins (λ _, 0xffffffff) (λ _, 0))) = Ok () (Sys initial_pulls p') ∧
    pin_function p' 48 = 7 ∧ pin_function p' 47 = 7.
Proof.
  destruct (function_of_one_pin initial_pulls (Pins (λ _, 0xffffffff) (λ _, 0)) 48 3 7) as (p' & E & _ & F & O & _);
    [by intros r | lia | lia | done |].
  exists p'. split; [exact E |]. split; [exact F |]. rewrite (O 47) by lia. done.
Defined.

(** ** Detection *)

(** The bit of a pin in the registers that have 32 pins each. *)
Definition pin_bit (reg : Z → gpio_register) (p : pins) (g : Z) : bool := Z.testbit (registers p (reg (g / 32))) (g mod 32).

Definition detect_registers : list (Z → gpio_register) := [GPHEN; GPLEN; GPAREN; GPAFEN].

Lemma bit_of_pin_testbit o i : 0 ≤ o < 32 → 0 ≤ i < 32 → Z.testbit (s32 (Z.shiftl 1 o)) i = bool_decide (i = o).
Proof.
  intros Ho Hi. rewrite Z.shiftl_1_l. unfold s32.
  replace ((2 ^ o + 2 ^ 31) mod 2 ^ 32 - 2 ^ 31) with (if bool_decide (o = 31) then - 2 ^ 31 else 2 ^ o).
  - case_bool_decide as H31.
    + subst o. change (-2 ^ 31) with (Z.lnot (Z.ones 31)). rewrite Z.lnot_spec by lia.
      rewrite ones_testbit by lia. apply eq_true_iff_eq. rewrite negb_true_iff, bool_decide_eq_true, bool_decide_eq_false. lia.
    + rewrite Z.pow2_bits_eqb by lia. apply eq_true_iff_eq. rewrite Z.eqb_eq, bool_decide_eq_true. lia.
  - assert (Hp : 0 < 2 ^ o) by (by apply Z.pow_pos_nonneg; lia). case_bool_decide as H31; [by subst o |].
    assert (2 ^ o ≤ 2 ^ 30) by (apply Z.pow_le_mono_r; lia). rewrite Z.mod_small by lia. lia.
Qed.

Lemma detect_mask o v i : 0 ≤ o < 32 → 0 ≤ i < 32 →
  Z.testbit (u32 (Z.lor v (s32 (Z.shiftl 1 o)))) i = (bool_decide (i = o) || Z.testbit v i) ∧
  Z.testbit (u32 (Z.land v (Z.lnot (s32 (Z.shiftl 1 o))))) i = (negb (bool_decide (i = o)) && Z.testbit v i).
Proof.
  intros Ho Hi. unfold u32. rewrite !Z.mod_pow2_bits_low, Z.lor_spec, Z.land_spec, Z.lnot_spec, bit_of_pin_testbit by lia.
  by rewrite orb_comm, andb_comm.
Qed.

Lemma pin_bit_update reg p g g' v f : (∀ m n, reg m = reg n → m = n) →
  pin_bit reg (Pins (update (reg (g / 32)) v (registers p)) f) g' =
  if bool_decide (g' / 32 = g / 32) then Z.testbit v (g' mod 32) else pin_bit reg p g'.
Proof.
  intros Hinj. unfold pin_bit. cbn. case_bool_decide as Hq; [by rewrite Hq, update_eq |].
  rewrite update_ne; [done |]. by intros ?%Hinj.
Qed.

Lemma detect_registers_inj reg : reg ∈ detect_registers → ∀ m n, reg m = reg n → m = n.
Proof.
  intros Hreg m n. unfold detect_registers in Hreg.
  repeat (apply elem_of_cons in Hreg as [->|Hreg]; [by intros [= ->] |]). by apply not_elem_of_nil in Hreg.
Qed.

Lemma same_pin g g' : 0 ≤ g → 0 ≤ g' → (bool_decide (g' / 32 = g / 32) && bool_decide (g' mod 32 = g mod 32)) = bool_decide (g' = g).
Proof. intros Hg Hg'. apply eq_true_iff_eq. rewrite andb_true_iff, !bool_decide_eq_true. split; [| by intros ->]. pose proof (Z.div_mod g 32). pose proof (Z.div_mod g' 32). lia. Qed.

(** Switching a kind of event detection on for a pin, or off, does so for this pin and
    leaves that of every other pin as it was, pin 31, whose bit is the sign of an [int],
    included. *)
Theorem detect_switches_one_pin d p reg g : reg ∈ detect_registers → 0 ≤ g →
  ∃ p1 p2, set_detect reg g (Sys d p) = Ok () (Sys d p1) ∧ clear_detect reg g (Sys d p) = Ok () (Sys d p2) ∧
    ∀ g', 0 ≤ g' →
      pin_bit reg p1 g' = (bool_decide (g' = g) || pin_bit reg p g') ∧
      pin_bit reg p2 g' = (negb (bool_decide (g' = g)) && pin_bit reg p g').
Proof.
  intros Hreg Hg. pose proof (detect_registers_inj reg Hreg) as Hinj. pose proof (Z.mod_pos_bound g 32 ltac:(lia)) as Hm.
  unfold set_detect, clear_detect. rewrite Z.quot_div_nonneg by lia. change 31 with (Z.ones 5). rewrite Z.land_ones by lia.
  eexists _, _. split; [reflexivity |]. split; [reflexivity |]. intros g' Hg'.
  pose proof (Z.mod_pos_bound g' 32 ltac:(lia)) as Hm'.
  destruct (detect_mask (g mod 2 ^ 5) (registers p (reg (g / 32))) (g' mod 32)) as [E1 E2]; [done .. |].
  cbn [world registers]. rewrite !pin_bit_update by exact Hinj. rewrite E1, E2. rewrite <- (same_pin g g') by lia. change (g mod 2 ^ 5) with (g mod 32).
  destruct (bool_decide_reflect (g' / 32 = g / 32)) as [Hq|Hq]; [| done]. unfold pin_bit. by rewrite Hq.
Qed.

Lemma detect_switches_one_pin_witness :
  ∃ p1, gpio_set_detect_rising 31 (Sys initial_pulls (Pins (λ _, 0) (λ _, 0))) = Ok () (Sys initial_pulls p1) ∧
    pin_bit GPAREN p1 31 = true ∧ pin_bit GPAREN p1 30 = false.
Proof.
  destruct (detect_switches_one_pin initial_pulls (Pins (λ _, 0) (λ _, 0)) GPAREN 31) as (p1 & p2 & E & _ & H);
    [apply elem_of_cons; right; apply elem_of_cons; right; apply elem_of_cons; by left | lia |].
  exists p1. split; [exact E |]. destruct (H 31 ltac:(lia)) as [-> _]. destruct (H 30 ltac:(lia)) as [-> _]. done.
Defined.

(** ** Resistors *)

(** What the driver remembers is how the resistors are. *)
Definition remembered (d : pulls) (p : pins) : Prop :=
  ∀ g, 0 ≤ g < 54 → Z.testbit (currently_pull_up d) g = bool_decide (resistor p g = 2) ∧
                    Z.testbit (currently_pull_down d) g = bool_decide (resistor p g = 1).

(** At most one pin. *)
Definition one_pin (v : Z) : Prop := v = 0 ∨ ∃ g, 0 ≤ g < 54 ∧ v = 2 ^ g.

Definition sound (d : pulls) (p : pins) : Prop :=
  remembered d p ∧ one_pin (requesting_pull_up d) ∧ one_pin (requesting_pull_down d) ∧
  is_u64 (currently_pull_up d) ∧ is_u64 (currently_pull_down d).

Lemma word_bits v g : is_u64 v → 0 ≤ g < 64 →
  Z.testbit v g = if bool_decide (g < 32) then Z.testbit (low_word v) g else Z.testbit (high_word v) (g - 32).
Proof.
  intros Hv Hg. unfold low_word, high_word, u32. case_bool_decide.
  - rewrite Z.mod_pow2_bits_low by lia. change 0xffffffff with (Z.ones 32).
    rewrite Z.land_spec, ones_testbit, bool_decide_eq_true_2, andb_true_r by lia. done.
  - rewrite Z.mod_pow2_bits_low, Z.shiftr_spec by lia. f_equal. lia.
Qed.

Lemma low_word_high v i : 32 ≤ i → Z.testbit (low_word v) i = false.
Proof. intros. unfold low_word. apply (testbit_above _ 32); [apply u32_range | lia]. Qed.

(** What the sequence of writes does: the pins in [change] have the mode. *)
Lemma change_pulls_runs d p mode change : is_u64 change →
  ∃ p', change_pulls mode change (Sys d p) = Ok () (Sys d p') ∧ registers p' GPPUD = 0 ∧
    ∀ g, 0 ≤ g < 64 → resistor p' g = if Z.testbit change g then mode else resistor p g.
Proof.
  intros Hc. unfold change_pulls.
  destruct (bool_decide_reflect (low_word change ≠ 0)) as [Hl|Hl];
    destruct (bool_decide_reflect (high_word change ≠ 0)) as [Hh|Hh];
    (eexists; split; [reflexivity |]); (split; [reflexivity |]); intros g Hg; cbn; rewrite !Z.testbit_0_l, (word_bits change g) by done.
  all: change (32 * 0) with 0; change (32 * 1) with 32; rewrite ?Z.sub_0_r; case_bool_decide as H32;
    rewrite ?(low_word_high _ g), ?(Z.testbit_neg_r _ (g - 32)) by lia; rewrite ?update_ne, ?update_eq by done; try done.
  all: try (apply dec_stable in Hl; rewrite Hl, Z.testbit_0_l); try (apply dec_stable in Hh; rewrite Hh, Z.testbit_0_l); done.
Qed.

Lemma not64_testbit v i : 0 ≤ i < 64 → Z.testbit (not64 v) i = negb (Z.testbit v i).
Proof. intros Hi. unfold not64, u64. by rewrite Z.mod_pow2_bits_low, Z.lnot_spec by lia. Qed.

Lemma one_pin_u64 v : one_pin v → is_u64 v.
Proof.
  intros [->|(g & Hg & ->)]; unfold is_u64; [lia |]. split; [by apply Z.pow_nonneg |]. apply Z.pow_lt_mono_r; lia.
Qed.

Lemma one_pin_testbit a g : 0 ≤ a → 0 ≤ g → Z.testbit (2 ^ a) g = bool_decide (a = g).
Proof. intros Ha Hg. rewrite Z.pow2_bits_eqb by lia. apply eq_true_iff_eq. by rewrite Z.eqb_eq, bool_decide_eq_true. Qed.

(** A request leaves out a pin that is already as requested; there is only the one. *)
Lemma one_pin_change v w : one_pin v →
  Z.land v (not64 w) = 0 ∧ (∀ g, 0 ≤ g < 64 → Z.testbit v g = true → Z.testbit w g = true) ∨
  Z.land v (not64 w) ≠ 0 ∧ Z.land v (not64 w) = v ∧ (∀ g, 0 ≤ g < 64 → Z.testbit v g = true → Z.testbit w g = false).
Proof.
  intros [->|(a & Ha & ->)]; [left; split; [apply Z.land_0_l | intros g Hg; by rewrite Z.testbit_0_l] |].
  assert (E : Z.land (2 ^ a) (not64 w) = if Z.testbit w a then 0 else 2 ^ a).
  { apply Z.bits_inj_iff'. intros i Hi. rewrite Z.land_spec, one_pin_testbit by lia. case_bool_decide as Hai.
    - subst i. rewrite not64_testbit by lia. destruct (Z.testbit w a); [by rewrite Z.testbit_0_l |].
      by rewrite one_pin_testbit, bool_decide_eq_true_2 by lia.
    - destruct (Z.testbit w a); [by rewrite Z.testbit_0_l |]. by rewrite one_pin_testbit, bool_decide_eq_false_2 by lia. }
  assert (Hon : ∀ g, 0 ≤ g < 64 → Z.testbit (2 ^ a) g = true → a = g).
  { intros g Hg. rewrite one_pin_testbit by lia. apply bool_decide_eq_true. }
  rewrite E. destruct (Z.testbit w a) eqn:Ew; [left | right].
  - split; [done |]. by intros g Hg <-%Hon.
  - split_and!; [apply Z.pow_nonzero; lia | done |]. by intros g Hg <-%Hon.
Qed.

Lemma u64_bits v i : is_u64 v → 64 ≤ i → Z.testbit v i = false.
Proof. intros Hv Hi. by apply (testbit_above v 64). Qed.

(** One direction of [gpio_set_pull_up_down]: [v] is the request, [here] and [there] are what
    the driver remembers of this direction and of the other. *)
Lemma new_memory here there v : is_u64 here → is_u64 there → is_u64 v →
  is_u64 (Z.lor here v) ∧ is_u64 (Z.land there (not64 v)) ∧
  ∀ g, 0 ≤ g < 64 → Z.testbit (Z.lor here v) g = Z.testbit here g || Z.testbit v g ∧
                    Z.testbit (Z.land there (not64 v)) g = Z.testbit there g && negb (Z.testbit v g).
Proof.
  intros Hh Ht Hv. split_and!.
  - split; [apply Z.lor_nonneg; unfold is_u64 in *; lia |]. apply lt_pow2_testbit; [lia | apply Z.lor_nonneg; unfold is_u64 in *; lia |].
    intros i Hi. by rewrite Z.lor_spec, !u64_bits by done.
  - split; [apply Z.land_nonneg; unfold is_u64 in *; lia |]. apply lt_pow2_testbit; [lia | apply Z.land_nonneg; unfold is_u64 in *; lia |].
    intros i Hi. by rewrite Z.land_spec, (u64_bits there) by done.
  - intros g Hg. by rewrite Z.lor_spec, Z.land_spec, not64_testbit.
Qed.

(** What a pin's resistor is to be, first the request to pull up and then the one to pull down. *)
Definition requested (d : pulls) (p : pins) (g : Z) : Z :=
  if Z.testbit (requesting_pull_down d) g && negb (Z.testbit (currently_pull_down d) g) then 1
  else if Z.testbit (requesting_pull_up d) g then 2
  else resistor p g.

Definition pull_up_half (d : pulls) : pulls :=
  set_currently_pull_down (Z.land (currently_pull_down d) (not64 (requesting_pull_up d)))
    (set_currently_pull_up (Z.lor (currently_pull_up d) (requesting_pull_up d)) d).
Definition pull_down_half (d : pulls) : pulls :=
  set_currently_pull_up (Z.land (currently_pull_up d) (not64 (requesting_pull_down d)))
    (set_currently_pull_down (Z.lor (currently_pull_down d) (requesting_pull_down d)) d).

Lemma pull_up_sound d p p' : sound d p →
  (∀ g, 0 ≤ g < 64 → resistor p' g = if Z.testbit (requesting_pull_up d) g then 2 else resistor p g) →
  sound (pull_up_half d) p'.
Proof.
  intros (Hr & Hup & Hdown & Hu & Hd) Hp'.
  destruct (new_memory _ _ _ Hu Hd (one_pin_u64 _ Hup)) as (Hu' & Hd' & Hbits). split_and!; try done.
  intros g Hg. destruct (Hr g Hg) as [Eu Ed]. destruct (Hbits g ltac:(lia)) as [Bu Bd]. cbn. rewrite Bu, Bd, Eu, Ed, Hp' by lia.
  destruct (Z.testbit (requesting_pull_up d) g); [by rewrite orb_true_r, andb_false_r |]. by rewrite orb_false_r, andb_true_r.
Qed.

Lemma pull_down_sound d p p' : sound d p →
  (∀ g, 0 ≤ g < 64 → resistor p' g = if Z.testbit (requesting_pull_down d) g then 1 else resistor p g) →
  sound (pull_down_half d) p'.
Proof.
  intros (Hr & Hup & Hdown & Hu & Hd) Hp'.
  destruct (new_memory _ _ _ Hd Hu (one_pin_u64 _ Hdown)) as (Hd' & Hu' & Hbits). split_and!; try done.
  intros g Hg. destruct (Hr g Hg) as [Eu Ed]. destruct (Hbits g ltac:(lia)) as [Bd Bu]. cbn. rewrite Bu, Bd, Eu, Ed, Hp' by lia.
  destruct (Z.testbit (requesting_pull_down d) g); [by rewrite orb_true_r, andb_false_r |]. by rewrite orb_false_r, andb_true_r.
Qed.

(** The two [if]s.  [change] was computed before the first. *)
Lemma pull_up_runs d p : sound d p →
  ∃ d' p', when (bool_decide (Z.land (requesting_pull_up d) (not64 (currently_pull_up d)) ≠ 0))
      (_ ← change_pulls 2 (Z.land (requesting_pull_up d) (not64 (currently_pull_up d)));
       _ ← upd_var (λ d, set_currently_pull_up (Z.lor (currently_pull_up d) (requesting_pull_up d)) d);
       upd_var (λ d, set_currently_pull_down (Z.land (currently_pull_down d) (not64 (requesting_pull_up d))) d))
      (Sys d p) = Ok () (Sys d' p') ∧ sound d' p' ∧ requesting_pull_down d' = requesting_pull_down d ∧
    ∀ g, 0 ≤ g < 54 → resistor p' g = if Z.testbit (requesting_pull_up d) g then 2 else resistor p g.
Proof.
  intros Hs. pose proof Hs as (Hr & Hup & _). destruct (one_pin_change _ (currently_pull_up d) Hup) as [[E Hon]|(E & Ev & _)].
  - exists d, p. rewrite E, bool_decide_eq_false_2 by (intros H; by apply H). split_and!; [done .. |]. intros g Hg.
    destruct (Z.testbit (requesting_pull_up d) g) eqn:Eg; [| done]. apply Hon in Eg; [| lia].
    destruct (Hr g Hg) as [Hr' _]. rewrite Hr' in Eg. by apply bool_decide_eq_true in Eg.
  - rewrite bool_decide_eq_true_2 by done. rewrite Ev.
    destruct (change_pulls_runs d p 2 (requesting_pull_up d) (one_pin_u64 _ Hup)) as (p' & E1 & _ & Hp').
    exists (pull_up_half d), p'. cbn [when]. unfold mbind, M_bind. rewrite E1. split_and!; try done.
    + by eapply pull_up_sound.
    + intros g Hg. apply Hp'. lia.
Qed.

Lemma pull_down_runs d0 d p : sound d p → one_pin (requesting_pull_down d) →
  let change := Z.land (requesting_pull_down d) (not64 (currently_pull_down d0)) in
  ∃ d' p', when (bool_decide (change ≠ 0))
      (_ ← change_pulls 1 change;
       _ ← upd_var (λ d, set_currently_pull_down (Z.lor (currently_pull_down d) (requesting_pull_down d)) d);
       upd_var (λ d, set_currently_pull_up (Z.land (currently_pull_up d) (not64 (requesting_pull_down d))) d))
      (Sys d p) = Ok () (Sys d' p') ∧ sound d' p' ∧
    ∀ g, 0 ≤ g < 54 → resistor p' g =
      if Z.testbit (requesting_pull_down d) g && negb (Z.testbit (currently_pull_down d0) g) then 1 else resistor p g.
Proof.
  intros Hs Hdown change. unfold change. destruct (one_pin_change _ (currently_pull_down d0) Hdown) as [[E Hon]|(E & Ev & Hoff)].
  - exists d, p. rewrite E, bool_decide_eq_false_2 by (intros H; by apply H). split_and!; [done .. |]. intros g Hg.
    destruct (Z.testbit (requesting_pull_down d) g) eqn:Eg; [| done]. by rewrite (Hon g) by (done || lia).
  - rewrite bool_decide_eq_true_2 by done. rewrite Ev.
    destruct (change_pulls_runs d p 1 (requesting_pull_down d) (one_pin_u64 _ Hdown)) as (p' & E1 & _ & Hp').
    exists (pull_down_half d), p'. cbn [when]. unfold mbind, M_bind. rewrite E1. split_and!; try done.
    + by eapply pull_down_sound.
    + intros g Hg. rewrite Hp' by lia. destruct (Z.testbit (requesting_pull_down d) g) eqn:Eg; [| done].
      by rewrite (Hoff g) by (done || lia).
Qed.

Lemma set_pulls_runs d p : sound d p →
  ∃ d' p', gpio_set_pull_up_down (Sys d p) = Ok () (Sys d' p') ∧ sound d' p' ∧
    requesting_pull_up d' = 0 ∧ requesting_pull_down d' = 0 ∧ ∀ g, 0 ≤ g < 54 → resistor p' g = requested d p g.
Proof.
  intros Hs. destruct (pull_up_runs d p Hs) as (d1 & p1 & E1 & H1 & Er & R1).
  pose proof H1 as (_ & _ & Hdown & _). destruct (pull_down_runs d d1 p1 H1 Hdown) as (d2 & p2 & E2 & H2 & R2).
  rewrite Er in E2, R2.
  exists (set_requesting_pull_down 0 (set_requesting_pull_up 0 d2)), p2. split_and!; try done.
  - unfold gpio_set_pull_up_down. rewrite get_var_ok. cbn [vars id]. cbv zeta. unfold mbind at 1, M_bind at 1. rewrite E1.
    unfold mbind at 1, M_bind at 1. rewrite E2. done.
  - destruct H2 as (Hm & _ & _ & Hu & Hd). split_and!; try done; by left.
  - intros g Hg. unfold requested. by rewrite R2, R1 by done.
Qed.

(** *** Any sequence of calls *)
Inductive gpio_call : Type :=
  | RequestUp (gpio : Z)
  | RequestDown (gpio : Z)
  | SetPulls.

Definition run_call (c : gpio_call) : M (sys pulls pins) unit :=
  match c with
  | RequestUp g => gpio_request_pull_up g
  | RequestDown g => gpio_request_pull_down g
  | SetPulls => gpio_set_pull_up_down
  end.
Fixpoint run_calls (cs : list gpio_call) : M (sys pulls pins) unit :=
  match cs with [] => mret () | c :: cs => _ ← run_call c; run_calls cs end.

Definition valid_call (c : gpio_call) : Prop :=
  match c with RequestUp g | RequestDown g => 0 ≤ g < 54 | SetPulls => True end.

(** The resistors when the chip is reset. *)
Definition reset_pins (p : pins) : Prop := remembered initial_pulls p.

Lemma shift_is_pow g : 0 ≤ g < 54 → u64 (Z.shiftl 1 g) = 2 ^ g.
Proof.
  intros Hg. rewrite Z.shiftl_1_l. apply u64_id. apply one_pin_u64. right. by exists g.
Qed.

Lemma call_sound c d p : valid_call c → sound d p → ∃ d' p', run_call c (Sys d p) = Ok () (Sys d' p') ∧ sound d' p'.
Proof.
  intros Hc Hs. destruct c as [g|g|]; cbn [valid_call] in Hc.
  - eexists _, _. split; [reflexivity |]. destruct Hs as (? & ? & ? & ? & ?). split_and!; try done. cbn. rewrite shift_is_pow by done. right. by exists g.
  - eexists _, _. split; [reflexivity |]. destruct Hs as (? & ? & ? & ? & ?). split_and!; try done. cbn. rewrite shift_is_pow by done. right. by exists g.
  - destruct (set_pulls_runs d p Hs) as (d' & p' & E & H & _). by exists d', p'.
Qed.

(** C28: The chip does not let the resistors be read, and the driver's memory of them is
    exact: from reset on, after any requests and changes of any pins in any order, a bit of
    [currently_pull_up] is set just when that pin is pulled up, and one of [currently_pull_down] just when it is pulled
    down; so never both. *)
Theorem pulls_are_remembered cs p : reset_pins p → Forall valid_call cs →
  ∃ d' p', run_calls cs (Sys initial_pulls p) = Ok () (Sys d' p') ∧ remembered d' p'.
Proof.
  intros Hp Hcs. assert (Hs : sound initial_pulls p) by (split_and!; [done | by left | by left | done | done]).
  clear Hp. generalize dependent p. generalize initial_pulls.
  induction Hcs as [|c cs Hc Hcs IH]; intros d p Hs; [exists d, p; split; [done | apply Hs] |].
  destruct (call_sound c d p Hc Hs) as (d1 & p1 & E1 & H1). destruct (IH d1 p1 H1) as (d2 & p2 & E2 & H2).
  exists d2, p2. split; [| done]. cbn. unfold mbind, M_bind. by rewrite E1.
Qed.

(** The pins as the constants have them. *)
Definition power_on : pins :=
  Pins (λ _, 0) (λ g, if Z.testbit (currently_pull_up initial_pulls) g then 2
                      else if Z.testbit (currently_pull_down initial_pulls) g then 1 else 0).

Lemma power_on_reset : reset_pins power_on.
Proof.
  assert (H : Forall (λ g, Z.testbit (currently_pull_up initial_pulls) g = bool_decide (resistor power_on g = 2) ∧
                           Z.testbit (currently_pull_down initial_pulls) g = bool_decide (resistor power_on g = 1)) (seqZ 0 54)).
  { apply (bool_decide_unpack _). vm_compute. exact I. }
  intros g Hg. rewrite Forall_forall in H. apply H. apply elem_of_seqZ. lia.
Qed.

Lemma pulls_are_remembered_witness :
  ∃ d' p', run_calls [RequestUp 29; RequestDown 2; SetPulls; RequestDown 29; SetPulls] (Sys initial_pulls power_on) = Ok () (Sys d' p') ∧
    remembered d' p'.
Proof.
  apply (pulls_are_remembered [RequestUp 29; RequestDown 2; SetPulls; RequestDown 29; SetPulls] power_on power_on_reset).
  repeat constructor; lia.
Defined.

(** A request that has not been carried out is forgotten when another pin is requested,
    although [gpio_set_pull_up_down] takes requests of several pins: the first pin is left as it was. *)
Theorem pull_request_is_lost d p a b : remembered d p → is_u64 (currently_pull_up d) → is_u64 (currently_pull_down d) →
  requesting_pull_down d = 0 → 0 ≤ a < 54 → 0 ≤ b < 54 → a ≠ b →
  ∃ d' p', run_calls [RequestUp a; RequestUp b; SetPulls] (Sys d p) = Ok () (Sys d' p') ∧
    resistor p' a = resistor p a ∧ resistor p' b = 2 ∧ requesting_pull_up d' = 0.
Proof.
  intros Hr Hu Hd Hdown Ha Hb Hab. pose (d1 := set_requesting_pull_up (2 ^ b) d).
  assert (H1 : sound d1 p). { split_and!; try done; [right; by exists b |]. left. exact Hdown. }
  destruct (set_pulls_runs d1 p H1) as (d' & p' & E & _ & E0 & _ & R). exists d', p'. split_and!; [| | | done].
  - cbn. unfold mbind, M_bind. cbn. rewrite !shift_is_pow by done. fold d1.
    replace (set_requesting_pull_up (2 ^ b) (set_requesting_pull_up (2 ^ a) d)) with d1 by done. by rewrite E.
  - rewrite R by done. unfold requested. cbn. rewrite Hdown, Z.testbit_0_l, one_pin_testbit, bool_decide_eq_false_2 by lia. done.
  - rewrite R by done. unfold requested. cbn. rewrite Hdown, Z.testbit_0_l, one_pin_testbit, bool_decide_eq_true_2 by lia. done.
Qed.
