(* ===== verification/GpuDriver.v ===== *)
(** * The driver of the GPU's devices: its start, its interrupts and the frame buffer

    [drivers/pi3gpu/enter.c] and [drivers/pi3gpu/fb.c].  The kernel calls the interrupt handler
    object with interrupt 8; [interrupt] calls the handlers of the devices whose bit is
    pending.  Section [interrupts] has it over any handlers, and the instance
    [drivers_interrupts] is the driver as it is linked: the timer of [sd.c], [mailbox_interrupt] of
    [GpuMailbox] and [emmc_interrupt] of [SdCard] on the variables of their own files.

    The frame buffer is asked of the GPU once; the request buffer is a static array, so that
    a second request starts from the answer to the first.  [get_frame_buffer] asks until it has a
    block: [tries] bounds that.

    The theorems: which handlers an interrupt runs and in which order; the block of the frame
    buffer covers the GPU's buffer and is asked for once. *)

From S2P Require Import Prelude GpuDevices.
From S2P Require GpuMailbox SdCard.

(** ** Interrupts *)
Record gpu_interrupt_object : Type := Gpu {
  lock : Z;
  count : Z;
  diff : Z;
  slowest_response : Z;
  all_ints : Z;
}.
Definition gpu_interrupt_handler_singleton : gpu_interrupt_object := Gpu 0 0 0 0xffffffff 0.

Definition set_count (v : Z) (o : gpu_interrupt_object) : gpu_interrupt_object :=
  Gpu (lock o) v (diff o) (slowest_response o) (all_ints o).
Definition set_diff (v : Z) (o : gpu_interrupt_object) : gpu_interrupt_object :=
  Gpu (lock o) (count o) v (slowest_response o) (all_ints o).
Definition set_slowest_response (v : Z) (o : gpu_interrupt_object) : gpu_interrupt_object :=
  Gpu (lock o) (count o) (diff o) v (all_ints o).
Definition set_all_ints (v : Z) (o : gpu_interrupt_object) : gpu_interrupt_object :=
  Gpu (lock o) (count o) (diff o) (slowest_response o) v.

Class InterruptWorld (E : Type) : Type := {
  interrupt_devices :: Devices E;
  timer_event : M E unit;
  mailbox_interrupt : M E unit;
  emmc_interrupt : M E unit;
}.

Section interrupts.
Context {E : Type} `{!InterruptWorld E}.

#[local] Abbreviation D := (M (sys gpu_interrupt_object E)).

Definition timer_interrupt : D unit :=
  v ← read (Timer ro_value);
  _ ← upd_var (set_diff v);
  o ← get_var id;
  _ ← when (bool_decide (diff o < slowest_response o)) (upd_var (set_slowest_response (diff o)));
  _ ← write (Timer wo_irq_clear) 1;
  ask timer_event.

(** The [switch]. *)
Definition handle_bit (i : Z) : D unit :=
  match i with
  | 0 => timer_interrupt
  | 1 => ask mailbox_interrupt
  | 20 => ask emmc_interrupt
  | _ => halt (Brk 2)
  end.

(** [if (0 != ((1 << i) & pending))] *)
Definition check_bit (pending i : Z) : D unit :=
  when (bool_decide (Z.land (u32 (Z.shiftl 1 i)) pending ≠ 0)) (handle_bit i).

Definition GPU__INTERRUPT_HANDLER__interrupt : D reply :=
  _ ← upd_var (λ o, set_count (u64 (count o + 1)) o);
  pending ← read (Interrupts IRQ_basic_pending);
  _ ← upd_var (λ o, set_all_ints (Z.lor (all_ints o) pending) o);
  _ ← for_range 32 0 (check_bit pending);
  mret ReturnNothing.
End interrupts.

(** The driver as it is linked.  [time] is the thread that [timer_event] wakes; the
    thread that would set it is not started. *)
Record drivers (E : Type) : Type := Drivers {
  mailboxes_of : GpuMailbox.mailboxes;
  sdcard_of : SdCard.sdcard;
  time : Z;
  outside : E;
}.
Arguments Drivers {E} _ _ _ _.
Arguments mailboxes_of {E} _.
Arguments sdcard_of {E} _.
Arguments time {E} _.
Arguments outside {E} _.

Section linked.
Context {E : Type} `{!GpuMailbox.MailboxWorld E} `{!SdCard.SdWorld E}.

Definition on_outside {A} (m : M E A) : M (drivers E) A := λ s,
  match m (outside s) with
  | Ok a e => Ok a (Drivers (mailboxes_of s) (sdcard_of s) (time s) e)
  | Stop r e => Stop r (Drivers (mailboxes_of s) (sdcard_of s) (time s) e)
  end.
Definition on_mailboxes {A} (m : M (sys GpuMailbox.mailboxes E) A) : M (drivers E) A := λ s,
  match m (Sys (mailboxes_of s) (outside s)) with
  | Ok a s' => Ok a (Drivers (vars s') (sdcard_of s) (time s) (world s'))
  | Stop r s' => Stop r (Drivers (vars s') (sdcard_of s) (time s) (world s'))
  end.
Definition on_sdcard {A} (m : M (sys SdCard.sdcard E) A) : M (drivers E) A := λ s,
  match m (Sys (sdcard_of s) (outside s)) with
  | Ok a s' => Ok a (Drivers (mailboxes_of s) (vars s') (time s) (world s'))
  | Stop r s' => Stop r (Drivers (mailboxes_of s) (vars s') (time s) (world s'))
  end.

Definition linked_timer_event : M (drivers E) unit :=
  t ← gets time;
  when (bool_decide (t ≠ 0)) (on_outside (GpuMailbox.wake_thread t)).

#[local] Existing Instance GpuMailbox.mailbox_devices.
#[export] Instance drivers_devices : Devices (drivers E) := {|
  device_read d := on_outside (device_read d);
  device_write d v := on_outside (device_write d v) |}.
#[export] Instance drivers_interrupts : InterruptWorld (drivers E) := {|
  timer_event := linked_timer_event;
  mailbox_interrupt := on_mailboxes GpuMailbox.mailbox_interrupt;
  emmc_interrupt := on_sdcard SdCard.emmc_interrupt |}.
End linked.

(** ** The start *)
Class StartWorld (E : Type) : Type := {
  start_devices :: Devices E;
  get_device_page : Z → M E Z;                        (* DRIVER_SYSTEM *)
  map_at : Z → Z → M E unit;
  get_physical_memory_block : Z → Z → M E Z;
  set_memory_top : Z → M E unit;
  register_interrupt_handler : Z → Z → M E unit;
  handler_to_pass_to : M E Z;                         (* GPU__INTERRUPT_HANDLER__to_pass_to( system.r, ... ) *)
  allocate_memory : Z → M E Z;                        (* SYSTEM *)
  block_physical_address : Z → M E Z;                 (* PHYSICAL_MEMORY_BLOCK *)
  duplicate_to_return : Z → M E Z;
  store : Z → Z → M E unit;                           (* a word of the driver's memory *)
  mailbox_tag_request : list Z → M E (list Z);        (* [TagRequests]: the buffer before and after *)
  expose_gpu_mailbox : M E unit;
  register_frame_buffer : M E unit;                   (* "Frame Buffer" *)
  expose_emmc : M E unit;
  wait_until_woken : M E unit;
}.

Record gpu_start : Type := GpuStart {
  initialised : bool;
  test_memory : Z;
  mapped_memory : Z;
  mapped_memory_pa : Z;
}.
Definition initial_start : gpu_start := GpuStart false 0 0 0.
Definition set_initialised (v : bool) (d : gpu_start) : gpu_start :=
  GpuStart v (test_memory d) (mapped_memory d) (mapped_memory_pa d).
Definition set_test_memory (v : Z) (d : gpu_start) : gpu_start :=
  GpuStart (initialised d) v (mapped_memory d) (mapped_memory_pa d).
Definition set_mapped_memory (v : Z) (d : gpu_start) : gpu_start :=
  GpuStart (initialised d) (test_memory d) v (mapped_memory_pa d).
Definition set_mapped_memory_pa (v : Z) (d : gpu_start) : gpu_start :=
  GpuStart (initialised d) (test_memory d) (mapped_memory d) v.

Section start.
Context {E : Type} `{!StartWorld E} (devices : Z).

#[local] Abbreviation D := (M (sys gpu_start E)).

Definition map_page (physical virtual : Z) : D unit :=
  device_page ← ask (get_device_page physical);
  ask (map_at device_page virtual).

(** [request[i]] of a buffer that the GPU has answered. *)
Definition word_of {A} (buffer : list Z) (i : Z) (f : Z → M (sys A E) unit) : M (sys A E) unit :=
  match buffer !! Z.to_nat i with Some v => f v | None => halt (Fault i) end.

Definition identify_available_memory : D unit :=
  request ← ask (mailbox_tag_request [32; 0; 0x00010005; 8; 0; 0; 0; 0]);
  word_of request 1 (λ r1, word_of request 4 (λ r4, word_of request 6 (λ r6,
    _ ← guard_stop (bool_decide (r1 ≠ 0x80000000) || bool_decide (r4 ≠ 0x80000008)) (Brk 1);
    ask (set_memory_top r6)))).

(** The five pages are the parts of [devices], which is a struct of pages. *)
Definition entry : D unit :=
  i ← get_var initialised;
  _ ← guard_stop i (Spin 113);
  _ ← upd_var (set_initialised true);
  _ ← map_page 0x3f00b000 devices;
  _ ← map_page 0x3f300000 (devices + 0x1000);
  _ ← map_page 0x3f200000 (devices + 0x2000);
  _ ← map_page 0x3f003000 (devices + 0x3000);
  _ ← map_page 0x3f007000 (devices + 0x4000);
  obj ← ask handler_to_pass_to;
  _ ← ask (register_interrupt_handler obj 8);
  _ ← ask expose_gpu_mailbox;
  t ← ask (allocate_memory 4096);
  _ ← upd_var (set_test_memory t);
  _ ← ask (map_at t 0x10000);
  _ ← upd_var (set_mapped_memory 0x10000);
  pa ← ask (block_physical_address t);
  _ ← upd_var (set_mapped_memory_pa pa);
  _ ← for_range 1024 0 (λ i, ask (store (0x10000 + 4 * i) 0x80000000));
  _ ← write (Interrupts Enable_Basic_IRQs) 2;
  _ ← ask register_frame_buffer;
  _ ← ask expose_emmc;
  ask wait_until_woken.
End start.

(** ** The frame buffer *)
Record frame_buffer : Type := FrameBuffer {
  mailbox_request : list Z;       (* the static array of [initialise_display] *)
  physical_address : Z;
  memory_size : Z;
  screen_page : Z;
  screen_mapped : bool;
}.

Definition initial_request : list Z :=
  [132; 0;
   0x00040001; 8; 0; 0x200000; 0;
   0x00048003; 8; 0; 1920; 1080;
   0x00048004; 8; 0; 1920; 1080;
   0x00048005; 4; 0; 32;
   0x00048006; 4; 0; 0;
   0x0004800a; 16; 0; 24; 24; 24; 24;
   0].
Definition initial_frame_buffer : frame_buffer := FrameBuffer initial_request 0 0 0 false.

Definition set_mailbox_request (v : list Z) (d : frame_buffer) : frame_buffer :=
  FrameBuffer v (physical_address d) (memory_size d) (screen_page d) (screen_mapped d).
Definition set_physical_address (v : Z) (d : frame_buffer) : frame_buffer :=
  FrameBuffer (mailbox_request d) v (memory_size d) (screen_page d) (screen_mapped d).
Definition set_memory_size (v : Z) (d : frame_buffer) : frame_buffer :=
  FrameBuffer (mailbox_request d) (physical_address d) v (screen_page d) (screen_mapped d).
Definition set_screen_page (v : Z) (d : frame_buffer) : frame_buffer :=
  FrameBuffer (mailbox_request d) (physical_address d) (memory_size d) v (screen_mapped d).
Definition set_screen_mapped (v : bool) (d : frame_buffer) : frame_buffer :=
  FrameBuffer (mailbox_request d) (physical_address d) (memory_size d) (screen_page d) v.

(** [(memory_size + (2 << 20) - 1) & ~((2ull << 20) - 1)], kept in a [uint32_t]. *)
Definition fake_size (size : Z) : Z :=
  u32 (Z.land (u32 (size + 0x200000 - 1)) (u64 (Z.lnot (0x200000 - 1)))).

Section frame_buffer.
Context {E : Type} `{!StartWorld E}.

#[local] Abbreviation D := (M (sys frame_buffer E)).

Definition initialise_display : D unit :=
  buffer ← get_var mailbox_request;
  buffer ← ask (mailbox_tag_request buffer);
  _ ← upd_var (set_mailbox_request buffer);
  word_of buffer 5 (λ base, word_of buffer 6 (λ size,
    _ ← upd_var (set_physical_address (Z.land base 0x3fffffff));
    _ ← upd_var (set_memory_size size);
    block ← ask (get_physical_memory_block (Z.land base 0x3fffffff) (fake_size size));
    upd_var (set_screen_page block))).

(** [while (screen_page.r == 0) { initialise_display(); }] *)
Fixpoint find_screen (tries : nat) : D unit :=
  p ← get_var screen_page;
  if bool_decide (p = 0) then
    match tries with
    | O => halt (Spin 68)
    | S tries => _ ← initialise_display; find_screen tries
    end
  else mret ().

Definition map_screen (tries : nat) : D unit :=
  m ← get_var screen_mapped;
  when (negb m)
    (_ ← find_screen tries;
     p ← get_var screen_page;
     _ ← ask (map_at p 0x200000);
     upd_var (set_screen_mapped true)).

Definition FB__FRAME_BUFFER__get_frame_buffer (tries : nat) : D reply :=
  _ ← find_screen tries;
  p ← get_var screen_page;
  r ← ask (duplicate_to_return p);
  mret (Return r).
End frame_buffer.

(** ** The size of the block *)

Lemma fake_size_rounds size : 0 ≤ size → size + 0x200000 - 1 < 2 ^ 32 →
  fake_size size = (size + 0x200000 - 1) / 0x200000 * 0x200000.
Proof.
  intros Hs Hlim. unfold fake_size. rewrite (u32_id (size + 0x200000 - 1)) by (unfold is_u32; lia).
  set (n := size + 0x200000 - 1) in *. transitivity (Z.shiftl (Z.shiftr n 21) 21).
  - change (0x200000 - 1) with (Z.ones 21). apply Z.bits_inj_iff'. intros i Hi. unfold u32, u64.
    rewrite Z.shiftl_spec by lia. destruct (decide (i < 32)).
    + rewrite Z.mod_pow2_bits_low, Z.land_spec, Z.mod_pow2_bits_low, Z.lnot_spec, ones_testbit by lia.
      destruct (decide (i < 21)).
      * rewrite (Z.testbit_neg_r _ (i - 21)), bool_decide_eq_true_2, andb_false_r by lia. done.
      * rewrite Z.shiftr_spec, bool_decide_eq_false_2, andb_true_r by lia. f_equal. lia.
    + rewrite Z.mod_pow2_bits_high, Z.shiftr_spec by lia. symmetry. apply (testbit_above _ 32); lia.
  - by rewrite Z.shiftr_div_pow2, Z.shiftl_mul_pow2 by lia.
Qed.

Lemma fake_size_covers size : 0 ≤ size ≤ 2 ^ 32 - 2 ^ 21 →
  size ≤ fake_size size ∧ fake_size size < size + 2 ^ 21 ∧ fake_size size mod 2 ^ 21 = 0.
Proof.
  intros Hs. rewrite fake_size_rounds by lia. change (2 ^ 21) with 0x200000.
  pose proof (Z.div_mod (size + 0x200000 - 1) 0x200000). pose proof (Z.mod_pos_bound (size + 0x200000 - 1) 0x200000).
  split_and!; [lia | lia |]. apply Z.mod_mul. lia.
Qed.

(** ** What an interrupt does *)

Lemma bit_checked pending i : 0 ≤ i < 32 →
  bool_decide (Z.land (u32 (Z.shiftl 1 i)) pending ≠ 0) = Z.testbit pending i.
Proof.
  intros Hi. rewrite Z.shiftl_1_l, u32_id by (pose proof (Z.pow_lt_mono_r 2 i 32); pose proof (Z.pow_nonneg 2 i); unfold is_u32; lia).
  assert (E : Z.land (2 ^ i) pending = if Z.testbit pending i then 2 ^ i else 0).
  { apply Z.bits_inj_iff'. intros j Hj. rewrite Z.land_spec, Z.pow2_bits_eqb by lia. destruct (Z.eqb_spec i j) as [<-|Hne].
    - destruct (Z.testbit pending i); [by rewrite Z.pow2_bits_true by lia | by rewrite Z.testbit_0_l].
    - destruct (Z.testbit pending i); [by rewrite Z.pow2_bits_false by lia | by rewrite Z.testbit_0_l]. }
  rewrite E. pose proof (Z.pow_nonzero 2 i ltac:(lia) ltac:(lia)).
  destruct (Z.testbit pending i); [by apply bool_decide_eq_true_2 |]. apply bool_decide_eq_false_2. intros Hn. by apply Hn.
Qed.

Section interrupt_facts.
Context {E : Type} `{!InterruptWorld E} (pending : Z).

Definition other_bit (i : Z) : Prop := 0 ≤ i < 32 ∧ i ≠ 0 ∧ i ≠ 1 ∧ i ≠ 20.

Lemma check_is_when i : 0 ≤ i < 32 →
  check_bit (E := E) pending i = when (Z.testbit pending i) (handle_bit i).
Proof. intros Hi. unfold check_bit. by rewrite bit_checked. Qed.

Lemma quiet_bits n from (s : sys gpu_interrupt_object E) : 0 ≤ from → from + Z.of_nat n ≤ 32 →
  (∀ i, from ≤ i < from + Z.of_nat n → Z.testbit pending i = false) →
  for_range n from (check_bit pending) s = Ok () s.
Proof.
  revert from. induction n as [|n IH]; intros from Hf Hn Hq; [done |]. cbn [for_range].
  rewrite check_is_when, Hq by lia. unfold when. rewrite (bind_ok _ _ s () s) by done. apply IH; [lia | lia |].
  intros i Hi. apply Hq. lia.
Qed.

Lemma for_range_bit n from (f : M (sys gpu_interrupt_object E) unit) s s' : 0 ≤ from < 32 →
  (when (Z.testbit pending from) (handle_bit from)) s = Ok () s' →
  for_range (S n) from (check_bit pending) s = for_range n (from + 1) (check_bit pending) s'.
Proof. intros Hf Hs. cbn [for_range]. rewrite check_is_when by done. by rewrite (bind_ok _ _ s () s'). Qed.

Lemma handle_other i (s : sys gpu_interrupt_object E) : other_bit i → handle_bit i s = Stop (Brk 2) s.
Proof.
  intros (Hi & H0 & H1 & H20). unfold handle_bit, halt. destruct i as [|p|p]; [done | | done].
  repeat (destruct p as [p|p|]; try done).
Qed.

Lemma for_range_stops n from i (s : sys gpu_interrupt_object E) : 0 ≤ from → from + Z.of_nat n ≤ 32 →
  from ≤ i < from + Z.of_nat n → other_bit i → Z.testbit pending i = true →
  ∃ r s', for_range n from (check_bit pending) s = Stop r s'.
Proof.
  revert from s. induction n as [|n IH]; intros from s Hf Hn Hi Ho Hb; [lia |]. cbn [for_range].
  destruct (check_bit pending from s) as [[] s1|r s1] eqn:Ec; [| exists r, s1; by rewrite (bind_stop _ _ s r s1)].
  rewrite (bind_ok _ _ s () s1) by done. destruct (decide (i = from)) as [->|Hne].
  - rewrite check_is_when, Hb in Ec by lia. cbn [when] in Ec. by rewrite handle_other in Ec.
  - apply IH; [lia .. | done | done].
Qed.
End interrupt_facts.

Lemma for_range_app {S} n m from (body : Z → M S unit) s :
  for_range (n + m) from body s = (_ ← for_range n from body; for_range m (from + Z.of_nat n) body) s.
Proof.
  revert from s. induction n as [|n IH]; intros from s; [by rewrite Z.add_0_r |]. cbn [Nat.add for_range].
  unfold mbind, M_bind. destruct (body from s) as [[] s1|]; [| done]. rewrite IH. unfold mbind, M_bind.
  by replace (from + 1 + Z.of_nat n) with (from + Z.of_nat (Datatypes.S n)) by lia.
Qed.

Lemma for_range_cons {S} n from (body : Z → M S unit) s :
  for_range (Datatypes.S n) from body s = (_ ← body from; for_range n (from + 1) body) s.
Proof. done. Qed.

Section dispatch.
Context {E : Type} `{!InterruptWorld E}.

Lemma pending_loop pending (s : sys gpu_interrupt_object E) : (∀ i, other_bit i → Z.testbit pending i = false) →
  for_range 32 0 (check_bit pending) s =
  (_ ← when (Z.testbit pending 0) timer_interrupt;
   _ ← when (Z.testbit pending 1) (ask mailbox_interrupt);
   when (Z.testbit pending 20) (ask emmc_interrupt)) s.
Proof.
  intros Hq. rewrite (for_range_cons 31), check_is_when by lia. cbn [handle_bit]. unfold mbind, M_bind.
  destruct (when _ _ s) as [[] s1|]; [| done]. change (0 + 1) with 1.
  rewrite (for_range_cons 30), check_is_when by lia. cbn [handle_bit]. unfold mbind, M_bind.
  destruct (when _ _ s1) as [[] s2|]; [| done]. change (1 + 1) with 2. rewrite (for_range_app 18 12). unfold mbind, M_bind.
  rewrite quiet_bits by (first [lia | intros; apply Hq; unfold other_bit; lia]). change (2 + Z.of_nat 18) with 20.
  rewrite (for_range_cons 11), check_is_when by lia. cbn [handle_bit]. unfold mbind, M_bind.
  destruct (when _ _ s2) as [[] s3|]; [| done]. change (20 + 1) with 21.
  rewrite quiet_bits by (first [lia | intros; apply Hq; unfold other_bit; lia]). done.
Qed.

(** C36: An interrupt of the GPU is counted, and runs the handlers of the devices that are
    pending: the timer's, then the mailbox's, then the SD controller's, each once and the others not at all.
    With any other bit pending it does not return. *)
Theorem interrupt_runs_pending_handlers (s : sys gpu_interrupt_object E) pending w1 :
  device_read (Interrupts IRQ_basic_pending) (world s) = Ok pending w1 →
  let o := vars s in
  let s1 := Sys (set_all_ints (Z.lor (all_ints o) pending) (set_count (u64 (count o + 1)) o)) w1 in
  ((∀ i, other_bit i → Z.testbit pending i = false) →
     GPU__INTERRUPT_HANDLER__interrupt s =
     (_ ← when (Z.testbit pending 0) timer_interrupt;
      _ ← when (Z.testbit pending 1) (ask mailbox_interrupt);
      _ ← when (Z.testbit pending 20) (ask emmc_interrupt);
      mret ReturnNothing) s1) ∧
  (∀ i, other_bit i → Z.testbit pending i = true → ∃ r s', GPU__INTERRUPT_HANDLER__interrupt s = Stop r s').
Proof.
  intros Hread o s1. destruct s as [v w].
  assert (E1 : GPU__INTERRUPT_HANDLER__interrupt (Sys v w) = (_ ← for_range 32 0 (check_bit pending); mret ReturnNothing) s1).
  { unfold GPU__INTERRUPT_HANDLER__interrupt. rewrite upd_var_ok. unfold read. by rewrite (ask_known _ _ _ w pending w1). }
  rewrite E1. split.
  - intros Hq. unfold mbind, M_bind. rewrite pending_loop by done. unfold mbind, M_bind.
    destruct (when _ _ s1) as [[] s2|]; [| done]. by destruct (when _ _ s2) as [[] s3|].
  - intros i Hi Hb. destruct (for_range_stops pending 32 0 i s1) as (r & s' & Es); [lia | lia | unfold other_bit in Hi; lia | done | done |].
    exists r, s'. by rewrite (bind_stop _ _ s1 r s').
Qed.

Lemma timer_keeps_slowest (s : sys gpu_interrupt_object E) s' : timer_interrupt s = Ok () s' →
  slowest_response (vars s') = Z.min (slowest_response (vars s)) (diff (vars s')) ∧ count (vars s') = count (vars s).
Proof.
  destruct s as [v w]. unfold timer_interrupt, read. unfold mbind at 1, M_bind at 1. destruct (ask _ _) as [x s1|] eqn:Er; [| done].
  apply ask_inv in Er as [Ev _]. rewrite upd_var_ok, get_var_ok. cbn [vars id]. unfold mbind at 1, M_bind at 1.
  intros Hs. destruct s1 as [v1 w1]. cbn [vars world] in *. subst v1.
  assert (Hend : ∀ u : sys gpu_interrupt_object E, (_ ← write (Timer wo_irq_clear) 1; ask timer_event) u = Ok () s' → vars s' = vars u).
  { intros u Hu. apply bind_ok_inv in Hu as ([] & u1 & H1 & H2). apply ask_inv in H1 as [H1 _]. apply ask_inv in H2 as [H2 _].
    by rewrite H2, H1. }
  case_bool_decide as Hlt; cbn [when upd_var modify mret M_ret] in Hs; apply Hend in Hs; rewrite Hs; cbn in *; lia.
Qed.
End dispatch.

(** The linked driver on a board: the timer and the mailbox are pending, and a message for
    channel 8 has come. *)
#[local] Instance board_mailboxes : GpuMailbox.MailboxWorld board := {|
  GpuMailbox.mailbox_devices := board_devices;
  GpuMailbox.wake_thread t := modify (record (Does 1 [t]));
  GpuMailbox.wait_until_woken := mret 0;
  GpuMailbox.sleep_ms _ := mret tt;
  GpuMailbox.create_thread := mret 0;
  GpuMailbox.incoming_message _ _ := mret tt;
  GpuMailbox.interface_to_return i := mret i |}.
#[local] Instance board_sd : SdCard.SdWorld board := {|
  SdCard.sd_devices := board_devices;
  SdCard.interrupts_due := mret 0%nat;
  SdCard.interrupt_awaited := mret false;
  SdCard.sleep_ms _ := mret tt;
  SdCard.mailbox_tag_request l := mret l;
  SdCard.physical_address_of a := mret a;
  SdCard.block_is_read_only _ := mret false;
  SdCard.block_size_of _ := mret 0;
  SdCard.block_physical_address _ := mret 0;
  SdCard.register_service := mret tt |}.

Definition pending_board : board :=
  Board [(Interrupts IRQ_basic_pending, 3); (Timer ro_value, 5); (Mailbox 0 config, 0x10); (Mailbox 0 status, 0);
         (Mailbox 0 value, 0x1238); (Mailbox 0 status, 0x40000000)] [].
Definition waiting_mailboxes : GpuMailbox.mailboxes :=
  GpuMailbox.Mailboxes (replicate 16 (GpuMailbox.Channel false 7 0 0)) 0 0 0.
Definition pending_drivers : drivers board := Drivers waiting_mailboxes SdCard.initial_sdcard 0 pending_board.

Lemma interrupt_runs_pending_handlers_witness :
  ∃ s' : sys gpu_interrupt_object (drivers board),
    GPU__INTERRUPT_HANDLER__interrupt (Sys gpu_interrupt_handler_singleton pending_drivers) = Ok ReturnNothing s' ∧
    slowest_response (vars s') = 5 ∧
    (GpuMailbox.received_message <$> GpuMailbox.channels (mailboxes_of (world s')) !! 8%nat) = Some 0x1230 ∧
    head (accesses (outside (world s'))) = Some (Reads (Mailbox 0 status) 0x40000000).
Proof.
  eexists. split.
  - pose proof (interrupt_runs_pending_handlers (Sys gpu_interrupt_handler_singleton pending_drivers) 3
      (Drivers waiting_mailboxes SdCard.initial_sdcard 0
         (Board (tail (script pending_board)) [Reads (Interrupts IRQ_basic_pending) 3]))) as H.
    destruct H as [E _]; [vm_compute; reflexivity |].
    rewrite E; [vm_compute; reflexivity |].
    intros i (Hi & H0 & H1 & _). change 3 with (Z.ones 2). apply Z.ones_spec_high. lia.
  - split; [reflexivity | split; reflexivity].
Defined.

(** ** What the frame buffer is *)
Section frame_buffer_facts.
Context {E : Type} `{!StartWorld E}.

Lemma word_of_ok {A} buffer i v (f : Z → M (sys A E) unit) s : buffer !! Z.to_nat i = Some v → word_of buffer i f s = f v s.
Proof. intros H. unfold word_of. by rewrite H. Qed.

(** The driver's variables when the GPU has answered. *)
Definition answered (answer : list Z) (base size block : Z) (d : frame_buffer) : frame_buffer :=
  FrameBuffer answer (Z.land base 0x3fffffff) size block (screen_mapped d).

Lemma initialise_display_runs d w w1 w2 answer base size block :
  mailbox_tag_request (mailbox_request d) w = Ok answer w1 → answer !! 5%nat = Some base → answer !! 6%nat = Some size →
  get_physical_memory_block (Z.land base 0x3fffffff) (fake_size size) w1 = Ok block w2 →
  initialise_display (Sys d w) = Ok () (Sys (answered answer base size block d) w2).
Proof.
  intros Ht Hb Hs Hg. unfold initialise_display. rewrite get_var_ok. cbn [vars]. rewrite (ask_known _ _ _ w answer w1) by done.
  rewrite upd_var_ok. cbn [vars world]. rewrite (word_of_ok _ 5 base), (word_of_ok _ 6 size) by done.
  rewrite !upd_var_ok. cbn [vars world]. by rewrite (ask_known _ _ _ w1 block w2).
Qed.

Lemma get_frame_buffer_known tries d w : screen_page d ≠ 0 →
  FB__FRAME_BUFFER__get_frame_buffer tries (Sys d w) = (r ← ask (duplicate_to_return (screen_page d)); mret (Return r)) (Sys d w).
Proof.
  intros Hp. unfold FB__FRAME_BUFFER__get_frame_buffer.
  assert (Ef : find_screen tries (Sys d w) = Ok () (Sys d w)).
  { destruct tries; unfold find_screen; fold find_screen; rewrite get_var_ok; cbn [vars]; by rewrite bool_decide_eq_false_2. }
  rewrite (bind_ok _ _ _ _ _ Ef). by rewrite get_var_ok.
Qed.

(** The first caller's request for the frame buffer asks the GPU and then the system
    driver for the block; the block is whole 2 megabyte units, covers all that the GPU gave and less than one
    unit more, and begins at the ARM's address of it.  Every later request is
    answered with the same block and asks nobody. *)
Theorem frame_buffer_is_found_once d w w1 w2 answer base size block tries :
  screen_page d = 0 → mailbox_tag_request (mailbox_request d) w = Ok answer w1 →
  answer !! 5%nat = Some base → answer !! 6%nat = Some size → 0 ≤ size ≤ 2 ^ 32 - 2 ^ 21 →
  get_physical_memory_block (Z.land base 0x3fffffff) (fake_size size) w1 = Ok block w2 → block ≠ 0 →
  let d' := answered answer base size block d in
  FB__FRAME_BUFFER__get_frame_buffer (S tries) (Sys d w) =
    (r ← ask (duplicate_to_return block); mret (Return r)) (Sys d' w2) ∧
  size ≤ fake_size size < size + 2 ^ 21 ∧ fake_size size mod 2 ^ 21 = 0 ∧
  ∀ later w', FB__FRAME_BUFFER__get_frame_buffer later (Sys d' w') =
    (r ← ask (duplicate_to_return block); mret (Return r)) (Sys d' w').
Proof.
  intros Hp Ht Hb Hs Hlim Hg Hblock d'. pose proof (initialise_display_runs d w w1 w2 answer base size block Ht Hb Hs Hg) as Ei.
  assert (Hd' : screen_page d' ≠ 0) by done. split_and!.
  - transitivity (FB__FRAME_BUFFER__get_frame_buffer tries (Sys d' w2)); [| by apply get_frame_buffer_known].
    unfold FB__FRAME_BUFFER__get_frame_buffer.
    assert (Ef : find_screen (S tries) (Sys d w) = find_screen tries (Sys d' w2)).
    { cbn [find_screen]. rewrite get_var_ok. cbn [vars]. rewrite bool_decide_eq_true_2 by done. by rewrite (bind_ok _ _ _ _ _ Ei). }
    unfold mbind, M_bind. by rewrite Ef.
  - by apply fake_size_covers.
  - by apply fake_size_covers.
  - by apply fake_size_covers.
  - intros later w'. by apply get_frame_buffer_known.
Qed.

(** When the system driver has no block yet, the next round sends the answer to the first
    request as a request: its second word is the response code, where a request has 0, and the alignment that it asks
    for is the address of the buffer. *)
Theorem retry_sends_the_answer d w w1 w2 answer base size tries :
  screen_page d = 0 → mailbox_tag_request (mailbox_request d) w = Ok answer w1 →
  answer !! 5%nat = Some base → answer !! 6%nat = Some size →
  get_physical_memory_block (Z.land base 0x3fffffff) (fake_size size) w1 = Ok 0 w2 →
  find_screen (S tries) (Sys d w) = find_screen tries (Sys (answered answer base size 0 d) w2) ∧
  mailbox_request (answered answer base size 0 d) = answer.
Proof.
  intros Hp Ht Hb Hs Hg. split; [| done]. cbn [find_screen]. rewrite get_var_ok. cbn [vars].
  rewrite bool_decide_eq_true_2 by done. by rewrite (bind_ok _ _ _ _ _ (initialise_display_runs d w w1 w2 answer base size 0 Ht Hb Hs Hg)).
Qed.
End frame_buffer_facts.

(** A start on a board: a GPU that answers the request of the frame buffer, and every block
    is [0x77]. *)
#[local] Instance board_start : StartWorld board := {|
  start_devices := board_devices;
  get_device_page p := λ b, Ok p (record (Does 1 [p]) b);
  map_at block a := modify (record (Does 2 [block; a]));
  get_physical_memory_block base size := λ b, Ok 0x77 (record (Does 3 [base; size]) b);
  set_memory_top v := modify (record (Does 4 [v]));
  register_interrupt_handler o n := modify (record (Does 5 [o; n]));
  handler_to_pass_to := mret 0x99;
  allocate_memory n := λ b, Ok 0x88 (record (Does 6 [n]) b);
  block_physical_address b := mret 0x123000;
  duplicate_to_return b := mret (b + 1);
  store a v := mret tt;
  mailbox_tag_request l := λ b, Ok (<[1%nat := 0x80000000]> (<[4%nat := 0x80000008]> (<[5%nat := 0xfe402000]> (<[6%nat := 0x7e9000]> l)))) (record (Does 7 l) b);
  expose_gpu_mailbox := mret tt;
  register_frame_buffer := mret tt;
  expose_emmc := mret tt;
  wait_until_woken := mret tt |}.

Lemma frame_buffer_is_found_once_witness :
  FB__FRAME_BUFFER__get_frame_buffer 1 (Sys initial_frame_buffer (Board [] [])) =
    Ok (Return 0x78) (Sys (answered (<[1%nat := 0x80000000]> (<[4%nat := 0x80000008]> (<[5%nat := 0xfe402000]> (<[6%nat := 0x7e9000]> initial_request))))
                             0xfe402000 0x7e9000 0x77 initial_frame_buffer)
                        (Board [] [Does 3 [0x3e402000; 0x800000]; Does 7 initial_request])) ∧
  0x7e9000 ≤ fake_size 0x7e9000.
Proof.
  pose proof (frame_buffer_is_found_once initial_frame_buffer (Board [] []) (Board [] [Does 7 initial_request])
    (Board [] [Does 3 [0x3e402000; 0x800000]; Does 7 initial_request])
    (<[1%nat := 0x80000000]> (<[4%nat := 0x80000008]> (<[5%nat := 0xfe402000]> (<[6%nat := 0x7e9000]> initial_request))))
    0xfe402000 0x7e9000 0x77 0) as H.
  destruct H as (E1 & E2 & _); [reflexivity | reflexivity | reflexivity | reflexivity | lia | reflexivity | lia |].
  split; [rewrite E1; reflexivity | apply E2].
Defined.

(** The devices are mapped and the handler registered before anything is exposed. *)
Example start_maps_devices :
  match entry 0x100000 (Sys initial_start (Board [] [])) with
  | Ok _ s => rev (accesses (world s)) =
      [Does 1 [0x3f00b000]; Does 2 [0x3f00b000; 0x100000]; Does 1 [0x3f300000]; Does 2 [0x3f300000; 0x101000];
       Does 1 [0x3f200000]; Does 2 [0x3f200000; 0x102000]; Does 1 [0x3f003000]; Does 2 [0x3f003000; 0x103000];
       Does 1 [0x3f007000]; Does 2 [0x3f007000; 0x104000]; Does 5 [0x99; 8]; Does 6 [0x1000]; Does 2 [0x88; 0x10000];
       Writes (Interrupts Enable_Basic_IRQs) 2] ∧ vars s = GpuStart true 0x88 0x10000 0x123000
  | Stop _ _ => False
  end.
Proof. vm_compute. split; reflexivity. Qed.
