(* ===== verification/Aarch64.v ===== *)
(** * The AArch64 instructions of the assembly in the repository

    The vectors, the world switch and the veneers are assembly.  This file is the
    processor they run on, as far as they use it: the general registers, the banked
    stack pointers, the system registers they name, the exclusive monitor, and a memory
    of 64-bit words.  A program is a list of labels and instructions in the order of the
    source; [step] runs the instruction at a position, [run] a number of steps.  Barriers,
    cache and TLB maintenance change nothing here.

    The vectors and the world switch work on one 32MB region at two addresses: secure
    EL1 has it at [himem_offset], EL2 and EL3 at its physical address.  [physical] takes
    both to the word that is accessed. *)

From stdpp Require Import base list strings.
From Stdlib Require Import ZArith Lia.
From S2P Require Import Prelude Kernel.

Open Scope Z_scope.

(** ** Registers and the state of a core *)

(** A general register, the stack pointer of the current level, or the zero register. *)
Inductive register := X (n : Z) | SP | XZR.

(** The system registers that the assembly reads or writes. *)
Inductive system_register :=
| mair_el1 | sctlr_el1 | tcr_el1 | ttbr0_el1 | ttbr1_el1 | vbar_el1 | actlr_el1
| fpexc32_el2 | esr_el1 | far_el1 | vttbr_el2 | hcr_el2 | hstr_el2 | vmpidr_el2
| vpidr_el2 | vtcr_el2 | dacr32_el2 | contextidr_el1
| elr_el1 | elr_el2 | elr_el3 | spsr_el1 | spsr_el2 | spsr_el3
| esr_el2 | far_el2 | hpfar_el2 | scr_el3 | vbar_el2 | vbar_el3 | mdcr_el2 | mdcr_el3.

#[export] Instance system_register_eq_dec : EqDecision system_register.
Proof. solve_decision. Defined.

(** The thirty-one general registers. *)
Record registers := Registers {
  x0 : Z; x1 : Z; x2 : Z; x3 : Z; x4 : Z; x5 : Z; x6 : Z; x7 : Z; x8 : Z; x9 : Z; x10 : Z;
  x11 : Z; x12 : Z; x13 : Z; x14 : Z; x15 : Z; x16 : Z; x17 : Z; x18 : Z; x19 : Z; x20 : Z;
  x21 : Z; x22 : Z; x23 : Z; x24 : Z; x25 : Z; x26 : Z; x27 : Z; x28 : Z; x29 : Z; x30 : Z;
}.

Definition registers_list (r : registers) : list Z :=
  [ x0 r; x1 r; x2 r; x3 r; x4 r; x5 r; x6 r; x7 r; x8 r; x9 r; x10 r; x11 r; x12 r; x13 r;
  x14 r; x15 r; x16 r; x17 r; x18 r; x19 r; x20 r; x21 r; x22 r; x23 r; x24 r; x25 r; x26 r;
  x27 r; x28 r; x29 r; x30 r ].

Definition registers_of (l : list Z) (r : registers) : registers :=
  match l with
  | [x0; x1; x2; x3; x4; x5; x6; x7; x8; x9; x10; x11; x12; x13; x14; x15; x16; x17; x18;
  x19; x20; x21; x22; x23; x24; x25; x26; x27; x28; x29; x30] =>
      Registers x0 x1 x2 x3 x4 x5 x6 x7 x8 x9 x10 x11 x12 x13 x14 x15 x16 x17 x18 x19 x20
      x21 x22 x23 x24 x25 x26 x27 x28 x29 x30
  | _ => r
  end.

Fixpoint put (l : list Z) (n : nat) (v : Z) : list Z :=
  match l, n with
  | [], _ => []
  | _ :: l, O => v :: l
  | w :: l, S n => w :: put l n v
  end.

(** [stack n] is SP_EL[n], [flag_z] the zero flag, [monitor] the address the exclusive
    monitor watches. *)
Record cpu := Cpu {
  general : registers;
  stack : Z → Z;
  level : Z;
  sys : system_register → Z;
  words : Z → Z;
  flag_z : bool;
  monitor : option Z;
}.

(** The register [X n]. *)
Definition x (c : cpu) (n : Z) : Z := nth (Z.to_nat n) (registers_list (general c)) 0.

Definition upd (f : Z → Z) (n v : Z) : Z → Z := λ m, if m =? n then v else f m.

(** A word of memory is changed; kept apart from [upd] so that addresses are compared by
    lemmas and register numbers by computation. *)
Definition upd_word (f : Z → Z) (a v : Z) : Z → Z := λ b, if b =? a then v else f b.

Definition upd_sys (f : system_register → Z) (r : system_register) (v : Z) : system_register → Z :=
  λ s, if decide (s = r) then v else f s.

(** The kernel's 32MB, seen through [lomem_bits]. *)
Definition lomem_bits : Z := 32 * 1024 * 1024 - 1.

Definition physical (a : Z) : Z := Z.land a lomem_bits.

Definition load (c : cpu) (a : Z) : Z := words c (physical a).

(** ** Instructions *)

Inductive address :=
| Offset (base : register) (offset : Z)     (** [[base, #offset]] *)
| PreIndex (base : register) (offset : Z)   (** [[base, #offset]!] *)
| PostIndex (base : register) (offset : Z). (** [[base], #offset] *)

Inductive instruction :=
| LDP (r1 r2 : register) (a : address)
| STP (r1 r2 : register) (a : address)
| LDR (r : register) (a : address)
| LDRL (r : register) (symbol : string) (** a 32-bit literal *)
| STR (r : register) (a : address)
| LDXR (r base : register)
| STXR (status r base : register)
| MOV (d s : register)
| MOVI (d : register) (v : Z)
| MOVK (d : register) (v : Z)
| ADDI (d s : register) (v : Z)
| ANDI (d s : register) (v : Z)
| ORRI (d s : register) (v : Z)
| EORI (d s : register) (v : Z)
| CMP (r1 r2 : register)
| CMPI (r : register) (v : Z)
| MRS (d : register) (s : system_register)
| MSR (s : system_register) (r : register)
| MRS_sp_el0 (d : register)
| MSR_sp_el0 (r : register)
| MRS_CurrentEL (d : register)
| ADR (d : register) (symbol : string)
| B (l : string)
| BL (l : string)
| BLR (r : register)
| BEQ (l : string)
| BNE (l : string)
| CBZ (r : register) (l : string)
| CBNZ (r : register) (l : string)
| TBZ (r : register) (bit : Z) (l : string)
| TBNZ (r : register) (bit : Z) (l : string)
| RET
| ERET
| SVC (n : Z)
| SMC (n : Z)
| NOP (barrier : string).

(** A line of the assembly: a label or an instruction. *)
Inductive line := Label (l : string) | Do (i : instruction).

Definition assembly := list line.

(** The instruction at a position, counted in instructions. *)
Fixpoint fetch (p : assembly) (n : nat) : option instruction :=
  match p with
  | [] => None
  | Label _ :: p => fetch p n
  | Do i :: p => match n with O => Some i | S n => fetch p n end
  end.

(** The position of a label. *)
Fixpoint position (p : assembly) (l : string) : option nat :=
  match p with
  | [] => None
  | Label l' :: p => if String.eqb l l' then Some O else position p l
  | Do _ :: p => option_map S (position p l)
  end.

(** The number of instructions. *)
Fixpoint instructions (p : assembly) : nat :=
  match p with
  | [] => O
  | Label _ :: p => instructions p
  | Do _ :: p => S (instructions p)
  end.

(** ** Running *)

Definition reg (c : cpu) (r : register) : Z :=
  match r with X n => x c n | SP => stack c (level c) | XZR => 0 end.

Definition set_general (r : registers) (c : cpu) : cpu :=
  Cpu r (stack c) (level c) (sys c) (words c) (flag_z c) (monitor c).

Definition set_stack (f : Z → Z) (c : cpu) : cpu :=
  Cpu (general c) f (level c) (sys c) (words c) (flag_z c) (monitor c).

Definition set_level (n : Z) (c : cpu) : cpu :=
  Cpu (general c) (stack c) n (sys c) (words c) (flag_z c) (monitor c).

Definition set_sys (f : system_register → Z) (c : cpu) : cpu :=
  Cpu (general c) (stack c) (level c) f (words c) (flag_z c) (monitor c).

Definition set_words (f : Z → Z) (c : cpu) : cpu :=
  Cpu (general c) (stack c) (level c) (sys c) f (flag_z c) (monitor c).

Definition set_flag_z (b : bool) (c : cpu) : cpu :=
  Cpu (general c) (stack c) (level c) (sys c) (words c) b (monitor c).

Definition set_monitor (m : option Z) (c : cpu) : cpu :=
  Cpu (general c) (stack c) (level c) (sys c) (words c) (flag_z c) m.

Definition set_reg (r : register) (v : Z) (c : cpu) : cpu :=
  match r with
  | X n => set_general (registers_of (put (registers_list (general c)) (Z.to_nat n) v) (general c)) c
  | SP => set_stack (upd (stack c) (level c) v) c
  | XZR => c
  end.

Definition store (a v : Z) (c : cpu) : cpu := set_words (upd_word (words c) (physical a) v) c.

Definition write_sys (s : system_register) (v : Z) (c : cpu) : cpu := set_sys (upd_sys (sys c) s v) c.

(** The address an operand names, and the base register afterwards. *)
Definition effective (c : cpu) (a : address) : Z :=
  match a with
  | Offset b o | PreIndex b o => u64 (reg c b + o)
  | PostIndex b _ => reg c b
  end.

Definition write_back (a : address) (c : cpu) : cpu :=
  match a with
  | Offset _ _ => c
  | PreIndex b o | PostIndex b o => set_reg b (u64 (reg c b + o)) c
  end.

(** What a step leads to: the next position, or control leaves the program. *)
Inductive outcome :=
| At (n : nat) (c : cpu)
| Leaves (l : string) (c : cpu)   (** a branch to a label of other code *)
| Calls (r : Z) (c : cpu)         (** a branch to an address in a register *)
| Erets (c : cpu)                 (** an exception return *)
| Svcs (number : Z) (n : nat) (c : cpu)
| Smcs (number : Z) (n : nat) (c : cpu)
| Undefined (c : cpu).

Section run.
(** [base] is the address of the program, [symbol] the addresses of the linker. *)
Context (p : assembly) (base : Z) (symbol : string → Z).

Definition jump (l : string) (c : cpu) : outcome :=
  match position p l with Some n => At n c | None => Leaves l c end.

(** A jump to an address in a register; the program has [size] instructions. *)
Definition jump_to (size : nat) (a : Z) (c : cpu) : outcome :=
  let o := a - base in
  if (0 <=? o) && (o <? 4 * Z.of_nat size) then At (Z.to_nat (o / 4)) c else Calls a c.

Definition link (n : nat) (c : cpu) : cpu := set_reg (X 30) (base + 4 * Z.of_nat (S n)) c.

Definition execute (n : nat) (i : instruction) (c : cpu) : outcome :=
  let next c := At (S n) c in
  let branch (b : bool) l := if b then jump l c else next c in
  match i with
  | LDP r1 r2 a =>
      let e := effective c a in
      next (set_reg r2 (load c (e + 8)) (set_reg r1 (load c e) (write_back a c)))
  | STP r1 r2 a =>
      let e := effective c a in
      next (write_back a (store (e + 8) (reg c r2) (store e (reg c r1) c)))
  | LDR r a => next (set_reg r (load c (effective c a)) (write_back a c))
  | LDRL r s => next (set_reg r (u32 (load c (symbol s))) c)
  | STR r a => next (write_back a (store (effective c a) (reg c r) c))
  | LDXR r b => next (set_reg r (load c (reg c b)) (set_monitor (Some (physical (reg c b))) c))
  | STXR s r b =>
      if bool_decide (monitor c = Some (physical (reg c b)))
      then next (set_reg s 0 (set_monitor None (store (reg c b) (reg c r) c)))
      else next (set_reg s 1 (set_monitor None c))
  | MOV d s => next (set_reg d (reg c s) c)
  | MOVI d v => next (set_reg d v c)
  | MOVK d v => next (set_reg d (Z.lor (Z.ldiff (reg c d) 0xffff) v) c)
  | ADDI d s v => next (set_reg d (u64 (reg c s + v)) c)
  | ANDI d s v => next (set_reg d (Z.land (reg c s) v) c)
  | ORRI d s v => next (set_reg d (Z.lor (reg c s) v) c)
  | EORI d s v => next (set_reg d (Z.lxor (reg c s) v) c)
  | CMP r1 r2 => next (set_flag_z (bool_decide (reg c r1 = reg c r2)) c)
  | CMPI r v => next (set_flag_z (bool_decide (reg c r = v)) c)
  | MRS d s => next (set_reg d (sys c s) c)
  | MSR s r => next (write_sys s (reg c r) c)
  | MRS_sp_el0 d => next (set_reg d (stack c 0) c)
  | MSR_sp_el0 r => next (set_stack (upd (stack c) 0 (reg c r)) c)
  | MRS_CurrentEL d => next (set_reg d (4 * level c) c)
  | ADR d s => next (set_reg d (symbol s) c)
  | B l => jump l c
  | BL l => jump l (link n c)
  | BLR r => jump_to (instructions p) (reg c r) (link n c)
  | BEQ l => branch (flag_z c) l
  | BNE l => branch (negb (flag_z c)) l
  | CBZ r l => branch (bool_decide (reg c r = 0)) l
  | CBNZ r l => branch (negb (bool_decide (reg c r = 0))) l
  | TBZ r bit l => branch (negb (Z.testbit (reg c r) bit)) l
  | TBNZ r bit l => branch (Z.testbit (reg c r) bit) l
  | RET => jump_to (instructions p) (x c 30) c
  | ERET => Erets c
  | SVC k => Svcs k (S n) c
  | SMC k => Smcs k (S n) c
  | NOP _ => next c
  end.

Definition step (n : nat) (c : cpu) : outcome :=
  match fetch p n with Some i => execute n i c | None => Undefined c end.

(** [fuel] instructions, or fewer when control leaves. *)
Fixpoint run (fuel n : nat) (c : cpu) : outcome :=
  match fuel with
  | O => At n c
  | S fuel => match step n c with At n c => run fuel n c | o => o end
  end.

(** The rest of a run after its beginning. *)
Definition continue (fuel : nat) (o : outcome) : outcome :=
  match o with At n c => run fuel n c | o => o end.
End run.

(** ** Laws of the memory *)

(** An object of [size] bytes at [t] has the physical address [p]. *)
Definition object_at (t p : Z) (size : Z) : Prop :=
  physical t = p ∧ 0 ≤ p ∧ p + size ≤ 2 ^ 25.

Definition apart (p size q size' : Z) : Prop := p + size ≤ q ∨ q + size' ≤ p.

Lemma physical_mod a : physical a = a mod 2 ^ 25.
Proof. unfold physical. change lomem_bits with (Z.ones 25). now rewrite Z.land_ones. Qed.

(** The two addresses of a word: at [himem_offset] and physical. *)
Lemma physical_himem a : 0 ≤ a < 2 ^ 25 → physical (himem_offset + a) = a.
Proof.
  intros H. rewrite physical_mod, <-(Z.add_mod_idemp_l himem_offset) by lia.
  change (himem_offset mod 2 ^ 25) with 0. now rewrite Z.add_0_l, Z.mod_small.
Qed.

Lemma physical_low a : 0 ≤ a < 2 ^ 25 → physical a = a.
Proof. intros H. rewrite physical_mod. now apply Z.mod_small. Qed.

Lemma physical_u64 a : physical (u64 a) = physical a.
Proof.
  rewrite !physical_mod. unfold u64. symmetry. rewrite (Z.div_mod a (2 ^ 64)) at 1 by lia.
  rewrite <-Z.add_mod_idemp_l by lia.
  replace (2 ^ 64 * (a `div` 2 ^ 64)) with (2 ^ 39 * (a `div` 2 ^ 64) * 2 ^ 25) by lia.
  now rewrite Z.mod_mul, Z.add_0_l.
Qed.

Lemma physical_u64_plus a o : physical (u64 a + o) = physical (a + o).
Proof.
  rewrite <-(physical_u64 (u64 a + o)), <-(physical_u64 (a + o)). unfold u64.
  now rewrite Z.add_mod_idemp_l.
Qed.

Lemma physical_u64_plus2 a o o' : physical (u64 a + o + o') = physical (a + (o + o')).
Proof. rewrite <-Z.add_assoc. apply physical_u64_plus. Qed.

(** An object at [p] is reached at [a] with every offset that stays in the 32MB. *)
Lemma physical_shift a p o : physical a = p → 0 ≤ p + o < 2 ^ 25 → physical (a + o) = p + o.
Proof.
  intros H Ho. rewrite physical_mod in *. rewrite <-Z.add_mod_idemp_l, H by lia.
  now apply Z.mod_small.
Qed.

Lemma physical_of_physical a : physical (physical a) = physical a.
Proof. rewrite !physical_mod. apply Z.mod_mod. lia. Qed.

Lemma upd_word_eq f a v b : b = a → upd_word f a v b = v.
Proof. intros ->. unfold upd_word. now rewrite Z.eqb_refl. Qed.

Lemma upd_word_ne f a v b : b ≠ a → upd_word f a v b = f b.
Proof. intros H. unfold upd_word. now rewrite (proj2 (Z.eqb_neq _ _) H). Qed.

(** Two offsets in the same object are compared by computation. *)
Lemma upd_word_same f p a v b : (a =? b) = true → upd_word f (p + a) v (p + b) = v.
Proof. intros H%Z.eqb_eq. apply upd_word_eq. lia. Qed.

Lemma upd_word_other f p a v b : (a =? b) = false → upd_word f (p + a) v (p + b) = f (p + b).
Proof. intros H%Z.eqb_neq. apply upd_word_ne. lia. Qed.

(** The mask of the assembly is the one of [physical]. *)
Lemma land_lomem a : Z.land a (32 * 1024 * 1024 + -1) = physical a.
Proof. done. Qed.

Lemma upd_sys_eq f r v : upd_sys f r v r = v.
Proof. unfold upd_sys. by rewrite decide_True. Qed.

Lemma upd_sys_ne f r v s : bool_decide (s = r) = false → upd_sys f r v s = f s.
Proof. intros H%bool_decide_eq_false. unfold upd_sys. by rewrite decide_False. Qed.

(** From here on only the lemmas compare addresses. *)
#[global] Opaque upd_word upd_sys physical.

(** ** Laws of runs *)

Lemma run_add p base symbol m k n c :
  run p base symbol (m + k) n c = continue p base symbol k (run p base symbol m n c).
Proof.
  revert n c. induction m as [|m IH]; intros n c; cbn; [done |].
  destruct (step p base symbol n c); cbn; auto.
Qed.

(** Once control left the program, more fuel changes nothing. *)
Lemma run_more p base symbol m k n c o :
  run p base symbol m n c = o → (∀ n c, o ≠ At n c) → (m ≤ k)%nat → run p base symbol k n c = o.
Proof.
  intros Ho Hn Hk. replace k with (m + (k - m))%nat by lia. rewrite run_add, Ho.
  destruct o; cbn; try done. now destruct (Hn n0 c0).
Qed.

(** A link register names the position after the call. *)
Lemma jump_back base size n a c :
  (n <? size)%nat = true → a = base + 4 * Z.of_nat n → jump_to base size a c = At n c.
Proof.
  intros H%Nat.ltb_lt ->. unfold jump_to.
  replace (base + 4 * Z.of_nat n - base) with (Z.of_nat n * 4) by lia.
  rewrite Z.div_mul, Nat2Z.id by lia.
  replace (_ && _) with true; [done |].
  symmetry. apply andb_true_intro. split; [apply Z.leb_le | apply Z.ltb_lt]; lia.
Qed.

Lemma physical_shift2 a p o o' :
  physical a = p → 0 ≤ p + (o + o') < 2 ^ 25 → physical (a + o + o') = p + (o + o').
Proof. intros H Ho. rewrite <-Z.add_assoc. now apply physical_shift. Qed.

Lemma physical_shift3 a p o o' o'' :
  physical a = p → 0 ≤ p + (o + o' + o'') < 2 ^ 25 → physical (a + o + o' + o'') = p + (o + o' + o'').
Proof. intros H Ho. rewrite <-!Z.add_assoc. rewrite <-!Z.add_assoc in Ho. now apply physical_shift. Qed.

Lemma physical_u64_shift a p o : physical a = p → 0 ≤ p + o < 2 ^ 25 → physical (u64 (a + o)) = p + o.
Proof. rewrite physical_u64. apply physical_shift. Qed.

Lemma physical_u64_shift2 a p o o' :
  physical a = p → 0 ≤ p + (o + o') < 2 ^ 25 → physical (u64 (a + o) + o') = p + (o + o').
Proof. rewrite physical_u64_plus. apply physical_shift2. Qed.

Lemma u64_plus a o : u64 (u64 a + o) = u64 (a + o).
Proof. unfold u64. now rewrite Z.add_mod_idemp_l. Qed.

(** A stack pointer that moved twice. *)
Lemma u64_moved a o o' : is_u64 (a + o + o') → u64 (u64 (a + o) + o') = a + o + o'.
Proof. intros H. rewrite u64_plus. now apply u64_id. Qed.

(** ** Running by computation *)

(** The outcome of the steps that the goal asks for, with the words and addresses left
    alone. *)
Ltac evaluate_run :=
  match goal with
  | |- context [run ?p ?b ?s ?m ?n ?c] =>
      let o := eval cbv -[u64 u32 physical Z.add Z.sub Z.mul Z.land Z.lor Z.lxor Z.ldiff Z.testbit upd_word upd_sys
                            bool_decide jump_to String.append] in (run p b s m n c) in
      change (run p b s m n c) with o
  end; cbn [continue].

(** Stop after [n] of the steps the goal asks for. *)
Ltac steps n :=
  match goal with
  | |- context [run ?p ?b ?s ?m _ _] =>
      let k := eval vm_compute in (m - n)%nat in
      change m with (n + k)%nat; rewrite (run_add p b s n k)
  end; evaluate_run.

(** Return to the instruction after a call. *)
Ltac returns_back :=
  match goal with
  | |- context [jump_to ?b ?p (?b + 4 * Z.pos ?k) ?c] =>
      let n := eval vm_compute in (Pos.to_nat k) in
      rewrite (jump_back b p n (b + 4 * Z.pos k) c eq_refl eq_refl)
  end; cbn [continue].

(** A branch whose condition is known by [H] or by computation. *)
Ltac decided H := rewrite H; cbv iota beta; cbn [negb continue].

(** Addresses become offsets in the objects whose physical addresses are known. *)
Ltac addresses :=
  repeat first
    [ match goal with H : physical ?a = ?p |- context [physical (u64 (?a + ?o) + ?o')] =>
        rewrite (physical_u64_shift2 a p o o' H) by lia end
    | match goal with H : physical ?a = ?p |- context [physical (u64 (?a + ?o))] =>
        rewrite (physical_u64_shift a p o H) by lia end
    | rewrite land_lomem | rewrite physical_u64_plus | rewrite physical_u64_plus2 | rewrite physical_u64
    | match goal with H : physical ?a = ?p |- context [physical (?a + ?o + ?o')] =>
        rewrite (physical_shift2 a p o o' H) by lia end
    | match goal with H : physical ?a = ?p |- context [physical (?a + ?o + ?o' + ?o'')] =>
        rewrite (physical_shift3 a p o o' o'' H) by lia end
    | match goal with H : physical ?a = ?p |- context [physical (?a + ?o)] =>
        rewrite (physical_shift a p o H) by lia end
    | match goal with H : physical ?a = ?p |- context [physical ?a] => rewrite H end ].

(** System registers that are read become what was written, or what they held. *)
Ltac system_registers :=
  repeat match goal with
  | |- context [upd_sys ?f ?r ?v ?r] => rewrite (upd_sys_eq f r v)
  | |- context [upd_sys ?f ?r ?v ?s] => rewrite (upd_sys_ne f r v s eq_refl)
  end.

(** Words that are read become what was stored there, or what memory held before. *)
Ltac word :=
  repeat first
    [ match goal with |- context [upd_word ?f (?p + ?a) ?v (?p + ?b)] =>
        let e := eval vm_compute in (a =? b) in
        lazymatch e with
        | true => rewrite (upd_word_same f p a v b eq_refl)
        | false => rewrite (upd_word_other f p a v b eq_refl)
        end
      end
    | rewrite upd_word_ne by lia | rewrite upd_word_eq by lia
    | match goal with H : ?f ?p = ?v |- context [?f ?a] =>
        is_var f; lazymatch type of f with Z → Z => idtac end;
        lazymatch a with p => rewrite H | _ => replace (f a) with v by (rewrite <-H; f_equal; lia) end
      end ].

Ltac stacks :=
  repeat match goal with |- context [u64 (u64 (?a + ?o) + ?o')] =>
    rewrite (u64_moved a o o') by (unfold is_u64 in *; lia) end.

(** [n] steps, with the addresses and the words they read. *)
Ltac steps_in_memory n := steps n; system_registers; addresses; word.

(** The registers of a state that was computed. *)
Ltac registers_of_run :=
  lazy beta iota zeta delta [x general registers_list nth Z.to_nat Pos.to_nat Pos.iter_op Nat.add
    x0 x1 x2 x3 x4 x5 x6 x7 x8 x9 x10 x11 x12 x13 x14 x15 x16 x17 x18 x19 x20 x21 x22 x23 x24 x25 x26
    x27 x28 x29 x30].

Ltac registers_of_run_in H :=
  lazy beta iota zeta delta [x general registers_list nth Z.to_nat Pos.to_nat Pos.iter_op Nat.add
    x0 x1 x2 x3 x4 x5 x6 x7 x8 x9 x10 x11 x12 x13 x14 x15 x16 x17 x18 x19 x20 x21 x22 x23 x24 x25 x26
    x27 x28 x29 x30 level stack sys words] in H.

(** A state becomes its thirty-one registers and the rest. *)
Ltac open_state c :=
  let st := fresh "st" in let lv := fresh "lv" in let sy := fresh "sy" in
  let ws := fresh "ws" in let fz := fresh "fz" in let mo := fresh "mo" in
  destruct c as [[] st lv sy ws fz mo];
  repeat match goal with
  | H : context [Cpu (Registers _ _ _ _ _ _ _ _ _ _ _ _ _ _ _ _ _ _ _ _ _ _ _ _ _ _ _ _ _ _ _)] |- _ =>
      progress registers_of_run_in H
  end;
  cbn [level stack words sys] in *.

(** Two lists of registers or words are compared one by one. *)
Ltac each_word :=
  repeat match goal with |- context [seqZ ?a ?b] =>
    let l := eval vm_compute in (seqZ a b) in change (seqZ a b) with l end;
  cbn [map]; repeat (apply (f_equal2 cons); [registers_of_run; stacks; system_registers; word; first [reflexivity | lia | f_equal; lia] |]); reflexivity.

(** The final state of a run against what is claimed of it. *)
Ltac state_facts :=
  cbn [level stack words sys];
  repeat match goal with |- _ ∧ _ => split end;
  try match goal with
  | |- map _ _ = _ => each_word
  | |- ?l = ?r => registers_of_run; stacks; system_registers; word; first [reflexivity | lia | f_equal; lia]
  end.

(** The words that the run leaves alone. *)
Ltac other_words := intros; word; reflexivity.
