(* ===== verification/Vectors.v ===== *)
(** * Exception vectors of secure EL1

    [include/aarch64_c_vector_table.h] and [include/aarch64_vector_table.h]: what happens
    between an exception at secure EL1 and the C handler (the handlers are in [Svc]),
    and from there back to a thread.

    The processor pushes nothing; [C_HANDLER] stores the registers that C may change in
    the [thread_context] that the word above the stack pointer names, and calls the
    handler.  When the handler stays with the thread, [el1_resume_thread] loads
    those registers again.  When it changes thread, the rest is stored in the old context, and
    [el1_enter_thread] loads all of the new one.  The C handler is an argument,
    what the procedure call standard promises of it is [aapcs64]. *)

From stdpp Require Import base list strings.
From Stdlib Require Import ZArith Lia.
From S2P Require Import Prelude Kernel Aarch64.

Open Scope string_scope.
Open Scope Z_scope.

(** ** The layout of a thread_context *)

Definition offset_partner : Z := 24.
Definition offset_regs (n : Z) : Z := 32 + 8 * n.
Definition offset_sp : Z := 280.
Definition offset_pc : Z := 288.
Definition offset_spsr : Z := 296.

(** The thirty-five words that the vectors store and load. *)
Record thread_state := ThreadState { r : Z → Z; r_sp : Z; r_pc : Z; r_spsr : Z }.

(** ** The assembly *)

Definition store_pair (r1 r2 : Z) : line := Do (STP (X r1) (X r2) (Offset (X 1) (offset_regs r1))).
Definition load_pair (r1 r2 : Z) : line := Do (LDP (X r1) (X r2) (Offset (X 0) (offset_regs r1))).

Definition C_HANDLER (event : string) : assembly :=
  [ Do (NOP "msr DAIFClr, #0x1");
    Do (STP (X 0) (X 1) (PreIndex SP (-16)));
    Do (LDP (X 0) (X 1) (Offset SP 16));
    store_pair 2 3;
    Do (LDP (X 2) (X 3) (PostIndex SP 16));
    Do (STP (X 2) (X 3) (Offset (X 1) (offset_regs 0)));
    Do (MRS (X 2) elr_el1);
    Do (MRS (X 3) spsr_el1);
    Do (STP (X 2) (X 3) (Offset (X 1) offset_pc));
    store_pair 4 5; store_pair 6 7; store_pair 8 9; store_pair 10 11;
    store_pair 12 13; store_pair 14 15; store_pair 16 17;
    Do (STP (X 18) (X 30) (Offset (X 1) (offset_regs 18)));
    Do (BL ("SEL1_" ++ event));
    Do (LDP (X 18) (X 30) (Offset (X 1) (offset_regs 18)));
    Do (CMP (X 0) (X 1));
    Do (BEQ "el1_resume_thread");
    store_pair 18 19; store_pair 20 21; store_pair 22 23; store_pair 24 25;
    store_pair 26 27; store_pair 28 29;
    Do (MRS_sp_el0 (X 29));
    Do (STP (X 30) (X 29) (Offset (X 1) (offset_regs 30)));
    Do (B "el1_enter_thread") ].

(** The position of the instruction after the call of the C function. *)
Definition after_call : nat := 18.

(** The assembly of [el1_resume_thread] after the return address and the status. *)
Definition resume_code : assembly :=
  [ load_pair 2 3; load_pair 4 5; load_pair 6 7; load_pair 8 9; load_pair 10 11;
    load_pair 12 13; load_pair 14 15; load_pair 16 17;
    Do (STR (X 0) (Offset SP 8));
    load_pair 0 1;
    Do (NOP "dsb sy");
    Do ERET ].

(** The assembly of [el1_enter_thread], likewise. *)
Definition enter_code : assembly :=
  [ load_pair 30 29;
    Do (MSR_sp_el0 (X 29));
    load_pair 2 3; load_pair 4 5; load_pair 6 7; load_pair 8 9; load_pair 10 11;
    load_pair 12 13; load_pair 14 15; load_pair 16 17; load_pair 18 19; load_pair 20 21;
    load_pair 22 23; load_pair 24 25; load_pair 26 27; load_pair 28 29;
    Do (STR (X 0) (Offset SP 8));
    load_pair 0 1;
    Do (NOP "dsb sy");
    Do ERET ].

(** Assembly that does not call anything. *)
Definition run_code (code : assembly) (c : cpu) : outcome :=
  run code 0 (λ _, 0) (instructions code) 0 c.

(** [el1_resume_thread( thread )], the thread in [x0]. *)
Definition el1_resume_thread (c : cpu) : outcome :=
  let thread := x c 0 in
  run_code resume_code
    (write_sys spsr_el1 (load c (thread + offset_spsr))
       (write_sys elr_el1 (load c (thread + offset_pc))
          (set_reg (X 3) (load c (thread + offset_spsr))
             (set_reg (X 2) (load c (thread + offset_pc)) c)))).

(** Whether the thread runs in the non-secure world: in an AArch32 state or at EL2. *)
Definition non_secure_state (spsr : Z) : bool :=
  negb (0 =? Z.land spsr 0x10) || (Z.land spsr 0x1e =? 8).

(** [el1_enter_thread( threads )], [now] in [x0] and [then] in [x1].  The numbers of the
    calls of EL3 are those of the source; 0 switches to the non-secure world. *)
Definition el1_enter_thread (c : cpu) : outcome :=
  let now := x c 0 in
  let spsr := u32 (load c (now + offset_spsr)) in
  let pc := load c (now + offset_pc) in
  if non_secure_state spsr then
    let runnable := load c (Z.lor (stack c (level c)) 0xff0 + 8) in
    if load c (now + offset_partner) =? 0 then
      Smcs 3 0 (set_reg (X 29) (x c 1) (set_reg (X 28) now c))
    else if negb (runnable =? now) then Smcs 0x99 0 (set_reg (X 27) runnable c)
    else if 0xfffffffffe1feb80 =? now then Smcs 0x98 0 (set_reg (X 27) runnable c)
    else Smcs 0 0 c
  else run_code enter_code (write_sys spsr_el1 spsr (write_sys elr_el1 pc c)).

(** The state in which the exception's code at the address [base] calls the C function. *)
Definition called (base : Z) (event : string) (c : cpu) : cpu :=
  match run (C_HANDLER event) base (λ _, 0) 40 0 c with Leaves _ c1 => c1 | _ => c end.

(** The exception's code and the C function [handler] behind it, at the address [base]. *)
Definition take_exception (base : Z) (event : string) (handler : cpu → cpu) (c : cpu) : outcome :=
  let code := C_HANDLER event in
  match run code base (λ _, 0) 40 0 c with
  | Leaves _ called =>
      match run code base (λ _, 0) 40 after_call (handler called) with
      | Leaves l back =>
          if String.eqb l "el1_resume_thread" then el1_resume_thread back
          else el1_enter_thread back
      | o => o
      end
  | o => o
  end.

(** ** What the exception's code does *)

(** The stack of the core: the frame at [q] above the stack pointer names the running
    thread. *)
Record exception_stack (c : cpu) (q t : Z) : Prop := {
  es_level : level c = 1;
  es_stack : is_u64 (stack c 1);
  es_at : object_at (stack c 1) q 16;
  es_room : 16 ≤ q;
  es_thread : words c (q + 8) = t;
}.

Lemma C_HANDLER_saves base event c t p q :
  exception_stack c q t → object_at t p sizeof_thread_context →
  apart p sizeof_thread_context (q - 16) 32 →
  ∃ c1, run (C_HANDLER event) base (λ _, 0) 40 0 c = Leaves ("SEL1_" ++ event) c1 ∧
    x c1 0 = words c q ∧ x c1 1 = t ∧ x c1 30 = base + 4 * Z.of_nat after_call ∧
    map (x c1) (seqZ 18 12) = map (x c) (seqZ 18 12) ∧
    stack c1 1 = stack c 1 ∧ stack c1 0 = stack c 0 ∧ level c1 = 1 ∧ sys c1 = sys c ∧
    map (λ n, words c1 (p + offset_regs n)) (seqZ 0 19) = map (x c) (seqZ 0 19) ∧
    words c1 (p + offset_regs 19) = x c 30 ∧
    words c1 (p + offset_pc) = sys c elr_el1 ∧ words c1 (p + offset_spsr) = sys c spsr_el1 ∧
    ∀ a, ¬ (p + 32 ≤ a < p + 304) → ¬ (q - 16 ≤ a < q) → words c1 a = words c a.
Proof.
  intros [Hl Hu Hs Hr Ht] [Hp Hp'] Hd. unfold apart, sizeof_thread_context in *. destruct Hs as [Hq Hq'].
  open_state c; subst lv.
  steps_in_memory 3%nat. steps_in_memory 2%nat. evaluate_run. addresses.
  eexists; split; [reflexivity |]. unfold offset_regs, offset_pc, offset_spsr.
  state_facts. other_words.
Qed.

(** The state of the thread that the processor runs, or leaves when an exception is taken. *)
Definition user_state (c : cpu) : thread_state :=
  ThreadState (x c) (stack c 0) (sys c elr_el1) (sys c spsr_el1).

(** The state in the [thread_context] at [p]. *)
Definition context (m : Z → Z) (p : Z) : thread_state :=
  ThreadState (λ n, m (p + offset_regs n)) (m (p + offset_sp)) (m (p + offset_pc)) (m (p + offset_spsr)).

Definition same_state (a b : thread_state) : Prop :=
  map (r a) (seqZ 0 31) = map (r b) (seqZ 0 31) ∧
  r_sp a = r_sp b ∧ r_pc a = r_pc b ∧ r_spsr a = r_spsr b.

(** What the procedure call standard promises of a C function: X19 to X29 and the stack
    pointer are as before. *)
Definition aapcs64 (f : cpu → cpu) : Prop :=
  ∀ c, map (x (f c)) (seqZ 19 11) = map (x c) (seqZ 19 11) ∧
    stack (f c) 1 = stack c 1 ∧ level (f c) = level c.

Lemma map_seqZ_lookup {A} (f g : Z → A) a n k :
  map f (seqZ a n) = map g (seqZ a n) → a ≤ k < a + n → f k = g k.
Proof.
  intros H Hk. pose proof (f_equal (λ l, l !! Z.to_nat (k - a)) H) as E. cbn beta in E.
  rewrite !list_lookup_fmap, lookup_seqZ_lt in E by lia. cbn in E.
  rewrite Z2Nat.id in E by lia. replace (a + (k - a)) with k in E by lia. congruence.
Qed.

(** [el1_enter_thread] for a thread of the secure world. *)
Lemma el1_enter_thread_loads c now pn :
  x c 0 = now → object_at now pn sizeof_thread_context → level c = 1 →
  object_at (stack c 1) (physical (stack c 1)) 16 →
  apart pn sizeof_thread_context (physical (stack c 1)) 16 →
  is_u32 (words c (pn + offset_spsr)) → non_secure_state (words c (pn + offset_spsr)) = false →
  ∃ c1, el1_enter_thread c = Erets c1 ∧ same_state (user_state c1) (context (words c) pn) ∧
    stack c1 1 = stack c 1 ∧ words c1 = upd_word (words c) (physical (stack c 1) + 8) now.
Proof.
  intros Hn [Hp Hp'] Hl [_ Hq'] Hd Hs Hns. remember (physical (stack c 1)) as q eqn:Hq. symmetry in Hq.
  open_state c. unfold apart, sizeof_thread_context in *. subst lv now.
  unfold el1_enter_thread, load, offset_spsr, offset_pc in *. registers_of_run. cbn [words sys level stack].
  addresses. rewrite u32_id, Hns by done. unfold run_code. evaluate_run. addresses.
  eexists. split; [reflexivity |].
  unfold same_state, user_state, context, offset_spsr, offset_pc, offset_sp, offset_regs.
  cbn [r r_sp r_pc r_spsr]. state_facts.
Qed.

(** The rest of the exception's code when the handler changes thread. *)
Lemma C_HANDLER_leaves base event c now t p :
  x c 0 = now → x c 1 = t → now ≠ t → object_at t p sizeof_thread_context → level c = 1 →
  ∃ c1, run (C_HANDLER event) base (λ _, 0) 40 after_call c = Leaves "el1_enter_thread" c1 ∧
    x c1 0 = now ∧ level c1 = 1 ∧ stack c1 1 = stack c 1 ∧
    map (λ n, words c1 (p + offset_regs n)) (seqZ 0 18) =
      map (λ n, words c (p + offset_regs n)) (seqZ 0 18) ∧
    words c1 (p + offset_regs 18) = words c (p + offset_regs 18) ∧
    map (λ n, words c1 (p + offset_regs n)) (seqZ 19 11) = map (x c) (seqZ 19 11) ∧
    words c1 (p + offset_regs 30) = words c (p + offset_regs 19) ∧
    words c1 (p + offset_sp) = stack c 0 ∧
    words c1 (p + offset_pc) = words c (p + offset_pc) ∧
    words c1 (p + offset_spsr) = words c (p + offset_spsr) ∧
    ∀ a, ¬ (p + 32 ≤ a < p + 304) → words c1 a = words c a.
Proof.
  intros Hn Ht Hne [Hp Hp'] Hl. open_state c.
  unfold sizeof_thread_context, after_call in *. subst lv now t.
  steps 2%nat. rewrite bool_decide_eq_false_2 by done. addresses. evaluate_run. addresses.
  eexists. split; [reflexivity |]. unfold offset_spsr, offset_pc, offset_sp, offset_regs.
  state_facts. other_words.
Qed.

(** The rest of the exception's code when the handler stays with the thread. *)
Lemma C_HANDLER_stays base event c t p :
  x c 0 = t → x c 1 = t → object_at t p sizeof_thread_context →
  ∃ c1, run (C_HANDLER event) base (λ _, 0) 40 after_call c = Leaves "el1_resume_thread" c1 ∧
    map (x c1) (seqZ 0 18) = map (x c) (seqZ 0 18) ∧
    x c1 18 = words c (p + offset_regs 18) ∧
    map (x c1) (seqZ 19 11) = map (x c) (seqZ 19 11) ∧
    x c1 30 = words c (p + offset_regs 19) ∧
    stack c1 = stack c ∧ level c1 = level c ∧ words c1 = words c.
Proof.
  intros H0 H1 [Hp Hp']. open_state c. unfold sizeof_thread_context, after_call in *. subst t x1.
  steps 2%nat. rewrite bool_decide_eq_true_2 by done. addresses. evaluate_run.
  eexists. split; [reflexivity |]. unfold offset_regs. state_facts.
Qed.

Lemma el1_resume_thread_loads c t p q :
  x c 0 = t → object_at t p sizeof_thread_context → level c = 1 →
  object_at (stack c 1) q 16 → apart p sizeof_thread_context q 16 →
  ∃ c', el1_resume_thread c = Erets c' ∧
    map (x c') (seqZ 0 18) = map (λ n, words c (p + offset_regs n)) (seqZ 0 18) ∧
    map (x c') (seqZ 18 13) = map (x c) (seqZ 18 13) ∧ stack c' = stack c ∧
    sys c' elr_el1 = words c (p + offset_pc) ∧ sys c' spsr_el1 = words c (p + offset_spsr) ∧
    words c' = upd_word (words c) (q + 8) t.
Proof.
  intros H0 [Hp Hp'] Hl [Hq Hq'] Hd. open_state c.
  unfold apart, sizeof_thread_context in *. subst lv t.
  unfold el1_resume_thread, run_code, load, offset_pc, offset_spsr. registers_of_run. cbn [words].
  addresses. evaluate_run. addresses. eexists. split; [reflexivity |]. unfold offset_regs.
  state_facts.
Qed.

Lemma context_ext m m' p :
  (∀ a, p + 32 ≤ a < p + 304 → m a = m' a) → same_state (context m p) (context m' p).
Proof.
  intros H. unfold same_state, context, offset_sp, offset_pc, offset_spsr. cbn.
  repeat split; try (apply H; lia). apply map_ext_in. intros n Hn.
  apply list_elem_of_In, elem_of_seqZ in Hn. apply H. unfold offset_regs. lia.
Qed.

#[export] Instance same_state_equivalence : Equivalence same_state.
Proof.
  unfold same_state. split; [intros s | intros s s' H | intros s s' s'' H H']; intuition congruence.
Qed.

Lemma map_seqZ_prefix {A} (f g : Z → A) a n n' :
  map f (seqZ a n') = map g (seqZ a n') → n ≤ n' → map f (seqZ a n) = map g (seqZ a n).
Proof.
  intros H Hn. apply map_ext_in. intros k Hk. apply list_elem_of_In, elem_of_seqZ in Hk.
  apply (map_seqZ_lookup _ _ a n' k H). lia.
Qed.

(** One list of thirty-one registers from its parts. *)
Lemma registers_split (f g : Z → Z) :
  map f (seqZ 0 18) = map g (seqZ 0 18) → f 18 = g 18 →
  map f (seqZ 19 11) = map g (seqZ 19 11) → f 30 = g 30 → map f (seqZ 0 31) = map g (seqZ 0 31).
Proof.
  intros H1 H2 H3 H4. apply map_ext_in. intros n Hn. apply list_elem_of_In, elem_of_seqZ in Hn.
  destruct (decide (n = 18)) as [-> |]; [done |]. destruct (decide (n = 30)) as [-> |]; [done |].
  destruct (decide (n < 18)); [eapply (map_seqZ_lookup f g 0 18) | eapply (map_seqZ_lookup f g 19 11)]; done || lia.
Qed.

(** A context that is stored in two parts: [wk] at the call of the C function, which sees
    [xk] and leaves [wb] and [xb]; [w] at the end. *)
Lemma saved_context (wk wb w xc xk xb : Z → Z) p sp pc spsr :
  (∀ a, p + 32 ≤ a < p + 304 → wb a = wk a) →
  map (λ n, wk (p + offset_regs n)) (seqZ 0 19) = map xc (seqZ 0 19) →
  wk (p + offset_regs 19) = xc 30 → wk (p + offset_pc) = pc → wk (p + offset_spsr) = spsr →
  map xk (seqZ 18 12) = map xc (seqZ 18 12) → map xb (seqZ 19 11) = map xk (seqZ 19 11) →
  map (λ n, w (p + offset_regs n)) (seqZ 0 18) = map (λ n, wb (p + offset_regs n)) (seqZ 0 18) →
  w (p + offset_regs 18) = wb (p + offset_regs 18) →
  map (λ n, w (p + offset_regs n)) (seqZ 19 11) = map xb (seqZ 19 11) →
  w (p + offset_regs 30) = wb (p + offset_regs 19) → w (p + offset_sp) = sp →
  w (p + offset_pc) = wb (p + offset_pc) → w (p + offset_spsr) = wb (p + offset_spsr) →
  same_state (context w p) (ThreadState xc sp pc spsr).
Proof.
  intros Hk Hr H19 Hpc Hs H18 Hx Hw Hw18 Hw19 Hw30 Hwsp Hwpc Hws.
  assert (∀ o, 32 ≤ o < 304 → wb (p + o) = wk (p + o)) as Hk' by (intros; apply Hk; lia).
  split; cbn [r r_sp r_pc r_spsr context].
  - apply registers_split.
    + rewrite Hw. transitivity (map (λ n, wk (p + offset_regs n)) (seqZ 0 18)).
      * apply map_ext_in. intros n Hn. apply list_elem_of_In, elem_of_seqZ in Hn.
        apply Hk'. unfold offset_regs. lia.
      * exact (map_seqZ_prefix _ _ 0 18 19 Hr ltac:(lia)).
    + rewrite Hw18, Hk' by (unfold offset_regs; lia).
      apply (map_seqZ_lookup (λ n, wk (p + offset_regs n)) xc 0 19 18 Hr). lia.
    + rewrite Hw19, Hx. apply map_ext_in. intros n Hn. apply list_elem_of_In, elem_of_seqZ in Hn.
      apply (map_seqZ_lookup xk xc 18 12); [done | lia].
    + rewrite Hw30, Hk' by (unfold offset_regs; lia). exact H19.
  - rewrite Hwsp, Hwpc, Hws, !Hk' by (unfold offset_pc, offset_spsr; lia). done.
Qed.

Section exception.
(** The processor in the state [c] takes an exception from the thread [t]. *)
Context (base : Z) (event : string) (handler : cpu → cpu) (c : cpu) (t p q : Z).
Context (Hc : exception_stack c q t) (Ht : object_at t p sizeof_thread_context).
Context (Hq : apart p sizeof_thread_context (q - 16) 32) (Hh : aapcs64 handler).

Abbreviation k := (called base event c).
Abbreviation b := (handler k).

Lemma called_ok :
  run (C_HANDLER event) base (λ _, 0) 40 0 c = Leaves ("SEL1_" ++ event) k ∧
  x k 1 = t ∧ map (x k) (seqZ 18 12) = map (x c) (seqZ 18 12) ∧
  stack k 1 = stack c 1 ∧ stack k 0 = stack c 0 ∧ level k = 1 ∧
  map (λ n, words k (p + offset_regs n)) (seqZ 0 19) = map (x c) (seqZ 0 19) ∧
  words k (p + offset_regs 19) = x c 30 ∧
  words k (p + offset_pc) = sys c elr_el1 ∧ words k (p + offset_spsr) = sys c spsr_el1 ∧
  words k (q + 8) = t ∧
  ∀ a, ¬ (p + 32 ≤ a < p + 304) → ¬ (q - 16 ≤ a < q) → words k a = words c a.
Proof using Hc Ht Hq.
  destruct (C_HANDLER_saves base event c t p q Hc Ht Hq)
    as (c1 & H & _ & H1 & _ & H18 & Hs1 & Hs0 & Hl & _ & Hr & H19 & Hp & Hs & Ho).
  unfold called. rewrite H. repeat split; try assumption.
  unfold apart, sizeof_thread_context in *. rewrite Ho by lia. apply Hc.
Qed.

#[local] Opaque called.

(** The C function changes to the thread [now] and leaves the context of [t] alone. *)
Section switch.
Context (now pn : Z) (Hnow : object_at now pn sizeof_thread_context).
Context (Hp : apart p sizeof_thread_context pn sizeof_thread_context).
Context (Hx0 : x b 0 = now) (Hx1 : x b 1 = t).
Context (Hkeep : ∀ a, p + 32 ≤ a < p + 304 → words b a = words k a).
Context (Hsp : stack b 0 = stack k 0).

(** The context of [t] is complete when [el1_enter_thread] is reached. *)
Lemma switch_saves : ∃ back,
  take_exception base event handler c = el1_enter_thread back ∧
  x back 0 = now ∧ level back = 1 ∧ stack back 1 = stack c 1 ∧
  same_state (context (words back) p) (user_state c) ∧
  ∀ a, ¬ (p + 32 ≤ a < p + 304) → words back a = words b a.
Proof.
  destruct called_ok as (Hrun & _ & H18 & Hs1 & Hs0 & Hl & Hr & H19 & Hpc & Hspsr & _).
  destruct (Hh k) as (H19' & Hs1' & Hl').
  assert (now ≠ t) as Hne.
  { intros ->. destruct Hnow, Ht. unfold apart, sizeof_thread_context in *. lia. }
  destruct (C_HANDLER_leaves base event b now t p Hx0 Hx1 Hne Ht ltac:(congruence))
    as (back & Hback & Hb0 & Hbl & Hbs & Hw & Hw18 & Hw19 & Hw30 & Hwsp & Hwpc & Hwsr & Ho).
  exists back. split; [unfold take_exception; now rewrite Hrun, Hback |].
  repeat (split; [congruence |]). split; [| exact Ho].
  apply (saved_context (words k) (words b) (words back) (x c) (x k) (x b) p); try assumption; congruence.
Qed.

(** An exception that changes thread exchanges the state of the processor with the
    memory: the context of the interrupted thread receives all its registers, its
    stack pointer, its program counter and its status, and the processor continues
    with exactly what the context of the new thread holds; the exception stack is
    empty again and names the new thread. *)
Lemma switch_exchanges :
  apart pn sizeof_thread_context q 16 → is_u32 (words b (pn + offset_spsr)) →
  non_secure_state (words b (pn + offset_spsr)) = false →
  ∃ c', take_exception base event handler c = Erets c' ∧
    same_state (context (words c') p) (user_state c) ∧
    same_state (user_state c') (context (words b) pn) ∧
    stack c' 1 = stack c 1 ∧ words c' (q + 8) = now ∧
    ∀ a, ¬ (p + 32 ≤ a < p + 304) → a ≠ q + 8 → words c' a = words b a.
Proof.
  intros Hpq Hu Hns. destruct switch_saves as (back & -> & Hx & Hl & Hs & Hsave & Ho).
  assert (physical (stack back 1) = q) as Hq1 by (rewrite Hs; apply Hc).
  assert (∀ a, pn ≤ a < pn + 488 → words back a = words b a) as Hpn.
  { intros a Ha. apply Ho. unfold apart, sizeof_thread_context in Hp. lia. }
  assert (words back (pn + offset_spsr) = words b (pn + offset_spsr)) as Hspsr
    by (apply Hpn; unfold offset_spsr; lia).
  destruct (el1_enter_thread_loads back now pn Hx Hnow Hl) as (c' & -> & Hst & Hs' & Hw).
  - rewrite Hq1, Hs. apply Hc.
  - now rewrite Hq1.
  - now rewrite Hspsr.
  - now rewrite Hspsr.
  - exists c'. split; [done |]. rewrite Hq1 in Hw. unfold apart, sizeof_thread_context in *.
    split; [| split; [| split; [congruence | split; [rewrite Hw; apply upd_word_eq; lia |]]]].
    + rewrite Hw. etransitivity; [apply context_ext | exact Hsave].
      intros a Ha. apply upd_word_ne. destruct Hc. lia.
    + etransitivity; [exact Hst |]. apply context_ext. intros a Ha. apply Hpn. lia.
    + intros a Ha Ha'. rewrite Hw, upd_word_ne by done. now apply Ho.
Qed.

(** When the new thread is a guest of the non-secure world with a partner, the context of the
    interrupted thread is complete and EL3 is called with number 0, the core's
    [runnable], the word above the exception stack, being that guest. *)
Lemma exception_enters_guest :
  is_u32 (words b (pn + offset_spsr)) → non_secure_state (words b (pn + offset_spsr)) = true →
  words b (pn + offset_partner) ≠ 0 → now ≠ 0xfffffffffe1feb80 →
  Z.lor (stack c 1) 0xff0 = stack c 1 → words b (q + 8) = now →
  ∃ c', take_exception base event handler c = Smcs 0 0 c' ∧
    same_state (context (words c') p) (user_state c) ∧ stack c' 1 = stack c 1 ∧
    ∀ a, ¬ (p + 32 ≤ a < p + 304) → words c' a = words b a.
Proof.
  intros Hu Hns Hpa Hne Hor Hr. destruct switch_saves as (back & -> & Hx & Hl & Hs & Hsave & Ho).
  assert (∀ o, 0 ≤ o < 488 → load back (now + o) = words b (pn + o)) as Hpn.
  { intros o Hoff. unfold load, apart, sizeof_thread_context in *. destruct Hnow as [Hn Hn'].
    rewrite (physical_shift now pn o Hn) by lia. apply Ho. lia. }
  exists back. unfold el1_enter_thread.
  rewrite Hx, Hl, Hs, Hor.
  rewrite (Hpn offset_spsr), (Hpn offset_partner) by (unfold offset_spsr, offset_partner; lia).
  rewrite (u32_id _ Hu), Hns.
  assert (load back (stack c 1 + 8) = now) as ->.
  { rewrite <-Hr. destruct Hc as [_ _ [Hq1 Hq1'] Hq2 _]. unfold load, apart, sizeof_thread_context in *.
    rewrite (physical_shift _ q 8 Hq1) by lia. apply Ho. lia. }
  rewrite (proj2 (Z.eqb_neq _ _) Hpa), Z.eqb_refl. cbn [negb].
  rewrite (proj2 (Z.eqb_neq _ _)) by congruence.
  exact (conj eq_refl (conj Hsave (conj eq_refl Ho))).
Qed.
End switch.

(** The C function stays with the thread. *)
Section stay.
Context (Hx0 : x b 0 = t) (Hx1 : x b 1 = t).
Context (Hkeep : map (λ n, words b (p + offset_regs n)) (seqZ 18 2) =
                 map (λ n, words k (p + offset_regs n)) (seqZ 18 2)).

(** An exception that stays with the thread returns to it with the registers that
    C may change, the program counter and the status from its context, as the handler left
    them there; X18 to X30 are those of the interrupted thread, and the stack pointer
    is the one the handler left. *)
Lemma exception_resumes :
  ∃ c', take_exception base event handler c = Erets c' ∧
    map (x c') (seqZ 0 18) = map (λ n, words b (p + offset_regs n)) (seqZ 0 18) ∧
    map (x c') (seqZ 18 13) = map (x c) (seqZ 18 13) ∧
    stack c' 0 = stack b 0 ∧ stack c' 1 = stack c 1 ∧
    sys c' elr_el1 = words b (p + offset_pc) ∧ sys c' spsr_el1 = words b (p + offset_spsr) ∧
    words c' = upd_word (words b) (q + 8) t.
Proof.
  destruct called_ok as (Hrun & _ & H18 & Hs1 & Hs0 & Hl & Hr & H19 & Hpc & Hspsr & _).
  destruct (Hh k) as (H19' & Hs1' & Hl'). unfold take_exception. rewrite Hrun.
  assert (x c 18 = words b (p + offset_regs 18)) as E18.
  { transitivity (words k (p + offset_regs 18)).
    - symmetry. apply (map_seqZ_lookup (λ n, words k (p + offset_regs n)) (x c) 0 19 18 Hr). lia.
    - symmetry. apply (map_seqZ_lookup _ _ 18 2 18 Hkeep). lia. }
  assert (x c 30 = words b (p + offset_regs 19)) as E30.
  { rewrite <-H19. symmetry. apply (map_seqZ_lookup _ _ 18 2 19 Hkeep). lia. }
  assert (∀ n, 19 ≤ n < 30 → x b n = x c n) as E.
  { intros n Hn. transitivity (x k n).
    - apply (map_seqZ_lookup _ _ 19 11 n H19'). lia.
    - apply (map_seqZ_lookup _ _ 18 12 n H18). lia. }
  destruct (C_HANDLER_stays base event b t p Hx0 Hx1 Ht) as (c1 & H1 & Hr0 & H4 & H5 & H6 & Hst & Hl1 & Hw).
  destruct (el1_resume_thread_loads c1 t p q) as (c' & H2 & H3 & H18' & H7); try assumption.
  - rewrite <-Hx0. apply (map_seqZ_lookup _ _ 0 18 0 Hr0). lia.
  - congruence.
  - rewrite Hst, Hs1', Hs1. apply Hc.
  - unfold apart in *. destruct Hc. unfold sizeof_thread_context in *. lia.
  - exists c'. rewrite H1. change (String.eqb "el1_resume_thread" "el1_resume_thread") with true. cbn iota.
    rewrite <-Hw. split; [exact H2 |]. split; [exact H3 |]. split; [| intuition congruence].
    rewrite H18'.
    apply map_ext_in. intros n Hn. apply list_elem_of_In, elem_of_seqZ in Hn.
    destruct (decide (n = 18)) as [-> |]; [congruence |].
    destruct (decide (n = 30)) as [-> |]; [congruence |].
    rewrite <-E by lia. apply (map_seqZ_lookup (x c1) (x b) 19 11 n H5). lia.
Qed.
End stay.
End exception.

(** C10: A thread that an exception interrupts, and to which a later exception of another
    thread returns, continues with the thirty-one registers, the stack pointer, the
    program counter and the status it was interrupted with, provided its context is left
    alone in between. *)
Theorem thread_switch_round_trip
    base event event' handler handler' c c2 t p now pn q :
  exception_stack c q t → exception_stack c2 q now →
  object_at t p sizeof_thread_context → object_at now pn sizeof_thread_context →
  apart p sizeof_thread_context pn sizeof_thread_context →
  apart p sizeof_thread_context (q - 16) 32 → apart pn sizeof_thread_context (q - 16) 32 →
  aapcs64 handler → aapcs64 handler' →
  let k := called base event c in let b := handler k in
  let k' := called base event' c2 in let b' := handler' k' in
  x b 0 = now → x b 1 = t → (∀ a, p + 32 ≤ a < p + 304 → words b a = words k a) →
  stack b 0 = stack k 0 → is_u32 (words b (pn + offset_spsr)) →
  non_secure_state (words b (pn + offset_spsr)) = false →
  is_u32 (sys c spsr_el1) → non_secure_state (sys c spsr_el1) = false →
  x b' 0 = t → x b' 1 = now → (∀ a, pn + 32 ≤ a < pn + 304 → words b' a = words k' a) →
  stack b' 0 = stack k' 0 →
  (∀ c', take_exception base event handler c = Erets c' →
     ∀ a, p + 32 ≤ a < p + 304 → words b' a = words c' a) →
  ∃ c3, take_exception base event' handler' c2 = Erets c3 ∧ same_state (user_state c3) (user_state c).
Proof.
  intros Hc Hc2 Ht Hnow Hp Hq Hqn Hh Hh' k b k' b' H0 H1 Hk Hs Hu Hns Hu' Hns' H0' H1' Hk' Hs' Hkeep.
  assert (∀ p, apart p sizeof_thread_context (q - 16) 32 → apart p sizeof_thread_context q 16) as Hq'
    by (unfold apart, sizeof_thread_context; intros; lia).
  destruct (switch_exchanges base event handler c t p q Hc Ht Hq Hh now pn Hnow Hp H0 H1 Hk Hs
              (Hq' _ Hqn) Hu Hns) as (c' & E & Hsave & _).
  assert (same_state (context (words b') p) (user_state c)) as Hback.
  { etransitivity; [apply context_ext | exact Hsave]. intros a Ha. now apply Hkeep. }
  assert (words b' (p + offset_spsr) = sys c spsr_el1) as Hspsr by apply Hback.
  assert (apart pn sizeof_thread_context p sizeof_thread_context) as Hp'
    by (unfold apart in *; lia).
  destruct (switch_exchanges base event' handler' c2 now pn q Hc2 Hnow Hqn Hh' t p Ht Hp' H0' H1' Hk' Hs'
              (Hq' _ Hq)) as (c3 & E3 & _ & Hst & _).
  - fold k' b'. now rewrite Hspsr.
  - fold k' b'. now rewrite Hspsr.
  - exists c3. split; [exact E3 |]. etransitivity; [exact Hst | exact Hback].
Qed.

(** ** An example *)

(** A C function that changes to the thread [n]. *)
Definition changes_to (n : Z) (c : cpu) : cpu := set_reg (X 0) n c.

Definition example_cpu : cpu :=
  Cpu (registers_of (seqZ 1000 31) (Registers 0 0 0 0 0 0 0 0 0 0 0 0 0 0 0 0 0 0 0 0 0 0 0 0 0 0 0 0 0 0 0)) (λ n, if n =? 1 then himem_offset + 0x3ff0 else 5000) 1 (λ _, 0x60000000)
    (λ a, if a =? 0x3ff8 then himem_offset + 0x100000 else 0x60000000 + 32 * a) false None.

Definition example_event : string := "LOWER_AARCH64_SYNC_CODE".

Definition example_after : cpu :=
  match take_exception 0 example_event (changes_to (himem_offset + 0x101000)) example_cpu with
  | Erets c => c
  | _ => example_cpu
  end.

Lemma changes_to_aapcs64 n : aapcs64 (changes_to n).
Proof. intros c. repeat split. Qed.

Lemma example_after_is c :
  take_exception 0 example_event (changes_to (himem_offset + 0x101000)) example_cpu = Erets c →
  example_after = c.
Proof. intros E. unfold example_after. now rewrite E. Qed.

Lemma changes_to_keeps n c a : words (changes_to n c) a = words c a.
Proof. done. Qed.

Lemma changes_to_stack n c : stack (changes_to n c) 0 = stack c 0.
Proof. done. Qed.

Lemma example_stack : exception_stack example_cpu 0x3ff0 (himem_offset + 0x100000).
Proof. split; vm_compute; repeat split; congruence. Qed.

Lemma example_stack_after : exception_stack example_after 0x3ff0 (himem_offset + 0x101000).
Proof. split; vm_compute; repeat split; congruence. Qed.

Lemma thread_switch_round_trip_witness :
  ∃ c3, take_exception 0 example_event (changes_to (himem_offset + 0x100000)) example_after = Erets c3 ∧
    same_state (user_state c3) (user_state example_cpu).
Proof.
  apply (thread_switch_round_trip 0 example_event example_event
    (changes_to (himem_offset + 0x101000)) (changes_to (himem_offset + 0x100000))
    example_cpu example_after (himem_offset + 0x100000) 0x100000 (himem_offset + 0x101000) 0x101000 0x3ff0
    example_stack example_stack_after).
  1-2: split; vm_compute; repeat split; congruence.
  1: left; vm_compute; congruence.
  1-2: right; vm_compute; congruence.
  1-2: apply changes_to_aapcs64.
  1-2: vm_compute; reflexivity.
  1: intros; apply changes_to_keeps.
  1: apply changes_to_stack.
  1: split; vm_compute; congruence.
  1: vm_compute; reflexivity.
  1: split; vm_compute; congruence.
  1: vm_compute; reflexivity.
  1-2: vm_compute; reflexivity.
  1: intros; apply changes_to_keeps.
  1: apply changes_to_stack.
  intros c' E a Ha. rewrite changes_to_keeps. pose proof example_stack_after as Hs.
  rewrite (example_after_is c' E) in *.
  destruct (C_HANDLER_saves 0 example_event c' (himem_offset + 0x101000) 0x101000 0x3ff0 Hs)
    as (c1 & H & _ & _ & _ & _ & _ & _ & _ & _ & _ & _ & _ & _ & Ho).
  - split; vm_compute; repeat split; congruence.
  - right; vm_compute; congruence.
  - unfold called. rewrite H. apply Ho; lia.
Defined.
