(* ===== verification/WorldSwitch.v ===== *)
(** * The switch between the secure and the non-secure world

    [el3_virtual_machines.c]: the vector table [VBAR_EL23] that EL2 and EL3 share, and its
    layout by [include/aarch64_vector_table.h].  A guest of the virtual machine driver
    runs in non-secure EL1 and EL0.  A trap of it comes to EL2, which hands the
    syndrome to the partner thread and asks EL3; EL3 saves the system registers of the guest in
    the [vm_state] after its [thread_context], loads those of the kernel, and enters the
    vectors of secure EL1 as if the guest had made a call to switch to its partner.  Interrupts
    come to EL3 and go to secure EL1 in the same way.  A call of EL3 from secure
    EL1 loads the state of the guest that is [runnable].

    The general registers are saved by secure EL1 ([Vectors]), and pass through here
    unchanged; those used on the way are kept on the small stacks of EL2 and EL3. *)

From stdpp Require Import base list strings.
From Stdlib Require Import ZArith Lia.
From S2P Require Import Prelude SystemServices Kernel Aarch64 Vectors.

Open Scope string_scope.
Open Scope list_scope.
Open Scope Z_scope.

(** ** Layouts *)

(** The fields of [Core] that the assembly reaches; the size is chosen by [build.sh] so
    that [core] and [runnable] are the last words of its last page. *)
Definition sizeof_Core : Z := 0x4000.
Definition offset_core_tt_l1 : Z := 0x3000.
Definition offset_physical_address : Z := 0x30a8.
Definition offset_el2_stack_top : Z := 0x3100.
Definition offset_el3_stack_top : Z := 0x3140.
Definition offset_core : Z := 0x3ff0.
Definition offset_runnable : Z := 0x3ff8.

(** The registers of a [vm_state], in its order. *)
Definition vm_registers : list system_register :=
  [ mair_el1; sctlr_el1; tcr_el1; ttbr0_el1; ttbr1_el1; vbar_el1; actlr_el1; fpexc32_el2;
    esr_el1; far_el1; vttbr_el2; hcr_el2; hstr_el2; vmpidr_el2; vpidr_el2; vtcr_el2;
    dacr32_el2; contextidr_el1 ].

Fixpoint index_in (l : list system_register) (s : system_register) : nat :=
  match l with
  | [] => O
  | s' :: l => if decide (s = s') then O else S (index_in l s)
  end.

(** The offset of a register in a [vm_state]. *)
Definition offset_vm (s : system_register) : Z := 8 * Z.of_nat (index_in vm_registers s).

(** ** The code of the vectors *)

Definition SAVE_SYSTEM_REGISTER_PAIR (name1 name2 : system_register) : assembly :=
  [ Do (MRS (X 4) name1); Do (MRS (X 5) name2); Do (STP (X 4) (X 5) (Offset (X 3) (offset_vm name1))) ].

Definition LOAD_SYSTEM_REGISTER_PAIR (name1 name2 : system_register) : assembly :=
  [ Do (LDP (X 4) (X 5) (Offset (X 3) (offset_vm name1))); Do (MSR name1 (X 4)); Do (MSR name2 (X 5)) ].

Definition SAVE_VM_SYSTEM_REGS : assembly :=
  [ Do (LDR (X 3) (Offset (X 1) 8)); Do (ADDI (X 3) (X 3) sizeof_thread_context);
    Do (ANDI (X 3) (X 3) lomem_bits) ] ++
  SAVE_SYSTEM_REGISTER_PAIR mair_el1 sctlr_el1 ++
  SAVE_SYSTEM_REGISTER_PAIR tcr_el1 ttbr0_el1 ++
  SAVE_SYSTEM_REGISTER_PAIR ttbr1_el1 vbar_el1 ++
  SAVE_SYSTEM_REGISTER_PAIR actlr_el1 fpexc32_el2 ++
  SAVE_SYSTEM_REGISTER_PAIR esr_el1 far_el1 ++
  SAVE_SYSTEM_REGISTER_PAIR vttbr_el2 hcr_el2 ++
  SAVE_SYSTEM_REGISTER_PAIR hstr_el2 vmpidr_el2 ++
  SAVE_SYSTEM_REGISTER_PAIR vpidr_el2 vtcr_el2 ++
  SAVE_SYSTEM_REGISTER_PAIR dacr32_el2 contextidr_el1.

Definition LOAD_VM_SYSTEM_REGS : assembly :=
  [ Do (ADDI (X 3) (X 0) sizeof_thread_context) ] ++
  LOAD_SYSTEM_REGISTER_PAIR mair_el1 sctlr_el1 ++
  LOAD_SYSTEM_REGISTER_PAIR tcr_el1 ttbr0_el1 ++
  LOAD_SYSTEM_REGISTER_PAIR ttbr1_el1 vbar_el1 ++
  LOAD_SYSTEM_REGISTER_PAIR actlr_el1 fpexc32_el2 ++
  LOAD_SYSTEM_REGISTER_PAIR esr_el1 far_el1 ++
  LOAD_SYSTEM_REGISTER_PAIR vttbr_el2 hcr_el2 ++
  LOAD_SYSTEM_REGISTER_PAIR hstr_el2 vmpidr_el2 ++
  LOAD_SYSTEM_REGISTER_PAIR vpidr_el2 vtcr_el2 ++
  LOAD_SYSTEM_REGISTER_PAIR dacr32_el2 contextidr_el1.

Definition LOAD_SECURE_EL1_REGS : assembly :=
  [ Do (ADR (X 3) "secure_registers") ] ++
  LOAD_SYSTEM_REGISTER_PAIR mair_el1 sctlr_el1 ++
  [ Do (LDR (X 4) (Offset (X 3) (offset_vm tcr_el1)));
    Do (ADDI (X 2) (X 1) (16 - sizeof_Core + offset_physical_address));
    Do (LDR (X 5) (Offset (X 2) 0));
    Do (ADDI (X 5) (X 5) offset_core_tt_l1);
    Do (MSR tcr_el1 (X 4));
    Do (MSR ttbr0_el1 (X 5)) ] ++
  LOAD_SYSTEM_REGISTER_PAIR ttbr1_el1 vbar_el1.

Definition NEVER_SP0_CODE : assembly :=
  [ Label "in_el3";
    Do (MRS (X 3) scr_el3);
    Do (EORI (X 3) (X 3) 0x007);
    Do (EORI (X 3) (X 3) 0x100);
    Do (MSR scr_el3 (X 3));
    Do (TBZ (X 3) 0 "switch_to_secure");
    Do (ADDI SP SP 32);
    Do (LDR (X 0) (Offset (X 1) 8));
    Do (ANDI (X 0) (X 0) lomem_bits) ] ++
  LOAD_VM_SYSTEM_REGS ++
  [ Do (LDP (X 2) (X 3) (Offset (X 0) offset_pc));
    Do (MSR elr_el3 (X 2));
    Do (MSR spsr_el3 (X 3));
    Do (ANDI (X 29) (X 3) 15);
    Do (CMPI (X 29) 0xd);
    Do (BNE "resume_ns_thread");
    Do (BL "bsod");
    Do (B "resume_ns_thread");
    Label "restore_secure_system_regs" ] ++
  SAVE_VM_SYSTEM_REGS ++
  LOAD_SECURE_EL1_REGS ++
  [ Do RET ].

Definition SPX_SYNC_CODE : assembly :=
  [ Do (BL "bsod");
    Label "bsod";
    Do (NOP "msr DAIFSet, #0x3");
    Do (MOV (X 1) SP);
    Do (ORRI SP (X 1) 0xff0);
    Do (B "c_bsod") ].

Definition SPX_IRQ_CODE : assembly :=
  [ Do (BL "bsod");
    Label "resume_ns_thread";
    load_pair 2 3; load_pair 4 5; load_pair 6 7; load_pair 8 9; load_pair 10 11;
    load_pair 12 13; load_pair 14 15; load_pair 16 17; load_pair 18 19; load_pair 20 21;
    load_pair 22 23; load_pair 24 25; load_pair 26 27; load_pair 28 29;
    Do (LDR (X 30) (Offset (X 0) (offset_regs 30)));
    load_pair 0 1;
    Do ERET ].

(** [offset] is [VBAR_EL23_LOWER_AARCH64_SYNC - VBAR_EL23]. *)
Definition SPX_SERROR_CODE (offset : Z) : assembly :=
  [ Do (BL "bsod");
    Label "switch_to_secure";
    Do (STP (X 4) (X 5) (PreIndex SP (-16)));
    Do (MOV (X 0) (X 30));
    Do (BL "restore_secure_system_regs");
    Do (MOV (X 30) (X 0));
    Do (MRS (X 2) elr_el2);
    Do (MSR elr_el1 (X 2));
    Do (MRS (X 3) spsr_el2);
    Do (TBZ (X 3) 4 "c_bsod");
    Do (MSR spsr_el1 (X 3));
    Do (MOVI (X 0) 0x56000000);
    Do (MOVK (X 0) ISAMBARD_SWITCH_TO_PARTNER);
    Do (MSR esr_el1 (X 0));
    Do (MRS (X 0) vbar_el1);
    Do (ADDI (X 0) (X 0) offset);
    Do (MSR elr_el3 (X 0));
    Do (MOVI (X 0) 0x3c5);
    Do (MSR spsr_el3 (X 0));
    Do (LDP (X 4) (X 5) (PostIndex SP 16));
    Do (LDP (X 2) (X 3) (Offset SP 16));
    Do (LDP (X 0) (X 1) (PostIndex SP 32));
    Do ERET ].

Definition LOWER_AARCH64_SYNC_CODE : assembly :=
  [ Do (STP (X 0) (X 1) (PreIndex SP (-32)));
    Do (STP (X 2) (X 3) (Offset SP 16));
    Do (MOV (X 1) SP);
    Do (ORRI (X 1) (X 1) 0xff0);
    Do (NOP "dc ivac, x1");
    Do (MRS_CurrentEL (X 0));
    Do (TBNZ (X 0) 2 "in_el3");
    Do (LDR (X 2) (Offset (X 1) 8));
    Do (ANDI (X 2) (X 2) lomem_bits);
    Do (ADDI (X 1) (X 2) offset_partner);
    Do (NOP "dc ivac, x1");
    Do (LDR (X 1) (Offset (X 2) offset_partner));
    Do (ANDI (X 1) (X 1) lomem_bits);
    Do (ADDI (X 1) (X 1) (offset_regs 0));
    Do (NOP "dc ivac, x1");
    Do (MRS (X 2) elr_el2);
    Do (MRS (X 3) esr_el2);
    Do (STP (X 2) (X 3) (Offset (X 1) 0));
    Do (MRS (X 2) far_el2);
    Do (MRS (X 3) hpfar_el2);
    Do (STP (X 2) (X 3) (Offset (X 1) 16));
    Do (NOP "dc civac, x1");
    Do (LDP (X 2) (X 3) (Offset SP 16));
    Do (LDP (X 0) (X 1) (PostIndex SP 32));
    Do (NOP "dsb sy"); Do (NOP "isb sy"); Do (NOP "ic iallu"); Do (NOP "tlbi alle2");
    Do (NOP "tlbi vmalls12e1is");
    Do (SMC 0) ].

(** [offset] is the offset of the entry in the table. *)
Definition REDIRECT_INTERRUPT_TO_SECURE_EL1 (offset : Z) : assembly :=
  [ Do (STP (X 0) (X 1) (PreIndex SP (-48)));
    Do (STP (X 2) (X 3) (Offset SP 16));
    Do (STP (X 4) (X 5) (Offset SP 32));
    Do (MOV (X 1) SP);
    Do (ORRI (X 1) (X 1) 0xff0);
    Do (MOV (X 0) (X 30));
    Do (BL "restore_secure_system_regs");
    Do (MOV (X 30) (X 0));
    Do (MRS (X 0) elr_el3);
    Do (MSR elr_el1 (X 0));
    Do (MRS (X 0) spsr_el3);
    Do (MSR spsr_el1 (X 0));
    Do (MRS (X 0) vbar_el1);
    Do (ADDI (X 0) (X 0) offset);
    Do (MSR elr_el3 (X 0));
    Do (MRS (X 0) scr_el3);
    Do (EORI (X 0) (X 0) 0x007);
    Do (EORI (X 0) (X 0) 0x100);
    Do (MSR scr_el3 (X 0));
    Do (MOVI (X 0) 0x3c5);
    Do (MSR spsr_el3 (X 0));
    Do (LDP (X 4) (X 5) (Offset SP 32));
    Do (LDP (X 2) (X 3) (Offset SP 16));
    Do (LDP (X 0) (X 1) (PostIndex SP 48));
    Do ERET ].

(** ** The table *)

(** The entries after the first four, which the table uses for other code. *)
Inductive event :=
| SPX_SYNC | SPX_IRQ | SPX_FIQ | SPX_SERROR
| LOWER_AARCH64_SYNC | LOWER_AARCH64_IRQ | LOWER_AARCH64_FIQ | LOWER_AARCH64_SERROR
| LOWER_AARCH32_SYNC | LOWER_AARCH32_IRQ | LOWER_AARCH32_FIQ | LOWER_AARCH32_SERROR.

Definition events : list event :=
  [ SPX_SYNC; SPX_IRQ; SPX_FIQ; SPX_SERROR;
    LOWER_AARCH64_SYNC; LOWER_AARCH64_IRQ; LOWER_AARCH64_FIQ; LOWER_AARCH64_SERROR;
    LOWER_AARCH32_SYNC; LOWER_AARCH32_IRQ; LOWER_AARCH32_FIQ; LOWER_AARCH32_SERROR ].

#[export] Instance event_eq_dec : EqDecision event.
Proof. solve_decision. Defined.

Fixpoint index_of (l : list event) (e : event) : nat :=
  match l with
  | [] => O
  | e' :: l => if decide (e = e') then O else S (index_of l e)
  end.

(** The position of an entry: 32 instructions each, after the 128 of the first four. *)
Definition entry (e : event) : nat := 128 + 32 * index_of events e.

(** The offset in bytes. *)
Definition entry_offset (e : event) : Z := 4 * Z.of_nat (entry e).

Definition event_code (e : event) : assembly :=
  match e with
  | SPX_SYNC => SPX_SYNC_CODE
  | SPX_IRQ => SPX_IRQ_CODE
  | SPX_FIQ => [Do (BL "bsod")]
  | SPX_SERROR => SPX_SERROR_CODE (entry_offset LOWER_AARCH64_SYNC)
  | LOWER_AARCH64_SYNC | LOWER_AARCH32_SYNC => LOWER_AARCH64_SYNC_CODE
  | LOWER_AARCH64_IRQ | LOWER_AARCH64_FIQ | LOWER_AARCH32_IRQ | LOWER_AARCH32_FIQ =>
      REDIRECT_INTERRUPT_TO_SECURE_EL1 (entry_offset e)
  | LOWER_AARCH64_SERROR | LOWER_AARCH32_SERROR => [Do (BL "bsod")]
  end.

(** [.balign]: the code, filled up to [size] instructions. *)
Definition balign (size : nat) (code : assembly) : assembly :=
  (code ++ replicate (size - instructions code) (Do (NOP "padding")))%list.

(** The checks of the table's macro on an entry: not too short, not too long. *)
Definition fits (size : nat) (code : assembly) : bool :=
  (0 <? instructions code)%nat && (instructions code <=? size)%nat.

Definition AARCH64_VECTOR_TABLE (first : assembly) (code : event → assembly) : assembly :=
  (balign 128 first ++ concat (map (λ e, balign 32 (code e)) events))%list.

Definition VBAR_EL23 : assembly := AARCH64_VECTOR_TABLE NEVER_SP0_CODE event_code.

(** ** Exceptions *)

(** The processor takes an exception to [el] from code at [pc] with the status [ps]. *)
Definition exception_to_el2 (pc ps esr far hpfar : Z) (c : cpu) : cpu :=
  write_sys hpfar_el2 hpfar (write_sys far_el2 far (write_sys esr_el2 esr
    (write_sys spsr_el2 ps (write_sys elr_el2 pc (set_level 2 c))))).

Definition exception_to_el3 (pc ps : Z) (c : cpu) : cpu :=
  write_sys spsr_el3 ps (write_sys elr_el3 pc (set_level 3 c)).

(** The addresses of the linker that the vectors use. *)
Section vectors.
(** [base] is [VBAR_EL23], [secure_registers] the variable of [secure_el1.c]. *)
Context (base secure_registers : Z).

Definition linker (s : string) : Z :=
  if String.eqb s "secure_registers" then secure_registers else 0.

(** The longest path is shorter than this. *)
Definition vector_fuel : nat := 160.

Definition take_vector (e : event) (c : cpu) : outcome :=
  run VBAR_EL23 base linker vector_fuel (entry e) c.
End vectors.

(** ** The two ways out of a guest, and the way into it *)

Section switch.
Context (base secure_registers : Z).

(** A trap of the guest at [pc] with the status [ps]: EL2, and from there EL3.  0x3c9 is
    the status of EL2 with everything masked. *)
Definition guest_trap (pc ps esr far hpfar : Z) (c : cpu) : outcome :=
  match take_vector base secure_registers LOWER_AARCH32_SYNC (exception_to_el2 pc ps esr far hpfar c) with
  | Smcs 0 n c1 =>
      take_vector base secure_registers LOWER_AARCH64_SYNC
        (exception_to_el3 (base + 4 * Z.of_nat n) 0x3c9 c1)
  | o => o
  end.

(** An interrupt [e] while the guest runs. *)
Definition guest_interrupt (e : event) (pc ps : Z) (c : cpu) : outcome :=
  take_vector base secure_registers e (exception_to_el3 pc ps c).

(** Secure EL1 calls EL3 from [pc], the [smc 0] of [el1_enter_thread]. *)
Definition enter_guest (pc ps : Z) (c : cpu) : outcome :=
  take_vector base secure_registers LOWER_AARCH64_SYNC (exception_to_el3 pc ps c).
End switch.

(** The exception return of EL3 to secure EL1. *)
Definition at_el1 (c : cpu) : cpu := set_level 1 c.
