(* ===== verification/WorldSwitchFacts.v ===== *)
(** * The world switch keeps the state of a guest

    What the vectors of [WorldSwitch] do, by running them: [el2_trap], [el3_to_secure],
    [redirect_to_secure] and [el3_to_guest] give the state at the end of each path.
    Together with the exception code of secure EL1 ([Vectors]) a guest that traps or
    is interrupted finds its whole state again when it is entered the next time. *)

From stdpp Require Import base list strings.
From Stdlib Require Import ZArith Lia.
From S2P Require Svc.
From S2P Require Import Prelude Kernel Aarch64 Vectors WorldSwitch.

Open Scope string_scope.
Open Scope list_scope.
Open Scope Z_scope.

(** ** The layout of the table *)

Lemma fetch_app p q n : fetch (p ++ q) (instructions p + n) = fetch q n.
Proof. induction p as [| [l | i] p IH]; cbn; auto. Qed.

Lemma fetch_app_l p q n : (n < instructions p)%nat → fetch (p ++ q) n = fetch p n.
Proof.
  revert n. induction p as [| [l | i] p IH]; intros n H; cbn in *; [lia | auto |].
  destruct n; [done |]. apply IH. lia.
Qed.

Lemma instructions_app p q : instructions (p ++ q) = (instructions p + instructions q)%nat.
Proof. induction p as [| [l | i] p IH]; cbn; auto. Qed.

Lemma instructions_padding n i : instructions (replicate n (Do i)) = n.
Proof. induction n; cbn; auto. Qed.

Lemma instructions_balign size p : fits size p = true → instructions (balign size p) = size.
Proof.
  unfold fits, balign. intros [_ H%Nat.leb_le]%andb_prop.
  rewrite instructions_app, instructions_padding. lia.
Qed.

Lemma fetch_entries (code : event → assembly) es e n :
  Forall (λ e, fits 32 (code e) = true) es → e ∈ es → (n < instructions (code e))%nat →
  fetch (concat (map (λ e, balign 32 (code e)) es)) (32 * index_of es e + n) = fetch (code e) n.
Proof.
  intros Hf He Hn. induction es as [| e' es IH]; [by apply elem_of_nil in He |].
  apply Forall_cons in Hf as [Hf Hfs]. cbn [map concat index_of].
  pose proof (instructions_balign _ _ Hf) as Hb. destruct (decide (e = e')) as [-> | Hne].
  - rewrite Nat.mul_0_r, fetch_app_l by (rewrite Hb; unfold fits in Hf; apply andb_prop in Hf as [_ Hf%Nat.leb_le]; lia).
    unfold balign. now apply fetch_app_l.
  - apply elem_of_cons in He as [-> | He]; [done |].
    replace (32 * S (index_of es e) + n)%nat with (instructions (balign 32 (code e')) + (32 * index_of es e + n))%nat by lia.
    rewrite fetch_app. now apply IH.
Qed.

(** A table whose entries pass the checks of the macro is 2KB long, and the instructions of an
    entry are where the processor takes its exception. *)
Lemma table_entry first code e n :
  fits 128 first = true → Forall (λ e, fits 32 (code e) = true) events →
  (n < instructions (code e))%nat →
  fetch (AARCH64_VECTOR_TABLE first code) (entry e + n) = fetch (code e) n ∧
  instructions (AARCH64_VECTOR_TABLE first code) = 512%nat.
Proof.
  intros H1 Hf Hn. unfold AARCH64_VECTOR_TABLE, entry.
  pose proof (instructions_balign _ _ H1) as Hb. split.
  - replace (128 + 32 * index_of events e + n)%nat
      with (instructions (balign 128 first) + (32 * index_of events e + n))%nat by lia.
    rewrite fetch_app. apply fetch_entries; [done | | done].
    destruct e; unfold events; set_solver.
  - rewrite instructions_app, Hb. unfold events in *. cbn [map concat].
    rewrite !instructions_app. rewrite !Forall_cons in Hf. destruct_and?.
    repeat match goal with H : fits 32 _ = true |- _ => rewrite (instructions_balign _ _ H); clear H end.
    reflexivity.
Qed.

(** The shared table of EL2 and EL3 passes the checks, and so does an entry of the table
    of secure EL1. *)
Lemma VBAR_EL23_fits : fits 128 NEVER_SP0_CODE = true ∧ Forall (λ e, fits 32 (event_code e) = true) events.
Proof. split; [done |]. unfold events. repeat constructor. Qed.

Lemma C_HANDLER_fits event : fits 32 (C_HANDLER event) = true.
Proof. done. Qed.

(** ** The core and its guest *)

Lemma testbit_page k a n :
  0 ≤ a < 2 ^ 12 → 0 ≤ n →
  Z.testbit (2 ^ 12 * k + a) n = if n <? 12 then Z.testbit a n else Z.testbit k (n - 12).
Proof.
  intros Ha Hn. destruct (Z.ltb_spec n 12).
  - rewrite <-(Z.mod_pow2_bits_low _ 12) by lia. f_equal.
    rewrite Z.add_comm, Z.mul_comm, Z.mod_add by lia. now apply Z.mod_small.
  - replace n with (n - 12 + 12) at 1 by lia. rewrite <-Z.div_pow2_bits by lia. f_equal.
    rewrite Z.add_comm, Z.mul_comm, Z.div_add by lia. rewrite Z.div_small by lia. lia.
Qed.

(** The last words of a page, from an address in the page. *)
Lemma lor_page k a b c :
  Z.lor a b = c → 0 ≤ a < 2 ^ 12 → 0 ≤ b < 2 ^ 12 → 0 ≤ c < 2 ^ 12 →
  Z.lor (2 ^ 12 * k + a) b = 2 ^ 12 * k + c.
Proof.
  intros Hc Ha Hb Hc'. apply Z.bits_inj'. intros n Hn. rewrite Z.lor_spec.
  rewrite !testbit_page, <-Hc by lia. replace b with (2 ^ 12 * 0 + b) at 1 by lia.
  rewrite testbit_page by lia. rewrite Z.lor_spec.
  destruct (n <? 12); [done |]. rewrite Z.testbit_0_l. apply orb_false_r.
Qed.

(** The [Core] is at [core], its [runnable] is the thread [g], a guest at [pg] with the partner [s]
    at [ps]. *)
Record guest_runs (c : cpu) (core g pg s ps : Z) : Prop := {
  gr_core : object_at core core sizeof_Core;
  gr_page : core mod 2 ^ 12 = 0;
  gr_runnable : words c (core + offset_runnable) = g;
  gr_guest : object_at g pg (sizeof_thread_context + sizeof_vm_state);
  gr_partner : words c (pg + offset_partner) = s;
  gr_secure : object_at s ps sizeof_thread_context;
  gr_apart : apart pg (sizeof_thread_context + sizeof_vm_state) core sizeof_Core;
  gr_apart' : apart ps sizeof_thread_context core sizeof_Core;
  gr_apart'' : apart pg (sizeof_thread_context + sizeof_vm_state) ps sizeof_thread_context;
}.

Lemma top_of_core core o :
  core mod 2 ^ 12 = 0 → 0 ≤ core → core + sizeof_Core ≤ 2 ^ 25 → 0x3000 ≤ o < 0x4000 →
  Z.lor (o - 0x3000) 0xff0 = 0xff0 → Z.lor (u64 (core + o)) 0xff0 = core + 0x3ff0.
Proof.
  unfold sizeof_Core. intros Hm Hc Hs Ho Hl. rewrite u64_id by (unfold is_u64; lia).
  rewrite (Z.div_mod core (2 ^ 12)), Hm, Z.add_0_r by lia.
  replace (2 ^ 12 * (core `div` 2 ^ 12) + o)
    with (2 ^ 12 * (core `div` 2 ^ 12 + 3) + (o - 0x3000)) by lia.
  rewrite (lor_page _ _ _ 0xff0) by (done || lia). lia.
Qed.

(** The address of the last words, in the middle of a run. *)
Ltac top_of_page o :=
  match goal with
  | |- context [Z.lor (u64 (?core + ?a + ?b)) 4080] =>
      rewrite <-(Z.add_assoc core a b); change (a + b) with o;
      rewrite (top_of_core core o) by (reflexivity || assumption || unfold sizeof_Core; lia)
  end.

Section guest.
Context (base secure_registers : Z).

Lemma el2_trap c core g pg s ps :
  guest_runs c core g pg s ps → level c = 2 → stack c 2 = core + offset_el2_stack_top →
  ∃ n c1, take_vector base secure_registers LOWER_AARCH32_SYNC c = Smcs 0 n c1 ∧
    map (x c1) (seqZ 0 31) = map (x c) (seqZ 0 31) ∧ level c1 = 2 ∧ sys c1 = sys c ∧
    map (stack c1) (seqZ 0 4) = map (stack c) (seqZ 0 4) ∧
    map (λ n, words c1 (ps + offset_regs n)) (seqZ 0 4) =
      [sys c elr_el2; sys c esr_el2; sys c far_el2; sys c hpfar_el2] ∧
    ∀ a, ¬ (ps + 32 ≤ a < ps + 64) → ¬ (core + 0x30e0 ≤ a < core + 0x3100) → words c1 a = words c a.
Proof.
  intros [[Hco Hco'] Hpage Hrun [Hg Hg'] Hpart [Hs Hs'] Ha Ha' Ha''] Hl Hst.
  open_state c.
  unfold apart, sizeof_thread_context, sizeof_vm_state, sizeof_Core, offset_runnable, offset_partner,
    offset_el2_stack_top in *. subst lv. unfold take_vector, vector_fuel.
  assert (physical (st 2) = core + 0x3100) as Hst2 by (rewrite Hst; apply physical_shift; [done | lia]).
  pose proof (physical_low pg ltac:(lia)) as Hpg. pose proof (physical_low ps ltac:(lia)) as Hps.
  steps_in_memory 6%nat. steps 1%nat. change (Z.testbit (4 * 2) 2) with false. cbv iota beta. cbn [continue].
  top_of_page 0x30e0. steps_in_memory 2%nat. steps_in_memory 4%nat. steps_in_memory 2%nat.
  evaluate_run. addresses. eexists _, _. split; [reflexivity |]. unfold offset_regs. state_facts.
  other_words.
Qed.

(** EL3 takes the guest to the vectors of secure EL1. *)
Lemma el3_to_secure c core g pg s ps sr pa :
  guest_runs c core g pg s ps → level c = 3 → stack c 3 = core + offset_el3_stack_top →
  object_at secure_registers sr sizeof_vm_state → apart sr sizeof_vm_state core sizeof_Core →
  apart sr sizeof_vm_state pg (sizeof_thread_context + sizeof_vm_state) →
  words c (core + offset_physical_address) = pa →
  Z.testbit (sys c scr_el3) 0 = true → Z.testbit (sys c spsr_el2) 4 = true →
  ∃ c1, take_vector base secure_registers LOWER_AARCH64_SYNC c = Erets c1 ∧
    map (x c1) (seqZ 0 31) = map (x c) (seqZ 0 31) ∧ level c1 = 3 ∧
    map (stack c1) (seqZ 0 4) = map (stack c) (seqZ 0 4) ∧
    map (λ s, words c1 (pg + (sizeof_thread_context + offset_vm s))) vm_registers = map (sys c) vm_registers ∧
    map (sys c1) [elr_el1; spsr_el1; esr_el1] =
      [sys c elr_el2; sys c spsr_el2; 0x5600f00c] ∧
    map (sys c1) [elr_el3; spsr_el3; scr_el3] =
      [u64 (words c (sr + offset_vm vbar_el1) + 0x400); 0x3c5;
       Z.lxor (Z.lxor (sys c scr_el3) 0x007) 0x100] ∧
    map (sys c1) [mair_el1; sctlr_el1; tcr_el1; ttbr1_el1; vbar_el1] =
      map (λ s, words c (sr + offset_vm s)) [mair_el1; sctlr_el1; tcr_el1; ttbr1_el1; vbar_el1] ∧
    sys c1 ttbr0_el1 = u64 (pa + offset_core_tt_l1) ∧
    ∀ a, ¬ (pg + 488 ≤ a < pg + 632) → ¬ (core + 0x3110 ≤ a < core + 0x3140) → words c1 a = words c a.
Proof.
  intros [[Hco Hco'] Hpage Hrun [Hg Hg'] Hpart [Hs Hs'] Ha Ha' Ha''] Hl Hst [Hsr Hsr'] Hr Hr' Hpa Hscr Hspsr.
  open_state c.
  unfold apart, sizeof_thread_context, sizeof_vm_state, sizeof_Core, offset_runnable, offset_partner,
    offset_el3_stack_top, offset_physical_address, offset_core_tt_l1 in *.
  subst lv. unfold take_vector, vector_fuel.
  assert (physical (st 3) = core + 0x3140) as Hst3 by (rewrite Hst; apply physical_shift; [done | lia]).
  pose proof (physical_low pg ltac:(lia)) as Hpg. pose proof (physical_low ps ltac:(lia)) as Hps.
  assert (Z.testbit (Z.lxor (Z.lxor (sy scr_el3) 7) 256) 0 = false) as Hscr'
    by (rewrite !Z.lxor_spec, Hscr; reflexivity).
  assert (physical (core + 0x3ff0) = core + 0x3ff0) as Htop by (apply physical_low; lia).
  steps_in_memory 6%nat. steps 1%nat. change (Z.testbit (4 * 3) 2) with true. cbv iota beta. cbn [continue].
  top_of_page 0x3120.
  steps 5%nat. decided Hscr'.
  steps_in_memory 3%nat. steps_in_memory 3%nat. steps_in_memory 27%nat.
  steps_in_memory 4%nat. steps_in_memory 2%nat. steps_in_memory 8%nat. returns_back.
  steps_in_memory 4%nat. steps 1%nat. decided Hspsr.
  steps_in_memory 4%nat. steps_in_memory 7%nat. steps_in_memory 2%nat.
  eexists. split; [reflexivity |].
  unfold sizeof_thread_context, offset_vm. state_facts. other_words.
Qed.

(** EL3 enters the guest that secure EL1 made [runnable]. *)
Lemma el3_to_guest c core g pg s ps :
  guest_runs c core g pg s ps → level c = 3 → stack c 3 = core + offset_el3_stack_top →
  Z.testbit (sys c scr_el3) 0 = false → Z.land (words c (pg + offset_spsr)) 15 ≠ 0xd →
  ∃ c1, take_vector base secure_registers LOWER_AARCH64_SYNC c = Erets c1 ∧
    map (x c1) (seqZ 0 31) = map (λ n, words c (pg + offset_regs n)) (seqZ 0 31) ∧
    map (sys c1) [elr_el3; spsr_el3] = [words c (pg + offset_pc); words c (pg + offset_spsr)] ∧
    map (sys c1) vm_registers = map (λ s, words c (pg + (sizeof_thread_context + offset_vm s))) vm_registers ∧
    sys c1 scr_el3 = Z.lxor (Z.lxor (sys c scr_el3) 0x007) 0x100 ∧
    level c1 = 3 ∧ map (stack c1) (seqZ 0 4) = map (stack c) (seqZ 0 4) ∧
    ∀ a, ¬ (core + 0x3120 ≤ a < core + 0x3140) → words c1 a = words c a.
Proof.
  intros [[Hco Hco'] Hpage Hrun [Hg Hg'] Hpart [Hs Hs'] Ha Ha' Ha''] Hl Hst Hscr Hspsr.
  open_state c.
  unfold apart, sizeof_thread_context, sizeof_vm_state, sizeof_Core, offset_runnable, offset_partner,
    offset_el3_stack_top, offset_spsr, offset_pc in *.
  subst lv. unfold take_vector, vector_fuel.
  assert (physical (st 3) = core + 0x3140) as Hst3 by (rewrite Hst; apply physical_shift; [done | lia]).
  pose proof (physical_low pg ltac:(lia)) as Hpg.
  assert (Z.testbit (Z.lxor (Z.lxor (sy scr_el3) 7) 256) 0 = true) as Hscr'
    by (rewrite !Z.lxor_spec, Hscr; reflexivity).
  assert (physical (core + 0x3ff0) = core + 0x3ff0) as Htop by (apply physical_low; lia).
  steps_in_memory 6%nat. steps 1%nat. change (Z.testbit (4 * 3) 2) with true. cbv iota beta. cbn [continue].
  top_of_page 0x3120. steps 5%nat. decided Hscr'.
  steps_in_memory 2%nat. steps_in_memory 2%nat. steps_in_memory 27%nat. steps_in_memory 5%nat.
  rewrite (bool_decide_eq_false_2 _ Hspsr). steps 1%nat. evaluate_run. addresses. word.
  eexists. split; [reflexivity |]. unfold sizeof_thread_context, offset_vm, offset_regs.
  state_facts. other_words.
Qed.

(** An interrupt of the guest goes to the vectors of secure EL1. *)
Lemma redirect_to_secure e c core g pg s ps sr pa :
  e ∈ [LOWER_AARCH64_IRQ; LOWER_AARCH64_FIQ; LOWER_AARCH32_IRQ; LOWER_AARCH32_FIQ] →
  guest_runs c core g pg s ps → level c = 3 → stack c 3 = core + offset_el3_stack_top →
  object_at secure_registers sr sizeof_vm_state → apart sr sizeof_vm_state core sizeof_Core →
  apart sr sizeof_vm_state pg (sizeof_thread_context + sizeof_vm_state) →
  words c (core + offset_physical_address) = pa →
  ∃ c1, take_vector base secure_registers e c = Erets c1 ∧
    map (x c1) (seqZ 0 31) = map (x c) (seqZ 0 31) ∧ level c1 = 3 ∧
    map (stack c1) (seqZ 0 4) = map (stack c) (seqZ 0 4) ∧
    map (λ s, words c1 (pg + (sizeof_thread_context + offset_vm s))) vm_registers = map (sys c) vm_registers ∧
    map (sys c1) [elr_el1; spsr_el1] = [sys c elr_el3; sys c spsr_el3] ∧
    map (sys c1) [elr_el3; spsr_el3; scr_el3] =
      [u64 (words c (sr + offset_vm vbar_el1) + entry_offset e); 0x3c5;
       Z.lxor (Z.lxor (sys c scr_el3) 0x007) 0x100] ∧
    map (sys c1) [mair_el1; sctlr_el1; tcr_el1; ttbr1_el1; vbar_el1] =
      map (λ s, words c (sr + offset_vm s)) [mair_el1; sctlr_el1; tcr_el1; ttbr1_el1; vbar_el1] ∧
    sys c1 ttbr0_el1 = u64 (pa + offset_core_tt_l1) ∧
    ∀ a, ¬ (pg + 488 ≤ a < pg + 632) → ¬ (core + 0x3110 ≤ a < core + 0x3140) → words c1 a = words c a.
Proof.
  intros He [[Hco Hco'] Hpage Hrun [Hg Hg'] Hpart [Hs Hs'] Ha Ha' Ha''] Hl Hst [Hsr Hsr'] Hr Hr' Hpa.
  open_state c.
  unfold apart, sizeof_thread_context, sizeof_vm_state, sizeof_Core, offset_runnable, offset_partner,
    offset_el3_stack_top, offset_physical_address, offset_core_tt_l1 in *.
  subst lv. unfold take_vector, vector_fuel.
  assert (physical (st 3) = core + 0x3140) as Hst3 by (rewrite Hst; apply physical_shift; [done | lia]).
  pose proof (physical_low pg ltac:(lia)) as Hpg. pose proof (physical_low ps ltac:(lia)) as Hps.
  assert (physical (core + 0x3ff0) = core + 0x3ff0) as Htop by (apply physical_low; lia).
  repeat (apply elem_of_cons in He; destruct He as [-> | He]); [.. | by apply elem_of_nil in He];
    (steps_in_memory 5%nat; top_of_page 0x3110; steps_in_memory 5%nat; steps_in_memory 27%nat;
     steps_in_memory 4%nat; steps_in_memory 2%nat; steps_in_memory 8%nat; returns_back;
     steps_in_memory 8%nat; evaluate_run; system_registers; addresses; word;
     eexists; split; [reflexivity |];
     unfold sizeof_thread_context, offset_vm, entry_offset; state_facts; other_words).
Qed.
End guest.

(** ** Out of the guest and back *)

Lemma offset_vm_range r : r ∈ vm_registers → 0 ≤ offset_vm r < 144.
Proof.
  intros H. destruct r; try (vm_compute; split; congruence); exfalso; revert H;
    rewrite list_elem_of_In; cbn; intuition congruence.
Qed.

(** [guest_runs] is a matter of memory. *)
Lemma guest_runs_ext c c' core g pg s ps :
  guest_runs c core g pg s ps → words c' (core + offset_runnable) = words c (core + offset_runnable) →
  words c' (pg + offset_partner) = words c (pg + offset_partner) → guest_runs c' core g pg s ps.
Proof. intros [] H H'. split; congruence. Qed.

Lemma exception_to_el2_sys pc st esr far hpfar c :
  let c' := exception_to_el2 pc st esr far hpfar c in
  map (sys c') [elr_el2; spsr_el2; esr_el2; far_el2; hpfar_el2] = [pc; st; esr; far; hpfar] ∧
  map (sys c') (scr_el3 :: vm_registers) = map (sys c) (scr_el3 :: vm_registers).
Proof.
  unfold exception_to_el2, write_sys, set_level, set_sys; cbn [sys vm_registers map].
  split; system_registers; done.
Qed.

Lemma exception_to_el3_sys pc st c :
  let c' := exception_to_el3 pc st c in
  map (sys c') [elr_el3; spsr_el3] = [pc; st] ∧
  map (sys c') (elr_el2 :: spsr_el2 :: scr_el3 :: vm_registers) =
    map (sys c) (elr_el2 :: spsr_el2 :: scr_el3 :: vm_registers).
Proof.
  unfold exception_to_el3, write_sys, set_level, set_sys; cbn [sys vm_registers map].
  split; system_registers; done.
Qed.

(** The guest [g] was left at [pc] with the status [st]: [c] is the processor in the guest, [c1]
    when EL3 returns to secure EL1, at the offset [o] of its vectors. *)
Record guest_left (c c1 : cpu) (core pg pc st sr pa o : Z) : Prop := {
  gl_registers : map (x c1) (seqZ 0 31) = map (x c) (seqZ 0 31);
  gl_stacks : map (stack c1) (seqZ 0 4) = map (stack c) (seqZ 0 4);
  gl_vm : map (λ s, words c1 (pg + (sizeof_thread_context + offset_vm s))) vm_registers =
          map (sys c) vm_registers;
  gl_return : map (sys c1) [elr_el1; spsr_el1] = [pc; st];
  gl_vector : map (sys c1) [elr_el3; spsr_el3] = [u64 (words c (sr + offset_vm vbar_el1) + o); 0x3c5];
  gl_secure : sys c1 scr_el3 = Z.lxor (Z.lxor (sys c scr_el3) 0x007) 0x100;
  gl_tables : map (sys c1) [mair_el1; sctlr_el1; tcr_el1; ttbr1_el1; vbar_el1] =
              map (λ s, words c (sr + offset_vm s)) [mair_el1; sctlr_el1; tcr_el1; ttbr1_el1; vbar_el1];
  gl_core_table : sys c1 ttbr0_el1 = u64 (pa + offset_core_tt_l1);
  gl_runnable : words c1 (core + offset_runnable) = words c (core + offset_runnable);
  gl_partner : words c1 (pg + offset_partner) = words c (pg + offset_partner);
}.

(** The memory around the guest: the stacks of EL2 and EL3, the saved secure registers. *)
Record switchable (c : cpu) (secure_registers core g pg s ps sr pa : Z) : Prop := {
  sw_guest : guest_runs c core g pg s ps;
  sw_stack2 : stack c 2 = core + offset_el2_stack_top;
  sw_stack3 : stack c 3 = core + offset_el3_stack_top;
  sw_secure : object_at secure_registers sr sizeof_vm_state;
  sw_apart : apart sr sizeof_vm_state core sizeof_Core;
  sw_apart' : apart sr sizeof_vm_state pg (sizeof_thread_context + sizeof_vm_state);
  sw_apart'' : apart sr sizeof_vm_state ps sizeof_thread_context;
  sw_physical : words c (core + offset_physical_address) = pa;
  sw_non_secure : Z.testbit (sys c scr_el3) 0 = true;
}.

Section round_trip.
Context (base secure_registers : Z) (c : cpu) (core g pg s ps sr pa : Z).
Context (Hsw : switchable c secure_registers core g pg s ps sr pa).

Lemma interrupt_leaves_guest e pc st :
  e ∈ [LOWER_AARCH64_IRQ; LOWER_AARCH64_FIQ; LOWER_AARCH32_IRQ; LOWER_AARCH32_FIQ] →
  ∃ c1, guest_interrupt base secure_registers e pc st c = Erets c1 ∧
    guest_left c c1 core pg pc st sr pa (entry_offset e).
Proof.
  intros He. destruct Hsw as [Hg _ Hst Hs Ha Ha' _ Hpa Hns].
  destruct (exception_to_el3_sys pc st c) as [Hl Hsys].
  destruct (redirect_to_secure base secure_registers e (exception_to_el3 pc st c) core g pg s ps sr pa)
    as (c1 & H & Hx & _ & Hstk & Hvm & Hret & Hvec & Htab & Ht0 & Ho); try done.
  { exact (guest_runs_ext c (exception_to_el3 pc st c) _ _ _ _ _ Hg eq_refl eq_refl). }
  exists c1. split; [exact H |]. cbn [map vm_registers] in Hl, Hsys.
  destruct Hg as [[_ Hc] _ _ _ _ _ Hp _ _]. unfold apart, sizeof_thread_context, sizeof_vm_state, sizeof_Core in *.
  split; try exact Hx; try exact Hstk; try exact Htab; try exact Ht0.
  - unfold sizeof_thread_context. rewrite Hvm. unfold vm_registers. cbn [map]. congruence.
  - rewrite Hret. congruence.
  - cbn [map] in Hvec |- *. change (words (exception_to_el3 pc st c)) with (words c) in Hvec. congruence.
  - cbn [map] in Hvec. congruence.
  - apply Ho; unfold offset_runnable; lia.
  - apply Ho; unfold offset_partner; lia.
Qed.

(** A trap of an AArch32 guest; the partner finds the syndrome in its first four registers. *)
Lemma trap_leaves_guest pc st esr far hpfar :
  Z.testbit st 4 = true →
  ∃ c1, guest_trap base secure_registers pc st esr far hpfar c = Erets c1 ∧
    guest_left c c1 core pg pc st sr pa (entry_offset LOWER_AARCH64_SYNC) ∧
    sys c1 esr_el1 = 0x5600f00c ∧
    map (λ n, words c1 (ps + offset_regs n)) (seqZ 0 4) = [pc; esr; far; hpfar].
Proof.
  intros Hst4. destruct Hsw as [Hg Hst2 Hst3 Hs Ha Ha' Ha'' Hpa Hns].
  destruct (exception_to_el2_sys pc st esr far hpfar c) as [Hl2 Hsys2].
  pose (c0 := exception_to_el2 pc st esr far hpfar c). fold c0 in Hl2, Hsys2.
  assert (guest_runs c0 core g pg s ps) as Hg0 by exact (guest_runs_ext c c0 _ _ _ _ _ Hg eq_refl eq_refl).
  destruct (el2_trap base secure_registers c0 core g pg s ps Hg0 eq_refl Hst2)
    as (n & c1 & H1 & Hx1 & _ & Hsys1 & Hstk1 & Hp1 & Ho1).
  pose (c2 := exception_to_el3 (base + 4 * Z.of_nat n) 0x3c9 c1).
  destruct (exception_to_el3_sys (base + 4 * Z.of_nat n) 0x3c9 c1) as [_ Hsys3]. fold c2 in Hsys3.
  pose proof Hg as [[_ Hc] _ _ [_ Hpg] _ [_ Hps] Hap Hap' Hap''].
  destruct Hs as [Hs Hsr]. unfold apart, sizeof_thread_context, sizeof_vm_state, sizeof_Core in *.
  cbn [map vm_registers] in Hl2, Hsys2, Hsys3. rewrite Hsys1 in Hsys3.
  assert (guest_runs c2 core g pg s ps) as Hg2.
  { apply (guest_runs_ext c); [exact Hg | |]; cbn [words]; apply Ho1;
      unfold offset_runnable, offset_partner; lia. }
  assert (stack c2 3 = core + offset_el3_stack_top) as Hst3'.
  { rewrite <-Hst3. apply (map_seqZ_lookup _ _ 0 4 3 Hstk1). lia. }
  assert (words c2 (core + offset_physical_address) = pa) as Hpa2.
  { rewrite <-Hpa. apply Ho1; unfold offset_physical_address; lia. }
  assert (Z.testbit (sys c2 scr_el3) 0 = true) as Hscr
    by (replace (sys c2 scr_el3) with (sys c scr_el3) by congruence; exact Hns).
  assert (Z.testbit (sys c2 spsr_el2) 4 = true) as Hspsr
    by (replace (sys c2 spsr_el2) with st by congruence; exact Hst4).
  destruct (el3_to_secure base secure_registers c2 core g pg s ps sr pa Hg2 eq_refl Hst3'
              (conj Hs Hsr) Ha Ha' Hpa2 Hscr Hspsr)
    as (c3 & H3 & Hx3 & _ & Hstk3 & Hvm & Hret & Hvec & Htab & Ht0 & Ho3).
  exists c3. split.
  { unfold guest_trap. fold c0. rewrite H1. exact H3. }
  assert (∀ a, sr ≤ a < sr + 144 → words c2 a = words c a) as Hsrw by (intros; apply Ho1; lia).
  cbn [map] in Hret, Hvec.
  assert (∀ o, 0 ≤ o < 144 → words c2 (sr + o) = words c (sr + o)) as Hsrw' by (intros; apply Hsrw; lia).
  split; [split | split].
  - rewrite Hx3. exact Hx1.
  - rewrite Hstk3. exact Hstk1.
  - rewrite Hvm. unfold vm_registers. cbn [map]. congruence.
  - cbn [map]. congruence.
  - change (entry_offset LOWER_AARCH64_SYNC) with 0x400. cbn [map]. rewrite (Hsrw' (offset_vm vbar_el1)) in Hvec by (vm_compute; split; congruence). congruence.
  - congruence.
  - rewrite Htab. cbn [map]. rewrite !Hsrw' by (vm_compute; split; congruence). done.
  - exact Ht0.
  - rewrite Ho3 by (unfold offset_runnable; lia). apply Ho1; unfold offset_runnable; lia.
  - rewrite Ho3 by (unfold offset_partner; lia). apply Ho1; unfold offset_partner; lia.
  - congruence.
  - transitivity (map (λ n, words c1 (ps + offset_regs n)) (seqZ 0 4)).
    + apply map_ext_in. intros k Hk. apply list_elem_of_In, elem_of_seqZ in Hk.
      apply Ho3; unfold offset_regs; lia.
    + rewrite Hp1. congruence.
Qed.

(** The word above the stack of secure EL1 names the guest. *)
Lemma left_guest_stack c1 pc st o :
  guest_left c c1 core pg pc st sr pa o → stack c 1 = himem_offset + (core + offset_core) →
  exception_stack (at_el1 c1) (core + offset_core) g ∧ object_at g pg sizeof_thread_context ∧
  apart pg sizeof_thread_context (core + offset_core - 16) 32.
Proof.
  intros Hleft Hst1.
  destruct Hsw as [Hg _ _ _ _ _ _ _ _]. destruct Hleft as [Hx Hstk Hvm Hret _ _ _ _ Hrun _].
  destruct Hg as [[_ Hc] _ Hgr [Hga Hpg] _ _ Hgc _ _].
  assert (stack (at_el1 c1) 1 = himem_offset + (core + offset_core)) as Hst1'.
  { rewrite <-Hst1. apply (map_seqZ_lookup _ _ 0 4 1 Hstk). lia. }
  unfold sizeof_Core, sizeof_vm_state, sizeof_thread_context, apart, offset_core, offset_runnable in *.
  split; [| split; [split; [done | lia] | lia]]. constructor.
  - reflexivity.
  - rewrite Hst1'. unfold is_u64, himem_offset. lia.
  - rewrite Hst1'. split; [apply physical_himem; lia | lia].
  - lia.
  - rewrite <-Hgr, <-Hrun. cbn [at_el1 set_level words]. f_equal. lia.
Qed.

(** Secure EL1 stores a guest that was left and another thread runs; when EL3 enters the
    guest again and its context and its [vm_state] are as they were stored, so is
    its state. *)
Lemma left_guest_comes_back c1 pc st o vector event handler now pn :
  guest_left c c1 core pg pc st sr pa o →
  stack c 1 = himem_offset + (core + offset_core) → Z.land st 15 ≠ 0xd →
  aapcs64 handler → object_at now pn sizeof_thread_context →
  apart pg (sizeof_thread_context + sizeof_vm_state) pn sizeof_thread_context →
  apart pn sizeof_thread_context core sizeof_Core →
  let k := called vector event (at_el1 c1) in let b := handler k in
  x b 0 = now → x b 1 = g → (∀ a, pg + 32 ≤ a < pg + 632 → words b a = words k a) →
  stack b 0 = stack k 0 → is_u32 (words b (pn + offset_spsr)) →
  non_secure_state (words b (pn + offset_spsr)) = false →
  ∃ c', take_exception vector event handler (at_el1 c1) = Erets c' ∧
    same_state (user_state c') (context (words b) pn) ∧
    ∀ c2 pc2 st2, guest_runs c2 core g pg s ps → stack c2 3 = core + offset_el3_stack_top →
      Z.testbit (sys c2 scr_el3) 0 = false →
      (∀ a, pg + 32 ≤ a < pg + 632 → words c2 a = words c' a) →
      ∃ c3, enter_guest base secure_registers pc2 st2 c2 = Erets c3 ∧
        map (x c3) (seqZ 0 31) = map (x c) (seqZ 0 31) ∧
        map (sys c3) [elr_el3; spsr_el3] = [pc; st] ∧
        map (sys c3) vm_registers = map (sys c) vm_registers.
Proof.
  intros Hleft Hst1 Hmode Hh Hnow Hap Hapc k b H0 H1 Hkeep Hsp Hu Hns.
  destruct (left_guest_stack c1 pc st o Hleft Hst1) as (Hes & Hgo & Hq).
  destruct Hsw as [Hg _ _ _ _ _ _ _ _]. destruct Hleft as [Hx Hstk Hvm Hret _ _ _ _ Hrun _].
  destruct Hg as [[_ Hc] _ Hgr [Hga Hpg] _ _ Hgc _ _].
  unfold sizeof_Core, sizeof_vm_state, sizeof_thread_context, apart, offset_core in *.
  assert (apart pg sizeof_thread_context pn sizeof_thread_context) as Hp
    by (unfold apart, sizeof_thread_context; lia).
  assert (apart pn sizeof_thread_context (core + 0x3ff0) 16) as Hpq
    by (unfold apart, sizeof_thread_context; lia).
  destruct (called_ok vector event (at_el1 c1) g pg (core + 0x3ff0) Hes Hgo Hq)
    as (_ & _ & _ & _ & _ & _ & _ & _ & _ & _ & _ & Hother). fold k in Hother.
  destruct (switch_exchanges vector event handler (at_el1 c1) g pg (core + 0x3ff0) Hes Hgo Hq Hh
              now pn Hnow Hp H0 H1 ltac:(intros a Ha; apply Hkeep; lia) Hsp Hpq Hu Hns)
    as (c' & E & Hsave & Hnew & _ & _ & Hrest).
  exists c'. split; [exact E |]. split; [exact Hnew |].
  intros c2 pc2 st2 Hg2 Hst3 Hscr Hwords.
  destruct (exception_to_el3_sys pc2 st2 c2) as [_ Hsys2].
  pose (c2' := exception_to_el3 pc2 st2 c2). fold c2' in Hsys2.
  destruct Hsave as (Hsr & _ & Hspc & Hsps).
  cbn [r r_pc r_spsr context user_state] in Hsr, Hspc, Hsps.
  change (words c2') with (words c2) in *.
  assert (∀ o, 32 ≤ o < 632 → words c2 (pg + o) = words c' (pg + o)) as Hw by (intros; apply Hwords; lia).
  cbn [map] in Hret. change (sys (at_el1 c1)) with (sys c1) in Hsr, Hspc, Hsps.
  change (x (at_el1 c1)) with (x c1) in Hsr.
  assert (words c2 (pg + offset_spsr) = st) as Hspsr
    by (rewrite Hw by (unfold offset_spsr; lia); congruence).
  assert (words c2 (pg + offset_pc) = pc) as Hpc
    by (rewrite Hw by (unfold offset_pc; lia); congruence).
  assert (Z.testbit (sys c2' scr_el3) 0 = false) as Hscr'
    by (cbn [map vm_registers] in Hsys2; replace (sys c2' scr_el3) with (sys c2 scr_el3) by congruence; exact Hscr).
  assert (Z.land (words c2' (pg + offset_spsr)) 15 ≠ 0xd) as Hmode'
    by (change (words c2') with (words c2); rewrite Hspsr; exact Hmode).
  destruct (el3_to_guest base secure_registers c2' core g pg s ps
              (guest_runs_ext c2 c2' _ _ _ _ _ Hg2 eq_refl eq_refl) eq_refl Hst3 Hscr' Hmode')
    as (c3 & H3 & Hx3 & Hret3 & Hvm3 & _).
  change (words c2') with (words c2) in *.
  exists c3. split; [exact H3 |]. split; [| split].
  - rewrite Hx3, <-Hx, <-Hsr. apply map_ext_in. intros n Hn. apply list_elem_of_In, elem_of_seqZ in Hn.
    apply Hw. unfold offset_regs. lia.
  - rewrite Hret3. congruence.
  - rewrite Hvm3, <-Hvm. apply map_ext_in. intros r Hr. apply list_elem_of_In in Hr.
    pose proof (offset_vm_range r Hr).
    unfold sizeof_thread_context. transitivity (words c' (pg + (488 + offset_vm r))); [apply Hw; lia |].
    transitivity (words b (pg + (488 + offset_vm r))); [apply Hrest; lia |].
    transitivity (words k (pg + (488 + offset_vm r))); [apply Hkeep; lia | apply Hother; lia].
Qed.
End round_trip.

(** The ways out of a guest at [pc] with the status [st], to the offset [o] of the
    vectors of secure EL1. *)
Inductive leaves_guest (base secure_registers : Z) (c : cpu) (pc st : Z) : Z → cpu → Prop :=
| by_trap esr far hpfar c1 :
    Z.testbit st 4 = true → guest_trap base secure_registers pc st esr far hpfar c = Erets c1 →
    leaves_guest base secure_registers c pc st (entry_offset LOWER_AARCH64_SYNC) c1
| by_interrupt e c1 :
    e ∈ [LOWER_AARCH64_IRQ; LOWER_AARCH64_FIQ; LOWER_AARCH32_IRQ; LOWER_AARCH32_FIQ] →
    guest_interrupt base secure_registers e pc st c = Erets c1 →
    leaves_guest base secure_registers c pc st (entry_offset e) c1.


(** C12: A trap of an AArch32 guest reaches the C handler of secure EL1 as a call to switch to
    the partner made by the guest's thread: EL3 returns to the entry for such calls with the
    kernel's translation registers, the handler is called for the guest's thread with its registers
    in the context, its system registers are in the [vm_state], the partner's first
    registers tell where it trapped and why, and the kernel answers by changing to the
    partner. *)
Theorem guest_trap_reaches_partner base secure_registers c core g pg s ps sr pa pc st esr far hpfar
    vector event :
  switchable c secure_registers core g pg s ps sr pa →
  stack c 1 = himem_offset + (core + offset_core) → Z.testbit st 4 = true →
  ∃ c1, guest_trap base secure_registers pc st esr far hpfar c = Erets c1 ∧
    map (sys c1) [elr_el3; spsr_el3] = [u64 (words c (sr + offset_vm vbar_el1) + 0x400); 0x3c5] ∧
    map (sys c1) [mair_el1; sctlr_el1; tcr_el1; ttbr1_el1; vbar_el1] =
      map (λ s, words c (sr + offset_vm s)) [mair_el1; sctlr_el1; tcr_el1; ttbr1_el1; vbar_el1] ∧
    sys c1 ttbr0_el1 = u64 (pa + offset_core_tt_l1) ∧
    let k := called vector event (at_el1 c1) in
    x k 1 = g ∧ map (λ n, words k (pg + offset_regs n)) (seqZ 0 19) = map (x c) (seqZ 0 19) ∧
    words k (pg + offset_pc) = pc ∧ words k (pg + offset_spsr) = st ∧
    map (λ s, words k (pg + (sizeof_thread_context + offset_vm s))) vm_registers = map (sys c) vm_registers ∧
    map (λ n, words k (ps + offset_regs n)) (seqZ 0 4) = [pc; esr; far; hpfar] ∧
    ∀ drivers env far1 ks,
      Svc.SEL1_LOWER_AARCH64_SYNC_CODE_may_change_map drivers env (sys c1 esr_el1) far1 g ks =
      Svc.svc_switch_to_partner g ks.
Proof.
  intros Hsw Hst1 Hst.
  destruct (trap_leaves_guest base secure_registers c core g pg s ps sr pa Hsw pc st esr far hpfar Hst)
    as (c1 & H & Hleft & Hesr & Hp).
  exists c1. split; [exact H |]. split; [exact (gl_vector _ _ _ _ _ _ _ _ _ Hleft) |].
  split; [exact (gl_tables _ _ _ _ _ _ _ _ _ Hleft) |].
  split; [exact (gl_core_table _ _ _ _ _ _ _ _ _ Hleft) |].
  destruct (left_guest_stack _ _ _ _ _ _ _ _ _ Hsw _ _ _ _ Hleft Hst1) as (Hes & Hgo & Hq).
  destruct (called_ok vector event (at_el1 c1) g pg (core + offset_core) Hes Hgo Hq)
    as (_ & Hk & _ & _ & _ & _ & Hr & _ & Hpc & Hspsr & _ & Hother).
  cbv zeta. set (k := called vector event (at_el1 c1)) in *. clearbody k.
  change (sys (at_el1 c1)) with (sys c1) in *. change (words (at_el1 c1)) with (words c1) in *.
  change (x (at_el1 c1)) with (x c1) in *.
  destruct Hleft as [Hx _ Hvm Hret _ _ _ _ _ _]. cbn [map] in Hret.
  destruct Hsw as [Hg _ _ _ _ _ _ _ _]. destruct Hg as [[_ Hc] _ _ [_ Hpg] _ [_ Hps] Hgc Hpc' Hgp].
  unfold apart, sizeof_Core, sizeof_vm_state, offset_core in *.
  repeat (split; [first [exact Hk | congruence | idtac] |]).
  - rewrite Hr. exact (map_seqZ_prefix _ _ 0 19 31 Hx ltac:(lia)).
  - rewrite <-Hvm. apply map_ext_in. intros r Hrm. apply list_elem_of_In, offset_vm_range in Hrm.
    apply Hother; unfold sizeof_thread_context in *; lia.
  - rewrite <-Hp. apply map_ext_in. intros n Hn. apply list_elem_of_In, elem_of_seqZ in Hn.
    apply Hother; unfold offset_regs, sizeof_thread_context in *; lia.
  - intros drivers env far1 ks. rewrite Hesr. reflexivity.
Qed.

(** ** An example *)

Definition example_core : Z := 0x10000.
Definition example_guest : Z := himem_offset + 0x100000.
Definition example_partner : Z := himem_offset + 0x101000.
Definition example_secure_registers : Z := 0x80000.
Definition example_base : Z := 0x4800.

(** A processor that runs a guest. *)
Definition example_guest_cpu : cpu :=
  Cpu (registers_of (seqZ 2000 31) (Registers 0 0 0 0 0 0 0 0 0 0 0 0 0 0 0 0 0 0 0 0 0 0 0 0 0 0 0 0 0 0 0))
    (λ n, if n =? 1 then himem_offset + 0x13ff0 else if n =? 2 then 0x13100 else if n =? 3 then 0x13140 else 5000)
    1 (λ _, 0x531)
    (λ a, if a =? 0x13ff8 then example_guest else if a =? 0x100018 then example_partner
          else if a =? 0x130a8 then 0x10000 else 0x60000000 + 32 * a) false None.

Definition example_left : cpu :=
  match guest_trap example_base example_secure_registers 0x8000 0x1d3 0x9200 0x77 0x5 example_guest_cpu with
  | Erets c => c
  | _ => example_guest_cpu
  end.

Lemma example_switchable :
  switchable example_guest_cpu example_secure_registers example_core example_guest 0x100000
    example_partner 0x101000 0x80000 0x10000.
Proof.
  split; [split | ..]; try reflexivity; try (split; vm_compute; repeat split; congruence);
    first [left; vm_compute; congruence | right; vm_compute; congruence].
Qed.

Lemma example_leaves :
  leaves_guest example_base example_secure_registers example_guest_cpu 0x8000 0x1d3
    (entry_offset LOWER_AARCH64_SYNC) example_left.
Proof.
  apply (by_trap _ _ _ _ _ 0x9200 0x77 0x5); [reflexivity |].
  destruct (trap_leaves_guest example_base example_secure_registers _ _ _ _ _ _ _ _ example_switchable
              0x8000 0x1d3 0x9200 0x77 0x5 eq_refl) as (c1 & H & _).
  unfold example_left. now rewrite H.
Qed.

Lemma guest_trap_reaches_partner_witness :
  ∃ c1, guest_trap example_base example_secure_registers 0x8000 0x1d3 0x9200 0x77 0x5 example_guest_cpu = Erets c1 ∧
    x (called 0x5000 "LOWER_AARCH64_SYNC_CODE" (at_el1 c1)) 1 = example_guest.
Proof.
  destruct (guest_trap_reaches_partner example_base example_secure_registers example_guest_cpu example_core
    example_guest 0x100000 example_partner 0x101000 0x80000 0x10000 0x8000 0x1d3 0x9200 0x77 0x5
    0x5000 "LOWER_AARCH64_SYNC_CODE" example_switchable eq_refl eq_refl) as (c1 & H & _ & _ & _ & Hk & _).
  exists c1. exact (conj H Hk).
Defined.

