(* ===== verification/Veneers.v ===== *)
(** * The assembly of the drivers

    [include/isambard_client.h] and [drivers/libdrivers.c]: the veneers through which a
    thread enters and leaves a provider, the lock and the single stack that the callers of a
    provider share, and the veneers of the supervisor calls.  They run on the instructions of
    [Aarch64] at EL0; a driver's image lies in the first 32MB of its map, where [physical]
    is the identity.  What the kernel does at a supervisor call, and the C function
    [type__call_handler], are arguments.

    The labels of the source that are numbers have names here. *)

From stdpp Require Import base list strings.
From Stdlib Require Import ZArith Lia.
From S2P Require Import Prelude SystemServices Kernel Aarch64.

Open Scope string_scope.
Open Scope list_scope.
Open Scope Z_scope.

(** ** Locks *)

(** X17 points to the lock, X18 is the thread's code. *)
Definition CLAIM_LOCK : assembly :=
  [ Label "claim_2";
    Do (LDXR (X 16) (X 17));
    Do (CBZ (X 16) "claim_0");
    Do (SVC ISAMBARD_LOCK_WAIT);
    Do (B "claim_1");
    Label "claim_0";
    Do (STXR (X 16) (X 18) (X 17));
    Do (CBNZ (X 16) "claim_2");
    Label "claim_1" ].

Definition RELEASE_LOCK : assembly :=
  [ Do (LDXR (X 16) (X 17));
    Do (CMP (X 16) (X 18));
    Do (BNE "release_1");
    Do (STXR (X 16) XZR (X 17));
    Do (CBZ (X 16) "release_2");
    Label "release_1";
    Do (SVC ISAMBARD_LOCK_RELEASE);
    Label "release_2" ].

(** ** Providers *)

Definition STORED_REGISTER_SPACE : Z := 16 * 6.

Definition STACK_CALLEE_SAVED_REGISTERS : assembly :=
  [ Do (STP (X 19) (X 20) (PreIndex SP (-96)));
    Do (STP (X 29) (X 30) (Offset SP (5 * 16)));
    Do (STP (X 27) (X 28) (Offset SP (4 * 16)));
    Do (STP (X 25) (X 26) (Offset SP (3 * 16)));
    Do (STP (X 23) (X 24) (Offset SP (2 * 16)));
    Do (STP (X 21) (X 22) (Offset SP (1 * 16))) ].

Definition RESTORE_CALLEE_SAVED_REGISTERS : assembly :=
  [ Do (LDP (X 21) (X 22) (Offset SP (1 * 16)));
    Do (LDP (X 23) (X 24) (Offset SP (2 * 16)));
    Do (LDP (X 25) (X 26) (Offset SP (3 * 16)));
    Do (LDP (X 27) (X 28) (Offset SP (4 * 16)));
    Do (LDP (X 29) (X 30) (Offset SP (5 * 16)));
    Do (LDP (X 19) (X 20) (PostIndex SP 96)) ].

(** The labels of the type, [type__veneer] and so on, without the type.  The return
    functions that the interface compiler generates are further labels of the place of
    [__return], with no code of their own. *)
Definition NO_LOCK_AND_SINGLE_STACK (stack_size : Z) : assembly :=
  [ Label "__veneer"; Do (ADR (X 17) "stack"); Do (ADDI SP (X 17) stack_size) ] ++
  STACK_CALLEE_SAVED_REGISTERS ++
  [ Do (BL "__call_handler");
    Do (LDRL (X 0) "badly_written_driver_exception");
    Label "__exception";
    Do (ADR (X 17) "stack"); Do (ADDI SP (X 17) (stack_size - STORED_REGISTER_SPACE)) ] ++
  RESTORE_CALLEE_SAVED_REGISTERS ++
  [ Do (MOV (X 27) (X 0)); Do (SVC ISAMBARD_EXCEPTION) ] ++
  [ Label "__return";
    Do (ADR (X 17) "stack"); Do (ADDI SP (X 17) (stack_size - STORED_REGISTER_SPACE)) ] ++
  RESTORE_CALLEE_SAVED_REGISTERS ++
  [ Do (SVC ISAMBARD_RETURN) ].

Definition SHARED_LOCK_AND_STACK (stack_size : Z) : assembly :=
  [ Label "__veneer"; Do (ADR (X 17) "stack"); Do (ADDI SP (X 17) stack_size);
    Do (ADR (X 17) "lock") ] ++
  CLAIM_LOCK ++
  STACK_CALLEE_SAVED_REGISTERS ++
  [ Do (BL "__call_handler");
    Do (ADR (X 17) "lock");
    Do (SVC ISAMBARD_LOCK_RELEASE);
    Do (LDRL (X 0) "badly_written_driver_exception");
    Label "__exception";
    Do (ADR (X 17) "stack"); Do (ADDI SP (X 17) (stack_size - STORED_REGISTER_SPACE)) ] ++
  RESTORE_CALLEE_SAVED_REGISTERS ++
  [ Do (MOV (X 27) (X 0)); Do (SVC ISAMBARD_EXCEPTION) ] ++
  [ Label "__return";
    Do (ADR (X 17) "stack"); Do (ADDI SP (X 17) (stack_size - STORED_REGISTER_SPACE)) ] ++
  RESTORE_CALLEE_SAVED_REGISTERS ++
  [ Do (ADR (X 17) "lock") ] ++
  RELEASE_LOCK ++
  [ Do (SVC ISAMBARD_RETURN) ].

(** How the C code behind the veneer ends: by a return function or an exception. *)
Inductive ending := Returns (c : cpu) | Throws (c : cpu).

Section provider.
(** The code of the veneer at [base], the variables at [symbol]. *)
Context (code : assembly) (base : Z) (symbol : string → Z).

Definition veneer_fuel : nat := 100.

(** From a label to the next call or supervisor call. *)
Definition run_from (l : string) (c : cpu) : outcome :=
  match position code l with Some n => run code base symbol veneer_fuel n c | None => Undefined c end.

(** A call of the provider; [call_handler] never returns to its caller. *)
Definition provider_call (call_handler : cpu → ending) (c : cpu) : outcome :=
  match run_from "__veneer" c with
  | Leaves _ c =>
      match call_handler c with
      | Returns c => run_from "__return" c
      | Throws c => run_from "__exception" c
      end
  | o => o
  end.
End provider.

(** ** Supervisor calls *)

(** The veneers of [libdrivers.c]; [frame] is the room on the stack. *)
Definition system_call (code frame : Z) : assembly :=
  [ Do (STP (X 29) (X 30) (PreIndex SP (- frame)));
    Do (SVC code);
    Do (LDP (X 29) (X 30) (PostIndex SP frame));
    Do RET ].

Definition SYSTEM_CALL (code : Z) : assembly := system_call code 16.
Definition Isambard_call : assembly := system_call ISAMBARD_CALL 16.
Definition get_partner_register : assembly := system_call ISAMBARD_GET_PARTNER_REG 32.
Definition set_partner_register : assembly := system_call ISAMBARD_SET_PARTNER_REG 32.
Definition change_vm_system_register : assembly := system_call ISAMBARD_CHANGE_VM_SYSTEM_REGISTER 32.

Definition switch_to_partner : assembly :=
  [ Do (STP (X 29) (X 30) (PreIndex SP (-32)));
    Do (STP (X 0) (X 1) (Offset SP 16));
    Do (SVC ISAMBARD_SWITCH_TO_PARTNER);
    Do (LDP (X 16) (X 17) (Offset SP 16));
    Do (BLR (X 16));
    Do (LDP (X 29) (X 30) (PostIndex SP 32));
    Do RET ].

(** The entry point of a driver; [entry] is the driver's C function. *)
Definition start_code (stack_size : Z) : assembly :=
  [ Label "_start";
    Do (ADR (X 17) "system");
    Do (STR (X 0) (Offset (X 17) 0));
    Do (ADR (X 16) "stack");
    Do (ADDI SP (X 16) (8 * stack_size));
    Do (BL "entry");
    Do (SVC ISAMBARD_RETURN) ].

(** ** The callers of a provider share its lock and its stack *)

Section shared.
Context (base : Z) (symbol : string → Z) (stack_size s ps l pl : Z) (c : cpu).
Context (Hstack : symbol "stack" = s) (Hs : object_at s ps stack_size) (Hsize : 96 ≤ stack_size).
Context (Hlock : symbol "lock" = l) (Hl : object_at l pl 8) (Hap : apart ps stack_size pl 8).
Context (Hel : level c = 0) (Hcode : x c 18 ≠ 0).

Abbreviation code := (SHARED_LOCK_AND_STACK stack_size).
Abbreviation top := (ps + stack_size - 96).

(** The callee-saved registers, in the order in which they lie on the stack. *)
Definition frame_registers : list Z := [19; 20; 21; 22; 23; 24; 25; 26; 27; 28; 29; 30].

Definition frame (m : Z → Z) (p : Z) : list Z := map (λ n, m (p + 8 * n)) (seqZ 0 12).

Lemma veneer_enters :
  words c pl = 0 →
  ∃ c1, run_from code base symbol "__veneer" c = Leaves "__call_handler" c1 ∧
    map (x c1) (seqZ 0 16) = map (x c) (seqZ 0 16) ∧ map (x c1) (seqZ 18 12) = map (x c) (seqZ 18 12) ∧
    stack c1 0 = u64 (u64 (s + stack_size) - 96) ∧ level c1 = 0 ∧
    words c1 pl = x c 18 ∧ frame (words c1) top = map (x c) frame_registers ∧
    ∀ a, a ≠ pl → ¬ (top ≤ a < top + 96) → words c1 a = words c a.
Proof.
  intros Hfree. destruct Hs as [Hps Hps'], Hl as [Hpl Hpl']. open_state c. subst lv.
  unfold apart in *. unfold run_from, veneer_fuel.
  change (position code "__veneer") with (Some 0%nat). cbv iota beta.
  steps 3%nat. rewrite Hstack, Hlock. addresses.
  steps_in_memory 1%nat. steps 1%nat. rewrite bool_decide_eq_true_2 by done. cbv iota beta. cbn [continue].
  steps 1%nat. addresses. rewrite bool_decide_eq_true_2 by done. cbv iota beta. cbn [continue].
  steps 1%nat. rewrite bool_decide_eq_true_2 by done. cbn [negb]. cbv iota beta. cbn [continue].
  evaluate_run. addresses. eexists. split; [reflexivity |]. unfold frame, frame_registers. state_facts.
  all: other_words.
Qed.

(** A return function: the registers of the caller are back and the lock is free. *)
Lemma veneer_returns r :
  level r = 0 → words r pl = x r 18 →
  ∃ n c2, run_from code base symbol "__return" r = Svcs ISAMBARD_RETURN n c2 ∧
    map (x c2) frame_registers = frame (words r) top ∧ map (x c2) (seqZ 0 16) = map (x r) (seqZ 0 16) ∧
    x c2 18 = x r 18 ∧ words c2 = upd_word (words r) pl 0.
Proof using Hstack Hs Hsize Hlock Hl Hap.
  intros Hlv Hown. destruct Hs as [Hps Hps'], Hl as [Hpl Hpl']. clear c Hel Hcode. open_state r. subst lv.
  unfold apart in *. unfold run_from, veneer_fuel.
  let n := eval vm_compute in (position code "__return") in change (position code "__return") with n.
  cbv iota beta. steps 2%nat. rewrite Hstack. steps_in_memory 6%nat. steps 1%nat. rewrite Hlock.
  steps_in_memory 2%nat. steps 1%nat. rewrite bool_decide_eq_true_2 by done. cbn [negb]. cbv iota beta. cbn [continue].
  steps 1%nat. addresses. rewrite bool_decide_eq_true_2 by done. cbv iota beta. cbn [continue].
  steps 1%nat. rewrite bool_decide_eq_true_2 by done. cbv iota beta. cbn [continue].
  evaluate_run. eexists _, _. split; [reflexivity |]. unfold frame, frame_registers. state_facts.
Qed.

(** The same with threads that wait: the kernel is asked to release the lock, when the
    registers are back already, and the return follows. *)
Lemma veneer_returns_to_waiters r :
  level r = 0 → words r pl ≠ x r 18 →
  ∃ n c2, run_from code base symbol "__return" r = Svcs ISAMBARD_LOCK_RELEASE n c2 ∧
    map (x c2) frame_registers = frame (words r) top ∧ map (x c2) (seqZ 0 16) = map (x r) (seqZ 0 16) ∧
    x c2 17 = l ∧ x c2 18 = x r 18 ∧ words c2 = words r ∧
    ∀ c3, run code base symbol 1 n c3 = Svcs ISAMBARD_RETURN (S n) c3.
Proof using Hstack Hs Hsize Hlock Hl Hap.
  intros Hlv Hown. destruct Hs as [Hps Hps'], Hl as [Hpl Hpl']. clear c Hel Hcode. open_state r. subst lv.
  unfold apart in *. unfold run_from, veneer_fuel.
  let n := eval vm_compute in (position code "__return") in change (position code "__return") with n.
  cbv iota beta. steps 2%nat. rewrite Hstack. steps_in_memory 6%nat. steps 1%nat. rewrite Hlock.
  steps_in_memory 2%nat. steps 1%nat. rewrite bool_decide_eq_false_2 by done. cbn [negb]. cbv iota beta. cbn [continue].
  evaluate_run. eexists _, _. split; [reflexivity |]. unfold frame, frame_registers. state_facts.
  intros c3. reflexivity.
Qed.

(** An exception: X27 is overwritten after the registers are back, and the lock is as it
    was. *)
Lemma veneer_throws r :
  level r = 0 →
  ∃ n c2, run_from code base symbol "__exception" r = Svcs ISAMBARD_EXCEPTION n c2 ∧
    map (x c2) [19; 20; 21; 22; 23; 24; 25; 26] = map (λ n, words r (top + 8 * n)) (seqZ 0 8) ∧
    map (x c2) [28; 29; 30] = map (λ n, words r (top + 8 * n)) (seqZ 9 3) ∧
    x c2 27 = x r 0 ∧ x c2 0 = x r 0 ∧ words c2 = words r.
Proof using Hstack Hs Hsize.
  intros Hlv. destruct Hs as [Hps Hps']. clear c Hel Hcode. open_state r. subst lv.
  unfold apart in *. unfold run_from, veneer_fuel.
  let n := eval vm_compute in (position code "__exception") in change (position code "__exception") with n.
  cbv iota beta. steps 2%nat. rewrite Hstack. evaluate_run. addresses.
  eexists _, _. split; [reflexivity |]. state_facts.
Qed.

Definition ending_state (e : ending) : cpu := match e with Returns r | Throws r => r end.

(** What the veneer asks of the C code: the lock, the saved registers at the top of the
    stack and the thread's code are left alone. *)
Record keeps_frame (k r : cpu) : Prop := {
  kf_level : level r = level k;
  kf_code : x r 18 = x k 18;
  kf_lock : words r pl = words k pl;
  kf_frame : frame (words r) top = frame (words k) top;
}.

(** C14: A call of a provider whose lock is free reaches the C code with the caller's
    arguments and the lock held by the caller.  When the C code ends with a return function the
    supervisor call for the return is made with all callee-saved registers of the caller
    and the lock free.  When it ends with an exception the lock is still held by
    the thread, and X27 of the caller is lost. *)
Theorem shared_provider_call call_handler :
  words c pl = 0 →
  ∃ k, run_from code base symbol "__veneer" c = Leaves "__call_handler" k ∧
    map (x k) (seqZ 0 16) = map (x c) (seqZ 0 16) ∧ words k pl = x c 18 ∧
    (keeps_frame k (ending_state (call_handler k)) →
     match call_handler k with
     | Returns r =>
         ∃ n c2, provider_call code base symbol call_handler c = Svcs ISAMBARD_RETURN n c2 ∧
           map (x c2) frame_registers = map (x c) frame_registers ∧
           map (x c2) (seqZ 0 16) = map (x r) (seqZ 0 16) ∧ words c2 pl = 0
     | Throws r =>
         ∃ n c2, provider_call code base symbol call_handler c = Svcs ISAMBARD_EXCEPTION n c2 ∧
           map (x c2) [19; 20; 21; 22; 23; 24; 25; 26; 28; 29; 30] =
             map (x c) [19; 20; 21; 22; 23; 24; 25; 26; 28; 29; 30] ∧
           x c2 27 = x r 0 ∧ words c2 pl = x c 18
     end).
Proof using Hstack Hs Hsize Hlock Hl Hap Hel Hcode.
  intros Hfree. destruct (veneer_enters Hfree) as (k & Hk & Hargs & H18 & _ & Hlv & Hw & Hf & _).
  exists k. split; [exact Hk |]. split; [exact Hargs |]. split; [exact Hw |].
  assert (x k 18 = x c 18) as Hx18 by (cbn [map seqZ] in H18; vm_compute (seqZ 18 12) in H18; cbn [map] in H18; congruence).
  unfold provider_call. rewrite Hk. destruct (call_handler k) as [r | r]; intros [Hkl Hkc Hkw Hkf]; cbn [ending_state] in *.
  - destruct (veneer_returns r) as (n & c2 & H & Hregs & Hres & _ & Hwords); [congruence | congruence |].
    exists n, c2. split; [exact H |]. split; [congruence |]. split; [exact Hres |].
    rewrite Hwords. now apply upd_word_eq.
  - destruct (veneer_throws r) as (n & c2 & H & Hr1 & Hr2 & H27 & _ & Hwords); [congruence |].
    exists n, c2. split; [exact H |]. split; [| split; [exact H27 | congruence]].
    rewrite Hf in Hkf. unfold frame, frame_registers in Hkf.
    vm_compute (seqZ 0 12) in Hkf. vm_compute (seqZ 0 8) in Hr1. vm_compute (seqZ 9 3) in Hr2.
    cbn [map] in *. congruence.
Qed.
End shared.

(** A driver at the start of its map: the stack at 0x2000, the lock at 0x2800. *)
Definition example_symbol (n : string) : Z :=
  if String.eqb n "stack" then 0x2000 else if String.eqb n "lock" then 0x2800 else 0x100.

Definition example_caller : cpu :=
  Cpu (registers_of (seqZ 3000 31) (Registers 0 0 0 0 0 0 0 0 0 0 0 0 0 0 0 0 0 0 0 0 0 0 0 0 0 0 0 0 0 0 0))
    (λ _, 0x7000) 0 (λ _, 0) (λ _, 0) false None.

Lemma shared_provider_call_witness :
  ∃ n c2, provider_call (SHARED_LOCK_AND_STACK 512) 0x1000 example_symbol (λ k, Returns (set_reg (X 0) 42 k))
      example_caller = Svcs ISAMBARD_RETURN n c2 ∧
    map (x c2) frame_registers = map (x example_caller) frame_registers ∧
    map (x c2) (seqZ 0 16) = 42 :: map (x example_caller) (seqZ 1 15) ∧ words c2 0x2800 = 0.
Proof.
  destruct (shared_provider_call 0x1000 example_symbol 512 0x2000 0x2000 0x2800 0x2800 example_caller)
    with (call_handler := λ k, Returns (set_reg (X 0) 42 k)) as (k & Hk & Hargs & Hw & H).
  - reflexivity.
  - split; vm_compute; repeat split; congruence.
  - vm_compute. congruence.
  - reflexivity.
  - split; vm_compute; repeat split; congruence.
  - left. vm_compute. congruence.
  - reflexivity.
  - vm_compute. congruence.
  - reflexivity.
  - destruct H as (n & c2 & E & Hr & Hres & Hl); [split; reflexivity |].
    exists n, c2. split; [exact E |]. split; [exact Hr |]. split; [| exact Hl].
    rewrite Hres. vm_compute (seqZ 0 16) in *. vm_compute (seqZ 1 15). cbn [map] in *.
    change (x (set_reg (X 0) 42 k) 0) with 42. f_equal.
    repeat match goal with |- context [x (set_reg (X 0) 42 k) ?n] =>
      change (x (set_reg (X 0) 42 k) n) with (x k n) end.
    congruence.
Defined.

(** ** A provider without a lock *)

Section single.
Context (base : Z) (symbol : string → Z) (stack_size s ps : Z) (c : cpu).
Context (Hstack : symbol "stack" = s) (Hs : object_at s ps stack_size) (Hsize : 96 ≤ stack_size).
Context (Hel : level c = 0).

Abbreviation code := (NO_LOCK_AND_SINGLE_STACK stack_size).
Abbreviation top := (ps + stack_size - 96).

(** The return of a provider without a lock brings the caller's registers back when the C code left
    the top of the stack alone; nothing is between two callers that use it at once. *)
Lemma single_provider_call :
  ∃ k, run_from code base symbol "__veneer" c = Leaves "__call_handler" k ∧
    map (x k) (seqZ 0 16) = map (x c) (seqZ 0 16) ∧ frame (words k) top = map (x c) frame_registers ∧
    ∀ r, level r = 0 → frame (words r) top = frame (words k) top →
      ∃ n c2, run_from code base symbol "__return" r = Svcs ISAMBARD_RETURN n c2 ∧
        map (x c2) frame_registers = map (x c) frame_registers ∧
        map (x c2) (seqZ 0 16) = map (x r) (seqZ 0 16) ∧ words c2 = words r.
Proof using Hstack Hs Hsize Hel.
  destruct Hs as [Hps Hps']. open_state c. subst lv. unfold run_from, veneer_fuel.
  let n := eval vm_compute in (position code "__veneer") in change (position code "__veneer") with n.
  let n := eval vm_compute in (position code "__return") in change (position code "__return") with n.
  cbv iota beta. steps 2%nat. rewrite Hstack. evaluate_run. addresses.
  eexists. split; [reflexivity |]. unfold frame, frame_registers.
  split; [state_facts |]. split; [state_facts |].
  intros r Hr Hf. open_state r. subst lv. registers_of_run_in Hf. vm_compute (seqZ 0 12) in Hf.
  cbn [map] in Hf. steps 2%nat. rewrite Hstack. evaluate_run. addresses.
  eexists _, _. split; [reflexivity |]. split; [| split; [state_facts | reflexivity]].
  etransitivity; [| etransitivity; [exact Hf |]]; state_facts.
Qed.
End single.

(** ** Supervisor calls *)

Lemma outcome_eta o :
  match o with
  | At n c => At n c | Leaves l c => Leaves l c | Calls r c => Calls r c | Erets c => Erets c
  | Svcs k n c => Svcs k n c | Smcs k n c => Smcs k n c | Undefined c => Undefined c
  end = o.
Proof. now destruct o. Qed.

(** A veneer of a supervisor call returns to its caller with the stack pointer, X29 and
    X30 of the call, and every other register as the kernel left it; the kernel leaves
    the stack alone. *)
Lemma system_call_returns base symbol number size sp psp c :
  size = 16 ∨ size = 32 → level c = 0 → stack c 0 = sp → is_u64 sp →
  physical sp = psp → size ≤ psp < 2 ^ 25 →
  ∃ c1, run (system_call number size) base symbol 10 0 c = Svcs number 2 c1 ∧
    map (x c1) (seqZ 0 31) = map (x c) (seqZ 0 31) ∧
    ∀ c2, level c2 = 0 → stack c2 0 = stack c1 0 →
      (∀ a, psp - size ≤ a < psp → words c2 a = words c1 a) →
      ∃ c3, run (system_call number size) base symbol 2 2 c2 = jump_to base 4 (x c 30) c3 ∧
        map (x c3) (seqZ 0 29) = map (x c2) (seqZ 0 29) ∧ map (x c3) [29; 30] = map (x c) [29; 30] ∧
        stack c3 0 = sp ∧ words c3 = words c2.
Proof.
  intros Hsize Hl Hsp Hu Hp Hp'. open_state c. subst lv. unfold system_call.
  destruct Hsize as [-> | ->]; evaluate_run; word; addresses; eexists; (split; [reflexivity |]);
    (split; [state_facts |]); intros c2 Hl2 Hs2 Hw; open_state c2; subst lv; evaluate_run;
    rewrite Hs2; addresses; rewrite !Hw by lia; word; eexists;
    (split; [etransitivity; [apply outcome_eta | reflexivity] |]);
    state_facts.
Qed.

(** [switch_to_partner( handler, pc )] hands what the kernel returns to the handler, which returns
    to the veneer. *)
Lemma switch_to_partner_calls base symbol sp psp c :
  level c = 0 → stack c 0 = sp → is_u64 sp → physical sp = psp → 32 ≤ psp < 2 ^ 25 →
  ∃ c1, run switch_to_partner base symbol 10 0 c = Svcs ISAMBARD_SWITCH_TO_PARTNER 3 c1 ∧
    map (x c1) (seqZ 0 31) = map (x c) (seqZ 0 31) ∧
    ∀ c2, level c2 = 0 → stack c2 0 = stack c1 0 →
      (∀ a, psp - 32 ≤ a < psp → words c2 a = words c1 a) →
      ∃ c3, run switch_to_partner base symbol 2 3 c2 = jump_to base 7 (x c 0) c3 ∧
        map (x c3) (seqZ 0 4) = map (x c2) (seqZ 0 4) ∧ x c3 30 = base + 4 * 5 ∧
        stack c3 0 = stack c2 0 ∧ words c3 = words c2.
Proof.
  intros Hl Hsp Hu Hp Hp'. open_state c. subst lv.
  evaluate_run; word; addresses; eexists; split; [reflexivity |].
  split; [state_facts |]. intros c2 Hl2 Hs2 Hw. open_state c2. subst lv. evaluate_run.
  rewrite Hs2. addresses. rewrite !Hw by lia. word. eexists.
  split; [etransitivity; [apply outcome_eta | reflexivity] |]. state_facts.
Qed.

(** A driver starts on its own stack with the interface to the system driver stored. *)
Lemma driver_starts base symbol stack_size pv c :
  level c = 0 → object_at (symbol "system") pv 8 →
  ∃ c1, run (start_code stack_size) base symbol 10 0 c = Leaves "entry" c1 ∧
    x c1 0 = x c 0 ∧ words c1 = upd_word (words c) pv (x c 0) ∧
    stack c1 0 = u64 (symbol "stack" + 8 * stack_size).
Proof.
  intros Hl [Hp Hp']. open_state c. subst lv. evaluate_run. eexists. split; [reflexivity |].
  cbn [words stack]. split; [reflexivity |]. split; [| reflexivity]. f_equal.
  rewrite physical_u64, Z.add_0_r. exact Hp.
Qed.
