(* ===== verification/ClientLocks.v ===== *)
(** * The lock of a provider, over all interleavings

    [CLAIM_LOCK] and [RELEASE_LOCK] of [include/isambard_client.h] as any number of threads
    of a map execute them, on the instructions of [Aarch64].  A thread can be pre-empted between
    any two instructions; an exception return clears the exclusive monitor, which is why
    the thread that goes on has none.  The supervisor calls [ISAMBARD_LOCK_WAIT] and
    [ISAMBARD_LOCK_RELEASE] change the lock and the list of waiting threads as [Locks]
    proves of the kernel's handlers: [Locks.wait_for_free_lock], [Locks.wait_for_held_lock],
    [Locks.release_lock_alone] and [Locks.release_lock_hands_over] are the four cases.

    The threads of a map run on one core, so that no other core writes to the word. *)

From stdpp Require Import base list strings.
From Stdlib Require Import ZArith Lia.
From S2P Require Import Prelude SystemServices Kernel Aarch64 Veneers.
From S2P Require Locks.

Open Scope string_scope.
Open Scope list_scope.
Open Scope Z_scope.

(** ** The threads *)

(** A thread that uses the lock again and again. *)
Definition lock_client : assembly :=
  [Label "again"] ++ CLAIM_LOCK ++ [Do (NOP "the locked code")] ++ RELEASE_LOCK ++ [Do (B "again")].

(** The position of a thread in the code, its registers, and whether the kernel keeps it
    waiting. *)
Record client := Client { at_ : nat; core : cpu; waits : bool }.

(** The word of the lock is in [memory] at the physical address of the lock; [waiting] are
    the threads blocked on it, in order; [current] runs. *)
Record lock_system := LockSystem {
  memory : Z → Z;
  waiting : list Z;
  current : Z;
  clients : Z → client;
}.

Definition set_thread (t : Z) (c : client) (f : Z → client) : Z → client :=
  λ u, if decide (u = t) then c else f u.

(** The thread [t] goes on: it has been through an exception return. *)
Definition resume (t : Z) (f : Z → client) : Z → client :=
  set_thread t (Client (at_ (f t)) (set_monitor None (core (f t))) (waits (f t))) f.

Definition is_thread (t : Z) : Prop := start_address < t < 2 ^ 64.

Section system.
(** The code is at [base]; the lock has the physical address [p]. *)
Context (base p : Z).

Definition client_step (s : lock_system) : outcome :=
  let c := clients s (current s) in
  step lock_client base (λ _, 0) (at_ c) (set_words (memory s) (core c)).

Inductive lock_step (s : lock_system) : lock_system → Prop :=
| run_step n c :
    client_step s = At n c →
    lock_step s (LockSystem (words c) (waiting s) (current s)
                   (set_thread (current s) (Client n c false) (clients s)))
(** The locked code may do anything to the rest of the memory. *)
| locked_code m :
    at_ (clients s (current s)) = 6%nat → m p = memory s p →
    lock_step s (LockSystem m (waiting s) (current s) (clients s))
| preempt t :
    is_thread t → waits (clients s t) = false →
    lock_step s (LockSystem (memory s) (waiting s) t (resume t (clients s)))
(** The lock was released before the kernel looked. *)
| wait_free n c :
    client_step s = Svcs ISAMBARD_LOCK_WAIT n c → memory s p = 0 →
    lock_step s (LockSystem (upd_word (memory s) p (x c 18)) (waiting s) (current s)
                   (resume (current s) (set_thread (current s) (Client n c false) (clients s))))
(** The thread joins the waiting ones and another one runs. *)
| wait_held n c t :
    client_step s = Svcs ISAMBARD_LOCK_WAIT n c → memory s p ≠ 0 →
    is_thread t → t ≠ current s → waits (clients s t) = false →
    let m := if bool_decide (waiting s = [])
             then upd_word (memory s) p (Z.lor (memory s p) (u64 (Z.shiftl (x c 18) 32)))
             else memory s in
    lock_step s (LockSystem m (waiting s ++ [current s]) t
                   (resume t (set_thread (current s) (Client n c true) (clients s))))
| release_none n c :
    client_step s = Svcs ISAMBARD_LOCK_RELEASE n c → waiting s = [] →
    lock_step s (LockSystem (upd_word (memory s) p 0) [] (current s)
                   (resume (current s) (set_thread (current s) (Client n c false) (clients s))))
(** The thread that waited longest gets the lock and runs. *)
| release_to n c w ws :
    client_step s = Svcs ISAMBARD_LOCK_RELEASE n c → waiting s = w :: ws →
    lock_step s (LockSystem (upd_word (memory s) p (Locks.lock_word w ws)) ws w
                   (resume w (set_thread w (Client (at_ (clients s w)) (core (clients s w)) false)
                      (set_thread (current s) (Client n c false) (clients s))))).

Inductive reaches (s : lock_system) : lock_system → Prop :=
| reaches_refl : reaches s s
| reaches_step s' s'' : reaches s s' → lock_step s' s'' → reaches s s''.

(** Nobody has the lock and all threads are at the beginning. *)
Record lock_starts (s : lock_system) : Prop := {
  ls_free : memory s p = 0;
  ls_waiting : waiting s = [];
  ls_current : is_thread (current s);
  ls_clients : ∀ t, is_thread t → at_ (clients s t) = 0%nat ∧ waits (clients s t) = false ∧
    physical (x (core (clients s t)) 17) = p ∧ x (core (clients s t)) 18 = thread_code t;
}.

(** The thread holds the lock: from the instruction that gets it to the one that gives
    it up. *)
Definition has_lock (c : client) : bool :=
  match at_ c with
  | 3 => negb (waits c)
  | 5 => bool_decide (x (core c) 16 = 0)%Z
  | 6 | 7 | 8 | 9 | 10 | 12 => true
  | 11 => negb (bool_decide (x (core c) 16 = 0)%Z)
  | _ => false
  end%nat.
End system.

(** ** One instruction of a client *)

Lemma x_set_16 c v : x (set_reg (X 16) v c) 16 = v ∧ x (set_reg (X 16) v c) 17 = x c 17 ∧
  x (set_reg (X 16) v c) 18 = x c 18.
Proof. repeat split. Qed.

Lemma x_set_monitor c m n : x (set_monitor m c) n = x c n.
Proof. done. Qed.

Lemma x_set_words c m n : x (set_words m c) n = x c n.
Proof. done. Qed.

(** The code, instruction by instruction. *)
Definition client_code (n : nat) (c : cpu) : outcome :=
  match n with
  | 0 | 7 => At (S n) (set_reg (X 16) (load c (x c 17)) (set_monitor (Some (physical (x c 17))) c))
  | 1 => if bool_decide (x c 16 = 0)%Z then At 4 c else At 2 c
  | 2 => Svcs ISAMBARD_LOCK_WAIT 3 c
  | 3 => At 6 c
  | 4 => if bool_decide (monitor c = Some (physical (x c 17)))
         then At 5 (set_reg (X 16) 0 (set_monitor None (store (x c 17) (x c 18) c)))
         else At 5 (set_reg (X 16) 1 (set_monitor None c))
  | 5 => if negb (bool_decide (x c 16 = 0)%Z) then At 0 c else At 6 c
  | 6 => At 7 c
  | 8 => At 9 (set_flag_z (bool_decide (x c 16 = x c 18)) c)
  | 9 => if negb (flag_z c) then At 12 c else At 10 c
  | 10 => if bool_decide (monitor c = Some (physical (x c 17)))
          then At 11 (set_reg (X 16) 0 (set_monitor None (store (x c 17) 0 c)))
          else At 11 (set_reg (X 16) 1 (set_monitor None c))
  | 11 => if bool_decide (x c 16 = 0)%Z then At 13 c else At 12 c
  | 12 => Svcs ISAMBARD_LOCK_RELEASE 13 c
  | 13 => At 0 c
  | _ => Undefined c
  end%nat.

Lemma client_code_ok base n c : step lock_client base (λ _, 0) n c = client_code n c.
Proof. do 14 (destruct n as [|n]; [reflexivity |]). reflexivity. Qed.

(** ** The invariant *)

Lemma lock_word_alone h : Locks.lock_word h [] = thread_code h.
Proof.
  unfold Locks.lock_word. cbn [default head]. change (thread_code 0) with 0.
  now rewrite Z.shiftl_0_l, Z.lor_0_r.
Qed.

Lemma thread_code_pos t : is_thread t → 0 < thread_code t < 2 ^ 32.
Proof. intros H. now apply Locks.thread_code_range. Qed.

Lemma lock_word_low32 h ws : is_thread h → (∀ w, w ∈ ws → is_thread w) → Z.land 0xffffffff (Locks.lock_word h ws) = thread_code h.
Proof.
  intros Hh Hw. pose proof (thread_code_pos h Hh). apply Locks.pack_low; [lia |].
  apply Locks.thread_code_lt. destruct ws as [|w ws]; [by left |]. right. apply Hw. left.
Qed.

Lemma lock_word_not_0 h ws : is_thread h → (∀ w, w ∈ ws → is_thread w) → Locks.lock_word h ws ≠ 0.
Proof.
  intros Hh Hw E. pose proof (lock_word_low32 h ws Hh Hw) as L. rewrite E, Z.land_0_r in L.
  pose proof (thread_code_pos h Hh). lia.
Qed.

(** The word is the bare code of the holder only if nobody waits. *)
Lemma lock_word_bare h ws : is_thread h → (∀ w, w ∈ ws → is_thread w) → Locks.lock_word h ws = thread_code h → ws = [].
Proof.
  intros Hh Hw E. destruct ws as [|w ws]; [done |]. exfalso.
  pose proof (thread_code_pos h Hh). assert (is_thread w) as Hww by (apply Hw; left).
  pose proof (thread_code_pos w Hww).
  assert (u32 (Z.shiftr (Locks.lock_word h (w :: ws)) 32) = thread_code w) as H1.
  { apply Locks.pack_high; cbn; lia. }
  rewrite E, Z.shiftr_div_pow2, Z.div_small in H1 by lia. change (u32 0) with 0 in H1. lia.
Qed.

(** What the exclusive monitor of the running thread says about the lock. *)
Definition monitor_says (m : Z → Z) (p : Z) (c : client) : Prop :=
  monitor (core c) = Some p →
  match at_ c with
  | 1 | 8 => (x (core c) 16 = m p)%Z
  | 4 => (m p = 0)%Z
  | 9 => (flag_z (core c) = true → m p = x (core c) 18)%Z
  | 10 => (m p = x (core c) 18)%Z
  | _ => True
  end%nat.

(** The threads: who holds the lock, who waits for it. *)
Record threads_inv (p : Z) (ws : list Z) (f : Z → client) (owner : option Z) : Prop := {
  ti_client : ∀ t, is_thread t → (at_ (f t) ≤ 13)%nat ∧ physical (x (core (f t)) 17) = p ∧
    x (core (f t)) 18 = thread_code t;
  ti_holds : ∀ t, is_thread t → has_lock (f t) = true ↔ owner = Some t;
  ti_nodup : NoDup ws;
  ti_waiting : ∀ t, t ∈ ws → is_thread t;
  ti_waits : ∀ t, is_thread t → waits (f t) = true ↔ t ∈ ws;
  ti_place : ∀ t, is_thread t → waits (f t) = true → at_ (f t) = 3%nat;
}.

(** The word of the lock names the holder and the first thread that waits. *)
Definition word_says (w : Z) (ws : list Z) (owner : option Z) : Prop :=
  match owner with
  | None => w = 0 ∧ ws = []
  | Some h => is_thread h ∧ w = Locks.lock_word h ws
  end.

Definition running_says (p : Z) (m : Z → Z) (c : client) : Prop := waits c = false ∧ monitor_says m p c.

Record lock_inv (p : Z) (s : lock_system) (owner : option Z) : Prop := {
  li_current : is_thread (current s);
  li_running : running_says p (memory s) (clients s (current s));
  li_word : word_says (memory s p) (waiting s) owner;
  li_threads : threads_inv p (waiting s) (clients s) owner;
}.

Lemma starts_inv p s : lock_starts p s → lock_inv p s None.
Proof.
  intros [Hf Hw Hc Hcl]. split; [done | | done | rewrite Hw; split].
  - destruct (Hcl _ Hc) as (E & ? & _). split; [done |]. unfold monitor_says. now rewrite E.
  - intros t Ht. destruct (Hcl t Ht) as (-> & _ & ? & ?). split; [lia | done].
  - intros t Ht. destruct (Hcl t Ht) as (E & _). unfold has_lock. rewrite E. done.
  - constructor.
  - intros t Ht. by apply elem_of_nil in Ht.
  - intros t Ht. destruct (Hcl t Ht) as (_ & -> & _). split; [done | intros E; by apply elem_of_nil in E].
  - intros t Ht E. destruct (Hcl t Ht) as (_ & E' & _). congruence.
Qed.

Lemma set_thread_same t c f : set_thread t c f t = c.
Proof. unfold set_thread. now rewrite decide_True. Qed.

Lemma set_thread_other t c f u : u ≠ t → set_thread t c f u = f u.
Proof. intros H. unfold set_thread. now rewrite decide_False. Qed.

(** One thread goes on: what has to be shown of it alone. *)
Lemma threads_inv_set p ws f o t c ws' o' :
  threads_inv p ws f o →
  (at_ c ≤ 13)%nat → physical (x (core c) 17) = p → x (core c) 18 = thread_code t → is_thread t →
  (has_lock c = true ↔ o' = Some t) → (∀ u, u ≠ t → o' = Some u ↔ o = Some u) →
  NoDup ws' → (∀ u, u ≠ t → u ∈ ws' ↔ u ∈ ws) → (waits c = true ↔ t ∈ ws') →
  (waits c = true → at_ c = 3%nat) →
  threads_inv p ws' (set_thread t c f) o'.
Proof.
  intros [I1 I2 I3 I4 I5 I6] A1 A2 A3 Ht Hh Ho Hn Hw Hwt Hp. split; try done.
  all: intros u Hu; destruct (decide (u = t)) as [-> | Hne];
    rewrite ?set_thread_same, ?set_thread_other by done; try done.
  - by apply I1.
  - rewrite Ho by done. by apply I2.
  - apply I4. by apply Hw.
  - rewrite Hw by done. by apply I5.
  - by apply I6.
Qed.

Lemma holds_monitor m n c w : has_lock (Client n (set_monitor m c) w) = has_lock (Client n c w).
Proof. reflexivity. Qed.

Lemma threads_inv_resume p ws f o t : threads_inv p ws f o → is_thread t → threads_inv p ws (resume t f) o.
Proof.
  intros I Ht. pose proof I as [I1 I2 I3 I4 I5 I6]. destruct (I1 t Ht) as (A1 & A2 & A3).
  apply (threads_inv_set p ws f o); try done; [by apply I2 | by apply I5 | by apply I6].
Qed.

Lemma resume_runs p m f t : waits (f t) = false → running_says p m (resume t f t).
Proof. intros H. unfold resume. rewrite set_thread_same. split; [exact H | intros E; discriminate E]. Qed.

(** After an exception return nothing is to be shown of the monitor. *)
Lemma lock_inv_resume p m ws f o t :
  is_thread t → waits (f t) = false → word_says (m p) ws o → threads_inv p ws f o →
  lock_inv p (LockSystem m ws t (resume t f)) o.
Proof. intros Ht Hw Hm I. split; cbn; [done | by apply resume_runs | done | by apply threads_inv_resume]. Qed.

(** ** The steps *)

Section step.
Context (p : Z) (s : lock_system) (o : option Z) (I : lock_inv p s o).

Abbreviation t := (current s).
Abbreviation c0 := (clients s (current s)).

Lemma current_waits : waits c0 = false ∧ t ∉ waiting s.
Proof.
  destruct I as [Ht [Hw _] _ [_ _ _ _ I5 _]]. split; [exact Hw |]. intros H. apply I5 in H; [| exact Ht]. congruence.
Qed.

(** The running thread goes on and the waiting ones stay. *)
Lemma run_to n c o' :
  (n ≤ 13)%nat → x c 17 = x (core c0) 17 → x c 18 = x (core c0) 18 →
  monitor_says (words c) p (Client n c false) → word_says (words c p) (waiting s) o' →
  (has_lock (Client n c false) = true ↔ o' = Some t) → (∀ u, u ≠ t → o' = Some u ↔ o = Some u) →
  lock_inv p (LockSystem (words c) (waiting s) t (set_thread t (Client n c false) (clients s))) o'.
Proof using I.
  intros Hn H17 H18 Hm Hw Hh Ho. destruct current_waits as [_ Hnot].
  destruct I as [Ht _ _ J]. pose proof J as [I1 _ I3 _ _ _]. destruct (I1 _ Ht) as (_ & A2 & A3).
  split; cbn; [done | | done |].
  - rewrite set_thread_same. now split.
  - apply (threads_inv_set p (waiting s) (clients s) o); cbn [core at_ waits]; try done; [by rewrite H17 | by rewrite H18].
Qed.

(** An instruction that leaves the lock alone. *)
Lemma run_same n c :
  (n ≤ 13)%nat → x c 17 = x (core c0) 17 → x c 18 = x (core c0) 18 → words c = memory s →
  monitor_says (memory s) p (Client n c false) → has_lock (Client n c false) = has_lock c0 →
  ∃ o', lock_inv p (LockSystem (words c) (waiting s) t (set_thread t (Client n c false) (clients s))) o'.
Proof using I.
  intros Hn H17 H18 Hw Hm Hh. exists o. destruct (I) as [Ht _ W [_ I2 _ _ _ _]].
  apply run_to; rewrite ?Hw; try done. rewrite Hh. now apply I2.
Qed.

(** The exclusive store of [CLAIM_LOCK]. *)
Lemma run_claims c :
  memory s p = 0 → x c 17 = x (core c0) 17 → x c 18 = x (core c0) 18 → x c 16 = 0 →
  words c p = thread_code t →
  ∃ o', lock_inv p (LockSystem (words c) (waiting s) t (set_thread t (Client 5 c false) (clients s))) o'.
Proof using I.
  intros H0 H17 H18 H16 Hw. exists (Some t). destruct (I) as [Ht _ W [_ _ _ I4 _ _]].
  assert (o = None ∧ waiting s = []) as [Ho Hws].
  { destruct o as [h |]; cbn in W; [| tauto]. destruct W as [Hh W]. exfalso.
    eapply (lock_word_not_0 h (waiting s)); [done | done | congruence]. }
  apply run_to; [lia | done | done | done | | |].
  - rewrite Hw, Hws. split; [done |]. now rewrite lock_word_alone.
  - change (has_lock (Client 5 c false)) with (bool_decide (x c 16 = 0)). by rewrite H16.
  - intros u Hu. rewrite Ho. split; congruence.
Qed.

(** The exclusive store of [RELEASE_LOCK]. *)
Lemma run_releases c :
  o = Some t → memory s p = thread_code t → x c 17 = x (core c0) 17 → x c 18 = x (core c0) 18 → x c 16 = 0 →
  words c p = 0 →
  ∃ o', lock_inv p (LockSystem (words c) (waiting s) t (set_thread t (Client 11 c false) (clients s))) o'.
Proof using I.
  intros Ho Hc H17 H18 H16 Hw. exists None. destruct (I) as [Ht _ W [_ _ _ I4 _ _]].
  rewrite Ho in W. cbn in W. destruct W as [_ W].
  assert (waiting s = []) as Hws by (eapply lock_word_bare; [exact Ht | exact I4 | congruence]).
  apply run_to; [lia | done | done | done | now rewrite Hw, Hws | |].
  - change (has_lock (Client 11 c false)) with (negb (bool_decide (x c 16 = 0))). by rewrite H16.
  - intros u Hu. rewrite Ho. split; congruence.
Qed.
End step.

Section steps.
Context (base p : Z) (s : lock_system) (o : option Z) (I : lock_inv p s o).

Abbreviation t := (current s).
Abbreviation c0 := (clients s (current s)).
Abbreviation c1 := (set_words (memory s) (core (clients s (current s)))).

Lemma current_code : physical (x (core c0) 17) = p ∧ x (core c0) 18 = thread_code t ∧ waits c0 = false.
Proof. destruct I as [Ht [Hw _] _ [I1 _ _ _ _ _]]. destruct (I1 _ Ht) as (_ & H17 & H18). done. Qed.

Lemma current_holds b : has_lock c0 = b → o = Some t ↔ b = true.
Proof. destruct I as [Ht _ _ [_ I2 _ _ _ _]]. intros <-. symmetry. now apply I2. Qed.

Lemma load_lock c : x c 17 = x (core c0) 17 → words c = memory s → load c (x c 17) = memory s p.
Proof. intros H17 Hw. destruct current_code as (<- & _). unfold load. now rewrite Hw, H17. Qed.

Lemma store_lock c v : x c 17 = x (core c0) 17 → words (set_monitor None (store (x c 17) v c)) p = v.
Proof.
  intros H17. destruct current_code as (<- & _). change (words (set_monitor None (store (x c 17) v c))) with (upd_word (words c) (physical (x c 17)) v).
  rewrite H17. now apply upd_word_eq.
Qed.

Lemma holds_at n : at_ c0 = n → has_lock c0 = has_lock (Client n (core c0) false).
Proof. intros <-. destruct current_code as (_ & _ & H). destruct c0 as [k c w]. cbn in H. now subst w. Qed.

Lemma monitor_at n : at_ c0 = n → monitor_says (memory s) p (Client n (core c0) false).
Proof. intros <-. destruct I as [_ [_ M] _ _]. exact M. Qed.

(** The exclusive stores, with the monitor set and without. *)
Lemma claim_step n c :
  at_ c0 = 4%nat → client_code 4 c1 = At n c →
  ∃ o', lock_inv p (LockSystem (words c) (waiting s) t (set_thread t (Client n c false) (clients s))) o'.
Proof using I.
  intros Ek H. destruct current_code as (H17 & H18 & _). cbn [client_code] in H. case_bool_decide as Hm; injection H as <- <-.
  - apply (run_claims p s o I); try reflexivity.
    + apply (monitor_at 4 Ek). rewrite <- H17. exact Hm.
    + etransitivity; [apply store_lock; reflexivity | exact H18].
  - apply (run_same p s o I); try reflexivity; [lia | done |]. now rewrite (holds_at 4 Ek).
Qed.

Lemma release_step n c :
  at_ c0 = 10%nat → client_code 10 c1 = At n c →
  ∃ o', lock_inv p (LockSystem (words c) (waiting s) t (set_thread t (Client n c false) (clients s))) o'.
Proof using I.
  intros Ek H. destruct current_code as (H17 & H18 & _). cbn [client_code] in H. case_bool_decide as Hm; injection H as <- <-.
  - apply (run_releases p s o I); try reflexivity.
    + apply (current_holds true); [| reflexivity]. now rewrite (holds_at 10 Ek).
    + rewrite <- H18. apply (monitor_at 10 Ek). rewrite <- H17. exact Hm.
    + apply store_lock. reflexivity.
  - apply (run_same p s o I); try reflexivity; [lia | done |]. now rewrite (holds_at 10 Ek).
Qed.

(** The exclusive loads. *)
Lemma load_step k n c :
  at_ c0 = k → k = 0%nat ∨ k = 7%nat → client_code k c1 = At n c →
  ∃ o', lock_inv p (LockSystem (words c) (waiting s) t (set_thread t (Client n c false) (clients s))) o'.
Proof using I.
  intros Ek Hk H. assert (load c1 (x c1 17) = memory s p) as Hl by (apply load_lock; reflexivity).
  destruct Hk as [-> | ->]; injection H as <- <-; (apply (run_same p s o I); try reflexivity; [lia | |]).
  1, 3: intros _; exact Hl.
  - now rewrite (holds_at 0 Ek).
  - now rewrite (holds_at 7 Ek).
Qed.

(** The other instructions change neither memory nor the registers of the lock. *)
Lemma plain_step k n c :
  at_ c0 = k → k ∈ [1; 3; 5; 6; 8; 9; 11; 13]%nat → client_code k c1 = At n c →
  ∃ o', lock_inv p (LockSystem (words c) (waiting s) t (set_thread t (Client n c false) (clients s))) o'.
Proof using I.
  intros Ek Hk H. pose proof (holds_at k Ek) as Hh. pose proof (monitor_at k Ek) as Hm.
  assert (∀ n' f, (n' ≤ 13)%nat → words f = memory s → x f 17 = x (core c0) 17 → x f 18 = x (core c0) 18 →
    monitor_says (memory s) p (Client n' f false) → has_lock (Client n' f false) = has_lock (Client k (core c0) false) →
    At n' f = At n c → ∃ o', lock_inv p (LockSystem (words c) (waiting s) t (set_thread t (Client n c false) (clients s))) o') as J.
  { intros n' f H1 H2 H3 H4 H5 H6 E. injection E as -> ->. apply (run_same p s o I); try done. congruence. }
  repeat (apply elem_of_cons in Hk as [-> | Hk]); [.. | by apply elem_of_nil in Hk]; cbn [client_code] in H.
  - case_bool_decide as E; (eapply J; [| | | | | | exact H]; try reflexivity; [lia |]); [| done].
    intros M. rewrite <- (Hm M). exact E.
  - eapply J; [| | | | | | exact H]; try reflexivity; [lia | done].
  - case_bool_decide as E; cbn [negb] in H; (eapply J; [| | | | | | exact H]; try reflexivity; [lia | done |]).
    + change (true = bool_decide (x (core c0) 16 = 0)). symmetry. by apply bool_decide_eq_true_2.
    + change (false = bool_decide (x (core c0) 16 = 0)). symmetry. by apply bool_decide_eq_false_2.
  - eapply J; [| | | | | | exact H]; try reflexivity; [lia | done].
  - eapply J; [| | | | | | exact H]; try reflexivity; [lia |].
    intros M F. apply bool_decide_eq_true in F. rewrite <- (Hm M). exact F.
  - destruct (flag_z c1) eqn:E; cbn [negb] in H; (eapply J; [| | | | | | exact H]; try reflexivity; [lia |]); [| done].
    intros M. apply (Hm M). exact E.
  - case_bool_decide as E; (eapply J; [| | | | | | exact H]; try reflexivity; try lia; try (intros _; exact Logic.I)).
    + change (false = negb (bool_decide (x (core c0) 16 = 0))). rewrite bool_decide_eq_true_2; [done | exact E].
    + change (true = negb (bool_decide (x (core c0) 16 = 0))). rewrite bool_decide_eq_false_2; [done | exact E].
  - eapply J; [| | | | | | exact H]; try reflexivity; [lia | done].
Qed.
End steps.

(** ** The supervisor calls *)

Lemma upd_word_self m p v : upd_word m p v p = v.
Proof. now apply upd_word_eq. Qed.

Lemma client_code_svc k n m c f : client_code n c = Svcs k m f →
  f = c ∧ (k = ISAMBARD_LOCK_WAIT ∧ n = 2%nat ∧ m = 3%nat ∨ k = ISAMBARD_LOCK_RELEASE ∧ n = 12%nat ∧ m = 13%nat).
Proof.
  intros H. do 14 (destruct n as [|n]; [cbn [client_code] in H; repeat case_bool_decide; try destruct (flag_z c);
    try discriminate H; injection H as <- <- <-; auto |]).
  discriminate H.
Qed.

(** A thread that joins the waiting ones. *)
Lemma lock_word_join h ws t : is_thread t →
  (if bool_decide (ws = []) then Z.lor (Locks.lock_word h ws) (u64 (Z.shiftl (thread_code t) 32)) else Locks.lock_word h ws) =
  Locks.lock_word h (ws ++ [t]).
Proof.
  intros Ht. case_bool_decide as E.
  - subst ws. rewrite lock_word_alone. pose proof (thread_code_pos t Ht).
    assert (u64 (Z.shiftl (thread_code t) 32) = Z.shiftl (thread_code t) 32) as ->; [| reflexivity].
    rewrite Z.shiftl_mul_pow2 by lia. unfold u64. apply Z.mod_small. lia.
  - destruct ws as [|w ws]; [done |]. reflexivity.
Qed.

Section calls.
Context (p : Z) (s : lock_system) (o : option Z) (I : lock_inv p s o).

Abbreviation t := (current s).
Abbreviation c0 := (clients s (current s)).
Abbreviation c1 := (set_words (memory s) (core (clients s (current s)))).

Lemma word_owner : memory s p ≠ 0 ↔ is_Some o.
Proof.
  destruct I as [_ _ W [_ _ _ I4 _ _]]. destruct o as [h |]; cbn in W.
  - split; [by eexists |]. intros _. destruct W as [Hh ->]. now apply lock_word_not_0.
  - split; [tauto | intros [? ?]; discriminate].
Qed.

Lemma owner_none : memory s p = 0 → o = None ∧ waiting s = [].
Proof.
  intros H0. destruct I as [_ _ W _]. pose proof (proj2 word_owner) as N.
  destruct o as [h |]; [exfalso; apply N; [by eexists | exact H0] | split; [done | apply W]].
Qed.

(** The supervisor call for a lock that is free. *)
Lemma wait_free_inv m ws :
  at_ c0 = 2%nat → m p = thread_code t → ws = waiting s → memory s p = 0 →
  lock_inv p (LockSystem m ws t (resume t (set_thread t (Client 3 c1 false) (clients s)))) (Some t).
Proof using I.
  intros Ek Hm -> H0. destruct (owner_none H0) as [Ho Hws]. destruct (current_code p s o I) as (H17 & H18 & Hw).
  destruct (I) as [Ht _ _ J]. apply lock_inv_resume; [done | now rewrite set_thread_same | |].
  - rewrite Hm, Hws. split; [done |]. now rewrite lock_word_alone.
  - destruct (J) as [_ _ I3 _ _ _]. apply (threads_inv_set p (waiting s) (clients s) o); try done; [cbn; lia | |].
    + intros u Hu. rewrite Ho. split; congruence.
    + rewrite Hws. split; [done | intros E; by apply elem_of_nil in E].
Qed.

(** The supervisor call for a lock that is held. *)
Lemma wait_held_inv m u :
  at_ c0 = 2%nat → memory s p ≠ 0 → is_thread u → u ≠ t → waits (clients s u) = false →
  m p = (if bool_decide (waiting s = []) then Z.lor (memory s p) (u64 (Z.shiftl (thread_code t) 32)) else memory s p) →
  lock_inv p (LockSystem m (waiting s ++ [t]) u (resume u (set_thread t (Client 3 c1 true) (clients s)))) o.
Proof using I.
  intros Ek Hne Hu Hut Huw Hm. destruct (current_code p s o I) as (H17 & H18 & Hw).
  pose proof (current_holds p s o I false) as Hh. rewrite (holds_at p s o I 2 Ek) in Hh. specialize (Hh eq_refl).
  destruct (current_waits p s o I) as [_ Hnot]. pose proof (proj1 word_owner Hne) as [h Eo].
  destruct (I) as [Ht _ W J]. destruct (J) as [_ _ I3 _ I5 _].
  apply lock_inv_resume; [done | now rewrite set_thread_other | |].
  - rewrite Eo in W |- *. destruct W as [Hht W]. split; [done |]. rewrite Hm, W. now apply lock_word_join.
  - apply (threads_inv_set p (waiting s) (clients s) o); try done; try (cbn; lia).
    + apply NoDup_app. split; [done |]. split; [| apply NoDup_singleton]. intros v Hv ->%list_elem_of_singleton. done.
    + intros v Hv. rewrite elem_of_app, list_elem_of_singleton. tauto.
    + split; [| done]. intros _. apply elem_of_app. right. by apply list_elem_of_singleton.
Qed.

(** The supervisor call that gives the lock up, without a waiting thread and with one. *)
Lemma release_none_inv m :
  at_ c0 = 12%nat → waiting s = [] → m p = 0 →
  lock_inv p (LockSystem m [] t (resume t (set_thread t (Client 13 c1 false) (clients s)))) None.
Proof using I.
  intros Ek Hws Hm. destruct (current_code p s o I) as (H17 & H18 & Hw).
  pose proof (current_holds p s o I true) as Hh. rewrite (holds_at p s o I 12 Ek) in Hh. specialize (Hh eq_refl).
  destruct (I) as [Ht _ W J]. apply lock_inv_resume; [done | now rewrite set_thread_same | done |].
  rewrite Hws in J. apply (threads_inv_set p [] (clients s) o); try done; [intros u Hu | apply NoDup_nil_2 |].
  - rewrite (proj2 Hh eq_refl). split; congruence.
  - split; [done | intros E; by apply elem_of_nil in E].
Qed.

Lemma release_to_inv m w ws :
  at_ c0 = 12%nat → waiting s = w :: ws → m p = Locks.lock_word w ws →
  lock_inv p (LockSystem m ws w (resume w (set_thread w (Client (at_ (clients s w)) (core (clients s w)) false)
    (set_thread t (Client 13 c1 false) (clients s))))) (Some w).
Proof using I.
  intros Ek Hws Hm. destruct (current_code p s o I) as (H17 & H18 & _).
  pose proof (current_holds p s o I true) as Hh. rewrite (holds_at p s o I 12 Ek) in Hh. specialize (Hh eq_refl).
  destruct (current_waits p s o I) as [_ Hnot]. destruct (I) as [Ht _ _ J].
  pose proof J as [I1 _ I3 I4 I5 I6]. rewrite Hws in I3, I4, I5, Hnot. apply NoDup_cons in I3 as [Hw3 I3].
  apply not_elem_of_cons in Hnot as [Htw Hnot].
  assert (w ∈ w :: ws) as Hin by left. pose proof (I4 w Hin) as Hwt. destruct (I1 w Hwt) as (W1 & W2 & W3).
  pose proof (proj2 (I5 w Hwt) Hin) as Hww. pose proof (I6 w Hwt Hww) as Hat.
  apply lock_inv_resume; [done | now rewrite set_thread_same | by rewrite Hm |].
  apply (threads_inv_set p (w :: ws) _ None); try done.
  - rewrite Hws in J. apply (threads_inv_set p (w :: ws) (clients s) o); try done; [intros u Hu | by apply NoDup_cons |].
    + rewrite (proj2 Hh eq_refl). split; congruence.
    + split; [done |]. intros [E | E]%elem_of_cons; done.
  - rewrite Hat. done.
  - intros u Hu. split; congruence.
  - intros u Hu. rewrite elem_of_cons. tauto.
Qed.
End calls.

(** ** Every interleaving *)

Section interleavings.
Context (base p : Z).

Lemma client_step_at s o n c :
  lock_inv p s o → client_step base s = At n c →
  ∃ o', lock_inv p (LockSystem (words c) (waiting s) (current s) (set_thread (current s) (Client n c false) (clients s))) o'.
Proof.
  intros I H. unfold client_step in H. cbv zeta in H. rewrite client_code_ok in H.
  pose proof I as [Ht _ _ [I1 _ _ _ _ _]]. destruct (I1 _ Ht) as (A1 & _).
  remember (at_ (clients s (current s))) as k eqn:Ek. symmetry in Ek.
  assert (k ∈ [1; 3; 5; 6; 8; 9; 11; 13]%nat ∨ k = 4%nat ∨ k = 10%nat ∨ (k = 0%nat ∨ k = 7%nat) ∨ k = 2%nat ∨ k = 12%nat)
    as [Hk | [-> | [-> | [Hk | [-> | ->]]]]].
  { do 14 (destruct k as [|k]; [rewrite ?elem_of_cons; auto 15 |]). lia. }
  - by eapply plain_step.
  - by eapply claim_step.
  - by eapply release_step.
  - by eapply load_step.
  - discriminate H.
  - discriminate H.
Qed.

Lemma client_step_svc s k n c :
  client_step base s = Svcs k n c →
  c = set_words (memory s) (core (clients s (current s))) ∧
  (k = ISAMBARD_LOCK_WAIT ∧ at_ (clients s (current s)) = 2%nat ∧ n = 3%nat ∨
   k = ISAMBARD_LOCK_RELEASE ∧ at_ (clients s (current s)) = 12%nat ∧ n = 13%nat).
Proof. intros H. unfold client_step in H. cbv zeta in H. rewrite client_code_ok in H. by apply client_code_svc. Qed.

(** Each step keeps the invariant. *)
Lemma lock_step_inv s s' o : lock_inv p s o → lock_step base p s s' → ∃ o', lock_inv p s' o'.
Proof.
  intros I H. pose proof (current_code p s o I) as (_ & H18 & _).
  destruct H as [n c E | m Ek Hm | u Hu Huw | n c E H0 | n c u E H0 Hu Hut Huw m | n c E Hws | n c w ws E Hws].
  - by eapply client_step_at.
  - exists o. destruct I as [Ht [Hw M] W J]. split; cbn; [done | | by rewrite Hm | done].
    split; [done |]. unfold monitor_says. now rewrite Ek.
  - exists o. pose proof I as [_ _ W J]. by apply lock_inv_resume.
  - destruct (client_step_svc _ _ _ _ E) as (-> & [(_ & Ek & ->) | (Hk & _)]); [| discriminate Hk].
    eexists. apply (wait_free_inv p s o I); [done | | done | done]. by etransitivity; [apply upd_word_self | exact H18].
  - destruct (client_step_svc _ _ _ _ E) as (-> & [(_ & Ek & ->) | (Hk & _)]); [| discriminate Hk].
    exists o. apply (wait_held_inv p s o I); try done. subst m. case_bool_decide; [| done].
    rewrite upd_word_self. by rewrite x_set_words, H18.
  - destruct (client_step_svc _ _ _ _ E) as (-> & [(Hk & _) | (_ & Ek & ->)]); [discriminate Hk |].
    eexists. apply (release_none_inv p s o I); [done | done | apply upd_word_self].
  - destruct (client_step_svc _ _ _ _ E) as (-> & [(Hk & _) | (_ & Ek & ->)]); [discriminate Hk |].
    eexists. apply (release_to_inv p s o I); [done | done | apply upd_word_self].
Qed.

Lemma reaches_inv s s' : lock_starts p s → reaches base p s s' → ∃ o, lock_inv p s' o.
Proof.
  intros Hs H. induction H as [| s' s'' _ [o I] Hst]; [eexists; by apply starts_inv |].
  by eapply lock_step_inv.
Qed.
End interleavings.

Definition held (s : lock_system) : Prop := ∃ t, is_thread t ∧ has_lock (clients s t) = true.

(** C13: However the threads that use a lock are interleaved, at most one of them is between
    the instruction that gets the lock and the one that gives it up; the word of the lock
    names that thread and the first one that waits, so that the supervisor call for the release
    is only made by the holder and passes the kernel's checks; and when nobody has the lock, its word
    is 0 and nobody waits. *)
Theorem lock_excludes base p s s' :
  lock_starts p s → reaches base p s s' →
  (∀ t u, is_thread t → is_thread u → has_lock (clients s' t) = true → has_lock (clients s' u) = true → t = u) ∧
  (∀ t, is_thread t → has_lock (clients s' t) = true →
    memory s' p = Locks.lock_word t (waiting s') ∧ t ∉ waiting s') ∧
  (∀ n c, client_step base s' = Svcs ISAMBARD_LOCK_RELEASE n c → has_lock (clients s' (current s')) = true) ∧
  (∀ t, is_thread t → waits (clients s' t) = true ↔ t ∈ waiting s') ∧ NoDup (waiting s') ∧
  (¬ held s' → memory s' p = 0 ∧ waiting s' = []).
Proof.
  intros Hs H. destruct (reaches_inv base p s s' Hs H) as [o I].
  pose proof I as [_ _ W [_ I2 I3 _ I5 I6]]. split; [| split; [| split; [| split; [| split]]]].
  - intros t u Ht Hu E1%I2 E2%I2; [congruence | done | done].
  - intros t Ht E. pose proof (proj1 (I2 t Ht) E) as Eo. rewrite Eo in W. split; [apply W |].
    intros Hin%I5; [| done]. pose proof (I6 t Ht Hin) as Hat. unfold has_lock in E. rewrite Hat, Hin in E. discriminate E.
  - intros n c E. destruct (client_step_svc base s' _ _ _ E) as (_ & [(Hk & _) | (_ & Ek & _)]); [discriminate Hk |].
    unfold has_lock. now rewrite Ek.
  - exact I5.
  - exact I3.
  - intros Hn. destruct o as [h |]; [| exact W]. exfalso. apply Hn. exists h. split; [apply W |].
    now apply I2; [apply W |].
Qed.

(** ** Two threads *)

(** The threads of the example; the lock is at 0x2800. *)
Definition thread_a : Z := start_address + 0x100.
Definition thread_b : Z := start_address + 0x200.

Definition example_client (t : Z) : client :=
  Client 0 (set_reg (X 17) 0x2800 (set_reg (X 18) (thread_code t) example_caller)) false.

Definition example_start : lock_system := LockSystem (λ _, 0) [] thread_a example_client.

(** The current thread executes [n] instructions. *)
Fixpoint advance (base : Z) (n : nat) (s : lock_system) : lock_system :=
  match n, client_step base s with
  | S n, At m c =>
      advance base n (LockSystem (words c) (waiting s) (current s) (set_thread (current s) (Client m c false) (clients s)))
  | _, _ => s
  end.

Lemma advance_reaches base p n s s' : reaches base p s s' → reaches base p s (advance base n s').
Proof.
  revert s'. induction n as [|n IH]; intros s' H; cbn [advance]; [done |].
  destruct (client_step base s') eqn:E; try done. apply IH. eapply reaches_step; [exact H | by apply run_step].
Qed.

(** [thread_a] takes the lock, and [thread_b] runs as far as the supervisor call. *)
Definition example_held : lock_system :=
  let s := advance 0x1000 5 example_start in
  advance 0x1000 2 (LockSystem (memory s) (waiting s) thread_b (resume thread_b (clients s))).

Lemma example_starts : lock_starts 0x2800 example_start.
Proof. split; try done. Qed.

Lemma example_reaches : reaches 0x1000 0x2800 example_start example_held.
Proof.
  unfold example_held. cbv zeta. apply advance_reaches. eapply reaches_step; [apply advance_reaches, reaches_refl |].
  apply preempt; [done | reflexivity].
Qed.

Lemma example_a_holds : has_lock (clients example_held thread_a) = true.
Proof. vm_compute. reflexivity. Qed.

Lemma lock_excludes_witness :
  (∃ c, client_step 0x1000 example_held = Svcs ISAMBARD_LOCK_WAIT 3 c) ∧
  memory example_held 0x2800 = Locks.lock_word thread_a [] ∧ held example_held.
Proof.
  split; [| split; [| exists thread_a; split; [done | exact example_a_holds]]].
  - unfold client_step. cbv zeta. rewrite client_code_ok.
    assert (at_ (clients example_held (current example_held)) = 2%nat) as -> by (vm_compute; reflexivity).
    eexists. reflexivity.
  - destruct (lock_excludes 0x1000 0x2800 _ _ example_starts example_reaches) as (_ & H & _).
    assert (waiting example_held = []) as Hw by (vm_compute; reflexivity).
    rewrite <- Hw. apply (H thread_a); [split; reflexivity | exact example_a_holds].
Defined.
